(* ===== verification/_CoqProject ===== *)
-Q . S2P
Prelude.v
Bits.v
Links.v
Defs.v
Words.v
Kernel.v
Exec.v
Sched.v
SchedInv.v
SchedOps.v
Schedule.v
Fairness.v
Demo.v
SchedThms.v
Waiting.v
Alloc.v
Mutexes.v
Caches.v
Caps.v
Authority.v
Mapping.v
PageTables.v
Space.v
Tcb.v
Ipc.v
Rendezvous.v
Thread.v
Fault.v
Exregs.v
Umutex.v
Contention.v
Newqueue.v
Ulock.v
Uqueue.v
Time.v
Clock.v
Irq.v
Syscalls.v
Resource.v
Boot.v
Memcaps.v
Container.v
Malloc.v
Pools.v
PageAlloc.v
Memfs.v
Vm.v
Shadow.v
Pagecache.v
Mmap.v
Shm.v
Forking.v
Paths.v
Vfs.v
Mmdemo.v
Cow.v
Regions.v
Files.v
Names.v
Directories.v
Rootfs.v
Tasks.v
Family.v
Elf.v
Execve.v
Serve.v
Loading.v
Succession.v
Requests.v
Startup.v
Bringup.v
Strings.v
Sleepers.v
Userthreads.v
Printk.v
