(* ===== verification/Prelude.v ===== *)
(** * Codezero: a development of its kernel and of its POSIX pager

    Codezero is an L4-style microkernel in C.  The kernel ([src], [include/l4])
    consists of a scheduler with wait queues and sleeping mutexes, memory caches
    and id pools, capabilities, page tables and address spaces, threads,
    synchronous ipc, fault delivery to user pagers, interrupts and the boot code
    that creates containers (the kernel's isolated guests) and their pagers.
    The largest guest is the POSIX container, whose pager [conts/posix/mm0]
    serves the system calls of a POSIX system by ipc: virtual memory with
    copy-on-write, shared memory, a page cache over a file system in memory,
    names, tasks, [fork], [exit] and [execve].  It stands on the libraries of
    [conts/userlibs].  A name such as [generic/scheduler.c] below is a file
    under [src] of the kernel, [mm/fault.c] one of the pager; [libl4], [libmem]
    and [libc] are libraries.  The configuration modelled is the ARMv5 processor
    on the PB926 platform, one processor ([NCPU = 1], no SMP), capabilities on
    ([CONFIG_CAPABILITIES]), 1000 ticks a second.

    ** How code is translated

    The kernel's memory is one record, [Kernel.kstate]; C objects are named by
    their address, a [Z], and a field [t->f] is the function [f] of the object's
    record.  A C function on this state is a term of the monad [K] of file
    Prelude: it returns a value and a state, stops at a [BUG()] or a failed
    [BUG_ON] ([Bug]), or gives up the processor ([Switch s k]): [s] is the state
    handed to the next thread and [k] the rest of the call, run on whatever
    state the thread finds when it gets the processor back.  What happens
    meanwhile is left to the theorems, which quantify over the state [k] is
    given.  Functions keep the names they have in C.  Words are [Z], reduced by
    [u32] and [s32] where the code may wrap around; errors are the negative
    numbers of [errno.h]; linked lists are lists of addresses in the order of
    their links, an abstraction that file Links justifies against the pointer
    operations of [list.h].

    The pager is a program of one thread.  Its functions are terms of the same
    monad over its own state, [Vm.mm], which [Switch] does not occur in: the heap,
    the page allocator, the pools, the file system, what it knows of the kernel,
    and a map for each kind of structure.  A structure is named by the address
    [Malloc.kmalloc] gave it, so that allocation, release and aliasing are the
    heap's.  Start-up ([Startup.boot]) wraps this state in what is there before
    it.  Following a null pointer or a link of released memory is a [Bug].

    Two interfaces stand between parts.  [Vm.kernel_abi] is what the pager asks
    of the kernel: to map and unmap pages, to control threads and to exchange
    registers.  The pager's theorems hold whatever answers it gives; Mmdemo has an
    instance with page tables.  [Vm.layout] is what the container's configuration
    and the linker fix: where memory, heap and regions of addresses lie.  What a
    theorem needs of it is among its hypotheses.

    ** Fuel

    Loops whose number of rounds is not the length of a list take [fuel], and
    running out is an outcome of its own ([OutOfFuel]; [None] in the files without
    a monad).  The theorems name the outcome of a call, so that they also show that
    the fuel given was enough.  In the kernel: [wake_up_all] (one round per
    sleeper, [wake_up_all_wakes_everyone]), [WAIT_EVENT], [mutex_lock] (one sleep
    per failed attempt), [wake_contenders] and the nesting of page-in requests.
    In the pager: scans of strings and paths (one round per character), path
    lookup (one level per component of the path), the walk along an area's links
    (one round per link), [msync] (one per area), the search of a pool for free
    addresses (one per bit).  [Strings.memcpy] needs half as many rounds as there
    are bytes.

    ** The kernel's files

    - Prelude: record update, outcomes and the monads, machine words.
      Bits: [lib/bit.c], [lib/idpool.c].  Links: [lib/list.h] and the lists of
      capabilities on pointers.  Defs: the constants of the headers and the
      address macros; Words: what these compute.
    - Kernel: the state, one record per C structure, and the accessors; locks
      and interrupt masking.  Exec: symbolic execution and the judgement
      [osafe] on outcomes.
    - Sched ([generic/scheduler.c], [lib/wait.c]) with its theory: SchedInv
      (the invariant [sched_inv]), SchedOps (each queue operation),
      Schedule ([schedule]), Fairness, SchedThms, and Waiting ([wait_on], the
      wake-up functions and the contract [steady] of a call that sleeps).
    - Alloc ([lib/mutex.c], [lib/memcache.c], allocation against capabilities)
      with Mutexes and Caches.  Caps ([generic/capability.c]) with Authority.
    - Mapping ([arch/arm/mapping-common.c], [arch/arm/v5/mapping.c]) with
      PageTables.  Space ([generic/space.c]), Tcb ([generic/tcb.c]).
    - Ipc ([api/ipc.c]) with Rendezvous.  Thread ([api/thread.c]), Fault
      ([arch/arm/exception-common.c], [arch/arm/v5/exception.c]), Exregs
      ([api/exregs.c]), Umutex ([api/mutex.c]), Time ([generic/time.c]) with
      Clock, Irq ([generic/irq.c], [api/irq.c], the PL190 and SP804 drivers),
      Syscalls (the rest of [api/] and the dispatcher).
    - Contention (the queues of [api/mutex.c] as numbers), Newqueue (a queue is
      made for the first to come), Ulock (the mutex of [libl4] on them, as steps
      of any number of threads) and Uqueue (the kernel's code refines those
      steps).
    - Resource ([generic/resource.c], [generic/bootmem.c], cache set-up) with
      Boot and Memcaps; Container ([generic/container.c]).
    - Printk ([lib/printk.c]): what is printed, as a list of characters.
    - Demo: a small concrete system at which theorems are instantiated.

    The files call each other as the C files do.  The one cycle, ipc that
    faults on a message buffer and is resolved by an ipc to the pager, is cut by
    a parameter: Space and Ipc take the page-in request as an argument, and
    Fault supplies it, at a bounded depth.

    ** The pager's files

    - Malloc ([libmem/malloc]), PageAlloc ([libmem/mm], [libmem/memcache]), Pools
      ([lib/bit.c], [lib/idpool.c], [lib/addr.c]): its memory.
    - Vm ([mm/vm_object.c], [mm/pagers.c] and the structures), Shadow
      ([mm/fault.c]) with Cow, Mmap ([mm/mmap.c], [mm/munmap.c]) with Regions,
      Shm ([mm/shm.c]), Forking (areas at a fork, copies of [mm/user.c]).
    - Memfs ([fs/memfs/file.c], [fs/memfs/memfs.c]), Pagecache ([mm/file.c]) with
      Files.
    - Paths ([lib/pathstr.c]), Vfs ([fs/path.c], [fs/lookup.c], [fs/vfs.c],
      [fs/memfs/vnode.c] and the system calls on paths) with Names (the graph of
      names), Directories ([mkdir]) and Rootfs (from [vfs_init] on).
    - Tasks ([mm/task.c], [mm/clone.c], [mm/exit.c], [mm/utcb.c]) with Family
      (the tree of tasks).  Elf ([lib/elf/elf.c], [mm/memory.c]) and Execve
      ([mm/execve.c]) with Loading and Succession.
    - Serve ([main.c]) with Requests.  Startup ([mm/init.c], [mm/capability.c],
      [mm/bootm.c], [mm/bootdesc.c]) with Bringup.
    - Mmdemo: a concrete pager.

    Three files stand beside the pager: Strings ([libc/src] and the kernel's
    [lib/string.c]), Userthreads ([libl4/src/lib/thread]) and Sleepers (the timer
    service of [conts/baremetal/timer_service]).

    ** What is proved of the kernel

    - Scheduling: [schedule] keeps the invariant and reaches no [BUG()], and says
      when the task it picks is runnable; without pending signals it refines a
      round robin over two queues, and while no task sleeps, wakes up or is made
      no queued task starves.  A task that waits is queued, asleep and switched away from; waking takes the
      longest sleeper, or all of them.
    - Mutexes and caches: a mutex is taken only when free and handed on;
      allocation yields an unused element inside the cache and release undoes
      it; the layout made at boot satisfies the invariant of both.  Userspace
      mutexes exclude each other and lose no wake-up, however the threads' steps
      interleave.
    - Bitmaps, ids and lists: refinement of sets of ids and of sequences.
    - Authority: capability accounting never exceeds the size, and the checks
      on mapping, ipc and interrupts decide exactly whether a capability that
      grants the operation is held.
    - Page tables: the hardware's walk of the two-level tables after a mapping
      is added, removed or checked, and in a new directory.
    - Ipc: the rendezvous of sender and receiver on each side, and its errors.
    - Time: [sys_time] reads one moment although the timer interrupts it.
    - Boot: memory capabilities lose exactly the range taken from them.
    - Printing: a number printed with any width and padding reads back.

    ** What is proved of the pager

    - Memory: the heap and the page allocator give out what nobody uses and take
      it back; [munmap] takes exactly a range out of a task's areas and
      the rest keeps its objects; a write to a
      private area adds a copy of the page and changes no other.
    - Files: what is written inside a file is read back, and neither the rest of
      the file nor any other file changes.
    - Names: [stat] refines walking a graph of names; [mkdir] adds one name, and
      paths that led somewhere lead there still.
    - Tasks: they are a tree from the first one on; [clone], [fork], [exit] and
      [execve] change it as they should, and so does every request served.
    - Programs: a program reads back its arguments from its first stack; the
      segments of an image are tiled by its sections.
    - Start-up: the pages handed over as free are those that neither the pager nor
      an image of the boot descriptor covers, given that images start on a page.

    ** What is proved of the other guests' code

    - A thread of the thread library is made whole or given back whole.
    - No sleeper of the timer service oversleeps by more than a second or is lost
      while each interrupt is taken by itself; [memcpy] copies what it is asked to when its pointers are even.

    Some theorems state behaviour that the code's comments do not intend, such as
    the interrupt state after [wake_up_task], the range test of interrupt
    capabilities, [cap_list_move] into a list that is not empty, a full message
    without a utcb, a page that a child loses to its parent's shadow, a write
    inside a file that halts the pager, a [memcpy] that copies too much and
    sleepers of the timer service that are stranded.

    ** Not modelled

    Assembly (entry, exit and context switch paths, the [memcpy] and [memset]
    that override the C ones) and the switch to virtual memory at boot; cache
    and TLB maintenance, which has no effect on the model's memory; SMP, other
    processors and platforms, which the configuration leaves out; the console,
    debugging output and the C library's formatted printing; devices beyond their
    register writes.  Interrupts are taken between the steps of a kernel call only
    where the code sleeps, and in [sys_time]: the handlers are functions of their
    own.

    Of the guests: the pager's device memory ([mm/dev.c]) and its self-tests, the
    headers and stubs of [libposix] and of [libl4], which pass arguments on, the
    drivers of [libdev], the set-up of the timer service and the demonstration
    and test programs.  Build scripts and the loader run before the kernel does. *)
From stdpp Require Export base numbers list functions option strings sets.
From Stdlib Require Export ZArith Lia.

(** Projections out of explicit pairs are computed before anything else. *)
#[global] Strategy expand [fst snd].
#[export] Set Default Goal Selector "!".
#[export] Set Warnings "-notation-overridden,-postfix-notation-not-level-1".

Declare Scope kernel_scope.
Delimit Scope kernel_scope with kernel.
#[global] Open Scope Z_scope.

(** ** Record update

    [Shape R] gives the record [R] in eta-expanded form; [Setter p] is found by
    abstracting the projection [p] in that form.  [r <| p := v |>] is C's
    [r.p = v] and [r <| p ::= f |>] is a read-modify-write of the field. *)
Class Shape (R : Type) : Type := rebuild : R -> R.
Class Setter {R T : Type} (proj : R -> T) : Type := set_field : (T -> T) -> R -> R.

Ltac find_setter :=
  match goal with
  | |- @Setter ?R ?T ?p =>
      let inst := constr:(_ : Shape R) in
      let inst := eval hnf in inst in
      let e := eval cbv beta in (fun r : R => inst r) in
      let e := eval pattern p in e in
      lazymatch e with
      | ?h p => exact (fun (f : T -> T) (r : R) => h (fun x : R => f (p x)) r)
      end
  end.

#[export] Hint Extern 1 (Setter _) => find_setter : typeclass_instances.

Notation "r <| p := v |>" := (set_field (proj := p) (fun _ => v) r)
  (at level 12, left associativity, p at level 9, v at level 200,
   format "r  <| p  :=  v |>") : kernel_scope.
Notation "r <| p ::= f |>" := (set_field (proj := p) f r)
  (at level 12, left associativity, p at level 9, f at level 200,
   format "r  <| p  ::=  f |>") : kernel_scope.
#[global] Open Scope kernel_scope.

(** ** Machine integers

    The target is a 32-bit ARM: [unsigned int], [unsigned long], [l4id_t] and
    pointers are 32 bits wide and wrap; [int] is two's complement. *)
Definition u32 (z : Z) : Z := z mod 2 ^ 32.
Definition s32 (z : Z) : Z := (z + 2 ^ 31) mod 2 ^ 32 - 2 ^ 31.
Definition is_u32 (z : Z) : Prop := 0 <= z < 2 ^ 32.

Lemma u32_range z : is_u32 (u32 z).
Proof. unfold is_u32, u32. apply Z.mod_pos_bound. lia. Qed.

Lemma u32_id z : is_u32 z -> u32 z = z.
Proof. intros. unfold u32. by apply Z.mod_small. Qed.

Lemma s32_id z : - 2 ^ 31 <= z < 2 ^ 31 -> s32 z = z.
Proof. intros. unfold s32. rewrite Z.mod_small; lia. Qed.

(** Bit operations on 32-bit words, with C's complement. *)
Definition lnot32 (z : Z) : Z := Z.lxor z (2 ^ 32 - 1).
Definition flag_set (f m : Z) : bool := negb (Z.land f m =? 0).

(** ** The kernel monad: state, [BUG()], and thread switches

    A kernel function is a state transformer that may hang in [BUG()], or
    give up the processor in [arch_context_switch()]: [Switch s k] has stored
    the state [s], in which another thread is current, and [k] is the rest of
    this thread's call, run in whatever state the thread is resumed in.
    [OutOfFuel] marks a retry loop cut short by the model. *)
Inductive outcome (S A : Type) : Type :=
| Ret (a : A) (s : S)
| Bug (where_ : string)
| OutOfFuel
| Switch (s : S) (k : S -> outcome S A).
Arguments Ret {S A} a s.
Arguments Bug {S A} where_.
Arguments OutOfFuel {S A}.
Arguments Switch {S A} s k.

Definition prog (S A : Type) : Type := S -> outcome S A.

Fixpoint obind {S A B : Type} (o : outcome S A) (f : A -> prog S B) : outcome S B :=
  match o with
  | Ret a s => f a s
  | Bug w => Bug w
  | OutOfFuel => OutOfFuel
  | Switch s k => Switch s (fun s' => obind (k s') f)
  end.

#[export] Instance prog_ret S : MRet (prog S) := fun A a s => Ret a s.
#[export] Instance prog_bind S : MBind (prog S) := fun A B f m s => obind (m s) f.

Definition gets {S A : Type} (f : S -> A) : prog S A := fun s => Ret (f s) s.
Definition modify {S : Type} (f : S -> S) : prog S unit := fun s => Ret tt (f s).
Definition bug {S A : Type} (where_ : string) : prog S A := fun _ => Bug where_.
Definition bug_on {S : Type} (c : bool) (where_ : string) : prog S unit :=
  fun s => if c then Bug where_ else Ret tt s.
Definition out_of_fuel {S A : Type} : prog S A := fun _ => OutOfFuel.
Definition when {S : Type} (c : bool) (m : prog S unit) : prog S unit :=
  if c then m else mret tt.
Fixpoint foreach {S X : Type} (l : list X) (f : X -> prog S unit) : prog S unit :=
  match l with
  | [] => mret tt
  | x :: l => f x ;; foreach l f
  end.

(** [run] executes the straight-line part of a program, [run_bind] a first part
    that is known to return. *)
Ltac run :=
  cbv beta iota zeta delta [mbind prog_bind mret prog_ret gets modify bug_on bug when]; cbn [obind].
Lemma run_bind {S A B : Type} (m : prog S A) (k : A -> prog S B) s a s' :
  m s = Ret a s' -> (mbind (M := prog S) k m) s = k a s'.
Proof. intros E. unfold mbind, prog_bind. by rewrite E. Qed.

Lemma bind_inv {S A B : Type} (m : prog S A) (k : A -> prog S B) s b s' :
  (mbind (M := prog S) k m) s = Ret b s' -> exists a s1, m s = Ret a s1 /\ k a s1 = Ret b s'.
Proof. unfold mbind, prog_bind. destruct (m s) as [a s1| | |]; cbn [obind]; try done. by exists a, s1. Qed.

(** ** What a program leaves alone

    [keeps R m]: when [m] returns, its final state is related to its initial
    one by the preorder [R]; [keep] proves it from the parts of [m]. *)
Definition keeps {S A : Type} (R : S -> S -> Prop) (m : prog S A) : Prop := forall s a s', m s = Ret a s' -> R s s'.
Create HintDb keeps discriminated.
Section Keeps.
Context {S : Type} (R : S -> S -> Prop) `{!PreOrder R}.
Lemma keeps_ret {A} (a : A) : keeps R (mret a : prog S A).
Proof. by intros s b s' [= -> ->]. Qed.
Lemma keeps_gets {A} (f : S -> A) : keeps R (gets f).
Proof. by intros s b s' [= _ ->]. Qed.
Lemma keeps_modify f : (forall s, R s (f s)) -> keeps R (modify f).
Proof. intros Hf s b s' [= _ <-]. apply Hf. Qed.
Lemma keeps_bug {A} w : keeps R (bug w : prog S A).
Proof. by intros s a s'. Qed.
Lemma keeps_fuel {A} : keeps R (out_of_fuel : prog S A).
Proof. by intros s a s'. Qed.
Lemma keeps_bug_on c w : keeps R (bug_on c w).
Proof. intros s a s'. unfold bug_on. destruct c; [done|]. by intros [= _ ->]. Qed.
Lemma keeps_bind {A B} (m : prog S A) (k : A -> prog S B) : keeps R m -> (forall a, keeps R (k a)) -> keeps R (m ≫= k).
Proof.
  intros Hm Hk s b s'. unfold mbind, prog_bind. destruct (m s) as [a s1| | |] eqn:E; cbn [obind]; try done.
  intros Ek. etrans; [by eapply Hm|by eapply Hk].
Qed.
Lemma keeps_when c m : keeps R m -> keeps R (when c m).
Proof. intros Hm. unfold when. destruct c; [done|apply keeps_ret]. Qed.
Lemma keeps_foreach {X} (l : list X) f : (forall x, keeps R (f x)) -> keeps R (foreach l f).
Proof. intros Hf. induction l as [|x l IH]; cbn; [apply keeps_ret|by apply keeps_bind]. Qed.
End Keeps.
Ltac keep1 :=
  match goal with
  | |- keeps _ (mbind _ _) => refine (keeps_bind _ _ _ _ _); [|intro]
  | |- keeps _ (mret _) => exact (keeps_ret _ _)
  | |- keeps _ (gets _) => exact (keeps_gets _ _)
  | |- keeps _ (bug _) => exact (keeps_bug _ _)
  | |- keeps _ out_of_fuel => exact (keeps_fuel _)
  | |- keeps _ (bug_on _ _) => exact (keeps_bug_on _ _ _)
  | |- keeps _ (when _ _) => refine (keeps_when _ _ _ _)
  | |- keeps _ (foreach _ _) => refine (keeps_foreach _ _ _ _); intro
  | |- keeps _ (modify _) => refine (keeps_modify _ _ _); intro
  | |- keeps _ (match ?x with _ => _ end) => destruct x
  | |- keeps _ (let _ := _ in _) => cbv zeta
  | |- _ => solve [auto with keeps]
  end.
Ltac keep := repeat keep1.

Create HintDb kernel discriminated.
#[export] Hint Resolve u32_range : kernel.

(** ** Single bits of a word *)
Lemma testbit_pow2 n m : 0 <= n -> Z.testbit (Z.shiftl 1 n) m = bool_decide (n = m).
Proof.
  intros. rewrite Z.shiftl_1_l. case_bool_decide as E.
  - subst. by apply Z.pow2_bits_true.
  - by apply Z.pow2_bits_false.
Qed.

Lemma flag_set_bit x n : 0 <= n -> flag_set x (Z.shiftl 1 n) = Z.testbit x n.
Proof.
  intros Hn. unfold flag_set. destruct (Z.testbit x n) eqn:E.
  - apply negb_true_iff, Z.eqb_neq. intros H0.
    assert (Z.testbit (Z.land x (Z.shiftl 1 n)) n = true) as Hc.
    { rewrite Z.land_spec, E, testbit_pow2 by done. by rewrite bool_decide_true. }
    rewrite H0, Z.bits_0 in Hc. done.
  - apply negb_false_iff, Z.eqb_eq, Z.bits_inj. intros m.
    rewrite Z.land_spec, testbit_pow2, Z.bits_0 by done.
    case_bool_decide as Em; [subst; by rewrite E | apply andb_false_r].
Qed.

Lemma flag_set_lor a b m : flag_set (Z.lor a b) m = flag_set a m || flag_set b m.
Proof.
  unfold flag_set. rewrite Z.land_lor_distr_l, <- negb_andb. f_equal.
  apply eq_true_iff_eq. rewrite andb_true_iff, !Z.eqb_eq. apply Z.lor_eq_0_iff.
Qed.

Lemma testbit_lnot32 x m : 0 <= m -> Z.testbit (lnot32 x) m = xorb (Z.testbit x m) (m <? 32).
Proof.
  intros. unfold lnot32. rewrite Z.lxor_spec. f_equal.
  change (2 ^ 32 - 1) with (Z.ones 32).
  rewrite Z.testbit_ones by lia. destruct (0 <=? m) eqn:E; [done | lia].
Qed.

Lemma lor_u32 a b : is_u32 a -> is_u32 b -> is_u32 (Z.lor a b).
Proof.
  unfold is_u32. intros Ha Hb. split; [apply Z.lor_nonneg; lia|].
  destruct (Z.eq_dec (Z.lor a b) 0) as [->|Hn]; [lia|].
  assert (0 <= Z.lor a b) by (apply Z.lor_nonneg; lia).
  apply Z.log2_lt_pow2; [lia|]. rewrite Z.log2_lor by lia.
  destruct (Z.eq_dec a 0) as [->|]; destruct (Z.eq_dec b 0) as [->|]; cbn [Z.log2];
    rewrite ?Z.max_lub_lt_iff; try split; try lia; apply Z.log2_lt_pow2; lia.
Qed.

Lemma land_u32 a b : is_u32 a -> is_u32 b -> is_u32 (Z.land a b).
Proof.
  unfold is_u32. intros Ha Hb. split; [apply Z.land_nonneg; lia|].
  destruct (Z.eq_dec (Z.land a b) 0) as [->|Hn]; [lia|].
  assert (0 <= Z.land a b) by (apply Z.land_nonneg; lia).
  apply Z.log2_lt_pow2; [lia|].
  pose proof (Z.log2_land a b ltac:(lia) ltac:(lia)).
  assert (0 < a) by (destruct (Z.eq_dec a 0) as [->|]; [by rewrite Z.land_0_l in Hn | lia]).
  pose proof (proj1 (Z.log2_lt_pow2 a 32 ltac:(lia)) ltac:(lia)). lia.
Qed.

Lemma lnot32_u32 a : is_u32 a -> is_u32 (lnot32 a).
Proof.
  unfold is_u32, lnot32. intros Ha.
  assert (0 <= Z.lxor a (2 ^ 32 - 1)) by (apply Z.lxor_nonneg; lia).
  split; [done|]. destruct (Z.eq_dec (Z.lxor a (2 ^ 32 - 1)) 0) as [->|Hn]; [lia|].
  apply Z.log2_lt_pow2; [lia|].
  pose proof (Z.log2_lxor a (2 ^ 32 - 1) ltac:(lia) ltac:(lia)) as Hl.
  assert (Z.log2 a < 32) as Hla.
  { destruct (Z.eq_dec a 0) as [->|]; [cbn; lia|]. apply Z.log2_lt_pow2; lia. }
  change (Z.log2 (2 ^ 32 - 1)) with 31 in Hl. lia.
Qed.
#[export] Hint Resolve lor_u32 land_u32 lnot32_u32 : kernel.
