(* ===== verification/Bits.v ===== *)
(** Bitmaps and id pools: [src/lib/bit.c], [src/lib/idpool.c] with
    [include/l4/lib/idpool.h], and the word and bit macros of
    [include/l4/glue/arm/memory.h].

    A bitmap is the C array [u32 *word], a [list Z] of 32-bit words.  The
    specification view is the predicate [bit_at w i]; the operations are shown
    to allocate, test and release single elements of the set of set bits. *)
From S2P Require Import Prelude.

(** * Word and bit positions *)

Definition WORD_BITS : Z := 32.
Definition BITWISE_GETWORD (x : Z) : Z := Z.shiftr x 5.
Definition BITWISE_GETBIT (x : Z) : Z := Z.shiftl 1 (x mod WORD_BITS).

(** [word[BITWISE_GETWORD(i)]]; an index outside the array is undefined
    behaviour in C and reads 0 here, and a store outside it is dropped: every
    theorem below assumes the index in range. *)
Definition word_get (word : list Z) (i : Z) : Z := default 0 (word !! Z.to_nat i).
Definition word_put (word : list Z) (i v : Z) : list Z := <[Z.to_nat i := v]> word.

Definition bit_is_set (word : list Z) (i : Z) : bool :=
  flag_set (word_get word (BITWISE_GETWORD i)) (BITWISE_GETBIT i).
Definition bit_set (word : list Z) (i : Z) : list Z :=
  word_put word (BITWISE_GETWORD i)
    (Z.lor (word_get word (BITWISE_GETWORD i)) (BITWISE_GETBIT i)).
Definition bit_clear (word : list Z) (i : Z) : list Z :=
  word_put word (BITWISE_GETWORD i)
    (Z.land (word_get word (BITWISE_GETWORD i)) (lnot32 (BITWISE_GETBIT i))).

(** * [src/lib/bit.c] *)

(** The [while] loop runs while bit 31 is clear and [x < 32]: [n] is [32 - x]. *)
Fixpoint clz_loop (n : nat) (bitvector x : Z) : Z :=
  match n with
  | O => x
  | S n =>
      if flag_set bitvector (Z.shiftl 1 31) then x
      else clz_loop n (u32 (Z.shiftl bitvector 1)) (x + 1)
  end.
Definition __clz (bitvector : Z) : Z := clz_loop 32 bitvector 0.

(** The [for] loop over [i < limit]: [n] is the number of rounds left. *)
Fixpoint first_free_loop (n : nat) (i : Z) (word : list Z) : Z * list Z :=
  match n with
  | O => (-1, word)
  | S n =>
      if negb (bit_is_set word i) then (i, bit_set word i)
      else first_free_loop n (i + 1) word
  end.
Definition find_and_set_first_free_bit (word : list Z) (limit : Z) : Z * list Z :=
  first_free_loop (Z.to_nat limit) 0 word.

Definition check_and_clear_bit (word : list Z) (bit : Z) : Z * list Z :=
  if bit_is_set word bit then (0, bit_clear word bit) else (-1, word).

Definition check_and_set_bit (word : list Z) (bit : Z) : Z * list Z :=
  if negb (bit_is_set word bit) then (0, bit_set word bit) else (-1, word).

(** [setbit], [clrbit], [tstbit] and [tstclr] of [include/l4/lib/bit.h]. *)
Definition setbit (w flags : Z) : Z := Z.lor w flags.
Definition clrbit (w flags : Z) : Z := Z.land w (lnot32 flags).
Definition tstbit (w flags : Z) : Z := Z.land w flags.
Definition tstclr (w flags : Z) : Z * Z := (tstbit w flags, clrbit w flags).

(** * [src/lib/idpool.c] *)

(** [struct id_pool]; its spinlock protects the bitmap and is taken by the
    kernel-level wrappers (file Kernel). *)
Record id_pool := MkIdPool { nwords : Z; bitmap : list Z }.
#[export] Instance id_pool_shape : Shape id_pool :=
  fun p => MkIdPool (nwords p) (bitmap p).

Definition CONFIG_MAX_SYSTEM_IDS : Z := 1023 * 32.
Definition SYSTEM_IDS_MAX : Z := Z.shiftr CONFIG_MAX_SYSTEM_IDS 5.

Definition id_pool_new_init (totalbits : Z) (freebuf : id_pool) : id_pool :=
  freebuf <| nwords := BITWISE_GETWORD totalbits |>.

(** The parts of [id_new], [id_del] and [id_get] between lock and unlock, with
    the value they return ([id_new] and [id_del] then [BUG_ON] a negative one). *)
Definition id_pool_take (pool : id_pool) : Z * id_pool :=
  let '(id, map) := find_and_set_first_free_bit (bitmap pool) (nwords pool * WORD_BITS) in
  (id, pool <| bitmap := map |>).

Definition id_pool_drop (pool : id_pool) (id : Z) : Z * id_pool :=
  let '(ret, map) := check_and_clear_bit (bitmap pool) id in
  (ret, pool <| bitmap := map |>).

Definition id_pool_get (pool : id_pool) (id : Z) : Z * id_pool :=
  let '(ret, map) := check_and_set_bit (bitmap pool) id in
  (if ret <? 0 then ret else id, pool <| bitmap := map |>).

(** * The set of set bits *)

Definition bit_at (word : list Z) (i : Z) : bool :=
  Z.testbit (word_get word (BITWISE_GETWORD i)) (i mod WORD_BITS).
Definition in_map (word : list Z) (i : Z) : Prop := 0 <= i < Z.of_nat (length word) * WORD_BITS.

Lemma getword_div i : BITWISE_GETWORD i = i / WORD_BITS.
Proof. unfold BITWISE_GETWORD. by rewrite Z.shiftr_div_pow2. Qed.

Lemma bit_is_set_at word i : bit_is_set word i = bit_at word i.
Proof.
  unfold bit_is_set, bit_at, BITWISE_GETBIT. apply flag_set_bit.
  unfold WORD_BITS. pose proof (Z.mod_pos_bound i 32 ltac:(lia)). lia.
Qed.

Lemma word_get_put_same word i v :
  (Z.to_nat i < length word)%nat -> word_get (word_put word i v) i = v.
Proof. intros. unfold word_get, word_put. by rewrite list_lookup_insert_eq. Qed.

Lemma word_get_put_other word i j v :
  0 <= i -> 0 <= j -> i <> j -> word_get (word_put word i v) j = word_get word j.
Proof. intros. unfold word_get, word_put. rewrite list_lookup_insert_ne; [done | lia]. Qed.

Lemma in_map_word word i :
  in_map word i -> 0 <= BITWISE_GETWORD i /\ (Z.to_nat (BITWISE_GETWORD i) < length word)%nat.
Proof.
  unfold in_map, WORD_BITS. intros H. rewrite getword_div. unfold WORD_BITS.
  pose proof (Z.div_pos i 32). pose proof (Z.div_lt_upper_bound i 32 (Z.of_nat (length word))). lia.
Qed.

(** Two indices name the same bit only when they are equal. *)
Lemma same_word_bit i j :
  BITWISE_GETWORD i = BITWISE_GETWORD j -> i mod WORD_BITS = j mod WORD_BITS -> i = j.
Proof.
  rewrite !getword_div. intros Hq Hr.
  rewrite (Z.div_mod i WORD_BITS), (Z.div_mod j WORD_BITS) by done. congruence.
Qed.

Lemma word_ix_nonneg j : 0 <= j -> 0 <= BITWISE_GETWORD j.
Proof. intros. rewrite getword_div. apply Z.div_pos; unfold WORD_BITS; lia. Qed.

Lemma bit_ix_nonneg i : 0 <= i mod WORD_BITS < 32.
Proof. apply Z.mod_pos_bound. unfold WORD_BITS. lia. Qed.

Lemma bit_at_set word i j :
  in_map word i -> 0 <= j -> bit_at (bit_set word i) j = bool_decide (i = j) || bit_at word j.
Proof.
  intros Hi Hj. destruct (in_map_word _ _ Hi) as [Hw Hl].
  unfold bit_at, bit_set. destruct (decide (BITWISE_GETWORD i = BITWISE_GETWORD j)) as [E|E].
  - rewrite E in Hl |- *. rewrite word_get_put_same by done. rewrite Z.lor_spec.
    unfold BITWISE_GETBIT. rewrite testbit_pow2 by apply bit_ix_nonneg. rewrite orb_comm. f_equal.
    apply bool_decide_ext. split; [|by intros ->]. by apply same_word_bit.
  - rewrite word_get_put_other by auto using word_ix_nonneg.
    rewrite bool_decide_false; [done|]. by intros ->.
Qed.

Lemma bit_at_clear word i j :
  in_map word i -> 0 <= j ->
  bit_at (bit_clear word i) j = negb (bool_decide (i = j)) && bit_at word j.
Proof.
  intros Hi Hj. destruct (in_map_word _ _ Hi) as [Hw Hl].
  unfold bit_at, bit_clear. destruct (decide (BITWISE_GETWORD i = BITWISE_GETWORD j)) as [E|E].
  - rewrite E in Hl |- *. rewrite word_get_put_same by done. rewrite Z.land_spec, andb_comm. f_equal.
    pose proof (bit_ix_nonneg i). pose proof (bit_ix_nonneg j).
    unfold BITWISE_GETBIT. rewrite testbit_lnot32, testbit_pow2 by lia.
    replace (j mod WORD_BITS <? 32) with true by lia. rewrite xorb_true_r. f_equal.
    apply bool_decide_ext. split; [|by intros ->]. by apply same_word_bit.
  - rewrite word_get_put_other by auto using word_ix_nonneg.
    rewrite bool_decide_false; [done|]. by intros ->.
Qed.

Lemma length_bit_set word i : length (bit_set word i) = length word.
Proof. apply length_insert. Qed.
Lemma length_bit_clear word i : length (bit_clear word i) = length word.
Proof. apply length_insert. Qed.

(** The scan finds the least clear bit at or after [i], or none. *)
Lemma first_free_loop_spec n : forall i word,
  0 <= i ->
  (first_free_loop n i word = (-1, word)
   /\ forall j, i <= j < i + Z.of_nat n -> bit_at word j = true)
  \/ exists k, i <= k < i + Z.of_nat n /\ bit_at word k = false
      /\ (forall j, i <= j < k -> bit_at word j = true)
      /\ first_free_loop n i word = (k, bit_set word k).
Proof.
  induction n as [|n IH]; intros i word Hi; cbn [first_free_loop].
  - left. split; [done | lia].
  - rewrite bit_is_set_at. destruct (bit_at word i) eqn:E; cbn [negb].
    + destruct (IH (i + 1) word ltac:(lia)) as [[-> Hall]|(k & Hk & Hf & Hlt & ->)].
      * left. split; [done|]. intros j Hj.
        destruct (decide (j = i)) as [->|]; [done | apply Hall; lia].
      * right. exists k. repeat split; try done; try lia. intros j Hj.
        destruct (decide (j = i)) as [->|]; [done | apply Hlt; lia].
    + right. exists i. repeat split; try done; try lia.
Qed.

(** [find_and_set_first_free_bit] allocates the least clear bit below the
    limit and changes no other bit; it returns -1, leaving the map alone, only
    when every bit below the limit is set. *)
Theorem first_free_bit_allocates (word : list Z) (limit : Z)
  (Hlimit : 0 <= limit <= Z.of_nat (length word) * WORD_BITS) :
  let '(bit, word') := find_and_set_first_free_bit word limit in
  length word' = length word /\
  ((bit = -1 /\ word' = word /\ forall j, 0 <= j < limit -> bit_at word j = true)
   \/ (0 <= bit < limit /\ bit_at word bit = false
       /\ (forall j, 0 <= j < bit -> bit_at word j = true)
       /\ forall j, 0 <= j -> bit_at word' j = bool_decide (bit = j) || bit_at word j)).
Proof.
  unfold find_and_set_first_free_bit.
  destruct (first_free_loop_spec (Z.to_nat limit) 0 word ltac:(lia))
    as [[-> Hall]|(k & Hk & Hf & Hlt & ->)]; split; rewrite ?length_bit_set; try done.
  - left. repeat split. intros j Hj. apply Hall. lia.
  - right. repeat split; try done; try lia. intros j Hj. apply bit_at_set; [|done].
    unfold in_map, WORD_BITS in *. lia.
Qed.

Lemma first_free_bit_allocates_witness :
  find_and_set_first_free_bit [4294967295; 1] 64 = (33, [4294967295; 3]) /\
  let '(bit, word') := find_and_set_first_free_bit [4294967295; 1] 64 in
  length word' = length [4294967295; 1] /\
  ((bit = -1 /\ word' = [4294967295; 1]
    /\ forall j, 0 <= j < 64 -> bit_at [4294967295; 1] j = true)
   \/ (0 <= bit < 64 /\ bit_at [4294967295; 1] bit = false
       /\ (forall j, 0 <= j < bit -> bit_at [4294967295; 1] j = true)
       /\ forall j, 0 <= j ->
           bit_at word' j = bool_decide (bit = j) || bit_at [4294967295; 1] j)).
Proof.
  split; [vm_compute; reflexivity|].
  apply (first_free_bit_allocates [4294967295; 1] 64). vm_compute. split; discriminate.
Defined.

(** * [__clz] *)

Lemma clz_loop_spec n : forall bv x,
  0 < bv < 2 ^ 32 -> 31 - Z.log2 bv < Z.of_nat n -> clz_loop n bv x = x + (31 - Z.log2 bv).
Proof.
  induction n as [|n IH]; intros bv x Hbv Hn; cbn [clz_loop].
  - pose proof (proj1 (Z.log2_lt_pow2 bv 32 ltac:(lia)) ltac:(lia)). lia.
  - rewrite flag_set_bit by lia. destruct (Z.lt_ge_cases bv (2 ^ 31)) as [Hlt|Hge].
    + pose proof (proj1 (Z.log2_lt_pow2 bv 31 ltac:(lia)) ltac:(lia)).
      rewrite Z.bits_above_log2 by lia. rewrite Z.shiftl_mul_pow2, u32_id by (unfold is_u32; lia).
      rewrite IH; change (2 ^ 1) with 2; rewrite ?(Z.mul_comm bv 2), ?Z.log2_double by lia; lia.
    + assert (Z.log2 bv = 31) as Hl.
      { pose proof (proj1 (Z.log2_lt_pow2 bv 32 ltac:(lia)) ltac:(lia)).
        pose proof (proj1 (Z.log2_le_pow2 bv 31 ltac:(lia)) ltac:(lia)). lia. }
      rewrite <- Hl at 1. rewrite Z.bit_log2 by lia. lia.
Qed.

(** [__clz] counts leading zeroes: 32 for zero, otherwise the distance of
    the top set bit from bit 31. *)
Theorem clz_counts_leading_zeroes (bv : Z) (Hbv : is_u32 bv) :
  __clz bv = if bv =? 0 then 32 else 31 - Z.log2 bv.
Proof.
  unfold __clz, is_u32 in *. destruct (Z.eqb_spec bv 0) as [->|Hn]; [reflexivity|].
  rewrite clz_loop_spec; [lia | lia |]. pose proof (Z.log2_nonneg bv). lia.
Qed.

Lemma clz_counts_leading_zeroes_witness : is_u32 4096 /\ __clz 4096 = 19.
Proof.
  assert (is_u32 4096) as H by (split; [discriminate | reflexivity]).
  split; [exact H|]. rewrite (clz_counts_leading_zeroes 4096 H). reflexivity.
Defined.

(** * Id pools refine a finite set of ids *)

(** [pool_ids p] is the abstract state: membership in the set of ids in use;
    [pool_wf] says the array has [nwords] words. *)
Definition pool_ids (p : id_pool) (id : Z) : Prop := bit_at (bitmap p) id = true.
Definition pool_wf (p : id_pool) : Prop := Z.of_nat (length (bitmap p)) = nwords p.
Definition pool_cap (p : id_pool) : Z := nwords p * WORD_BITS.

(** The specification of a pool of ids [0 .. cap): allocate the least id not
    in use, release an id in use, claim a given id. *)
Inductive ids_step (cap : Z) (ids : Z -> Prop) : Z -> (Z -> Prop) -> Prop :=
| ids_take id : 0 <= id < cap -> ~ ids id -> (forall j, 0 <= j < id -> ids j) ->
    ids_step cap ids id (fun j => j = id \/ ids j)
| ids_full : (forall j, 0 <= j < cap -> ids j) -> ids_step cap ids (-1) ids.

Definition same_ids (P Q : Z -> Prop) : Prop := forall j, 0 <= j -> (P j <-> Q j).

Lemma pool_put_ids p map id :
  (forall j, 0 <= j -> bit_at map j = bool_decide (id = j) || bit_at (bitmap p) j) ->
  same_ids (pool_ids (p <| bitmap := map |>)) (fun j => j = id \/ pool_ids p j).
Proof.
  intros H j Hj. unfold pool_ids. cbn. rewrite H by done.
  rewrite orb_true_iff, bool_decide_eq_true. naive_solver.
Qed.

(** [id_new] (before its [BUG_ON]) implements the abstract allocator: the
    id returned is the least one not in use and becomes used, or the pool is
    full, -1 is returned and nothing changes.  The pool stays well formed. *)
Theorem id_new_refines_id_set (p : id_pool) (Hwf : pool_wf p) :
  exists ids', ids_step (pool_cap p) (pool_ids p) (fst (id_pool_take p)) ids'
    /\ same_ids (pool_ids (snd (id_pool_take p))) ids' /\ pool_wf (snd (id_pool_take p)).
Proof.
  unfold id_pool_take, pool_wf in *.
  destruct (first_free_loop_spec (Z.to_nat (pool_cap p)) 0 (bitmap p) ltac:(lia))
    as [[E Hall]|(k & Hk & Hf & Hlt & E)];
    unfold pool_cap, find_and_set_first_free_bit, WORD_BITS in *; rewrite E; cbn.
  - eexists. split_and!; [apply ids_full| |done].
    + intros j Hj. apply Hall. lia.
    + by intros j Hj.
  - eexists. split_and!.
    + apply ids_take; [lia | unfold pool_ids; by rewrite Hf |]. intros j Hj. apply Hlt. lia.
    + apply pool_put_ids. intros j Hj. apply bit_at_set; [unfold in_map, WORD_BITS; lia | done].
    + by rewrite length_bit_set.
Qed.

Lemma id_new_refines_id_set_witness :
  pool_wf (MkIdPool 2 [4294967295; 5]) /\ fst (id_pool_take (MkIdPool 2 [4294967295; 5])) = 33 /\
  exists ids', ids_step 64 (pool_ids (MkIdPool 2 [4294967295; 5])) 33 ids'
    /\ same_ids (pool_ids (snd (id_pool_take (MkIdPool 2 [4294967295; 5])))) ids'
    /\ pool_wf (snd (id_pool_take (MkIdPool 2 [4294967295; 5]))).
Proof.
  assert (pool_wf (MkIdPool 2 [4294967295; 5])) as H by reflexivity.
  split; [exact H|]. split; [vm_compute; reflexivity|].
  exact (id_new_refines_id_set (MkIdPool 2 [4294967295; 5]) H).
Defined.

(** Releasing the id just allocated restores the set of ids in use, and an
    id is only released once: a second [id_del] fails with -1. *)
Theorem id_del_undoes_id_new (p : id_pool) (Hwf : pool_wf p)
  (Hroom : 0 <= fst (id_pool_take p)) :
  let '(id, p1) := id_pool_take p in
  let '(ret, p2) := id_pool_drop p1 id in
  ret = 0 /\ same_ids (pool_ids p2) (pool_ids p) /\ fst (id_pool_drop p2 id) = -1.
Proof.
  unfold id_pool_take, pool_wf in *.
  destruct (first_free_loop_spec (Z.to_nat (pool_cap p)) 0 (bitmap p) ltac:(lia))
    as [[E Hall]|(k & Hk & Hf & Hlt & E)];
    unfold pool_cap, find_and_set_first_free_bit, WORD_BITS in *; rewrite E in *; cbn in *; [lia|].
  assert (in_map (bitmap p) k) as Hin by (unfold in_map, WORD_BITS; lia).
  assert (in_map (bit_set (bitmap p) k) k) as Hin1 by (unfold in_map; by rewrite length_bit_set).
  unfold id_pool_drop, check_and_clear_bit. cbn. rewrite bit_is_set_at, bit_at_set by (done || lia).
  rewrite bool_decide_true by done. cbn. rewrite bit_is_set_at, bit_at_clear by (done || lia).
  rewrite bool_decide_true by done. cbn. split_and!; [done| |done].
  intros j Hj. unfold pool_ids. cbn. rewrite bit_at_clear, bit_at_set by done.
  case_bool_decide; [subst; by rewrite Hf | done].
Qed.

Lemma id_del_undoes_id_new_witness :
  fst (id_pool_take (MkIdPool 1 [7])) = 3 /\
  let '(id, p1) := id_pool_take (MkIdPool 1 [7]) in
  let '(ret, p2) := id_pool_drop p1 id in
  ret = 0 /\ same_ids (pool_ids p2) (pool_ids (MkIdPool 1 [7])) /\ fst (id_pool_drop p2 id) = -1.
Proof.
  split; [vm_compute; reflexivity|].
  apply (id_del_undoes_id_new (MkIdPool 1 [7])); [reflexivity | vm_compute; discriminate].
Defined.

(** * Counting clear bits *)

(** Number of clear bits below [total]. *)
Definition clear_bits (map : list Z) (total : Z) : Z :=
  Z.of_nat (length (filter (fun i => bit_at map i = false) (seqZ 0 total))).

Lemma clear_bits_set map map' total b :
  0 <= b < total -> bit_at map b = false ->
  (forall j, 0 <= j -> bit_at map' j = bool_decide (b = j) || bit_at map j) ->
  clear_bits map' total = clear_bits map total - 1.
Proof.
  intros Hb Hf Hj. unfold clear_bits.
  assert (seqZ 0 total = seqZ 0 b ++ b :: seqZ (b + 1) (total - b - 1)) as ->.
  { replace total with (b + (1 + (total - b - 1))) at 1 by lia. rewrite seqZ_app by lia. f_equal.
    rewrite seqZ_app by lia. reflexivity. }
  rewrite !filter_app, !length_app, filter_cons_False, filter_cons_True; [|done|].
  2:{ rewrite Hj, bool_decide_true by lia. done. }
  assert (forall l : list Z, (forall x, x ∈ l -> 0 <= x /\ x <> b) ->
            filter (fun i => bit_at map' i = false) l = filter (fun i => bit_at map i = false) l) as Hsame.
  { intros l. induction l as [|x l IH]; intros Hl; [done|]. destruct (Hl x ltac:(left)) as [H1 H2].
    rewrite !filter_cons, Hj, bool_decide_false, orb_false_l by done.
    rewrite IH by (intros y Hy; apply Hl; by right). done. }
  rewrite !Hsame; [cbn; lia| |].
  - intros x Hx%elem_of_seqZ. lia.
  - intros x Hx%elem_of_seqZ. lia.
Qed.

Lemma clear_bits_pos map total : 0 < clear_bits map total -> exists b, 0 <= b < total /\ bit_at map b = false.
Proof.
  unfold clear_bits. intros H. destruct (filter _ _) as [|b l] eqn:E; [cbn in H; lia|].
  assert (b ∈ filter (fun i => bit_at map i = false) (seqZ 0 total)) as Hb by (rewrite E; left).
  apply list_elem_of_filter in Hb as [H1 H2%elem_of_seqZ]. exists b. split; [lia|done].
Qed.
Lemma clear_bits_le map total : 0 <= total -> clear_bits map total <= total.
Proof.
  intros Ht. unfold clear_bits. pose proof (length_filter (fun i => bit_at map i = false) (seqZ 0 total)) as H.
  rewrite length_seqZ in H. lia.
Qed.
Lemma clear_bits_nonneg map total : 0 <= clear_bits map total.
Proof. unfold clear_bits. lia. Qed.

