(* ===== verification/Links.v ===== *)
(** Intrusive doubly linked lists: [include/l4/lib/list.h], and the capability
    list primitives built on them in [include/l4/generic/capability.h].

    The pointer operations act on a memory of [struct link] nodes; the theorems
    show that on a well-formed ring they implement operations on the list of
    its elements.  The other files of the development use those lists, with
    [list_insert] as cons, [list_insert_tail] as append and [list_remove_init]
    as removal, on the strength of these theorems. *)
From S2P Require Import Prelude.

(** * [struct link] and the operations of [list.h] *)

Record link := MkLink { next : Z; prev : Z }.
#[export] Instance link_shape : Shape link := fun l => MkLink (next l) (prev l).
#[export] Instance link_eq_dec : EqDecision link.
Proof. solve_decision. Defined.

(** Memory seen as links: every address holds one. *)
Abbreviation linkmem := (Z -> link).
Definition set_next (x v : Z) (m : linkmem) : linkmem := <[x := m x <| next := v |>]> m.
Definition set_prev (x v : Z) (m : linkmem) : linkmem := <[x := m x <| prev := v |>]> m.

Definition L4_DEADWORD : Z := 0xDEADCCCC.

Definition link_init (l : Z) (m : linkmem) : linkmem := set_prev l l (set_next l l m).

Definition list_insert (new list : Z) (m : linkmem) : linkmem :=
  let nxt := next (m list) in
  set_prev new list (set_next list new (set_prev nxt new (set_next new nxt m))).

Definition list_insert_tail (new list : Z) (m : linkmem) : linkmem :=
  let prv := prev (m list) in
  set_next prv new (set_prev new prv (set_prev list new (set_next new list m))).

Definition list_remove (l : Z) (m : linkmem) : linkmem :=
  let prv := prev (m l) in
  let nxt := next (m l) in
  set_prev l L4_DEADWORD (set_next l L4_DEADWORD (set_prev nxt prv (set_next prv nxt m))).

Definition list_remove_init (l : Z) (m : linkmem) : linkmem :=
  let prv := prev (m l) in
  let nxt := next (m l) in
  set_prev l l (set_next l l (set_prev nxt prv (set_next prv nxt m))).

Definition list_detach (head : Z) (m : linkmem) : Z * linkmem :=
  (next (m head), list_remove_init head m).

(** The search of [list_attach] for the last node of the list to be attached: the
    one whose [next] is the list's first node, to which [end->next] was just set;
    [None] when [n] steps do not reach it. *)
Fixpoint attach_end (n : nat) (new_list end_ : Z) (m : linkmem) : option Z :=
  if next (m new_list) =? next (m end_) then Some new_list
  else match n with
       | O => None
       | S n => attach_end n (next (m new_list)) end_ m
       end.
(** The last assignment of [list_attach], to its parameter [end], has no effect. *)
Definition list_attach (n : nat) (new_list head end_ : Z) (m : linkmem) : option linkmem :=
  let m := set_prev new_list end_ (set_next end_ new_list m) in
  last ← attach_end n new_list end_ m;
  Some (set_prev head last (set_next last head m)).

Definition list_empty (l : Z) (m : linkmem) : bool :=
  (prev (m l) =? l) && (next (m l) =? l).

(** The traversal of [list_foreach_struct] from [link_start]: the nodes visited
    before the start is met again, within [n] steps. *)
Fixpoint list_walk (n : nat) (start x : Z) (m : linkmem) : option (list Z) :=
  if x =? start then Some []
  else match n with
       | O => None
       | S n => cons x <$> list_walk n start (next (m x)) m
       end.
Definition list_foreach (n : nat) (start : Z) (m : linkmem) : option (list Z) :=
  list_walk n start (next (m start)) m.

(** * Capability list heads *)

(** [struct cap_list]: a count and a list head; the head's link is at [caps]. *)
Record cap_list_head := MkCapListHead { ncaps : Z; caps : Z }.
#[export] Instance cap_list_head_shape : Shape cap_list_head :=
  fun c => MkCapListHead (ncaps c) (caps c).

Definition cap_list_init (c : cap_list_head) (m : linkmem) : cap_list_head * linkmem :=
  (c <| ncaps := 0 |>, link_init (caps c) m).
Definition cap_list_insert (cap : Z) (c : cap_list_head) (m : linkmem) : cap_list_head * linkmem :=
  (c <| ncaps ::= Z.succ |>, list_insert cap (caps c) m).
Definition cap_list_remove (cap : Z) (c : cap_list_head) (m : linkmem) : cap_list_head * linkmem :=
  (c <| ncaps ::= Z.pred |>, list_remove cap m).
Definition cap_list_detach (c : cap_list_head) (m : linkmem) : Z * cap_list_head * linkmem :=
  if ncaps c =? 0 then (0, c, m)
  else let '(l, m) := list_detach (caps c) m in (l, c <| ncaps := 0 |>, m).

(** [cap_list_attach]: the head is inserted after [cap], and the elements then
    reachable from the head are counted on top of [ncaps]; [n] bounds the walk. *)
Definition cap_list_attach (n : nat) (cap : Z) (c : cap_list_head) (m : linkmem)
  : option (cap_list_head * linkmem) :=
  let m := list_insert (caps c) cap m in
  l ← list_foreach n (caps c) m;
  Some (c <| ncaps ::= fun k => k + Z.of_nat (length l) |>, m).
Definition cap_list_move (n : nat) (to from : cap_list_head) (m : linkmem)
  : option (cap_list_head * cap_list_head * linkmem) :=
  if ncaps from =? 0 then Some (to, from, m)
  else let '(cap_head, from, m) := cap_list_detach from m in
       '(to, m) ← cap_list_attach n cap_head to m; Some (to, from, m).

(** * Rings *)

(** [chain m x l y]: following [next] from [x] goes through [l] and reaches
    [y], and every [prev] points back. *)
Fixpoint chain (m : linkmem) (x : Z) (l : list Z) (y : Z) : Prop :=
  match l with
  | [] => next (m x) = y /\ prev (m y) = x
  | z :: l => next (m x) = z /\ prev (m z) = x /\ chain m z l y
  end.
Definition ring (m : linkmem) (h : Z) (l : list Z) : Prop := NoDup (h :: l) /\ chain m h l h.

Lemma set_next_next x y v m : next (set_next x v m y) = if decide (x = y) then v else next (m y).
Proof. unfold set_next. destruct (decide (x = y)) as [->|]; [by rewrite fn_lookup_insert | by rewrite fn_lookup_insert_ne]. Qed.
Lemma set_next_prev x y v m : prev (set_next x v m y) = prev (m y).
Proof. unfold set_next. destruct (decide (x = y)) as [->|]; [by rewrite fn_lookup_insert | by rewrite fn_lookup_insert_ne]. Qed.
Lemma set_prev_prev x y v m : prev (set_prev x v m y) = if decide (x = y) then v else prev (m y).
Proof. unfold set_prev. destruct (decide (x = y)) as [->|]; [by rewrite fn_lookup_insert | by rewrite fn_lookup_insert_ne]. Qed.
Lemma set_prev_next x y v m : next (set_prev x v m y) = next (m y).
Proof. unfold set_prev. destruct (decide (x = y)) as [->|]; [by rewrite fn_lookup_insert | by rewrite fn_lookup_insert_ne]. Qed.

Create Rewrite HintDb links.
#[export] Hint Rewrite set_next_next set_next_prev set_prev_prev set_prev_next : links.

(** Read through the writes of an operation, deciding which hit. *)
Ltac link_read :=
  repeat (progress autorewrite with links in *
          || match goal with |- context [decide (?a = ?b)] => destruct (decide (a = b)); subst end);
  try done; try congruence.

Lemma chain_app m x l1 z l2 y :
  chain m x (l1 ++ z :: l2) y <-> chain m x l1 z /\ chain m z l2 y.
Proof.
  revert x. induction l1 as [|a l1 IH]; intros x; cbn; [naive_solver|].
  rewrite IH. naive_solver.
Qed.

(** A write outside the chain does not change it: only the [next] of the nodes
    before the end and the [prev] of those after the start matter. *)
Lemma chain_frame m m' x l y :
  (forall z, z ∈ x :: l -> next (m' z) = next (m z)) ->
  (forall z, z ∈ y :: l -> prev (m' z) = prev (m z)) ->
  chain m x l y -> chain m' x l y.
Proof.
  revert x. induction l as [|a l IH]; intros x Hn Hp; cbn.
  - intros [H1 H2]. rewrite Hn, Hp by set_solver. done.
  - intros (H1 & H2 & H3). rewrite Hn, Hp by set_solver. split_and!; [done|done|].
    apply IH; [| |done]; intros; [apply Hn | apply Hp]; set_solver.
Qed.

(** The last node of a chain is the [prev] of its end. *)
Fixpoint last_node (x : Z) (l : list Z) : Z :=
  match l with [] => x | a :: l => last_node a l end.

Lemma last_node_snoc x l a : last_node x (l ++ [a]) = a.
Proof. revert x. by induction l; cbn. Qed.
Lemma last_node_in x l : last_node x l ∈ x :: l.
Proof. revert x. induction l as [|a l IH]; intros x; cbn; [set_solver|]. specialize (IH a). set_solver. Qed.
Lemma chain_last m x l y : chain m x l y -> prev (m y) = last_node x l.
Proof. revert x. induction l; cbn; naive_solver. Qed.

(** Redirecting the end of a chain: only the last node's [next] and the new
    end's [prev] are written. *)
Lemma chain_redirect m m' x l y y' :
  NoDup (x :: l) -> chain m x l y ->
  next (m' (last_node x l)) = y' -> prev (m' y') = last_node x l ->
  (forall z, z ∈ x :: l -> z <> last_node x l -> next (m' z) = next (m z)) ->
  (forall z, z ∈ l -> prev (m' z) = prev (m z)) ->
  chain m' x l y'.
Proof.
  revert x. induction l as [|a l IH]; intros x Hd; cbn; [done|].
  intros (H1 & H2 & H3) Hn Hp Hnx Hpv. apply NoDup_cons in Hd as [Hx Hd].
  pose proof (last_node_in a l). split_and!.
  - rewrite Hnx; [done|set_solver|]. intros ->. done.
  - rewrite Hpv; set_solver.
  - apply IH; try done; intros; [apply Hnx | apply Hpv]; set_solver.
Qed.

Lemma NoDup_ring_insert (h n : Z) l1 l2 :
  n ∉ h :: l1 ++ l2 -> NoDup (h :: l1 ++ l2) <-> NoDup (h :: l1 ++ n :: l2).
Proof.
  intros Hn. rewrite (app_comm_cons l1 (n :: l2) h), (app_comm_cons l1 l2 h).
  rewrite <- (Permutation_middle (h :: l1)), (NoDup_cons n). naive_solver.
Qed.

Lemma list_insert_ring m h l n :
  n ∉ h :: l -> ring m h l -> ring (list_insert n h m) h (n :: l).
Proof.
  intros Hn [Hd Hc]. split; [by apply (NoDup_ring_insert h n [] l)|].
  unfold list_insert. rewrite NoDup_cons in Hd. destruct l as [|a l]; cbn in *.
  - destruct Hc as [-> Hp]. assert (n <> h) by set_solver. repeat split; link_read.
  - destruct Hc as (-> & Hp & Hc). destruct Hd as [Hh Hd]. rewrite NoDup_cons in Hd.
    assert (n <> h /\ n <> a /\ a <> h) as (? & ? & ?) by set_solver.
    split_and!; [link_read | link_read | link_read | link_read |].
    eapply chain_frame, Hc; intros z Hz.
    + assert (z <> n /\ z <> h) as [? ?] by set_solver. link_read.
    + assert (z <> n /\ z <> a) as [? ?] by set_solver. link_read.
Qed.

Lemma list_insert_tail_ring m h l n :
  n ∉ h :: l -> ring m h l -> ring (list_insert_tail n h m) h (l ++ [n]).
Proof.
  intros Hn [Hd Hc]. split; [apply NoDup_ring_insert; by rewrite ?app_nil_r|].
  unfold list_insert_tail. rewrite (chain_last _ _ _ _ Hc).
  pose proof (last_node_in h l) as Hl. assert (n <> last_node h l /\ n <> h) as [? ?] by set_solver.
  apply chain_app. split; [|cbn; repeat split; link_read].
  eapply chain_redirect; [done | exact Hc | link_read | link_read | |]; intros z Hz.
  - intros Hz'. assert (z <> n) by set_solver. link_read.
  - rewrite NoDup_cons in Hd. assert (z <> n /\ z <> h) as [? ?] by set_solver. link_read.
Qed.

Lemma list_remove_init_ring m h l1 x l2 :
  ring m h (l1 ++ x :: l2) ->
  ring (list_remove_init x m) h (l1 ++ l2) /\ ring (list_remove_init x m) x [].
Proof.
  intros [Hd Hc]. apply chain_app in Hc as [H1 H2].
  assert (x ∉ h :: l1 ++ l2) as Hx.
  { rewrite (app_comm_cons l1), <- Permutation_middle, NoDup_cons in Hd. set_solver. }
  apply NoDup_ring_insert in Hd; [|done]. unfold list_remove_init.
  rewrite (chain_last _ _ _ _ H1). pose proof (last_node_in h l1) as Hl.
  assert (x <> last_node h l1) by set_solver.
  split; [|repeat split; [apply NoDup_singleton| |]; cbn; link_read]. split; [done|].
  rewrite (app_comm_cons l1) in Hd. apply NoDup_app in Hd as (Hd1 & Hdis & Hd2).
  destruct l2 as [|b l2].
  - rewrite app_nil_r in *. destruct H2 as [Hnx Hpy]. rewrite Hnx. assert (x <> h) by set_solver.
    eapply chain_redirect; [done | exact H1 | link_read | link_read | |]; intros z Hz.
    + intros Hz'. assert (z <> x) by set_solver. link_read.
    + apply NoDup_cons in Hd1 as [Hd1 _]. assert (z <> x /\ z <> h) as [? ?] by set_solver. link_read.
  - destruct H2 as (Hnx & Hpy & H2). rewrite Hnx. assert (x <> b) by set_solver.
    apply NoDup_cons in Hd2 as [Hb Hd2]. apply chain_app. split.
    + eapply chain_redirect; [done | exact H1 | link_read | link_read | |]; intros z Hz.
      * intros Hz'. assert (z <> x) by set_solver. link_read.
      * assert (z <> x /\ z <> b) as [? ?] by set_solver. link_read.
    + eapply chain_frame, H2; intros z Hz.
      * assert (z <> x /\ z <> last_node h l1) as [? ?] by set_solver. link_read.
      * assert (z <> x /\ z <> b) as [? ?] by set_solver. link_read.
Qed.

(** A ring can be read from any of its nodes. *)
Lemma ring_rotate m h x l : ring m h (x :: l) -> ring m x (l ++ [h]).
Proof.
  intros [Hd (H1 & H2 & H3)]. split.
  - rewrite app_comm_cons. by rewrite <- Permutation_cons_append.
  - apply chain_app. by repeat split.
Qed.

Lemma ring_frame m m' h l :
  (forall z, z ∈ h :: l -> m' z = m z) -> ring m h l -> ring m' h l.
Proof.
  intros Hm [Hd Hc]. split; [done|].
  eapply chain_frame, Hc; intros z Hz; by rewrite Hm.
Qed.

Lemma list_insert_frame m h l n z :
  ring m h l -> z ∉ n :: h :: l -> list_insert n h m z = m z.
Proof.
  intros [_ Hc] Hz. unfold list_insert, set_next, set_prev.
  assert (next (m h) ∈ h :: l) as Hn by (destruct l; cbn in Hc; destruct Hc as [-> _]; set_solver).
  assert (z <> n /\ z <> h /\ z <> next (m h)) as (? & ? & ?) by set_solver.
  by rewrite !fn_lookup_insert_ne by done.
Qed.

Lemma list_insert_tail_frame m h l n z :
  ring m h l -> z ∉ n :: h :: l -> list_insert_tail n h m z = m z.
Proof.
  intros [_ Hc] Hz. unfold list_insert_tail, set_next, set_prev.
  rewrite (chain_last _ _ _ _ Hc). pose proof (last_node_in h l).
  assert (z <> n /\ z <> h /\ z <> last_node h l) as (? & ? & ?) by set_solver.
  by rewrite !fn_lookup_insert_ne by done.
Qed.

Lemma list_remove_init_frame m h l x z :
  ring m h l -> x ∈ l -> z ∉ h :: l -> list_remove_init x m z = m z.
Proof.
  intros [_ Hc] [l1 [l2 ->]]%list_elem_of_split Hz. unfold list_remove_init, set_next, set_prev.
  apply chain_app in Hc as [H1 H2]. rewrite (chain_last _ _ _ _ H1). pose proof (last_node_in h l1).
  assert (next (m x) ∈ h :: l2) by (destruct l2; cbn in H2; destruct H2 as [-> _]; set_solver).
  assert (z <> x /\ z <> last_node h l1 /\ z <> next (m x)) as (? & ? & ?) by set_solver.
  by rewrite !fn_lookup_insert_ne by done.
Qed.

Lemma list_empty_ring m h l : ring m h l -> list_empty h m = bool_decide (l = []).
Proof.
  intros [Hd Hc]. unfold list_empty. destruct l as [|a l]; cbn in Hc.
  - destruct Hc as [-> ->]. by rewrite !Z.eqb_refl.
  - destruct Hc as [-> _]. apply NoDup_cons in Hd as [Hd _]. assert (a <> h) by set_solver.
    rewrite (proj2 (Z.eqb_neq a h)) by done. rewrite andb_false_r. by rewrite bool_decide_false.
Qed.

Lemma list_walk_chain m h : forall l x,
  h ∉ l -> chain m x l h -> list_walk (length l) h (next (m x)) m = Some l.
Proof.
  induction l as [|a l IH]; intros x Hh; cbn [chain length]; intros Hc.
  - destruct Hc as [-> _]. cbn. by rewrite Z.eqb_refl.
  - destruct Hc as (-> & _ & Hc). cbn [list_walk]. assert (a <> h) by set_solver.
    rewrite (proj2 (Z.eqb_neq a h)) by done. by rewrite IH by set_solver.
Qed.

Lemma list_foreach_ring m h l : ring m h l -> list_foreach (length l) h m = Some l.
Proof. intros [Hd Hc]. apply list_walk_chain; [|done]. by apply NoDup_cons in Hd as [? _]. Qed.

Lemma list_detach_ring m h x l :
  ring m h (x :: l) ->
  list_detach h m = (x, list_remove_init h m)
  /\ ring (list_remove_init h m) h [] /\ ring (list_remove_init h m) x l.
Proof.
  intros Hr. unfold list_detach. pose proof Hr as [_ [-> _]]. apply ring_rotate in Hr.
  apply list_remove_init_ring in Hr as [Hx Hh]. rewrite app_nil_r in Hx. done.
Qed.

(** [list_remove] is [list_remove_init] but for the links of the node itself. *)
Lemma list_remove_same x z m : z <> x -> list_remove x m z = list_remove_init x m z.
Proof.
  intros Hz. unfold list_remove, list_remove_init. generalize (set_prev (next (m x)) (prev (m x)) (set_next (prev (m x)) (next (m x)) m)).
  intros m'. unfold set_next, set_prev. by rewrite !fn_lookup_insert_ne by done.
Qed.
Lemma list_remove_dead x m : list_remove x m x = MkLink L4_DEADWORD L4_DEADWORD.
Proof. unfold list_remove, set_prev, set_next. rewrite !fn_lookup_insert. reflexivity. Qed.
Lemma list_remove_ring m h l1 x l2 : ring m h (l1 ++ x :: l2) -> ring (list_remove x m) h (l1 ++ l2).
Proof.
  intros Hr. eapply ring_frame, list_remove_init_ring, Hr. intros z Hz. apply list_remove_same. intros ->.
  destruct Hr as [Hd _]. rewrite (app_comm_cons l1), <- Permutation_middle, NoDup_cons in Hd. set_solver.
Qed.
Lemma list_detach_frame m h l z : ring m h l -> z ∉ h :: l -> list_remove_init h m z = m z.
Proof.
  intros [_ Hc] Hz. unfold list_remove_init, set_next, set_prev. rewrite (chain_last _ _ _ _ Hc).
  pose proof (last_node_in h l). assert (next (m h) ∈ h :: l) by (destruct l; cbn in Hc; destruct Hc as [-> _]; set_solver).
  assert (z <> h /\ z <> last_node h l /\ z <> next (m h)) as (? & ? & ?) by set_solver.
  by rewrite !fn_lookup_insert_ne by done.
Qed.

Lemma chain_prefix m x l1 l2 y : chain m x (l1 ++ l2) y -> exists z, chain m x l1 z.
Proof. destruct l2 as [|z l2]; [rewrite app_nil_r; by exists y|]. intros [H _]%chain_app. by exists z. Qed.
Lemma attach_end_chain m m' e x : next (m' e) = x ->
  forall l y, x ∉ l -> (forall z, z ∈ y :: l -> next (m' z) = next (m z)) -> chain m y l x ->
  attach_end (length l) y e m' = Some (last_node y l).
Proof.
  intros He. induction l as [|a l IH]; intros y Hx Hn; cbn [chain length last_node attach_end]; rewrite He, Hn by set_solver.
  - intros [-> _]. by rewrite Z.eqb_refl.
  - intros (-> & _ & Hc). rewrite (proj2 (Z.eqb_neq a x)) by set_solver.
    apply IH; [set_solver| |done]. intros z Hz. apply Hn. set_solver.
Qed.

Section Attach.
Context (m : linkmem) (h x : Z) (l1 l2 l : list Z).
Context (Hr : ring m h (l1 ++ l2)) (Hx : ring m x l) (Hdis : forall z, z ∈ x :: l -> z ∉ h :: l1 ++ l2).
#[local] Abbreviation e := (last_node h l1).
#[local] Abbreviation attached :=
  (set_prev h (last_node x l) (set_next (last_node x l) h (set_prev x e (set_next e x m)))).

Lemma attach_ends : e ∈ h :: l1 /\ last_node x l ∈ x :: l /\ x ∉ l.
Proof using Hx. split_and!; [apply last_node_in..|]. destruct Hx as [Hd _]. by apply NoDup_cons in Hd as [? _]. Qed.
Lemma list_attach_run : list_attach (length l) x h e m = Some attached.
Proof using Hr Hx Hdis.
  destruct attach_ends as (He & _ & Hxl). unfold list_attach.
  rewrite (attach_end_chain m _ e x); [reflexivity|link_read|done| |apply Hx].
  intros z Hz. pose proof (Hdis z Hz). assert (z <> e) by set_solver. link_read.
Qed.
Lemma list_attach_ring : ring attached h (l1 ++ x :: l).
Proof using Hr Hx Hdis.
  destruct attach_ends as (He & Hl & Hxl), Hr as [Hd Hc], Hx as [Hdx Hcx].
  assert (NoDup (h :: l1) /\ h ∉ l1) as [Hd1 Hhl].
  { rewrite app_comm_cons in Hd. apply NoDup_app in Hd as [Hd _]. split; [done|]. by apply NoDup_cons in Hd as [? _]. }
  assert (forall z, z ∈ x :: l -> z ∉ h :: l1) as Hdis1 by (intros z Hz; pose proof (Hdis z Hz); set_solver).
  assert (forall z, z ∈ h :: l1 -> z <> last_node x l /\ z <> x) as Hne.
  { intros z Hz. split; intros ->; [by apply (Hdis1 _ Hl)|apply (Hdis1 x); [left|done]]. }
  pose proof (Hne h ltac:(left)) as [Hh1 Hh2]. pose proof (Hne e He) as [He1 He2].
  split.
  - rewrite app_comm_cons. apply NoDup_app. split_and!; [done| |done]. intros z Hz Hz'. by apply (Hdis1 z).
  - apply chain_app. split.
    + apply chain_prefix in Hc as [y Hc]. eapply chain_redirect; [done|exact Hc|link_read|link_read| |]; intros z Hz.
      * intros Hz'. destruct (Hne z Hz). link_read.
      * destruct (Hne z) as [? ?]; [set_solver|]. assert (z <> h) by set_solver. link_read.
    + eapply chain_redirect; [done|exact Hcx|link_read|link_read| |]; intros z Hz.
      * intros Hz'. pose proof (Hdis1 z Hz). assert (z <> e) by set_solver. link_read.
      * pose proof (Hdis1 z ltac:(set_solver)). assert (z <> h /\ z <> x) as [? ?] by set_solver. link_read.
Qed.
Lemma list_attach_frame z : z ∉ h :: l1 ++ l2 -> z ∉ x :: l -> attached z = m z.
Proof using Hr Hx Hdis.
  intros Hz Hz'. destruct attach_ends as (He & Hl & _). unfold set_next, set_prev.
  assert (z <> h /\ z <> e /\ z <> x /\ z <> last_node x l) as (? & ? & ? & ?) by set_solver.
  by rewrite !fn_lookup_insert_ne by done.
Qed.
End Attach.

(** C13: The pointer operations of [list.h] implement sequences.  On a ring that
    represents [l]: insertion prepends and tail insertion appends; [list_remove]
    and [list_remove_init] take out exactly the node named, which is left with
    dead links or as an empty ring of its own; [list_detach] empties the head and
    returns a ring, without a head, of all the nodes; [list_attach] of such a
    ring makes it follow the node named as the end, so that it is appended when
    that is the last one, and replaces what followed that node otherwise; the
    emptiness test and the traversal macro agree with [l].  A ring apart from
    those operated on is left as it was by each of them. *)
Theorem list_ops_implement_sequences (m : linkmem) (h : Z) (l : list Z) (Hring : ring m h l) :
  (forall n, n ∉ h :: l ->
     ring (list_insert n h m) h (n :: l) /\ ring (list_insert_tail n h m) h (l ++ [n]))
  /\ (forall l1 x l2, l = l1 ++ x :: l2 ->
        ring (list_remove_init x m) h (l1 ++ l2) /\ list_empty x (list_remove_init x m) = true
        /\ ring (list_remove x m) h (l1 ++ l2) /\ list_remove x m x = MkLink L4_DEADWORD L4_DEADWORD)
  /\ (forall x l2, l = x :: l2 -> exists m',
        list_detach h m = (x, m') /\ ring m' h [] /\ ring m' x l2)
  /\ (forall x lx l1 l2, ring m x lx -> (forall z, z ∈ x :: lx -> z ∉ h :: l) -> l = l1 ++ l2 ->
        exists m', list_attach (length lx) x h (last_node h l1) m = Some m' /\ ring m' h (l1 ++ x :: lx))
  /\ list_empty h m = bool_decide (l = [])
  /\ list_foreach (length l) h m = Some l
  /\ (forall h' l', ring m h' l' -> (forall z, z ∈ h' :: l' -> z ∉ h :: l) ->
        (forall n, n ∉ h :: l -> n ∉ h' :: l' ->
           ring (list_insert n h m) h' l' /\ ring (list_insert_tail n h m) h' l')
        /\ (forall x, x ∈ l -> ring (list_remove_init x m) h' l' /\ ring (list_remove x m) h' l')
        /\ ring (list_detach h m).2 h' l'
        /\ forall x lx l1 l2 m', ring m x lx -> (forall z, z ∈ x :: lx -> z ∉ h :: l) -> l = l1 ++ l2 ->
             (forall z, z ∈ h' :: l' -> z ∉ x :: lx) ->
             list_attach (length lx) x h (last_node h l1) m = Some m' -> ring m' h' l').
Proof.
  split_and!.
  - intros n Hn. split; [by apply list_insert_ring | by apply list_insert_tail_ring].
  - intros l1 x l2 ->. pose proof (list_remove_init_ring _ _ _ _ _ Hring) as [H1 H2].
    split_and!; [done|by rewrite (list_empty_ring _ _ _ H2)|by apply list_remove_ring|apply list_remove_dead].
  - intros x l2 ->. destruct (list_detach_ring _ _ _ _ Hring) as (-> & ? & ?). by eexists.
  - intros x lx l1 l2 Hx Hdis ->. eexists. split; [by eapply list_attach_run|by eapply list_attach_ring].
  - by apply list_empty_ring.
  - by apply list_foreach_ring.
  - intros h' l' Hr Hdis. split_and!.
    + intros n Hn Hn'. split; eapply ring_frame, Hr; intros z Hz.
      * eapply list_insert_frame; [done|]. pose proof (Hdis z Hz). set_solver.
      * eapply list_insert_tail_frame; [done|]. pose proof (Hdis z Hz). set_solver.
    + intros x Hx. assert (ring (list_remove_init x m) h' l') as Hi.
      { eapply ring_frame, Hr. intros z Hz. apply (list_remove_init_frame m h l x z Hring Hx (Hdis z Hz)). }
      split; [done|]. eapply ring_frame, Hi. intros z Hz. apply list_remove_same. intros ->.
      apply (Hdis _ Hz). by right.
    + eapply ring_frame, Hr. intros z Hz. apply (list_detach_frame m h l z Hring (Hdis z Hz)).
    + intros x lx l1 l2 m' Hx Hd -> Hdis' E. erewrite list_attach_run in E by done. injection E as <-.
      eapply ring_frame, Hr. intros z Hz. eapply list_attach_frame; try done; [by apply Hdis|by apply Hdis'].
Qed.

(** A concrete ring for the witnesses: head 1 with elements 2 and 3. *)
Definition ring123 : linkmem :=
  list_insert_tail 3 1 (list_insert_tail 2 1 (link_init 1 (fun _ => MkLink 0 0))).
Lemma ring123_ok : ring ring123 1 [2; 3].
Proof. split; [apply (bool_decide_unpack (NoDup [1; 2; 3])); vm_compute; exact I | vm_compute; auto 6]. Qed.

(** Beside it a ring without a head, of 5 and 6. *)
Definition rings_apart : linkmem := (list_insert_tail 6 5 (link_init 5 ring123)).
Lemma list_ops_implement_sequences_witness :
  ring rings_apart 1 [2; 3] /\ list_foreach 2 1 rings_apart = Some [2; 3]
  /\ list_foreach 3 1 (list_insert 7 1 rings_apart) = Some [7; 2; 3]
  /\ ring (list_remove 2 rings_apart) 1 [3]
  /\ exists m', list_attach 1 5 1 3 rings_apart = Some m' /\ ring m' 1 [2; 3; 5; 6].
Proof.
  assert (ring rings_apart 1 [2; 3]) as Hr.
  { split; [apply (bool_decide_unpack (NoDup [1; 2; 3])); vm_compute; exact I | vm_compute; auto 6]. }
  assert (ring rings_apart 5 [6]) as Hx.
  { split; [apply (bool_decide_unpack (NoDup [5; 6])); vm_compute; exact I | vm_compute; auto 6]. }
  destruct (list_ops_implement_sequences rings_apart 1 [2; 3] Hr) as (_ & Hrem & _ & Hatt & _ & Hf & _).
  split; [exact Hr|]. split; [exact Hf|]. split; [vm_compute; reflexivity|]. split.
  - destruct (Hrem [] 2 [3] eq_refl) as (_ & _ & H & _). exact H.
  - apply (Hatt 5 [6] [2; 3] [] Hx); [set_solver|reflexivity].
Defined.

(** What [cap_list_move] does to a non-empty source [x :: l]: the source is
    left empty with count 0, and the destination head then reaches exactly the
    moved capabilities, rotated ([x] last), whatever list it headed before;
    the moved ones are counted on top of the old count.  So the count is right
    only when the destination was empty, and the elements of a non-empty
    destination become unreachable. *)
Theorem cap_list_move_replaces (m : linkmem) (to from : cap_list_head) (x : Z) (l : list Z)
  (Hfrom : ring m (caps from) (x :: l)) (Hn : ncaps from <> 0)
  (Hto : caps to ∉ caps from :: x :: l) :
  exists m',
    cap_list_move (S (length l)) to from m
    = Some (to <| ncaps ::= fun k => k + Z.of_nat (S (length l)) |>, from <| ncaps := 0 |>, m')
    /\ ring m' (caps to) (l ++ [x]) /\ ring m' (caps from) [].
Proof.
  destruct (list_detach_ring _ _ _ _ Hfrom) as (Hd & He & Hx).
  unfold cap_list_move, cap_list_detach. rewrite (proj2 (Z.eqb_neq _ 0)) by done.
  rewrite Hd. unfold cap_list_attach.
  assert (ring (list_insert (caps to) x (list_remove_init (caps from) m)) x (caps to :: l)) as Hr.
  { apply list_insert_ring; [set_solver | done]. }
  apply ring_rotate in Hr. eexists. split_and!; [|exact Hr|].
  - pose proof (list_foreach_ring _ _ _ Hr) as Hf. rewrite length_app in Hf. cbn in Hf.
    replace (length l + 1)%nat with (S (length l)) in Hf by lia. rewrite Hf. cbn.
    by rewrite length_app, Nat.add_1_r.
  - eapply ring_frame, He. intros z Hz. eapply list_insert_frame; [done|].
    destruct Hfrom as [Hnd _]. apply NoDup_cons in Hnd as [Hnd _]. set_solver.
Qed.

Lemma cap_list_move_replaces_witness :
  exists m',
    cap_list_move 2 (MkCapListHead 5 9) (MkCapListHead 2 1) ring123
    = Some (MkCapListHead 7 9, MkCapListHead 0 1, m') /\ ring m' 9 [3; 2] /\ ring m' 1 [].
Proof.
  exact (cap_list_move_replaces ring123 (MkCapListHead 5 9) (MkCapListHead 2 1) 2 [3]
    ring123_ok ltac:(discriminate) ltac:(cbn; set_solver)).
Defined.
