(* ===== verification/Defs.v ===== *)
(** Constants and address arithmetic shared by the kernel's files:
    [include/l4/api/errno.h], [thread.h], [ipc.h], [exregs.h], [irq.h], [mutex.h],
    [include/l4/generic/space.h], [cap-types.h], [tcb.h], [scheduler.h],
    [include/l4/lib/math.h], [include/l4/glue/arm/memory.h], [memlayout.h] and
    the ARMv5 [mm.h]; platform constants are those of PB926, the default build. *)
From S2P Require Import Prelude.

(** * Error codes *)
Definition EPERM := 1.
Definition ESRCH := 3.
Definition EINTR := 4.
Definition EAGAIN := 11.
Definition ENOMEM := 12.
Definition EFAULT := 14.
Definition EBUSY := 16.
Definition EEXIST := 17.
Definition EINVAL := 22.
Definition ENOSYS := 38.
Definition EACTIVE := 132.
Definition ENOIPC := 133.
Definition ENOCAP := 134.
Definition ENOUTCB := 135.
Definition ENOMAP := 136.
Definition ENOIRQ := 137.
Definition EABORT := 138.

(** [is_err] of [macros.h]: a pointer that encodes a small negative number. *)
Definition is_err (x : Z) : bool := (x <? 0) && (- 0x1000 <? x).
Definition IS_ERR (p : Z) : bool := is_err (s32 p).
Definition PTR_ERR (e : Z) : Z := u32 e.

(** * Task flags and ids *)
Definition TASK_INTERRUPTED := Z.shiftl 1 0.
Definition TASK_SUSPENDING := Z.shiftl 1 1.
Definition TASK_RESUMING := Z.shiftl 1 2.
Definition TASK_PENDING_SIGNAL := TASK_SUSPENDING.
Definition TASK_EXITED := Z.shiftl 1 3.
Definition TASK_REALTIME := Z.shiftl 1 5.
Definition TASK_CID_MASK := 0xFF000000.
Definition TASK_CID_SHIFT := 24.
Definition tid_to_cid (tid : Z) : Z := Z.shiftr (Z.land tid TASK_CID_MASK) TASK_CID_SHIFT.
Definition tid_special_value (id : Z) : bool := Z.land id TASK_CID_MASK =? TASK_CID_MASK.

(** * Thread control *)
Definition THREAD_ACTION_MASK := 0xF0000000.
Definition THREAD_CREATE := 0x00000000.
Definition THREAD_RUN := 0x10000000.
Definition THREAD_SUSPEND := 0x20000000.
Definition THREAD_DESTROY := 0x30000000.
Definition THREAD_RECYCLE := 0x40000000.
Definition THREAD_WAIT := 0x50000000.
Definition THREAD_SHARE_MASK := 0x00F00000.
Definition THREAD_SPACE_MASK := 0x0F000000.
Definition THREAD_CREATE_MASK := Z.lor THREAD_SHARE_MASK THREAD_SPACE_MASK.
Definition TC_SHARE_UTCB := 0x00200000.
Definition TC_SHARE_GROUP := 0x00400000.
Definition TC_SHARE_SPACE := 0x01000000.
Definition TC_COPY_SPACE := 0x02000000.
Definition TC_NEW_SPACE := 0x04000000.
Definition THREAD_EXIT_MASK := 0x0000FFFF.

(** * IPC *)
Definition L4_NILTHREAD := 0xFFFFFFFF.
Definition L4_ANYTHREAD := 0xFFFFFFFE.
Definition L4_IPC_TAG_PFAULT := 0.
Definition L4_IPC_TAG_UNDEF_FAULT := 1.
Definition IPC_FLAGS_TYPE_MASK := 0x0000000F.
Definition IPC_FLAGS_SHORT := 0.
Definition IPC_FLAGS_FULL := 1.
Definition IPC_FLAGS_EXTENDED := 2.
Definition IPC_FLAGS_MSG_INDEX_MASK := 0x00000FF0.
Definition IPC_FLAGS_MSG_INDEX_SHIFT := 4.
Definition IPC_FLAGS_SIZE_MASK := 0x0FFF0000.
Definition IPC_FLAGS_SIZE_SHIFT := 16.
Definition IPC_EFAULT := Z.shiftl 1 28.
Definition IPC_ENOIPC := Z.shiftl 1 29.
Definition IPC_EXTENDED_MAX_SIZE := 1024 * 2.
Definition IPC_INVALID := 0.
Definition IPC_SEND := 1.
Definition IPC_RECV := 2.
Definition IPC_SENDRECV := 3.
Definition extended_ipc_msg_index (flags : Z) : Z :=
  Z.shiftr (Z.land flags IPC_FLAGS_MSG_INDEX_MASK) IPC_FLAGS_MSG_INDEX_SHIFT.
Definition extended_ipc_msg_size (flags : Z) : Z :=
  Z.shiftr (Z.land flags IPC_FLAGS_SIZE_MASK) IPC_FLAGS_SIZE_SHIFT.
Definition ipc_flags_get_type (flags : Z) : Z := Z.land flags IPC_FLAGS_TYPE_MASK.
Definition ipc_flags_set_type (flags type : Z) : Z :=
  Z.lor (Z.land flags (lnot32 IPC_FLAGS_TYPE_MASK)) (Z.land type IPC_FLAGS_TYPE_MASK).

(** Message registers: MR0..MR5 are r3..r8; the utcb holds 64 words. *)
Definition MR_TOTAL := 6.
Definition MR_TAG := 0.
Definition MR_SENDER := 1.
Definition MR_UNUSED_START := 2.
Definition UTCB_SIZE := 4 * 64.
Definition MR_REST := Z.shiftr UTCB_SIZE 2 - MR_TOTAL - 4.
Definition TASK_NOTIFY_SLOTS := 8.
Definition TASK_NOTIFY_MAXVALUE := 255.

(** * Mapping flags of [space.h] *)
Definition MAP_FAULT := 0.
Definition MAP_USR_RW := 1.
Definition MAP_USR_RO := 2.
Definition MAP_KERN_RW := 3.
Definition MAP_USR_IO := 4.
Definition MAP_KERN_IO := 5.
Definition MAP_USR_RWX := 6.
Definition MAP_KERN_RWX := 7.
Definition MAP_USR_RX := 8.
Definition MAP_KERN_RX := 9.
Definition MAP_UNMAP := 10.
Definition MAP_INVALID_FLAGS := 2 ^ 31.

(** * Capability types and permissions *)
Definition CAP_TYPE_MASK := 0x0000FFFF.
Definition CAP_TYPE_TCTRL := Z.shiftl 1 0.
Definition CAP_TYPE_EXREGS := Z.shiftl 1 1.
Definition CAP_TYPE_MAP_PHYSMEM := Z.shiftl 1 2.
Definition CAP_TYPE_MAP_VIRTMEM := Z.shiftl 1 3.
Definition CAP_TYPE_IPC := Z.shiftl 1 4.
Definition CAP_TYPE_IRQCTRL := Z.shiftl 1 5.
Definition CAP_TYPE_QUANTITY := Z.shiftl 1 7.
Definition CAP_RTYPE_MASK := 0xFFFF0000.
Definition CAP_RTYPE_THREAD := Z.shiftl 1 16.
Definition CAP_RTYPE_SPACE := Z.shiftl 1 17.
Definition CAP_RTYPE_CONTAINER := Z.shiftl 1 18.
Definition CAP_RTYPE_THREADPOOL := Z.shiftl 1 20.
Definition CAP_RTYPE_SPACEPOOL := Z.shiftl 1 21.
Definition CAP_RTYPE_MUTEXPOOL := Z.shiftl 1 22.
Definition CAP_RTYPE_MAPPOOL := Z.shiftl 1 23.
Definition CAP_RESID_NONE := u32 (-1).
Definition CAP_TCTRL_CREATE := Z.shiftl 1 0.
Definition CAP_TCTRL_DESTROY := Z.shiftl 1 1.
Definition CAP_TCTRL_RUN := Z.shiftl 1 2.
Definition CAP_TCTRL_SUSPEND := Z.shiftl 1 3.
Definition CAP_TCTRL_RECYCLE := Z.shiftl 1 4.
Definition CAP_TCTRL_WAIT := Z.shiftl 1 5.
Definition CAP_EXREGS_RW_PAGER := Z.shiftl 1 0.
Definition CAP_EXREGS_RW_UTCB := Z.shiftl 1 1.
Definition CAP_EXREGS_RW_SP := Z.shiftl 1 2.
Definition CAP_EXREGS_RW_PC := Z.shiftl 1 3.
Definition CAP_EXREGS_RW_REGS := Z.shiftl 1 4.
Definition CAP_MAP_READ := Z.shiftl 1 0.
Definition CAP_MAP_WRITE := Z.shiftl 1 1.
Definition CAP_MAP_EXEC := Z.shiftl 1 2.
Definition CAP_MAP_CACHED := Z.shiftl 1 3.
Definition CAP_MAP_UNCACHED := Z.shiftl 1 4.
Definition CAP_MAP_UNMAP := Z.shiftl 1 5.
Definition CAP_CACHE_INVALIDATE := Z.shiftl 1 7.
Definition CAP_CACHE_CLEAN := Z.shiftl 1 8.
Definition CAP_IRQCTRL_WAIT := Z.shiftl 1 8.
Definition CAP_IRQCTRL_REGISTER := Z.shiftl 1 7.
Definition CAP_IPC_SEND := Z.shiftl 1 0.
Definition CAP_IPC_SHORT := Z.shiftl 1 2.
Definition CAP_IPC_FULL := Z.shiftl 1 3.
Definition CAP_IPC_EXTENDED := Z.shiftl 1 4.
Definition CAP_CONTROL_NCAPS := 0.
Definition CAP_CONTROL_READ := 1.
Definition IRQ_CONTROL_REGISTER := 0.
Definition IRQ_CONTROL_WAIT := 2.
Definition L4_INVALIDATE_ICACHE := 0x10.
Definition L4_INVALIDATE_DCACHE := 0x20.
Definition L4_CLEAN_DCACHE := 0x30.
Definition L4_CLEAN_INVALIDATE_DCACHE := 0x40.
Definition L4_INVALIDATE_TLB := 0x50.

(** * Userspace mutexes *)
Definition MUTEX_CONTROL_OPMASK := 0xF0000000.
Definition MUTEX_CONTROL_LOCK := 0x10000000.
Definition MUTEX_CONTROL_UNLOCK := 0x20000000.
Definition mutex_operation (x : Z) : Z := Z.land x MUTEX_CONTROL_OPMASK.
Definition mutex_contenders (x : Z) : Z := Z.land x (lnot32 MUTEX_CONTROL_OPMASK).

(** * Scheduler constants; [CONFIG_SCHED_TICKS] as in every defconfig *)
Definition TASK_PRIO_PAGER := 8.
Definition TASK_PRIO_NORMAL := 4.
Definition TASK_PRIO_TOTAL := 30.
Definition CONFIG_SCHED_TICKS := 1000.
Definition SCHED_GRANULARITY := CONFIG_SCHED_TICKS / 10.
Definition SCHED_RQ_TOTAL := 4.
Definition SCHED_RUN_IDLE := Z.shiftl 1 0.
Definition CONFIG_NCPU := 1.
Definition WAKEUP_ASYNC := 0.
Definition WAKEUP_INTERRUPT := Z.shiftl 1 0.
Definition WAKEUP_SYNC := Z.shiftl 1 1.

(** * Address arithmetic of [memory.h] *)
Definition PAGE_BITS := 12.
Definition PAGE_SIZE := 0x1000.
Definition PAGE_MASK := PAGE_SIZE - 1.
Definition page_align_up (addr : Z) : Z := Z.land (u32 (addr + PAGE_MASK)) (lnot32 PAGE_MASK).
Definition page_align (addr : Z) : Z := Z.land addr (lnot32 PAGE_MASK).
Definition is_aligned (val size : Z) : bool := Z.land val (u32 (size - 1)) =? 0.
Definition is_page_aligned (val : Z) : bool := Z.land val PAGE_MASK =? 0.
Definition align (addr size : Z) : Z := Z.land addr (lnot32 (u32 (size - 1))).
Definition align_up (addr size : Z) : Z := Z.land (u32 (addr + (size - 1))) (lnot32 (u32 (size - 1))).
Definition __pfn (x : Z) : Z := Z.shiftr x PAGE_BITS.
Definition __pfn_to_addr (x : Z) : Z := u32 (Z.shiftl x PAGE_BITS).

(** * Memory layout *)
Definition KERNEL_AREA_START := 0xF0000000.
Definition KERNEL_AREA_END := 0xF8000000.
Definition IO_AREA_START := 0xF9000000.
Definition IO_AREA_END := 0xFF000000.
Definition USER_KIP_PAGE := 0xFF000000.
Definition ARM_HIGH_VECTOR := 0xFFFF0000.
Definition ARM_SYSCALL_VECTOR := 0xFFFFFF00.
Definition PLATFORM_PHYS_MEM_START := 0x00000000.
Definition KERNEL_OFFSET := KERNEL_AREA_START - PLATFORM_PHYS_MEM_START.
Definition phys_to_virt (addr : Z) : Z := u32 (addr + KERNEL_OFFSET).
Definition virt_to_phys (addr : Z) : Z := u32 (addr - KERNEL_OFFSET).
Definition KERN_ADDR (x : Z) : bool := (KERNEL_AREA_START <=? x) && (x <? KERNEL_AREA_END).
Definition is_kernel_address (x : Z) : bool :=
  KERN_ADDR x || (ARM_HIGH_VECTOR <=? x) || ((IO_AREA_START <=? x) && (x <? IO_AREA_END)).

(** * [math.h] *)
Fixpoint pow_loop (n : nat) (val res : Z) : Z :=
  match n with O => res | S n => pow_loop n val (s32 (res * val)) end.
Definition pow (val exp : Z) : Z := pow_loop (Z.to_nat exp) val 1.
Definition min (x y : Z) : Z := if x <? y then x else y.
Definition max (x y : Z) : Z := if y <? x then x else y.
Definition set_intersection (a b c d : Z) : bool := if (b <=? c) || (d <=? a) then false else true.

(** * Processor modes *)
Definition ARM_MODE_MASK := 0x1F.
Definition ARM_MODE_SVC := 0x13.
Definition ARM_MODE_USR := 0x10.
