(* ===== verification/Words.v ===== *)
(** Address arithmetic: what the masks and shifts of [include/l4/lib/math.h] and
    [include/l4/glue/arm/memory.h] compute, as division and remainder. *)
From S2P Require Import Prelude Defs.

Lemma land_ones_mod x k : 0 <= k -> Z.land x (2 ^ k - 1) = x mod 2 ^ k.
Proof. intros. rewrite <- Z.land_ones by done. by rewrite Z.ones_equiv, Z.sub_1_r. Qed.

Lemma floor_bits x k m : 0 <= k -> 0 <= m -> Z.testbit (x / 2 ^ k * 2 ^ k) m = (k <=? m) && Z.testbit x m.
Proof.
  intros Hk Hm. rewrite <- Z.shiftl_mul_pow2, <- Z.shiftr_div_pow2 by done. rewrite Z.shiftl_spec by done.
  destruct (Z.leb_spec k m); cbn [andb].
  - rewrite Z.shiftr_spec by lia. f_equal. lia.
  - apply Z.testbit_neg_r. lia.
Qed.
Lemma u32_high x m : is_u32 x -> 32 <= m -> Z.testbit x m = false.
Proof. intros [] ?. rewrite <- (Z.mod_small x (2 ^ 32)) by done. apply Z.mod_pow2_bits_high. lia. Qed.

(** Clearing the low [k] bits rounds down to a multiple of [2 ^ k]. *)
Lemma land_lnot32_floor x k : is_u32 x -> 0 <= k <= 32 -> Z.land x (lnot32 (2 ^ k - 1)) = x / 2 ^ k * 2 ^ k.
Proof.
  intros Hx Hk. apply Z.bits_inj'. intros m Hm. rewrite floor_bits, Z.land_spec, testbit_lnot32 by lia.
  rewrite Z.sub_1_r, <- Z.ones_equiv, Z.testbit_ones_nonneg by lia.
  destruct (Z.ltb_spec m 32).
  - destruct (Z.ltb_spec m k), (Z.leb_spec k m); cbn; try lia; by rewrite ?andb_true_r, ?andb_false_r.
  - rewrite (u32_high x) by done. by rewrite andb_false_r.
Qed.

(** A disjunction of a multiple of [2 ^ k] and a number below is their sum. *)
Lemma lor_low a b k : 0 <= k -> a mod 2 ^ k = 0 -> 0 <= b < 2 ^ k -> Z.lor a b = a + b.
Proof.
  intros Hk Ha Hb.
  assert (a = a / 2 ^ k * 2 ^ k) as Ea by (pose proof (Z.div_mod a (2 ^ k) ltac:(lia)); lia).
  assert (Z.land a b = 0) as E.
  { apply Z.bits_inj'. intros m Hm. rewrite Z.land_spec, Z.bits_0, Ea, floor_bits by done.
    destruct (Z.leb_spec k m); [|done]. rewrite <- (Z.mod_small b (2 ^ k)), Z.mod_pow2_bits_high by lia.
    apply andb_false_r. }
  by rewrite <- Z.lxor_lor, <- Z.add_nocarry_lxor by done.
Qed.

Lemma page_align_floor a : is_u32 a -> page_align a = a / PAGE_SIZE * PAGE_SIZE.
Proof. intros. by apply (land_lnot32_floor a 12). Qed.
Lemma page_aligned_iff a : is_page_aligned a = true <-> a mod PAGE_SIZE = 0.
Proof. unfold is_page_aligned. rewrite Z.eqb_eq. change PAGE_MASK with (2 ^ 12 - 1). by rewrite land_ones_mod. Qed.
Lemma pfn_div a : __pfn a = a / PAGE_SIZE.
Proof. unfold __pfn. by rewrite Z.shiftr_div_pow2. Qed.
Lemma align_up_ceil a : 0 <= a -> a + PAGE_MASK < 2 ^ 32 ->
  align_up a PAGE_SIZE = (a + PAGE_MASK) / PAGE_SIZE * PAGE_SIZE.
Proof.
  intros. unfold align_up. change (u32 (PAGE_SIZE - 1)) with (2 ^ 12 - 1).
  rewrite land_lnot32_floor; [|apply u32_range|lia]. change (PAGE_SIZE - 1) with PAGE_MASK.
  by rewrite u32_id by (unfold is_u32, PAGE_MASK, PAGE_SIZE in *; lia).
Qed.
Lemma phys_virt a : is_u32 a -> virt_to_phys (phys_to_virt a) = a.
Proof.
  intros. unfold virt_to_phys, phys_to_virt, u32, is_u32 in *. rewrite Zminus_mod_idemp_l. rewrite Z.add_simpl_r.
  by apply Z.mod_small.
Qed.
Lemma virt_phys a : is_u32 a -> phys_to_virt (virt_to_phys a) = a.
Proof.
  intros. unfold virt_to_phys, phys_to_virt, u32, is_u32 in *. rewrite Zplus_mod_idemp_l. rewrite Z.sub_add.
  by apply Z.mod_small.
Qed.
Lemma virt_to_phys_kernel a : KERNEL_AREA_START <= a < 2 ^ 32 -> virt_to_phys a = a - KERNEL_AREA_START.
Proof. intros. unfold virt_to_phys. apply u32_id. unfold is_u32, KERNEL_OFFSET, PLATFORM_PHYS_MEM_START, KERNEL_AREA_START in *. lia. Qed.
