(* ===== verification/Kernel.v ===== *)
(** The kernel state and its access primitives.

    The state is the memory the kernel works on, seen through its C types:
    objects are named by their address ([Z]); every address holds one object of
    each type, as in C a pointer of a type can be read at that type, and
    allocation decides which addresses are in use.  Structures embedded in
    others (wait queue heads, mutexes, capability lists) are named by a
    reference that says which field of which object they are.  Intrusive lists
    are the lists of the objects linked (file Links relates the two).
    One processor is modelled ([CONFIG_SMP] unset, as in the default build). *)
From S2P Require Import Prelude Defs Bits.

(** * References to embedded structures *)

(** The five allocation caches of [struct kernel_resources]. *)
Inductive cache_ref : Type := PGD_CACHE | SPACE_CACHE | KTCB_CACHE | MUTEX_CACHE | PMD_CACHE.
(** A mutex: a task's [thread_control_lock], a cache's [mutex], or the
    [mutex_control_mutex] of a container's mutex queue head. *)
Inductive mutex_ref : Type := MX_TCB (t : Z) | MX_CACHE (c : cache_ref) | MX_QHEAD (c : Z).
(** A wait queue head: [wqh_send], [wqh_recv], [wqh_pager] of a task, the [wqh]
    of a mutex, [wqh_holders], [wqh_contenders] of a mutex queue, [wqh_irq]. *)
Inductive wqh_ref : Type :=
| WQ_SEND (t : Z) | WQ_RECV (t : Z) | WQ_PAGER (t : Z) | WQ_MUTEX (m : mutex_ref)
| WQ_HOLDERS (q : Z) | WQ_CONTENDERS (q : Z) | WQ_IRQ (i : Z).
(** A capability list: of a space, a container, a boot-time pager, or the
    kernel's own memory lists. *)
Inductive cl_ref : Type :=
| CL_SPACE (s : Z) | CL_CONT (c : Z) | CL_PAGER (c i : Z)
| CL_PHYS_USED | CL_PHYS_FREE | CL_DEV_USED | CL_DEV_FREE | CL_VIRT_USED | CL_VIRT_FREE.
(** [syscall_regs]: null, the trap frame of a task, or the frame forged on its
    stack by [fault_ipc_to_pager]. *)
Inductive sysref : Type := SYS_NULL | SYS_FRAME (t : Z) | SYS_FAULT (t : Z).

#[export] Instance cache_ref_eq : EqDecision cache_ref.
Proof. solve_decision. Defined.
#[export] Instance mutex_ref_eq : EqDecision mutex_ref.
Proof. solve_decision. Defined.
#[export] Instance wqh_ref_eq : EqDecision wqh_ref.
Proof. solve_decision. Defined.
#[export] Instance cl_ref_eq : EqDecision cl_ref.
Proof. solve_decision. Defined.
#[export] Instance sysref_eq : EqDecision sysref.
Proof. solve_decision. Defined.

(** * Registers: [task_context_t], [exregs_context_t], [syscall_context_t] *)
Inductive reg : Type :=
| SPSR | R0 | R1 | R2 | R3 | R4 | R5 | R6 | R7 | R8 | R9 | R10 | R11 | R12 | SP | LR | PC.
#[export] Instance reg_eq : EqDecision reg.
Proof. solve_decision. Defined.
Abbreviation regs := (reg -> Z).

(** * Objects *)
Inductive task_state : Type := TASK_INACTIVE | TASK_SLEEPING | TASK_RUNNABLE.
#[export] Instance task_state_eq : EqDecision task_state.
Proof. solve_decision. Defined.

(** [struct waitqueue_head]; its elements are the sleepers' on-stack
    [struct waitqueue]s, named by the task they belong to. *)
Record waitqueue_head := MkWqh { sleepers : Z; task_list : list Z }.
#[export] Instance wqh_shape : Shape waitqueue_head := fun w => MkWqh (sleepers w) (task_list w).

(** [struct ktcb]; [rq] is the index of the run queue pointed to, [wq] the
    waitqueue pointed to.  The embedded wait queues and mutex are in [wqhs] and
    [mutexes]; spinlocks carry no state on one processor. *)
Record ktcb := MkKtcb {
  context : regs; syscall_regs : sysref; rq : option Z; tid : Z; tgid : Z; affinity : Z;
  flags : Z; ipc_flags : Z; ts_need_resched : Z; state : task_state; utcb_address : Z;
  kernel_time : Z; user_time : Z; ticks_left : Z; ticks_assigned : Z; sched_granule : Z;
  priority : Z; nlocks : Z; exit_code : Z; space : Z; container : Z; pager : Z; nchild : Z;
  expected_sender : Z; waiting_on : option wqh_ref; wq : option Z;
  extended_ipc_size : Z; extended_ipc_buffer : list Z }.
#[export] Instance ktcb_shape : Shape ktcb := fun t =>
  MkKtcb (context t) (syscall_regs t) (rq t) (tid t) (tgid t) (affinity t) (flags t)
    (ipc_flags t) (ts_need_resched t) (state t) (utcb_address t) (kernel_time t) (user_time t)
    (ticks_left t) (ticks_assigned t) (sched_granule t) (priority t) (nlocks t) (exit_code t)
    (space t) (container t) (pager t) (nchild t) (expected_sender t) (waiting_on t) (wq t)
    (extended_ipc_size t) (extended_ipc_buffer t).
Definition ktcb_zero : ktcb :=
  MkKtcb (fun _ => 0) SYS_NULL None 0 0 0 0 0 0 TASK_INACTIVE 0 0 0 0 0 0 0 0 0 0 0 0 0 0 None None 0 [].

Record runqueue := MkRq { rq_list : list Z; total : Z }.
#[export] Instance runqueue_shape : Shape runqueue := fun r => MkRq (rq_list r) (total r).

(** [struct scheduler]; [rq_runnable] and [rq_expired] index [sched_rq]. *)
Record scheduler := MkSched {
  sflags : Z; sched_rq : Z -> runqueue; rq_runnable : Z; rq_expired : Z;
  idle_task : Z; prio_total : Z }.
#[export] Instance scheduler_shape : Shape scheduler := fun s =>
  MkSched (sflags s) (sched_rq s) (rq_runnable s) (rq_expired s) (idle_task s) (prio_total s).

Record capability := MkCap {
  capid : Z; owner : Z; resid : Z; ctype : Z; access : Z;
  cstart : Z; cend : Z; csize : Z; used : Z }.
#[export] Instance capability_shape : Shape capability := fun c =>
  MkCap (capid c) (owner c) (resid c) (ctype c) (access c) (cstart c) (cend c) (csize c) (used c).
Definition cap_zero : capability := MkCap 0 0 0 0 0 0 0 0 0.

Record cap_list := MkCapList { ncaps : Z; caps : list Z }.
#[export] Instance cap_list_shape : Shape cap_list := fun c => MkCapList (ncaps c) (caps c).

Record address_space := MkSpace { spid : Z; pgd : Z; ktcb_refs : Z }.
#[export] Instance space_shape : Shape address_space := fun s => MkSpace (spid s) (pgd s) (ktcb_refs s).

(** [struct pager], the boot-time description of a container's pager. *)
Record pager_desc := MkPager {
  start_lma : Z; start_vma : Z; start_address : Z; memsize : Z;
  rw_pheader_start : Z; rw_pheader_end : Z; rx_pheader_start : Z; rx_pheader_end : Z }.

(** [struct container]: space list, task list, mutex queue list, each with its
    element count. *)
Record cont := MkCont {
  cid : Z; npagers : Z; space_list : list Z; space_count : Z; ktcb_list : list Z;
  ktcb_count : Z; mq_list : list Z; mq_count : Z; pagers : list pager_desc }.
#[export] Instance cont_shape : Shape cont := fun c =>
  MkCont (cid c) (npagers c) (space_list c) (space_count c) (ktcb_list c) (ktcb_count c)
    (mq_list c) (mq_count c) (pagers c).

Record mutex_queue := MkMq { contenders : Z; physical : Z }.
#[export] Instance mutex_queue_shape : Shape mutex_queue := fun q => MkMq (contenders q) (physical q).

(** [struct mem_cache]; fields [start] and [end] are [mc_start], [mc_end]. *)
Record mem_cache := MkCache {
  mc_total : Z; mc_free : Z; mc_start : Z; mc_end : Z; struct_size : Z; mc_bitmap : list Z }.
#[export] Instance mem_cache_shape : Shape mem_cache := fun c =>
  MkCache (mc_total c) (mc_free c) (mc_start c) (mc_end c) (struct_size c) (mc_bitmap c).

(** [struct kernel_resources] *)
Record kernel_resources := MkKres {
  kr_cid : Z; space_ids : id_pool; ktcb_ids : id_pool; container_ids : id_pool;
  capability_ids : id_pool; containers : list Z; ncont : Z; zombies : list Z; zombie_count : Z }.
#[export] Instance kres_shape : Shape kernel_resources := fun k =>
  MkKres (kr_cid k) (space_ids k) (ktcb_ids k) (container_ids k) (capability_ids k)
    (containers k) (ncont k) (zombies k) (zombie_count k).

(** The handlers [irq_desc_array] can name on PB926. *)
Inductive irq_handler : Type :=
| platform_timer_handler | platform_timer_user_handler
| platform_keyboard_user_handler | platform_mouse_user_handler.
#[export] Instance irq_handler_eq : EqDecision irq_handler.
Proof. solve_decision. Defined.
(** [struct irq_desc]; [chip] indexes [irq_chip_array], null pointers are [None]. *)
Record irq_desc := MkIrqDesc {
  handler : option irq_handler; chip : option Z; irq_task : Z; task_notify_slot : Z }.
#[export] Instance irq_desc_shape : Shape irq_desc := fun d =>
  MkIrqDesc (handler d) (chip d) (irq_task d) (task_notify_slot d).

Record time_info := MkTime { reader : Z; thz : Z; sec : Z }.
#[export] Instance time_info_shape : Shape time_info := fun t => MkTime (reader t) (thz t) (sec t).

(** [struct task_ids] and [struct exregs_data], which live in user memory. *)
Record task_ids := MkIds { ids_tid : Z; ids_spid : Z; ids_tgid : Z }.
#[export] Instance task_ids_shape : Shape task_ids := fun i => MkIds (ids_tid i) (ids_spid i) (ids_tgid i).
Record exregs_data := MkExregs {
  ex_context : regs; valid_vect : Z; ex_flags : Z; pagerid : Z; ex_utcb : Z }.
#[export] Instance exregs_shape : Shape exregs_data := fun e =>
  MkExregs (ex_context e) (valid_vect e) (ex_flags e) (pagerid e) (ex_utcb e).

(** * The state

    The [u_] fields are user memory seen through the types the kernel reads and
    writes there; [io] is the device register file: what hardware makes of a
    register is not modelled, a register reads as it was last written or set by
    the environment.  [cache_ptr] holds the cache pointers of
    [struct kernel_resources], null before boot has made the caches. *)
Record kstate := MkKstate {
  current : Z; tcbs : Z -> ktcb; wqhs : wqh_ref -> waitqueue_head; mutexes : mutex_ref -> Z;
  sched : scheduler; irq_nest_count : Z; voluntary_preempt : Z; irqs_on : bool;
  spaces : Z -> address_space; conts : Z -> cont; caplists : cl_ref -> cap_list;
  capmem : Z -> capability; mqs : Z -> mutex_queue; caches : cache_ref -> mem_cache;
  kres : kernel_resources; sysctx : sysref -> regs; pgds : Z -> Z -> Z; pmds : Z -> Z -> Z;
  pmem : Z -> Z; irq_descs : Z -> irq_desc; jiffies : Z; systime : time_info;
  preempted_psr : Z; cpu_rr_affinity : Z; kip_utcb : Z; ttb : Z;
  u_ids : Z -> task_ids; u_exregs : Z -> exregs_data; u_time : Z -> Z * Z; u_int : Z -> Z;
  u_caps : Z -> list capability; io : Z -> Z; bootmem_cursor : Z;
  cache_ptr : cache_ref -> Z }.
#[export] Instance kstate_shape : Shape kstate := fun s =>
  MkKstate (current s) (tcbs s) (wqhs s) (mutexes s) (sched s) (irq_nest_count s)
    (voluntary_preempt s) (irqs_on s) (spaces s) (conts s) (caplists s) (capmem s) (mqs s)
    (caches s) (kres s) (sysctx s) (pgds s) (pmds s) (pmem s) (irq_descs s) (jiffies s)
    (systime s) (preempted_psr s) (cpu_rr_affinity s) (kip_utcb s) (ttb s) (u_ids s) (u_exregs s)
    (u_time s) (u_int s) (u_caps s) (io s) (bootmem_cursor s) (cache_ptr s).

Abbreviation K := (prog kstate).

(** * Access primitives

    Each kind of write is a named function on states, so that a state reached by
    a call reads as the list of its writes. *)
Definition with_tcb (t : Z) (f : ktcb -> ktcb) (s : kstate) : kstate :=
  s <| tcbs ::= fun m => <[t := f (m t)]> m |>.
Definition with_wqh (h : wqh_ref) (f : waitqueue_head -> waitqueue_head) (s : kstate) : kstate :=
  s <| wqhs ::= fun m => <[h := f (m h)]> m |>.
Definition with_sched (f : scheduler -> scheduler) (s : kstate) : kstate := s <| sched ::= f |>.
Definition with_rq (q : Z) (f : runqueue -> runqueue) : kstate -> kstate :=
  with_sched (fun sc => sc <| sched_rq ::= fun m => <[q := f (m q)]> m |>).
Definition with_kres (f : kernel_resources -> kernel_resources) (s : kstate) : kstate := s <| kres ::= f |>.
Definition with_cont (c : Z) (f : cont -> cont) (s : kstate) : kstate :=
  s <| conts ::= fun m => <[c := f (m c)]> m |>.
Definition with_space (p : Z) (f : address_space -> address_space) (s : kstate) : kstate :=
  s <| spaces ::= fun m => <[p := f (m p)]> m |>.
Definition with_caps (l : cl_ref) (f : cap_list -> cap_list) (s : kstate) : kstate :=
  s <| caplists ::= fun m => <[l := f (m l)]> m |>.
Definition with_cap (c : Z) (f : capability -> capability) (s : kstate) : kstate :=
  s <| capmem ::= fun m => <[c := f (m c)]> m |>.
Definition with_mq (q : Z) (f : mutex_queue -> mutex_queue) (s : kstate) : kstate :=
  s <| mqs ::= fun m => <[q := f (m q)]> m |>.
Definition with_mutex (m : mutex_ref) (v : Z) (s : kstate) : kstate :=
  s <| mutexes ::= fun f => <[m := v]> f |>.
Definition with_cache (c : cache_ref) (f : mem_cache -> mem_cache) (s : kstate) : kstate :=
  s <| caches ::= fun m => <[c := f (m c)]> m |>.
Definition with_preempt (f : Z -> Z) (s : kstate) : kstate :=
  s <| irq_nest_count ::= f |> <| voluntary_preempt ::= f |>.
Definition with_irqs (b : bool) (s : kstate) : kstate := s <| irqs_on := b |>.
Definition with_pgd (p i v : Z) (s : kstate) : kstate :=
  s <| pgds ::= fun m => <[p := <[i := v]> (m p)]> m |>.
Definition with_pmd (p i v : Z) (s : kstate) : kstate :=
  s <| pmds ::= fun m => <[p := <[i := v]> (m p)]> m |>.

(** [t->f] and [t->f = ...] *)
Definition tget {A} (t : Z) (f : ktcb -> A) : K A := gets (fun s => f (tcbs s t)).
Definition tmod (t : Z) (f : ktcb -> ktcb) : K unit := modify (with_tcb t f).
Definition wmod (h : wqh_ref) (f : waitqueue_head -> waitqueue_head) : K unit := modify (with_wqh h f).
Definition smod (f : scheduler -> scheduler) : K unit := modify (with_sched f).
Definition rqmod (q : Z) (f : runqueue -> runqueue) : K unit := modify (with_rq q f).
Definition kmod (f : kernel_resources -> kernel_resources) : K unit := modify (with_kres f).
Definition contmod (c : Z) (f : cont -> cont) : K unit := modify (with_cont c f).
Definition spmod (p : Z) (f : address_space -> address_space) : K unit := modify (with_space p f).
Definition clmod (l : cl_ref) (f : cap_list -> cap_list) : K unit := modify (with_caps l f).
Definition capmod (c : Z) (f : capability -> capability) : K unit := modify (with_cap c f).
Definition mqmod (q : Z) (f : mutex_queue -> mutex_queue) : K unit := modify (with_mq q f).

(** Removal of a node from the list it is linked in. *)
Definition list_del (x : Z) (l : list Z) : list Z := filter (fun y => y <> x) l.

Definition cur_get {A} (f : ktcb -> A) : K A := gets (fun s => f (tcbs s (current s))).
Definition cur_mod (f : ktcb -> ktcb) : K unit := t ← gets current; tmod t f.
(** [curcont], i.e. [current->container]. *)
Definition curcont : K Z := cur_get container.
Definition set_flag (fl : Z) (t : ktcb) : ktcb := t <| flags ::= fun f => Z.lor f fl |>.
Definition clear_flag (fl : Z) (t : ktcb) : ktcb := t <| flags ::= fun f => Z.land f (lnot32 fl) |>.

(** [BUG_ON(c)], the condition read from the state. *)
Definition BUG_ON (c : kstate -> bool) (where_ : string) : K unit :=
  fun s => if c s then Bug where_ else Ret tt s.
(** A run queue node is unlinked when no run queue holds it. *)
Definition rq_linked (s : kstate) (t : Z) : bool :=
  existsb (fun q => bool_decide (t ∈ rq_list (sched_rq (sched s) q))) [0; 1; 2; 3].

(** * Preemption and spinlocks

    [src/generic/scheduler.c] (without [CONFIG_PREEMPT_DISABLE]) and
    [include/l4/lib/spinlock.h] without [CONFIG_SMP]: a spinlock only disables
    preemption, or irqs, of the local processor. *)
Definition preemptive (s : kstate) : bool := irq_nest_count s =? 0.
Definition preempt_count (s : kstate) : Z := irq_nest_count s.
Definition preempt_disable : K unit :=
  modify (with_preempt Z.succ).
Definition preempt_enable : K unit :=
  modify (with_preempt Z.pred).
Definition in_irq_context (s : kstate) : bool := irq_nest_count s =? voluntary_preempt s + 1.
Definition in_nested_irq_context (s : kstate) : bool := 1 <? u32 (irq_nest_count s - voluntary_preempt s).
Definition in_process_context (s : kstate) : bool := negb (in_irq_context s).

Definition spin_lock : K unit := preempt_disable.
Definition spin_unlock : K unit := preempt_enable.
Definition irqs_enabled (s : kstate) : bool := irqs_on s.
Definition disable_irqs : K unit := modify (with_irqs false).
Definition irq_local_disable_save : K bool := st ← gets irqs_on; disable_irqs ;; mret st.
Definition irq_local_restore (st : bool) : K unit := modify (with_irqs st).
Definition spin_lock_irq : K bool := irq_local_disable_save.
Definition spin_unlock_irq (st : bool) : K unit := irq_local_restore st.

(** * Id pools of [kernel_resources]

    [id_new], [id_del] and [id_get] of [src/lib/idpool.c] on the pool named by
    [get] and [put]. *)
Record pool_ref := MkPoolRef {
  pool_get : kernel_resources -> id_pool; pool_put : id_pool -> kernel_resources -> kernel_resources }.
Definition SPACE_IDS : pool_ref := MkPoolRef space_ids (fun p k => k <| space_ids := p |>).
Definition KTCB_IDS : pool_ref := MkPoolRef ktcb_ids (fun p k => k <| ktcb_ids := p |>).
Definition CONTAINER_IDS : pool_ref := MkPoolRef container_ids (fun p k => k <| container_ids := p |>).
Definition CAPABILITY_IDS : pool_ref := MkPoolRef capability_ids (fun p k => k <| capability_ids := p |>).

Definition id_new (pool : pool_ref) : K Z :=
  spin_lock ;;
  k ← gets kres;
  let '(id, p) := id_pool_take (pool_get pool k) in
  kmod (pool_put pool p) ;;
  spin_unlock ;;
  bug_on (id <? 0) "id_new" ;;
  mret id.

Definition id_del (pool : pool_ref) (id : Z) : K Z :=
  spin_lock ;;
  k ← gets kres;
  let '(ret, p) := id_pool_drop (pool_get pool k) id in
  kmod (pool_put pool p) ;;
  spin_unlock ;;
  bug_on (ret <? 0) "id_del" ;;
  mret ret.

Definition id_get (pool : pool_ref) (id : Z) : K Z :=
  spin_lock ;;
  k ← gets kres;
  let '(ret, p) := id_pool_get (pool_get pool k) id in
  kmod (pool_put pool p) ;;
  spin_unlock ;;
  mret ret.
