(* ===== verification/Exec.v ===== *)
(** Symbolic execution of kernel code, and the logic of its outcomes.

    [exec f g ...] unfolds the named functions and runs the straight-line code
    they start with; reads of the written state are computed by [cbn].
    [osafe] is the total-correctness judgement on outcomes: no [BUG()], no
    exhausted loop, and at every thread switch the state given up satisfies an
    invariant which is all that is assumed when the thread is resumed. *)
From S2P Require Import Prelude Kernel.

Ltac exec_cbv :=
  cbv beta iota zeta delta
    [mbind prog_bind mret prog_ret gets modify bug_on BUG_ON when
     tget tmod wmod smod rqmod kmod contmod spmod clmod capmod mqmod cur_get cur_mod curcont
     preempt_disable preempt_enable spin_lock spin_unlock disable_irqs irq_local_disable_save
     irq_local_restore spin_lock_irq spin_unlock_irq];
  cbn [obind].
Tactic Notation "exec" := exec_cbv.
Tactic Notation "exec" reference(f) := unfold f; exec_cbv.
Tactic Notation "exec" reference(f) reference(g) := unfold f, g; exec_cbv.
Tactic Notation "exec" reference(f) reference(g) reference(h) := unfold f, g, h; exec_cbv.

(** [first_returns s']: the first part of the code at hand returns [tt] in [s']. *)
Ltac first_returns s' :=
  match goal with
  | |- obind ?o _ = _ => let H := fresh in assert (o = Ret tt s') as H; [|rewrite H; cbn [obind]; clear H]
  end.

(** Running a bind whose first part returns, bugs or switches. *)
Lemma bind_ret {A B} (m : K A) (k : A -> K B) s a s' :
  m s = Ret a s' -> (mbind (M := prog kstate) k m) s = k a s'.
Proof. intros E. unfold mbind, prog_bind. by rewrite E. Qed.
Lemma bind_assoc {A B C} (o : outcome kstate A) (f : A -> K B) (g : B -> K C) :
  (forall s1 k, o = Switch s1 k -> False) -> obind (obind o f) g = obind o (fun a s => obind (f a s) g).
Proof. destruct o; intros H; cbn; try done. by destruct (H s k). Qed.

(** Interrupt and preemption state is a frame for every other write: [frame_eq]
    moves it inwards, where saving and restoring cancel. *)
Lemma irqs_irqs b c s : with_irqs b (with_irqs c s) = with_irqs b s.
Proof. reflexivity. Qed.
Lemma irqs_preempt b f s : with_irqs b (with_preempt f s) = with_preempt f (with_irqs b s).
Proof. reflexivity. Qed.
Lemma irqs_on_irqs b s : irqs_on (with_irqs b s) = b.
Proof. reflexivity. Qed.
Lemma irqs_on_preempt f s : irqs_on (with_preempt f s) = irqs_on s.
Proof. reflexivity. Qed.
Lemma irqs_restore s : with_irqs (irqs_on s) s = s.
Proof. by destruct s. Qed.
Ltac state_cbv :=
  cbv beta iota zeta delta
    [with_preempt with_irqs set_field current tcbs wqhs mutexes sched irq_nest_count voluntary_preempt
     irqs_on spaces conts caplists capmem mqs caches kres sysctx pgds pmds pmem irq_descs jiffies systime
     preempted_psr cpu_rr_affinity kip_utcb ttb u_ids u_exregs u_time u_int u_caps io bootmem_cursor
     cache_ptr].
Lemma preempt_pred_succ s : with_preempt Z.pred (with_preempt Z.succ s) = s.
Proof.
  destruct s. state_cbv.
  f_equal; lia.
Qed.
Lemma irqs_tcb b t f s : with_irqs b (with_tcb t f s) = with_tcb t f (with_irqs b s).
Proof. reflexivity. Qed.
Lemma preempt_tcb g t f s : with_preempt g (with_tcb t f s) = with_tcb t f (with_preempt g s).
Proof. reflexivity. Qed.
Lemma irqs_on_tcb t f s : irqs_on (with_tcb t f s) = irqs_on s.
Proof. reflexivity. Qed.
Lemma irqs_wqh b t f s : with_irqs b (with_wqh t f s) = with_wqh t f (with_irqs b s).
Proof. reflexivity. Qed.
Lemma preempt_wqh g t f s : with_preempt g (with_wqh t f s) = with_wqh t f (with_preempt g s).
Proof. reflexivity. Qed.
Lemma irqs_on_wqh t f s : irqs_on (with_wqh t f s) = irqs_on s.
Proof. reflexivity. Qed.
Lemma irqs_sched b f s : with_irqs b (with_sched f s) = with_sched f (with_irqs b s).
Proof. reflexivity. Qed.
Lemma preempt_sched g f s : with_preempt g (with_sched f s) = with_sched f (with_preempt g s).
Proof. reflexivity. Qed.
Lemma irqs_on_sched f s : irqs_on (with_sched f s) = irqs_on s.
Proof. reflexivity. Qed.
Lemma irqs_rq b q f s : with_irqs b (with_rq q f s) = with_rq q f (with_irqs b s).
Proof. reflexivity. Qed.
Lemma preempt_rq g q f s : with_preempt g (with_rq q f s) = with_rq q f (with_preempt g s).
Proof. reflexivity. Qed.
Lemma irqs_on_rq q f s : irqs_on (with_rq q f s) = irqs_on s.
Proof. reflexivity. Qed.
Lemma irqs_kres b f s : with_irqs b (with_kres f s) = with_kres f (with_irqs b s).
Proof. reflexivity. Qed.
Lemma preempt_kres g f s : with_preempt g (with_kres f s) = with_kres f (with_preempt g s).
Proof. reflexivity. Qed.
Lemma irqs_on_kres f s : irqs_on (with_kres f s) = irqs_on s.
Proof. reflexivity. Qed.
Lemma irqs_cont b t f s : with_irqs b (with_cont t f s) = with_cont t f (with_irqs b s).
Proof. reflexivity. Qed.
Lemma preempt_cont g t f s : with_preempt g (with_cont t f s) = with_cont t f (with_preempt g s).
Proof. reflexivity. Qed.
Lemma irqs_on_cont t f s : irqs_on (with_cont t f s) = irqs_on s.
Proof. reflexivity. Qed.
Lemma irqs_space b t f s : with_irqs b (with_space t f s) = with_space t f (with_irqs b s).
Proof. reflexivity. Qed.
Lemma preempt_space g t f s : with_preempt g (with_space t f s) = with_space t f (with_preempt g s).
Proof. reflexivity. Qed.
Lemma irqs_on_space t f s : irqs_on (with_space t f s) = irqs_on s.
Proof. reflexivity. Qed.
Lemma irqs_caps b t f s : with_irqs b (with_caps t f s) = with_caps t f (with_irqs b s).
Proof. reflexivity. Qed.
Lemma preempt_caps g t f s : with_preempt g (with_caps t f s) = with_caps t f (with_preempt g s).
Proof. reflexivity. Qed.
Lemma irqs_on_caps t f s : irqs_on (with_caps t f s) = irqs_on s.
Proof. reflexivity. Qed.
Lemma irqs_cap b t f s : with_irqs b (with_cap t f s) = with_cap t f (with_irqs b s).
Proof. reflexivity. Qed.
Lemma preempt_cap g t f s : with_preempt g (with_cap t f s) = with_cap t f (with_preempt g s).
Proof. reflexivity. Qed.
Lemma irqs_on_cap t f s : irqs_on (with_cap t f s) = irqs_on s.
Proof. reflexivity. Qed.
Lemma irqs_mq b t f s : with_irqs b (with_mq t f s) = with_mq t f (with_irqs b s).
Proof. reflexivity. Qed.
Lemma preempt_mq g t f s : with_preempt g (with_mq t f s) = with_mq t f (with_preempt g s).
Proof. reflexivity. Qed.
Lemma irqs_on_mq t f s : irqs_on (with_mq t f s) = irqs_on s.
Proof. reflexivity. Qed.
Lemma irqs_mutex b t f s : with_irqs b (with_mutex t f s) = with_mutex t f (with_irqs b s).
Proof. reflexivity. Qed.
Lemma preempt_mutex g t f s : with_preempt g (with_mutex t f s) = with_mutex t f (with_preempt g s).
Proof. reflexivity. Qed.
Lemma irqs_on_mutex t f s : irqs_on (with_mutex t f s) = irqs_on s.
Proof. reflexivity. Qed.
Lemma irqs_cache b t f s : with_irqs b (with_cache t f s) = with_cache t f (with_irqs b s).
Proof. reflexivity. Qed.
Lemma preempt_cache g t f s : with_preempt g (with_cache t f s) = with_cache t f (with_preempt g s).
Proof. reflexivity. Qed.
Lemma irqs_on_cache t f s : irqs_on (with_cache t f s) = irqs_on s.
Proof. reflexivity. Qed.
Lemma irqs_pgd b p i v s : with_irqs b (with_pgd p i v s) = with_pgd p i v (with_irqs b s).
Proof. reflexivity. Qed.
Lemma preempt_pgd g p i v s : with_preempt g (with_pgd p i v s) = with_pgd p i v (with_preempt g s).
Proof. reflexivity. Qed.
Lemma irqs_on_pgd p i v s : irqs_on (with_pgd p i v s) = irqs_on s.
Proof. reflexivity. Qed.
Lemma irqs_pmd b p i v s : with_irqs b (with_pmd p i v s) = with_pmd p i v (with_irqs b s).
Proof. reflexivity. Qed.
Lemma preempt_pmd g p i v s : with_preempt g (with_pmd p i v s) = with_pmd p i v (with_preempt g s).
Proof. reflexivity. Qed.
Lemma irqs_on_pmd p i v s : irqs_on (with_pmd p i v s) = irqs_on s.
Proof. reflexivity. Qed.
Create Rewrite HintDb frame.
#[export] Hint Rewrite irqs_irqs irqs_preempt irqs_on_irqs irqs_on_preempt irqs_restore preempt_pred_succ
  irqs_tcb preempt_tcb irqs_on_tcb irqs_wqh preempt_wqh irqs_on_wqh
  irqs_sched preempt_sched irqs_on_sched irqs_rq preempt_rq irqs_on_rq
  irqs_kres preempt_kres irqs_on_kres irqs_cont preempt_cont irqs_on_cont
  irqs_space preempt_space irqs_on_space irqs_caps preempt_caps irqs_on_caps
  irqs_cap preempt_cap irqs_on_cap irqs_mq preempt_mq irqs_on_mq
  irqs_mutex preempt_mutex irqs_on_mutex irqs_cache preempt_cache irqs_on_cache
  irqs_pgd preempt_pgd irqs_on_pgd irqs_pmd preempt_pmd irqs_on_pmd : frame.
Ltac frame_eq := autorewrite with frame; reflexivity.

(** * Safe outcomes *)

Inductive osafe {A} (I : kstate -> Prop) (cur : Z) (Q : A -> kstate -> Prop) : outcome kstate A -> Prop :=
| safe_ret a s : Q a s -> osafe I cur Q (Ret a s)
| safe_switch s k :
    I s -> (forall s', I s' -> current s' = cur -> osafe I cur Q (k s')) -> osafe I cur Q (Switch s k).

Lemma osafe_bind {A B} I cur (Q : A -> kstate -> Prop) (R : B -> kstate -> Prop) o (f : A -> K B) :
  osafe I cur Q o -> (forall a s, Q a s -> osafe I cur R (f a s)) -> osafe I cur R (obind o f).
Proof. intros Ho Hf. induction Ho as [a s HQ|s k HI _ IH]; cbn; [by apply Hf|]. by constructor. Qed.

Lemma osafe_mono {A} I cur (Q R : A -> kstate -> Prop) o :
  osafe I cur Q o -> (forall a s, Q a s -> R a s) -> osafe I cur R o.
Proof. intros Ho HQ. induction Ho; constructor; auto. Qed.

Lemma osafe_not_bug {A} I cur (Q : A -> kstate -> Prop) w : osafe I cur Q (Bug w) -> False.
Proof. by inversion 1. Qed.
