(* ===== verification/Sched.v ===== *)
(** The scheduler and wait queues: [src/generic/scheduler.c] with
    [include/l4/generic/scheduler.h], and [src/lib/wait.c] with
    [include/l4/lib/wait.h].  The two files call each other: [schedule] wakes
    tasks with pending signals, and waking a task synchronously calls
    [schedule].  The wake-up functions therefore take the synchronous resume as
    a parameter [resume_sync]; [schedule] passes one that is never reached,
    because it only wakes asynchronously (theorem [wake_up_async_ignores_sync]). *)
From S2P Require Import Prelude Defs Kernel.

(** * Run queues *)

(** [sched_lock_runqueues] takes the irq-safe lock of queue 0, then that of
    queue 1. *)
Definition sched_lock_runqueues : K bool :=
  irqflags ← spin_lock_irq;
  spin_lock ;;
  BUG_ON irqs_enabled "sched_lock_runqueues" ;;
  mret irqflags.
Definition sched_unlock_runqueues (irqflags : bool) : K unit :=
  spin_unlock ;; spin_unlock_irq irqflags.

Definition sched_init_runqueue (q : Z) : K unit := rqmod q (fun r => r <| rq_list := [] |>).

Definition sched_init : K unit :=
  foreach [0; 1; 2; 3] sched_init_runqueue ;;
  smod (fun sc => sc <| rq_runnable := 0 |>) ;;
  smod (fun sc => sc <| rq_expired := 1 |>) ;;
  smod (fun sc => sc <| prio_total := TASK_PRIO_TOTAL |>) ;;
  cur ← gets current;
  smod (fun sc => sc <| idle_task := cur |>).

Definition rq_at (s : kstate) (q : Z) : runqueue := sched_rq (sched s) q.

Definition sched_rq_swap_queues : K unit :=
  BUG_ON (fun s => bool_decide (rq_list (rq_at s (rq_expired (sched s))) = []))
    "sched_rq_swap_queues" ;;
  smod (fun sc => let temp := rq_runnable sc in
                  sc <| rq_runnable := rq_expired sc |> <| rq_expired := temp |>).

Definition sched_rq_add_task (task q : Z) (front : bool) : K unit :=
  BUG_ON (fun s => rq_linked s task) "sched_rq_add_task" ;;
  irqflags ← sched_lock_runqueues;
  (if front then rqmod q (fun r => r <| rq_list ::= fun l => task :: l |>)
   else rqmod q (fun r => r <| rq_list ::= fun l => l ++ [task] |>)) ;;
  rqmod q (fun r => r <| total ::= fun n => u32 (n + 1) |>) ;;
  tmod task (fun t => t <| rq := Some q |>) ;;
  sched_unlock_runqueues irqflags.

(** [total] is unsigned, so the [BUG_ON(total < 0)] never fires; a null
    [task->rq] would be dereferenced. *)
Definition sched_rq_remove_task (task : Z) : K unit :=
  irqflags ← sched_lock_runqueues;
  BUG_ON (fun s => negb (rq_linked s task)) "sched_rq_remove_task" ;;
  smod (fun sc => sc <| sched_rq ::= fun m q => m q <| rq_list ::= list_del task |> |>) ;;
  r ← tget task rq;
  match r with
  | None => bug "sched_rq_remove_task: null rq"
  | Some q =>
      rqmod q (fun r => r <| total ::= fun n => u32 (n - 1) |>) ;;
      BUG_ON (fun s => total (rq_at s q) <? 0) "sched_rq_remove_task"
  end ;;
  tmod task (fun t => t <| rq := None |>) ;;
  sched_unlock_runqueues irqflags.

Definition sched_init_task (task prio : Z) : K unit :=
  tmod task (fun t => t <| priority := prio |>) ;;
  tmod task (fun t => t <| ticks_left := 0 |>) ;;
  tmod task (fun t => t <| state := TASK_INACTIVE |>) ;;
  tmod task (fun t => t <| ts_need_resched := 0 |>) ;;
  tmod task (set_flag TASK_RESUMING).

Definition sched_resume_async (task : Z) : K unit :=
  tmod task (fun t => t <| state := TASK_RUNNABLE |>) ;;
  q ← gets (fun s => rq_runnable (sched s));
  sched_rq_add_task task q true.

(** [sched_resume_sync], with the call to [schedule] a parameter. *)
Definition sched_resume_sync_with (schedule : K unit) (task : Z) : K unit :=
  BUG_ON (fun s => bool_decide (task = current s)) "sched_resume_sync" ;;
  tmod task (fun t => t <| state := TASK_RUNNABLE |>) ;;
  q ← gets (fun s => rq_runnable (sched s));
  sched_rq_add_task task q true ;;
  schedule.

Definition sched_prepare_sleep : K unit :=
  preempt_disable ;;
  cur ← gets current;
  sched_rq_remove_task cur ;;
  tmod cur (fun t => t <| state := TASK_SLEEPING |>) ;;
  preempt_enable.

(** * Wait queues *)

Definition task_set_wqh (task : Z) (wqh : wqh_ref) (w : Z) : K unit :=
  irqflags ← spin_lock_irq;
  tmod task (fun t => t <| waiting_on := Some wqh |>) ;;
  tmod task (fun t => t <| wq := Some w |>) ;;
  spin_unlock_irq irqflags.

Definition task_unset_wqh (task : Z) : K unit :=
  irqflags ← spin_lock_irq;
  tmod task (fun t => t <| waiting_on := None |>) ;;
  tmod task (fun t => t <| wq := None |>) ;;
  spin_unlock_irq irqflags.

(** [link_to_struct(wqh->task_list.next, struct waitqueue, task_list)->task]; on
    an empty list the C code would take the head itself for a waitqueue. *)
Definition first_sleeper (s : kstate) (h : wqh_ref) : option Z := head (task_list (wqhs s h)).

Section Wakeup.
(** What a synchronous wake-up does after queueing the task. *)
Variable resume_sync : Z -> K unit.

Definition resume_with (flags task : Z) : K unit :=
  if flag_set flags WAKEUP_SYNC then resume_sync task else sched_resume_async task.

(** The body shared by [wake_up] and one round of [wake_up_all]; the two
    differ in where [task_unset_wqh] stands relative to the unlinking. *)
Definition wake_up (wqh : wqh_ref) (flags_ : Z) : K unit :=
  BUG_ON (fun s => sleepers (wqhs s wqh) <? 0) "wake_up" ;;
  irqflags ← spin_lock_irq;
  n ← gets (fun s => sleepers (wqhs s wqh));
  if 0 <? n then
    w ← gets (fun s => first_sleeper s wqh);
    match w with
    | None => bug "wake_up"
    | Some sleeper =>
        wmod wqh (fun w => w <| task_list ::= list_del sleeper |>) ;;
        wmod wqh (fun w => w <| sleepers ::= Z.pred |>) ;;
        task_unset_wqh sleeper ;;
        when (flag_set flags_ WAKEUP_INTERRUPT) (tmod sleeper (set_flag TASK_INTERRUPTED)) ;;
        spin_unlock_irq irqflags ;;
        resume_with flags_ sleeper
    end
  else spin_unlock_irq irqflags.

(** [while (wqh->sleepers > 0)], at most [fuel] rounds. *)
Fixpoint wake_up_all_loop (fuel : nat) (wqh : wqh_ref) (flags_ : Z) (irqflags : bool) : K unit :=
  n ← gets (fun s => sleepers (wqhs s wqh));
  if 0 <? n then
    match fuel with
    | O => out_of_fuel
    | S fuel =>
        w ← gets (fun s => first_sleeper s wqh);
        match w with
        | None => bug "wake_up_all"
        | Some sleeper =>
            task_unset_wqh sleeper ;;
            wmod wqh (fun w => w <| task_list ::= list_del sleeper |>) ;;
            wmod wqh (fun w => w <| sleepers ::= Z.pred |>) ;;
            when (flag_set flags_ WAKEUP_INTERRUPT) (tmod sleeper (set_flag TASK_INTERRUPTED)) ;;
            spin_unlock_irq irqflags ;;
            resume_with flags_ sleeper ;;
            irqflags ← spin_lock_irq;
            wake_up_all_loop fuel wqh flags_ irqflags
        end
    end
  else spin_unlock_irq irqflags.
Definition wake_up_all (fuel : nat) (wqh : wqh_ref) (flags_ : Z) : K unit :=
  irqsave ← spin_lock_irq;
  BUG_ON (fun s => sleepers (wqhs s wqh) <? 0) "wake_up_all" ;;
  wake_up_all_loop fuel wqh flags_ irqsave.

Definition wake_up_task (task flags_ : Z) : K Z :=
  irqflags0 ← spin_lock_irq;
  h ← tget task waiting_on;
  match h with
  | None => spin_unlock_irq irqflags0 ;; mret (-1)
  | Some wqh =>
      w ← tget task wq;
      spin_unlock_irq irqflags0 ;;
      irqflags0 ← spin_lock_irq;
      irqflags1 ← spin_lock_irq;
      h' ← tget task waiting_on;
      if bool_decide (h' <> Some wqh) then
        spin_unlock_irq irqflags0 ;; spin_unlock_irq irqflags1 ;; mret (-1)
      else
        match w with
        | None => bug "wake_up_task: null wq"
        | Some w => wmod wqh (fun q => q <| task_list ::= list_del w |>)
        end ;;
        wmod wqh (fun q => q <| sleepers ::= Z.pred |>) ;;
        tmod task (fun t => t <| waiting_on := None |>) ;;
        tmod task (fun t => t <| wq := None |>) ;;
        when (flag_set flags_ WAKEUP_INTERRUPT) (tmod task (set_flag TASK_INTERRUPTED)) ;;
        spin_unlock_irq irqflags0 ;;
        spin_unlock_irq irqflags1 ;;
        resume_with flags_ task ;;
        mret 0
  end.
End Wakeup.

(** * Choosing and switching *)

(** [sched_suspend_async] runs inside [schedule], so its [wake_up], without
    [WAKEUP_SYNC], must not schedule. *)
Definition no_resume_sync (task : Z) : K unit := bug "schedule re-entered".

Definition sched_suspend_async : K unit :=
  preempt_disable ;;
  cur ← gets current;
  sched_rq_remove_task cur ;;
  tmod cur (fun t => t <| state := TASK_INACTIVE |>) ;;
  tmod cur (clear_flag TASK_SUSPENDING) ;;
  p ← tget cur pager;
  when (negb (bool_decide (p = cur))) (wake_up no_resume_sync (WQ_PAGER cur) 0) ;;
  preempt_enable ;;
  tmod cur (fun t => t <| ts_need_resched := 1 |>).

(** [arch_space_switch] loads the page tables of [to]; cache and TLB
    maintenance have no effect on this state. *)
Definition with_ttb (to : Z) (s : kstate) : kstate :=
  s <| ttb := virt_to_phys (pgd (spaces s (space (tcbs s to)))) |>.
Definition arch_space_switch (to : Z) : K unit := modify (with_ttb to).
Definition with_kip_utcb (utcb_address : Z) (s : kstate) : kstate := s <| kip_utcb := utcb_address |>.
Definition arch_update_utcb (utcb_address : Z) : K unit := modify (with_kip_utcb utcb_address).
Definition task_update_utcb (task : Z) : K unit := a ← tget task utcb_address; arch_update_utcb a.

(** [arch_context_switch]: the assembly saves the current context (only when
    switching in process context; in irq context it was saved on entry, and the
    nest count is reduced), and loads the next one with irqs enabled. *)
Definition arch_context_switch (next : Z) : K unit := fun s =>
  let s := if irq_nest_count s =? 0 then s else s <| irq_nest_count ::= Z.pred |> in
  Switch (s <| irqs_on := true |> <| current := next |>) (fun s' => Ret tt s').

Definition context_switch (next : Z) : K unit :=
  cur ← gets current;
  BUG_ON (fun s => current s =? 0) "context_switch" ;;
  BUG_ON (fun s => space (tcbs s cur) =? 0) "context_switch" ;;
  BUG_ON (fun _ => next =? 0) "context_switch" ;;
  BUG_ON (fun s => space (tcbs s next) =? 0) "context_switch" ;;
  a ← gets (fun s => spid (spaces s (space (tcbs s cur))));
  b ← gets (fun s => spid (spaces s (space (tcbs s next))));
  when (negb (a =? b)) (arch_space_switch next) ;;
  task_update_utcb next ;;
  arch_context_switch next.

(** C's [/] truncates toward zero. *)
Definition sched_recalc_ticks (task prio_total_ : Z) : K unit :=
  BUG_ON (fun s => prio_total_ <? priority (tcbs s task)) "sched_recalc_ticks" ;;
  BUG_ON (fun _ => prio_total_ =? 0) "sched_recalc_ticks" ;;
  tmod task (fun t => t <| ticks_assigned := Z.quot (CONFIG_SCHED_TICKS * priority t) prio_total_ |>).

(** The element behind the head of a run queue's list. *)
Definition rq_first (q : Z) : K Z :=
  l ← gets (fun s => rq_list (rq_at s q));
  match l with [] => bug "sched_select_next: empty run queue" | t :: _ => mret t end.

(** The [for(;;)] of [sched_select_next] leaves in its first round. *)
Definition sched_select_next : K Z :=
  sc ← gets sched;
  if flag_set (sflags sc) SCHED_RUN_IDLE then mret (idle_task sc)
  else if 0 <? total (sched_rq sc (rq_runnable sc)) then rq_first (rq_runnable sc)
  else if 0 <? total (sched_rq sc (rq_expired sc)) then
    sched_rq_swap_queues ;;
    q ← gets (fun s => rq_runnable (sched s));
    rq_first q
  else
    proc ← gets in_process_context;
    if (proc : bool) then mret (idle_task sc) else gets current.

Definition is_idle_task (s : kstate) (t : Z) : bool := bool_decide (t = idle_task (sched s)).

Definition sched_prepare_next (next : Z) : K unit :=
  f ← tget next flags;
  when (flag_set f TASK_RESUMING) (tmod next (clear_flag TASK_RESUMING)) ;;
  left_ ← tget next ticks_left;
  when (left_ =? 0)
    (pt ← gets (fun s => prio_total (sched s));
     sched_recalc_ticks next pt ;;
     tmod next (fun t => t <| ticks_left := ticks_assigned t |>)) ;;
  idle ← gets (fun s => is_idle_task s next);
  when idle (q ← gets (fun s => rq_runnable (sched s)); sched_rq_add_task next q true) ;;
  tmod next (fun t => t <| sched_granule := SCHED_GRANULARITY |>).

(** [TASK_IN_USER]: the saved context is not a supervisor-mode one. *)
Definition TASK_IN_KERNEL (t : ktcb) : bool := Z.land (context t SPSR) ARM_MODE_MASK =? ARM_MODE_SVC.
Definition TASK_IN_USER (t : ktcb) : bool := negb (TASK_IN_KERNEL t).

Definition schedule : K unit :=
  BUG_ON (fun s => negb (voluntary_preempt s =? 0)) "schedule" ;;
  BUG_ON in_nested_irq_context "schedule" ;;
  BUG_ON (fun s => CONFIG_SCHED_TICKS <? ticks_left (tcbs s (current s))) "schedule" ;;
  preempt_disable ;;
  cur ← gets current;
  tmod cur (fun t => t <| ts_need_resched := 0 |>) ;;
  st ← tget cur state;
  when (bool_decide (st = TASK_RUNNABLE))
    (sched_rq_remove_task cur ;;
     idle ← gets (fun s => is_idle_task s cur);
     when (negb idle)
       (left_ ← tget cur ticks_left;
        sc ← gets sched;
        sched_rq_add_task cur (if left_ =? 0 then rq_expired sc else rq_runnable sc) false)) ;;
  f ← tget cur flags;
  st ← tget cur state;
  when (flag_set f TASK_PENDING_SIGNAL && bool_decide (st = TASK_SLEEPING))
    (_ ← wake_up_task no_resume_sync cur WAKEUP_INTERRUPT; mret tt) ;;
  t ← gets (fun s => tcbs s cur);
  when (flag_set (flags t) TASK_PENDING_SIGNAL && bool_decide (state t = TASK_RUNNABLE)
        && TASK_IN_USER t)
    (when (flag_set (flags t) TASK_SUSPENDING) sched_suspend_async) ;;
  f ← tget cur flags;
  when (flag_set f TASK_EXITED)
    (tmod cur (clear_flag TASK_EXITED) ;;
     smod (fun sc => sc <| sflags ::= fun fl => Z.lor fl SCHED_RUN_IDLE |>)) ;;
  next ← sched_select_next;
  sched_prepare_next next ;;
  disable_irqs ;;
  preempt_enable ;;
  context_switch next.

Definition sched_resume_sync (task : Z) : K unit := sched_resume_sync_with schedule task.

Definition sched_suspend_sync : K unit :=
  preempt_disable ;;
  cur ← gets current;
  sched_rq_remove_task cur ;;
  tmod cur (fun t => t <| state := TASK_INACTIVE |>) ;;
  tmod cur (clear_flag TASK_SUSPENDING) ;;
  p ← tget cur pager;
  when (negb (bool_decide (p = cur))) (wake_up sched_resume_sync (WQ_PAGER cur) 0) ;;
  preempt_enable ;;
  schedule.

(** * Waiting *)

(** After a sleep: [-EINTR] if woken by an interrupt, clearing the flag. *)
Definition check_interrupted : K Z :=
  cur ← gets current;
  f ← tget cur flags;
  if flag_set f TASK_INTERRUPTED then tmod cur (clear_flag TASK_INTERRUPTED) ;; mret (- EINTR)
  else mret 0.

(** [list_insert_tail(&wq->task_list, &wqh->task_list)] and [wqh->sleepers++]. *)
Definition wq_enqueue (wqh : wqh_ref) (w : Z) : K unit :=
  wmod wqh (fun q => q <| sleepers ::= Z.succ |>) ;;
  wmod wqh (fun q => q <| task_list ::= fun l => l ++ [w] |>).

Definition wait_on_prepared_wait : K Z := preempt_enable ;; schedule ;; check_interrupted.

Definition wait_on_prepare (wqh : wqh_ref) : K Z :=
  preempt_disable ;;
  cur ← gets current;
  irqflags ← spin_lock_irq;
  wq_enqueue wqh cur ;;
  task_set_wqh cur wqh cur ;;
  sched_prepare_sleep ;;
  spin_unlock_irq irqflags ;;
  mret 0.

Definition wait_on (wqh : wqh_ref) : K Z :=
  cur ← gets current;
  irqsave ← spin_lock_irq;
  wq_enqueue wqh cur ;;
  task_set_wqh cur wqh cur ;;
  sched_prepare_sleep ;;
  spin_unlock_irq irqsave ;;
  schedule ;;
  check_interrupted.

(** [WAIT_EVENT(wqh, condition, ret)], returning [ret]; [fuel] bounds the
    number of times the condition is found false after a wake-up. *)
Fixpoint WAIT_EVENT (fuel : nat) (wqh : wqh_ref) (condition : K bool) : K Z :=
  irqsave ← spin_lock_irq;
  c ← condition;
  if (c : bool) then spin_unlock_irq irqsave ;; mret 0
  else
    match fuel with
    | O => out_of_fuel
    | S fuel =>
        cur ← gets current;
        task_set_wqh cur wqh cur ;;
        wq_enqueue wqh cur ;;
        sched_prepare_sleep ;;
        spin_unlock_irq irqsave ;;
        schedule ;;
        r ← check_interrupted;
        if r <? 0 then mret r else WAIT_EVENT fuel wqh condition
    end.
