(* ===== verification/SchedInv.v ===== *)
(** The scheduler's invariant and its preservation by the queue operations.

    [sched_inv] says that run queues, wait queues and task states agree: a task
    is queued to run exactly when it is [TASK_RUNNABLE] (the idle task only
    while it runs), and waits in exactly the wait queue it names exactly when it
    is [TASK_SLEEPING].  [sinv (Some t)] is the invariant with task [t] exempt
    from the agreement between state and queues, as it is in the middle of an
    operation on it. *)
From S2P Require Import Prelude Defs Kernel Exec Sched.

(** * Reading functions updated at a point *)
Lemma upd_eq {A B} `{EqDecision A} (m : A -> B) i x : (<[i := x]> m) i = x.
Proof. apply fn_lookup_insert. Qed.
Lemma upd_ne {A B} `{EqDecision A} (m : A -> B) i j x : i <> j -> (<[i := x]> m) j = m j.
Proof. apply fn_lookup_insert_ne. Qed.
Lemma upd_same {A B} `{EqDecision A} {C} (g : B -> C) (m : A -> B) i x j :
  g x = g (m i) -> g ((<[i := x]> m) j) = g (m j).
Proof. intros E. destruct (decide (i = j)) as [->|]; [by rewrite upd_eq | by rewrite upd_ne]. Qed.

(** Case analysis on a read at a written point. *)
Ltac upd_case :=
  match goal with
  | |- context [(<[?i := ?x]> ?m) ?i] => rewrite (upd_eq m i x)
  | H : context [(<[?i := ?x]> ?m) ?i] |- _ => rewrite (upd_eq m i x) in H
  | |- context [(<[?i := ?x]> ?m) ?j] =>
      destruct (decide (i = j)) as [?E|?E]; [rewrite <- E, (upd_eq m i x) in * || (subst; rewrite upd_eq in * )
                                            | rewrite (upd_ne m i j x E) in *]
  | H : context [(<[?i := ?x]> ?m) ?j] |- _ =>
      destruct (decide (i = j)) as [?E|?E]; [subst; rewrite upd_eq in * | rewrite (upd_ne m i j x E) in *]
  end.

(** * The invariant *)

Record rq_inv (s : kstate) : Prop := {
  rqi_mem : forall t q, t ∈ rq_list (rq_at s q) <-> rq (tcbs s t) = Some q;
  rqi_nodup : forall q, NoDup (rq_list (rq_at s q));
  rqi_total : forall q, total (rq_at s q) = Z.of_nat (length (rq_list (rq_at s q)));
  rqi_range : forall t q, rq (tcbs s t) = Some q -> (q = 0 \/ q = 1) /\ 0 < t < 2 ^ 32;
  rqi_sel : rq_runnable (sched s) = 0 /\ rq_expired (sched s) = 1
            \/ rq_runnable (sched s) = 1 /\ rq_expired (sched s) = 0 }.

Record wq_inv (s : kstate) : Prop := {
  wqi_mem : forall t h, t ∈ task_list (wqhs s h) <-> waiting_on (tcbs s t) = Some h;
  wqi_nodup : forall h, NoDup (task_list (wqhs s h));
  wqi_sleepers : forall h, sleepers (wqhs s h) = Z.of_nat (length (task_list (wqhs s h)));
  wqi_wq : forall t h, waiting_on (tcbs s t) = Some h -> wq (tcbs s t) = Some t }.

(** What the scheduler relies on in a task it may run. *)
Definition task_ok (t : Z) (k : ktcb) : Prop :=
  0 < t < 2 ^ 32 /\ space k <> 0 /\ 0 < priority k <= TASK_PRIO_TOTAL
  /\ 0 <= ticks_left k <= CONFIG_SCHED_TICKS.

Definition idle (s : kstate) : Z := idle_task (sched s).

Record sinv (out : option Z) (s : kstate) : Prop := {
  si_rq : rq_inv s;
  si_wq : wq_inv s;
  si_queued : forall t, Some t <> out -> is_Some (rq (tcbs s t)) -> state (tcbs s t) = TASK_RUNNABLE;
  si_runnable : forall t, Some t <> out -> state (tcbs s t) = TASK_RUNNABLE ->
                  is_Some (rq (tcbs s t)) \/ t = idle s /\ current s <> t;
  si_waiting : forall t, Some t <> out -> is_Some (waiting_on (tcbs s t)) <-> state (tcbs s t) = TASK_SLEEPING;
  si_ok : forall t, state (tcbs s t) <> TASK_INACTIVE \/ t = current s \/ t = idle s -> task_ok t (tcbs s t);
  si_idle : Some (idle s) <> out ->
            state (tcbs s (idle s)) = TASK_RUNNABLE /\ (is_Some (rq (tcbs s (idle s))) -> current s = idle s);
  si_idle_flags : flag_set (flags (tcbs s (idle s))) TASK_SUSPENDING = false;
  si_prio : prio_total (sched s) = TASK_PRIO_TOTAL }.
Definition sched_inv : kstate -> Prop := sinv None.

(** The invariant only reads part of the state. *)
Lemma rq_inv_ext s s' : tcbs s' = tcbs s -> sched s' = sched s -> rq_inv s -> rq_inv s'.
Proof. intros Et Es []. split; unfold rq_at in *; rewrite ?Et, ?Es; done. Qed.
Lemma sinv_ext out s s' :
  current s' = current s -> tcbs s' = tcbs s -> wqhs s' = wqhs s -> sched s' = sched s ->
  sinv out s -> sinv out s'.
Proof.
  intros Ec Et Ew Es [[] [] ? ? ? ? ? ? ?]. unfold idle, rq_at in *.
  split; unfold idle, rq_at in *; rewrite ?Ec, ?Et, ?Es; try done;
    split; unfold rq_at in *; rewrite ?Ew, ?Et, ?Es; done.
Qed.

Lemma sinv_open t s : sched_inv s -> sinv (Some t) s.
Proof. intros []. split; try done; eauto. Qed.

(** A task put back under the invariant. *)
Definition settled (s : kstate) (t : Z) : Prop :=
  match state (tcbs s t) with
  | TASK_RUNNABLE => waiting_on (tcbs s t) = None
      /\ (is_Some (rq (tcbs s t)) /\ (t = idle s -> current s = t) \/ rq (tcbs s t) = None /\ t = idle s /\ current s <> t)
  | TASK_SLEEPING => is_Some (waiting_on (tcbs s t)) /\ rq (tcbs s t) = None /\ t <> idle s
  | TASK_INACTIVE => waiting_on (tcbs s t) = None /\ rq (tcbs s t) = None /\ t <> idle s
  end.
Lemma sinv_close t s : sinv (Some t) s -> settled s t -> sched_inv s.
Proof.
  intros [] H. unfold settled in H.
  assert (forall u, u <> t -> Some u <> Some t) as Hne by congruence.
  split; try done.
  - intros u _ Hq. destruct (decide (u = t)) as [->|]; [|auto].
    destruct (state (tcbs s t)); [|destruct H as (_ & H & _)|done];
      [destruct H as (_ & H & _)|]; rewrite H in Hq; by destruct Hq.
  - intros u _ E. destruct (decide (u = t)) as [->|]; [|auto]. rewrite E in H. naive_solver.
  - intros u _. destruct (decide (u = t)) as [->|]; [|auto]. destruct (state (tcbs s t)).
    + destruct H as (-> & _). split; [by intros []|done].
    + naive_solver.
    + destruct H as (-> & _). split; [by intros []|done].
  - intros _. destruct (decide (idle s = t)) as [E|]; [|auto].
    rewrite E. destruct (state (tcbs s t)); [naive_solver|naive_solver|].
    split; [done|]. intros Hq. destruct H as [_ [[_ H]|[H _]]]; [naive_solver|]. rewrite H in Hq. by destruct Hq.
Qed.

(** * The writes of the queue operations *)

Definition enq (t q : Z) (front : bool) (s : kstate) : kstate :=
  with_tcb t (fun t => t <| rq := Some q |>)
    (with_rq q (fun r => r <| total ::= fun n => u32 (n + 1) |>)
      (with_rq q (fun r => r <| rq_list ::= fun l => if front then t :: l else l ++ [t] |>) s)).
Definition unlink_rq (t : Z) : kstate -> kstate :=
  with_sched (fun sc => sc <| sched_rq ::= fun m q => m q <| rq_list ::= list_del t |> |>).
Definition deq (t q : Z) (s : kstate) : kstate :=
  with_tcb t (fun t => t <| rq := None |>)
    (with_rq q (fun r => r <| total ::= fun n => u32 (n - 1) |>) (unlink_rq t s)).
(** Task [t] linked behind the sleepers of [h], and unlinked from them. *)
Definition wq_enter (t : Z) (h : wqh_ref) (s : kstate) : kstate :=
  with_tcb t (fun k => k <| wq := Some t |>) (with_tcb t (fun k => k <| waiting_on := Some h |>)
    (with_wqh h (fun w => w <| task_list ::= fun l => l ++ [t] |>)
      (with_wqh h (fun w => w <| sleepers ::= Z.succ |>) s))).
Definition wq_leave (t : Z) (h : wqh_ref) (s : kstate) : kstate :=
  with_tcb t (fun k => k <| wq := None |>) (with_tcb t (fun k => k <| waiting_on := None |>)
    (with_wqh h (fun w => w <| sleepers ::= Z.pred |>)
      (with_wqh h (fun w => w <| task_list ::= list_del t |>) s))).
Definition set_state (t : Z) (st : task_state) : kstate -> kstate := with_tcb t (fun k => k <| state := st |>).

(** Lists of distinct addresses are shorter than the address space. *)
Lemma addr_list_length (l : list Z) :
  NoDup l -> (forall x, x ∈ l -> 0 < x < 2 ^ 32) -> Z.of_nat (length l) < 2 ^ 32.
Proof.
  intros Hd Hl. assert (l ⊆+ seqZ 1 (2 ^ 32 - 1)) as Hs.
  { apply NoDup_submseteq; [done|]. intros x Hx. apply elem_of_seqZ. apply Hl in Hx. lia. }
  apply submseteq_length in Hs. rewrite length_seqZ in Hs. lia.
Qed.

Lemma list_del_elem x y l : y ∈ list_del x l <-> y ∈ l /\ y <> x.
Proof. unfold list_del. rewrite list_elem_of_filter. tauto. Qed.
Lemma list_del_nodup x l : NoDup l -> NoDup (list_del x l).
Proof. apply NoDup_filter. Qed.
Lemma list_del_id x l : x ∉ l -> list_del x l = l.
Proof.
  unfold list_del. induction l as [|y l IH]; [done|]. intros H. rewrite not_elem_of_cons in H.
  rewrite filter_cons_True by naive_solver. f_equal. naive_solver.
Qed.
Lemma list_del_length x l : NoDup l -> x ∈ l -> Z.of_nat (length (list_del x l)) = Z.of_nat (length l) - 1.
Proof.
  intros Hd Hx. apply list_elem_of_split in Hx as (l1 & l2 & ->). unfold list_del.
  rewrite filter_app, filter_cons_False by naive_solver. apply NoDup_app in Hd as (_ & H1 & [H2 _]%NoDup_cons).
  fold (list_del x l1) (list_del x l2). rewrite !list_del_id, !length_app; cbn; [lia|done|].
  intros Hx. apply (H1 x Hx). set_solver.
Qed.
Lemma list_del_head x l : NoDup (x :: l) -> list_del x (x :: l) = l.
Proof.
  intros [H _]%NoDup_cons. unfold list_del. rewrite filter_cons_False by naive_solver. by apply list_del_id.
Qed.

Lemma rq_total_bound s q : rq_inv s -> 0 <= total (rq_at s q) < 2 ^ 32.
Proof.
  intros []. rewrite rqi_total0. split; [lia|]. apply addr_list_length; [done|].
  intros x Hx%rqi_mem0%rqi_range0. tauto.
Qed.

(** Reads of states given by writes: cbn computes them up to the updated
    functions, which case analysis resolves. *)
Ltac reads := unfold rq_at, idle in *; cbn in *; repeat (upd_case; cbn in * ).

Lemma enq_list t q front s q' :
  rq_list (rq_at (enq t q front s) q') =
  if decide (q = q') then (if front then t :: rq_list (rq_at s q') else rq_list (rq_at s q') ++ [t])
  else rq_list (rq_at s q').
Proof. unfold rq_at. cbn. destruct (decide (q = q')) as [<-|]; [by rewrite !upd_eq | by rewrite !upd_ne]. Qed.
Lemma enq_total t q front s q' :
  total (rq_at (enq t q front s) q') =
  if decide (q = q') then u32 (total (rq_at s q') + 1) else total (rq_at s q').
Proof. unfold rq_at. cbn. destruct (decide (q = q')) as [<-|]; [by rewrite !upd_eq | by rewrite !upd_ne]. Qed.
Lemma deq_list t q s q' : rq_list (rq_at (deq t q s) q') = list_del t (rq_list (rq_at s q')).
Proof. unfold rq_at. cbn. destruct (decide (q = q')) as [<-|]; [by rewrite !upd_eq | by rewrite !upd_ne]. Qed.
Lemma deq_total t q s q' :
  total (rq_at (deq t q s) q') = if decide (q = q') then u32 (total (rq_at s q') - 1) else total (rq_at s q').
Proof. unfold rq_at. cbn. destruct (decide (q = q')) as [<-|]; [by rewrite !upd_eq | by rewrite !upd_ne]. Qed.

Lemma rq_inv_enq t q front s :
  rq_inv s -> rq (tcbs s t) = None -> 0 < t < 2 ^ 32 -> q = 0 \/ q = 1 -> rq_inv (enq t q front s).
Proof.
  intros Hi Ht Ha Hq. pose proof Hi as [Hm Hn Hl Hr Hs].
  assert (forall q', t ∉ rq_list (rq_at s q')) as Hnt by (intros q' H%Hm; congruence).
  assert (forall u q', u ∈ rq_list (rq_at (enq t q front s) q')
            <-> u ∈ rq_list (rq_at s q') \/ (u = t /\ q = q')) as Hin.
  { intros u q'. rewrite enq_list. destruct (decide (q = q')); destruct front; set_solver. }
  assert (forall q', NoDup (rq_list (rq_at (enq t q front s) q'))) as Hnd.
  { intros q'. rewrite enq_list. destruct (decide _); [|done]. destruct front.
    - apply NoDup_cons. naive_solver.
    - apply NoDup_app. split_and!; [done|set_solver|apply NoDup_singleton]. }
  split; [|done| | |done].
  - intros u q'. rewrite Hin, Hm. cbn. destruct (decide (t = u)) as [<-|Hu].
    + rewrite upd_eq. cbn. naive_solver congruence.
    + rewrite upd_ne by done. naive_solver.
  - intros q'. rewrite enq_total. pose proof (rq_total_bound s q' Hi) as Hb. rewrite Hl in Hb.
    assert (Z.of_nat (length (rq_list (rq_at (enq t q front s) q'))) < 2 ^ 32) as Hb'.
    { apply addr_list_length; [done|]. intros x [Hx|[-> _]]%Hin; [|done]. apply Hm, Hr in Hx. tauto. }
    rewrite enq_list in *. destruct (decide (q = q')); [|done]. rewrite Hl.
    destruct front; [cbn [length] in * | rewrite length_app in *; cbn [length] in * ];
      rewrite u32_id by (unfold is_u32; lia); lia.
  - intros u q'. cbn. destruct (decide (t = u)) as [<-|Hu]; [|rewrite upd_ne by done; apply Hr].
    rewrite upd_eq. cbn. intros [= <-]. done.
Qed.

Lemma rq_inv_deq t q s : rq_inv s -> rq (tcbs s t) = Some q -> rq_inv (deq t q s).
Proof.
  intros Hi Ht. pose proof Hi as [Hm Hn Hl Hr Hs]. split; [| | | |done].
  - intros u q'. rewrite deq_list, list_del_elem, Hm. cbn. destruct (decide (t = u)) as [<-|Hu].
    + rewrite upd_eq. cbn. naive_solver.
    + rewrite upd_ne by done. naive_solver.
  - intros q'. rewrite deq_list. by apply list_del_nodup.
  - intros q'. rewrite deq_total, deq_list. pose proof (rq_total_bound s q' Hi) as Hb. rewrite Hl in *.
    destruct (decide (q = q')) as [<-|Hq].
    + assert (t ∈ rq_list (rq_at s q)) as Hin by by apply Hm.
      rewrite list_del_length by done. pose proof (list_elem_of_split _ _ Hin) as (l1 & l2 & E).
      rewrite E, length_app in *. cbn [length] in *. rewrite u32_id by (unfold is_u32; lia). lia.
    + rewrite list_del_id; [done|]. rewrite Hm. congruence.
  - intros u q'. cbn. destruct (decide (t = u)) as [<-|Hu]; [by rewrite upd_eq|]. rewrite upd_ne by done. apply Hr.
Qed.

Lemma wq_enter_list t h s h' :
  task_list (wqhs (wq_enter t h s) h') =
  if decide (h = h') then task_list (wqhs s h') ++ [t] else task_list (wqhs s h').
Proof. cbn. destruct (decide (h = h')) as [<-|]; [by rewrite !upd_eq | by rewrite !upd_ne]. Qed.
Lemma wq_enter_sleepers t h s h' :
  sleepers (wqhs (wq_enter t h s) h') =
  if decide (h = h') then sleepers (wqhs s h') + 1 else sleepers (wqhs s h').
Proof. cbn. destruct (decide (h = h')) as [<-|]; [by rewrite !upd_eq | by rewrite !upd_ne]. Qed.
Lemma wq_leave_list t h s h' :
  task_list (wqhs (wq_leave t h s) h') =
  if decide (h = h') then list_del t (task_list (wqhs s h')) else task_list (wqhs s h').
Proof. cbn. destruct (decide (h = h')) as [<-|]; [by rewrite !upd_eq | by rewrite !upd_ne]. Qed.
Lemma wq_leave_sleepers t h s h' :
  sleepers (wqhs (wq_leave t h s) h') =
  if decide (h = h') then sleepers (wqhs s h') - 1 else sleepers (wqhs s h').
Proof. cbn. destruct (decide (h = h')) as [<-|]; [by rewrite !upd_eq | by rewrite !upd_ne]. Qed.

Lemma wq_inv_enter t h s : wq_inv s -> waiting_on (tcbs s t) = None -> wq_inv (wq_enter t h s).
Proof.
  intros [Hm Hn Hl Hw] Ht.
  assert (forall h', t ∉ task_list (wqhs s h')) as Hnt by (intros h' H%Hm; congruence).
  split.
  - intros u h'. rewrite wq_enter_list. cbn. destruct (decide (t = u)) as [<-|Hu].
    + rewrite !upd_eq. cbn. destruct (decide (h = h')) as [<-|]; [set_solver|].
      split; [naive_solver|congruence].
    + rewrite !upd_ne by done. rewrite <- Hm. destruct (decide _); set_solver.
  - intros h'. rewrite wq_enter_list. destruct (decide _); [|done].
    apply NoDup_app. split_and!; [done|set_solver|apply NoDup_singleton].
  - intros h'. rewrite wq_enter_list, wq_enter_sleepers, Hl. destruct (decide _); [|done].
    rewrite length_app. cbn. lia.
  - intros u h'. cbn. destruct (decide (t = u)) as [<-|Hu]; [by rewrite !upd_eq|].
    rewrite !upd_ne by done. apply Hw.
Qed.

Lemma wq_inv_leave t h s : wq_inv s -> waiting_on (tcbs s t) = Some h -> wq_inv (wq_leave t h s).
Proof.
  intros [Hm Hn Hl Hw] Ht. split.
  - intros u h'. rewrite wq_leave_list. cbn. destruct (decide (t = u)) as [<-|Hu].
    + rewrite !upd_eq. cbn. destruct (decide (h = h')) as [<-|]; [rewrite list_del_elem; naive_solver|].
      rewrite Hm. split; congruence.
    + rewrite !upd_ne by done. rewrite <- Hm. destruct (decide _); [rewrite list_del_elem|]; naive_solver.
  - intros h'. rewrite wq_leave_list. destruct (decide _); [by apply list_del_nodup|done].
  - intros h'. rewrite wq_leave_list, wq_leave_sleepers, Hl. destruct (decide (h = h')) as [<-|]; [|done].
    rewrite list_del_length; [lia|done|by apply Hm].
  - intros u h'. cbn. destruct (decide (t = u)) as [<-|Hu]; [by rewrite !upd_eq|].
    rewrite !upd_ne by done. apply Hw.
Qed.

(** * Preservation *)

Lemma rq_inv_tcb t f s :
  rq_inv s -> rq (f (tcbs s t)) = rq (tcbs s t) -> rq_inv (with_tcb t f s).
Proof.
  intros [Hm Hn Hl Hr Hs] E. split; try done.
  - intros u q. change (rq_at (with_tcb t f s) q) with (rq_at s q). cbn. by rewrite Hm, (upd_same rq).
  - intros u q. cbn. rewrite (upd_same rq) by done. apply Hr.
Qed.
Lemma wq_inv_tcb t f s :
  wq_inv s -> waiting_on (f (tcbs s t)) = waiting_on (tcbs s t) -> wq (f (tcbs s t)) = wq (tcbs s t) ->
  wq_inv (with_tcb t f s).
Proof.
  intros [Hm Hn Hl Hw] E1 E2. split; try done.
  - intros u h. cbn. rewrite Hm. by rewrite (upd_same waiting_on).
  - intros u h. cbn. rewrite (upd_same waiting_on), (upd_same wq) by done. apply Hw.
Qed.

(** Any write to fields of a task that the invariant does not tie to the
    queues. *)
Lemma sinv_tcb out t f s :
  sinv out s ->
  rq (f (tcbs s t)) = rq (tcbs s t) ->
  waiting_on (f (tcbs s t)) = waiting_on (tcbs s t) -> wq (f (tcbs s t)) = wq (tcbs s t) ->
  out = Some t \/ state (f (tcbs s t)) = state (tcbs s t) ->
  (state (f (tcbs s t)) <> TASK_INACTIVE \/ t = current s \/ t = idle s -> task_ok t (f (tcbs s t))) ->
  (t = idle s -> flag_set (flags (f (tcbs s t))) TASK_SUSPENDING = false) ->
  sinv out (with_tcb t f s).
Proof.
  intros [Hr Hw Hq Hru Hwa Hok Hi Hif Hp] E1 E2 E3 Est Eok Efl.
  assert (forall u, Some u <> out -> state ((<[t := f (tcbs s t)]> (tcbs s)) u) = state (tcbs s u)) as Hst.
  { intros u Hu. destruct (decide (t = u)) as [<-|]; [|by rewrite upd_ne].
    rewrite upd_eq. destruct Est; [congruence|done]. }
  split; try done; unfold idle in *; cbn.
  - by apply rq_inv_tcb.
  - by apply wq_inv_tcb.
  - intros u Hu. rewrite (upd_same rq), Hst by done. by apply Hq.
  - intros u Hu. rewrite (upd_same rq), Hst by done. by apply Hru.
  - intros u Hu. rewrite (upd_same waiting_on), Hst by done. by apply Hwa.
  - intros u. destruct (decide (t = u)) as [<-|]; [rewrite upd_eq; done | rewrite upd_ne by done; apply Hok].
  - intros Hu. rewrite (upd_same rq), Hst by done. by apply Hi.
  - destruct (decide (t = idle_task (sched s))) as [E|]; [rewrite <- E, upd_eq; by apply Efl | by rewrite upd_ne].
Qed.

(** Queue operations on the exempt task. *)
Section Exempt.
Context (t : Z) (s : kstate) (Hs : sinv (Some t) s).

Lemma sinv_enq q front :
  rq (tcbs s t) = None -> 0 < t < 2 ^ 32 -> q = 0 \/ q = 1 -> sinv (Some t) (enq t q front s).
Proof.
  intros Hn Ha Hq. destruct Hs. split; [by apply rq_inv_enq | | | | | | | |done].
  - eapply wq_inv_tcb; try done. by destruct si_wq0.
  - intros u Hu. cbn. rewrite upd_ne by congruence. by apply si_queued0.
  - intros u Hu. cbn. rewrite upd_ne by congruence. by apply si_runnable0.
  - intros u Hu. cbn. rewrite upd_ne by congruence. by apply si_waiting0.
  - intros u. cbn. destruct (decide (t = u)) as [<-|]; [rewrite upd_eq|rewrite upd_ne by done]; apply si_ok0.
  - unfold idle in *. intros Hu. cbn. rewrite upd_ne by (intros ->; by apply Hu). by apply si_idle0.
  - unfold idle in *. cbn. by rewrite (upd_same flags).
Qed.

Lemma sinv_deq q : rq (tcbs s t) = Some q -> sinv (Some t) (deq t q s).
Proof.
  intros Hn. destruct Hs. split; [by apply rq_inv_deq | | | | | | | |done].
  - eapply wq_inv_tcb; try done. by destruct si_wq0.
  - intros u Hu. cbn. rewrite upd_ne by congruence. by apply si_queued0.
  - intros u Hu. cbn. rewrite upd_ne by congruence. by apply si_runnable0.
  - intros u Hu. cbn. rewrite upd_ne by congruence. by apply si_waiting0.
  - intros u. cbn. destruct (decide (t = u)) as [<-|]; [rewrite upd_eq|rewrite upd_ne by done]; apply si_ok0.
  - unfold idle in *. intros Hu. cbn. rewrite upd_ne by (intros ->; by apply Hu). by apply si_idle0.
  - unfold idle in *. cbn. by rewrite (upd_same flags).
Qed.

Lemma sinv_enter h : waiting_on (tcbs s t) = None -> sinv (Some t) (wq_enter t h s).
Proof.
  intros Hn. destruct Hs. split; [ | by apply wq_inv_enter | | | | | | |done].
  - apply rq_inv_tcb; [apply rq_inv_tcb; [by destruct si_rq0|done]|done].
  - intros u Hu. cbn. rewrite !upd_ne by congruence. by apply si_queued0.
  - intros u Hu. cbn. rewrite !upd_ne by congruence. by apply si_runnable0.
  - intros u Hu. cbn. rewrite !upd_ne by congruence. by apply si_waiting0.
  - intros u. cbn. destruct (decide (t = u)) as [<-|]; [rewrite !upd_eq|rewrite !upd_ne by done]; apply si_ok0.
  - unfold idle in *. intros Hu. cbn. rewrite !upd_ne by (intros ->; by apply Hu). by apply si_idle0.
  - unfold idle in *. cbn. rewrite (upd_same flags), (upd_same flags); rewrite ?upd_eq; done.
Qed.

Lemma sinv_leave h : waiting_on (tcbs s t) = Some h -> sinv (Some t) (wq_leave t h s).
Proof.
  intros Hn. destruct Hs. split; [ | by apply wq_inv_leave | | | | | | |done].
  - apply rq_inv_tcb; [apply rq_inv_tcb; [by destruct si_rq0|done]|done].
  - intros u Hu. cbn. rewrite !upd_ne by congruence. by apply si_queued0.
  - intros u Hu. cbn. rewrite !upd_ne by congruence. by apply si_runnable0.
  - intros u Hu. cbn. rewrite !upd_ne by congruence. by apply si_waiting0.
  - intros u. cbn. destruct (decide (t = u)) as [<-|]; [rewrite !upd_eq|rewrite !upd_ne by done]; apply si_ok0.
  - unfold idle in *. intros Hu. cbn. rewrite !upd_ne by (intros ->; by apply Hu). by apply si_idle0.
  - unfold idle in *. cbn. rewrite (upd_same flags), (upd_same flags); rewrite ?upd_eq; done.
Qed.
End Exempt.
