(* ===== verification/SchedOps.v ===== *)
(** Run-queue and wait-queue operations: what each does to the state, and that
    it keeps the scheduler's invariant. *)
From S2P Require Import Prelude Defs Kernel Exec Sched SchedInv.

(** * Run queues *)

Lemma rq_linked_iff s t : rq_inv s -> rq_linked s t = true <-> is_Some (rq (tcbs s t)).
Proof.
  intros [Hm _ _ Hr _]. unfold rq_linked. rewrite existsb_exists. split.
  - intros (q & _ & Hq). apply bool_decide_eq_true in Hq. apply Hm in Hq. by eexists.
  - intros [q Hq]. exists q. split; [|by apply bool_decide_eq_true, Hm].
    apply Hr in Hq as [[-> | ->] _]; cbn; tauto.
Qed.
Lemma rq_unlinked s t : rq_inv s -> rq (tcbs s t) = None -> rq_linked s t = false.
Proof.
  intros Hi E. destruct (rq_linked s t) eqn:El; [|done].
  apply rq_linked_iff in El; [|done]. rewrite E in El. by destruct El.
Qed.

Lemma sched_rq_add_task_run t q front s :
  rq_inv s -> rq (tcbs s t) = None -> sched_rq_add_task t q front s = Ret tt (enq t q front s).
Proof.
  intros Hi Hn. exec sched_rq_add_task sched_lock_runqueues sched_unlock_runqueues.
  rewrite (rq_unlinked s t Hi Hn). cbn [obind].
  change (irqs_enabled (with_preempt Z.succ (with_irqs false s))) with false. cbn [obind].
  destruct front; cbn [obind]; f_equal; unfold enq; frame_eq.
Qed.

Lemma u32_not_neg z : (u32 z <? 0) = false.
Proof. apply Z.ltb_ge. apply u32_range. Qed.

Lemma sched_rq_remove_task_run t q s :
  rq_inv s -> rq (tcbs s t) = Some q -> sched_rq_remove_task t s = Ret tt (deq t q s).
Proof.
  intros Hi Hq. exec sched_rq_remove_task sched_lock_runqueues sched_unlock_runqueues.
  change (irqs_enabled (with_preempt Z.succ (with_irqs false s))) with false. cbn [obind].
  change (rq_linked (with_preempt Z.succ (with_irqs false s)) t) with (rq_linked s t).
  rewrite (proj2 (rq_linked_iff s t Hi)) by by eexists. cbn [negb obind].
  match goal with |- context [rq (tcbs ?x t)] => change (rq (tcbs x t)) with (rq (tcbs s t)) end.
  rewrite Hq. cbn [obind].
  match goal with |- context [total (rq_at ?x q) <? 0] =>
    replace (total (rq_at x q)) with (u32 (total (rq_at s q) - 1)) by (unfold rq_at; cbn; by rewrite upd_eq)
  end.
  rewrite u32_not_neg. cbn [obind]. f_equal. unfold deq, unlink_rq. frame_eq.
Qed.

(** Making a task runnable. *)
Definition resume (t : Z) (s : kstate) : kstate :=
  enq t (rq_runnable (sched s)) true (set_state t TASK_RUNNABLE s).

Lemma sched_resume_async_run t s :
  rq_inv s -> rq (tcbs s t) = None -> sched_resume_async t s = Ret tt (resume t s).
Proof.
  intros Hi Hn. exec sched_resume_async. apply sched_rq_add_task_run.
  - by apply rq_inv_tcb.
  - cbn. by rewrite upd_eq.
Qed.

Lemma sel_range s : rq_inv s -> (rq_runnable (sched s) = 0 \/ rq_runnable (sched s) = 1)
  /\ (rq_expired (sched s) = 0 \/ rq_expired (sched s) = 1).
Proof. intros []. naive_solver. Qed.

Lemma sinv_resume t s :
  sinv (Some t) s -> rq (tcbs s t) = None -> waiting_on (tcbs s t) = None ->
  task_ok t (tcbs s t) -> (t = idle s -> current s = t) -> sched_inv (resume t s).
Proof.
  intros Hs Hn Hw Hok Hid. apply (sinv_close t).
  - apply sinv_enq; [|cbn; by rewrite upd_eq|apply Hok|apply sel_range, Hs].
    apply sinv_tcb; try done; [by left|]. intros E. destruct Hs. unfold idle in *. cbn. by rewrite E.
  - unfold settled, resume. cbn. rewrite !upd_eq. cbn. split; [done|]. left. split; [by eexists|done].
Qed.

(** * Wait queues *)

Lemma wq_enter_wmod t h s :
  (wq_enqueue h t ;; task_set_wqh t h t) s = Ret tt (wq_enter t h s)
  /\ (task_set_wqh t h t ;; wq_enqueue h t) s = Ret tt (wq_enter t h s).
Proof. split; exec wq_enqueue task_set_wqh; f_equal; unfold wq_enter; frame_eq. Qed.

(** The current task goes to sleep: off its run queue, and sleeping. *)
Definition fall_asleep (t q : Z) (s : kstate) : kstate := set_state t TASK_SLEEPING (deq t q s).

Lemma sched_prepare_sleep_run s q :
  rq_inv s -> rq (tcbs s (current s)) = Some q ->
  sched_prepare_sleep s = Ret tt (fall_asleep (current s) q s).
Proof.
  intros Hi Hq. exec sched_prepare_sleep.
  rewrite (sched_rq_remove_task_run _ q); [|by apply (rq_inv_ext s)|done].
  cbn [obind]. f_equal. unfold fall_asleep, deq, unlink_rq, set_state. frame_eq.
Qed.

(** * Waking *)

Lemma wake_up_none rs h fl s :
  wq_inv s -> task_list (wqhs s h) = [] -> wake_up rs h fl s = Ret tt s.
Proof.
  intros [_ _ Hl _] E. exec wake_up. rewrite Hl, E.
  change (Z.of_nat (length (@nil Z)) <? 0) with false. cbn [obind].
  change (wqhs (with_irqs false s)) with (wqhs s). rewrite Hl, E.
  change (0 <? Z.of_nat (length (@nil Z))) with false. cbv beta iota. f_equal. frame_eq.
Qed.

Definition interrupt (fl t : Z) (s : kstate) : kstate :=
  if flag_set fl WAKEUP_INTERRUPT then with_tcb t (set_flag TASK_INTERRUPTED) s else s.
Definition is_sync (fl : Z) : bool := flag_set fl WAKEUP_SYNC.

(** The first sleeper of [h] is taken off the queue and resumed. *)
Lemma wake_up_run rs h fl s t l :
  wq_inv s -> task_list (wqhs s h) = t :: l ->
  wake_up rs h fl s = resume_with rs fl t (interrupt fl t (wq_leave t h s)).
Proof.
  intros [_ _ Hl _] E. exec wake_up task_unset_wqh. rewrite Hl, E.
  replace (Z.of_nat (length (t :: l)) <? 0) with false by (symmetry; apply Z.ltb_ge; lia). cbn [obind].
  change (wqhs (with_irqs false s)) with (wqhs s). rewrite Hl, E.
  replace (0 <? Z.of_nat (length (t :: l))) with true by (symmetry; apply Z.ltb_lt; cbn; lia).
  unfold first_sleeper. change (wqhs (with_irqs false s)) with (wqhs s). rewrite E. cbn [head obind].
  unfold interrupt. destruct (flag_set fl WAKEUP_INTERRUPT); cbn [obind]; f_equal; unfold wq_leave; frame_eq.
Qed.

(** A waiting task is asleep, on no run queue, not the idle task. *)
Lemma waiting_facts s t h :
  sched_inv s -> waiting_on (tcbs s t) = Some h ->
  state (tcbs s t) = TASK_SLEEPING /\ rq (tcbs s t) = None /\ t <> idle s /\ task_ok t (tcbs s t).
Proof.
  intros [_ _ Hq _ Hw Hok Hi _ _] E.
  assert (state (tcbs s t) = TASK_SLEEPING) as Es by (apply Hw; [done|by eexists]).
  split_and!; [done| | |].
  - destruct (rq (tcbs s t)) eqn:Er; [|done]. rewrite (Hq t) in Es; [done|done|by eexists].
  - intros ->. destruct Hi as [Hi _]; [done|]. congruence.
  - apply Hok. left. congruence.
Qed.

(** A task made runnable out of its wait queue. *)
Definition woken (fl t : Z) (h : wqh_ref) (s : kstate) : kstate := resume t (interrupt fl t (wq_leave t h s)).

Lemma sinv_interrupt out fl t s :
  t <> idle s -> sinv out s -> sinv out (interrupt fl t s).
Proof.
  intros Hne Hs. unfold interrupt. destruct (flag_set _ _); [|done].
  apply sinv_tcb; try done; [by right|]. apply (si_ok out s Hs).
Qed.
Lemma interrupt_tcb fl t s u (P : ktcb -> Prop) :
  (forall k, P k -> P (set_flag TASK_INTERRUPTED k)) -> P (tcbs s u) -> P (tcbs (interrupt fl t s) u).
Proof.
  intros H Hu. unfold interrupt. destruct (flag_set _ _); [|done]. cbn.
  destruct (decide (t = u)) as [<-|]; [rewrite upd_eq; auto | by rewrite upd_ne].
Qed.

Lemma sinv_left fl t h s :
  sched_inv s -> waiting_on (tcbs s t) = Some h ->
  let s' := interrupt fl t (wq_leave t h s) in
  sinv (Some t) s' /\ rq (tcbs s' t) = None /\ waiting_on (tcbs s' t) = None
  /\ task_ok t (tcbs s' t) /\ idle s' = idle s /\ current s' = current s.
Proof.
  intros Hs E s'. destruct (waiting_facts s t h Hs E) as (Est & Erq & Hne & Hok).
  split_and!.
  - apply sinv_interrupt; [done|]. apply sinv_leave; [by apply sinv_open|done].
  - apply interrupt_tcb; [done|]. cbn. by rewrite !upd_eq.
  - apply interrupt_tcb; [done|]. cbn. by rewrite !upd_eq.
  - apply interrupt_tcb; [done|]. cbn. by rewrite !upd_eq.
  - unfold s', interrupt. by destruct (flag_set _ _).
  - unfold s', interrupt. by destruct (flag_set _ _).
Qed.

Lemma sched_inv_woken fl t h s :
  sched_inv s -> waiting_on (tcbs s t) = Some h -> sched_inv (woken fl t h s).
Proof.
  intros Hs E. destruct (sinv_left fl t h s Hs E) as (H1 & H2 & H3 & H4 & H5 & H6).
  apply sinv_resume; try done. rewrite H5. intros ->. by destruct (waiting_facts s _ h Hs E) as (_ & _ & Hne & _).
Qed.

Lemma resume_async_woken rs fl t h s :
  sched_inv s -> waiting_on (tcbs s t) = Some h -> is_sync fl = false ->
  resume_with rs fl t (interrupt fl t (wq_leave t h s)) = Ret tt (woken fl t h s).
Proof.
  intros Hs E Hf. unfold resume_with. unfold is_sync in Hf. rewrite Hf.
  destruct (sinv_left fl t h s Hs E) as (H1 & H2 & _). apply sched_resume_async_run; [apply H1|done].
Qed.

Lemma wake_up_async rs h fl s :
  sched_inv s -> is_sync fl = false ->
  wake_up rs h fl s = Ret tt (match task_list (wqhs s h) with [] => s | t :: _ => woken fl t h s end)
  /\ sched_inv (match task_list (wqhs s h) with [] => s | t :: _ => woken fl t h s end).
Proof.
  intros Hs Hf. destruct (task_list (wqhs s h)) as [|t l] eqn:E.
  - split; [|done]. apply wake_up_none; [apply Hs|done].
  - assert (waiting_on (tcbs s t) = Some h) as Ew.
    { apply (wqi_mem s); [apply Hs|]. rewrite E. left. }
    split; [|by apply sched_inv_woken].
    rewrite (wake_up_run rs h fl s t l); [|apply Hs|done]. by apply resume_async_woken.
Qed.

(** The two saved interrupt states are restored in the order they were saved:
    a task woken, interrupts stay disabled. *)
Lemma wake_up_task_run rs t fl s :
  wq_inv s ->
  wake_up_task rs t fl s =
  match waiting_on (tcbs s t) with
  | None => Ret (-1) s
  | Some h =>
      obind (resume_with rs fl t (with_irqs false (interrupt fl t (wq_leave t h s)))) (fun _ => Ret 0)
  end.
Proof.
  intros [_ _ _ Hwq]. exec wake_up_task.
  match goal with |- context [waiting_on (tcbs ?x t)] =>
    change (waiting_on (tcbs x t)) with (waiting_on (tcbs s t)) end.
  destruct (waiting_on (tcbs s t)) as [h|] eqn:E; cbn [obind].
  - match goal with |- context [bool_decide (?a <> ?b)] => change a with (waiting_on (tcbs s t)) end.
    rewrite E, bool_decide_false by (intros H; by apply H).
    match goal with |- context [match ?x with Some w => _ | None => _ end] => change x with (wq (tcbs s t)) end.
    rewrite (Hwq t h E). cbn [obind]. unfold interrupt.
    destruct (flag_set fl WAKEUP_INTERRUPT); cbn [obind];
      match goal with |- obind (?f ?x) _ = obind (?f ?y) _ => assert (x = y) as ->; [|done] end;
      unfold wq_leave; frame_eq.
  - f_equal. frame_eq.
Qed.

Lemma wake_up_task_async rs t fl s :
  sched_inv s -> is_sync fl = false ->
  match waiting_on (tcbs s t) with
  | None => wake_up_task rs t fl s = Ret (-1) s
  | Some h => wake_up_task rs t fl s = Ret 0 (with_irqs false (woken fl t h s))
              /\ sched_inv (with_irqs false (woken fl t h s))
  end.
Proof.
  intros Hs Hf. rewrite wake_up_task_run by apply Hs. destruct (waiting_on (tcbs s t)) as [h|] eqn:E; [|done].
  split; [|by apply (sinv_ext None (woken fl t h s)), sched_inv_woken].
  destruct (sinv_left fl t h s Hs E) as (H1 & H2 & _). unfold resume_with. unfold is_sync in Hf. rewrite Hf.
  rewrite sched_resume_async_run; [done| |done]. by apply (rq_inv_ext (interrupt fl t (wq_leave t h s))), H1.
Qed.
