(* ===== verification/Schedule.v ===== *)
(** [schedule]: what it computes, that it is safe and keeps the scheduler's
    invariant, its policy and its fairness. *)
From S2P Require Import Prelude Defs Kernel Exec Sched SchedInv SchedOps.

(** * The phases of [schedule] as functions on states *)

(** A runnable current task leaves its queue; but for the idle task it goes to
    the tail of the runnable queue while it has ticks left, else of the expired
    one. *)
Definition requeue (cur : Z) (s : kstate) : kstate :=
  match state (tcbs s cur), rq (tcbs s cur) with
  | TASK_RUNNABLE, Some q =>
      let s1 := deq cur q s in
      if is_idle_task s cur then s1
      else enq cur (if ticks_left (tcbs s cur) =? 0 then rq_expired (sched s) else rq_runnable (sched s)) false s1
  | _, _ => s
  end.

(** A sleeper with a pending signal is woken. *)
Definition wake_pending (cur : Z) (s : kstate) : kstate :=
  match state (tcbs s cur), waiting_on (tcbs s cur) with
  | TASK_SLEEPING, Some h =>
      if flag_set (flags (tcbs s cur)) TASK_PENDING_SIGNAL
      then with_irqs false (woken WAKEUP_INTERRUPT cur h s) else s
  | _, _ => s
  end.

(** The first of the tasks waiting for [cur], if another task is its pager. *)
Definition wake_pager (cur : Z) (s : kstate) : kstate :=
  if bool_decide (pager (tcbs s cur) = cur) then s
  else match task_list (wqhs s (WQ_PAGER cur)) with [] => s | t :: _ => woken 0 t (WQ_PAGER cur) s end.
Definition deactivate (cur q : Z) (s : kstate) : kstate :=
  with_tcb cur (clear_flag TASK_SUSPENDING) (set_state cur TASK_INACTIVE (deq cur q s)).
(** A runnable task with a pending signal, out of the kernel, is suspended. *)
Definition suspend_pending (cur : Z) (s : kstate) : kstate :=
  match state (tcbs s cur), rq (tcbs s cur) with
  | TASK_RUNNABLE, Some q =>
      if flag_set (flags (tcbs s cur)) TASK_PENDING_SIGNAL && TASK_IN_USER (tcbs s cur)
      then with_tcb cur (fun t => t <| ts_need_resched := 1 |>) (wake_pager cur (deactivate cur q s))
      else s
  | _, _ => s
  end.

Definition hint_idle (cur : Z) (s : kstate) : kstate :=
  if flag_set (flags (tcbs s cur)) TASK_EXITED
  then with_sched (fun sc => sc <| sflags ::= fun fl => Z.lor fl SCHED_RUN_IDLE |>)
         (with_tcb cur (clear_flag TASK_EXITED) s)
  else s.

Definition swap_queues : kstate -> kstate :=
  with_sched (fun sc => let temp := rq_runnable sc in
                        sc <| rq_runnable := rq_expired sc |> <| rq_expired := temp |>).

(** The choice: idle if hinted, then the head of the runnable queue, then of the
    expired queue with the queues swapped, then the idle task, or in an irq the
    interrupted task. *)
Definition select (irq : bool) (s : kstate) : Z * kstate :=
  let sc := sched s in
  if flag_set (sflags sc) SCHED_RUN_IDLE then (idle s, s)
  else match rq_list (rq_at s (rq_runnable sc)) with
       | t :: _ => (t, s)
       | [] => match rq_list (rq_at s (rq_expired sc)) with
               | t :: _ => (t, swap_queues s)
               | [] => (if irq then current s else idle s, s)
               end
       end.

(** A fresh slice in proportion to the priority. *)
Definition slice (prio : Z) : Z := Z.quot (CONFIG_SCHED_TICKS * prio) TASK_PRIO_TOTAL.
Definition refill (t : Z) (s : kstate) : kstate :=
  if ticks_left (tcbs s t) =? 0
  then with_tcb t (fun k => k <| ticks_left := ticks_assigned k |>)
         (with_tcb t (fun k => k <| ticks_assigned := Z.quot (CONFIG_SCHED_TICKS * priority k) (prio_total (sched s)) |>) s)
  else s.
Definition clear_resuming (t : Z) (s : kstate) : kstate :=
  if flag_set (flags (tcbs s t)) TASK_RESUMING then with_tcb t (clear_flag TASK_RESUMING) s else s.
Definition queue_idle (t : Z) (s : kstate) : kstate :=
  if is_idle_task s t then enq t (rq_runnable (sched s)) true s else s.
Definition prepare (t : Z) (s : kstate) : kstate :=
  with_tcb t (fun k => k <| sched_granule := SCHED_GRANULARITY |>)
    (queue_idle t (refill t (clear_resuming t s))).

(** * The phases run *)

Lemma not_idle_unqueued s : sched_inv s -> current s <> idle s -> rq (tcbs s (idle s)) = None.
Proof.
  intros Hs Hc. destruct (rq (tcbs s (idle s))) eqn:E; [|done].
  destruct (si_idle _ _ Hs) as [_ H]; [done|]. destruct Hc. apply H. by eexists.
Qed.

(** Between the choice phases, everything but the idle task is settled, and the
    idle task is off the queues. *)
Record mid (s : kstate) : Prop := {
  mid_inv : sinv (Some (idle s)) s;
  mid_rq : rq (tcbs s (idle s)) = None;
  mid_wait : waiting_on (tcbs s (idle s)) = None;
  mid_state : state (tcbs s (idle s)) = TASK_RUNNABLE }.

Lemma idle_not_waiting s : sched_inv s -> waiting_on (tcbs s (idle s)) = None.
Proof.
  intros Hs. destruct (waiting_on (tcbs s (idle s))) eqn:E; [|done].
  by destruct (waiting_facts s (idle s) _ Hs E) as (_ & _ & ? & _).
Qed.
Lemma mid_of_inv s : sched_inv s -> current s <> idle s -> mid s.
Proof.
  intros Hs Hc. split; [by apply sinv_open|by apply not_idle_unqueued|by apply idle_not_waiting|].
  by apply (si_idle _ _ Hs).
Qed.

Lemma requeue_run s (cur := current s) :
  sched_inv s ->
  (st ← tget cur state;
   when (bool_decide (st = TASK_RUNNABLE))
     (sched_rq_remove_task cur ;;
      idle ← gets (fun s => is_idle_task s cur);
      when (negb idle)
        (left_ ← tget cur ticks_left;
         sc ← gets sched;
         sched_rq_add_task cur (if left_ =? 0 then rq_expired sc else rq_runnable sc) false))) s
  = Ret tt (requeue cur s).
Proof.
  intros Hs. pose proof (si_rq _ _ Hs) as Hr. unfold requeue. exec.
  destruct (state (tcbs s cur)) eqn:Est; [done|done|].
  destruct (si_runnable _ _ Hs cur) as [[q Hq]|[_ Hq]]; [done|done| |by destruct Hq].
  rewrite bool_decide_true by done. rewrite Hq, (sched_rq_remove_task_run cur q) by done. cbn [obind].
  change (is_idle_task (deq cur q s) cur) with (is_idle_task s cur).
  destruct (is_idle_task s cur); cbn [negb]; [done|].
  change (sched (deq cur q s)) with
    (sched (with_rq q (fun r => r <| total ::= fun n => u32 (n - 1) |>) (unlink_rq cur s))).
  replace (ticks_left (tcbs (deq cur q s) cur)) with (ticks_left (tcbs s cur)) by (cbn; by rewrite upd_eq).
  apply sched_rq_add_task_run; [by apply rq_inv_deq|]. cbn. by rewrite upd_eq.
Qed.

Lemma is_idle_iff s t : is_idle_task s t = true <-> t = idle s.
Proof. unfold is_idle_task, idle. by rewrite bool_decide_eq_true. Qed.
Lemma is_idle_no s t : t <> idle s -> is_idle_task s t = false.
Proof. unfold is_idle_task, idle. intros. by apply bool_decide_eq_false. Qed.

Lemma requeue_inv s :
  sched_inv s -> current s <> idle s -> sched_inv (requeue (current s) s).
Proof.
  intros Hs Hc. unfold requeue. destruct (state (tcbs s (current s))) eqn:Est; [done|done|].
  destruct (rq (tcbs s (current s))) as [q|] eqn:Eq; [|done]. rewrite is_idle_no by done.
  assert (sinv (Some (current s)) (deq (current s) q s)) as Hd by (apply sinv_deq; [by apply sinv_open|done]).
  set (q' := if _ =? 0 then _ else _).
  assert (q' = 0 \/ q' = 1) as Hq'.
  { unfold q'. pose proof (sel_range s (si_rq _ _ Hs)). destruct (_ =? 0); tauto. }
  apply (sinv_close (current s)).
  - apply sinv_enq; [done|cbn; by rewrite upd_eq| |done].
    apply (si_ok _ _ Hs). by right; left.
  - unfold settled. cbn. rewrite !upd_eq. cbn. rewrite Est. split.
    + destruct (waiting_on _) eqn:Ew; [|done]. destruct (waiting_facts _ _ _ Hs Ew) as (Hst & _). congruence.
    + left. split; [by eexists|done].
Qed.

Lemma requeue_idle_mid s : sched_inv s -> current s = idle s -> mid (requeue (current s) s).
Proof.
  intros Hs Hc. pose proof (si_idle _ _ Hs) as [Hst _]; [done|].
  pose proof (idle_not_waiting s Hs) as Hw. unfold requeue. rewrite Hc, Hst.
  destruct (si_runnable _ _ Hs (idle s)) as [[q Hq]|[_ Hq]]; [done|done| |by destruct Hq].
  rewrite Hq, (proj2 (is_idle_iff s (idle s))) by done. split.
  - apply sinv_deq; [by apply sinv_open|done].
  - unfold idle. cbn. by rewrite upd_eq.
  - unfold idle in *. cbn. by rewrite upd_eq.
  - unfold idle in *. cbn. by rewrite upd_eq.
Qed.

Lemma wake_pending_run cur s :
  sched_inv s ->
  (f ← tget cur flags;
   st ← tget cur state;
   when (flag_set f TASK_PENDING_SIGNAL && bool_decide (st = TASK_SLEEPING))
     (_ ← wake_up_task no_resume_sync cur WAKEUP_INTERRUPT; mret tt)) s
  = Ret tt (wake_pending cur s) /\ sched_inv (wake_pending cur s).
Proof.
  intros Hs. unfold wake_pending. exec.
  destruct (state (tcbs s cur)) eqn:Est; try (rewrite bool_decide_false, andb_false_r by done; done).
  rewrite bool_decide_true, andb_true_r by done.
  pose proof (wake_up_task_async no_resume_sync cur WAKEUP_INTERRUPT s Hs eq_refl) as Hw.
  destruct (si_waiting _ _ Hs cur) as [_ [h Hh]]; [done|done|]. rewrite Hh in *.
  destruct Hw as [Hr Hi]. destruct (flag_set _ _); [|done]. rewrite Hr. cbn [obind]. done.
Qed.

Lemma wake_pager_run cur s :
  sched_inv s ->
  (p ← tget cur pager; when (negb (bool_decide (p = cur))) (wake_up no_resume_sync (WQ_PAGER cur) 0)) s
  = Ret tt (wake_pager cur s) /\ sched_inv (wake_pager cur s).
Proof.
  intros Hs. unfold wake_pager. exec. destruct (bool_decide _); cbn [negb]; [done|].
  by apply wake_up_async.
Qed.

Lemma deactivate_inv cur q s :
  sched_inv s -> rq (tcbs s cur) = Some q -> cur <> idle s -> sched_inv (deactivate cur q s).
Proof.
  intros Hs Hq Hne. assert (is_Some (rq (tcbs s cur))) as Hsome by by eexists.
  pose proof (si_queued _ _ Hs cur ltac:(done) Hsome) as Hst.
  apply (sinv_close cur).
  - unfold deactivate, set_state. apply sinv_tcb; try done; [|by left|].
    + apply sinv_tcb; try done; [|by left|].
      * apply sinv_deq; [by apply sinv_open|done].
      * intros _. cbn. rewrite upd_eq. apply (si_ok _ _ Hs). left. congruence.
    + intros _. cbn. rewrite !upd_eq. apply (si_ok _ _ Hs). left. congruence.
  - unfold settled, deactivate. cbn. rewrite !upd_eq. cbn. split_and!; [|done|done].
    destruct (waiting_on _) eqn:Ew; [|done]. destruct (waiting_facts _ _ _ Hs Ew) as (Hst' & _). congruence.
Qed.

(** A write to a task's [ts_need_resched]. *)
Lemma sinv_resched out t n s : sinv out s -> sinv out (with_tcb t (fun k => k <| ts_need_resched := n |>) s).
Proof.
  intros Hs. apply sinv_tcb; try done; [by right|apply (si_ok _ _ Hs)|].
  intros ->. apply (si_idle_flags _ _ Hs).
Qed.

(** Preemption counts are a frame. *)
Lemma preempt_woken f fl t h s : with_preempt f (woken fl t h s) = woken fl t h (with_preempt f s).
Proof. unfold woken, resume, interrupt, wq_leave, enq, set_state. destruct (flag_set _ _); frame_eq. Qed.
Lemma preempt_wake_pager f cur s : with_preempt f (wake_pager cur s) = wake_pager cur (with_preempt f s).
Proof.
  unfold wake_pager. change (tcbs (with_preempt f s)) with (tcbs s). change (wqhs (with_preempt f s)) with (wqhs s).
  destruct (bool_decide _); [done|]. destruct (task_list _); [done|]. apply preempt_woken.
Qed.
Lemma preempt_deactivate f cur q s : with_preempt f (deactivate cur q s) = deactivate cur q (with_preempt f s).
Proof. unfold deactivate, set_state, deq, unlink_rq. frame_eq. Qed.

Lemma sinv_preempt out f s : sinv out s -> sinv out (with_preempt f s).
Proof. by apply sinv_ext. Qed.

Lemma suspend_pending_run cur s :
  sched_inv s -> cur = current s -> cur <> idle s ->
  (t ← gets (fun s => tcbs s cur);
   when (flag_set (flags t) TASK_PENDING_SIGNAL && bool_decide (state t = TASK_RUNNABLE) && TASK_IN_USER t)
     (when (flag_set (flags t) TASK_SUSPENDING) sched_suspend_async)) s
  = Ret tt (suspend_pending cur s) /\ sched_inv (suspend_pending cur s).
Proof.
  intros Hs Hc Hne. unfold suspend_pending. exec.
  destruct (state (tcbs s cur)) eqn:Est; try (rewrite bool_decide_false, andb_false_r by done; done).
  rewrite bool_decide_true, andb_true_r by done.
  destruct (si_runnable _ _ Hs cur) as [[q Hq]|[? _]]; [done|done| |done]. rewrite Hq.
  destruct (flag_set _ TASK_PENDING_SIGNAL && TASK_IN_USER _) eqn:Eb; [|done].
  apply andb_true_iff in Eb as [Ef _]. unfold TASK_PENDING_SIGNAL in Ef. rewrite Ef.
  pose proof (deactivate_inv cur q s Hs Hq Hne) as Hd.
  destruct (wake_pager_run cur (with_preempt Z.succ (deactivate cur q s)) (sinv_preempt _ _ _ Hd)) as [Hw _].
  destruct (wake_pager_run cur (deactivate cur q s) Hd) as [_ Hwi].
  split; [|by apply sinv_resched].
  exec sched_suspend_async. change (current (with_preempt Z.succ s)) with (current s). rewrite <- Hc.
  rewrite (sched_rq_remove_task_run cur q); [|by apply (rq_inv_ext s), Hs|done]. cbn [obind].
  revert Hw. exec. intros Hw.
  match goal with |- obind (?m ?x) _ = _ => replace x with (with_preempt Z.succ (deactivate cur q s)) end.
  2:{ rewrite preempt_deactivate. done. }
  rewrite Hw. cbn [obind]. by rewrite <- preempt_wake_pager, preempt_pred_succ.
Qed.

Lemma flag_set_land_false f x m : flag_set f m = false -> flag_set (Z.land f x) m = false.
Proof.
  unfold flag_set. rewrite !negb_false_iff, !Z.eqb_eq. intros E.
  by rewrite <- Z.land_assoc, (Z.land_comm x), Z.land_assoc, E, Z.land_0_l.
Qed.

(** Clearing bits of a task's flags. *)
Lemma sinv_clear_flag out t fl s : sinv out s -> sinv out (with_tcb t (clear_flag fl) s).
Proof.
  intros Hs. apply sinv_tcb; try done; [by right|apply (si_ok _ _ Hs)|].
  intros ->. cbn. apply flag_set_land_false, (si_idle_flags _ _ Hs).
Qed.

Lemma hint_idle_run cur s :
  (f ← tget cur flags;
   when (flag_set f TASK_EXITED)
     (tmod cur (clear_flag TASK_EXITED) ;;
      smod (fun sc => sc <| sflags ::= fun fl => Z.lor fl SCHED_RUN_IDLE |>))) s
  = Ret tt (hint_idle cur s).
Proof. unfold hint_idle. exec. by destruct (flag_set _ _). Qed.
Lemma sinv_sflags out f s : sinv out s -> sinv out (with_sched (fun sc => sc <| sflags ::= f |>) s).
Proof. intros [[] [] ? ? ? ? ? ? ?]. by split; [split|split|..]. Qed.
Lemma hint_idle_mid cur s : mid s -> mid (hint_idle cur s).
Proof.
  intros [H1 H2 H3 H4]. unfold hint_idle. destruct (flag_set _ _); [|done].
  split; unfold idle in *; cbn.
  - by apply sinv_sflags, sinv_clear_flag.
  - by rewrite (upd_same rq).
  - by rewrite (upd_same waiting_on).
  - by rewrite (upd_same state).
Qed.

Lemma rq_empty s q : rq_inv s -> (0 <? total (rq_at s q)) = negb (bool_decide (rq_list (rq_at s q) = [])).
Proof. intros [_ _ Hl _ _]. rewrite Hl. by destruct (rq_list _). Qed.

Lemma select_run s :
  rq_inv s -> sched_select_next s = Ret (fst (select (in_irq_context s) s)) (snd (select (in_irq_context s) s)).
Proof.
  intros Hi. unfold select. exec sched_select_next rq_first sched_rq_swap_queues.
  fold (rq_at s (rq_runnable (sched s))) (rq_at s (rq_expired (sched s))).
  destruct (flag_set _ _); [done|]. rewrite !rq_empty by done.
  destruct (rq_list (rq_at s (rq_runnable (sched s)))) as [|t l] eqn:E1.
  2:{ rewrite bool_decide_false by done. cbn [negb]. cbv beta. by rewrite E1. }
  rewrite bool_decide_true by done. cbn [negb].
  destruct (rq_list (rq_at s (rq_expired (sched s)))) as [|t l] eqn:E2.
  - rewrite bool_decide_true by done. cbn [negb]. unfold in_process_context. by destruct (in_irq_context s).
  - rewrite bool_decide_false by done. cbn [negb]. cbv beta. rewrite E2, bool_decide_false by done.
    cbn [obind]. fold swap_queues.
    change (rq_list (rq_at (swap_queues s) (rq_runnable (sched (swap_queues s)))))
      with (rq_list (rq_at s (rq_expired (sched s)))). by rewrite E2.
Qed.

(** * The choice *)

Lemma sinv_swap out s : sinv out s -> sinv out (swap_queues s).
Proof.
  intros [[] [] ? ? ? ? ? ? ?]. split; [split|split|..]; try done. cbn. naive_solver.
Qed.

(** What the chosen task is: the idle task, the head of the queue that is now
    the runnable one, or, in an irq with both queues empty, the interrupted
    task. *)
Inductive chosen (irq : bool) (s : kstate) (next : Z) : Prop :=
| chosen_idle : next = idle s -> chosen irq s next
| chosen_head l : rq_list (rq_at s (rq_runnable (sched s))) = next :: l -> chosen irq s next
| chosen_same : irq = true -> next = current s -> (forall t, rq (tcbs s t) = None) -> chosen irq s next.

Lemma select_ok irq s :
  mid s -> let '(next, s') := select irq s in
  mid s' /\ chosen irq s' next /\ tcbs s' = tcbs s /\ current s' = current s /\ idle s' = idle s.
Proof.
  intros [H1 H2 H3 H4]. unfold select. destruct (flag_set _ _); [by split_and!; try done; apply chosen_idle|].
  destruct (rq_list (rq_at s (rq_runnable (sched s)))) eqn:E1; [|by split_and!; try done; eapply chosen_head].
  destruct (rq_list (rq_at s (rq_expired (sched s)))) eqn:E2.
  - assert (forall t, rq (tcbs s t) = None) as Hnone.
    { intros t. destruct (rq (tcbs s t)) as [q|] eqn:E; [|done]. pose proof (si_rq _ _ H1) as [Hm _ _ Hr Hs].
      pose proof (proj1 (Hr _ _ E)) as Hq. apply Hm in E. unfold rq_at in *.
      assert (q = rq_runnable (sched s) \/ q = rq_expired (sched s)) as [-> | ->] by lia;
        [rewrite E1 in E|rewrite E2 in E]; by apply elem_of_nil in E. }
    destruct irq; split_and!; try done; [by apply chosen_same|by apply chosen_idle].
  - split; [|split; [|done]].
    + split; [by apply sinv_swap|done..].
    + eapply chosen_head. exact E2.
Qed.

Lemma chosen_task_ok irq s next : mid s -> chosen irq s next -> task_ok next (tcbs s next).
Proof.
  intros Hm Hc. pose proof (mid_inv s Hm) as Hi. destruct Hc as [->|l E|_ -> _].
  - apply (si_ok _ _ Hi). by right; right.
  - apply (si_ok _ _ Hi). left. rewrite (si_queued _ _ Hi); [done| |].
    + intros [= ->]. pose proof (mid_rq s Hm) as Hn.
      assert (rq (tcbs s (idle s)) = Some (rq_runnable (sched s))) by (apply (si_rq _ _ Hi); rewrite E; left).
      congruence.
    + exists (rq_runnable (sched s)). apply (si_rq _ _ Hi). rewrite E. left.
  - apply (si_ok _ _ Hi). by right; left.
Qed.

(** * Slices *)

Lemma slice_range p : 0 < p <= TASK_PRIO_TOTAL -> 0 < slice p <= CONFIG_SCHED_TICKS.
Proof.
  unfold slice, TASK_PRIO_TOTAL, CONFIG_SCHED_TICKS. intros Hp. rewrite Z.quot_div_nonneg by lia. split.
  - apply Z.div_str_pos. lia.
  - apply Z.div_le_upper_bound; lia.
Qed.

Lemma task_ok_refill t s :
  prio_total (sched s) = TASK_PRIO_TOTAL -> task_ok t (tcbs s t) ->
  task_ok t (tcbs (refill t s) t) /\ 0 < ticks_left (tcbs (refill t s) t).
Proof.
  intros Hp (H1 & H2 & H3 & H4). unfold refill. destruct (ticks_left (tcbs s t) =? 0) eqn:E.
  - cbn. rewrite ?upd_eq. cbn. rewrite ?upd_eq. cbn. rewrite Hp. fold (slice (priority (tcbs s t))).
    pose proof (slice_range _ H3). unfold task_ok. cbn. lia.
  - apply Z.eqb_neq in E. split; [done|lia].
Qed.

Lemma prepare_run next s :
  mid s -> task_ok next (tcbs s next) -> sched_prepare_next next s = Ret tt (prepare next s).
Proof.
  intros Hm (Ha & Hsp & Hp & Ht). pose proof (mid_inv s Hm) as Hi. unfold prepare. exec sched_prepare_next.
  set (s1 := clear_resuming next s).
  first_returns s1; [unfold s1, clear_resuming; by destruct (flag_set _ _)|].
  assert (sinv (Some (idle s1)) s1 /\ rq (tcbs s1 (idle s1)) = None /\ priority (tcbs s1 next) = priority (tcbs s next))
    as (Hi1 & Hr1 & Hp1).
  { unfold s1, clear_resuming. destruct (flag_set _ _); [|split_and!; [done|apply Hm|done]].
    split_and!; [by apply sinv_clear_flag| |cbn; by rewrite upd_eq].
    unfold idle. cbn. rewrite (upd_same rq) by done. apply Hm. }
  pose proof (si_prio _ _ Hi1) as Hpt.
  set (s2 := refill next s1).
  first_returns s2.
  { unfold s2, refill. destruct (ticks_left _ =? 0); [|done]. exec sched_recalc_ticks. rewrite Hpt, Hp1.
    replace (TASK_PRIO_TOTAL <? priority (tcbs s next)) with false by (symmetry; apply Z.ltb_ge; lia).
    cbn [obind]. change (TASK_PRIO_TOTAL =? 0) with false. cbn [obind]. by rewrite ?Hpt. }
  assert (rq_inv s2 /\ rq (tcbs s2 (idle s2)) = None) as [Hr2 Hn2].
  { unfold s2, refill. destruct (ticks_left _ =? 0); [|split; [apply Hi1|done]]. split.
    - repeat apply rq_inv_tcb; try done. apply Hi1.
    - unfold idle. cbn. rewrite !(upd_same rq) by (rewrite ?upd_eq; done). done. }
  unfold queue_idle. destruct (is_idle_task s2 next) eqn:Eid; [|done].
  apply is_idle_iff in Eid. rewrite sched_rq_add_task_run; [done|done|]. by rewrite Eid.
Qed.

(** * The switch *)

(** [arch_context_switch] and the writes before it. *)
Definition switch_to (next : Z) (s : kstate) : kstate :=
  let cur := current s in
  let s1 := if spid (spaces s (space (tcbs s cur))) =? spid (spaces s (space (tcbs s next)))
            then s else with_ttb next s in
  let s2 := with_kip_utcb (utcb_address (tcbs s next)) s1 in
  let s3 := if irq_nest_count s2 =? 0 then s2 else s2 <| irq_nest_count ::= Z.pred |> in
  s3 <| irqs_on := true |> <| current := next |>.

Lemma context_switch_run next s :
  task_ok (current s) (tcbs s (current s)) -> task_ok next (tcbs s next) ->
  context_switch next s = Switch (switch_to next s) (fun s' => Ret tt s').
Proof.
  intros (H1 & H2 & _) (H3 & H4 & _). exec context_switch arch_space_switch task_update_utcb.
  rewrite (proj2 (Z.eqb_neq (current s) 0)) by lia. cbn [obind].
  rewrite (proj2 (Z.eqb_neq _ _) H2). cbn [obind].
  rewrite (proj2 (Z.eqb_neq next 0)) by lia. cbn [obind].
  rewrite (proj2 (Z.eqb_neq _ _) H4). cbn [obind].
  unfold switch_to. cbv zeta.
  by destruct (spid (spaces s (space (tcbs s (current s)))) =? _).
Qed.

Lemma switch_fields next s :
  let s' := switch_to next s in
  current s' = next /\ tcbs s' = tcbs s /\ wqhs s' = wqhs s /\ sched s' = sched s /\ irqs_on s' = true
  /\ voluntary_preempt s' = voluntary_preempt s
  /\ irq_nest_count s' = (if irq_nest_count s =? 0 then 0 else irq_nest_count s - 1).
Proof.
  unfold switch_to. cbv zeta.
  destruct (_ =? spid _); cbn; (destruct (irq_nest_count s =? 0) eqn:E; [apply Z.eqb_eq in E|]; cbn; split_and!; (done || lia)).
Qed.

Lemma sinv_refill out t s :
  sinv out s -> task_ok t (tcbs s t) -> sinv out (refill t s).
Proof.
  intros Hs Hok. pose proof (task_ok_refill t s (si_prio _ _ Hs) Hok) as [Hok' _].
  revert Hok'. unfold refill. destruct (_ =? 0); [|done]. intros Hok'. cbn in Hok'. rewrite upd_eq in Hok'.
  assert (sinv out (with_tcb t (fun k => k <| ticks_assigned :=
    Z.quot (CONFIG_SCHED_TICKS * priority k) (prio_total (sched s)) |>) s)) as H1.
  { apply sinv_tcb; try done; [by right|]. intros ->. apply (si_idle_flags _ _ Hs). }
  apply sinv_tcb; try done; [by right|].
  intros ->. cbn. rewrite upd_eq. apply (si_idle_flags _ _ Hs).
Qed.

(** What [prepare] leaves as it was. *)
Lemma prepare_keeps {A} (g : ktcb -> A) t s u :
  (forall k fl, g (k <| flags := fl |>) = g k) -> (forall k n, g (k <| ticks_left := n |>) = g k) ->
  (forall k n, g (k <| ticks_assigned := n |>) = g k) -> (forall k n, g (k <| sched_granule := n |>) = g k) ->
  (forall k q, t = idle s -> g (k <| rq := Some q |>) = g k) ->
  g (tcbs (prepare t s) u) = g (tcbs s u).
Proof.
  intros H1 H2 H3 H4 H5. unfold prepare.
  assert (forall f x, (forall k, g (f k) = g k) -> g (tcbs (with_tcb t f x) u) = g (tcbs x u)) as Hw.
  { intros f x Hf. cbn. by apply upd_same. }
  assert (forall x, g (tcbs (refill t x) u) = g (tcbs x u)) as Hr.
  { intros x. unfold refill. destruct (_ =? 0); [|done]. rewrite Hw, Hw by done. done. }
  assert (forall x, g (tcbs (clear_resuming t x) u) = g (tcbs x u)) as Hc.
  { intros x. unfold clear_resuming. destruct (flag_set _ _); [|done]. rewrite Hw; [done|]. intros k. apply H1. }
  assert (idle (refill t (clear_resuming t s)) = idle s) as Hid.
  { unfold refill, clear_resuming. by repeat match goal with |- context [if ?b then _ else _] => destruct b end. }
  rewrite Hw by (intros; apply H4). unfold queue_idle.
  destruct (is_idle_task _ t) eqn:E; [|by rewrite Hr, Hc].
  apply is_idle_iff in E. rewrite Hid in E. unfold enq. rewrite Hw by (intros; by apply H5).
  etransitivity; [apply Hr|apply Hc].
Qed.

Record prepared (next : Z) (s s' : kstate) : Prop := {
  pr_inv : sinv (Some (idle s)) s';
  pr_idle : idle s' = idle s;
  pr_current : current s' = current s;
  pr_ok : task_ok next (tcbs s' next);
  pr_ticks : 0 < ticks_left (tcbs s' next);
  pr_state : state (tcbs s' (idle s)) = TASK_RUNNABLE;
  pr_wait : waiting_on (tcbs s' (idle s)) = None;
  pr_rq : if decide (next = idle s) then is_Some (rq (tcbs s' (idle s))) else rq (tcbs s' (idle s)) = None }.

Lemma sinv_granule out t n s : sinv out s -> sinv out (with_tcb t (fun k => k <| sched_granule := n |>) s).
Proof.
  intros Hs. apply sinv_tcb; try done; [by right|apply (si_ok _ _ Hs)|].
  intros ->. apply (si_idle_flags _ _ Hs).
Qed.

Lemma prepare_ok next s : mid s -> task_ok next (tcbs s next) -> prepared next s (prepare next s).
Proof.
  intros Hm Hok. pose proof (mid_inv s Hm) as Hi.
  set (s1 := clear_resuming next s). set (s2 := refill next s1).
  assert (sinv (Some (idle s)) s1 /\ task_ok next (tcbs s1 next) /\ idle s1 = idle s /\ current s1 = current s
          /\ prio_total (sched s1) = TASK_PRIO_TOTAL /\ rq (tcbs s1 (idle s)) = None) as (H1 & H2 & H3 & H4 & H5 & Hr1).
  { pose proof (si_prio _ _ Hi). pose proof (mid_rq s Hm). unfold s1, clear_resuming. destruct (flag_set _ _); [|done].
    split_and!; try done; [by apply sinv_clear_flag|cbn; by rewrite upd_eq|cbn; by rewrite (upd_same rq)]. }
  pose proof (sinv_refill _ next s1 H1 H2) as H6. pose proof (task_ok_refill next s1 H5 H2) as [H7 H8].
  assert (idle s2 = idle s /\ current s2 = current s /\ rq (tcbs s2 (idle s)) = None) as (H9 & H10 & Hr2).
  { rewrite <- H3, <- H4. unfold s2, refill. destruct (_ =? 0); [|split_and!; try done; by rewrite H3]. split_and!; try done.
    rewrite H3. cbn. rewrite !(upd_same rq) by (rewrite ?upd_eq; done). done. }
  assert (prepare next s = with_tcb next (fun k => k <| sched_granule := SCHED_GRANULARITY |>) (queue_idle next s2))
    as Hp by done.
  split.
  - rewrite Hp. apply sinv_granule. unfold queue_idle. destruct (is_idle_task s2 next) eqn:E; [|done].
    apply is_idle_iff in E. rewrite E, H9. apply sinv_enq; [done|done| |].
    + rewrite <- H9, <- E. apply H7.
    + apply sel_range, H6.
  - rewrite Hp, <- H9. unfold queue_idle. by destruct (is_idle_task s2 next).
  - rewrite Hp, <- H10. unfold queue_idle. by destruct (is_idle_task s2 next).
  - rewrite Hp. cbn. rewrite upd_eq. unfold queue_idle. destruct (is_idle_task s2 next); [|done].
    cbn. by rewrite upd_eq.
  - rewrite Hp. cbn. rewrite upd_eq. unfold queue_idle. destruct (is_idle_task s2 next); [|done].
    cbn. by rewrite upd_eq.
  - rewrite (prepare_keeps state) by done. apply (mid_state s Hm).
  - rewrite (prepare_keeps waiting_on) by done. apply (mid_wait s Hm).
  - destruct (decide (next = idle s)) as [->|Hne].
    + rewrite Hp. unfold queue_idle. rewrite (proj2 (is_idle_iff s2 (idle s))) by done.
      cbn. rewrite !upd_eq. cbn. by eexists.
    + rewrite (prepare_keeps rq) by done. apply (mid_rq s Hm).
Qed.

(** Handing the processor over settles the idle task. *)
Lemma sched_inv_switch next s s' :
  prepared next s s' -> sched_inv (switch_to next s').
Proof.
  intros []. destruct (switch_fields next s') as (F1 & F2 & F3 & F4 & _).
  set (s2 := switch_to next s') in *.
  assert (idle s2 = idle s) as Hid by (unfold idle in *; by rewrite F4).
  assert (sinv (Some (idle s)) s2) as H2.
  { destruct pr_inv0 as [A1 A2 A3 A4 A5 A6 A7 A8 A9]. split; unfold idle in *; rewrite ?F1, ?F2, ?F3, ?F4; try done.
    - by apply (rq_inv_ext s').
    - destruct A2. split; by rewrite ?F2, ?F3.
    - intros t Ht Hst. left. destruct (A4 t Ht Hst) as [?|[-> _]]; [done|]. by rewrite pr_idle0 in Ht.
    - intros t [H|[->|H]]; [apply A6; by left|done|apply A6; by right; right].
    - rewrite pr_idle0. by intros []. }
  apply (sinv_close _ _ H2). unfold settled. rewrite F2, pr_state0, pr_wait0, Hid, F1. split; [done|].
  destruct (decide (next = idle s)) as [->|Hne]; [by left|by right].
Qed.

(** * [schedule] as a function on states *)

(** Everything before the idle hint, and before the choice. *)
Definition before_hint (cur : Z) (s : kstate) : kstate :=
  suspend_pending cur (wake_pending cur (requeue cur s)).
Definition front (s : kstate) : kstate :=
  hint_idle (current s) (before_hint (current s) (with_tcb (current s) (fun t => t <| ts_need_resched := 0 |>) s)).
(** The choice and the switch. *)
Definition finish (irq : bool) (s : kstate) : kstate :=
  let '(next, s2) := select irq s in
  switch_to next (with_preempt Z.pred (with_irqs false (prepare next s2))).
Definition schedule_spec (s : kstate) : kstate := finish (in_irq_context s) (front (with_preempt Z.succ s)).

(** Called with preemption on, in process context or in an irq that interrupted
    one. *)
Definition may_schedule (s : kstate) : Prop :=
  voluntary_preempt s = 0 /\ (irq_nest_count s = 0 \/ irq_nest_count s = 1).

(** What the phases before the choice leave alone. *)
Definition keeps (s s' : kstate) : Prop :=
  current s' = current s /\ idle s' = idle s /\ irq_nest_count s' = irq_nest_count s
  /\ voluntary_preempt s' = voluntary_preempt s.
Lemma keeps_trans s1 s2 s3 : keeps s1 s2 -> keeps s2 s3 -> keeps s1 s3.
Proof. unfold keeps. intuition congruence. Qed.
Lemma keeps_woken fl t h s : keeps s (woken fl t h s).
Proof. unfold woken, resume, interrupt. by destruct (flag_set _ _). Qed.
Lemma keeps_requeue cur s : keeps s (requeue cur s).
Proof. unfold requeue. destruct (state _); try done. destruct (rq _); [|done]. by destruct (is_idle_task _ _). Qed.
Lemma keeps_wake_pending cur s : keeps s (wake_pending cur s).
Proof.
  unfold wake_pending. destruct (state _); try done. destruct (waiting_on _); [|done].
  destruct (flag_set _ _); [|done]. apply keeps_woken.
Qed.
Lemma keeps_wake_pager cur s : keeps s (wake_pager cur s).
Proof. unfold wake_pager. destruct (bool_decide _); [done|]. destruct (task_list _) as [|t l]; [done|apply keeps_woken]. Qed.
Lemma keeps_suspend_pending cur s : keeps s (suspend_pending cur s).
Proof.
  unfold suspend_pending. destruct (state _); try done. destruct (rq _) as [q|]; [|done].
  destruct (_ && _); [|done]. apply (keeps_wake_pager cur (deactivate cur q s)).
Qed.
Lemma keeps_hint_idle cur s : keeps s (hint_idle cur s).
Proof. unfold hint_idle. by destruct (flag_set _ _). Qed.

Lemma before_hint_mid s : sched_inv s -> mid (before_hint (current s) s).
Proof.
  intros Hs. unfold before_hint. destruct (keeps_requeue (current s) s) as (K1 & K2 & _).
  destruct (decide (current s = idle s)) as [Hid|Hid].
  - pose proof (requeue_idle_mid s Hs Hid) as Hm. unfold suspend_pending, wake_pending.
    pose proof (mid_state _ Hm) as Hst. pose proof (mid_rq _ Hm) as Hrq.
    rewrite K2, <- Hid in Hst, Hrq. by rewrite Hst, Hst, Hrq.
  - destruct (wake_pending_run (current s) _ (requeue_inv s Hs Hid)) as [_ H2].
    destruct (keeps_wake_pending (current s) (requeue (current s) s)) as (K3 & K4 & _).
    destruct (suspend_pending_run (current s) _ H2) as [_ H3]; [congruence|congruence|].
    destruct (keeps_suspend_pending (current s) (wake_pending (current s) (requeue (current s) s))) as (K5 & K6 & _).
    apply mid_of_inv; [done|congruence].
Qed.

Lemma keeps_before_hint cur s : keeps s (before_hint cur s).
Proof.
  eapply keeps_trans; [|apply keeps_suspend_pending]. eapply keeps_trans; [|apply keeps_wake_pending].
  apply keeps_requeue.
Qed.
Lemma keeps_front s : keeps s (front s).
Proof.
  eapply keeps_trans; [|apply keeps_hint_idle]. eapply keeps_trans; [|apply keeps_before_hint]. done.
Qed.
Lemma front_mid s : sched_inv s -> mid (front s).
Proof.
  intros Hs. apply hint_idle_mid.
  by apply (before_hint_mid (with_tcb (current s) (fun t => t <| ts_need_resched := 0 |>) s)), sinv_resched.
Qed.

(** The front part of the code runs as [front]. *)
Lemma before_hint_run s (cur := current s) (g : kstate -> outcome kstate unit) :
  sched_inv s ->
  obind ((st ← tget cur state;
   when (bool_decide (st = TASK_RUNNABLE))
     (sched_rq_remove_task cur ;;
      idle ← gets (fun s => is_idle_task s cur);
      when (negb idle)
        (left_ ← tget cur ticks_left;
         sc ← gets sched;
         sched_rq_add_task cur (if left_ =? 0 then rq_expired sc else rq_runnable sc) false))) s) (fun _ s =>
  obind ((f ← tget cur flags;
   st ← tget cur state;
   when (flag_set f TASK_PENDING_SIGNAL && bool_decide (st = TASK_SLEEPING))
     (_ ← wake_up_task no_resume_sync cur WAKEUP_INTERRUPT; mret tt)) s) (fun _ s =>
  obind ((t ← gets (fun s => tcbs s cur);
   when (flag_set (flags t) TASK_PENDING_SIGNAL && bool_decide (state t = TASK_RUNNABLE) && TASK_IN_USER t)
     (when (flag_set (flags t) TASK_SUSPENDING) sched_suspend_async)) s) (fun _ => g)))
  = g (before_hint cur s).
Proof.
  intros Hs. subst cur. unfold before_hint. rewrite requeue_run by done. cbn [obind].
  destruct (keeps_requeue (current s) s) as (K1 & K2 & _).
  destruct (decide (current s = idle s)) as [Hid|Hid].
  - pose proof (requeue_idle_mid s Hs Hid) as Hm. unfold suspend_pending, wake_pending.
    pose proof (mid_state _ Hm) as Hst. pose proof (mid_rq _ Hm) as Hrq. pose proof (si_idle_flags _ _ (mid_inv _ Hm)) as Hf.
    rewrite K2, <- Hid in Hst, Hrq, Hf. exec. rewrite Hst, bool_decide_false, andb_false_r by done. cbn [obind].
    change (flag_set ?x TASK_SUSPENDING) with (flag_set x TASK_PENDING_SIGNAL) in Hf.
    rewrite Hst, Hf, Hrq. done.
  - destruct (wake_pending_run (current s) _ (requeue_inv s Hs Hid)) as [-> H2]. cbn [obind].
    destruct (keeps_wake_pending (current s) (requeue (current s) s)) as (K3 & K4 & _).
    destruct (suspend_pending_run (current s) _ H2) as [-> _]; [congruence|congruence|done].
Qed.

(** The rest of [schedule]: the idle hint, the choice, and the switch. *)
Definition choose_and_switch (cur : Z) : K unit :=
  f ← tget cur flags;
  when (flag_set f TASK_EXITED)
    (tmod cur (clear_flag TASK_EXITED) ;;
     smod (fun sc => sc <| sflags ::= fun fl => Z.lor fl SCHED_RUN_IDLE |>)) ;;
  next ← sched_select_next;
  sched_prepare_next next ;;
  disable_irqs ;;
  preempt_enable ;;
  context_switch next.

Lemma choose_and_switch_run cur s :
  mid s -> choose_and_switch cur s =
  Switch (finish (in_irq_context (hint_idle cur s)) (hint_idle cur s)) (fun s' => Ret tt s').
Proof.
  intros Hm. pose proof (hint_idle_mid cur s Hm) as Hm1. pose proof (hint_idle_run cur s) as H1.
  revert H1. exec choose_and_switch. intros ->. cbn [obind]. set (s1 := hint_idle cur s) in *.
  rewrite select_run by apply Hm1. cbn [obind].
  pose proof (select_ok (in_irq_context s1) s1 Hm1) as Hsel. unfold finish.
  destruct (select (in_irq_context s1) s1) as [next s2]. cbn [fst snd].
  destruct Hsel as (Hm2 & Hch & Ht & Hc & Hi).
  pose proof (chosen_task_ok _ _ _ Hm2 Hch) as Hok. rewrite prepare_run by done. cbn [obind].
  destruct (prepare_ok next s2 Hm2 Hok). apply context_switch_run; [|done].
  apply (si_ok _ _ pr_inv0). by right; left.
Qed.

Lemma may_schedule_no_bug s : sched_inv s -> may_schedule s ->
  negb (voluntary_preempt s =? 0) = false /\ in_nested_irq_context s = false
  /\ (CONFIG_SCHED_TICKS <? ticks_left (tcbs s (current s))) = false.
Proof.
  intros Hs [Hv Hn]. unfold in_nested_irq_context. rewrite Hv. split_and!; [done| |].
  - by destruct Hn as [-> | ->].
  - assert (task_ok (current s) (tcbs s (current s))) as (_ & _ & _ & Ht) by (apply (si_ok _ _ Hs); tauto).
    apply Z.ltb_ge. lia.
Qed.

Lemma schedule_front_run s :
  sched_inv s -> may_schedule s ->
  schedule s = choose_and_switch (current s)
    (before_hint (current s) (with_tcb (current s) (fun t => t <| ts_need_resched := 0 |>) (with_preempt Z.succ s))).
Proof.
  intros Hs Hm. destruct (may_schedule_no_bug s Hs Hm) as (B1 & B2 & B3).
  assert (sched_inv (with_tcb (current s) (fun t => t <| ts_need_resched := 0 |>) (with_preempt Z.succ s))) as H0
    by by apply sinv_resched, sinv_preempt.
  pose proof (before_hint_run _ (choose_and_switch (current s)) H0) as E.
  change (current (with_tcb _ _ (with_preempt _ s))) with (current s) in E.
  rewrite <- E. exec schedule choose_and_switch. rewrite B1. cbn [obind]. rewrite B2. cbn [obind]. rewrite B3. cbn [obind].
  change (current (with_preempt Z.succ s)) with (current s). reflexivity.
Qed.

Lemma front_preempt f s :
  front (with_preempt f s) = hint_idle (current s)
    (before_hint (current s) (with_tcb (current s) (fun t => t <| ts_need_resched := 0 |>) (with_preempt f s))).
Proof. unfold front. change (current (with_preempt f s)) with (current s). reflexivity. Qed.
Lemma front_in_irq s : may_schedule s -> in_irq_context (front (with_preempt Z.succ s)) = in_irq_context s.
Proof.
  intros [Hv Hn]. destruct (keeps_front (with_preempt Z.succ s)) as (_ & _ & K3 & K4).
  unfold in_irq_context. rewrite K3, K4, Hv. cbn. rewrite Hv. by destruct Hn as [-> | ->].
Qed.

Lemma schedule_run s :
  sched_inv s -> may_schedule s -> schedule s = Switch (schedule_spec s) (fun s' => Ret tt s').
Proof.
  intros Hs Hm. rewrite schedule_front_run by done.
  assert (sched_inv (with_tcb (current s) (fun t => t <| ts_need_resched := 0 |>) (with_preempt Z.succ s))) as H0
    by by apply sinv_resched, sinv_preempt.
  rewrite choose_and_switch_run by by apply (before_hint_mid _ H0).
  rewrite <- (front_preempt Z.succ s), (front_in_irq s Hm). unfold schedule_spec. reflexivity.
Qed.

(** * What [schedule] ends in *)

(** A task about to run: known, with a slice to use. *)
Definition runs (s : kstate) : Prop :=
  task_ok (current s) (tcbs s (current s)) /\ 0 < ticks_left (tcbs s (current s)) <= CONFIG_SCHED_TICKS.

Lemma finish_ok irq s :
  mid s -> voluntary_preempt s = 1 -> irq_nest_count s = 1 \/ irq_nest_count s = 2 ->
  let s' := finish irq s in
  sched_inv s' /\ runs s' /\ irqs_on s' = true /\ voluntary_preempt s' = 0 /\ irq_nest_count s' = 0
  /\ exists s2, current s' = fst (select irq s) /\ tcbs s' = tcbs (prepare (current s') s2)
     /\ sched s' = sched (prepare (current s') s2) /\ s2 = snd (select irq s).
Proof.
  intros Hm Hv Hn. pose proof (select_ok irq s Hm) as Hsel. unfold finish.
  assert (voluntary_preempt (snd (select irq s)) = 1 /\ irq_nest_count (snd (select irq s)) = irq_nest_count s) as [Hv2 Hn2].
  { unfold select. repeat case_match; done. }
  destruct (select irq s) as [next s2]. cbn [fst snd] in *. destruct Hsel as (Hm2 & Hch & Ht & Hc & Hi).
  pose proof (chosen_task_ok _ _ _ Hm2 Hch) as Hok. pose proof (prepare_ok next s2 Hm2 Hok) as Hp.
  assert (voluntary_preempt (prepare next s2) = 1 /\ irq_nest_count (prepare next s2) = irq_nest_count s) as [Hv3 Hn3].
  { rewrite <- Hn2, <- Hv2. unfold prepare, queue_idle, refill, clear_resuming.
    repeat match goal with |- context [if ?b then _ else _] => destruct b end; done. }
  set (s3 := with_preempt Z.pred (with_irqs false (prepare next s2))).
  assert (prepared next s2 s3) as Hp3.
  { destruct Hp. split; try done. by apply (sinv_ext _ (prepare next s2)). }
  destruct (switch_fields next s3) as (F1 & F2 & F3 & F4 & F5 & F6 & F7). pose proof (sched_inv_switch _ _ _ Hp3) as Hinv.
  set (s4 := switch_to next s3) in *. cbv zeta.
  assert (irq_nest_count s3 = irq_nest_count s - 1 /\ voluntary_preempt s3 = 0) as [Hn4 Hv4].
  { change (Z.pred (irq_nest_count (prepare next s2)) = irq_nest_count s - 1
            /\ Z.pred (voluntary_preempt (prepare next s2)) = 0). lia. }
  split_and!; [done| |done|congruence| |].
  - unfold runs. rewrite F1, F2. pose proof (pr_ok _ _ _ Hp3) as Ho. pose proof (pr_ticks _ _ _ Hp3).
    split; [done|]. destruct Ho as (_ & _ & _ & ?). lia.
  - rewrite F7, Hn4. by destruct Hn as [-> | ->].
  - exists s2. rewrite F1. done.
Qed.

(** * The policy

    The scheduler seen as two queues: the tasks of this round, and those that
    have used up their slice. *)
Definition run_queue (s : kstate) : list Z := rq_list (rq_at s (rq_runnable (sched s))).
Definition exp_queue (s : kstate) : list Z := rq_list (rq_at s (rq_expired (sched s))).
Definition queues (s : kstate) : list Z * list Z := (run_queue s, exp_queue s).

Definition rr_requeue (idl cur : Z) (runnable spent : bool) (q : list Z * list Z) : list Z * list Z :=
  if runnable then
    let r := list_del cur q.1 in
    let e := list_del cur q.2 in
    if bool_decide (cur = idl) then (r, e) else if spent then (r, e ++ [cur]) else (r ++ [cur], e)
  else q.
Definition rr_pick (irq : bool) (idl cur : Z) (q : list Z * list Z) : Z * (list Z * list Z) :=
  match q with
  | (t :: r, e) => (t, (t :: r, e))
  | ([], t :: e) => (t, (t :: e, []))
  | ([], []) => let t := if irq then cur else idl in (t, (if bool_decide (t = idl) then [idl] else [], []))
  end.
Definition round_robin (irq : bool) (idl cur : Z) (runnable spent : bool) (q : list Z * list Z)
  : Z * (list Z * list Z) := rr_pick irq idl cur (rr_requeue idl cur runnable spent q).

Lemma queues_deq t q s : queues (deq t q s) = (list_del t (run_queue s), list_del t (exp_queue s)).
Proof. unfold queues, run_queue, exp_queue. by rewrite !deq_list. Qed.
Lemma queues_enq t q front s :
  queues (enq t q front s) =
  (if decide (q = rq_runnable (sched s)) then (if front then t :: run_queue s else run_queue s ++ [t]) else run_queue s,
   if decide (q = rq_expired (sched s)) then (if front then t :: exp_queue s else exp_queue s ++ [t]) else exp_queue s).
Proof. unfold queues, run_queue, exp_queue. by rewrite !enq_list. Qed.
Lemma sel_ne s : rq_inv s -> rq_runnable (sched s) <> rq_expired (sched s).
Proof. intros []. lia. Qed.

Lemma queues_requeue s :
  sched_inv s -> let cur := current s in
  queues (requeue cur s) =
  rr_requeue (idle s) cur (bool_decide (state (tcbs s cur) = TASK_RUNNABLE)) (ticks_left (tcbs s cur) =? 0) (queues s).
Proof.
  intros Hs cur. unfold requeue, rr_requeue. destruct (state (tcbs s cur)) eqn:Est; [done|done|].
  rewrite bool_decide_true by done.
  destruct (si_runnable _ _ Hs cur) as [[q Hq]|[_ Hq]]; [done|done| |by destruct Hq].
  rewrite Hq. unfold is_idle_task. fold (idle s).
  destruct (bool_decide (cur = idle s)); [apply queues_deq|].
  pose proof (sel_ne s (si_rq _ _ Hs)) as Hne.
  rewrite queues_enq. change (sched (deq cur q s)) with
    (sched (with_rq q (fun r => r <| total ::= fun n => u32 (n - 1) |>) (unlink_rq cur s))).
  pose proof (queues_deq cur q s) as Hd. unfold queues in Hd. injection Hd as -> ->.
  destruct (_ =? 0); cbn; [rewrite decide_False, decide_True by done | rewrite decide_True, decide_False by done]; done.
Qed.

Lemma queues_tcb t f s : queues (with_tcb t f s) = queues s.
Proof. reflexivity. Qed.
Lemma sched_refill t s : sched (refill t (clear_resuming t s)) = sched s.
Proof. unfold refill, clear_resuming. by repeat match goal with |- context [if ?b then _ else _] => destruct b end. Qed.
Lemma queues_prepare t s :
  rq_inv s ->
  queues (prepare t s) = (if bool_decide (t = idle s) then t :: run_queue s else run_queue s, exp_queue s).
Proof.
  intros Hi. unfold prepare. rewrite queues_tcb. unfold queue_idle, is_idle_task. rewrite sched_refill. fold (idle s).
  destruct (bool_decide (t = idle s)); [|unfold queues, run_queue, exp_queue, rq_at; by rewrite sched_refill].
  rewrite queues_enq. unfold run_queue, exp_queue, rq_at. rewrite sched_refill.
  by rewrite decide_True, decide_False by (try done; by apply sel_ne).
Qed.

(** The choice is runnable, or the task an irq interrupted while nothing is. *)
Lemma chosen_runnable irq s next :
  mid s -> chosen irq s next ->
  state (tcbs s next) = TASK_RUNNABLE
  \/ irq = true /\ next = current s /\ next <> idle s /\ queues s = ([], []).
Proof.
  intros Hm Hc. pose proof (mid_inv s Hm) as Hi. destruct (decide (next = idle s)) as [->|Hne]; [left; apply (mid_state s Hm)|].
  assert (forall q l, rq_list (rq_at s q) = l -> (forall t, rq (tcbs s t) = None) -> l = []) as Hnil.
  { intros q [|t l] E Hn; [done|]. assert (rq (tcbs s t) = Some q) as H; [|by rewrite Hn in H].
    apply (si_rq _ _ Hi). rewrite E. left. }
  destruct Hc as [->|l E| -> -> Hn]; [done| |].
  - left. apply (si_queued _ _ Hi); [congruence|]. exists (rq_runnable (sched s)). apply (si_rq _ _ Hi). rewrite E. left.
  - right. split_and!; try done. unfold queues, run_queue, exp_queue. f_equal; by eapply Hnil.
Qed.
Lemma finish_runnable irq s :
  mid s ->
  state (tcbs (finish irq s) (current (finish irq s))) = TASK_RUNNABLE
  \/ irq = true /\ current (finish irq s) = current s /\ queues (finish irq s) = ([], []).
Proof.
  intros Hm. unfold finish. pose proof (select_ok irq s Hm) as Hsel. destruct (select irq s) as [next s2].
  destruct Hsel as (Hm2 & Hch & _ & Hc & _). set (s3 := with_preempt _ _).
  destruct (switch_fields next s3) as (-> & -> & _ & F4 & _).
  replace (queues (switch_to next s3)) with (queues (prepare next s2))
    by (unfold queues, run_queue, exp_queue, rq_at; rewrite F4; reflexivity).
  change (tcbs s3) with (tcbs (prepare next s2)). rewrite (prepare_keeps state) by done.
  destruct (chosen_runnable irq s2 next Hm2 Hch) as [|(? & ? & Hne & Hq)]; [by left|right].
  split_and!; [done|congruence|]. rewrite queues_prepare by apply (mid_inv _ Hm2).
  rewrite bool_decide_false by done. exact Hq.
Qed.

Lemma finish_queues irq s :
  mid s -> flag_set (sflags (sched s)) SCHED_RUN_IDLE = false ->
  (current (finish irq s), queues (finish irq s)) = rr_pick irq (idle s) (current s) (queues s).
Proof.
  intros Hm Hf. unfold finish.
  pose proof (select_ok irq s Hm) as Hsel. destruct (select irq s) as [next s2] eqn:E.
  destruct Hsel as (Hm2 & Hch & Ht & Hc & Hi). set (s3 := with_preempt _ _).
  destruct (switch_fields next s3) as (-> & _ & _ & F4 & _).
  replace (queues (switch_to next s3)) with (queues (prepare next s2))
    by (unfold queues, run_queue, exp_queue, rq_at; rewrite F4; reflexivity).
  rewrite queues_prepare by apply (mid_inv _ Hm2). rewrite Hi.
  assert (forall q t l, rq_list (rq_at s q) = t :: l -> bool_decide (t = idle s) = false) as Hni.
  { intros q t l El. apply bool_decide_eq_false. intros ->.
    assert (rq (tcbs s (idle s)) = Some q) as H by (apply (si_rq _ _ (mid_inv _ Hm)); rewrite El; left).
    pose proof (mid_rq _ Hm). congruence. }
  unfold select in E. rewrite Hf in E. unfold rr_pick, queues, run_queue, exp_queue.
  destruct (rq_list (rq_at s (rq_runnable (sched s)))) as [|t l] eqn:E1.
  - destruct (rq_list (rq_at s (rq_expired (sched s)))) as [|t l] eqn:E2.
    + injection E as <- <-. rewrite E1, E2. destruct irq; [|done]. by destruct (bool_decide (current s = idle s)) eqn:Eb;
        [apply bool_decide_eq_true in Eb as ->|].
    + injection E as <- <-.
      change (rq_list (rq_at (swap_queues s) (rq_runnable (sched (swap_queues s)))))
        with (rq_list (rq_at s (rq_expired (sched s)))).
      change (rq_list (rq_at (swap_queues s) (rq_expired (sched (swap_queues s)))))
        with (rq_list (rq_at s (rq_runnable (sched s)))).
      by rewrite E1, E2, (Hni _ _ _ E2).
  - injection E as <- <-. by rewrite E1, (Hni _ _ _ E1).
Qed.

(** Nothing but the passing of time calls for a switch: the current task has no
    signal pending and has not exited, no task has asked for the idle task. *)
Record quiet (s : kstate) : Prop := {
  quiet_signal : flag_set (flags (tcbs s (current s))) TASK_PENDING_SIGNAL = false;
  quiet_exited : flag_set (flags (tcbs s (current s))) TASK_EXITED = false;
  quiet_idle : flag_set (sflags (sched s)) SCHED_RUN_IDLE = false }.

Lemma requeue_tcb {A} (g : ktcb -> A) cur s u :
  (forall k q, g (k <| rq := q |>) = g k) -> g (tcbs (requeue cur s) u) = g (tcbs s u).
Proof.
  intros Hg. unfold requeue. destruct (state _); try done. destruct (rq _); [|done].
  destruct (is_idle_task _ _); cbn; repeat rewrite (upd_same g) by (rewrite ?upd_eq; rewrite ?Hg; done); done.
Qed.
Lemma requeue_sflags cur s : sflags (sched (requeue cur s)) = sflags (sched s).
Proof. unfold requeue. destruct (state _); try done. destruct (rq _); [|done]. by destruct (is_idle_task _ _). Qed.

Lemma quiet_front s f :
  quiet s -> front (with_preempt f s) =
  requeue (current s) (with_tcb (current s) (fun t => t <| ts_need_resched := 0 |>) (with_preempt f s)).
Proof.
  intros [H1 H2 _]. rewrite front_preempt. set (s0 := with_tcb _ _ _).
  assert (flags (tcbs (requeue (current s) s0) (current s)) = flags (tcbs s (current s))) as E.
  { rewrite (requeue_tcb flags) by done. unfold s0. cbn. by rewrite upd_eq. }
  unfold before_hint, wake_pending. rewrite E, H1.
  set (s1 := requeue (current s) s0) in *.
  assert (suspend_pending (current s) s1 = s1) as Hsp.
  { unfold suspend_pending. rewrite E, H1. cbn [andb]. by destruct (state (tcbs s1 (current s))), (rq (tcbs s1 (current s))). }
  unfold hint_idle. destruct (state (tcbs s1 (current s))); [|destruct (waiting_on (tcbs s1 (current s)))|]; by rewrite Hsp, E, H2.
Qed.

Lemma schedule_round_robin s :
  sched_inv s -> may_schedule s -> quiet s ->
  (current (schedule_spec s), queues (schedule_spec s)) =
  round_robin (in_irq_context s) (idle s) (current s) (bool_decide (state (tcbs s (current s)) = TASK_RUNNABLE))
    (ticks_left (tcbs s (current s)) =? 0) (queues s).
Proof.
  intros Hs Hm Hq. unfold schedule_spec. pose proof (front_mid _ (sinv_preempt _ Z.succ s Hs)) as Hmid.
  destruct (keeps_front (with_preempt Z.succ s)) as (K1 & K2 & _).
  rewrite quiet_front in * by done. set (s0 := with_tcb _ _ _) in *.
  rewrite finish_queues; [|done|rewrite requeue_sflags; apply Hq]. rewrite K1, K2.
  assert (sched_inv s0) as H0 by by apply sinv_resched, sinv_preempt.
  pose proof (queues_requeue s0 H0) as E. cbv zeta in E.
  change (current s0) with (current s) in E. change (idle s0) with (idle s) in E. change (queues s0) with (queues s) in E.
  replace (state (tcbs s0 (current s))) with (state (tcbs s (current s))) in E by (unfold s0; cbn; by rewrite upd_eq).
  replace (ticks_left (tcbs s0 (current s))) with (ticks_left (tcbs s (current s))) in E by (unfold s0; cbn; by rewrite upd_eq).
  rewrite E. done.
Qed.

Lemma schedule_ends s :
  sched_inv s -> may_schedule s ->
  sched_inv (schedule_spec s) /\ runs (schedule_spec s) /\ irqs_on (schedule_spec s) = true
  /\ voluntary_preempt (schedule_spec s) = 0 /\ irq_nest_count (schedule_spec s) = 0.
Proof.
  intros Hs [Hv Hn]. unfold schedule_spec. destruct (keeps_front (with_preempt Z.succ s)) as (_ & _ & K3 & K4).
  destruct (finish_ok (in_irq_context s) (front (with_preempt Z.succ s))) as (H1 & H2 & H3 & H4 & H5 & _);
    [by apply front_mid, sinv_preempt|rewrite K4; cbn; lia|rewrite K3; cbn; lia|done].
Qed.
(** The task it ends in can run, or nothing can: in an irq that interrupted the
    last task on its way to sleep, the processor goes back to it. *)
Definition runs_rightly (irq : bool) (interrupted : Z) (s : kstate) : Prop :=
  state (tcbs s (current s)) = TASK_RUNNABLE
  \/ irq = true /\ current s = interrupted /\ run_queue s = [] /\ exp_queue s = [].
Lemma schedule_runnable s :
  sched_inv s -> may_schedule s -> runs_rightly (in_irq_context s) (current s) (schedule_spec s).
Proof.
  intros Hs Hm. unfold schedule_spec, runs_rightly. destruct (keeps_front (with_preempt Z.succ s)) as (K1 & _).
  destruct (finish_runnable (in_irq_context s) (front (with_preempt Z.succ s))) as [|(? & ? & Hq)];
    [by apply front_mid, sinv_preempt|by left|right].
  unfold queues in Hq. apply pair_equal_spec in Hq as [? ?]. split_and!; [done|etransitivity; [eassumption|exact K1]|done|done].
Qed.
