(* ===== verification/Fairness.v ===== *)
(** Starvation freedom of the scheduler: every queued task runs within a number
    of turns that the queue lengths bound. *)
From stdpp Require Import relations.
From S2P Require Import Prelude Defs Kernel Exec Sched SchedInv SchedOps Schedule.

(** * What [schedule] leaves in the tasks *)

Lemma tcb_all (P : ktcb -> Prop) t f s :
  (forall k, P k -> P (f k)) -> (forall u, P (tcbs s u)) -> forall u, P (tcbs (with_tcb t f s) u).
Proof.
  intros Hf Hs u. cbn. destruct (decide (t = u)) as [<-|]; [rewrite upd_eq; auto|by rewrite upd_ne].
Qed.

Lemma finish_tcbs irq s :
  exists next s2, next = current (finish irq s) /\ tcbs s2 = tcbs s /\ idle s2 = idle s /\ prio_total (sched s2) = prio_total (sched s)
    /\ tcbs (finish irq s) = tcbs (prepare next s2) /\ sched (finish irq s) = sched (prepare next s2)
    /\ sflags (sched s2) = sflags (sched s).
Proof.
  unfold finish. assert (tcbs (snd (select irq s)) = tcbs s /\ idle (snd (select irq s)) = idle s
    /\ prio_total (sched (snd (select irq s))) = prio_total (sched s)
    /\ sflags (sched (snd (select irq s))) = sflags (sched s)) as (H1 & H2 & H3 & H4).
  { unfold select. by repeat case_match. }
  destruct (select irq s) as [next s2]. exists next, s2.
  destruct (switch_fields next (with_preempt Z.pred (with_irqs false (prepare next s2)))) as (-> & -> & _ & -> & _).
  done.
Qed.

(** A property of tasks that no write of [schedule] to a quiet state breaks. *)
Lemma schedule_all (P : ktcb -> Prop) s :
  quiet s -> (forall u, P (tcbs s u)) ->
  (forall k n, P k -> P (k <| ts_need_resched := n |>)) -> (forall k q, P k -> P (k <| rq := q |>)) ->
  (forall k, P k -> P (clear_flag TASK_RESUMING k)) -> (forall k n, P k -> P (k <| ticks_assigned := n |>)) ->
  (forall k, P k -> P (k <| ticks_left := ticks_assigned k |>)) -> (forall k n, P k -> P (k <| sched_granule := n |>)) ->
  forall u, P (tcbs (schedule_spec s) u).
Proof.
  intros Hq Hs H1 H2 H3 H4 H5 H6. unfold schedule_spec.
  destruct (finish_tcbs (in_irq_context s) (front (with_preempt Z.succ s))) as (next & s2 & _ & Ht & _ & _ & -> & _).
  assert (forall u, P (tcbs s2 u)) as Hs2.
  { rewrite Ht, quiet_front by done. set (s0 := with_tcb _ _ _).
    assert (forall u, P (tcbs s0 u)) as H0 by (apply tcb_all; auto).
    unfold requeue. destruct (state _); try done. destruct (rq _); [|done].
    assert (forall u, P (tcbs (deq (current s) z s0) u)) as Hd by (apply tcb_all; [auto|done]).
    destruct (is_idle_task _ _); [done|]. apply tcb_all; auto. }
  unfold prepare. apply tcb_all; [auto|].
  assert (forall u, P (tcbs (refill next (clear_resuming next s2)) u)) as Hr.
  { assert (forall u, P (tcbs (clear_resuming next s2) u)) as Hc.
    { unfold clear_resuming. destruct (flag_set _ _); [|done]. apply tcb_all; auto. }
    unfold refill. destruct (_ =? 0); [|done]. apply tcb_all; [auto|]. apply tcb_all; auto. }
  unfold queue_idle. destruct (is_idle_task _ _); [|done]. apply tcb_all; auto.
Qed.

(** Only the chosen task's slice changes, and only when it is used up. *)
Lemma schedule_ticks s u :
  quiet s ->
  ticks_left (tcbs (schedule_spec s) u) =
  if (ticks_left (tcbs s u) =? 0) && bool_decide (u = current (schedule_spec s))
  then Z.quot (CONFIG_SCHED_TICKS * priority (tcbs s u)) (prio_total (sched s)) else ticks_left (tcbs s u).
Proof.
  intros Hq. unfold schedule_spec.
  destruct (finish_tcbs (in_irq_context s) (front (with_preempt Z.succ s))) as (next & s2 & <- & Ht & _ & Hp & -> & _).
  assert (forall u, ticks_left (tcbs s2 u) = ticks_left (tcbs s u) /\ priority (tcbs s2 u) = priority (tcbs s u)) as Hs2.
  { intros v. rewrite Ht, quiet_front by done.
    rewrite (requeue_tcb ticks_left), (requeue_tcb priority) by done. cbn. by rewrite (upd_same ticks_left), (upd_same priority). }
  assert (prio_total (sched s2) = prio_total (sched s)) as Hp2.
  { rewrite Hp, quiet_front by done. unfold requeue. destruct (state _); try done. destruct (rq _); [|done].
    by destruct (is_idle_task _ _). }
  unfold prepare. cbn. rewrite (upd_same ticks_left) by done.
  assert (forall x, ticks_left (tcbs (queue_idle next x) u) = ticks_left (tcbs x u)) as ->.
  { intros x. unfold queue_idle. destruct (is_idle_task _ _); [|done]. cbn. by rewrite (upd_same ticks_left). }
  set (s3 := clear_resuming next s2).
  assert (forall v, ticks_left (tcbs s3 v) = ticks_left (tcbs s2 v) /\ priority (tcbs s3 v) = priority (tcbs s2 v)
    /\ prio_total (sched s3) = prio_total (sched s2)) as H3.
  { intros v. unfold s3, clear_resuming. destruct (flag_set _ _); [|done]. cbn.
    by rewrite (upd_same ticks_left), (upd_same priority). }
  unfold refill. destruct (H3 next) as (-> & _). destruct (Hs2 next) as [-> _]. destruct (Hs2 u) as [Hu1 Hu2].
  destruct (H3 u) as (Hu3 & Hu4 & Hpt).
  case_bool_decide as E; [subst u|].
  - destruct (ticks_left (tcbs s next) =? 0); cbn; [|congruence]. rewrite !upd_eq. cbn. congruence.
  - rewrite andb_false_r. destruct (_ =? 0); [|congruence]. cbn. rewrite !upd_ne by done. congruence.
Qed.
Lemma prepare_sched next s : sflags (sched (prepare next s)) = sflags (sched s) /\ idle (prepare next s) = idle s.
Proof.
  unfold prepare, queue_idle. destruct (is_idle_task _ _).
  - change (sflags (sched (refill next (clear_resuming next s))) = sflags (sched s)
            /\ idle_task (sched (refill next (clear_resuming next s))) = idle_task (sched s)).
    by rewrite sched_refill.
  - change (sflags (sched (refill next (clear_resuming next s))) = sflags (sched s)
            /\ idle_task (sched (refill next (clear_resuming next s))) = idle_task (sched s)).
    by rewrite sched_refill.
Qed.
Lemma finish_sched irq s : sflags (sched (finish irq s)) = sflags (sched s) /\ idle (finish irq s) = idle s.
Proof.
  destruct (finish_tcbs irq s) as (next & s2 & _ & _ & Hi & _ & _ & E & Hf).
  destruct (prepare_sched next s2) as [H1 H2]. unfold idle in *. rewrite E. split; congruence.
Qed.
Lemma schedule_sched s :
  quiet s -> sflags (sched (schedule_spec s)) = sflags (sched s) /\ idle (schedule_spec s) = idle s.
Proof.
  intros Hq. unfold schedule_spec.
  destruct (finish_sched (in_irq_context s) (front (with_preempt Z.succ s))) as [-> ->].
  destruct (keeps_front (with_preempt Z.succ s)) as (_ & -> & _). split; [|reflexivity].
  rewrite quiet_front, requeue_sflags by done. reflexivity.
Qed.

(** * Turns

    [elapse n irq s]: the current task has run, [n] ticks are left to it, and it
    calls [schedule], or is interrupted by the timer that does. *)
Definition elapse (n : Z) (irq : bool) (s : kstate) : kstate :=
  with_tcb (current s) (fun k => k <| ticks_left := n |>) s <| irq_nest_count := if irq then 1 else 0 |>.
Inductive turn (s : kstate) : kstate -> Prop :=
| turn_intro n irq s' k :
    0 <= n < ticks_left (tcbs s (current s)) -> schedule (elapse n irq s) = Switch s' k -> turn s s'.

(** The tasks are let run: none has a signal pending, the one that runs heads
    its queue. *)
Record calm (s : kstate) : Prop := {
  calm_inv : sched_inv s;
  calm_head : head (run_queue s) = Some (current s);
  calm_slice : 0 < ticks_left (tcbs s (current s));
  calm_current : current s <> idle s;
  calm_preempt : voluntary_preempt s = 0;
  calm_flags : forall u, flag_set (flags (tcbs s u)) TASK_PENDING_SIGNAL = false
                         /\ flag_set (flags (tcbs s u)) TASK_EXITED = false;
  calm_idle : flag_set (sflags (sched s)) SCHED_RUN_IDLE = false }.

Section Calm.
Context (s : kstate) (Hc : calm s) (n : Z) (irq : bool) (Hn : 0 <= n < ticks_left (tcbs s (current s))).

Lemma elapse_inv : sched_inv (elapse n irq s).
Proof.
  pose proof (calm_inv _ Hc) as Hs. apply (sinv_ext _ (with_tcb (current s) (fun k => k <| ticks_left := n |>) s)); try done.
  apply sinv_tcb; try done; [by right| |].
  - intros H. destruct (si_ok _ _ Hs (current s)) as (H1 & H2 & H3 & H4); [tauto|]. unfold task_ok. cbn. lia.
  - intros E. cbn. rewrite E. apply (si_idle_flags _ _ Hs).
Qed.
Lemma elapse_quiet : quiet (elapse n irq s).
Proof.
  pose proof (calm_flags _ Hc (current s)) as [H1 H2]. split; [| |apply Hc];
    unfold elapse; cbn; by rewrite upd_eq.
Qed.
Lemma elapse_may : may_schedule (elapse n irq s).
Proof. split; [apply Hc|]. destruct irq; [by right|by left]. Qed.
Lemma elapse_irq : in_irq_context (elapse n irq s) = irq.
Proof. unfold in_irq_context. change (voluntary_preempt (elapse n irq s)) with (voluntary_preempt s). rewrite (calm_preempt _ Hc). by destruct irq. Qed.

Lemma turn_run : schedule (elapse n irq s) = Switch (schedule_spec (elapse n irq s)) (fun s' => Ret tt s').
Proof. apply schedule_run; [apply elapse_inv|apply elapse_may]. Qed.

(** The queues rotate: the current task goes behind its own queue, or, its
    slice used up, behind the expired one. *)
Lemma turn_queues r :
  run_queue s = current s :: r ->
  (current (schedule_spec (elapse n irq s)), queues (schedule_spec (elapse n irq s))) =
  rr_pick irq (idle s) (current s) (if n =? 0 then (r, exp_queue s ++ [current s]) else (r ++ [current s], exp_queue s)).
Proof.
  intros Hr. rewrite (schedule_round_robin (elapse n irq s) elapse_inv elapse_may elapse_quiet), elapse_irq. unfold round_robin.
  change (idle (elapse n irq s)) with (idle s). change (current (elapse n irq s)) with (current s). change (queues (elapse n irq s)) with (queues s).
  assert (state (tcbs (elapse n irq s) (current s)) = TASK_RUNNABLE) as ->.
  { unfold elapse. cbn. rewrite upd_eq. cbn. apply (si_queued _ _ (calm_inv _ Hc)); [done|].
    exists (rq_runnable (sched s)). apply (si_rq _ _ (calm_inv _ Hc)). fold (run_queue s). rewrite Hr. left. }
  assert (ticks_left (tcbs (elapse n irq s) (current s)) = n) as -> by (unfold elapse; cbn; by rewrite upd_eq).
  f_equal. unfold rr_requeue. rewrite !bool_decide_true by done. rewrite bool_decide_false by apply Hc.
  pose proof (si_rq _ _ (calm_inv _ Hc)) as Hi. unfold queues. cbn [fst snd]. rewrite Hr.
  rewrite list_del_head by (rewrite <- Hr; apply Hi).
  rewrite (list_del_id _ (exp_queue s)); [done|]. intros H. apply Hi in H.
  assert (rq (tcbs s (current s)) = Some (rq_runnable (sched s))) as H' by (apply Hi; fold (run_queue s); rewrite Hr; left).
  pose proof (sel_ne _ Hi). congruence.
Qed.
End Calm.

Lemma rr_pick_head irq idl cur q t r' e' :
  q <> ([], []) -> rr_pick irq idl cur q = (t, (r', e')) -> head r' = Some t /\ (t ∈ q.1 \/ t ∈ q.2).
Proof.
  destruct q as [[|x r] [|y e]]; cbn; intros Hne [= <- <- <-]; cbn; split; try done; set_solver.
Qed.

Lemma rotate_ne (b : bool) (r e : list Z) (c : Z) : (if b then (r, e ++ [c]) else (r ++ [c], e)) <> ([], []).
Proof. destruct b; [destruct r, e|destruct r]; done. Qed.

Lemma head_cons {A} (l : list A) x : head l = Some x -> exists r, l = x :: r.
Proof. destruct l as [|y r]; cbn; [done|]. intros [= ->]. by exists r. Qed.

Section Turn.
Context (s : kstate) (Hc : calm s) (n : Z) (irq : bool) (Hn : 0 <= n < ticks_left (tcbs s (current s))).

Lemma turn_head :
  head (run_queue (schedule_spec (elapse n irq s))) = Some (current (schedule_spec (elapse n irq s)))
  /\ (current (schedule_spec (elapse n irq s)) ∈ run_queue s \/ current (schedule_spec (elapse n irq s)) ∈ exp_queue s).
Proof.
  destruct (head_cons _ _ (calm_head _ Hc)) as [r Hr]. pose proof (turn_queues s Hc n irq Hn r Hr) as Ht.
  symmetry in Ht. unfold queues in Ht. apply rr_pick_head in Ht as [Hhd Hin]; [|apply rotate_ne]. split; [exact Hhd|].
  revert Hin. rewrite Hr. generalize (current (schedule_spec (elapse n irq s))). intros x.
  destruct (n =? 0); cbn; rewrite elem_of_app, list_elem_of_singleton, elem_of_cons; tauto.
Qed.

Lemma turn_flags u :
  let k := tcbs (schedule_spec (elapse n irq s)) u in
  flag_set (flags k) TASK_PENDING_SIGNAL = false /\ flag_set (flags k) TASK_EXITED = false.
Proof.
  apply (schedule_all (fun k => flag_set (flags k) TASK_PENDING_SIGNAL = false /\ flag_set (flags k) TASK_EXITED = false)
    (elapse n irq s) (elapse_quiet s Hc n irq)); try done.
  - intros v. unfold elapse. cbn. rewrite (upd_same flags) by done. apply (calm_flags _ Hc).
  - intros k [H1 H2]. cbn. split; by apply flag_set_land_false.
Qed.

Lemma queued_not_idle t : t ∈ run_queue s \/ t ∈ exp_queue s -> t <> idle s.
Proof.
  intros H ->. pose proof (calm_inv _ Hc) as Hs. apply (calm_current _ Hc). apply (si_idle _ _ Hs); [done|].
  destruct H as [H|H]; apply (si_rq _ _ Hs) in H; by eexists.
Qed.

(** A turn leads from calm to calm. *)
Lemma turn_calm : calm (schedule_spec (elapse n irq s)).
Proof.
  pose proof (schedule_ends (elapse n irq s) (elapse_inv s Hc n irq Hn) (elapse_may s Hc n irq))
    as (Hs' & [_ [Hr _]] & _ & Hv & _).
  pose proof (schedule_sched (elapse n irq s) (elapse_quiet s Hc n irq)) as [Hf Hid].
  pose proof turn_head as [Hh Hin]. pose proof turn_flags as Hfl. pose proof (queued_not_idle _ Hin) as Hni.
  rewrite <- Hid in Hni || change (idle s) with (idle (elapse n irq s)) in Hni; try rewrite <- Hid in Hni.
  pose proof (calm_idle _ Hc) as Hci. change (sched s) with (sched (elapse n irq s)) in Hci. rewrite <- Hf in Hci.
  clear Hf Hid Hin.
  revert Hs' Hr Hv Hh Hfl Hni Hci. generalize (schedule_spec (elapse n irq s)). intros s' **. by split.
Qed.
End Turn.

(** * Starvation freedom *)

(** Ticks a queued task may still use before it leaves the queue. *)
Definition allowance (s : kstate) (u : Z) : nat :=
  Z.to_nat (if ticks_left (tcbs s u) =? 0 then CONFIG_SCHED_TICKS else ticks_left (tcbs s u)).
Definition allowances (s : kstate) (l : list Z) : nat := sum_list_with (allowance s) l.

(** Turns until task [t] runs: its place in the queue of this round; in the
    expired queue, at most the ticks this round can last and a round more. *)
Definition patience_of (alw : nat) (r e : list Z) (t : Z) : nat :=
  match list_find (eq t) r with
  | Some (i, _) => i
  | None => alw + length r + length e
  end.
Definition patience (s : kstate) (t : Z) : nat :=
  patience_of (allowances s (run_queue s)) (run_queue s) (exp_queue s) t.

Lemma list_find_eq_Some (l : list Z) t : t ∈ l -> exists i, list_find (eq t) l = Some (i, t).
Proof.
  intros H. destruct (list_find_elem_of (eq t) l t H eq_refl) as [[i u] E]. exists i. rewrite E.
  apply list_find_Some in E as (_ & <- & _). done.
Qed.
Lemma list_find_eq_None (l : list Z) t : t ∉ l -> list_find (eq t) l = None.
Proof. intros H. apply list_find_None, Forall_forall. intros x Hx ->. done. Qed.

(** The three ways the queues rotate, and what is left to wait for. *)
Lemma patience_rotate a a' c r e t :
  t <> c -> t ∈ r -> (patience_of a' (r ++ [c]) e t < patience_of a (c :: r) e t
                      /\ patience_of a' r (e ++ [c]) t < patience_of a (c :: r) e t)%nat.
Proof.
  intros Hne Hin. destruct (list_find_eq_Some r t Hin) as [i E]. unfold patience_of. cbn [list_find].
  rewrite decide_False by done. rewrite E. cbn. rewrite (list_find_app_l _ _ _ _ _ E). lia.
Qed.
Lemma patience_expired a a' c r e t :
  t <> c -> t ∉ r -> (a' < a)%nat ->
  (patience_of a' (r ++ [c]) e t < patience_of a (c :: r) e t
   /\ patience_of a' r (e ++ [c]) t < patience_of a (c :: r) e t)%nat.
Proof.
  intros Hne Hn Ha. unfold patience_of. rewrite !list_find_eq_None by set_solver.
  rewrite !length_app. cbn. lia.
Qed.
Lemma patience_swap a a' c e t :
  t <> c -> t ∈ e -> (patience_of a' (e ++ [c]) [] t < patience_of a [c] e t)%nat.
Proof.
  intros Hne Hin. destruct (list_find_eq_Some e t Hin) as [i E]. unfold patience_of.
  rewrite (list_find_app_l _ _ _ _ _ E), list_find_eq_None by set_solver.
  apply list_find_Some in E as (E & _). apply lookup_lt_Some in E. cbn. lia.
Qed.

Section Patience.
Context (s : kstate) (Hc : calm s) (n : Z) (irq : bool) (Hn : 0 <= n < ticks_left (tcbs s (current s))).
Context (r : list Z) (Hr : run_queue s = current s :: r).

Lemma turn_ticks u :
  let s' := schedule_spec (elapse n irq s) in
  let left_ := if bool_decide (u = current s) then n else ticks_left (tcbs s u) in
  ticks_left (tcbs s' u) =
  if (left_ =? 0) && bool_decide (u = current s') then slice (priority (tcbs s u)) else left_.
Proof.
  cbv zeta. rewrite schedule_ticks by by apply elapse_quiet.
  assert (ticks_left (tcbs (elapse n irq s) u) = if bool_decide (u = current s) then n else ticks_left (tcbs s u)) as ->.
  { unfold elapse. cbn. case_bool_decide as E; [subst; by rewrite upd_eq|by rewrite upd_ne]. }
  assert (priority (tcbs (elapse n irq s) u) = priority (tcbs s u)) as ->.
  { unfold elapse. cbn. by rewrite (upd_same priority). }
  assert (prio_total (sched (elapse n irq s)) = TASK_PRIO_TOTAL) as -> by apply (si_prio _ _ (calm_inv _ Hc)).
  reflexivity.
Qed.

Lemma queued_ok u : u ∈ run_queue s \/ u ∈ exp_queue s -> task_ok u (tcbs s u).
Proof.
  intros H. pose proof (calm_inv _ Hc) as Hs. apply (si_ok _ _ Hs). left.
  rewrite (si_queued _ _ Hs); [done|done|]. destruct H as [H|H]; apply (si_rq _ _ Hs) in H; by eexists.
Qed.

(** No queued task's allowance grows; the current task's shrinks. *)
Lemma allowance_other u :
  u <> current s -> u ∈ r -> (allowance (schedule_spec (elapse n irq s)) u <= allowance s u)%nat.
Proof.
  intros Hne Hu. unfold allowance. rewrite turn_ticks. rewrite bool_decide_false by done.
  destruct (queued_ok u) as (_ & _ & Hp & Ht); [left; rewrite Hr; by right|]. pose proof (slice_range _ Hp) as Hsl.
  destruct (ticks_left (tcbs s u) =? 0) eqn:E; cbn [andb]; [|by rewrite E].
  destruct (bool_decide _).
  - rewrite (proj2 (Z.eqb_neq _ _)) by lia. lia.
  - by rewrite E.
Qed.
Lemma allowances_le l :
  (forall u, u ∈ l -> u <> current s /\ u ∈ r) ->
  (allowances (schedule_spec (elapse n irq s)) l <= allowances s l)%nat.
Proof.
  unfold allowances. induction l as [|u l IH]; cbn; intros H; [done|].
  pose proof (allowance_other u) as Ha. destruct (H u) as [H1 H2]; [left|]. specialize (Ha H1 H2).
  specialize (IH (fun v Hv => H v (list_elem_of_further _ _ _ Hv))). lia.
Qed.

Lemma allowance_current :
  n <> 0 -> (allowance (schedule_spec (elapse n irq s)) (current s) < allowance s (current s))%nat.
Proof.
  intros Hn0. unfold allowance. rewrite turn_ticks, bool_decide_true by done.
  rewrite (proj2 (Z.eqb_neq n 0)) by done. cbn [andb]. rewrite (proj2 (Z.eqb_neq n 0)) by done.
  rewrite (proj2 (Z.eqb_neq _ _)); lia.
Qed.
Lemma allowance_pos : (0 < allowance s (current s))%nat.
Proof. unfold allowance. rewrite (proj2 (Z.eqb_neq _ _)); lia. Qed.

Lemma run_nodup : (current s ∉ r) /\ (forall t, t ∈ exp_queue s -> t ∉ run_queue s).
Proof.
  pose proof (si_rq _ _ (calm_inv _ Hc)) as Hi. pose proof (rqi_nodup _ Hi (rq_runnable (sched s))) as Hd.
  fold (run_queue s) in Hd. rewrite Hr in Hd. apply NoDup_cons in Hd as [Hd _]. split; [done|].
  intros t H1 H2. apply Hi in H1, H2. pose proof (sel_ne _ Hi). congruence.
Qed.

(** The queues after the turn, in its three cases. *)
Lemma turn_cases :
  let s' := schedule_spec (elapse n irq s) in
  run_queue s' = r ++ [current s] /\ exp_queue s' = exp_queue s /\ n <> 0
  \/ run_queue s' = r /\ exp_queue s' = exp_queue s ++ [current s] /\ r <> []
  \/ run_queue s' = exp_queue s ++ [current s] /\ exp_queue s' = [] /\ r = [].
Proof.
  cbv zeta. pose proof (turn_queues s Hc n irq Hn r Hr) as Ht. unfold queues in Ht. revert Ht.
  generalize (current (schedule_spec (elapse n irq s))), (run_queue (schedule_spec (elapse n irq s))),
    (exp_queue (schedule_spec (elapse n irq s))). intros nx R E.
  destruct (n =? 0) eqn:En; [apply Z.eqb_eq in En|apply Z.eqb_neq in En]; unfold rr_pick.
  - destruct r as [|x r']; [|intros [= -> -> ->]; naive_solver].
    destruct (exp_queue s) as [|y e]; cbn [app]; intros [= -> -> ->]; naive_solver.
  - destruct r as [|x r']; cbn [app]; intros [= -> -> ->]; naive_solver.
Qed.

Lemma turn_progress t (s' := schedule_spec (elapse n irq s)) :
  t <> current s -> t ∈ run_queue s \/ t ∈ exp_queue s ->
  (t ∈ run_queue s' \/ t ∈ exp_queue s') /\ (patience s' t < patience s t)%nat.
Proof.
  intros Hne Hin. destruct run_nodup as [Hnr Hex]. unfold patience. rewrite Hr in Hin |- *.
  assert ((allowances s' r <= allowances s r)%nat) as Ha.
  { apply allowances_le. intros u Hu. split; [intros ->|]; done. }
  pose proof allowance_pos as Hp. pose proof allowance_current as Hac. fold s' in Hac. rewrite elem_of_cons in Hin.
  assert (t ∈ r \/ (t ∉ r) /\ t ∈ exp_queue s) as Hin'.
  { destruct (decide (t ∈ r)); [by left|right]. naive_solver. }
  pose proof turn_cases as Hcases. cbv zeta in Hcases. fold s' in Hcases. clearbody s'.
  destruct Hcases as [(-> & -> & Hn0)|[(-> & -> & Hrn)|(-> & -> & Hrn)]].
  - split; [set_solver|]. destruct Hin' as [H|[H1 H2]]; [by apply patience_rotate|].
    apply patience_expired; [done|done|]. unfold allowances in *. rewrite sum_list_with_app. cbn.
    specialize (Hac Hn0). lia.
  - split; [set_solver|]. destruct Hin' as [H|[H1 H2]]; [by apply patience_rotate|].
    apply patience_expired; [done|done|]. unfold allowances in *. cbn. lia.
  - rewrite Hrn in *. destruct Hin' as [H|[H1 H2]]; [by apply elem_of_nil in H|]. split; [set_solver|].
    by apply patience_swap.
Qed.
End Patience.

(** A bound on the wait that only reads the queue lengths. *)
Definition longest_wait (s : kstate) : nat :=
  Z.to_nat CONFIG_SCHED_TICKS * length (run_queue s) + length (run_queue s) + length (exp_queue s).
Lemma allowance_le s u : task_ok u (tcbs s u) -> (allowance s u <= Z.to_nat CONFIG_SCHED_TICKS)%nat.
Proof. intros (_ & _ & _ & Ht). unfold allowance. destruct (_ =? 0); [done|]. apply Z2Nat.inj_le; lia. Qed.
Lemma patience_bound s t :
  (forall u, u ∈ run_queue s -> task_ok u (tcbs s u)) -> (patience s t <= longest_wait s)%nat.
Proof.
  intros Hok. unfold longest_wait. pose proof (allowance_le s) as Hal. revert Hal. generalize (Z.to_nat CONFIG_SCHED_TICKS).
  intros m Hal. assert ((allowances s (run_queue s) <= m * length (run_queue s))%nat) as Ha.
  { unfold allowances. induction (run_queue s) as [|u l IH]; cbn; [lia|].
    specialize (IH (fun v Hv => Hok v (list_elem_of_further _ _ _ Hv))).
    pose proof (Hal u (Hok u (list_elem_of_here _ _))). lia. }
  unfold patience, patience_of. destruct (list_find _ _) as [[i u]|] eqn:E; [|lia].
  apply list_find_Some in E as (E & _). apply lookup_lt_Some in E. lia.
Qed.

Lemma turn_inv s s' :
  calm s -> turn s s' -> exists n irq, 0 <= n < ticks_left (tcbs s (current s)) /\ s' = schedule_spec (elapse n irq s).
Proof.
  intros Hc [n irq s2 k Hn E]. rewrite (turn_run s Hc n irq Hn) in E. injection E as <- _. by exists n, irq.
Qed.

Lemma waits_for_patience t N s s' :
  calm s -> t ∈ run_queue s \/ t ∈ exp_queue s -> (patience s t <= N)%nat -> nsteps turn N s s' ->
  exists j s1, (j <= N)%nat /\ nsteps turn j s s1 /\ nsteps turn (N - j) s1 s' /\ current s1 = t.
Proof.
  revert s. induction N as [|N IH]; intros s Hc Hin Hp Hst.
  - exists 0%nat, s. split_and!; [done|constructor|done|].
    destruct (head_cons _ _ (calm_head _ Hc)) as [r Hr]. revert Hp. unfold patience, patience_of. rewrite Hr. cbn [list_find].
    case_decide as E; [done|]. intros Hp. exfalso. destruct (list_find _ r) as [[i u]|]; cbn in Hp; lia.
  - destruct (decide (t = current s)) as [->|Hne].
    { exists 0%nat, s. split_and!; [lia|constructor|done|done]. }
    inversion Hst as [|? ? s2 ? Ht Hst']; subst. destruct (turn_inv _ _ Hc Ht) as (n & irq & Hn & ->).
    destruct (head_cons _ _ (calm_head _ Hc)) as [r Hr].
    destruct (turn_progress s Hc n irq Hn r Hr t Hne Hin) as [Hin' Hp'].
    destruct (IH _ (turn_calm s Hc n irq Hn) Hin' ltac:(lia) Hst') as (j & s1 & Hj & H1 & H2 & H3).
    exists (S j), s1. split_and!; [lia|by econstructor|done|done].
Qed.
