(* ===== verification/Demo.v ===== *)
(** A small running system, at which the theorems on whole kernel states are
    instantiated: a pager (task 16) that runs, a worker (32) queued behind it, a
    task (48) asleep until the pager sends to it, and the idle task (64). *)
From S2P Require Import Prelude Bits Defs Kernel Exec Sched SchedInv Schedule Fairness.

Definition empty_pool : id_pool := MkIdPool 1 [0].
Definition kstate_zero : kstate :=
  MkKstate 0 (fun _ => ktcb_zero) (fun _ => MkWqh 0 []) (fun _ => 0)
    (MkSched 0 (fun _ => MkRq [] 0) 0 1 0 TASK_PRIO_TOTAL) 0 0 true
    (fun _ => MkSpace 0 0 0) (fun _ => MkCont 0 0 [] 0 [] 0 [] 0 []) (fun _ => MkCapList 0 [])
    (fun _ => cap_zero) (fun _ => MkMq 0 0) (fun _ => MkCache 0 0 0 0 0 [])
    (MkKres 0 empty_pool empty_pool empty_pool empty_pool [] 0 [] 0) (fun _ _ => 0) (fun _ _ => 0) (fun _ _ => 0)
    (fun _ => 0) (fun _ => MkIrqDesc None None 0 0) 0 (MkTime 0 0 0) 0 0 0 0
    (fun _ => MkIds 0 0 0) (fun _ => MkExregs (fun _ => 0) 0 0 0 0) (fun _ => (0, 0)) (fun _ => 0)
    (fun _ => []) (fun _ => 0) 0 (fun _ => 0).

Definition demo_task (t tid_ prio ticks : Z) (st : task_state) (q : option Z) : ktcb :=
  ktcb_zero <| tid := tid_ |> <| tgid := 1 |> <| pager := 16 |> <| state := st |> <| rq := q |>
    <| space := 256 |> <| container := 512 |> <| priority := prio |> <| ticks_left := ticks |>
    <| syscall_regs := SYS_FRAME t |> <| expected_sender := L4_ANYTHREAD |>.

(** The system with task 48 asleep on a given queue. *)
Definition demo_on (h : wqh_ref) : kstate :=
  kstate_zero <| current := 16 |>
    <| tcbs := <[16 := demo_task 16 1 8 5 TASK_RUNNABLE (Some 0)]>
               (<[32 := demo_task 32 2 4 0 TASK_RUNNABLE (Some 0)]>
               (<[48 := demo_task 48 3 4 3 TASK_SLEEPING None <| waiting_on := Some h |> <| wq := Some 48 |>]>
               (<[64 := demo_task 64 4 1 0 TASK_RUNNABLE None]> (fun _ => ktcb_zero)))) |>
    <| wqhs := <[h := MkWqh 1 [48]]> (fun _ => MkWqh 0 []) |>
    <| sched := MkSched 0 (<[0 := MkRq [16; 32] 2]> (fun _ => MkRq [] 0)) 0 1 64 TASK_PRIO_TOTAL |>
    <| conts := <[512 := MkCont 0 0 [256] 1 [16; 32; 48] 3 [] 0 []]> (fun _ => MkCont 0 0 [] 0 [] 0 [] 0 []) |>.
Definition demo : kstate := demo_on (WQ_SEND 16).

(** Splits on whether an address is one of the demo's tasks. *)
Ltac demo_task_cases t :=
  destruct (decide (t = 16)) as [->|?]; [|destruct (decide (t = 32)) as [->|?];
    [|destruct (decide (t = 48)) as [->|?]; [|destruct (decide (t = 64)) as [->|?]]]].
Lemma demo_other h t : t <> 16 -> t <> 32 -> t <> 48 -> t <> 64 -> tcbs (demo_on h) t = ktcb_zero.
Proof. intros. cbn. by rewrite !upd_ne by congruence. Qed.
Ltac demo_cases t :=
  demo_task_cases t; [..|rewrite (demo_other _ t) by done].

Lemma demo_rq_inv h : rq_inv (demo_on h).
Proof.
  assert (forall q, q <> 0 -> rq_list (rq_at (demo_on h) q) = [] /\ total (rq_at (demo_on h) q) = 0) as Hq.
  { intros q Hq. unfold rq_at. cbn. by rewrite upd_ne by congruence. }
  split.
  - intros t q. destruct (decide (q = 0)) as [->|Hne].
    + change (rq_list (rq_at (demo_on h) 0)) with [16; 32]. demo_cases t; cbn; set_solver.
    + destruct (Hq q Hne) as [-> _]. demo_cases t; cbn; set_solver.
  - intros q. destruct (decide (q = 0)) as [->|Hne].
    + apply (bool_decide_unpack _). by vm_compute.
    + destruct (Hq q Hne) as [-> _]. constructor.
  - intros q. destruct (decide (q = 0)) as [->|Hne]; [done|]. by destruct (Hq q Hne) as [-> ->].
  - intros t q. demo_cases t; cbn; naive_solver lia.
  - by left.
Qed.

Lemma demo_wq_inv h0 : wq_inv (demo_on h0).
Proof.
  assert (forall h, h <> h0 -> wqhs (demo_on h0) h = MkWqh 0 []) as Hh.
  { intros h Hne. cbn. by rewrite upd_ne by congruence. }
  assert (wqhs (demo_on h0) h0 = MkWqh 1 [48]) as H0 by (cbn; by rewrite upd_eq).
  split.
  - intros t h. destruct (decide (h = h0)) as [->|Hne].
    + rewrite H0. demo_cases t; cbn; set_solver.
    + rewrite Hh by done. demo_cases t; cbn; set_solver.
  - intros h. destruct (decide (h = h0)) as [->|Hne]; [|rewrite Hh by done; constructor].
    rewrite H0. apply NoDup_singleton.
  - intros h. destruct (decide (h = h0)) as [->|Hne]; [by rewrite H0|by rewrite Hh].
  - intros t h. demo_cases t; cbn; naive_solver.
Qed.

Lemma demo_on_inv h : sched_inv (demo_on h).
Proof.
  split; [exact (demo_rq_inv h)|exact (demo_wq_inv h)|..].
  - intros t _. demo_cases t; cbn; (done || by intros []).
  - intros t _. demo_cases t; cbn; naive_solver.
  - intros t _. demo_cases t; cbn; (done || (split; [by intros []|done]) || (split; [done|by eexists])).
  - intros t. unfold task_ok, TASK_PRIO_TOTAL, CONFIG_SCHED_TICKS.
    demo_cases t; cbn; intros [?|[?|?]]; first [done|split_and!; first [lia|done]].
  - intros _. split; [done|by intros []].
  - done.
  - done.
Qed.

Lemma demo_sched_inv : sched_inv demo.
Proof. apply demo_on_inv. Qed.

Lemma demo_may_schedule : may_schedule demo.
Proof. split; [done|by left]. Qed.
Lemma demo_quiet : quiet demo.
Proof. by split. Qed.
Lemma demo_calm : calm demo.
Proof.
  split; try done; [exact demo_sched_inv|].
  intros u. unfold demo. demo_cases u; done.
Qed.
