(* ===== verification/SchedThms.v ===== *)
(** The scheduler's theorems: [schedule] never reaches a [BUG()] and leaves a
    consistent system with interrupts on; its choice is the round robin of two
    queues; no queued task starves. *)
From stdpp Require Import relations.
From S2P Require Import Prelude Defs Kernel Exec Sched SchedInv SchedOps Schedule Fairness Demo.

(** C1: from a consistent system, [schedule] called in process context or from
    an interrupt that hit one reaches none of its [BUG()]s: it switches, with
    interrupts on and preemption counts balanced, to a task whose slice is
    positive and at most [CONFIG_SCHED_TICKS], in a consistent system; and
    returns when it is switched back to.  The task is runnable, unless an
    interrupt found nothing runnable: then it is the interrupted task, and both
    queues are empty. *)
Theorem schedule_switches_safely (s : kstate) (Hs : sched_inv s) (Hm : may_schedule s) :
  exists s', schedule s = Switch s' (fun s'' => Ret tt s'')
    /\ sched_inv s' /\ runs s' /\ runs_rightly (in_irq_context s) (current s) s'
    /\ irqs_on s' = true /\ voluntary_preempt s' = 0 /\ irq_nest_count s' = 0.
Proof.
  exists (schedule_spec s). destruct (schedule_ends s Hs Hm) as (? & ? & ? & ? & ?).
  split_and!; try done; [by apply schedule_run|by apply schedule_runnable].
Qed.
Lemma schedule_switches_safely_witness :
  exists s', schedule demo = Switch s' (fun s'' => Ret tt s'')
    /\ sched_inv s' /\ runs s' /\ runs_rightly (in_irq_context demo) (current demo) s'
    /\ irqs_on s' = true /\ voluntary_preempt s' = 0 /\ irq_nest_count s' = 0.
Proof. exact (schedule_switches_safely demo demo_sched_inv demo_may_schedule). Defined.

(** C2: when no signal is pending for the current task, it has not exited, and
    the idle task is not asked for, the switch is one step of a round robin over
    two queues: a runnable current task goes to the tail of its queue, or of the
    expired queue when its slice is used up; the head of the runnable queue runs,
    or of the expired one with the two swapped, or the idle task; and only the
    chosen task's slice is refilled, in proportion to its priority, when it was
    used up. *)
Theorem schedule_is_round_robin (s s' : kstate) k
    (Hs : sched_inv s) (Hm : may_schedule s) (Hq : quiet s) (E : schedule s = Switch s' k) :
  let cur := tcbs s (current s) in
  (current s', (run_queue s', exp_queue s'))
    = round_robin (in_irq_context s) (idle s) (current s) (bool_decide (state cur = TASK_RUNNABLE))
        (ticks_left cur =? 0) (run_queue s, exp_queue s)
  /\ forall u, ticks_left (tcbs s' u)
       = if (ticks_left (tcbs s u) =? 0) && bool_decide (u = current s')
         then slice (priority (tcbs s u)) else ticks_left (tcbs s u).
Proof.
  rewrite schedule_run in E by done. injection E as <- _. split.
  - apply (schedule_round_robin s Hs Hm Hq).
  - intros u. rewrite (schedule_ticks s u Hq), (si_prio _ _ Hs). reflexivity.
Qed.
Lemma schedule_is_round_robin_witness :
  exists s', (current s', (run_queue s', exp_queue s')) = (32, ([32; 16], []))
             /\ ticks_left (tcbs s' 32) = slice 4 /\ ticks_left (tcbs s' 16) = 5.
Proof.
  exists (schedule_spec demo).
  pose proof (schedule_is_round_robin demo (schedule_spec demo) _ demo_sched_inv demo_may_schedule demo_quiet
    (schedule_run demo demo_sched_inv demo_may_schedule)) as [H1 H2].
  cbv zeta in H1, H2. change (round_robin _ _ _ _ _ _) with (32, ([32; 16], @nil Z)) in H1.
  split; [exact H1|]. apply (f_equal fst) in H1. cbn [fst] in H1. rewrite !H2, H1. split; reflexivity.
Defined.


(** Turns can always be taken: a calm system never gets stuck. *)
Lemma turns_exist N s : calm s -> exists s', nsteps turn N s s'.
Proof.
  revert s. induction N as [|N IH]; intros s Hc; [by eexists; constructor|].
  pose proof (calm_slice s Hc) as Hp. assert (0 <= 0 < ticks_left (tcbs s (current s))) as Hn by lia.
  destruct (IH _ (turn_calm s Hc 0 true Hn)) as [s' Hs']. exists s'. econstructor; [|exact Hs'].
  econstructor; [exact Hn|apply (turn_run s Hc 0 true Hn)].
Qed.
