(* ===== verification/Waiting.v ===== *)
(** Waiting and waking: the contract of [schedule] and of the wait queues that
    the rest of the kernel relies on, and the theorems of [src/lib/wait.c].

    [steady i] is what a thread in process context leaves behind when it gives
    up the processor and finds again when it gets it back. *)
From S2P Require Import Prelude Defs Kernel Exec Sched SchedInv SchedOps Schedule Fairness Demo.

(** * The contract of [schedule] *)

Record steady (i : Z) (s : kstate) : Prop := {
  st_inv : sched_inv s;
  st_vol : voluntary_preempt s = 0;
  st_nest : irq_nest_count s = 0;
  st_idle : idle s = i;
  st_state : state (tcbs s (current s)) = TASK_RUNNABLE }.

Lemma select_state s :
  mid s -> let '(next, s') := select false s in state (tcbs s' next) = TASK_RUNNABLE.
Proof.
  intros Hm. pose proof (select_ok false s Hm) as Hsel. destruct (select false s) as [next s'].
  destruct Hsel as (Hm' & Hch & _). destruct Hch as [->|l E|?]; [apply (mid_state _ Hm')| |done].
  pose proof (mid_inv _ Hm') as Hi.
  assert (rq (tcbs s' next) = Some (rq_runnable (sched s'))) as Hq by (apply (si_rq _ _ Hi); rewrite E; left).
  apply (si_queued _ _ Hi); [|by eexists]. intros [= ->]. pose proof (mid_rq _ Hm'). congruence.
Qed.

Lemma finish_state s :
  mid s -> state (tcbs (finish false s) (current (finish false s))) = TASK_RUNNABLE.
Proof.
  intros Hm. pose proof (select_state s Hm) as Hst. unfold finish. destruct (select false s) as [next s2].
  destruct (switch_fields next (with_preempt Z.pred (with_irqs false (prepare next s2)))) as (-> & -> & _).
  change (tcbs (with_preempt _ (with_irqs _ ?x))) with (tcbs x). by rewrite (prepare_keeps state).
Qed.

Lemma schedule_steady s :
  sched_inv s -> voluntary_preempt s = 0 -> irq_nest_count s = 0 -> steady (idle s) (schedule_spec s).
Proof.
  intros Hs Hv Hn. assert (may_schedule s) as Hm by (split; [done|by left]).
  destruct (schedule_ends s Hs Hm) as (H1 & _ & _ & H2 & H3).
  assert (in_irq_context s = false) as Hirq by (unfold in_irq_context; by rewrite Hv, Hn).
  pose proof (front_mid _ (sinv_preempt _ Z.succ s Hs)) as Hmid.
  split; [done|done|done| |]; unfold schedule_spec; rewrite Hirq.
  - destruct (finish_sched false (front (with_preempt Z.succ s))) as [_ ->].
    by destruct (keeps_front (with_preempt Z.succ s)) as (_ & -> & _).
  - by apply finish_state.
Qed.

Lemma schedule_osafe s :
  sched_inv s -> voluntary_preempt s = 0 -> irq_nest_count s = 0 ->
  osafe (steady (idle s)) (current s) (fun _ s' => steady (idle s) s' /\ current s' = current s) (schedule s).
Proof.
  intros Hs Hv Hn. rewrite schedule_run; [|done|split; [done|by left]].
  constructor; [by apply schedule_steady|]. intros s' H1 H2. by constructor.
Qed.

(** * Going to sleep *)

Lemma deq_wq_enter t q h s :
  with_irqs (irqs_on s) (fall_asleep t q (wq_enter t h (with_irqs false s))) = fall_asleep t q (wq_enter t h s).
Proof. unfold fall_asleep, deq, unlink_rq, set_state, wq_enter. frame_eq. Qed.

Lemma wq_enter_rq t h s u : rq (tcbs (wq_enter t h s) u) = rq (tcbs s u).
Proof. cbn. by rewrite !(upd_same rq) by (rewrite ?upd_eq; done). Qed.

Lemma asleep_inv h s q :
  sched_inv s -> rq (tcbs s (current s)) = Some q -> current s <> idle s ->
  sched_inv (fall_asleep (current s) q (wq_enter (current s) h s)).
Proof.
  intros Hs Hq Hne. set (cur := current s) in *.
  assert (state (tcbs s cur) = TASK_RUNNABLE) as Hst by (apply (si_queued _ _ Hs); [done|by eexists]).
  assert (waiting_on (tcbs s cur) = None) as Hw.
  { destruct (waiting_on _) eqn:E; [|done]. destruct (waiting_facts _ _ _ Hs E). congruence. }
  assert (task_ok cur (tcbs s cur)) as Hok by (apply (si_ok _ _ Hs); by right; left).
  apply (sinv_close cur).
  - unfold fall_asleep, set_state. apply sinv_tcb; try done; [|by left|].
    + apply sinv_deq; [apply sinv_enter; [by apply sinv_open|done]|]. by rewrite wq_enter_rq.
    + intros _. cbn. by rewrite !upd_eq.
  - unfold settled, fall_asleep. cbn. rewrite !upd_eq. cbn. split_and!; [by eexists|done|done].
Qed.

(** The current task asleep on [h]. *)
Definition asleep_on (h : wqh_ref) (q : Z) (s : kstate) : kstate :=
  fall_asleep (current s) q (wq_enter (current s) h s).

Lemma running_queue s : sched_inv s -> state (tcbs s (current s)) = TASK_RUNNABLE ->
  exists q, rq (tcbs s (current s)) = Some q.
Proof. intros Hs Hst. destruct (si_runnable _ _ Hs (current s)) as [[q Hq]|[_ ?]]; [done|done|by exists q|done]. Qed.

Lemma wait_on_run h s q :
  sched_inv s -> rq (tcbs s (current s)) = Some q ->
  wait_on h s = obind (schedule (asleep_on h q s)) (fun _ => check_interrupted).
Proof.
  intros Hs Hq. exec wait_on wq_enqueue task_set_wqh.
  match goal with |- obind (sched_prepare_sleep ?x) _ = _ =>
    replace x with (wq_enter (current s) h (with_irqs false s)) by (unfold wq_enter; frame_eq) end.
  rewrite (sched_prepare_sleep_run _ q).
  - cbn [obind]. change (current (wq_enter (current s) h (with_irqs false s))) with (current s).
    unfold asleep_on. by rewrite deq_wq_enter.
  - apply (rq_inv_ext (wq_enter (current s) h s)); [done|done|]. repeat apply rq_inv_tcb; try done. by apply (rq_inv_ext s), Hs.
  - change (current (wq_enter (current s) h (with_irqs false s))) with (current s).
    rewrite wq_enter_rq. exact Hq.
Qed.

(** What [check_interrupted] does. *)
Definition interrupted (s : kstate) : bool := flag_set (flags (tcbs s (current s))) TASK_INTERRUPTED.
Definition uninterrupt (s : kstate) : kstate :=
  if interrupted s then with_tcb (current s) (clear_flag TASK_INTERRUPTED) s else s.
Lemma check_interrupted_run s :
  check_interrupted s = Ret (if interrupted s then - EINTR else 0) (uninterrupt s).
Proof. exec check_interrupted. unfold uninterrupt, interrupted. by destruct (flag_set _ _). Qed.

Lemma steady_uninterrupt i s : steady i s -> steady i (uninterrupt s) /\ current (uninterrupt s) = current s.
Proof.
  intros [H1 H2 H3 H4 H5]. unfold uninterrupt. destruct (interrupted s); [|done].
  split; [|done]. split; try done; [by apply sinv_clear_flag|]. cbn. by rewrite upd_eq.
Qed.

Lemma wait_on_osafe h i s :
  steady i s -> current s <> i ->
  osafe (steady i) (current s)
    (fun r s' => steady i s' /\ current s' = current s /\ (r = 0 \/ r = - EINTR)) (wait_on h s).
Proof.
  intros [Hs Hv Hn Hi Hst] Hne. destruct (running_queue s Hs Hst) as [q Hq]. rewrite (wait_on_run h s q Hs Hq).
  subst i. assert (sched_inv (asleep_on h q s)) as Ha by by apply asleep_inv.
  apply (osafe_bind _ _ (fun _ s' => steady (idle s) s' /\ current s' = current s)); [by apply (schedule_osafe (asleep_on h q s))|].
  intros [] s' [H1 H2]. rewrite check_interrupted_run. destruct (steady_uninterrupt _ _ H1) as [H3 H4].
  constructor. split_and!; [done|congruence|]. destruct (interrupted s'); [by right|by left].
Qed.

(** * What a quiet [schedule] leaves alone *)

Lemma schedule_field {A} (g : ktcb -> A) s u :
  quiet s ->
  (forall k fl, g (k <| flags := fl |>) = g k) -> (forall k n, g (k <| ticks_left := n |>) = g k) ->
  (forall k n, g (k <| ticks_assigned := n |>) = g k) -> (forall k n, g (k <| sched_granule := n |>) = g k) ->
  (forall k q, g (k <| rq := q |>) = g k) -> (forall k n, g (k <| ts_need_resched := n |>) = g k) ->
  g (tcbs (schedule_spec s) u) = g (tcbs s u).
Proof.
  intros Hq H1 H2 H3 H4 H5 H6. unfold schedule_spec.
  destruct (finish_tcbs (in_irq_context s) (front (with_preempt Z.succ s))) as (next & s2 & _ & Ht & _ & _ & -> & _).
  rewrite (prepare_keeps g) by (intros; auto). rewrite Ht, quiet_front by done.
  rewrite (requeue_tcb g) by done. cbn. by rewrite (upd_same g).
Qed.
Lemma finish_wqhs irq s : wqhs (finish irq s) = wqhs s.
Proof.
  unfold finish. assert (wqhs (snd (select irq s)) = wqhs s) as H by (unfold select; by repeat case_match).
  destruct (select irq s) as [next s2].
  destruct (switch_fields next (with_preempt Z.pred (with_irqs false (prepare next s2)))) as (_ & _ & -> & _).
  change (wqhs (with_preempt _ (with_irqs _ ?x))) with (wqhs x). cbn in H. rewrite <- H.
  unfold prepare, queue_idle, refill, clear_resuming.
  by repeat match goal with |- context [if ?b then _ else _] => destruct b end.
Qed.
Lemma schedule_wqhs s : quiet s -> wqhs (schedule_spec s) = wqhs s.
Proof.
  intros Hq. unfold schedule_spec. rewrite finish_wqhs, quiet_front by done.
  unfold requeue. destruct (state _); try done. destruct (rq _); [|done]. by destruct (is_idle_task _ _).
Qed.

(** The part of the state that scheduling does not touch. *)
Definition store (s : kstate) :=
  (mutexes s, sysctx s, mqs s, conts s, spaces s, caches s, capmem s, caplists s, pgds s, pmds s, pmem s).
Lemma finish_store irq s : store (finish irq s) = store s.
Proof.
  unfold finish. assert (store (snd (select irq s)) = store s) as H by (unfold select; by repeat case_match).
  destruct (select irq s) as [next s2]. cbn [snd] in H. rewrite <- H.
  unfold switch_to, prepare, queue_idle, refill, clear_resuming.
  by repeat match goal with |- context [if ?b then _ else _] => destruct b end.
Qed.
Lemma schedule_store s : quiet s -> store (schedule_spec s) = store s.
Proof.
  intros Hq. unfold schedule_spec. rewrite finish_store, quiet_front by done.
  unfold requeue. destruct (state _); try done. destruct (rq _); [|done]. by destruct (is_idle_task _ _).
Qed.
Lemma schedule_mutexes s : quiet s -> mutexes (schedule_spec s) = mutexes s.
Proof. intros Hq. pose proof (schedule_store s Hq) as E. unfold store in E. congruence. Qed.

Lemma asleep_quiet h q s : quiet s -> quiet (asleep_on h q s).
Proof.
  intros [H1 H2 H3]. assert (flags (tcbs (asleep_on h q s) (current s)) = flags (tcbs s (current s))) as E.
  { unfold asleep_on, fall_asleep. cbn. by rewrite !upd_eq. }
  split; change (current (asleep_on h q s)) with (current s); by rewrite ?E.
Qed.

(** [wait_on] from process context puts the current task at the tail of the
    wait queue, asleep, and runs another task; interrupts and preemption are
    left as they must be.  When the task is run again the call returns 0, or
    [-EINTR] when the task was interrupted, whose flag it clears. *)
Theorem wait_on_sleeps (h : wqh_ref) (i : Z) (s : kstate)
    (Hs : steady i s) (Hi : current s <> i) (Hq : quiet s) :
  exists s1 k, wait_on h s = Switch s1 k /\ steady i s1
    /\ task_list (wqhs s1 h) = task_list (wqhs s h) ++ [current s]
    /\ state (tcbs s1 (current s)) = TASK_SLEEPING /\ current s1 <> current s
    /\ forall s2, current s2 = current s ->
         k s2 = Ret (if interrupted s2 then - EINTR else 0) (uninterrupt s2).
Proof.
  destruct Hs as [Hs Hv Hn Hid Hst]. subst i. destruct (running_queue s Hs Hst) as [q Hrq].
  pose proof (asleep_inv h s q Hs Hrq Hi) as Ha. fold (asleep_on h q s) in Ha.
  pose proof (asleep_quiet h q s Hq) as Hqa. pose proof (schedule_steady _ Ha Hv Hn) as Hst'.
  assert (state (tcbs (schedule_spec (asleep_on h q s)) (current s)) = TASK_SLEEPING) as Hsl.
  { rewrite (schedule_field state) by done. unfold asleep_on, fall_asleep. cbn. by rewrite !upd_eq. }
  exists (schedule_spec (asleep_on h q s)). eexists. split_and!; [|exact Hst'| |exact Hsl| |].
  - rewrite (wait_on_run h s q Hs Hrq), schedule_run by (done || (split; [done|by left])). reflexivity.
  - rewrite schedule_wqhs by done. unfold asleep_on, fall_asleep. cbn. by rewrite !upd_eq.
  - intros E. pose proof (st_state _ _ Hst') as Hr. rewrite E in Hr. congruence.
  - intros s2 _. cbn [obind]. apply check_interrupted_run.
Qed.

Lemma demo_steady : steady 64 demo.
Proof. split; [exact demo_sched_inv|done..]. Qed.
Lemma wait_on_sleeps_witness :
  exists s1 k, wait_on (WQ_SEND 16) demo = Switch s1 k /\ steady 64 s1
    /\ task_list (wqhs s1 (WQ_SEND 16)) = [48; 16]
    /\ state (tcbs s1 16) = TASK_SLEEPING /\ current s1 <> 16
    /\ forall s2, current s2 = 16 -> k s2 = Ret (if interrupted s2 then - EINTR else 0) (uninterrupt s2).
Proof. exact (wait_on_sleeps (WQ_SEND 16) 64 demo demo_steady ltac:(by vm_compute) demo_quiet). Defined.

(** * Waking *)

(** What waking [t] out of [h] does to the queues. *)
Lemma woken_facts fl t h s :
  sched_inv s -> waiting_on (tcbs s t) = Some h ->
  let s' := woken fl t h s in
  sched_inv s' /\ run_queue s' = t :: run_queue s /\ exp_queue s' = exp_queue s
  /\ state (tcbs s' t) = TASK_RUNNABLE /\ waiting_on (tcbs s' t) = None
  /\ flags (tcbs s' t) = (if flag_set fl WAKEUP_INTERRUPT then Z.lor (flags (tcbs s t)) TASK_INTERRUPTED else flags (tcbs s t))
  /\ (forall h', task_list (wqhs s' h') = if decide (h = h') then list_del t (task_list (wqhs s h')) else task_list (wqhs s h'))
  /\ irqs_on s' = irqs_on s /\ current s' = current s.
Proof.
  intros Hs Hw s'. pose proof (sel_ne s (si_rq _ _ Hs)) as Hne. split; [by apply sched_inv_woken|].
  set (s1 := interrupt fl t (wq_leave t h s)).
  assert (sched s1 = sched s /\ irqs_on s1 = irqs_on s /\ current s1 = current s /\ wqhs s1 = wqhs (wq_leave t h s))
    as (E1 & E2 & E3 & E4) by (unfold s1, interrupt; by destruct (flag_set _ _)).
  assert (waiting_on (tcbs s1 t) = None) as Hw1.
  { apply interrupt_tcb; [done|]. cbn. by rewrite !upd_eq. }
  assert (flags (tcbs s1 t) = if flag_set fl WAKEUP_INTERRUPT then Z.lor (flags (tcbs s t)) TASK_INTERRUPTED
                               else flags (tcbs s t)) as Hf1.
  { unfold s1, interrupt. destruct (flag_set _ _); cbn; by rewrite !upd_eq. }
  pose proof (queues_enq t (rq_runnable (sched s1)) true (set_state t TASK_RUNNABLE s1)) as Hqs.
  fold s1 in s'. change (enq t (rq_runnable (sched s1)) true (set_state t TASK_RUNNABLE s1)) with s' in Hqs.
  change (sched (set_state t TASK_RUNNABLE s1)) with (sched s1) in Hqs.
  change (run_queue (set_state t TASK_RUNNABLE s1)) with (run_queue s1) in Hqs.
  change (exp_queue (set_state t TASK_RUNNABLE s1)) with (exp_queue s1) in Hqs.
  rewrite decide_True, decide_False in Hqs by (rewrite ?E1; done). unfold queues in Hqs. injection Hqs as Hr He.
  assert (run_queue s1 = run_queue s /\ exp_queue s1 = exp_queue s) as [Hr1 He1].
  { unfold run_queue, exp_queue, rq_at. by rewrite E1. }
  assert (tcbs s' t = tcbs s1 t <| state := TASK_RUNNABLE |> <| rq := Some (rq_runnable (sched s1)) |>) as Ht.
  { unfold s', woken, resume. fold s1. cbn. by rewrite !upd_eq. }
  split_and!; [congruence|congruence|by rewrite Ht|by rewrite Ht|by rewrite Ht| |exact E2|exact E3].
  intros h'. change (wqhs s') with (wqhs s1). rewrite E4. apply wq_leave_list.
Qed.

(** [wake_up] without [WAKEUP_SYNC] wakes exactly the task that has waited
    longest, and nothing happens on an empty queue.  The task leaves the wait
    queue, is runnable at the head of the run queue, and is marked interrupted
    exactly when [WAKEUP_INTERRUPT] is given; interrupts are as before. *)
Theorem wake_up_wakes_the_first (h : wqh_ref) (fl : Z) (s : kstate)
    (Hs : sched_inv s) (Hf : flag_set fl WAKEUP_SYNC = false) :
  match task_list (wqhs s h) with
  | [] => wake_up sched_resume_sync h fl s = Ret tt s
  | t :: l => exists s', wake_up sched_resume_sync h fl s = Ret tt s'
      /\ sched_inv s' /\ task_list (wqhs s' h) = l /\ run_queue s' = t :: run_queue s
      /\ exp_queue s' = exp_queue s /\ state (tcbs s' t) = TASK_RUNNABLE /\ irqs_on s' = irqs_on s
      /\ flags (tcbs s' t) = (if flag_set fl WAKEUP_INTERRUPT then Z.lor (flags (tcbs s t)) TASK_INTERRUPTED
                              else flags (tcbs s t))
  end.
Proof.
  destruct (wake_up_async sched_resume_sync h fl s Hs Hf) as [H _].
  destruct (task_list (wqhs s h)) as [|t l] eqn:E; [done|]. exists (woken fl t h s). split; [done|].
  assert (waiting_on (tcbs s t) = Some h) as Hw by (apply (si_wq _ _ Hs); rewrite E; left).
  destruct (woken_facts fl t h s Hs Hw) as (H1 & H2 & H3 & H4 & _ & H5 & H6 & H7 & _).
  split_and!; try done. rewrite H6, decide_True, E by done. apply list_del_head. rewrite <- E. apply (si_wq _ _ Hs).
Qed.
Lemma wake_up_wakes_the_first_witness :
  exists s', wake_up sched_resume_sync (WQ_SEND 16) WAKEUP_INTERRUPT demo = Ret tt s'
    /\ sched_inv s' /\ task_list (wqhs s' (WQ_SEND 16)) = [] /\ run_queue s' = 48 :: [16; 32]
    /\ exp_queue s' = [] /\ state (tcbs s' 48) = TASK_RUNNABLE /\ irqs_on s' = true
    /\ flags (tcbs s' 48) = 1.
Proof. exact (wake_up_wakes_the_first (WQ_SEND 16) WAKEUP_INTERRUPT demo demo_sched_inv eq_refl). Defined.

(** One round of [wake_up_all]. *)
Lemma wqh_tcb h g t f s : with_wqh h g (with_tcb t f s) = with_tcb t f (with_wqh h g s).
Proof. reflexivity. Qed.
Lemma wake_up_all_round rs fl h s t l b fuel :
  sched_inv s -> flag_set fl WAKEUP_SYNC = false -> task_list (wqhs s h) = t :: l ->
  wake_up_all_loop rs (S fuel) h fl b (with_irqs false s)
  = wake_up_all_loop rs fuel h fl b (with_irqs false (woken fl t h s)).
Proof.
  intros Hs Hf E. pose proof (si_wq _ _ Hs) as [Hm _ Hl _].
  assert (waiting_on (tcbs s t) = Some h) as Hw by (apply Hm; rewrite E; left).
  cbn [wake_up_all_loop]. exec task_unset_wqh. change (wqhs (with_irqs false s)) with (wqhs s). rewrite Hl, E.
  replace (0 <? Z.of_nat (length (t :: l))) with true by (symmetry; apply Z.ltb_lt; cbn; lia).
  unfold first_sleeper. change (wqhs (with_irqs false s)) with (wqhs s). rewrite E. cbn [head obind].
  first_returns (with_irqs false (interrupt fl t (wq_leave t h s))).
  { unfold interrupt. destruct (flag_set fl WAKEUP_INTERRUPT); f_equal; unfold wq_leave;
      autorewrite with frame; by rewrite ?wqh_tcb. }
  rewrite irqs_irqs.
  destruct (sinv_left fl t h s Hs Hw) as (H1 & H2 & _). unfold resume_with. rewrite Hf.
  rewrite sched_resume_async_run; [| |done].
  2:{ by apply (rq_inv_ext (interrupt fl t (wq_leave t h s))), H1. }
  cbn [obind]. reflexivity.
Qed.

Lemma wake_up_all_loop_run rs fl h l : forall fuel b s,
  sched_inv s -> flag_set fl WAKEUP_SYNC = false -> task_list (wqhs s h) = l -> (length l <= fuel)%nat ->
  exists s', wake_up_all_loop rs fuel h fl b (with_irqs false s) = Ret tt (with_irqs b s')
    /\ sched_inv s' /\ task_list (wqhs s' h) = [] /\ run_queue s' = rev l ++ run_queue s /\ exp_queue s' = exp_queue s
    /\ current s' = current s
    /\ (forall u, u ∈ l -> state (tcbs s' u) = TASK_RUNNABLE).
Proof.
  induction l as [|t l IH]; intros fuel b s Hs Hf E Hl.
  - exists s. split_and!; try done; [|intros u Hu; by apply elem_of_nil in Hu].
    pose proof (wqi_sleepers _ (si_wq _ _ Hs) h) as Hsl. rewrite E in Hsl.
    destruct fuel; cbn [wake_up_all_loop]; exec; change (wqhs (with_irqs false s)) with (wqhs s); by rewrite Hsl.
  - destruct fuel as [|fuel]; [cbn in Hl; lia|]. rewrite (wake_up_all_round rs fl h s t l b fuel Hs Hf E).
    assert (waiting_on (tcbs s t) = Some h) as Hw by (apply (si_wq _ _ Hs); rewrite E; left).
    destruct (woken_facts fl t h s Hs Hw) as (H1 & H2 & H3 & H4 & _ & _ & H6 & _ & H8).
    destruct (IH fuel b (woken fl t h s)) as (s' & G1 & G2 & G3 & G4 & G5 & G6 & G7); [done|done| |cbn in Hl; lia|].
    { rewrite H6, decide_True, E by done. apply list_del_head. rewrite <- E. apply (si_wq _ _ Hs). }
    exists s'. split_and!; [done|done|done| |congruence|congruence|].
    + rewrite G4, H2. cbn [rev]. by rewrite <- app_assoc.
    + intros u Hu. destruct (decide (u ∈ l)); [by apply G7|]. assert (u = t) as -> by set_solver.
      apply (si_queued _ _ G2); [done|]. exists (rq_runnable (sched s')). apply (si_rq _ _ G2). fold (run_queue s').
      rewrite G4, H2. set_solver.
Qed.

(** C11: [wake_up_all] without [WAKEUP_SYNC] terminates, after as many rounds as
    there are sleepers, and wakes every one of them, the last of them to the head
    of the run queue; the wait queue is empty then and interrupts are restored. *)
Theorem wake_up_all_wakes_everyone (h : wqh_ref) (fl : Z) (fuel : nat) (s : kstate)
    (Hs : sched_inv s) (Hf : flag_set fl WAKEUP_SYNC = false)
    (Hfuel : (length (task_list (wqhs s h)) <= fuel)%nat) :
  exists s', wake_up_all sched_resume_sync fuel h fl s = Ret tt s'
    /\ sched_inv s' /\ irqs_on s' = irqs_on s /\ task_list (wqhs s' h) = []
    /\ run_queue s' = rev (task_list (wqhs s h)) ++ run_queue s /\ exp_queue s' = exp_queue s
    /\ forall t, t ∈ task_list (wqhs s h) -> state (tcbs s' t) = TASK_RUNNABLE.
Proof.
  destruct (wake_up_all_loop_run sched_resume_sync fl h _ fuel (irqs_on s) s Hs Hf eq_refl Hfuel)
    as (s' & H1 & H2 & H3 & H4 & H5 & _ & H7).
  exists (with_irqs (irqs_on s) s'). split_and!; try done; [|by apply (sinv_ext None s')].
  exec wake_up_all. change (wqhs (with_irqs false s)) with (wqhs s).
  rewrite (wqi_sleepers _ (si_wq _ _ Hs) h). rewrite (proj2 (Z.ltb_ge _ 0)) by lia. cbn [obind]. exact H1.
Qed.
Lemma wake_up_all_wakes_everyone_witness :
  exists s', wake_up_all sched_resume_sync 1 (WQ_SEND 16) 0 demo = Ret tt s'
    /\ sched_inv s' /\ irqs_on s' = true /\ task_list (wqhs s' (WQ_SEND 16)) = []
    /\ run_queue s' = [48; 16; 32] /\ exp_queue s' = []
    /\ forall t, t ∈ [48] -> state (tcbs s' t) = TASK_RUNNABLE.
Proof. exact (wake_up_all_wakes_everyone (WQ_SEND 16) 0 1 demo demo_sched_inv eq_refl ltac:(by vm_compute)). Defined.

(** [wake_up_task] wakes the given task from whatever queue it waits in, or
    returns -1 and changes nothing.  Releasing its two locks in the order it took
    them, it restores the second saved interrupt state last: after a wake-up
    interrupts are disabled, whatever they were. *)
Theorem wake_up_task_disables_interrupts (t fl : Z) (s : kstate)
    (Hs : sched_inv s) (Hf : flag_set fl WAKEUP_SYNC = false) :
  match waiting_on (tcbs s t) with
  | None => wake_up_task sched_resume_sync t fl s = Ret (-1) s
  | Some h => exists s', wake_up_task sched_resume_sync t fl s = Ret 0 s'
      /\ sched_inv s' /\ task_list (wqhs s' h) = list_del t (task_list (wqhs s h))
      /\ run_queue s' = t :: run_queue s /\ state (tcbs s' t) = TASK_RUNNABLE
      /\ irqs_on s' = false
  end.
Proof.
  pose proof (wake_up_task_async sched_resume_sync t fl s Hs Hf) as H.
  destruct (waiting_on (tcbs s t)) as [h|] eqn:Hw; [|done]. destruct H as [H1 H2].
  destruct (woken_facts fl t h s Hs Hw) as (G1 & G2 & G3 & G4 & _ & _ & G6 & _).
  exists (with_irqs false (woken fl t h s)). split_and!; try done.
  change (wqhs (with_irqs false ?x)) with (wqhs x). rewrite G6. by rewrite decide_True.
Qed.
Lemma wake_up_task_disables_interrupts_witness :
  irqs_on demo = true /\ exists s', wake_up_task sched_resume_sync 48 WAKEUP_INTERRUPT demo = Ret 0 s'
      /\ sched_inv s' /\ task_list (wqhs s' (WQ_SEND 16)) = []
      /\ run_queue s' = [48; 16; 32] /\ state (tcbs s' 48) = TASK_RUNNABLE
      /\ irqs_on s' = false.
Proof.
  split; [reflexivity|].
  exact (wake_up_task_disables_interrupts 48 WAKEUP_INTERRUPT demo demo_sched_inv eq_refl).
Defined.
