(* ===== verification/Alloc.v ===== *)
(** Sleeping mutexes, memory caches and capability-accounted allocation:
    [src/lib/mutex.c] with the ARMv5 [src/arch/arm/v5/mutex.c],
    [src/lib/memcache.c], and from [src/generic/capability.c] and
    [src/generic/resource.c] the capability accounting and the
    [*_cap_alloc]/[*_cap_free] functions. *)
From S2P Require Import Prelude Defs Bits Kernel Sched.

(** * Mutexes *)

Definition MUTEX_UNLOCKED := 0.
Definition MUTEX_LOCKED := 1.

(** [swp]: store the new value and load the old one in one instruction. *)
Definition swp (m : mutex_ref) (v : Z) : K Z :=
  old ← gets (fun s => mutexes s m);
  modify (with_mutex m v) ;;
  mret old.
Definition __mutex_lock (m : mutex_ref) : K bool :=
  tmp2 ← swp m MUTEX_LOCKED; mret (tmp2 =? MUTEX_UNLOCKED).
Definition __mutex_unlock (m : mutex_ref) : K unit :=
  tmp ← swp m MUTEX_UNLOCKED; bug_on (negb (tmp =? MUTEX_LOCKED)) "__mutex_unlock".

Definition mutex_trylock (m : mutex_ref) : K bool :=
  spin_lock ;;
  success ← __mutex_lock m;
  when success (cur_mod (fun t => t <| nlocks ::= Z.succ |>)) ;;
  spin_unlock ;;
  mret success.

(** Each failed attempt sleeps; [fuel] bounds the failures. *)
Fixpoint mutex_lock (fuel : nat) (m : mutex_ref) : K Z :=
  spin_lock ;;
  got ← __mutex_lock m;
  if (got : bool) then
    cur_mod (fun t => t <| nlocks ::= Z.succ |>) ;;
    spin_unlock ;;
    mret 0
  else
    match fuel with
    | O => out_of_fuel
    | S fuel =>
        cur ← gets current;
        task_set_wqh cur (WQ_MUTEX m) cur ;;
        wq_enqueue (WQ_MUTEX m) cur ;;
        sched_prepare_sleep ;;
        spin_unlock ;;
        schedule ;;
        r ← check_interrupted;
        if r <? 0 then mret r else mutex_lock fuel m
    end.

Definition mutex_unlock_common (m : mutex_ref) (sync : bool) : K unit :=
  spin_lock ;;
  __mutex_unlock m ;;
  cur_mod (fun t => t <| nlocks ::= Z.pred |>) ;;
  BUG_ON (fun s => nlocks (tcbs s (current s)) <? 0) "mutex_unlock_common" ;;
  BUG_ON (fun s => sleepers (wqhs s (WQ_MUTEX m)) <? 0) "mutex_unlock_common" ;;
  n ← gets (fun s => sleepers (wqhs s (WQ_MUTEX m)));
  if 0 <? n then
    w ← gets (fun s => first_sleeper s (WQ_MUTEX m));
    match w with
    | None => bug "mutex_unlock_common"
    | Some sleeper =>
        task_unset_wqh sleeper ;;
        wmod (WQ_MUTEX m) (fun w => w <| task_list ::= list_del sleeper |>) ;;
        wmod (WQ_MUTEX m) (fun w => w <| sleepers ::= Z.pred |>) ;;
        spin_unlock ;;
        if sync then sched_resume_sync sleeper else sched_resume_async sleeper
    end
  else spin_unlock.
Definition mutex_unlock (m : mutex_ref) : K unit := mutex_unlock_common m true.
Definition mutex_unlock_async (m : mutex_ref) : K unit := mutex_unlock_common m false.

(** * Memory caches *)

Definition cache_put (c : cache_ref) (f : mem_cache -> mem_cache) : K unit :=
  modify (with_cache c f).

(** Address of the element behind a bitmap position, a 32-bit sum. *)
Definition cache_addr (c : mem_cache) (bit : Z) : Z := u32 (mc_start c + struct_size c * bit).

Section Cache.
(** Bound on the lock retries of one allocation or release. *)
Context (fuel : nat).

(** Returns an address, 0 when the cache is full, or an error pointer. *)
Definition mem_cache_alloc (c : cache_ref) : K Z :=
  mc ← gets (fun s => caches s c);
  if 0 <? mc_free mc then
    err ← mutex_lock fuel (MX_CACHE c);
    if err <? 0 then mret (PTR_ERR err)
    else
      cache_put c (fun m => m <| mc_free ::= Z.pred |>) ;;
      mc ← gets (fun s => caches s c);
      let '(bit, map) := find_and_set_first_free_bit (mc_bitmap mc) (mc_total mc) in
      cache_put c (fun m => m <| mc_bitmap := map |>) ;;
      bug_on (bit <? 0) "mem_cache_alloc" ;;
      mutex_unlock (MX_CACHE c) ;;
      mc ← gets (fun s => caches s c);
      mret (cache_addr mc bit)
  else mret 0.

(** [memset(elem, 0, cache->struct_size)]: the object at [elem] becomes zero.
    A null or error pointer is written through as well, which faults. *)
Definition zero_object (c : cache_ref) (elem : Z) : kstate -> kstate :=
  match c with
  | PGD_CACHE => fun s => s <| pgds ::= fun m => <[elem := fun _ => 0]> m |>
  | PMD_CACHE => fun s => s <| pmds ::= fun m => <[elem := fun _ => 0]> m |>
  | SPACE_CACHE => fun s =>
      s <| spaces ::= fun m => <[elem := MkSpace 0 0 0]> m |>
        <| caplists ::= fun m => <[CL_SPACE elem := MkCapList 0 []]> m |>
  | KTCB_CACHE => fun s =>
      s <| tcbs ::= fun m => <[elem := ktcb_zero]> m |>
        <| mutexes ::= fun m => <[MX_TCB elem := 0]> m |>
        <| wqhs ::= fun m => <[WQ_SEND elem := MkWqh 0 []]> (<[WQ_RECV elem := MkWqh 0 []]>
             (<[WQ_PAGER elem := MkWqh 0 []]> (<[WQ_MUTEX (MX_TCB elem) := MkWqh 0 []]> m))) |>
  | MUTEX_CACHE => fun s =>
      s <| mqs ::= fun m => <[elem := MkMq 0 0]> m |>
        <| wqhs ::= fun m => <[WQ_HOLDERS elem := MkWqh 0 []]>
             (<[WQ_CONTENDERS elem := MkWqh 0 []]> m) |>
  end.
Definition mem_cache_zalloc (c : cache_ref) : K Z :=
  elem ← mem_cache_alloc c;
  bug_on ((elem =? 0) || IS_ERR elem) "mem_cache_zalloc: memset of a null or error pointer" ;;
  modify (zero_object c elem) ;;
  mret elem.

Definition mem_cache_free (c : cache_ref) (struct_addr : Z) : K Z :=
  mc ← gets (fun s => caches s c);
  if (struct_addr <? mc_start mc) || (mc_end mc <? struct_addr) then mret (-1)
  else
    let bit := (struct_addr - mc_start mc) / struct_size mc in
    if negb (u32 (bit * struct_size mc + mc_start mc) =? struct_addr) then mret (-1)
    else
      err ← mutex_lock fuel (MX_CACHE c);
      if err <? 0 then mret err
      else
        mc ← gets (fun s => caches s c);
        let '(r, map) := check_and_clear_bit (mc_bitmap mc) bit in
        cache_put c (fun m => m <| mc_bitmap := map |>) ;;
        err ← (if r <? 0 then mret (-1)
               else cache_put c (fun m => m <| mc_free ::= Z.succ |>) ;;
                    mc ← gets (fun s => caches s c);
                    mret (if mc_total mc <? mc_free mc then -1 else 0));
        mutex_unlock (MX_CACHE c) ;;
        mret err.
End Cache.

(** * Capability accounting ([CONFIG_CAPABILITIES]) *)

Definition cap_type (c : capability) : Z := Z.land (ctype c) CAP_TYPE_MASK.
Definition cap_rtype (c : capability) : Z := Z.land (ctype c) CAP_RTYPE_MASK.

(** The sum and the comparison are unsigned 32-bit. *)
Definition capability_consume (cap quantity : Z) : K Z :=
  c ← gets (fun s => capmem s cap);
  if csize c <? u32 (used c + quantity) then mret (- ENOCAP)
  else capmod cap (fun c => c <| used ::= fun u => u32 (u + quantity) |>) ;; mret 0.

(** [used] is unsigned: the [BUG_ON(... < 0)] cannot fire and an excess release
    wraps around. *)
Definition capability_free (cap quantity : Z) : K Z :=
  capmod cap (fun c => c <| used ::= fun u => u32 (u - quantity) |>) ;;
  BUG_ON (fun s => used (capmem s cap) <? 0) "capability_free" ;;
  mret 0.

(** The first capability of a list that satisfies a test; 0 if none. *)
Fixpoint first_cap (s : kstate) (p : capability -> bool) (l : list Z) : Z :=
  match l with
  | [] => 0
  | c :: l => if p (capmem s c) then c else first_cap s p l
  end.

Definition cap_list_find_by_rtype (clist : cl_ref) (rtype : Z) : K Z :=
  gets (fun s => first_cap s (fun c => cap_rtype c =? rtype) (caps (caplists s clist))).

(** The task's space list is searched before its container's list. *)
Definition cap_find_by_rtype (task rtype : Z) : K Z :=
  gets (fun s =>
    let p := fun c => cap_rtype c =? rtype in
    let c := first_cap s p (caps (caplists s (CL_SPACE (space (tcbs s task))))) in
    if c =? 0 then first_cap s p (caps (caplists s (CL_CONT (container (tcbs s task))))) else c).

Definition cap_count (task : Z) : K Z :=
  gets (fun s => ncaps (caplists s (CL_SPACE (space (tcbs s task))))
                 + ncaps (caplists s (CL_CONT (container (tcbs s task))))).

Definition capability_init (cap : Z) : K unit :=
  id ← id_new CAPABILITY_IDS; capmod cap (fun c => c <| capid := id |>).

(** [cap_list_insert], and [cap_list_move] as established in file Links
    (theorem [cap_list_move_replaces]): the destination heads exactly the moved
    capabilities, rotated, and its count grows by their number. *)
Definition cap_list_insert (cap : Z) (clist : cl_ref) : K unit :=
  clmod clist (fun l => l <| caps ::= cons cap |> <| ncaps ::= Z.succ |>).
Definition rotate1 (l : list Z) : list Z := match l with [] => [] | x :: l => l ++ [x] end.
Definition cap_list_move (to from : cl_ref) : K unit :=
  src ← gets (fun s => caplists s from);
  when (negb (ncaps src =? 0))
    (clmod from (fun l => l <| ncaps := 0 |> <| caps := [] |>) ;;
     clmod to (fun l => l <| ncaps ::= Z.add (Z.of_nat (length (caps src))) |>
                          <| caps := rotate1 (caps src) |>)).

(** * Allocation against a capability *)

Section ResourceAlloc.
Context (fuel : nat).

Definition pgd_alloc : K Z := mem_cache_zalloc fuel PGD_CACHE.

(** The shape shared by the four [*_cap_alloc] functions once the capability
    has been looked up. *)
Definition cap_alloc_from (cap : Z) (c : cache_ref) : K Z :=
  if cap =? 0 then mret 0
  else
    r ← capability_consume cap 1;
    if r <? 0 then mret 0 else mem_cache_zalloc fuel c.

Definition pmd_cap_alloc (clist : cl_ref) : K Z :=
  cap ← cap_list_find_by_rtype clist CAP_RTYPE_MAPPOOL; cap_alloc_from cap PMD_CACHE.
Definition space_cap_alloc (clist : cl_ref) : K Z :=
  cap ← cap_list_find_by_rtype clist CAP_RTYPE_SPACEPOOL; cap_alloc_from cap SPACE_CACHE.
Definition ktcb_cap_alloc (clist : cl_ref) : K Z :=
  cap ← cap_list_find_by_rtype clist CAP_RTYPE_THREADPOOL; cap_alloc_from cap KTCB_CACHE.
Definition mutex_cap_alloc : K Z :=
  cur ← gets current;
  cap ← cap_find_by_rtype cur CAP_RTYPE_MUTEXPOOL; cap_alloc_from cap MUTEX_CACHE.

Definition pgd_free (addr : Z) : K unit :=
  r ← mem_cache_free fuel PGD_CACHE addr; bug_on (r <? 0) "pgd_free".

Definition cap_free_to (cap : Z) (c : cache_ref) (addr : Z) (where_ : string) : K unit :=
  bug_on (cap =? 0) where_ ;;
  _ ← capability_free cap 1;
  r ← mem_cache_free fuel c addr;
  bug_on (r <? 0) where_.

Definition pmd_cap_free (addr : Z) (clist : cl_ref) : K unit :=
  cap ← cap_list_find_by_rtype clist CAP_RTYPE_MAPPOOL; cap_free_to cap PMD_CACHE addr "pmd_cap_free".
Definition space_cap_free (addr : Z) (clist : cl_ref) : K unit :=
  cap ← cap_list_find_by_rtype clist CAP_RTYPE_SPACEPOOL;
  cap_free_to cap SPACE_CACHE addr "space_cap_free".
Definition ktcb_cap_free (addr : Z) (clist : cl_ref) : K unit :=
  cap ← cap_list_find_by_rtype clist CAP_RTYPE_THREADPOOL;
  cap_free_to cap KTCB_CACHE addr "ktcb_cap_free".
Definition mutex_cap_free (addr : Z) : K unit :=
  cur ← gets current;
  cap ← cap_find_by_rtype cur CAP_RTYPE_MUTEXPOOL;
  cap_free_to cap MUTEX_CACHE addr "mutex_cap_free".
End ResourceAlloc.
