(* ===== verification/Mutexes.v ===== *)
(** The sleeping mutexes of [src/lib/mutex.c]: acquiring, sleeping, releasing. *)
From S2P Require Import Prelude Defs Kernel Exec Sched SchedInv SchedOps Schedule Fairness Demo Waiting Alloc.

(** * The lock word *)

Lemma mutex_wqh m v h f s : with_mutex m v (with_wqh h f s) = with_wqh h f (with_mutex m v s).
Proof. reflexivity. Qed.

Lemma leave_order t h s :
  with_wqh h (fun w => w <| sleepers ::= Z.pred |>) (with_wqh h (fun w => w <| task_list ::= list_del t |>)
    (with_tcb t (fun k => k <| wq := None |>) (with_tcb t (fun k => k <| waiting_on := None |>) s)))
  = wq_leave t h s.
Proof.
  set (g1 := fun w => w <| sleepers ::= Z.pred |>). set (g2 := fun w => w <| task_list ::= list_del t |>).
  set (f1 := fun k => k <| wq := None |>). set (f2 := fun k => k <| waiting_on := None |>).
  rewrite (wqh_tcb h g2 t f1), (wqh_tcb h g2 t f2), (wqh_tcb h g1 t f1), (wqh_tcb h g1 t f2). reflexivity.
Qed.

(** The lock taken by the current task, or let go. *)
Definition taken (m : mutex_ref) (s : kstate) : kstate :=
  with_tcb (current s) (fun t => t <| nlocks ::= Z.succ |>) (with_mutex m MUTEX_LOCKED s).
Definition let_go (m : mutex_ref) (s : kstate) : kstate :=
  with_tcb (current s) (fun t => t <| nlocks ::= Z.pred |>) (with_mutex m MUTEX_UNLOCKED s).

(** Writing the number of locks held, or a lock word, keeps the invariant. *)
Lemma sinv_nlocks out t f s : sinv out s -> sinv out (with_tcb t (fun k => k <| nlocks ::= f |>) s).
Proof.
  intros Hs. apply sinv_tcb; try done; [by right|apply (si_ok _ _ Hs)|].
  intros ->. apply (si_idle_flags _ _ Hs).
Qed.
Lemma sinv_mutex out m v s : sinv out s -> sinv out (with_mutex m v s).
Proof. by apply sinv_ext. Qed.
Lemma sched_inv_taken m s : sched_inv s -> sched_inv (taken m s).
Proof. intros Hs. by apply sinv_nlocks, sinv_mutex. Qed.
Lemma sched_inv_let_go m s : sched_inv s -> sched_inv (let_go m s).
Proof. intros Hs. by apply sinv_nlocks, sinv_mutex. Qed.

Lemma mutex_lock_free fuel m s : mutexes s m = MUTEX_UNLOCKED -> mutex_lock fuel m s = Ret 0 (taken m s).
Proof.
  intros E. assert (mutex_lock fuel m s = Ret 0 (with_preempt Z.pred (taken m (with_preempt Z.succ s)))) as ->.
  { destruct fuel; cbn [mutex_lock]; exec __mutex_lock swp; change (mutexes (with_preempt _ s)) with (mutexes s); by rewrite E. }
  unfold taken. f_equal. autorewrite with frame. reflexivity.
Qed.

(** A held lock is written again with the value it has. *)
Lemma mutex_lock_held fuel m s q :
  sched_inv s -> rq (tcbs s (current s)) = Some q -> mutexes s m = MUTEX_LOCKED ->
  mutex_lock (S fuel) m s =
  obind (schedule (asleep_on (WQ_MUTEX m) q (with_mutex m MUTEX_LOCKED s)))
    (fun _ => r ← check_interrupted; if r <? 0 then mret r else mutex_lock fuel m).
Proof.
  intros Hs Hq E. cbn [mutex_lock]. exec __mutex_lock swp wq_enqueue. unfold task_set_wqh. exec.
  change (mutexes (with_preempt _ s)) with (mutexes s). rewrite E. cbn [Z.eqb MUTEX_LOCKED MUTEX_UNLOCKED].
  change (1 =? 0) with false. cbv beta iota.
  set (s0 := with_mutex m MUTEX_LOCKED s).
  match goal with |- obind (sched_prepare_sleep ?x) _ = _ =>
    replace x with (with_preempt Z.succ (wq_enter (current s) (WQ_MUTEX m) s0))
      by (unfold wq_enter, s0; autorewrite with frame; by rewrite ?wqh_tcb) end.
  assert (rq_inv (wq_enter (current s) (WQ_MUTEX m) s0)) as Hrq.
  { repeat apply rq_inv_tcb; try done. by apply (rq_inv_ext s), Hs. }
  rewrite (sched_prepare_sleep_run _ q); [|by apply (rq_inv_ext (wq_enter (current s) (WQ_MUTEX m) s0))|].
  - cbn [obind]. unfold asleep_on, fall_asleep, deq, unlink_rq, set_state.
    change (current (with_preempt Z.succ (wq_enter (current s) (WQ_MUTEX m) s0))) with (current s0).
    autorewrite with frame. reflexivity.
  - rewrite <- Hq. apply (wq_enter_rq (current s) (WQ_MUTEX m) s0 (current s)).
Qed.


(** * Releasing *)

Lemma mutex_unlock_not_held m sync s :
  mutexes s m <> MUTEX_LOCKED -> mutex_unlock_common m sync s = Bug "__mutex_unlock".
Proof.
  intros E. exec mutex_unlock_common __mutex_unlock swp. change (mutexes (with_preempt _ s)) with (mutexes s).
  by rewrite (proj2 (Z.eqb_neq _ _)) by done.
Qed.

Lemma mutex_unlock_run m sync s :
  sched_inv s -> mutexes s m = MUTEX_LOCKED -> 0 < nlocks (tcbs s (current s)) ->
  mutex_unlock_common m sync s =
  match task_list (wqhs s (WQ_MUTEX m)) with
  | [] => Ret tt (let_go m s)
  | t :: l => resume_with sched_resume_sync (if sync then WAKEUP_SYNC else 0) t (wq_leave t (WQ_MUTEX m) (let_go m s))
  end.
Proof.
  intros Hs E Hl. exec mutex_unlock_common __mutex_unlock swp. change (mutexes (with_preempt _ s)) with (mutexes s).
  rewrite E. change (negb (MUTEX_LOCKED =? MUTEX_LOCKED)) with false. cbn [obind].
  set (s1 := with_tcb _ _ _). assert (s1 = with_preempt Z.succ (let_go m s)) as -> by (unfold s1, let_go; frame_eq).
  assert (nlocks (tcbs (let_go m s) (current s)) = nlocks (tcbs s (current s)) - 1) as Hn.
  { cbn. rewrite upd_eq. cbn. lia. }
  change (tcbs (with_preempt Z.succ (let_go m s)) (current (with_preempt Z.succ (let_go m s))))
    with (tcbs (let_go m s) (current s)).
  rewrite Hn, (proj2 (Z.ltb_ge _ 0)) by lia. cbn [obind].
  change (wqhs (with_preempt Z.succ (let_go m s))) with (wqhs s).
  pose proof (wqi_sleepers _ (si_wq _ _ Hs) (WQ_MUTEX m)) as Hsl. rewrite Hsl, (proj2 (Z.ltb_ge _ 0)) by lia. cbn [obind].
  change (wqhs (with_preempt Z.succ (let_go m s))) with (wqhs s). rewrite Hsl. unfold first_sleeper.
  change (wqhs (with_preempt Z.succ (let_go m s))) with (wqhs s).
  destruct (task_list (wqhs s (WQ_MUTEX m))) as [|t l] eqn:El.
  - change (0 <? Z.of_nat (length (@nil Z))) with false. cbv beta iota. f_equal. frame_eq.
  - replace (0 <? Z.of_nat (length (t :: l))) with true by (symmetry; apply Z.ltb_lt; cbn; lia).
    change (wqhs (with_preempt Z.succ (let_go m s))) with (wqhs s). rewrite El. cbn [head].
    unfold task_unset_wqh. exec.
    unfold resume_with. autorewrite with frame. rewrite leave_order.
    destruct sync.
    + change (flag_set WAKEUP_SYNC WAKEUP_SYNC) with true. cbv beta iota. reflexivity.
    + change (flag_set 0 WAKEUP_SYNC) with false. cbv beta iota. reflexivity.
Qed.

(** Waking synchronously is waking and calling [schedule]. *)
Lemma resume_sync_run t h s :
  sched_inv s -> waiting_on (tcbs s t) = Some h -> state (tcbs s (current s)) = TASK_RUNNABLE ->
  sched_resume_sync t (wq_leave t h s) = schedule (woken 0 t h s).
Proof.
  intros Hs Hw Hst. destruct (waiting_facts s t h Hs Hw) as (Hsl & _).
  destruct (sinv_left 0 t h s Hs Hw) as (H1 & H2 & _). exec sched_resume_sync sched_resume_sync_with.
  change (current (wq_leave t h s)) with (current s).
  rewrite bool_decide_false by (intros ->; congruence). cbn [obind].
  change (with_tcb t (fun k => k <| state := TASK_RUNNABLE |>) (wq_leave t h s))
    with (set_state t TASK_RUNNABLE (wq_leave t h s)).
  rewrite sched_rq_add_task_run; [reflexivity|apply rq_inv_tcb; [apply H1|done]|cbn; by rewrite upd_eq].
Qed.

Lemma round_robin_head irq idl cur b1 b2 t r e : t <> cur -> (round_robin irq idl cur b1 b2 (t :: r, e)).1 = t.
Proof.
  intros Hne. unfold round_robin, rr_requeue. cbn [fst snd].
  assert (list_del cur (t :: r) = t :: list_del cur r) as -> by (unfold list_del; by rewrite filter_cons_True).
  by destruct b1, (bool_decide (cur = idl)), b2.
Qed.
Lemma woken_quiet fl t h s : t <> current s -> quiet s -> quiet (woken fl t h s).
Proof.
  intros Hne [Q1 Q2 Q3]. destruct (keeps_woken fl t h s) as (K & _).
  assert (flags (tcbs (woken fl t h s) (current s)) = flags (tcbs s (current s))) as E.
  { unfold woken, resume, interrupt. destruct (flag_set fl _); cbn; by rewrite !upd_ne. }
  assert (sflags (sched (woken fl t h s)) = sflags (sched s)) as E'.
  { unfold woken, resume, interrupt. by destruct (flag_set fl _). }
  split; rewrite ?K, ?E, ?E'; assumption.
Qed.

(** A task woken ahead of a quiet current task runs next. *)
Lemma woken_runs_next fl t h s :
  sched_inv s -> waiting_on (tcbs s t) = Some h -> may_schedule s -> quiet s ->
  state (tcbs s (current s)) = TASK_RUNNABLE ->
  current (schedule_spec (woken fl t h s)) = t /\ quiet (woken fl t h s).
Proof.
  intros Hs Hw Hm Hq Hst. destruct (waiting_facts s t h Hs Hw) as (Hsl & _).
  destruct (woken_facts fl t h s Hs Hw) as (H1 & H2 & _ & _ & _ & _ & _ & _ & H9).
  assert (t <> current s) as Hne by congruence. pose proof (woken_quiet fl t h s Hne Hq) as Hq'.
  split; [|exact Hq'].
  assert (may_schedule (woken fl t h s)) as Hm'.
  { destruct (keeps_woken fl t h s) as (_ & _ & E1 & E2). unfold may_schedule. by rewrite E1, E2. }
  pose proof (schedule_round_robin _ H1 Hm' Hq') as E. apply (f_equal fst) in E. cbn [fst] in E. rewrite E.
  unfold queues. rewrite H2, H9. by apply round_robin_head.
Qed.

(** [mutex_unlock] of a held mutex frees it.  If tasks sleep on it, the
    first of them is woken and runs at once: the call gives up the processor
    to it, and returns when the caller is run again.  The woken task is not
    given the mutex; it must find it free in turn. *)
Theorem mutex_unlock_hands_the_processor_over (m : mutex_ref) (i : Z) (s : kstate)
    (Hs : steady i s) (Hi : current s <> i) (Hq : quiet s)
    (Hm : mutexes s m = MUTEX_LOCKED) (Hl : 0 < nlocks (tcbs s (current s))) :
  match task_list (wqhs s (WQ_MUTEX m)) with
  | [] => exists s', mutex_unlock m s = Ret tt s' /\ steady i s' /\ mutexes s' m = MUTEX_UNLOCKED
      /\ nlocks (tcbs s' (current s)) = nlocks (tcbs s (current s)) - 1
  | t :: l => exists s1, mutex_unlock m s = Switch s1 (fun s2 => Ret tt s2) /\ steady i s1
      /\ current s1 = t /\ mutexes s1 m = MUTEX_UNLOCKED /\ task_list (wqhs s1 (WQ_MUTEX m)) = l
      /\ nlocks (tcbs s1 (current s)) = nlocks (tcbs s (current s)) - 1
  end.
Proof.
  destruct Hs as [Hs Hv Hn Hid Hst]. subst i. unfold mutex_unlock. rewrite (mutex_unlock_run m true s Hs Hm Hl).
  assert (sched_inv (let_go m s)) as Hg by by apply sched_inv_let_go.
  assert (nlocks (tcbs (let_go m s) (current s)) = nlocks (tcbs s (current s)) - 1) as Hnl.
  { cbn. by rewrite upd_eq. }
  assert (mutexes (let_go m s) m = MUTEX_UNLOCKED) as Hmu by (cbn; by rewrite upd_eq).
  assert (voluntary_preempt (let_go m s) = 0 /\ irq_nest_count (let_go m s) = 0 /\ idle (let_go m s) = idle s)
    as (Hvg & Hng & Hidg) by done.
  assert (state (tcbs (let_go m s) (current s)) = TASK_RUNNABLE) as Hstg by (cbn; by rewrite upd_eq).
  assert (quiet (let_go m s)) as Hqg.
  { destruct Hq as [Q1 Q2 Q3]. split; try done; cbn; by rewrite upd_eq. }
  destruct (task_list (wqhs s (WQ_MUTEX m))) as [|t l] eqn:E.
  - exists (let_go m s). split_and!; try done.
  - assert (waiting_on (tcbs (let_go m s) t) = Some (WQ_MUTEX m)) as Hw.
    { apply (si_wq _ _ Hg). change (wqhs (let_go m s)) with (wqhs s). rewrite E. left. }
    change (resume_with sched_resume_sync WAKEUP_SYNC) with sched_resume_sync.
    rewrite resume_sync_run by done.
    destruct (woken_runs_next 0 t (WQ_MUTEX m) (let_go m s) Hg Hw) as [Hc Hqw]; [split; [done|by left]|done|done|].
    destruct (woken_facts 0 t (WQ_MUTEX m) (let_go m s) Hg Hw) as (G1 & _ & _ & _ & _ & _ & G6 & _).
    destruct (keeps_woken 0 t (WQ_MUTEX m) (let_go m s)) as (_ & K2 & K3 & K4).
    assert (t <> current s) as Hne.
    { intros ->. destruct (waiting_facts _ _ _ Hg Hw) as (Hsl & _). congruence. }
    exists (schedule_spec (woken 0 t (WQ_MUTEX m) (let_go m s))). split_and!.
    + apply schedule_run; [done|]. split; [congruence|left; congruence].
    + pose proof (schedule_steady _ G1 ltac:(congruence) ltac:(congruence)) as Hst'. by rewrite K2, Hidg in Hst'.
    + done.
    + by rewrite schedule_mutexes.
    + rewrite schedule_wqhs, G6, decide_True by done. change (wqhs (let_go m s)) with (wqhs s). rewrite E.
      apply list_del_head. rewrite <- E. apply (si_wq _ _ Hs).
    + rewrite (schedule_field nlocks), <- Hnl by done. unfold woken, resume, interrupt.
      destruct (flag_set 0 _); cbn; by rewrite !(upd_ne _ t).
Qed.
Lemma mutex_unlock_hands_the_processor_over_witness :
  exists s', mutex_unlock (MX_TCB 32) (taken (MX_TCB 32) demo) = Ret tt s' /\ steady 64 s'
    /\ mutexes s' (MX_TCB 32) = MUTEX_UNLOCKED /\ nlocks (tcbs s' 16) = 0.
Proof.
  assert (steady 64 (taken (MX_TCB 32) demo)) as Hs.
  { split; try done. apply sched_inv_taken, demo_sched_inv. }
  exact (mutex_unlock_hands_the_processor_over (MX_TCB 32) 64 _ Hs ltac:(by vm_compute) ltac:(by split) eq_refl eq_refl).
Defined.
