(* ===== verification/Caches.v ===== *)
(** The memory caches of [src/lib/memcache.c]: a cache is a set of equal-sized
    elements; allocation adds a fresh one to the set in use, release removes one
    that is in use, and nothing else. *)
From S2P Require Import Prelude Bits Defs Kernel Exec Sched SchedInv SchedOps Schedule Fairness Demo Waiting Alloc Mutexes.

(** * The abstract view *)

Record cache_inv (m : mem_cache) : Prop := {
  ci_words : 0 <= mc_total m <= Z.of_nat (length (mc_bitmap m)) * WORD_BITS;
  ci_size : 0 < struct_size m;
  ci_room : 0 <= mc_start m /\ mc_start m + struct_size m * mc_total m <= mc_end m < 2 ^ 32;
  ci_free : mc_free m = clear_bits (mc_bitmap m) (mc_total m) }.

(** The elements in use. *)
Definition in_use (m : mem_cache) (a : Z) : Prop :=
  exists b, 0 <= b < mc_total m /\ bit_at (mc_bitmap m) b = true /\ a = mc_start m + struct_size m * b.

(** Nobody holds or waits for the cache's mutex. *)
Record uncontended (c : cache_ref) (s : kstate) : Prop := {
  uc_inv : sched_inv s;
  uc_free : mutexes s (MX_CACHE c) = MUTEX_UNLOCKED;
  uc_quiet : task_list (wqhs s (WQ_MUTEX (MX_CACHE c))) = [];
  uc_locks : 0 <= nlocks (tcbs s (current s)) }.

(** * Allocation *)

(** The cache with element [b] taken, or given back. *)
Definition take_bit (b : Z) (m : mem_cache) : mem_cache :=
  m <| mc_free ::= Z.pred |> <| mc_bitmap := bit_set (mc_bitmap m) b |>.
Definition give_bit (b : Z) (m : mem_cache) : mem_cache :=
  m <| mc_bitmap := bit_clear (mc_bitmap m) b |> <| mc_free ::= Z.succ |>.

Lemma in_map_total m b : cache_inv m -> 0 <= b < mc_total m -> in_map (mc_bitmap m) b.
Proof. intros [] Hb. unfold in_map. lia. Qed.

Lemma cache_inv_take m b :
  cache_inv m -> 0 <= b < mc_total m -> bit_at (mc_bitmap m) b = false -> cache_inv (take_bit b m).
Proof.
  intros Hi Hb Hf. pose proof (in_map_total m b Hi Hb) as Hin. destruct Hi. split; cbn; try done.
  - by rewrite length_bit_set.
  - rewrite (clear_bits_set (mc_bitmap m) _ _ b); [lia|done|done|]. intros j Hj. by apply bit_at_set.
Qed.
Lemma cache_inv_give m b :
  cache_inv m -> 0 <= b < mc_total m -> bit_at (mc_bitmap m) b = true -> cache_inv (give_bit b m).
Proof.
  intros Hi Hb Hf. pose proof (in_map_total m b Hi Hb) as Hin. destruct Hi. split; cbn; try done.
  - by rewrite length_bit_clear.
  - rewrite ci_free0, (clear_bits_set (bit_clear (mc_bitmap m) b) (mc_bitmap m) _ b); [lia|done| |].
    + rewrite bit_at_clear, bool_decide_true by (done || lia). done.
    + intros j Hj. rewrite bit_at_clear by done. case_bool_decide; [by subst|done].
Qed.

(** Addresses and bits correspond. *)
Lemma cache_addr_exact m b : cache_inv m -> 0 <= b < mc_total m ->
  cache_addr m b = mc_start m + struct_size m * b /\ mc_start m <= cache_addr m b
  /\ cache_addr m b + struct_size m <= mc_end m.
Proof.
  intros [] Hb. assert (struct_size m * b + struct_size m <= struct_size m * mc_total m) by nia.
  assert (0 <= struct_size m * b) by nia.
  unfold cache_addr. rewrite u32_id by (unfold is_u32; lia). lia.
Qed.
Lemma in_use_take m b a : cache_inv m -> 0 <= b < mc_total m ->
  in_use (take_bit b m) a <-> a = mc_start m + struct_size m * b \/ in_use m a.
Proof.
  intros Hi Hb. pose proof (in_map_total m b Hi Hb) as Hin. unfold in_use. cbn. split.
  - intros (j & Hj & Ht & ->). rewrite bit_at_set in Ht by (done || lia). case_bool_decide; [subst; by left|].
    right. by exists j.
  - intros [->|(j & Hj & Ht & ->)]; [exists b|exists j]; (split_and!; [lia|lia| |done]);
      rewrite bit_at_set by (done || lia); [by rewrite bool_decide_true|rewrite Ht; apply orb_true_r].
Qed.
Lemma in_use_give m b a : cache_inv m -> 0 <= b < mc_total m ->
  in_use (give_bit b m) a <-> a <> mc_start m + struct_size m * b /\ in_use m a.
Proof.
  intros Hi Hb. pose proof (in_map_total m b Hi Hb) as Hin. pose proof (ci_size m Hi). unfold in_use. cbn. split.
  - intros (j & Hj & Ht & ->). rewrite bit_at_clear in Ht by (done || lia). case_bool_decide; [done|].
    split; [nia|by exists j].
  - intros [Hne (j & Hj & Ht & ->)]. exists j. split_and!; [lia|lia| |done].
    rewrite bit_at_clear by (done || lia). rewrite Ht, bool_decide_false; [done|]. by intros ->.
Qed.

(** Writing a cache is no concern of the scheduler. *)
Lemma sched_inv_cache c f s : sched_inv s -> sched_inv (with_cache c f s).
Proof. by apply sinv_ext. Qed.
Lemma tcb_cache c f t g s : with_cache c f (with_tcb t g s) = with_tcb t g (with_cache c f s).
Proof. reflexivity. Qed.

(** The end of a critical section that was entered on an uncontended mutex and
    wrote only the caches. *)
Lemma unlock_run c s s1 :
  uncontended c s ->
  tcbs s1 = tcbs (taken (MX_CACHE c) s) -> wqhs s1 = wqhs s -> sched s1 = sched s -> current s1 = current s ->
  mutexes s1 = mutexes (taken (MX_CACHE c) s) ->
  mutex_unlock (MX_CACHE c) s1 = Ret tt (let_go (MX_CACHE c) s1) /\ uncontended c (let_go (MX_CACHE c) s1).
Proof.
  intros [H1 H2 H3 H4] Et Ew Es Ec Em.
  assert (sched_inv s1) as Hs1 by by apply (sinv_ext None (taken (MX_CACHE c) s)), sched_inv_taken.
  assert (nlocks (tcbs s1 (current s)) = nlocks (tcbs s (current s)) + 1) as Hn by (rewrite Et; cbn; by rewrite upd_eq).
  split.
  - unfold mutex_unlock. rewrite mutex_unlock_run; [|done|rewrite Em; cbn; by rewrite upd_eq|].
    + by rewrite Ew, H3.
    + rewrite Ec. lia.
  - split; [by apply sched_inv_let_go|cbn; by rewrite upd_eq|cbn; by rewrite Ew|].
    cbn. rewrite Ec, upd_eq. cbn. lia.
Qed.
Lemma caches_put c f s : caches (with_cache c f s) c = f (caches s c).
Proof. cbn. by rewrite upd_eq. Qed.
Lemma caches_put_other c c' f s : c' <> c -> caches (with_cache c f s) c' = caches s c'.
Proof. intros. cbn. by rewrite upd_ne. Qed.

Lemma find_first_clear m :
  cache_inv m -> 0 < mc_free m ->
  exists b, 0 <= b < mc_total m /\ bit_at (mc_bitmap m) b = false
    /\ find_and_set_first_free_bit (mc_bitmap m) (mc_total m) = (b, bit_set (mc_bitmap m) b).
Proof.
  intros Hi Hf. destruct (clear_bits_pos (mc_bitmap m) (mc_total m)) as (b0 & Hb0 & Hf0); [destruct Hi; lia|].
  unfold find_and_set_first_free_bit.
  destruct (first_free_loop_spec (Z.to_nat (mc_total m)) 0 (mc_bitmap m) ltac:(lia)) as [[_ Hall]|(b & Hb & Hc & _ & ->)].
  - rewrite Hall in Hf0; [done|lia].
  - exists b. split_and!; [lia|lia|done|done].
Qed.

(** The state after element [b] has been allocated: the lock was taken and let
    go, and the cache's bitmap and count written. *)
Definition allocated (c : cache_ref) (b : Z) (s : kstate) : kstate :=
  let_go (MX_CACHE c) (with_cache c (fun m => m <| mc_bitmap := bit_set (mc_bitmap (caches s c)) b |>)
    (with_cache c (fun m => m <| mc_free ::= Z.pred |>) (taken (MX_CACHE c) s))).

Lemma mem_cache_alloc_run fuel c s :
  uncontended c s -> cache_inv (caches s c) -> 0 < mc_free (caches s c) ->
  exists b, let s' := allocated c b s in
    0 <= b < mc_total (caches s c) /\ bit_at (mc_bitmap (caches s c)) b = false
    /\ mem_cache_alloc fuel c s = Ret (cache_addr (caches s c) b) s'
    /\ uncontended c s' /\ caches s' c = take_bit b (caches s c)
    /\ (forall c', c' <> c -> caches s' c' = caches s c').
Proof.
  intros Hu Hi Hf. destruct (find_first_clear _ Hi Hf) as (b & Hb & Hc & E).
  set (x := with_cache c (fun m => m <| mc_bitmap := bit_set (mc_bitmap (caches s c)) b |>)
    (with_cache c (fun m => m <| mc_free ::= Z.pred |>) (taken (MX_CACHE c) s))).
  destruct (unlock_run c s x Hu) as [H1 H2]; try done.
  assert (caches x c = take_bit b (caches s c)) as Hx by (unfold x; by rewrite !caches_put).
  exists b. change (allocated c b s) with (let_go (MX_CACHE c) x). cbv zeta. split_and!; try done; try lia.
  - exec mem_cache_alloc cache_put. rewrite (proj2 (Z.ltb_lt _ _)) by done.
    rewrite mutex_lock_free by apply Hu. cbn [obind]. change (0 <? 0) with false. cbv beta iota.
    rewrite caches_put. change (caches (taken (MX_CACHE c) s)) with (caches s).
    change (mc_bitmap (caches s c <| mc_free ::= Z.pred |>)) with (mc_bitmap (caches s c)).
    change (mc_total (caches s c <| mc_free ::= Z.pred |>)) with (mc_total (caches s c)). rewrite E. exec.
    rewrite (proj2 (Z.ltb_ge b 0)) by lia. cbn [obind]. fold x. rewrite H1. cbn [obind].
    change (caches (let_go (MX_CACHE c) x)) with (caches x). by rewrite Hx.
  - intros c' Hc'. change (caches (let_go (MX_CACHE c) x)) with (caches x). unfold x. by rewrite !caches_put_other.
Qed.

(** C10: allocation from an uncontended cache.  A full cache gives a null
    pointer and nothing changes.  Otherwise the address returned was not in use,
    is now, lies with its whole element between the cache's bounds; no other
    element of this or another cache is affected, the count of free elements
    stays exact, and the mutex is free again. *)
Theorem mem_cache_alloc_is_fresh (fuel : nat) (c : cache_ref) (s : kstate)
    (Hu : uncontended c s) (Hi : cache_inv (caches s c)) :
  if mc_free (caches s c) =? 0 then mem_cache_alloc fuel c s = Ret 0 s
  else exists a s', mem_cache_alloc fuel c s = Ret a s'
    /\ mc_start (caches s c) <= a /\ a + struct_size (caches s c) <= mc_end (caches s c)
    /\ (in_use (caches s c) a -> False)
    /\ (forall x, in_use (caches s' c) x <-> x = a \/ in_use (caches s c) x)
    /\ mc_free (caches s' c) = mc_free (caches s c) - 1 /\ cache_inv (caches s' c)
    /\ (forall c', c' <> c -> caches s' c' = caches s c') /\ uncontended c s'.
Proof.
  pose proof (clear_bits_nonneg (mc_bitmap (caches s c)) (mc_total (caches s c))) as Hn.
  rewrite <- (ci_free _ Hi) in Hn. destruct (Z.eqb_spec (mc_free (caches s c)) 0) as [E|E].
  - exec mem_cache_alloc. by rewrite E.
  - destruct (mem_cache_alloc_run fuel c s Hu Hi ltac:(lia)) as (b & Hb & Hf & H1 & H2 & H3 & H4).
    set (s' := allocated c b s) in *.
    destruct (cache_addr_exact _ _ Hi Hb) as (Ha & Hlo & Hhi).
    exists (cache_addr (caches s c) b), s'. split_and!; try done.
    + intros (j & Hj & Hset & Heq). rewrite Ha in Heq. pose proof (ci_size _ Hi). assert (j = b) as -> by nia. congruence.
    + intros x. rewrite H3, in_use_take, Ha by done. done.
    + by rewrite H3.
    + rewrite H3. by apply cache_inv_take.
Qed.

Definition demo_cache : mem_cache := MkCache 4 3 4096 8192 256 [1].
Definition demo_with_cache : kstate := with_cache SPACE_CACHE (fun _ => demo_cache) demo.
Lemma demo_cache_inv : cache_inv (caches demo_with_cache SPACE_CACHE).
Proof. split; [split; discriminate|reflexivity|vm_compute; repeat split; discriminate|reflexivity]. Qed.
Lemma demo_uncontended : uncontended SPACE_CACHE demo_with_cache.
Proof. split; [apply sched_inv_cache, demo_sched_inv|done|done|done]. Qed.
Lemma mem_cache_alloc_is_fresh_witness :
  exists a s', mem_cache_alloc 0 SPACE_CACHE demo_with_cache = Ret a s'
    /\ 4096 <= a /\ a + 256 <= 8192 /\ (in_use demo_cache a -> False)
    /\ (forall x, in_use (caches s' SPACE_CACHE) x <-> x = a \/ in_use demo_cache x)
    /\ mc_free (caches s' SPACE_CACHE) = 2 /\ cache_inv (caches s' SPACE_CACHE)
    /\ (forall c', c' <> SPACE_CACHE -> caches s' c' = caches demo_with_cache c') /\ uncontended SPACE_CACHE s'.
Proof. exact (mem_cache_alloc_is_fresh 0 SPACE_CACHE demo_with_cache demo_uncontended demo_cache_inv). Defined.

(** * Release *)

Lemma aligned_bit m a :
  cache_inv m -> mc_start m <= a <= mc_end m ->
  let bit := (a - mc_start m) / struct_size m in
  u32 (bit * struct_size m + mc_start m) = bit * struct_size m + mc_start m
  /\ (bit * struct_size m + mc_start m = a -> a < mc_start m + struct_size m * mc_total m -> 0 <= bit < mc_total m).
Proof.
  intros [] Ha bit. assert (0 <= bit) by (apply Z.div_pos; lia).
  assert (bit * struct_size m <= a - mc_start m) by (rewrite Z.mul_comm; apply Z.mul_div_le; lia).
  split; [apply u32_id; unfold is_u32; nia|]. intros E Hlt. nia.
Qed.

(** Taking and releasing an uncontended mutex leaves no trace. *)
Record same_but_caches (s s' : kstate) : Prop := {
  sc_tcbs : forall u, tcbs s' u = tcbs s u;
  sc_mutexes : forall m, mutexes s' m = mutexes s m;
  sc_wqhs : wqhs s' = wqhs s;
  sc_sched : sched s' = sched s;
  sc_keeps : keeps s s';
  sc_store : conts s' = conts s /\ mqs s' = mqs s /\ capmem s' = capmem s /\ caplists s' = caplists s }.
Lemma lock_unlock_same c s s1 : mutexes s (MX_CACHE c) = MUTEX_UNLOCKED ->
  tcbs s1 = tcbs (taken (MX_CACHE c) s) -> mutexes s1 = mutexes (taken (MX_CACHE c) s) -> wqhs s1 = wqhs s ->
  sched s1 = sched s -> keeps s s1 ->
  conts s1 = conts s /\ mqs s1 = mqs s /\ capmem s1 = capmem s /\ caplists s1 = caplists s ->
  same_but_caches s (let_go (MX_CACHE c) s1).
Proof.
  intros Hm Et Em Ew Es Hk Hst. pose proof Hk as (Ec & _). split; [| |done..].
  - intros u. cbn. rewrite Et, Ec. cbn. destruct (decide (current s = u)) as [<-|]; [|by rewrite !upd_ne].
    rewrite !upd_eq. destruct (tcbs s (current s)). unfold set_field. cbn. f_equal. lia.
  - intros m. cbn. rewrite Em. cbn. destruct (decide (MX_CACHE c = m)) as [<-|]; [by rewrite upd_eq|by rewrite !upd_ne].
Qed.

Lemma mem_cache_free_run fuel c s b :
  uncontended c s -> cache_inv (caches s c) -> 0 <= b < mc_total (caches s c) ->
  exists s', mem_cache_free fuel c (mc_start (caches s c) + struct_size (caches s c) * b) s
             = Ret (if bit_at (mc_bitmap (caches s c)) b then 0 else -1) s'
    /\ uncontended c s' /\ (forall c', c' <> c -> caches s' c' = caches s c')
    /\ caches s' c = (if bit_at (mc_bitmap (caches s c)) b then give_bit b (caches s c) else caches s c)
    /\ same_but_caches s s'.
Proof.
  intros Hu Hi Hb. destruct (cache_addr_exact _ _ Hi Hb) as (Ha & Hlo & Hhi). rewrite Ha in *.
  pose proof (ci_size _ Hi) as Hsz. set (m := caches s c) in *. set (a := mc_start m + struct_size m * b) in *.
  assert ((a - mc_start m) / struct_size m = b) as Hbit.
  { unfold a. replace (mc_start m + struct_size m * b - mc_start m) with (b * struct_size m) by lia. by apply Z.div_mul; lia. }
  assert (u32 (b * struct_size m + mc_start m) = a) as Hu32.
  { rewrite u32_id; [unfold a; lia|]. destruct Hi. unfold is_u32, a in *. lia. }
  assert (mem_cache_free fuel c a s
    = obind (if bit_at (mc_bitmap m) b
             then Ret 0 (with_cache c (fun m => m <| mc_free ::= Z.succ |>)
                    (with_cache c (fun x => x <| mc_bitmap := bit_clear (mc_bitmap m) b |>) (taken (MX_CACHE c) s)))
             else Ret (-1) (with_cache c (fun x => x <| mc_bitmap := mc_bitmap m |>) (taken (MX_CACHE c) s)))
        (fun err => mutex_unlock (MX_CACHE c) ;; mret err)) as E.
  { exec mem_cache_free cache_put. fold m. rewrite (proj2 (Z.ltb_ge a _)), (proj2 (Z.ltb_ge _ a)) by lia. cbn [orb].
    rewrite Hbit, Hu32, Z.eqb_refl. cbn [negb].
    rewrite mutex_lock_free by apply Hu. cbn [obind]. change (0 <? 0) with false. cbv beta iota.
    change (caches (taken (MX_CACHE c) s)) with (caches s). fold m. unfold check_and_clear_bit. rewrite bit_is_set_at.
    destruct (bit_at (mc_bitmap m) b) eqn:Eb; exec.
    - change (0 <? 0) with false. cbv beta iota. rewrite !caches_put.
      change (caches (taken (MX_CACHE c) s) c) with m.
      replace (_ <? _) with false; [done|]. symmetry. apply Z.ltb_ge. cbn. fold m.
      pose proof (cache_inv_give m b Hi Hb Eb) as Hg. pose proof (ci_free _ Hg) as Hfr. cbn in Hfr.
      pose proof (ci_words _ Hi). unfold clear_bits in Hfr.
      assert (Z.of_nat (length (filter (fun i => bit_at (bit_clear (mc_bitmap m) b) i = false) (seqZ 0 (mc_total m)))) <= mc_total m).
      { etransitivity; [apply Nat2Z.inj_le, length_filter|]. rewrite length_seqZ. lia. }
      lia.
    - change (-1 <? 0) with true. reflexivity. }
  rewrite E. clear E.
  destruct (bit_at (mc_bitmap m) b); cbn [obind];
    match goal with |- exists s', (mbind _ _ ?x) = _ /\ _ => destruct (unlock_run c s x Hu) as [H1 H2]; [done..|];
      exists (let_go (MX_CACHE c) x) end; exec; rewrite H1; cbn [obind];
    (split_and!; [done|done| | |apply lock_unlock_same; [apply Hu|done..]]);
    change (caches (let_go ?m ?x)) with (caches x); try (intros c' Hc'; by rewrite !caches_put_other);
    rewrite !caches_put; change (caches (taken (MX_CACHE c) s) c) with m; [done|by destruct m].
Qed.

(** Release is the inverse of allocation.  Releasing an element in use
    returns 0 and takes exactly that element out of use; an address below the
    cache, above it, between elements, or of an element not in use is refused
    with -1, and no cache changes. *)
Theorem mem_cache_free_releases (fuel : nat) (c : cache_ref) (s : kstate) (a : Z)
    (Hu : uncontended c s) (Hi : cache_inv (caches s c))
    (Ha : a < mc_start (caches s c) + struct_size (caches s c) * mc_total (caches s c) \/ mc_end (caches s c) < a) :
  exists r s', mem_cache_free fuel c a s = Ret r s' /\ uncontended c s' /\ cache_inv (caches s' c)
    /\ (forall c', c' <> c -> caches s' c' = caches s c')
    /\ (in_use (caches s c) a -> r = 0 /\ (forall x, in_use (caches s' c) x <-> x <> a /\ in_use (caches s c) x)
                                 /\ mc_free (caches s' c) = mc_free (caches s c) + 1)
    /\ ((in_use (caches s c) a -> False) -> r = -1 /\ caches s' c = caches s c).
Proof.
  set (bit := (a - mc_start (caches s c)) / struct_size (caches s c)).
  destruct (decide ((0 <= bit < mc_total (caches s c)) /\ a = mc_start (caches s c) + struct_size (caches s c) * bit))
    as [[Hb Eb]|Hno].
  - revert Hb Eb. generalize bit. clear bit Ha. intros b Hb ->. destruct (mem_cache_free_run fuel c s b Hu Hi Hb) as (s' & H1 & H2 & H3 & H4 & _).
    exists (if bit_at (mc_bitmap (caches s c)) b then 0 else -1), s'.
    destruct (bit_at (mc_bitmap (caches s c)) b) eqn:Eb; rewrite H4.
    + split_and!; try done; [by apply cache_inv_give| |].
      * intros _. split_and!; [done|intros x; by apply in_use_give|by cbn; lia].
      * intros Hn. destruct Hn. by exists b.
    + split_and!; try done. intros (j & Hj & Hset & Heq). pose proof (ci_size _ Hi).
      assert (j = b) as -> by nia. congruence.
  - exists (-1), s. assert (in_use (caches s c) a -> False) as Hn.
    { intros (b & Hb & _ & Ea). pose proof (ci_size _ Hi). apply Hno. assert (bit = b) as ->; [|done].
      unfold bit. rewrite Ea. replace (_ + _ * b - _) with (b * struct_size (caches s c)) by lia. apply Z.div_mul. lia. }
    split_and!; try done.
    exec mem_cache_free. destruct ((a <? mc_start (caches s c)) || (mc_end (caches s c) <? a)) eqn:Er; [done|].
    apply orb_false_iff in Er as [E1%Z.ltb_ge E2%Z.ltb_ge]. destruct (aligned_bit _ a Hi ltac:(lia)) as [Eu Hbit].
    rewrite Eu. destruct (_ =? a) eqn:Ea; [|done]. apply Z.eqb_eq in Ea. fold bit in Ea, Hbit. destruct Hno.
    split; [apply Hbit; [done|lia]|lia].
Qed.
Lemma mem_cache_free_releases_witness :
  in_use demo_cache 4096 /\ exists r s', mem_cache_free 0 SPACE_CACHE 4096 demo_with_cache = Ret r s'
    /\ uncontended SPACE_CACHE s' /\ cache_inv (caches s' SPACE_CACHE)
    /\ (forall c', c' <> SPACE_CACHE -> caches s' c' = caches demo_with_cache c')
    /\ (in_use demo_cache 4096 -> r = 0 /\ (forall x, in_use (caches s' SPACE_CACHE) x <-> x <> 4096 /\ in_use demo_cache x)
                                 /\ mc_free (caches s' SPACE_CACHE) = 4)
    /\ ((in_use demo_cache 4096 -> False) -> r = -1 /\ caches s' SPACE_CACHE = demo_cache).
Proof.
  split; [exists 0; by vm_compute|].
  exact (mem_cache_free_releases 0 SPACE_CACHE demo_with_cache 4096 demo_uncontended demo_cache_inv
    (or_introl eq_refl)).
Defined.
