(* ===== verification/Caps.v ===== *)
(** Capability checking on system calls: [src/generic/capability.c] with
    [CONFIG_CAPABILITIES], on the thread lookups of [src/generic/tcb.c] and
    [src/generic/container.c] that name the targets.

    A match function answers whether a capability covers an operation; it can
    also reach [BUG()], when a capability of the right type names a resource
    type the check does not know. *)
From S2P Require Import Prelude Defs Kernel Sched Alloc.

(** * Looking up threads *)

(** The task list traversals run under the list's spinlock. *)
Definition find_task (p : kstate -> Z -> bool) (l : list Z) : K Z :=
  gets (fun s => default 0 (list_find (fun t => p s t) l ≫= fun x => Some (snd x))).

Definition container_find_tcb (c tid_ : Z) : K Z :=
  spin_lock ;;
  l ← gets (fun s => ktcb_list (conts s c));
  t ← find_task (fun s t => tid (tcbs s t) =? tid_) l;
  spin_unlock ;;
  mret t.

(** Also takes the found task's [thread_lock], which the caller releases. *)
Definition container_find_lock_tcb (c tid_ : Z) : K Z :=
  spin_lock ;;
  l ← gets (fun s => ktcb_list (conts s c));
  t ← find_task (fun s t => tid (tcbs s t) =? tid_) l;
  when (negb (t =? 0)) spin_lock ;;
  spin_unlock ;;
  mret t.

Definition container_find (cid_ : Z) : K Z :=
  spin_lock ;;
  c ← gets (fun s =>
    default 0 (list_find (fun c => cid (conts s c) =? cid_) (containers (kres s)) ≫= fun x => Some (snd x)));
  spin_unlock ;;
  mret c.

Definition tcb_find_by_space (spid_ : Z) : K Z :=
  spin_lock ;;
  c ← curcont;
  l ← gets (fun s => ktcb_list (conts s c));
  t ← find_task (fun s t => spid (spaces s (space (tcbs s t))) =? spid_) l;
  spin_unlock ;;
  mret t.

Definition tcb_find (tid_ : Z) : K Z :=
  cur ← gets current;
  ct ← cur_get tid;
  if ct =? tid_ then mret cur
  else
    cc ← curcont;
    ccid ← gets (fun s => cid (conts s cc));
    if tid_to_cid tid_ =? ccid then container_find_tcb cc tid_
    else
      c ← container_find (tid_to_cid tid_);
      if c =? 0 then mret 0 else container_find_tcb c tid_.

Definition tcb_find_lock (tid_ : Z) : K Z :=
  cur ← gets current;
  ct ← cur_get tid;
  if ct =? tid_ then spin_lock ;; mret cur
  else
    cc ← curcont;
    ccid ← gets (fun s => cid (conts s cc));
    if tid_to_cid tid_ =? ccid then container_find_lock_tcb cc tid_
    else
      c ← container_find (tid_to_cid tid_);
      if c =? 0 then mret 0 else container_find_lock_tcb c tid_.

(** * Searching capabilities *)

Fixpoint cap_find_in (cap_match : capability -> K bool) (type : Z) (l : list Z) : K Z :=
  match l with
  | [] => mret 0
  | c :: l =>
      cp ← gets (fun s => capmem s c);
      if cap_type cp =? type then
        m ← cap_match cp;
        if (m : bool) then mret c else cap_find_in cap_match type l
      else cap_find_in cap_match type l
  end.

Definition cap_find (task : Z) (cap_match : capability -> K bool) (type : Z) : K Z :=
  l ← gets (fun s => caps (caplists s (CL_SPACE (space (tcbs s task)))));
  c ← cap_find_in cap_match type l;
  if negb (c =? 0) then mret c
  else
    l ← gets (fun s => caps (caplists s (CL_CONT (container (tcbs s task)))));
    cap_find_in cap_match type l.

(** The switch that ends most match functions: the capability's resource must
    name the target thread, its space or its container. *)
Definition cap_match_target (cap : capability) (target : Z) : K bool :=
  s ← gets (fun s => s);
  if cap_rtype cap =? CAP_RTYPE_THREAD then mret (tid (tcbs s target) =? resid cap)
  else if cap_rtype cap =? CAP_RTYPE_SPACE then
    mret (spid (spaces s (space (tcbs s target))) =? resid cap)
  else if cap_rtype cap =? CAP_RTYPE_CONTAINER then
    mret (cid (conts s (container (tcbs s target))) =? resid cap)
  else bug "unknown capability resource type".

Definition has (cap : capability) (perm : Z) : bool := flag_set (access cap) perm.
(** [(cap->access & perms) == perms] *)
Definition has_all (cap : capability) (perms : Z) : bool := Z.land (access cap) perms =? perms.

Definition ipc_xfer_allowed (cap : capability) (xfer_type : Z) : bool :=
  if xfer_type =? IPC_FLAGS_SHORT then has cap CAP_IPC_SHORT
  else if xfer_type =? IPC_FLAGS_FULL then has cap CAP_IPC_FULL
  else if xfer_type =? IPC_FLAGS_EXTENDED then has cap CAP_IPC_EXTENDED
  else false.

Definition cap_match_ipc (target ipc_type xfer_type : Z) (cap : capability) : K bool :=
  if negb (ipc_xfer_allowed cap xfer_type) then mret false
  else if flag_set ipc_type IPC_SEND && negb (has cap CAP_IPC_SEND) then mret false
  else cap_match_target cap target.

(** [FIELD_TO_BIT(exregs_context_t, r)]: one bit per register, in field order. *)
Definition ex_fields : list reg :=
  [R0; R1; R2; R3; R4; R5; R6; R7; R8; R9; R10; R11; R12; SP; LR; PC].
Definition reg_index (r : reg) : Z :=
  match list_find (fun r' => r' = r) ex_fields with Some (i, _) => Z.of_nat i | None => 32 end.
Definition FIELD_TO_BIT (r : reg) : Z := Z.shiftl 1 (reg_index r).
Definition EXREGS_SET_PAGER := 1.
Definition EXREGS_SET_UTCB := 2.
Definition EXREGS_READ := 4.
Definition EXREGS_VALID_REGULAR_REGS : Z :=
  foldr Z.lor 0 (FIELD_TO_BIT <$> [R0; R1; R2; R3; R4; R5; R6; R7; R8; R9; R10; R11; R12; LR]).
Definition EXREGS_VALID_SP : Z := FIELD_TO_BIT SP.
Definition EXREGS_VALID_PC : Z := FIELD_TO_BIT PC.

Definition cap_match_exregs (target : Z) (exregs : exregs_data) (cap : capability) : K bool :=
  let v := valid_vect exregs in
  if flag_set v EXREGS_VALID_REGULAR_REGS && negb (has cap CAP_EXREGS_RW_REGS) then mret false
  else if flag_set v EXREGS_VALID_SP && negb (has cap CAP_EXREGS_RW_SP) then mret false
  else if flag_set v EXREGS_VALID_PC && negb (has cap CAP_EXREGS_RW_PC) then mret false
  else if flag_set v EXREGS_SET_UTCB && negb (has cap CAP_EXREGS_RW_UTCB) then mret false
  else if flag_set v EXREGS_SET_PAGER && negb (has cap CAP_EXREGS_RW_PAGER) then mret false
  else cap_match_target cap target.

(** The permission [cap_match_thread] demands for an action; none for an
    action it does not know. *)
Definition tctrl_perm (action : Z) : option Z :=
  if action =? THREAD_CREATE then Some CAP_TCTRL_CREATE
  else if action =? THREAD_DESTROY then Some CAP_TCTRL_DESTROY
  else if action =? THREAD_SUSPEND then Some CAP_TCTRL_SUSPEND
  else if action =? THREAD_RUN then Some CAP_TCTRL_RUN
  else if action =? THREAD_RECYCLE then Some CAP_TCTRL_RECYCLE
  else if action =? THREAD_WAIT then Some CAP_TCTRL_WAIT
  else None.

Definition cap_match_thread (target flags_ : Z) (cap : capability) : K bool :=
  let action_flags := Z.land flags_ THREAD_ACTION_MASK in
  match tctrl_perm action_flags with
  | None => mret false
  | Some p =>
      if negb (has cap p) then mret false
      else
        bug_on ((target =? 0) && negb (action_flags =? THREAD_CREATE)) "cap_match_thread" ;;
        bug_on (negb (target =? 0) && (action_flags =? THREAD_CREATE)) "cap_match_thread" ;;
        if action_flags =? THREAD_CREATE then
          cc ← curcont;
          ccid ← gets (fun s => cid (conts s cc));
          mret ((cap_rtype cap =? CAP_RTYPE_CONTAINER) && (resid cap =? ccid))
        else cap_match_target cap target
  end.

(** The permissions a mapping flag demands, all of them; none for a flag the
    check does not know. *)
Definition map_perms (flags_ : Z) : option Z :=
  if flags_ =? MAP_USR_RW then Some (Z.lor (Z.lor CAP_MAP_READ CAP_MAP_WRITE) CAP_MAP_CACHED)
  else if flags_ =? MAP_USR_RWX then
    Some (Z.lor (Z.lor CAP_MAP_READ CAP_MAP_WRITE) (Z.lor CAP_MAP_EXEC CAP_MAP_CACHED))
  else if flags_ =? MAP_USR_RO then Some (Z.lor CAP_MAP_READ CAP_MAP_CACHED)
  else if flags_ =? MAP_USR_RX then Some (Z.lor (Z.lor CAP_MAP_READ CAP_MAP_EXEC) CAP_MAP_CACHED)
  else if flags_ =? MAP_USR_IO then Some (Z.lor (Z.lor CAP_MAP_READ CAP_MAP_WRITE) CAP_MAP_UNCACHED)
  else if flags_ =? MAP_UNMAP then Some CAP_MAP_UNMAP
  else None.

(** The range check is done in 64 bits, so [pfn + npages] does not wrap. *)
Definition cap_match_mem (target phys virt npages flags_ : Z) (cap : capability) : K bool :=
  let pfn := if cap_type cap =? CAP_TYPE_MAP_PHYSMEM then __pfn phys else __pfn virt in
  if (pfn <? cstart cap) || (cend cap <? pfn + npages) then mret false
  else
    match map_perms flags_ with
    | None => mret false
    | Some perms => if negb (has_all cap perms) then mret false else cap_match_target cap target
    end.

(** The range test joins its two comparisons with [&&], as in the source. *)
Definition cap_match_irqctrl (target req irq : Z) (cap : capability) : K bool :=
  match (if req =? IRQ_CONTROL_REGISTER then Some CAP_IRQCTRL_REGISTER
         else if req =? IRQ_CONTROL_WAIT then Some CAP_IRQCTRL_WAIT else None) with
  | None => mret false
  | Some p =>
      if negb (has cap p) then mret false
      else if (irq <? cstart cap) && (cend cap <? irq) then mret false
      else cap_match_target cap target
  end.

Definition cap_match_cache (start npages flags_ : Z) (cap : capability) : K bool :=
  let pfn := __pfn start in
  if (pfn <? cstart cap) || (cend cap <? pfn + npages) then mret false
  else if (flags_ =? L4_INVALIDATE_DCACHE) || (flags_ =? L4_INVALIDATE_ICACHE)
          || (flags_ =? L4_INVALIDATE_TLB) then mret (has_all cap CAP_CACHE_INVALIDATE)
  else if (flags_ =? L4_CLEAN_DCACHE) || (flags_ =? L4_CLEAN_INVALIDATE_DCACHE) then
    mret (has_all cap CAP_CACHE_CLEAN)
  else mret false.

(** * The checks *)

(** [-ENOCAP] unless the current task holds a matching capability. *)
Definition require_cap (cap_match : capability -> K bool) (type : Z) : K Z :=
  cur ← gets current;
  c ← cap_find cur cap_match type;
  mret (if c =? 0 then - ENOCAP else 0).

Definition cap_map_check (target phys virt npages flags_ : Z) : K Z :=
  r ← require_cap (cap_match_mem target phys virt npages flags_) CAP_TYPE_MAP_PHYSMEM;
  if r <? 0 then mret r
  else require_cap (cap_match_mem target phys virt npages flags_) CAP_TYPE_MAP_VIRTMEM.

Definition cap_unmap_check (target virt npages : Z) : K Z :=
  require_cap (cap_match_mem target 0 virt npages MAP_UNMAP) CAP_TYPE_MAP_VIRTMEM.

Definition cap_ipc_check (to from flags_ ipc_type : Z) : K Z :=
  if negb (ipc_type =? IPC_SEND) && negb (ipc_type =? IPC_SENDRECV) then mret 0
  else
    target ← tcb_find to;
    if target =? 0 then mret (- ESRCH)
    else require_cap (cap_match_ipc target ipc_type (ipc_flags_get_type flags_)) CAP_TYPE_IPC.

Definition cap_exregs_check (task : Z) (exregs : exregs_data) : K Z :=
  require_cap (cap_match_exregs task exregs) CAP_TYPE_EXREGS.

Definition cap_thread_check (task flags_ : Z) : K Z :=
  require_cap (cap_match_thread task flags_) CAP_TYPE_TCTRL.

Definition cap_irq_check (task req irq : Z) : K Z :=
  require_cap (cap_match_irqctrl task req irq) CAP_TYPE_IRQCTRL.

Definition cap_cache_check (start end_ flags_ : Z) : K Z :=
  require_cap (cap_match_cache start (u32 (__pfn end_ - __pfn start)) flags_) CAP_TYPE_MAP_VIRTMEM.
