(* ===== verification/Authority.v ===== *)
(** What the capability checks of [src/generic/capability.c] enforce: a check
    passes exactly when the current task holds, in its address space's list or
    its container's, a capability that grants the operation on the target. *)
From S2P Require Import Prelude Bits Defs Kernel Exec Sched SchedInv Demo Alloc Caps.

(** * Accounting *)

Definition charge (cap q : Z) : kstate -> kstate := with_cap cap (fun c => c <| used ::= fun u => u32 (u + q) |>).
Definition discharge (cap q : Z) : kstate -> kstate := with_cap cap (fun c => c <| used ::= fun u => u32 (u - q) |>).
Lemma capability_consume_run cap q s :
  capability_consume cap q s =
  if csize (capmem s cap) <? u32 (used (capmem s cap) + q) then Ret (- ENOCAP) s else Ret 0 (charge cap q s).
Proof. exec capability_consume. by destruct (_ <? _). Qed.
Lemma capability_free_run cap q s : capability_free cap q s = Ret 0 (discharge cap q s).
Proof.
  exec capability_free. rewrite (proj2 (Z.ltb_ge _ 0)); [done|]. cbn. rewrite upd_eq. apply u32_range.
Qed.

(** C40: a capability's account is exact.  A request that fits is charged and
    the use stays within the size, one that does not is refused with [-ENOCAP]
    and nothing changes, and releasing what was charged restores the
    capability. *)
Theorem capability_accounting (cap q : Z) (s : kstate)
    (Hu : 0 <= used (capmem s cap) <= csize (capmem s cap)) (Hz : csize (capmem s cap) < 2 ^ 32)
    (Hq : 0 <= q) (Hs : used (capmem s cap) + q < 2 ^ 32) :
  if used (capmem s cap) + q <=? csize (capmem s cap) then
    exists s1 s2, capability_consume cap q s = Ret 0 s1
      /\ used (capmem s1 cap) = used (capmem s cap) + q /\ used (capmem s1 cap) <= csize (capmem s1 cap)
      /\ capability_free cap q s1 = Ret 0 s2 /\ forall c, capmem s2 c = capmem s c
  else capability_consume cap q s = Ret (- ENOCAP) s.
Proof.
  rewrite capability_consume_run, u32_id by (unfold is_u32; lia).
  destruct (Z.leb_spec (used (capmem s cap) + q) (csize (capmem s cap))) as [Hle|Hgt].
  - rewrite (proj2 (Z.ltb_ge _ _)) by lia. exists (charge cap q s), (discharge cap q (charge cap q s)).
    assert (used (capmem (charge cap q s) cap) = used (capmem s cap) + q) as E1.
    { cbn. rewrite upd_eq. apply u32_id. unfold is_u32. lia. }
    split_and!; [done|done|rewrite E1; cbn; by rewrite upd_eq|apply capability_free_run|].
    intros c. cbn. destruct (decide (cap = c)) as [<-|]; [rewrite !upd_eq|by rewrite !upd_ne].
    destruct (capmem s cap). unfold set_field. cbn in *. f_equal.
    rewrite (u32_id (used + q)) by (unfold is_u32; lia). rewrite u32_id by (unfold is_u32; lia). lia.
  - by rewrite (proj2 (Z.ltb_lt _ _)) by lia.
Qed.
Definition demo_cap : capability := MkCap 7 1 2 (Z.lor CAP_TYPE_QUANTITY CAP_RTYPE_SPACEPOOL) 0 0 0 4 3.
Lemma capability_accounting_witness :
  let s := with_cap 1024 (fun _ => demo_cap) demo in
  exists s1 s2, capability_consume 1024 1 s = Ret 0 s1
      /\ used (capmem s1 1024) = 4 /\ used (capmem s1 1024) <= csize (capmem s1 1024)
      /\ capability_free 1024 1 s1 = Ret 0 s2 /\ forall c, capmem s2 c = capmem s c.
Proof.
  exact (capability_accounting 1024 1 (with_cap 1024 (fun _ => demo_cap) demo)
    ltac:(by vm_compute) eq_refl ltac:(by vm_compute) eq_refl).
Defined.

(** * Searching *)

(** The capabilities a task holds, in the order they are searched. *)
Definition holds (s : kstate) (t : Z) : list Z :=
  caps (caplists s (CL_SPACE (space (tcbs s t)))) ++ caps (caplists s (CL_CONT (container (tcbs s t)))).
Definition grants (s : kstate) (t type : Z) (g : capability -> bool) : bool :=
  existsb (fun c => (cap_type (capmem s c) =? type) && g (capmem s c)) (holds s t).

Section Search.
Context (s : kstate) (f : capability -> K bool) (g : capability -> bool) (type : Z).

(** On the capabilities searched, the match function computes [g]. *)
Definition matches (l : list Z) : Prop :=
  forall c, c ∈ l -> c <> 0 /\ (cap_type (capmem s c) = type -> f (capmem s c) s = Ret (g (capmem s c)) s).

Lemma cap_find_in_run l : matches l ->
  exists c, cap_find_in f type l s = Ret c s
    /\ (c =? 0) = negb (existsb (fun c => (cap_type (capmem s c) =? type) && g (capmem s c)) l).
Proof.
  induction l as [|x l IH]; intros Hm; [by exists 0|]. cbn [cap_find_in existsb]. exec.
  destruct (Hm x ltac:(left)) as [Hx Hf].
  destruct IH as (c & Hc & Hz). { intros y Hy. apply Hm. by right. }
  destruct (Z.eqb_spec (cap_type (capmem s x)) type) as [Ht|Ht]; cbn [andb orb]; [|by exists c].
  rewrite (Hf Ht). cbn [obind]. destruct (g (capmem s x)); cbn [orb]; [|by exists c].
  exists x. split; [done|]. cbn. by apply Z.eqb_neq.
Qed.

Lemma require_cap_run :
  matches (holds s (current s)) ->
  require_cap f type s = Ret (if grants s (current s) type g then 0 else - ENOCAP) s.
Proof.
  intros Hm. exec require_cap cap_find. unfold holds in Hm.
  destruct (cap_find_in_run (caps (caplists s (CL_SPACE (space (tcbs s (current s))))))) as (c & -> & Hc).
  { intros x Hx. apply Hm, elem_of_app. by left. }
  cbn [obind]. unfold grants, holds. rewrite existsb_app.
  destruct (existsb _ (caps (caplists s (CL_SPACE _)))) eqn:E1; cbn [negb orb] in *; rewrite Hc; cbn [negb obind].
  - by rewrite Hc.
  - destruct (cap_find_in_run (caps (caplists s (CL_CONT (container (tcbs s (current s))))))) as (c' & -> & Hc').
    { intros x Hx. apply Hm, elem_of_app. by right. }
    cbn [obind]. rewrite Hc'. match goal with |- context [existsb ?p ?l] => by destruct (existsb p l) end.
Qed.
End Search.

(** * Targets *)

(** The capability names the target thread, its space or its container. *)
Definition names (s : kstate) (target : Z) (cap : capability) : bool :=
  ((cap_rtype cap =? CAP_RTYPE_THREAD) && (tid (tcbs s target) =? resid cap))
  || ((cap_rtype cap =? CAP_RTYPE_SPACE) && (spid (spaces s (space (tcbs s target))) =? resid cap))
  || ((cap_rtype cap =? CAP_RTYPE_CONTAINER) && (cid (conts s (container (tcbs s target))) =? resid cap)).
Definition known_rtype (cap : capability) : Prop :=
  cap_rtype cap = CAP_RTYPE_THREAD \/ cap_rtype cap = CAP_RTYPE_SPACE \/ cap_rtype cap = CAP_RTYPE_CONTAINER.
Lemma cap_match_target_run cap target s :
  known_rtype cap -> cap_match_target cap target s = Ret (names s target cap) s.
Proof.
  intros Hk. exec cap_match_target. unfold names.
  assert ((CAP_RTYPE_THREAD =? CAP_RTYPE_SPACE) = false /\ (CAP_RTYPE_THREAD =? CAP_RTYPE_CONTAINER) = false
    /\ (CAP_RTYPE_SPACE =? CAP_RTYPE_THREAD) = false /\ (CAP_RTYPE_SPACE =? CAP_RTYPE_CONTAINER) = false
    /\ (CAP_RTYPE_CONTAINER =? CAP_RTYPE_THREAD) = false /\ (CAP_RTYPE_CONTAINER =? CAP_RTYPE_SPACE) = false)
    as (E1 & E2 & E3 & E4 & E5 & E6) by done.
  destruct Hk as [-> | [-> | ->]]; rewrite ?E1, ?E2, ?E3, ?E4, ?E5, ?E6, Z.eqb_refl; cbn [andb orb]; by rewrite ?orb_false_r.
Qed.

(** What the boot code guarantees of the capabilities a task holds: none is
    null, and those of the given type name a thread, a space or a container. *)
Definition caps_ok (s : kstate) (type : Z) : Prop :=
  forall c, c ∈ holds s (current s) -> c <> 0 /\ (cap_type (capmem s c) = type -> known_rtype (capmem s c)).

(** * Memory *)

(** A capability on page frames [cstart] to [cend] grants a mapping of [npages]
    from page frame [pfn] with the rights the flags ask for. *)
Definition grants_pages (s : kstate) (target pfn npages fl : Z) (cap : capability) : bool :=
  (cstart cap <=? pfn) && (pfn + npages <=? cend cap)
  && match map_perms fl with Some p => has_all cap p | None => false end && names s target cap.

Lemma cap_match_mem_run s target phys virt npages fl type cap :
  known_rtype cap -> cap_type cap = type ->
  cap_match_mem target phys virt npages fl cap s
  = Ret (grants_pages s target (__pfn (if type =? CAP_TYPE_MAP_PHYSMEM then phys else virt)) npages fl cap) s.
Proof.
  intros Hk Ht. unfold cap_match_mem, grants_pages. rewrite Ht.
  replace (__pfn (if type =? CAP_TYPE_MAP_PHYSMEM then phys else virt))
    with (if type =? CAP_TYPE_MAP_PHYSMEM then __pfn phys else __pfn virt) by (by destruct (type =? _)).
  generalize (if type =? CAP_TYPE_MAP_PHYSMEM then __pfn phys else __pfn virt). intros pfn.
  rewrite !Z.leb_antisym. destruct (pfn <? cstart cap); cbn [orb negb andb]; [done|].
  destruct (cend cap <? pfn + npages); cbn [orb negb andb]; [done|].
  destruct (map_perms fl) as [p|]; [|done]. destruct (has_all cap p); cbn [negb andb]; [|done].
  by apply cap_match_target_run.
Qed.

(** C7: [cap_map_check] lets a mapping through exactly when the current task
    holds a physical-memory capability and a virtual-memory capability that
    each cover all the pages, grant every right the flags ask for, and name the
    target; in every other case the answer is [-ENOCAP].  It changes nothing. *)
Theorem cap_map_check_decides (target phys virt npages fl : Z) (s : kstate)
    (Hp : caps_ok s CAP_TYPE_MAP_PHYSMEM) (Hv : caps_ok s CAP_TYPE_MAP_VIRTMEM) :
  cap_map_check target phys virt npages fl s
  = Ret (if grants s (current s) CAP_TYPE_MAP_PHYSMEM (grants_pages s target (__pfn phys) npages fl)
            && grants s (current s) CAP_TYPE_MAP_VIRTMEM (grants_pages s target (__pfn virt) npages fl)
         then 0 else - ENOCAP) s.
Proof.
  exec cap_map_check.
  rewrite (require_cap_run s _ (grants_pages s target (__pfn phys) npages fl)).
  2:{ intros c Hc. destruct (Hp c Hc) as [H1 H2]. split; [done|]. intros Ht.
      by rewrite (cap_match_mem_run _ _ _ _ _ _ CAP_TYPE_MAP_PHYSMEM) by auto. }
  cbn [obind]. destruct (grants s (current s) CAP_TYPE_MAP_PHYSMEM _); [|done]. change (0 <? 0) with false. cbv beta iota.
  rewrite (require_cap_run s _ (grants_pages s target (__pfn virt) npages fl)); [done|].
  intros c Hc. destruct (Hv c Hc) as [H1 H2]. split; [done|]. intros Ht.
  by rewrite (cap_match_mem_run _ _ _ _ _ _ CAP_TYPE_MAP_VIRTMEM) by auto.
Qed.

(** The demo system with memory and ipc capabilities in the pager's space. *)
Definition demo_caps : kstate :=
  with_caps (CL_SPACE 256) (fun _ => MkCapList 3 [1024; 1040; 1056])
    (with_cap 1024 (fun _ => MkCap 1 1 0 (Z.lor CAP_TYPE_MAP_PHYSMEM CAP_RTYPE_CONTAINER)
        (Z.lor (Z.lor CAP_MAP_READ CAP_MAP_WRITE) CAP_MAP_CACHED) 16 32 0 0)
    (with_cap 1040 (fun _ => MkCap 2 1 0 (Z.lor CAP_TYPE_MAP_VIRTMEM CAP_RTYPE_SPACE)
        (Z.lor (Z.lor CAP_MAP_READ CAP_MAP_WRITE) CAP_MAP_CACHED) 64 80 0 0)
    (with_cap 1056 (fun _ => MkCap 3 1 2 (Z.lor CAP_TYPE_IPC CAP_RTYPE_THREAD)
        (Z.lor CAP_IPC_SHORT CAP_IPC_SEND) 0 0 0 0) demo))).
Lemma demo_caps_ok type : caps_ok demo_caps type.
Proof.
  intros c Hc. change (holds demo_caps (current demo_caps)) with [1024; 1040; 1056] in Hc.
  rewrite !elem_of_cons in Hc.
  destruct Hc as [-> | [-> | [-> | Hc%elem_of_nil]]]; [| | |done]; (split; [done|intros _]).
  - by right; right.
  - by right; left.
  - by left.
Qed.
Lemma cap_map_check_decides_witness :
  cap_map_check 16 0x10000 0x40000 16 MAP_USR_RW demo_caps = Ret 0 demo_caps
  /\ cap_map_check 16 0x10000 0x40000 17 MAP_USR_RW demo_caps = Ret (- ENOCAP) demo_caps.
Proof.
  split.
  - exact (cap_map_check_decides 16 0x10000 0x40000 16 MAP_USR_RW demo_caps (demo_caps_ok _) (demo_caps_ok _)).
  - exact (cap_map_check_decides 16 0x10000 0x40000 17 MAP_USR_RW demo_caps (demo_caps_ok _) (demo_caps_ok _)).
Defined.

(** * Finding threads *)

(** The task a thread id names, 0 if none: the current task, or the first of
    that id in the container the id's top byte names. *)
Definition find_in (s : kstate) (c tid_ : Z) : Z :=
  default 0 (list_find (fun t => tid (tcbs s t) =? tid_) (ktcb_list (conts s c)) ≫= fun x => Some (snd x)).
Definition container_of (s : kstate) (cid_ : Z) : Z :=
  default 0 (list_find (fun c => cid (conts s c) =? cid_) (containers (kres s)) ≫= fun x => Some (snd x)).
Definition task_of (s : kstate) (tid_ : Z) : Z :=
  let own := container (tcbs s (current s)) in
  if tid (tcbs s (current s)) =? tid_ then current s
  else if tid_to_cid tid_ =? cid (conts s own) then find_in s own tid_
  else if container_of s (tid_to_cid tid_) =? 0 then 0 else find_in s (container_of s (tid_to_cid tid_)) tid_.

Lemma container_find_tcb_run c tid_ s : container_find_tcb c tid_ s = Ret (find_in s c tid_) s.
Proof. exec container_find_tcb find_task. f_equal. apply preempt_pred_succ. Qed.
Lemma container_find_run cid_ s : container_find cid_ s = Ret (container_of s cid_) s.
Proof. exec container_find. f_equal. apply preempt_pred_succ. Qed.
Lemma tcb_find_run tid_ s : tcb_find tid_ s = Ret (task_of s tid_) s.
Proof.
  exec tcb_find. unfold task_of. destruct (_ =? tid_); [done|]. exec. destruct (tid_to_cid tid_ =? _).
  - apply container_find_tcb_run.
  - rewrite container_find_run. cbn [obind]. destruct (container_of _ _ =? 0); [done|apply container_find_tcb_run].
Qed.

(** * Ipc *)

Definition grants_ipc (s : kstate) (target ipc_type xfer : Z) (cap : capability) : bool :=
  ipc_xfer_allowed cap xfer && (negb (flag_set ipc_type IPC_SEND) || has cap CAP_IPC_SEND) && names s target cap.

(** C8: [cap_ipc_check] lets a send through exactly when the receiver exists
    and the current task holds an ipc capability that allows the message type
    and sending, and names the receiver; otherwise it answers [-ESRCH] or
    [-ENOCAP].  Receiving alone asks for no capability.  Nothing changes. *)
Theorem cap_ipc_check_decides (to from fl ipc_type : Z) (s : kstate) (Hc : caps_ok s CAP_TYPE_IPC) :
  cap_ipc_check to from fl ipc_type s
  = Ret (if (ipc_type =? IPC_SEND) || (ipc_type =? IPC_SENDRECV) then
           if task_of s to =? 0 then - ESRCH
           else if grants s (current s) CAP_TYPE_IPC (grants_ipc s (task_of s to) ipc_type (ipc_flags_get_type fl))
                then 0 else - ENOCAP
         else 0) s.
Proof.
  exec cap_ipc_check. rewrite <- negb_orb. destruct ((ipc_type =? IPC_SEND) || _); cbn [negb]; [|done].
  exec. rewrite tcb_find_run. cbn [obind]. destruct (task_of s to =? 0); [done|].
  apply require_cap_run. intros c Hin. destruct (Hc c Hin) as [H1 H2]. split; [done|]. intros Ht.
  unfold cap_match_ipc, grants_ipc. destruct (ipc_xfer_allowed _ _); cbn [negb andb]; [|done].
  destruct (flag_set ipc_type IPC_SEND), (has _ CAP_IPC_SEND); cbn [negb andb orb]; try done;
    by apply cap_match_target_run, H2.
Qed.
Lemma cap_ipc_check_decides_witness :
  cap_ipc_check 2 L4_NILTHREAD IPC_FLAGS_SHORT IPC_SEND demo_caps = Ret 0 demo_caps
  /\ cap_ipc_check 3 L4_NILTHREAD IPC_FLAGS_SHORT IPC_SEND demo_caps = Ret (- ENOCAP) demo_caps
  /\ cap_ipc_check 9 L4_NILTHREAD IPC_FLAGS_SHORT IPC_SEND demo_caps = Ret (- ESRCH) demo_caps.
Proof.
  split_and!; [exact (cap_ipc_check_decides 2 _ _ _ demo_caps (demo_caps_ok _))
              |exact (cap_ipc_check_decides 3 _ _ _ demo_caps (demo_caps_ok _))
              |exact (cap_ipc_check_decides 9 _ _ _ demo_caps (demo_caps_ok _))].
Defined.

(** * Interrupts *)

(** The range test of [cap_match_irqctrl] joins its two comparisons with
    [&&]: a capability on a non-empty range of interrupts is good for every
    interrupt number, those outside its range included. *)
Theorem irq_capability_range_is_not_enforced (target req irq irq' : Z) (cap : capability)
    (Hr : cstart cap <= cend cap) :
  cap_match_irqctrl target req irq cap = cap_match_irqctrl target req irq' cap.
Proof.
  unfold cap_match_irqctrl. destruct (if req =? _ then _ else _) as [p|]; [|done].
  destruct (negb _); [done|].
  assert (forall i, (i <? cstart cap) && (cend cap <? i) = false) as E.
  { intros i. destruct (Z.ltb_spec i (cstart cap)), (Z.ltb_spec (cend cap) i); cbn; try done. lia. }
  by rewrite !E.
Qed.
Lemma irq_capability_range_is_not_enforced_witness :
  let cap := MkCap 9 1 1 (Z.lor CAP_TYPE_IRQCTRL CAP_RTYPE_THREAD) CAP_IRQCTRL_REGISTER 4 4 0 0 in
  cap_match_irqctrl 16 IRQ_CONTROL_REGISTER 40 cap = cap_match_irqctrl 16 IRQ_CONTROL_REGISTER 4 cap
  /\ cap_match_irqctrl 16 IRQ_CONTROL_REGISTER 4 cap demo = Ret true demo.
Proof. split; [|reflexivity]. apply irq_capability_range_is_not_enforced. vm_compute. discriminate. Defined.
