(* ===== verification/Mapping.v ===== *)
(** Page tables: [src/arch/arm/mapping-common.c], the ARMv5
    [src/arch/arm/v5/mapping.c] with [include/l4/arch/arm/v5/mm.h], and
    [space_flags_to_ptflags] of [src/glue/arm/memory.c].

    A page directory (pgd) and a second-level table (pmd) are arrays of 32-bit
    entries named by their kernel virtual address.  Cache and TLB maintenance
    has no effect on this state. *)
From S2P Require Import Prelude Defs Kernel Sched Alloc.

(** * Entry formats *)

Definition PGD_ENTRY_TOTAL := 0x1000.
Definition PMD_SIZE := 1024.
Definition PMD_MAP_SIZE := 0x100000.
Definition PMD_ALIGN_MASK := lnot32 (PMD_SIZE - 1).
Definition PMD_TYPE_MASK := 0x3.
Definition PMD_TYPE_FAULT := 0.
Definition PMD_TYPE_PMD := 1.
Definition PTE_TYPE_MASK := 0x3.
Definition PTE_TYPE_FAULT := 0.
Definition PTE_TYPE_SMALL := 2.
Definition PTE_PROT_MASK := Z.shiftl 0xFF 4.
Definition USERSPACE_CONSOLE_VBASE := 0xF9800000.

Definition PGD_INDEX (x : Z) : Z := Z.land (Z.shiftr x 18) 0x3FFC / 4.
Definition PMD_INDEX (x : Z) : Z := Z.land (Z.shiftr x 10) 0x3FC / 4.

(** An access permission repeated for the four subpages of a small page. *)
Definition ap4 (ap : Z) : Z :=
  Z.lor (Z.lor (Z.shiftl ap 4) (Z.shiftl ap 6)) (Z.lor (Z.shiftl ap 8) (Z.shiftl ap 10)).
Definition cacheable := Z.shiftl 1 3.
Definition bufferable := Z.shiftl 1 2.
Definition SVC_RW_USR_NONE := 1.
Definition SVC_RW_USR_RO := 2.
Definition SVC_RW_USR_RW := 3.
Definition __MAP_FAULT := 0.
Definition __MAP_USR_RW := Z.lor (Z.lor cacheable bufferable) (ap4 SVC_RW_USR_RW).
Definition __MAP_USR_RO := Z.lor (Z.lor cacheable bufferable) (ap4 SVC_RW_USR_RO).
Definition __MAP_KERN_RW := Z.lor (Z.lor cacheable bufferable) (ap4 SVC_RW_USR_NONE).
Definition __MAP_KERN_IO := ap4 SVC_RW_USR_NONE.
Definition __MAP_USR_IO := ap4 SVC_RW_USR_RW.

Definition space_flags_to_ptflags (flags_ : Z) : Z :=
  if flags_ =? MAP_FAULT then __MAP_FAULT
  else if flags_ =? MAP_USR_RW then __MAP_USR_RW
  else if flags_ =? MAP_USR_RO then __MAP_USR_RO
  else if flags_ =? MAP_KERN_RW then __MAP_KERN_RW
  else if flags_ =? MAP_USR_IO then __MAP_USR_IO
  else if flags_ =? MAP_KERN_IO then __MAP_KERN_IO
  else if flags_ =? MAP_USR_RWX then __MAP_USR_RW
  else if flags_ =? MAP_KERN_RWX then __MAP_KERN_RW
  else if flags_ =? MAP_USR_RX then __MAP_USR_RO
  else if flags_ =? MAP_KERN_RX then __MAP_KERN_RW
  else MAP_INVALID_FLAGS.

(** * Reading and writing entries *)

Definition pgd_put (p i v : Z) : K unit :=
  modify (with_pgd p i v).
Definition pmd_put (p i v : Z) : K unit :=
  modify (with_pmd p i v).

(** [arch_pick_pmd]: the entry is named by directory and index. *)
Definition arch_pick_pmd (vaddr : Z) : Z := PGD_INDEX vaddr.

Definition entry_type (e : Z) : Z := Z.land e PMD_TYPE_MASK.
Definition pmd_of_entry (e : Z) : Z := phys_to_virt (Z.land e PMD_ALIGN_MASK).

Definition pmd_exists (task_pgd vaddr : Z) : K Z :=
  pmd ← gets (fun s => pgds s task_pgd (arch_pick_pmd vaddr));
  if entry_type pmd =? PMD_TYPE_PMD then mret (pmd_of_entry pmd)
  else if entry_type pmd =? 0 then mret 0
  else bug "pmd_exists".

Definition virt_to_pte_from_pgd (task_pgd virtual : Z) : K Z :=
  pmd ← pmd_exists task_pgd virtual;
  if negb (pmd =? 0) then gets (fun s => pmds s pmd (PMD_INDEX virtual)) else mret 0.

(** The pointer variant returns table and index, or nothing. *)
Definition virt_to_ptep_from_pgd (task_pgd virtual : Z) : K (option (Z * Z)) :=
  pmd ← pmd_exists task_pgd virtual;
  mret (if negb (pmd =? 0) then Some (pmd, PMD_INDEX virtual) else None).

Definition TASK_PGD (s : kstate) (t : Z) : Z := pgd (spaces s (space (tcbs s t))).

Definition virt_to_pte (virtual : Z) : K Z :=
  p ← gets (fun s => TASK_PGD s (current s)); virt_to_pte_from_pgd p virtual.
Definition virt_to_ptep (virtual : Z) : K (option (Z * Z)) :=
  p ← gets (fun s => TASK_PGD s (current s)); virt_to_ptep_from_pgd p virtual.

Definition virt_to_phys_by_pgd (pgd_ vaddr : Z) : K Z :=
  pte ← virt_to_pte_from_pgd pgd_ vaddr; mret (Z.land pte (lnot32 PAGE_MASK)).

(** [pte_t *ptep] is written by the callers below with the value returned. *)
Definition arch_prepare_pte (paddr vaddr flags_ : Z) : K Z :=
  bug_on (negb (is_page_aligned paddr) || negb (is_page_aligned vaddr)) "arch_prepare_pte" ;;
  mret (if flags_ =? __MAP_FAULT then Z.lor (Z.lor paddr flags_) PTE_TYPE_FAULT
        else Z.lor (Z.lor paddr flags_) PTE_TYPE_SMALL).
Definition arch_write_pte (ptep : Z * Z) (pte : Z) : K unit := pmd_put (fst ptep) (snd ptep) pte.
Definition arch_prepare_write_pte (paddr vaddr flags_ : Z) (ptep : Z * Z) : K unit :=
  bug_on (negb (is_page_aligned paddr)) "arch_prepare_write_pte" ;;
  bug_on (negb (is_page_aligned vaddr)) "arch_prepare_write_pte" ;;
  pte ← arch_prepare_pte paddr vaddr flags_;
  arch_write_pte ptep pte.
Definition arch_write_pmd (pgd_ pmd_i pmd_phys : Z) : K unit :=
  pgd_put pgd_ pmd_i (Z.lor pmd_phys PMD_TYPE_PMD).

Definition attach_pmd (space_ pmd_table vaddr : Z) : K unit :=
  let pmd_phys := virt_to_phys pmd_table in
  bug_on (negb (is_aligned pmd_phys PMD_SIZE)) "attach_pmd" ;;
  p ← gets (fun s => pgd (spaces s space_));
  arch_write_pmd p (arch_pick_pmd vaddr) pmd_phys.

Definition arch_check_pte_access_perms (pte flags_ : Z) : bool :=
  Z.land flags_ PTE_PROT_MASK <=? Z.land pte PTE_PROT_MASK.

Definition is_global_pgdi (i : Z) : bool :=
  ((PGD_INDEX KERNEL_AREA_START <=? i) && (i <? PGD_INDEX KERNEL_AREA_END))
  || ((PGD_INDEX IO_AREA_START <=? i) && (i <? PGD_INDEX IO_AREA_END))
  || (i =? PGD_INDEX USER_KIP_PAGE) || (i =? PGD_INDEX ARM_HIGH_VECTOR)
  || (i =? PGD_INDEX ARM_SYSCALL_VECTOR) || (i =? PGD_INDEX USERSPACE_CONSOLE_VBASE).

(** * Mapping and unmapping *)

(** Number of pages that cover a size in bytes. *)
Definition map_npages (sz_bytes : Z) : Z :=
  let npages := Z.shiftr sz_bytes PAGE_BITS in
  if negb (Z.land sz_bytes PAGE_MASK =? 0) then npages + 1 else npages.

(** The directory indices of a full pgd, for the loops over it. *)
Definition pgd_indices : list Z := seqZ 0 PGD_ENTRY_TOTAL.

Section Tables.
Context (fuel : nat).

(** One page: allocate and attach the second-level table if there is none.
    The loop body of [add_mapping_use_cap] and [add_mapping_space]. *)
Definition map_one (physical virtual ptflags space_ : Z) (clist : cl_ref) : K Z :=
  p ← gets (fun s => pgd (spaces s space_));
  pmd_table ← pmd_exists p virtual;
  if pmd_table =? 0 then
    pmd_table ← pmd_cap_alloc fuel clist;
    if pmd_table =? 0 then mret (- ENOMEM)
    else
      pte ← arch_prepare_pte physical virtual ptflags;
      arch_write_pte (pmd_table, PMD_INDEX virtual) pte ;;
      attach_pmd space_ pmd_table virtual ;;
      mret 0
  else
    arch_prepare_write_pte physical virtual ptflags (pmd_table, PMD_INDEX virtual) ;;
    mret 0.

(** The [for] loop over [n] pages, left early on a negative result. *)
Fixpoint map_pages (n : nat) (physical virtual ptflags space_ : Z) (clist : cl_ref) : K Z :=
  match n with
  | O => mret 0
  | S n =>
      r ← map_one physical virtual ptflags space_ clist;
      if r <? 0 then mret r
      else map_pages n (u32 (physical + PAGE_SIZE)) (u32 (virtual + PAGE_SIZE)) ptflags space_ clist
  end.

Definition add_mapping_use_cap (physical virtual sz_bytes flags_ space_ : Z) (clist : cl_ref) : K Z :=
  bug_on (sz_bytes <? PAGE_SIZE) "add_mapping_use_cap" ;;
  let flags_ := space_flags_to_ptflags flags_ in
  bug_on (flags_ =? 0) "add_mapping_use_cap" ;;
  map_pages (Z.to_nat (map_npages sz_bytes)) physical virtual flags_ space_ clist.

(** The same, charging the current task's space. *)
Definition add_mapping_space (physical virtual sz_bytes flags_ space_ : Z) : K Z :=
  bug_on (sz_bytes <? PAGE_SIZE) "add_mapping_space" ;;
  let flags_ := space_flags_to_ptflags flags_ in
  bug_on (flags_ =? 0) "add_mapping_space" ;;
  sp ← cur_get space;
  map_pages (Z.to_nat (map_npages sz_bytes)) physical virtual flags_ space_ (CL_SPACE sp).

Definition add_mapping (paddr vaddr size_ flags_ : Z) : K Z :=
  sp ← cur_get space; add_mapping_space paddr vaddr size_ flags_ sp.

Fixpoint check_pages (n : nat) (vaddr ptflags pgd_ : Z) : K bool :=
  match n with
  | O => mret true
  | S n =>
      pte ← virt_to_pte_from_pgd pgd_ vaddr;
      if arch_check_pte_access_perms pte ptflags
      then check_pages n (u32 (vaddr + PAGE_SIZE)) ptflags pgd_ else mret false
  end.
Definition check_mapping_pgd (vaddr size_ flags_ pgd_ : Z) : K bool :=
  let npages := __pfn (align_up size_ PAGE_SIZE) in
  let flags_ := space_flags_to_ptflags flags_ in
  bug_on (flags_ =? 0) "check_mapping_pgd" ;;
  check_pages (Z.to_nat npages) vaddr flags_ pgd_.
Definition check_mapping (vaddr size_ flags_ : Z) : K bool :=
  p ← gets (fun s => TASK_PGD s (current s)); check_mapping_pgd vaddr size_ flags_ p.

Definition remove_mapping_space (space_ vaddr : Z) : K Z :=
  let vaddr := page_align vaddr in
  let pmd_i := PMD_INDEX vaddr in
  pmd ← gets (fun s => pgds s (pgd (spaces s space_)) (arch_pick_pmd vaddr));
  let pmd_type := Z.land pmd PMD_TYPE_MASK in
  if pmd_type =? PMD_TYPE_FAULT then mret (- ENOMAP)
  else
    bug_on (negb (pmd_type =? PMD_TYPE_PMD)) "remove_mapping_space" ;;
    let pmd_table := pmd_of_entry pmd in
    pte ← gets (fun s => pmds s pmd_table pmd_i);
    let pte_type := Z.land pte PTE_TYPE_MASK in
    if pte_type =? PTE_TYPE_FAULT then mret (- ENOMAP)
    else
      bug_on (negb (pte_type =? PTE_TYPE_SMALL)) "remove_mapping_space" ;;
      arch_prepare_write_pte 0 vaddr (space_flags_to_ptflags MAP_FAULT) (pmd_table, pmd_i) ;;
      mret 0.
Definition remove_mapping (vaddr : Z) : K Z := sp ← cur_get space; remove_mapping_space sp vaddr.

(** Frees the private second-level tables and clears the private entries. *)
Definition remove_mapping_pgd_all_user (space_ : Z) (clist : cl_ref) : K unit :=
  p ← gets (fun s => pgd (spaces s space_));
  foreach pgd_indices (fun i =>
    when (negb (is_global_pgdi i))
      (e ← gets (fun s => pgds s p i);
       when (entry_type e =? PMD_TYPE_PMD) (pmd_cap_free fuel (pmd_of_entry e) clist) ;;
       pgd_put p i PMD_TYPE_FAULT)).

Definition delete_page_tables (space_ : Z) (clist : cl_ref) : K Z :=
  remove_mapping_pgd_all_user space_ clist ;;
  p ← gets (fun s => pgd (spaces s space_));
  pgd_free fuel p ;;
  mret 0.

(** The copying loop of [copy_user_tables]; false when a table could not be
    allocated. *)
Fixpoint copy_tables (to from : Z) (l : list Z) : K bool :=
  match l with
  | [] => mret true
  | i :: l =>
      e ← gets (fun s => pgds s from i);
      if negb (is_global_pgdi i) && (entry_type e =? PMD_TYPE_PMD) then
        sp ← cur_get space;
        pmd ← pmd_cap_alloc fuel (CL_SPACE sp);
        if pmd =? 0 then mret false
        else
          orig ← gets (fun s => pmds s (pmd_of_entry e));
          modify (fun s => s <| pmds ::= fun m => <[pmd := orig]> m |>) ;;
          pgd_put to i (Z.lor (virt_to_phys pmd) PMD_TYPE_PMD) ;;
          copy_tables to from l
      else copy_tables to from l
  end.
Definition copy_user_tables (new orig_space : Z) : K Z :=
  to ← gets (fun s => pgd (spaces s new));
  from ← gets (fun s => pgd (spaces s orig_space));
  ok ← copy_tables to from pgd_indices;
  if (ok : bool) then mret 0
  else
    foreach pgd_indices (fun i =>
      e ← gets (fun s => pgds s to i);
      when (negb (is_global_pgdi i) && (entry_type e =? PMD_TYPE_PMD))
        (sp ← cur_get space; pmd_cap_free fuel (pmd_of_entry e) (CL_SPACE sp))) ;;
    mret (- ENOMEM).
End Tables.

(** * Kernel entries of a new directory *)

(** [memcpy] of the directory entries [start_i ..] that cover the range. *)
Definition copy_pgds_by_vrange (to from start end_ : Z) : K unit :=
  let start_i := PGD_INDEX start in
  let end_i := PGD_INDEX end_ in
  let irange := if negb (end_i =? 0) then u32 (end_i - start_i) else PGD_ENTRY_TOTAL - start_i in
  modify (fun s => s <| pgds ::= fun m =>
    <[to := fun i => if (start_i <=? i) && (i <? start_i + irange) then m from i else m to i]> m |>).

Definition copy_pgd_global_by_vrange (to from start end_ : Z) : K unit :=
  let start := align start PMD_MAP_SIZE in
  let end_ := if end_ <? start then 0 else end_ in
  let end_ := if (end_ <? align (2 ^ 32 - 1) PMD_MAP_SIZE) || (end_ <? start)
              then align_up end_ PMD_MAP_SIZE else 0 in
  copy_pgds_by_vrange to from start end_.

Definition arch_copy_pgd_kernel_entries (to : Z) : K unit :=
  from ← gets (fun s => TASK_PGD s (current s));
  copy_pgd_global_by_vrange to from KERNEL_AREA_START KERNEL_AREA_END ;;
  copy_pgd_global_by_vrange to from IO_AREA_START IO_AREA_END ;;
  copy_pgd_global_by_vrange to from USER_KIP_PAGE (USER_KIP_PAGE + PAGE_SIZE) ;;
  copy_pgd_global_by_vrange to from ARM_HIGH_VECTOR (u32 (ARM_HIGH_VECTOR + PAGE_SIZE)) ;;
  copy_pgd_global_by_vrange to from ARM_SYSCALL_VECTOR (u32 (ARM_SYSCALL_VECTOR + PAGE_SIZE)) ;;
  copy_pgd_global_by_vrange to from USERSPACE_CONSOLE_VBASE (USERSPACE_CONSOLE_VBASE + PAGE_SIZE).
