(* ===== verification/PageTables.v ===== *)
(** What the two-level page tables of [src/arch/arm/mapping-common.c] translate:
    the hardware walk as a function of the state, the invariant under which
    directories do not share second-level tables, and the theorems that adding
    and removing mappings changes the translation of the pages named, in the
    directory named, and of nothing else. *)
From S2P Require Import Prelude Bits Defs Words Kernel Exec Sched SchedInv Demo Waiting Alloc Mutexes Caches Authority Mapping.

(** * Addresses *)

Definition page (va : Z) : Z := va / PAGE_SIZE.

Lemma pgd_index_page va : is_u32 va -> PGD_INDEX va = page va / 256.
Proof.
  intros Hva. unfold PGD_INDEX, page. change 4 with (2 ^ 2).
  rewrite <- Z.shiftr_div_pow2, Z.shiftr_land, Z.shiftr_shiftr by lia.
  change (Z.shiftr 0x3FFC 2) with (2 ^ 12 - 1). rewrite land_ones_mod, Z.shiftr_div_pow2 by lia.
  change PAGE_SIZE with (2 ^ 12). change 256 with (2 ^ 8). rewrite Z.div_div by lia. change (18 + 2) with (12 + 8).
  rewrite <- Z.pow_add_r by lia. apply Z.mod_small. unfold is_u32 in Hva.
  split; [apply Z.div_pos; lia|apply Z.div_lt_upper_bound; lia].
Qed.
Lemma pmd_index_page va : is_u32 va -> PMD_INDEX va = page va mod 256.
Proof.
  intros Hva. unfold PMD_INDEX, page. change 4 with (2 ^ 2).
  rewrite <- Z.shiftr_div_pow2, Z.shiftr_land, Z.shiftr_shiftr by lia.
  change (Z.shiftr 0x3FC 2) with (2 ^ 8 - 1). rewrite land_ones_mod, Z.shiftr_div_pow2 by lia. done.
Qed.
Lemma same_page_indices va vb : is_u32 va -> is_u32 vb ->
  page va = page vb <-> PGD_INDEX va = PGD_INDEX vb /\ PMD_INDEX va = PMD_INDEX vb.
Proof.
  intros Ha Hb. rewrite !pgd_index_page, !pmd_index_page by done. split; [by intros ->|intros [E1 E2]].
  pose proof (Z.div_mod (page va) 256 ltac:(lia)). pose proof (Z.div_mod (page vb) 256 ltac:(lia)). lia.
Qed.
Definition dir_index (i : Z) : Prop := 0 <= i < PGD_ENTRY_TOTAL.
Lemma pgd_index_range va : is_u32 va -> dir_index (PGD_INDEX va).
Proof.
  intros Hva. rewrite pgd_index_page by done. unfold dir_index, page, PGD_ENTRY_TOTAL, PAGE_SIZE, is_u32 in *.
  split; [repeat apply Z.div_pos; lia|]. do 2 (apply Z.div_lt_upper_bound; [lia|]). lia.
Qed.

(** * Entries *)

Lemma entry_type_mod e : entry_type e = e mod 4.
Proof. unfold entry_type. change PMD_TYPE_MASK with (2 ^ 2 - 1). by rewrite land_ones_mod. Qed.

(** The directory entry for a table at kernel address [t]. *)
Definition dir_entry (t : Z) : Z := Z.lor (virt_to_phys t) PMD_TYPE_PMD.
Definition table_addr (t : Z) : Prop := KERNEL_AREA_START <= t < KERNEL_AREA_END /\ t mod PMD_SIZE = 0.
Lemma table_phys t : table_addr t -> virt_to_phys t = t - KERNEL_AREA_START /\ (virt_to_phys t) mod 2 ^ 10 = 0.
Proof.
  intros [H1 H2]. unfold KERNEL_AREA_START, KERNEL_AREA_END in H1.
  rewrite virt_to_phys_kernel by (unfold KERNEL_AREA_START; lia). split; [done|].
  unfold KERNEL_AREA_START, PMD_SIZE in *. apply Z.mod_divide in H2 as [k ->]; [|lia].
  apply Z.mod_divide; [lia|]. exists (k - 3932160). lia.
Qed.
Lemma dir_entry_add t : table_addr t -> dir_entry t = virt_to_phys t + 1.
Proof. intros Ht. apply (lor_low _ _ 10); [lia|by apply table_phys|split; done]. Qed.
Lemma dir_entry_type t : table_addr t -> entry_type (dir_entry t) = PMD_TYPE_PMD.
Proof.
  intros Ht. destruct (table_phys t Ht) as [_ Hm]. rewrite entry_type_mod, dir_entry_add by done.
  apply Z.mod_divide in Hm as [k ->]; [|lia]. replace (k * 2 ^ 10 + 1) with (1 + k * 256 * 4) by lia.
  by rewrite Z.mod_add.
Qed.
Lemma dir_entry_table t : table_addr t -> pmd_of_entry (dir_entry t) = t.
Proof.
  intros Ht. destruct (table_phys t Ht) as [Hv Hm]. destruct Ht as [Ht _]. unfold KERNEL_AREA_START, KERNEL_AREA_END in *.
  unfold pmd_of_entry. rewrite dir_entry_add by (split; [done|]; apply Z.mod_divide; [done|];
    apply Z.mod_divide in Hm as [k Hk]; [|lia]; exists (k + 3932160); unfold PMD_SIZE; lia).
  change PMD_ALIGN_MASK with (lnot32 (2 ^ 10 - 1)). rewrite land_lnot32_floor; [|unfold is_u32; lia|lia].
  apply Z.mod_divide in Hm as [k Hk]; [|lia]. rewrite Hk.
  replace (k * 2 ^ 10 + 1) with (1 + k * 2 ^ 10) by lia. rewrite Z.div_add, Z.div_small, Z.add_0_l, <- Hk by lia.
  apply virt_phys. unfold is_u32. lia.
Qed.

(** * The walk *)

(** The entry the hardware finds for a virtual address: 0, a fault, when the
    directory has no table for it. *)
Definition linked (s : kstate) (p i : Z) : bool := entry_type (pgds s p i) =? PMD_TYPE_PMD.
Definition table_at (s : kstate) (p i : Z) : Z := pmd_of_entry (pgds s p i).
Definition walk (s : kstate) (p va : Z) : Z :=
  if linked s p (PGD_INDEX va) then pmds s (table_at s p (PGD_INDEX va)) (PMD_INDEX va) else 0.

(** A second-level table that the cache has yet to hand out. *)
Definition free_table (s : kstate) (t : Z) : Prop :=
  exists b, 0 <= b < mc_total (caches s PMD_CACHE) /\ bit_at (mc_bitmap (caches s PMD_CACHE)) b = false
    /\ t = cache_addr (caches s PMD_CACHE) b.

(** Directories in use, [P]: their entries are empty or name a table that is
    allocated; a table of a private entry belongs to that entry alone; and its
    entries are empty or small pages. *)
Record tables_ok (P : Z -> Prop) (s : kstate) : Prop := {
  to_type p i : P p -> dir_index i -> entry_type (pgds s p i) = PMD_TYPE_FAULT \/ linked s p i = true;
  to_live p i : P p -> dir_index i -> linked s p i = true -> table_at s p i <> 0 /\ (free_table s (table_at s p i) -> False);
  to_apart p i q j : P p -> P q -> dir_index i -> dir_index j -> linked s p i = true -> linked s q j = true ->
    is_global_pgdi i = false -> table_at s p i = table_at s q j -> p = q /\ i = j;
  to_page p va : P p -> is_u32 va -> entry_type (walk s p va) = PTE_TYPE_FAULT \/ entry_type (walk s p va) = PTE_TYPE_SMALL }.

(** The cache second-level tables come from, its mutex free. *)
Record table_cache (s : kstate) : Prop := {
  tc_free : uncontended PMD_CACHE s;
  tc_inv : cache_inv (caches s PMD_CACHE);
  tc_size : struct_size (caches s PMD_CACHE) = PMD_SIZE;
  tc_align : mc_start (caches s PMD_CACHE) mod PMD_SIZE = 0;
  tc_area : KERNEL_AREA_START <= mc_start (caches s PMD_CACHE) /\ mc_end (caches s PMD_CACHE) <= KERNEL_AREA_END }.

Lemma cache_table_addr s b : table_cache s -> 0 <= b < mc_total (caches s PMD_CACHE) ->
  table_addr (cache_addr (caches s PMD_CACHE) b).
Proof.
  intros [_ Hi Hz Ha [H1 H2]] Hb. destruct (cache_addr_exact _ _ Hi Hb) as (E & Hlo & Hhi).
  split; [unfold PMD_SIZE in *; lia|]. rewrite E, Hz. rewrite Z.mul_comm. by rewrite Z.mod_add.
Qed.

(** * Reading translations *)

Lemma pmd_exists_run P p va s : tables_ok P s -> P p -> is_u32 va ->
  pmd_exists p va s = Ret (if linked s p (PGD_INDEX va) then table_at s p (PGD_INDEX va) else 0) s.
Proof.
  intros Ht Hp Hva. exec pmd_exists arch_pick_pmd. unfold linked.
  destruct (Z.eqb_spec (entry_type (pgds s p (PGD_INDEX va))) PMD_TYPE_PMD) as [E|E]; [done|].
  destruct (to_type P s Ht p _ Hp (pgd_index_range va Hva)) as [-> | Hl]; [done|].
  unfold linked in Hl. by apply Z.eqb_eq in Hl.
Qed.
Lemma virt_to_pte_run P p va s : tables_ok P s -> P p -> is_u32 va ->
  virt_to_pte_from_pgd p va s = Ret (walk s p va) s.
Proof.
  intros Ht Hp Hva. exec virt_to_pte_from_pgd. rewrite (pmd_exists_run P) by done. cbn [obind]. unfold walk.
  destruct (linked s p (PGD_INDEX va)) eqn:El; [|done].
  destruct (to_live P s Ht p _ Hp (pgd_index_range va Hva) El) as [Hn _].
  by rewrite (proj2 (Z.eqb_neq _ _)) by done.
Qed.

(** * A new table *)

(** What page-table code does not touch. *)
Definition same_system (s s' : kstate) : Prop :=
  current s' = current s /\ tcbs s' = tcbs s /\ wqhs s' = wqhs s /\ sched s' = sched s /\ mutexes s' = mutexes s
  /\ caches s' = caches s.
Lemma uncontended_ext c s s' : same_system s s' -> uncontended c s -> uncontended c s'.
Proof.
  intros (Ec & Et & Ew & Es & Em & _) [H1 H2 H3 H4]. split; rewrite ?Ec, ?Et, ?Ew, ?Em; try done.
  by apply (sinv_ext None s).
Qed.
Lemma table_cache_ext s s' : same_system s s' -> table_cache s -> table_cache s'.
Proof.
  intros Hs. pose proof Hs as (_ & _ & _ & _ & _ & E). intros [H1 H2 H3 H4 H5].
  split; rewrite ?E; try done. by apply (uncontended_ext _ s).
Qed.

Definition pool_cap (cl : cl_ref) (s : kstate) : Z :=
  first_cap s (fun c => cap_rtype c =? CAP_RTYPE_MAPPOOL) (caps (caplists s cl)).
(** The state after free table [b] has been allocated and cleared. *)
Definition new_table (cl : cl_ref) (b : Z) (s : kstate) : kstate :=
  zero_object PMD_CACHE (cache_addr (caches s PMD_CACHE) b) (allocated PMD_CACHE b (charge (pool_cap cl s) 1 s)).

Lemma clear_table_same t s : same_system s (zero_object PMD_CACHE t s).
Proof. by split_and!. Qed.
Lemma charge_same c q s : same_system s (charge c q s).
Proof. by split_and!. Qed.
Lemma same_system_trans s1 s2 s3 : same_system s1 s2 -> same_system s2 s3 -> same_system s1 s3.
Proof.
  intros (E1 & E2 & E3 & E4 & E5 & E6) (F1 & F2 & F3 & F4 & F5 & F6).
  split_and!; by etransitivity.
Qed.
Lemma pgd_same p i v s : same_system s (with_pgd p i v s).
Proof. by split_and!. Qed.
Lemma pmd_same p i v s : same_system s (with_pmd p i v s).
Proof. by split_and!. Qed.
Lemma new_table_caches cl b s :
  caches (new_table cl b s) = caches (allocated PMD_CACHE b (charge (pool_cap cl s) 1 s)).
Proof. apply (clear_table_same (cache_addr (caches s PMD_CACHE) b)). Qed.

Lemma table_not_error t : table_addr t -> (t =? 0) || IS_ERR t = false.
Proof.
  intros [H _]. unfold KERNEL_AREA_START, KERNEL_AREA_END in H. apply orb_false_iff. split; [by apply Z.eqb_neq; lia|].
  unfold IS_ERR, is_err, s32. apply andb_false_iff. right. apply Z.ltb_ge.
  replace (t + 2 ^ 31) with (t - 2 ^ 31 + 1 * 2 ^ 32) by lia. rewrite Z.mod_add, Z.mod_small by lia. lia.
Qed.

Lemma pmd_cap_alloc_run fuel cl s : table_cache s -> 0 < mc_free (caches s PMD_CACHE) ->
  pmd_cap_alloc fuel cl s = Ret 0 s
  \/ exists b, 0 <= b < mc_total (caches s PMD_CACHE) /\ bit_at (mc_bitmap (caches s PMD_CACHE)) b = false
       /\ pmd_cap_alloc fuel cl s = Ret (cache_addr (caches s PMD_CACHE) b) (new_table cl b s)
       /\ caches (new_table cl b s) PMD_CACHE = take_bit b (caches s PMD_CACHE)
       /\ table_cache (new_table cl b s).
Proof.
  intros Hc Hf. exec pmd_cap_alloc cap_list_find_by_rtype cap_alloc_from. fold (pool_cap cl s).
  destruct (pool_cap cl s =? 0); [by left|]. exec. rewrite capability_consume_run.
  destruct (csize _ <? _); [by left|]. cbn [obind]. change (0 <? 0) with false. cbv beta iota. right.
  set (s0 := charge (pool_cap cl s) 1 s). destruct Hc as [H1 H2 H3 H4 H5].
  assert (uncontended PMD_CACHE s0) as Hu0 by (apply (uncontended_ext _ s); [apply charge_same|done]).
  destruct (mem_cache_alloc_run fuel PMD_CACHE s0 Hu0 H2 Hf) as (b & Hb & Hclr & Er & Hu & Ht & _).
  exists b. pose proof (cache_table_addr s b (Build_table_cache s H1 H2 H3 H4 H5) Hb) as Ha.
  assert (caches (new_table cl b s) PMD_CACHE = take_bit b (caches s PMD_CACHE)) as E.
  { rewrite new_table_caches. exact Ht. }
  split; [exact Hb|]. split; [exact Hclr|]. split; [|split; [exact E|]].
  - exec mem_cache_zalloc. rewrite Er. cbn [obind]. change (caches s0) with (caches s).
    rewrite table_not_error by exact Ha. reflexivity.
  - split; rewrite ?E; [|by apply cache_inv_take|exact H3|exact H4|exact H5].
    apply (uncontended_ext _ (allocated PMD_CACHE b s0)); [|exact Hu]. apply clear_table_same.
Qed.

Lemma free_table_take cl b s t : table_cache s -> 0 <= b < mc_total (caches s PMD_CACHE) ->
  caches (new_table cl b s) PMD_CACHE = take_bit b (caches s PMD_CACHE) ->
  free_table (new_table cl b s) t -> free_table s t /\ t <> cache_addr (caches s PMD_CACHE) b.
Proof.
  intros Hc Hb E (j & Hj & Hclr & ->). rewrite E in *. cbn in Hj, Hclr. destruct Hc as [_ Hi _ _ _].
  pose proof (in_map_total _ b Hi Hb). rewrite bit_at_set in Hclr by (done || lia).
  apply orb_false_iff in Hclr as [Hne%bool_decide_eq_false Hclr].
  change (cache_addr (take_bit b (caches s PMD_CACHE)) j) with (cache_addr (caches s PMD_CACHE) j).
  split; [by exists j|]. destruct (cache_addr_exact _ j Hi Hj) as [-> _], (cache_addr_exact _ b Hi Hb) as [-> _].
  pose proof (ci_size _ Hi). nia.
Qed.
Lemma free_table_here s b : 0 <= b < mc_total (caches s PMD_CACHE) ->
  bit_at (mc_bitmap (caches s PMD_CACHE)) b = false -> free_table s (cache_addr (caches s PMD_CACHE) b).
Proof. intros. by exists b. Qed.

(** * Writing one page *)

Definition small_page (phys fl : Z) : Z := Z.lor (Z.lor phys fl) PTE_TYPE_SMALL.
Lemma arch_prepare_pte_run phys va fl s :
  is_page_aligned phys = true -> is_page_aligned va = true -> fl <> 0 ->
  arch_prepare_pte phys va fl s = Ret (small_page phys fl) s.
Proof.
  intros H1 H2 H3. exec arch_prepare_pte. rewrite H1, H2. cbn [negb orb obind].
  change (fl =? __MAP_FAULT) with (fl =? 0). by rewrite (proj2 (Z.eqb_neq _ _)).
Qed.

(** A write to the page of [va] in a table linked at [p]: the translation of
    that page changes, in directory [p] only. *)
Definition put_page (p va pte : Z) (s : kstate) : kstate :=
  with_pmd (table_at s p (PGD_INDEX va)) (PMD_INDEX va) pte s.
Lemma walk_put P p va pte s q vb : tables_ok P s -> P p -> P q -> is_u32 va -> is_u32 vb ->
  is_global_pgdi (PGD_INDEX va) = false -> linked s p (PGD_INDEX va) = true ->
  walk (put_page p va pte s) q vb = if decide (q = p /\ page vb = page va) then pte else walk s q vb.
Proof.
  intros Ht Hp Hq Ha Hb Hg Hl. unfold walk, linked, table_at. change (pgds (put_page p va pte s)) with (pgds s).
  destruct (decide _) as [[-> E]|Hne].
  - apply same_page_indices in E as [E1 E2]; [|done..]. rewrite E1, E2. unfold linked in Hl. rewrite Hl.
    unfold put_page. cbn. by rewrite !upd_eq.
  - fold (linked s q (PGD_INDEX vb)). destruct (linked s q (PGD_INDEX vb)) eqn:El; [|done].
    unfold put_page. cbn. fold (table_at s q (PGD_INDEX vb)).
    destruct (decide (table_at s p (PGD_INDEX va) = table_at s q (PGD_INDEX vb))) as [E|E]; [|by rewrite upd_ne].
    rewrite <- E, upd_eq. rewrite upd_ne; [done|]. intros Ei. apply Hne.
    destruct (to_apart P s Ht p _ q _ Hp Hq (pgd_index_range va Ha) (pgd_index_range vb Hb) Hl El Hg E) as [-> E1].
    split; [done|]. apply same_page_indices; done.
Qed.
Lemma tables_ok_put P p va pte s : tables_ok P s -> P p -> is_u32 va ->
  is_global_pgdi (PGD_INDEX va) = false -> linked s p (PGD_INDEX va) = true ->
  entry_type pte = PTE_TYPE_FAULT \/ entry_type pte = PTE_TYPE_SMALL -> tables_ok P (put_page p va pte s).
Proof.
  intros Ht Hp Ha Hg Hl Hpte. split; try by destruct Ht.
  intros q vb Hq Hb. rewrite (walk_put P) by done. destruct (decide _); [done|by apply (to_page P s Ht)].
Qed.

(** Linking a fresh, empty table: no translation changes. *)
Definition link_table (cl : cl_ref) (b p i : Z) (s : kstate) : kstate :=
  with_pgd p i (dir_entry (cache_addr (caches s PMD_CACHE) b)) (new_table cl b s).

Section Link.
Context (P : Z -> Prop) (cl : cl_ref) (b p i : Z) (s : kstate).
Context (Ht : tables_ok P s) (Hc : table_cache s) (Hp : P p) (Hi : dir_index i).
Context (Hb : 0 <= b < mc_total (caches s PMD_CACHE)) (Hclr : bit_at (mc_bitmap (caches s PMD_CACHE)) b = false).
Context (Hnew : caches (new_table cl b s) PMD_CACHE = take_bit b (caches s PMD_CACHE)).
Context (Hg : is_global_pgdi i = false) (Hno : linked s p i = false).
#[local] Abbreviation t := (cache_addr (caches s PMD_CACHE) b).
#[local] Abbreviation s1 := (link_table cl b p i s).

Lemma link_here : linked s1 p i = true /\ table_at s1 p i = t.
Proof.
  unfold linked, table_at, link_table. cbn. rewrite !upd_eq.
  rewrite dir_entry_type, dir_entry_table by by apply cache_table_addr. done.
Qed.
Lemma link_entry q j : (q = p /\ j = i -> False) -> pgds s1 q j = pgds s q j.
Proof.
  intros Hne. unfold link_table. cbn. destruct (decide (p = q)) as [<-|]; [|by rewrite upd_ne].
  rewrite upd_eq, upd_ne; [done|]. intros <-. by apply Hne.
Qed.
(** The fresh table is no table in use. *)
Lemma link_fresh q j : P q -> dir_index j -> linked s q j = true -> table_at s q j <> t.
Proof.
  intros Hq Hj Hl E. destruct (to_live P s Ht q j Hq Hj Hl) as [_ Hf]. apply Hf. rewrite E. by apply free_table_here.
Qed.
Lemma link_walk q vb : P q -> is_u32 vb -> walk s1 q vb = walk s q vb.
Proof.
  intros Hq Hvb. pose proof (pgd_index_range vb Hvb) as Hj. destruct link_here as [H1 H2]. unfold walk.
  destruct (decide (q = p /\ PGD_INDEX vb = i)) as [[-> E]|Hne].
  - rewrite E, H1, Hno, H2. unfold link_table, new_table. cbn. by rewrite upd_eq.
  - unfold linked, table_at. rewrite !link_entry by done. fold (linked s q (PGD_INDEX vb)).
    destruct (linked s q (PGD_INDEX vb)) eqn:El; [|done]. fold (table_at s q (PGD_INDEX vb)).
    unfold link_table, new_table. cbn. rewrite upd_ne; [done|]. intros E. by apply (link_fresh q (PGD_INDEX vb)).
Qed.
Lemma link_cases q j : dir_index j ->
  (q = p /\ j = i /\ linked s1 q j = true /\ table_at s1 q j = t)
  \/ ((q = p /\ j = i -> False) /\ linked s1 q j = linked s q j /\ table_at s1 q j = table_at s q j
       /\ pgds s1 q j = pgds s q j).
Proof.
  intros Hj. destruct (decide (q = p /\ j = i)) as [[-> ->]|Hne].
  - left. by destruct link_here.
  - right. unfold linked, table_at. by rewrite link_entry.
Qed.
Lemma link_ok : tables_ok P s1.
Proof.
  split.
  - intros q j Hq Hj. destruct (link_cases q j Hj) as [(-> & -> & H1 & _)|(_ & H1 & _ & H2)]; [by right|].
    rewrite H2, H1. by apply (to_type P s Ht).
  - intros q j Hq Hj Hl. assert (forall x, free_table s1 x -> free_table s x /\ x <> t) as Hfree.
    { intros x. by apply (free_table_take cl b s x). }
    destruct (link_cases q j Hj) as [(-> & -> & _ & ->)|(_ & H1 & -> & _)].
    + split; [|intros [_ Hx]%Hfree; done]. destruct (cache_table_addr s b Hc Hb) as [Hx _].
      unfold KERNEL_AREA_START in Hx. lia.
    + rewrite H1 in Hl. destruct (to_live P s Ht q j Hq Hj Hl) as [Hz Hf]. split; [done|].
      intros [Hx _]%Hfree. done.
  - intros q j r k Hq Hr Hj Hk Hl1 Hl2 Hgl E.
    destruct (link_cases q j Hj) as [(-> & -> & _ & E1)|(_ & H1 & E1 & _)],
      (link_cases r k Hk) as [(-> & -> & _ & E2)|(_ & H2 & E2 & _)]; try done.
    + rewrite E1, E2 in E. destruct (link_fresh r k Hr Hk); [by rewrite <- H2|done].
    + rewrite E1, E2 in E. destruct (link_fresh q j Hq Hj); [by rewrite <- H1|done].
    + rewrite E1, E2 in E. rewrite H1 in Hl1. rewrite H2 in Hl2. by apply (to_apart P s Ht).
  - intros q vb Hq Hvb. rewrite link_walk by done. by apply (to_page P s Ht).
Qed.
End Link.

(** * Mapping *)

(** The pages of [n] consecutive frames from [phys], mapped from [virt] in
    directory [p]: how the translation of the directories in use changes. *)
Definition mapped (P : Z -> Prop) (p phys virt fl n : Z) (s s' : kstate) : Prop :=
  forall q vb, P q -> is_u32 vb ->
    walk s' q vb = if decide (q = p /\ page virt <= page vb < page virt + n)
                   then small_page (phys + (page vb - page virt) * PAGE_SIZE) fl else walk s q vb.
(** Page-table code moves neither directories nor spaces, nor the current task's space. *)
Definition same_spaces (s s' : kstate) : Prop :=
  spaces s' = spaces s /\ current s' = current s /\ (forall t, space (tcbs s' t) = space (tcbs s t))
  /\ caplists s' = caplists s.
Lemma same_spaces_refl s : same_spaces s s.
Proof. by split_and!. Qed.
Lemma same_spaces_trans s1 s2 s3 : same_spaces s1 s2 -> same_spaces s2 s3 -> same_spaces s1 s3.
Proof.
  intros (E1 & E2 & E3 & E4) (F1 & F2 & F3 & F4).
  split_and!; [by etransitivity|by etransitivity|intros t; by rewrite F3|by etransitivity].
Qed.
Lemma pmd_spaces p i v s : same_spaces s (with_pmd p i v s).
Proof. by split_and!. Qed.
Lemma pgd_spaces p i v s : same_spaces s (with_pgd p i v s).
Proof. by split_and!. Qed.
Lemma allocated_spaces c b s : same_spaces s (allocated c b s).
Proof.
  split_and!; try done. intros t. unfold allocated, let_go, taken. cbn. by rewrite !(upd_same space).
Qed.
Lemma charge_spaces c q s : same_spaces s (charge c q s).
Proof. by split_and!. Qed.
Lemma clear_table_spaces t s : same_spaces s (zero_object PMD_CACHE t s).
Proof. by split_and!. Qed.
Lemma new_table_spaces cl b s : same_spaces s (new_table cl b s).
Proof.
  eapply same_spaces_trans; [|apply clear_table_spaces]. eapply same_spaces_trans; [|apply allocated_spaces].
  apply charge_spaces.
Qed.

Lemma small_page_type phys fl : is_page_aligned phys = true -> fl mod 4 = 0 ->
  entry_type (small_page phys fl) = PTE_TYPE_SMALL.
Proof.
  intros Hp%page_aligned_iff Hf. rewrite entry_type_mod. unfold small_page.
  assert (Z.lor phys fl mod 2 ^ 2 = 0) as E.
  { rewrite <- land_ones_mod, Z.land_lor_distr_l, !land_ones_mod by lia. change (fl mod 2 ^ 2) with (fl mod 4). rewrite Hf.
    apply Z.mod_divide in Hp as [k ->]; [|done]. unfold PAGE_SIZE. replace (k * 0x1000) with (k * 1024 * 2 ^ 2) by lia.
    by rewrite Z.mod_mul. }
  rewrite (lor_low _ _ 2); [|lia|done|done]. change 4 with (2 ^ 2). rewrite Z.add_mod, E by lia. done.
Qed.


(** From [s] to [s'], exactly those pages were mapped and every invariant kept. *)
Record maps (P : Z -> Prop) (p phys virt fl n : Z) (s s' : kstate) : Prop := {
  mp_ok : tables_ok P s';
  mp_cache : table_cache s';
  mp_free : mc_free (caches s PMD_CACHE) - n <= mc_free (caches s' PMD_CACHE);
  mp_same : same_spaces s s';
  mp_walk : mapped P p phys virt fl n s s' }.

(** Valid arguments of the mapping functions for a range of user pages; [fl]
    are page-table flags. *)
Record mappable (phys virt fl n : Z) : Prop := {
  ma_aligned : is_page_aligned phys = true /\ is_page_aligned virt = true;
  ma_phys : 0 <= phys /\ phys + n * PAGE_SIZE < 2 ^ 32;
  ma_virt : 0 <= virt /\ virt + n * PAGE_SIZE < 2 ^ 32;
  ma_user vb : is_u32 vb -> page virt <= page vb < page virt + n -> is_global_pgdi (PGD_INDEX vb) = false;
  ma_flags : fl <> 0 /\ fl mod 4 = 0 }.

Section MapOne.
Context (fuel : nat) (P : Z -> Prop) (phys va fl sp : Z) (cl : cl_ref) (s : kstate).
Context (Ht : tables_ok P s) (Hc : table_cache s) (Hp : P (pgd (spaces s sp))) (Hva : is_u32 va).
Context (Hg : is_global_pgdi (PGD_INDEX va) = false) (A1 : is_page_aligned phys = true) (A2 : is_page_aligned va = true).
Context (Hfl : fl <> 0) (Hf4 : fl mod 4 = 0).
#[local] Abbreviation p := (pgd (spaces s sp)).
#[local] Abbreviation pte := (small_page phys fl).

(** Writing the entry where a table is linked, with the rest of the translation as it was. *)
Lemma put_maps s1 :
  tables_ok P s1 -> table_cache s1 -> mc_free (caches s PMD_CACHE) - 1 <= mc_free (caches s1 PMD_CACHE) ->
  same_spaces s s1 -> linked s1 p (PGD_INDEX va) = true ->
  (forall q vb, P q -> is_u32 vb -> walk s1 q vb = walk s q vb) -> maps P p phys va fl 1 s (put_page p va pte s1).
Proof.
  intros H1 H2 H3 H4 Hl Hw. split; [| |done| |].
  - apply tables_ok_put; try done. right. by apply small_page_type.
  - apply (table_cache_ext s1); [apply pmd_same|done].
  - eapply same_spaces_trans; [exact H4|apply pmd_spaces].
  - intros q vb Hq Hvb. rewrite (walk_put P) by done.
    destruct (decide (q = p /\ page vb = page va)) as [[Eq E]|Hne];
      (destruct (decide (q = p /\ _)) as [[E2 Hr]|Hr]); try done.
    + f_equal. lia.
    + destruct Hr. split; [done|lia].
    + destruct Hne. split; [done|lia].
    + by apply Hw.
Qed.

Lemma map_one_linked : linked s p (PGD_INDEX va) = true ->
  exists s', map_one fuel phys va fl sp cl s = Ret 0 s' /\ maps P p phys va fl 1 s s'.
Proof.
  intros El. exec map_one. rewrite (pmd_exists_run P) by done. cbn [obind]. rewrite El.
  destruct (to_live P s Ht p _ Hp (pgd_index_range va Hva) El) as [Hn _]. rewrite (proj2 (Z.eqb_neq _ _)) by done.
  exists (put_page p va pte s). split.
  - exec arch_prepare_write_pte. rewrite A1, A2. cbn [negb obind].
    rewrite arch_prepare_pte_run by done. reflexivity.
  - apply put_maps; [done|done|lia|apply same_spaces_refl|done|done].
Qed.

Lemma link_table_free b :
  caches (new_table cl b s) PMD_CACHE = take_bit b (caches s PMD_CACHE) ->
  mc_free (caches (link_table cl b p (PGD_INDEX va) s) PMD_CACHE) = mc_free (caches s PMD_CACHE) - 1.
Proof.
  intros E. change (caches (link_table cl b p (PGD_INDEX va) s)) with (caches (new_table cl b s)).
  rewrite E. reflexivity.
Qed.
Lemma map_one_unlinked : linked s p (PGD_INDEX va) = false -> 0 < mc_free (caches s PMD_CACHE) ->
  map_one fuel phys va fl sp cl s = Ret (- ENOMEM) s
  \/ exists s', map_one fuel phys va fl sp cl s = Ret 0 s' /\ maps P p phys va fl 1 s s'.
Proof.
  intros El Hf. pose proof (pgd_index_range va Hva) as Hi.
  exec map_one. rewrite (pmd_exists_run P) by done. cbn [obind]. rewrite El.
  change (0 =? 0) with true. cbv beta iota. exec.
  destruct (pmd_cap_alloc_run fuel cl s Hc Hf) as [-> | (b & Hb & Hclr & -> & Ht1 & Hc1)]; [by left|right].
  cbn [obind]. pose proof (cache_table_addr s b Hc Hb) as Ha. set (t := cache_addr (caches s PMD_CACHE) b) in *.
  assert ((t =? 0) = false) as ->.
  { apply Z.eqb_neq. destruct Ha as [Ha _]. unfold KERNEL_AREA_START in Ha. lia. }
  exec. rewrite arch_prepare_pte_run by done. cbn [obind]. exec arch_write_pte pmd_put attach_pmd.
  assert (is_aligned (virt_to_phys t) PMD_SIZE = true) as ->.
  { unfold is_aligned. apply Z.eqb_eq. change (u32 (PMD_SIZE - 1)) with (2 ^ 10 - 1). rewrite land_ones_mod by done.
    by apply table_phys. }
  cbn [negb obind fst snd]. exec arch_write_pmd pgd_put arch_pick_pmd.
  exists (put_page p va pte (link_table cl b p (PGD_INDEX va) s)). split.
  - unfold put_page. rewrite (proj2 (link_here cl b p (PGD_INDEX va) s Hc Hb)). reflexivity.
  - apply put_maps.
    + by apply link_ok.
    + apply (table_cache_ext (new_table cl b s)); [apply pgd_same|done].
    + rewrite link_table_free by done. lia.
    + eapply same_spaces_trans; [|apply pgd_spaces]. apply new_table_spaces.
    + by apply link_here.
    + intros q vb Hq Hvb. by apply (link_walk P).
Qed.
End MapOne.

(** Consecutive mappings add up. *)
Lemma maps_0 P p phys virt fl s : tables_ok P s -> table_cache s -> maps P p phys virt fl 0 s s.
Proof.
  intros. split; [done|done|lia|apply same_spaces_refl|]. intros q vb _ _.
  destruct (decide _) as [[_ ?]|]; [lia|done].
Qed.
Lemma page_next va : page (va + PAGE_SIZE) = page va + 1.
Proof. unfold page. replace (va + PAGE_SIZE) with (va + 1 * PAGE_SIZE) by lia. by rewrite Z.div_add. Qed.
Lemma maps_step P p phys virt fl n s1 s2 s3 : 0 <= n ->
  maps P p phys virt fl 1 s1 s2 -> maps P p (phys + PAGE_SIZE) (virt + PAGE_SIZE) fl n s2 s3 ->
  maps P p phys virt fl (1 + n) s1 s3.
Proof.
  intros Hn [A1 A2 A3 A4 A5] [B1 B2 B3 B4 B5]. split; [done|done|lia|by eapply same_spaces_trans|].
  intros q vb Hq Hvb. rewrite B5, A5, page_next by done. unfold PAGE_SIZE in *.
  repeat case_decide; try done; first [f_equal; lia|exfalso; lia|exfalso; naive_solver lia].
Qed.
Lemma mappable_tail phys virt fl n : 0 <= n -> mappable phys virt fl (1 + n) ->
  mappable (phys + PAGE_SIZE) (virt + PAGE_SIZE) fl n /\ is_u32 (phys + PAGE_SIZE) /\ is_u32 (virt + PAGE_SIZE)
  /\ is_u32 virt /\ is_global_pgdi (PGD_INDEX virt) = false.
Proof.
  intros Hn [[A1 A2] B C D E]. unfold PAGE_SIZE, is_u32 in *.
  split_and!; try lia; [split; [|unfold PAGE_SIZE; lia|unfold PAGE_SIZE; lia| |done]|apply D; lia].
  - rewrite !page_aligned_iff in *. change PAGE_SIZE with 0x1000 in *. rewrite !(Z.add_mod _ 0x1000), A1, A2 by lia. done.
  - intros vb Hvb Hr. change 0x1000 with PAGE_SIZE in Hr. rewrite page_next in Hr. apply D; [done|lia].
Qed.

Lemma map_pages_run fuel P sp cl fl n : forall phys virt s,
  tables_ok P s -> table_cache s -> P (pgd (spaces s sp)) -> mappable phys virt fl (Z.of_nat n) ->
  Z.of_nat n <= mc_free (caches s PMD_CACHE) ->
  exists r k s', map_pages fuel n phys virt fl sp cl s = Ret r s'
    /\ maps P (pgd (spaces s sp)) phys virt fl k s s'
    /\ (r = 0 /\ k = Z.of_nat n \/ r = - ENOMEM /\ 0 <= k < Z.of_nat n).
Proof.
  induction n as [|n IH]; intros phys virt s Ht Hc Hp Hm Hf.
  - exists 0, 0, s. split_and!; [done|by apply maps_0|by left].
  - rewrite Nat2Z.inj_succ, <- Z.add_1_l in *.
    destruct (mappable_tail _ _ _ _ (Nat2Z.is_nonneg n) Hm) as (Hm' & Hu1 & Hu2 & Hva & Hg).
    destruct Hm as [[A1 A2] _ _ _ [Hfl Hf4]]. cbn [map_pages]. exec.
    assert (map_one fuel phys virt fl sp cl s = Ret (- ENOMEM) s
      \/ exists s', map_one fuel phys virt fl sp cl s = Ret 0 s' /\ maps P (pgd (spaces s sp)) phys virt fl 1 s s') as Hone.
    { destruct (linked s (pgd (spaces s sp)) (PGD_INDEX virt)) eqn:El.
      - right. by apply map_one_linked.
      - apply map_one_unlinked; (done || lia). }
    destruct Hone as [-> | (s1 & -> & Hs1)]; cbn [obind].
    + exists (- ENOMEM), 0, s. split_and!; [done|by apply maps_0|right; lia].
    + change (0 <? 0) with false. cbv beta iota. rewrite !u32_id by done.
      pose proof (mp_same _ _ _ _ _ _ _ _ Hs1) as (Esp & _). pose proof (mp_free _ _ _ _ _ _ _ _ Hs1).
      destruct (IH (phys + PAGE_SIZE) (virt + PAGE_SIZE) s1) as (r & k & s' & E & Hk & Hr);
        [apply Hs1|apply Hs1|by rewrite Esp|done|lia|].
      exists r, (1 + k), s'. rewrite Esp in Hk. split_and!; [done| |lia].
      apply (maps_step _ _ _ _ _ _ _ s1); [lia|done..].
Qed.

(** The arguments of [add_mapping_space]: a page-aligned range of user memory
    of at least one page, and flags that map something. *)
Record map_request (phys virt size fl : Z) : Prop := {
  mr_size : PAGE_SIZE <= size < 2 ^ 32;
  mr_pages : mappable phys virt (space_flags_to_ptflags fl) (map_npages size) }.

Lemma map_npages_pos size : PAGE_SIZE <= size -> 0 < map_npages size.
Proof.
  intros Hs. unfold map_npages. rewrite Z.shiftr_div_pow2 by done. change (2 ^ PAGE_BITS) with PAGE_SIZE.
  pose proof (Z.div_le_mono PAGE_SIZE size PAGE_SIZE ltac:(done) Hs). change (PAGE_SIZE / PAGE_SIZE) with 1 in *.
  destruct (negb _); lia.
Qed.
Lemma add_mapping_run fuel P phys virt size fl sp s :
  tables_ok P s -> table_cache s -> P (pgd (spaces s sp)) -> map_request phys virt size fl ->
  map_npages size <= mc_free (caches s PMD_CACHE) ->
  exists r k s', add_mapping_space fuel phys virt size fl sp s = Ret r s'
    /\ maps P (pgd (spaces s sp)) phys virt (space_flags_to_ptflags fl) k s s'
    /\ (r = 0 /\ k = map_npages size \/ r = - ENOMEM /\ 0 <= k < map_npages size).
Proof.
  intros Ht Hc Hp [Hs Hm] Hf. pose proof (map_npages_pos size ltac:(lia)). exec add_mapping_space.
  rewrite (proj2 (Z.ltb_ge _ _)) by lia. cbn [obind].
  rewrite (proj2 (Z.eqb_neq (space_flags_to_ptflags fl) 0)) by apply Hm. cbn [obind].
  rewrite <- (Z2Nat.id (map_npages size)) in * by lia. rewrite Nat2Z.id. by apply map_pages_run.
Qed.

(** * Unmapping *)

Lemma fault_pte va s : is_page_aligned va = true ->
  arch_prepare_pte 0 va (space_flags_to_ptflags MAP_FAULT) s = Ret 0 s.
Proof. intros Ha. exec arch_prepare_pte. rewrite Ha. reflexivity. Qed.
Lemma page_aligned_align va : is_u32 va -> is_page_aligned (page_align va) = true /\ page (page_align va) = page va
  /\ is_u32 (page_align va).
Proof.
  intros Hva. rewrite page_aligned_iff, page_align_floor by done. unfold page. rewrite Z.mod_mul, Z.div_mul by done.
  split_and!; [done|done|]. unfold is_u32, PAGE_SIZE in *. pose proof (Z.mul_div_le va 0x1000 ltac:(lia)).
  pose proof (Z.div_pos va 0x1000). lia.
Qed.

Lemma remove_mapping_run P sp va s :
  tables_ok P s -> P (pgd (spaces s sp)) -> is_u32 va -> is_global_pgdi (PGD_INDEX va) = false ->
  if entry_type (walk s (pgd (spaces s sp)) va) =? PTE_TYPE_FAULT
  then remove_mapping_space sp va s = Ret (- ENOMAP) s
  else remove_mapping_space sp va s = Ret 0 (put_page (pgd (spaces s sp)) (page_align va) 0 s)
       /\ linked s (pgd (spaces s sp)) (PGD_INDEX (page_align va)) = true.
Proof.
  intros Ht Hp Hva Hg. set (p := pgd (spaces s sp)) in *.
  destruct (page_aligned_align va Hva) as (Ha & Hpg & Hua).
  apply same_page_indices in Hpg as [E1 E2]; [|done..].
  pose proof (to_page P s Ht p va Hp Hva) as Hty. unfold walk in *.
  exec remove_mapping_space arch_pick_pmd. fold p. rewrite E1, E2. fold (entry_type (pgds s p (PGD_INDEX va))).
  destruct (to_type P s Ht p _ Hp (pgd_index_range va Hva)) as [Ef|El].
  - unfold linked. rewrite Ef. reflexivity.
  - rewrite El in *. unfold linked in El. apply Z.eqb_eq in El. rewrite El.
    change (PMD_TYPE_PMD =? PMD_TYPE_FAULT) with false. cbv beta iota. change (PMD_TYPE_PMD =? PMD_TYPE_PMD) with true.
    cbn [negb obind]. fold (table_at s p (PGD_INDEX va)).
    change (Z.land ?e PTE_TYPE_MASK) with (entry_type e).
    destruct Hty as [-> | ->]; [reflexivity|]. change (PTE_TYPE_SMALL =? PTE_TYPE_FAULT) with false. cbv beta iota.
    change (PTE_TYPE_SMALL =? PTE_TYPE_SMALL) with true. cbn [negb obind]. exec arch_prepare_write_pte.
    rewrite Ha. change (is_page_aligned 0) with true. cbn [negb obind]. rewrite fault_pte by done. cbn [obind].
    split; [|done]. unfold put_page. rewrite E1, E2. reflexivity.
Qed.

(** A demo system whose pager has an empty page directory, at address 0, and a
    pool capability for two second-level tables. *)
Definition demo_paged : kstate :=
  with_cache PMD_CACHE (fun _ => MkCache 4 4 0xF0100000 0xF0101000 PMD_SIZE [0])
    (with_caps (CL_SPACE 256) (fun _ => MkCapList 1 [1024])
    (with_cap 1024 (fun _ => MkCap 1 1 0 (Z.lor CAP_TYPE_QUANTITY CAP_RTYPE_MAPPOOL) 0 0 0 2 0) demo)).
Definition demo_dirs (p : Z) : Prop := p = 0.
Lemma demo_tables_ok : tables_ok demo_dirs demo_paged.
Proof.
  split; [by left|done|done|]. intros p va _ _. by left.
Qed.
Lemma demo_table_cache : table_cache demo_paged.
Proof.
  split; [|split|done|done|].
  - split; [apply sched_inv_cache; apply (sinv_ext None demo); [done..|]; apply demo_sched_inv|done|done|done].
  - by vm_compute.
  - done.
  - by vm_compute.
  - done.
  - by vm_compute.
Qed.
Lemma user_low va : is_u32 va -> va < 0xF0000000 -> is_global_pgdi (PGD_INDEX va) = false.
Proof.
  intros Hva Hlt. assert (PGD_INDEX va < 0xF00) as Hi.
  { rewrite pgd_index_page by done. unfold page, PAGE_SIZE. do 2 (apply Z.div_lt_upper_bound; [lia|]). lia. }
  unfold is_global_pgdi.
  change (PGD_INDEX KERNEL_AREA_START) with 0xF00. change (PGD_INDEX IO_AREA_START) with 0xF90.
  change (PGD_INDEX USER_KIP_PAGE) with 0xFF0. change (PGD_INDEX ARM_HIGH_VECTOR) with 0xFFF.
  change (PGD_INDEX ARM_SYSCALL_VECTOR) with 0xFFF. change (PGD_INDEX USERSPACE_CONSOLE_VBASE) with 0xF98.
  rewrite !(proj2 (Z.leb_gt _ (PGD_INDEX va))), !(proj2 (Z.eqb_neq (PGD_INDEX va) _)) by lia. done.
Qed.
Lemma demo_map_request : map_request 0x5000 0x8000 0x1800 MAP_USR_RW.
Proof.
  split; [by vm_compute|]. split; [done|by vm_compute|by vm_compute| |by vm_compute].
  intros vb Hvb Hr. apply user_low; [done|]. change (page 0x8000 + map_npages 0x1800) with 10 in Hr.
  destruct (Z.lt_ge_cases vb 0xF0000000) as [|Hge]; [done|].
  assert (0xF0000 <= page vb) by (unfold page, PAGE_SIZE; apply Z.div_le_lower_bound; lia). lia.
Qed.

(** The same system with one page mapped. *)
Definition demo_mapped : kstate :=
  put_page 0 0x8000 (small_page 0x5000 __MAP_USR_RW) (link_table (CL_SPACE 256) 0 0 0 demo_paged).
Lemma demo_mapped_ok : tables_ok demo_dirs demo_mapped.
Proof.
  assert (0 <= 0 < mc_total (caches demo_paged PMD_CACHE)) as Hb by (by vm_compute).
  apply tables_ok_put; [|done|by vm_compute|done| |by right; vm_compute].
  - apply link_ok; (done || exact demo_tables_ok || exact demo_table_cache).
  - by apply (link_here (CL_SPACE 256) 0 0 0 demo_paged demo_table_cache).
Qed.


(** [remove_mapping_space] undoes the mapping of one page: afterwards that
    page of that directory faults and everything else translates as before; a
    page that was not mapped is answered with [-ENOMAP] and nothing changes. *)
Theorem remove_mapping_faults (P : Z -> Prop) (sp va : Z) (s : kstate)
    (Ht : tables_ok P s) (Hp : P (pgd (spaces s sp))) (Hva : is_u32 va)
    (Hg : is_global_pgdi (PGD_INDEX va) = false) :
  if entry_type (walk s (pgd (spaces s sp)) va) =? PTE_TYPE_FAULT then remove_mapping_space sp va s = Ret (- ENOMAP) s
  else exists s', remove_mapping_space sp va s = Ret 0 s' /\ tables_ok P s'
    /\ (forall q vb, P q -> is_u32 vb -> walk s' q vb =
          if decide (q = pgd (spaces s sp) /\ page vb = page va) then 0 else walk s q vb)
    /\ remove_mapping_space sp va s' = Ret (- ENOMAP) s'.
Proof.
  pose proof (remove_mapping_run P sp va s Ht Hp Hva Hg) as Hrun. destruct (_ =? PTE_TYPE_FAULT); [done|].
  destruct Hrun as [E Hl]. destruct (page_aligned_align va Hva) as (_ & Hpg & Hua).
  assert (is_global_pgdi (PGD_INDEX (page_align va)) = false) as Hga.
  { by rewrite (proj1 (proj1 (same_page_indices _ _ Hua Hva) Hpg)). }
  set (s' := put_page _ _ 0 s) in *. exists s'.
  assert (forall q vb, P q -> is_u32 vb -> walk s' q vb =
    if decide (q = pgd (spaces s sp) /\ page vb = page va) then 0 else walk s q vb) as Hw.
  { intros q vb Hq Hvb. unfold s'. rewrite (walk_put P) by done. by rewrite Hpg. }
  assert (tables_ok P s') as Ht' by (apply tables_ok_put; try done; by left).
  split_and!; [done..|].
  pose proof (remove_mapping_run P sp va s' Ht' Hp Hva Hg) as Hrun. change (spaces s') with (spaces s) in Hrun.
  rewrite Hw, decide_True in Hrun by done. exact Hrun.
Qed.
Lemma remove_mapping_faults_witness :
  let s := demo_mapped in
  exists s', remove_mapping_space 256 0x8123 s = Ret 0 s' /\ tables_ok demo_dirs s'
    /\ (forall q vb, demo_dirs q -> is_u32 vb -> walk s' q vb = if decide (q = 0 /\ page vb = 8) then 0 else walk s q vb)
    /\ remove_mapping_space 256 0x8123 s' = Ret (- ENOMAP) s'.
Proof.
  exact (remove_mapping_faults demo_dirs 256 0x8123 demo_mapped demo_mapped_ok eq_refl ltac:(by vm_compute) eq_refl).
Defined.

(** * Access checks *)

(** What a user may do with a page mapped with the flags of [space.h]: nothing,
    read, or read and write. *)
Definition user_rights (fl : Z) : Z :=
  if bool_decide (fl ∈ [MAP_USR_RW; MAP_USR_IO; MAP_USR_RWX]) then 3
  else if bool_decide (fl ∈ [MAP_USR_RO; MAP_USR_RX]) then 2 else 1.
Definition mapping_flags : list Z := seqZ 1 9.

(** A range whose pages all pass, or all fail, the access test. *)
Lemma check_pages_uniform P c n : forall va fl p s,
  tables_ok P s -> P p -> 0 <= va -> va + Z.of_nat n * PAGE_SIZE < 2 ^ 32 ->
  (forall vb, is_u32 vb -> page va <= page vb < page va + Z.of_nat n -> arch_check_pte_access_perms (walk s p vb) fl = c) ->
  check_pages n va fl p s = Ret (if n is O then true else c) s.
Proof.
  induction n as [|n IH]; intros va fl p s Ht Hp H1 H2 Hc; [done|].
  assert (is_u32 va) as Hva by (unfold is_u32, PAGE_SIZE in *; lia).
  exec check_pages. rewrite (virt_to_pte_run P) by done. cbn [obind]. rewrite Hc by (done || lia).
  destruct c; [|done]. fold check_pages.
  rewrite u32_id by (unfold is_u32, PAGE_SIZE in *; lia). rewrite IH; [by destruct n|done..| | |].
  - unfold PAGE_SIZE in *. lia.
  - unfold PAGE_SIZE in *. lia.
  - intros vb Hvb. rewrite page_next. intros Hr. apply Hc; [done|lia].
Qed.
Lemma check_npages size : 0 <= size -> size + PAGE_MASK < 2 ^ 32 ->
  __pfn (align_up size PAGE_SIZE) = map_npages size.
Proof.
  intros H1 H2. rewrite pfn_div, align_up_ceil by done. rewrite Z.div_mul by done. unfold map_npages.
  change PAGE_MASK with (2 ^ 12 - 1). rewrite land_ones_mod, Z.shiftr_div_pow2 by done.
  change (2 ^ PAGE_BITS) with 0x1000. change (2 ^ 12) with 0x1000. change PAGE_SIZE with 0x1000.
  pose proof (Z.div_mod size 0x1000 ltac:(lia)) as E. pose proof (Z.mod_pos_bound size 0x1000 ltac:(lia)) as Hb.
  destruct (Z.eqb_spec (size mod 0x1000) 0) as [E0|E0]; cbn [negb]; symmetry; eapply Z.div_unique_pos.
  - instantiate (1 := 0xFFF). lia.
  - lia.
  - instantiate (1 := size mod 0x1000 - 1). lia.
  - lia.
Qed.

Lemma small_page_prot phys fl : is_page_aligned phys = true -> Z.land fl PTE_PROT_MASK = Z.land (Z.lor fl 2) PTE_PROT_MASK ->
  Z.land (small_page phys fl) PTE_PROT_MASK = Z.land fl PTE_PROT_MASK.
Proof.
  intros Hp%page_aligned_iff ->. unfold small_page. rewrite <- Z.lor_assoc, Z.land_lor_distr_l.
  replace (Z.land phys PTE_PROT_MASK) with 0; [done|].
  change PTE_PROT_MASK with (Z.land (2 ^ 12 - 1) 0xFF0). rewrite Z.land_assoc, land_ones_mod by lia.
  change (2 ^ 12) with PAGE_SIZE. by rewrite Hp.
Qed.

(** The access test compares user rights. *)
Lemma perms_are_rights f g phys : f ∈ mapping_flags -> g ∈ mapping_flags -> is_page_aligned phys = true ->
  arch_check_pte_access_perms (small_page phys (space_flags_to_ptflags f)) (space_flags_to_ptflags g)
  = (user_rights g <=? user_rights f).
Proof.
  intros Hf%list_elem_of_In Hg%list_elem_of_In Hp. unfold arch_check_pte_access_perms. rewrite small_page_prot; [|done|].
  - assert (forallb (fun f => forallb (fun g =>
      eqb (Z.land (space_flags_to_ptflags g) PTE_PROT_MASK <=? Z.land (space_flags_to_ptflags f) PTE_PROT_MASK)
          (user_rights g <=? user_rights f)) mapping_flags) mapping_flags = true) as H by (by vm_compute).
    rewrite forallb_forall in H. specialize (H f Hf). rewrite forallb_forall in H. by apply eqb_prop, H.
  - assert (forallb (fun f => Z.land (space_flags_to_ptflags f) PTE_PROT_MASK
        =? Z.land (Z.lor (space_flags_to_ptflags f) 2) PTE_PROT_MASK) mapping_flags = true) as H by (by vm_compute).
    rewrite forallb_forall in H. by apply Z.eqb_eq, H.
Qed.

(** C12: mapping and checking agree.  Once [add_mapping_space] has mapped a
    range with flags [f], [check_mapping_pgd] on it accepts exactly the accesses
    [g] that ask for no more user rights than [f] gave: a read-only page fails
    a write check and a kernel page fails every user check. *)
Theorem mapped_pages_pass_their_check (fuel : nat) (P : Z -> Prop) (phys virt size f g sp : Z) (s s' : kstate)
    (Ht : tables_ok P s) (Hc : table_cache s) (Hp : P (pgd (spaces s sp))) (Hr : map_request phys virt size f)
    (Hn : map_npages size <= mc_free (caches s PMD_CACHE)) (Hz : size + PAGE_MASK < 2 ^ 32)
    (Hf : f ∈ mapping_flags) (Hg : g ∈ mapping_flags) (Hok : add_mapping_space fuel phys virt size f sp s = Ret 0 s') :
  check_mapping_pgd virt size g (pgd (spaces s sp)) s' = Ret (user_rights g <=? user_rights f) s'.
Proof.
  destruct (add_mapping_run fuel P phys virt size f sp s Ht Hc Hp Hr Hn) as (r & k & s1 & E & [M1 M2 _ M4 M5] & Hk).
  rewrite E in Hok. injection Hok as -> ->. destruct Hk as [[_ ->]|[? _]]; [|done].
  destruct Hr as [Hs [[A1 A2] B C D _]]. pose proof (map_npages_pos size ltac:(lia)) as Hpos.
  exec check_mapping_pgd. assert ((space_flags_to_ptflags g =? 0) = false) as ->.
  { apply list_elem_of_In in Hg. assert (forallb (fun g => negb (space_flags_to_ptflags g =? 0)) mapping_flags = true) as H by (by vm_compute).
    rewrite forallb_forall in H. by apply negb_true_iff, H. }
  cbn [obind]. unfold PAGE_SIZE in Hs. rewrite check_npages by lia.
  rewrite (check_pages_uniform P (user_rights g <=? user_rights f)); [|done..|lia|rewrite Z2Nat.id; lia|].
  - destruct (Z.to_nat (map_npages size)) eqn:En; [lia|done].
  - intros vb Hvb. rewrite Z2Nat.id by lia. intros Hv. rewrite M5, decide_True by done. apply perms_are_rights; [done..|].
    rewrite page_aligned_iff in *. by rewrite Z.mod_add.
Qed.
Lemma mapped_pages_pass_their_check_witness :
  match add_mapping_space 0 0x5000 0x8000 0x1800 MAP_USR_RO 256 demo_paged with
  | Ret 0 s' => check_mapping_pgd 0x8000 0x1800 MAP_USR_RO 0 s' = Ret true s'
                /\ check_mapping_pgd 0x8000 0x1800 MAP_USR_RW 0 s' = Ret false s'
  | _ => False
  end.
Proof.
  assert (map_request 0x5000 0x8000 0x1800 MAP_USR_RO) as Hr.
  { destruct demo_map_request as [? []]. split; [done|]. by split. }
  assert (exists s', add_mapping_space 0 0x5000 0x8000 0x1800 MAP_USR_RO 256 demo_paged = Ret 0 s') as [s' E].
  { eexists. vm_compute. reflexivity. }
  pose proof (fun g (H : g ∈ mapping_flags) => mapped_pages_pass_their_check 0 demo_dirs 0x5000 0x8000 0x1800 MAP_USR_RO g 256 demo_paged s'
    demo_tables_ok demo_table_cache eq_refl Hr ltac:(by vm_compute) eq_refl
    ltac:(by apply (bool_decide_unpack _)) H E) as H.
  rewrite E. split; [apply (H MAP_USR_RO)|apply (H MAP_USR_RW)]; by apply (bool_decide_unpack _).
Defined.

(** * A new directory *)

(** The directory entries that one call copies. *)
Definition copied_range (start end_ : Z) : Z * Z :=
  let start := align start PMD_MAP_SIZE in
  let end_ := if end_ <? start then 0 else end_ in
  let end_ := if (end_ <? align (2 ^ 32 - 1) PMD_MAP_SIZE) || (end_ <? start)
              then align_up end_ PMD_MAP_SIZE else 0 in
  (PGD_INDEX start, if negb (PGD_INDEX end_ =? 0) then u32 (PGD_INDEX end_ - PGD_INDEX start)
                    else PGD_ENTRY_TOTAL - PGD_INDEX start).
Definition in_copy (r : Z * Z) (i : Z) : bool := (fst r <=? i) && (i <? fst r + snd r).
Definition kernel_ranges : list (Z * Z) :=
  [copied_range KERNEL_AREA_START KERNEL_AREA_END; copied_range IO_AREA_START IO_AREA_END;
   copied_range USER_KIP_PAGE (USER_KIP_PAGE + PAGE_SIZE);
   copied_range ARM_HIGH_VECTOR (u32 (ARM_HIGH_VECTOR + PAGE_SIZE));
   copied_range ARM_SYSCALL_VECTOR (u32 (ARM_SYSCALL_VECTOR + PAGE_SIZE));
   copied_range USERSPACE_CONSOLE_VBASE (USERSPACE_CONSOLE_VBASE + PAGE_SIZE)].
Definition with_copy (to from : Z) (s : kstate) (r : Z * Z) : kstate :=
  s <| pgds ::= fun m => <[to := fun i => if in_copy r i then m from i else m to i]> m |>.

(** The six ranges are the entries [is_global_pgdi] names. *)
Lemma kernel_ranges_global i : dir_index i -> existsb (fun r => in_copy r i) kernel_ranges = is_global_pgdi i.
Proof.
  intros Hi. assert (forallb (fun i => eqb (existsb (fun r => in_copy r i) kernel_ranges) (is_global_pgdi i)) pgd_indices = true)
    as H by (by vm_compute).
  rewrite forallb_forall in H. apply eqb_prop, H, list_elem_of_In. unfold pgd_indices. apply elem_of_seqZ. exact Hi.
Qed.
Lemma copies_run to from l : from <> to -> forall s q i,
  pgds (foldl (with_copy to from) s l) q i
  = if bool_decide (q = to) && existsb (fun r => in_copy r i) l then pgds s from i else pgds s q i.
Proof.
  intros Hne. induction l as [|r l IH]; intros s q i; cbn [foldl existsb]; [by rewrite andb_false_r|].
  rewrite IH. clear IH. unfold with_copy at 1 2. cbn. rewrite (upd_ne _ to from) by done.
  case_bool_decide as E; cbn [andb].
  - subst q. rewrite upd_eq. by destruct (in_copy r i), (existsb _ l).
  - by rewrite upd_ne.
Qed.
Lemma copy_kernel_run to s : arch_copy_pgd_kernel_entries to s
  = Ret tt (foldl (with_copy to (TASK_PGD s (current s))) s kernel_ranges).
Proof. reflexivity. Qed.


(** In [s'] directory [to], empty in [s], has the kernel entries of [from]. *)
Record kernel_copied (to from : Z) (s s' : kstate) : Prop := {
  kc_old q i : q <> to -> pgds s' q i = pgds s q i;
  kc_new i : dir_index i -> pgds s' to i = if is_global_pgdi i then pgds s from i else 0;
  kc_same : pmds s' = pmds s /\ caches s' = caches s }.
Lemma copy_kernel_copied to s :
  TASK_PGD s (current s) <> to -> (forall i, dir_index i -> pgds s to i = 0) ->
  exists s', arch_copy_pgd_kernel_entries to s = Ret tt s' /\ kernel_copied to (TASK_PGD s (current s)) s s'.
Proof.
  intros Hne Hz. eexists. split; [apply copy_kernel_run|]. split.
  - intros q i Hq. by rewrite copies_run, bool_decide_false.
  - intros i Hi. rewrite copies_run, bool_decide_true, kernel_ranges_global by done. cbn [andb]. by rewrite Hz.
  - done.
Qed.

Section NewDirectory.
Context (P : Z -> Prop) (to from : Z) (s s' : kstate).
Context (Ht : tables_ok P s) (Hp : P from) (Hto : P to -> False) (Hk : kernel_copied to from s s').

Lemma old_entry q i : P q -> linked s' q i = linked s q i /\ table_at s' q i = table_at s q i.
Proof. intros Hq. unfold linked, table_at. rewrite (kc_old _ _ _ _ Hk) by (by intros ->). done. Qed.
Lemma new_entry i : dir_index i -> linked s' to i = true ->
  is_global_pgdi i = true /\ linked s from i = true /\ table_at s' to i = table_at s from i.
Proof. intros Hi. unfold linked, table_at. rewrite (kc_new _ _ _ _ Hk) by done. by destruct (is_global_pgdi i). Qed.
Lemma old_walk q va : P q -> is_u32 va -> walk s' q va = walk s q va.
Proof.
  intros Hq Hva. unfold walk. destruct (old_entry q (PGD_INDEX va) Hq) as [-> ->].
  by rewrite (proj1 (kc_same _ _ _ _ Hk)).
Qed.
Lemma new_walk va : is_u32 va -> walk s' to va = if is_global_pgdi (PGD_INDEX va) then walk s from va else 0.
Proof.
  intros Hva. unfold walk, linked, table_at. rewrite (kc_new _ _ _ _ Hk) by by apply pgd_index_range.
  rewrite (proj1 (kc_same _ _ _ _ Hk)). by destruct (is_global_pgdi _).
Qed.
(** The entries of the new directory set are entries of the old one. *)
Lemma entry_source p i : P p \/ p = to -> dir_index i -> linked s' p i = true ->
  exists p0, P p0 /\ linked s p0 i = true /\ table_at s' p i = table_at s p0 i
    /\ (is_global_pgdi i = false -> p0 = p).
Proof.
  intros [Hq | ->] Hi Hl.
  - exists p. destruct (old_entry p i Hq) as [<- <-]. done.
  - destruct (new_entry i Hi Hl) as (Hg & H1 & H2). exists from. split_and!; [done..|]. by rewrite Hg.
Qed.
Lemma new_tables_ok : tables_ok (fun p => P p \/ p = to) s'.
Proof.
  split.
  - intros p i [Hq | ->] Hi.
    + rewrite (kc_old _ _ _ _ Hk), (proj1 (old_entry p i Hq)) by (by intros ->). by apply (to_type P s Ht).
    + unfold linked. rewrite (kc_new _ _ _ _ Hk) by done. destruct (is_global_pgdi i); [by apply (to_type P s Ht)|by left].
  - intros p i Hq Hi Hl. destruct (entry_source p i Hq Hi Hl) as (p0 & H1 & H2 & -> & _).
    unfold free_table. rewrite (proj2 (kc_same _ _ _ _ Hk)). by apply (to_live P s Ht).
  - intros p i q j Hq Hr Hi Hj Hl1 Hl2 Hg E.
    destruct (entry_source p i Hq Hi Hl1) as (p0 & A1 & A2 & E1 & A3), (entry_source q j Hr Hj Hl2) as (q0 & B1 & B2 & E2 & B3).
    rewrite E1, E2 in E. destruct (to_apart P s Ht p0 i q0 j A1 B1 Hi Hj A2 B2 Hg E) as [-> ->].
    by rewrite <- A3, <- B3 by done.
  - intros p va [Hq | ->] Hva; [rewrite old_walk by done; by apply (to_page P s Ht)|].
    rewrite new_walk by done. destruct (is_global_pgdi _); [by apply (to_page P s Ht)|by left].
Qed.
End NewDirectory.

(** A fresh directory given the kernel entries translates the kernel's
    addresses as the current task's directory does and no user address at all;
    it can be added to the directories in use, of which none changes. *)
Theorem new_directory_has_the_kernel (P : Z -> Prop) (to : Z) (s : kstate)
    (Ht : tables_ok P s) (Hp : P (TASK_PGD s (current s))) (Hto : P to -> False)
    (Hz : forall i, dir_index i -> pgds s to i = 0) :
  exists s', arch_copy_pgd_kernel_entries to s = Ret tt s'
    /\ tables_ok (fun p => P p \/ p = to) s'
    /\ (forall va, is_u32 va ->
          walk s' to va = if is_global_pgdi (PGD_INDEX va) then walk s (TASK_PGD s (current s)) va else 0)
    /\ (forall q va, P q -> is_u32 va -> walk s' q va = walk s q va).
Proof.
  destruct (copy_kernel_copied to s) as (s' & E & Hk); [by intros <-|done|].
  exists s'. split_and!; [done|by eapply new_tables_ok|by apply new_walk|by eapply old_walk].
Qed.
Lemma new_directory_has_the_kernel_witness :
  let s := demo_mapped in
  exists s', arch_copy_pgd_kernel_entries 0x4000 s = Ret tt s'
    /\ tables_ok (fun p => demo_dirs p \/ p = 0x4000) s'
    /\ (forall va, is_u32 va -> walk s' 0x4000 va = if is_global_pgdi (PGD_INDEX va) then walk s 0 va else 0)
    /\ (forall q va, demo_dirs q -> is_u32 va -> walk s' q va = walk s q va).
Proof.
  exact (new_directory_has_the_kernel demo_dirs 0x4000 demo_mapped demo_mapped_ok eq_refl
    ltac:(done) ltac:(done)).
Defined.
