(* ===== verification/Space.v ===== *)
(** Address spaces and access checks: [src/generic/space.c] with
    [include/l4/generic/space.h].

    [check_access_task] may ask the task's pager to page in a range, which is an
    ipc of its own: the request is a parameter here and is supplied by file
    Fault. *)
From S2P Require Import Prelude Defs Kernel Sched Alloc Mapping.

Definition init_address_space_list (c : Z) : K unit :=
  contmod c (fun c => c <| space_list := [] |> <| space_count := 0 |>).

Definition address_space_attach (tcb space_ : Z) : K unit :=
  tmod tcb (fun t => t <| space := space_ |>) ;;
  spmod space_ (fun p => p <| ktcb_refs ::= Z.succ |>).

Definition address_space_find (spid_ : Z) : K Z :=
  c ← curcont;
  gets (fun s =>
    default 0 (list_find (fun p => spid (spaces s p) =? spid_) (space_list (conts s c))
               ≫= fun x => Some (snd x))).

Definition address_space_add (space_ : Z) : K unit :=
  c ← curcont;
  BUG_ON (fun s => bool_decide (space_ ∈ space_list (conts s c))) "address_space_add" ;;
  contmod c (fun c => c <| space_list ::= cons space_ |>) ;;
  contmod c (fun c => c <| space_count ::= Z.succ |>) ;;
  BUG_ON (fun s => space_count (conts s c) =? 0) "address_space_add".

Definition address_space_remove (space_ cont_ : Z) : K unit :=
  BUG_ON (fun s => negb (bool_decide (space_ ∈ space_list (conts s cont_)))) "address_space_remove" ;;
  contmod cont_ (fun c => c <| space_count ::= Z.pred |>) ;;
  BUG_ON (fun s => space_count (conts s cont_) <? 0) "address_space_remove" ;;
  contmod cont_ (fun c => c <| space_list ::= list_del space_ |>).

Section Space.
Context (fuel : nat).

Definition address_space_delete (space_ : Z) (clist : cl_ref) : K unit :=
  BUG_ON (fun s => negb (ktcb_refs (spaces s space_) =? 0)) "address_space_delete" ;;
  BUG_ON (fun s => negb (bool_decide (caps (caplists s (CL_SPACE space_)) = []))) "address_space_delete" ;;
  BUG_ON (fun s => negb (Kernel.ncaps (caplists s (CL_SPACE space_)) =? 0)) "address_space_delete" ;;
  _ ← delete_page_tables fuel space_ clist;
  id ← gets (fun s => spid (spaces s space_));
  _ ← id_del SPACE_IDS id;
  space_cap_free fuel space_ clist.

(** [orig] is 0 for a fresh space, otherwise the space to copy. *)
Definition address_space_create (orig : Z) : K Z :=
  sp ← cur_get space;
  space_ ← space_cap_alloc fuel (CL_SPACE sp);
  if space_ =? 0 then mret (PTR_ERR (- ENOMEM))
  else
    pgd_ ← pgd_alloc fuel;
    if pgd_ =? 0 then
      space_cap_free fuel space_ (CL_SPACE sp) ;;
      mret (PTR_ERR (- ENOMEM))
    else
      clmod (CL_SPACE space_) (fun _ => MkCapList 0 []) ;;
      spmod space_ (fun p => p <| pgd := pgd_ |>) ;;
      arch_copy_pgd_kernel_entries pgd_ ;;
      id ← id_new SPACE_IDS;
      spmod space_ (fun p => p <| spid := id |>) ;;
      if negb (orig =? 0) then
        err ← copy_user_tables fuel space_ orig;
        if err <? 0 then
          pgd_free fuel pgd_ ;;
          space_cap_free fuel space_ (CL_SPACE sp) ;;
          mret (PTR_ERR err)
        else mret space_
      else mret space_.
End Space.

Section Access.
(** [pager_pagein_request(addr, size, flags)] *)
Variable pager_pagein_request : Z -> Z -> Z -> K Z.

Definition check_access_task (vaddr size_ flags_ : Z) (page_in : bool) (task : Z) : K Z :=
  let start := page_align vaddr in
  let end_ := page_align_up (u32 (vaddr + size_)) in
  let mapsize := u32 (end_ - start) in
  p ← gets (fun s => TASK_PGD s task);
  ok ← check_mapping_pgd start mapsize flags_ p;
  if (ok : bool) then mret 0
  else
    cur ← gets current;
    if page_in && bool_decide (task = cur) then
      err ← pager_pagein_request start mapsize flags_;
      mret (if err <? 0 then err else 0)
    else mret (- EFAULT).

Definition check_access (vaddr size_ flags_ : Z) (page_in : bool) : K Z :=
  cur ← gets current; check_access_task vaddr size_ flags_ page_in cur.
End Access.

(** * User memory through the current page tables

    A kernel access to a user address reads or writes physical memory through
    the page tables of the current task; on an unmapped page it aborts, and an
    abort in the kernel is fatal ([check_abort_type] in file Fault). *)
Definition user_phys (vaddr : Z) : K Z :=
  pte ← virt_to_pte vaddr;
  bug_on (Z.land pte PTE_TYPE_MASK =? PTE_TYPE_FAULT) "data abort in the kernel" ;;
  mret (Z.land pte (lnot32 PAGE_MASK) + vaddr mod PAGE_SIZE).
Definition user_readb (vaddr : Z) : K Z := a ← user_phys vaddr; gets (fun s => pmem s a).
Definition user_writeb (vaddr v : Z) : K unit :=
  a ← user_phys vaddr; modify (fun s => s <| pmem ::= fun m => <[a := v]> m |>).
Fixpoint user_read (n : nat) (vaddr : Z) : K (list Z) :=
  match n with
  | O => mret []
  | S n => b ← user_readb vaddr; l ← user_read n (u32 (vaddr + 1)); mret (b :: l)
  end.
Fixpoint user_write (vaddr : Z) (l : list Z) : K unit :=
  match l with
  | [] => mret tt
  | b :: l => user_writeb vaddr b ;; user_write (u32 (vaddr + 1)) l
  end.
