(* ===== verification/Tcb.v ===== *)
(** Thread control blocks: [src/generic/tcb.c] with [include/l4/generic/tcb.h].
    The lookups of that file are in Caps. *)
From S2P Require Import Prelude Defs Kernel Sched Alloc Caps Mapping Space.

Definition set_task_ids (task : Z) (ids : task_ids) : K unit :=
  tmod task (fun t => t <| tid := ids_tid ids |>) ;;
  tmod task (fun t => t <| tgid := ids_tgid ids |>).

Definition waitqueue_head_init (h : wqh_ref) : K unit := wmod h (fun _ => MkWqh 0 []).
Definition mutex_init (m : mutex_ref) : K unit :=
  modify (with_mutex m 0) ;; waitqueue_head_init (WQ_MUTEX m).

(** [init_ktcb_list] for the zombie list. *)
Definition init_zombie_list : K unit := kmod (fun k => k <| zombies := [] |> <| zombie_count := 0 |>).

Definition tcb_init (new : Z) : K unit :=
  mutex_init (MX_TCB new) ;;
  sched_init_task new TASK_PRIO_NORMAL ;;
  waitqueue_head_init (WQ_SEND new) ;;
  waitqueue_head_init (WQ_RECV new) ;;
  waitqueue_head_init (WQ_PAGER new).

(** * Task lists *)

(** [ktcb_list_add] and [ktcb_list_remove] are used on the zombie list. *)
Definition ktcb_list_add (new : Z) : K unit :=
  spin_lock ;;
  BUG_ON (fun s => bool_decide (new ∈ zombies (kres s))) "ktcb_list_add" ;;
  kmod (fun k => k <| zombie_count ::= Z.succ |>) ;;
  BUG_ON (fun s => zombie_count (kres s) =? 0) "ktcb_list_add" ;;
  kmod (fun k => k <| zombies ::= cons new |>) ;;
  spin_unlock.

Definition ktcb_list_remove (t : Z) : K unit :=
  spin_lock ;;
  BUG_ON (fun s => negb (bool_decide (t ∈ zombies (kres s)))) "ktcb_list_remove" ;;
  kmod (fun k => k <| zombie_count ::= Z.pred |>) ;;
  BUG_ON (fun s => zombie_count (kres s) <? 0) "ktcb_list_remove" ;;
  kmod (fun k => k <| zombies ::= list_del t |>) ;;
  spin_unlock.

Definition tcb_add (new : Z) : K unit :=
  c ← tget new container;
  spin_lock ;;
  BUG_ON (fun s => bool_decide (new ∈ ktcb_list (conts s c))) "tcb_add" ;;
  contmod c (fun c => c <| ktcb_count ::= Z.succ |>) ;;
  BUG_ON (fun s => ktcb_count (conts s c) =? 0) "tcb_add" ;;
  contmod c (fun c => c <| ktcb_list ::= cons new |>) ;;
  spin_unlock.

Definition tcb_remove (task : Z) : K unit :=
  c ← curcont;
  spin_lock ;;
  BUG_ON (fun s => negb (bool_decide (task ∈ ktcb_list (conts s c)))) "tcb_remove" ;;
  contmod c (fun c => c <| ktcb_count ::= Z.pred |>) ;;
  BUG_ON (fun s => ktcb_count (conts s c) <? 0) "tcb_remove" ;;
  spin_lock ;;
  contmod c (fun c => c <| ktcb_list ::= list_del task |>) ;;
  spin_unlock ;;
  spin_unlock.

(** * Deletion *)

(** The sanity checks common to the two deletion functions. *)
Definition tcb_delete_checks (tcb : Z) : K unit :=
  BUG_ON (fun _ => negb (is_page_aligned tcb)) "tcb_delete" ;;
  BUG_ON (fun s => 0 <? sleepers (wqhs s (WQ_PAGER tcb))) "tcb_delete" ;;
  BUG_ON (fun s => 0 <? sleepers (wqhs s (WQ_SEND tcb))) "tcb_delete" ;;
  BUG_ON (fun s => 0 <? sleepers (wqhs s (WQ_RECV tcb))) "tcb_delete" ;;
  BUG_ON (fun s => negb (affinity (tcbs s tcb) =? affinity (tcbs s (current s)))) "tcb_delete" ;;
  BUG_ON (fun s => negb (bool_decide (state (tcbs s tcb) = TASK_INACTIVE))) "tcb_delete" ;;
  BUG_ON (fun s => rq_linked s tcb) "tcb_delete" ;;
  BUG_ON (fun s => bool_decide (is_Some (rq (tcbs s tcb)))) "tcb_delete" ;;
  BUG_ON (fun s => bool_decide (tcb = current s)) "tcb_delete" ;;
  BUG_ON (fun s => negb (nlocks (tcbs s tcb) =? 0)) "tcb_delete" ;;
  BUG_ON (fun s => bool_decide (is_Some (waiting_on (tcbs s tcb)))) "tcb_delete" ;;
  BUG_ON (fun s => bool_decide (is_Some (wq (tcbs s tcb)))) "tcb_delete" ;;
  BUG_ON (fun s => negb (nchild (tcbs s tcb) =? 0)) "tcb_delete".

Definition clear_cid (tcb : Z) : K unit :=
  tmod tcb (fun t => t <| tid ::= fun i => Z.land i (lnot32 TASK_CID_MASK) |>).

Section Tcb.
Context (fuel : nat).

Definition tcb_alloc_init (cid_ : Z) : K Z :=
  sp ← cur_get space;
  tcb ← ktcb_cap_alloc fuel (CL_SPACE sp);
  if tcb =? 0 then mret 0
  else
    id ← id_new KTCB_IDS;
    let tid_ := Z.lor id (Z.land TASK_CID_MASK (u32 (Z.shiftl cid_ TASK_CID_SHIFT))) in
    set_task_ids tcb (MkIds tid_ L4_NILTHREAD L4_NILTHREAD) ;;
    tcb_init tcb ;;
    mret tcb.

(** Gives the space's capabilities to the container's pager structure. *)
Definition tcb_delete_pager (tcb : Z) : K unit :=
  c ← tget tcb container;
  let pager_cap_list := CL_PAGER c 0 in
  tcb_delete_checks tcb ;;
  spin_lock ;;
  spin_lock ;;
  sp ← tget tcb space;
  spmod sp (fun p => p <| ktcb_refs ::= Z.pred |>) ;;
  BUG_ON (fun s => negb (ktcb_refs (spaces s sp) =? 0)) "tcb_delete_pager" ;;
  address_space_remove sp c ;;
  cap_list_move pager_cap_list (CL_SPACE sp) ;;
  spin_unlock ;;
  spin_unlock ;;
  address_space_delete fuel sp pager_cap_list ;;
  clear_cid tcb ;;
  id ← tget tcb tid;
  _ ← id_del KTCB_IDS id;
  ktcb_cap_free fuel tcb pager_cap_list.

Definition tcb_delete (tcb : Z) : K unit :=
  p ← tget tcb pager;
  tcb_delete_checks tcb ;;
  spin_lock ;;
  spin_lock ;;
  sp ← tget tcb space;
  c ← tget tcb container;
  spmod sp (fun p => p <| ktcb_refs ::= Z.pred |>) ;;
  BUG_ON (fun s => ktcb_refs (spaces s sp) <? 0) "tcb_delete" ;;
  refs ← gets (fun s => ktcb_refs (spaces s sp));
  psp ← tget p space;
  (if refs =? 0 then
     address_space_remove sp c ;;
     spin_unlock ;;
     spin_unlock ;;
     address_space_delete fuel sp (CL_SPACE psp)
   else spin_unlock ;; spin_unlock) ;;
  clear_cid tcb ;;
  id ← tget tcb tid;
  _ ← id_del KTCB_IDS id;
  psp ← (p ← tget tcb pager; tget p space);
  ktcb_cap_free fuel tcb (CL_SPACE psp) ;;
  spin_lock ;;
  n ← tget p nchild;
  tmod p (fun t => t <| nchild ::= Z.pred |>) ;;
  bug_on (n <? 0) "tcb_delete" ;;
  spin_unlock ;;
  n ← tget p nchild;
  when (n =? 0) (wake_up sched_resume_sync (WQ_PAGER p) 0).

Definition thread_is_pager (s : kstate) (t : Z) : bool := bool_decide (pager (tcbs s t) = t).

(** The traversal remembers the successor before a zombie is unlinked, so it
    visits the list as it was found. *)
Definition tcb_delete_zombies : K unit :=
  spin_lock ;;
  zs ← gets (fun s => zombies (kres s));
  foreach zs (fun zombie =>
    spin_lock ;;
    kmod (fun k => k <| zombies ::= list_del zombie |>) ;;
    spin_unlock ;;
    spin_unlock ;;
    is_pager ← gets (fun s => thread_is_pager s zombie);
    (if (is_pager : bool) then tcb_delete_pager zombie else tcb_delete zombie) ;;
    spin_lock) ;;
  spin_unlock.

Section Utcb.
Variable pager_pagein_request : Z -> Z -> Z -> K Z.

Definition tcb_check_and_lazy_map_utcb (task : Z) (page_in : bool) : K Z :=
  ua ← tget task utcb_address;
  if ua =? 0 then mret (- ENOUTCB)
  else
    cur ← gets current;
    if bool_decide (cur = task) then
      ret ← check_access pager_pagein_request ua UTCB_SIZE MAP_KERN_RW page_in;
      mret (if ret <? 0 then - EFAULT else 0)
    else
      ret ← check_access_task pager_pagein_request ua UTCB_SIZE MAP_KERN_RW false task;
      if ret <? 0 then mret (- EFAULT)
      else
        tp ← gets (fun s => TASK_PGD s task);
        cp ← gets (fun s => TASK_PGD s cur);
        phys ← virt_to_phys_by_pgd tp ua;
        mine ← virt_to_phys_by_pgd cp ua;
        ret ← (if negb (phys =? mine) then
                 csp ← tget cur space;
                 tsp ← tget task space;
                 add_mapping_use_cap fuel phys (page_align ua) (page_align_up UTCB_SIZE)
                   MAP_KERN_RW csp (CL_SPACE tsp)
               else mret 0);
        if ret <? 0 then mret ret
        else bug_on (phys =? 0) "tcb_check_and_lazy_map_utcb" ;; mret 0.
End Utcb.
End Tcb.

(** [idle_task]: one round of its loop. *)
Definition idle_task_round (fuel : nat) : K unit :=
  tcb_delete_zombies fuel ;;
  smod (fun sc => sc <| sflags ::= fun f => Z.land f (lnot32 SCHED_RUN_IDLE) |>) ;;
  schedule.
