(* ===== verification/Ipc.v ===== *)
(** Inter-process communication: [src/api/ipc.c] with [include/l4/glue/arm/ipc.h]
    and [message.h].

    A message's registers are r3..r8 of the trap frame [syscall_regs] points to;
    the rest of a full message is the utcb in user memory, an extended message
    the buffer at the end of the ktcb.  Access checks may ask the pager for
    pages, which is an ipc again: the request is a parameter, supplied by file
    Fault. *)
From S2P Require Import Prelude Defs Kernel Sched Alloc Caps Mapping Space Tcb.

(** * Message registers *)

Definition mr_regs : list reg := [R3; R4; R5; R6; R7; R8].
(** The words of [syscall_context_t] from r3 to its end. *)
Definition mr_frame : list reg := [R3; R4; R5; R6; R7; R8; R9; R10; R11; R12; SP; LR].

(** [KTCB_REF_MR0(task)]; through a null [syscall_regs] the access faults. *)
Definition KTCB_REF_MR0 (task : Z) : K sysref :=
  r ← tget task syscall_regs;
  bug_on (bool_decide (r = SYS_NULL)) "null syscall_regs" ;;
  mret r.
(** [mr0[i]]; past the end of the frame the C code reads its kernel stack. *)
Definition mr_read (r : sysref) (i : Z) : K Z :=
  match mr_frame !! Z.to_nat i with
  | Some x => gets (fun s => sysctx s r x)
  | None => bug "message register index past the trap frame"
  end.
Definition mr_write (r : sysref) (x : reg) (v : Z) : K unit :=
  modify (fun s => s <| sysctx ::= fun m => <[r := <[x := v]> (m r)]> m |>).

Definition tcb_set_ipc_flags (task fl : Z) : K unit := tmod task (fun t => t <| ipc_flags := fl |>).
Definition tcb_get_ipc_flags (t : ktcb) : Z := ipc_flags t.
Definition tcb_get_ipc_type (t : ktcb) : Z := ipc_flags_get_type (ipc_flags t).
Definition tcb_set_ipc_type (task type : Z) : K unit :=
  tmod task (fun t => t <| ipc_flags ::= fun f => ipc_flags_set_type f type |>).

(** Offset of [mr_rest] in [struct utcb]: six registers, two saved words and
    the notification slots. *)
Definition UTCB_MR_REST := 4 * MR_TOTAL + 4 + 4 + TASK_NOTIFY_SLOTS.

Definition ipc_short_copy (to from : Z) : K Z :=
  src ← KTCB_REF_MR0 from;
  dst ← KTCB_REF_MR0 to;
  modify (fun s => s <| sysctx ::= fun m =>
    <[dst := fun x => if bool_decide (x ∈ mr_regs) then m src x else m dst x]> m |>) ;;
  mret 0.

Definition ipc_extended_copy (to from : Z) : K Z :=
  size ← gets (fun s => Z.to_nat (min (extended_ipc_size (tcbs s from)) (extended_ipc_size (tcbs s to))));
  buf ← tget from extended_ipc_buffer;
  tmod to (fun t => t <| extended_ipc_buffer ::= fun b => take size buf ++ drop size b |>) ;;
  mret 0.

Definition sys_ipc_control : K Z := mret (- ENOSYS).

Definition ipc_signal_error (sleeper retval : Z) : K unit :=
  bug_on (negb (retval =? - EFAULT) && negb (retval =? - ENOIPC)) "ipc_signal_error" ;;
  when (retval =? - EFAULT) (tmod sleeper (fun t => t <| ipc_flags ::= fun f => Z.lor f IPC_EFAULT |>)) ;;
  when (retval =? - ENOIPC) (tmod sleeper (fun t => t <| ipc_flags ::= fun f => Z.lor f IPC_ENOIPC |>)).

Definition ipc_handle_errors : K Z :=
  cur ← gets current;
  t ← gets (fun s => tcbs s cur);
  if flag_set (flags t) TASK_INTERRUPTED then
    tmod cur (clear_flag TASK_INTERRUPTED) ;; mret (- EINTR)
  else if flag_set (ipc_flags t) IPC_EFAULT then
    tmod cur (fun t => t <| ipc_flags ::= fun f => Z.land f (lnot32 IPC_EFAULT) |>) ;; mret (- EFAULT)
  else if flag_set (ipc_flags t) IPC_ENOIPC then
    tmod cur (fun t => t <| ipc_flags ::= fun f => Z.land f (lnot32 IPC_ENOIPC) |>) ;; mret (- ENOIPC)
  else mret 0.

Section Ipc.
Context (fuel : nat).
Variable pager_pagein_request : Z -> Z -> Z -> K Z.

Definition ipc_full_copy (to from : Z) : K Z :=
  from_utcb ← tget from utcb_address;
  to_utcb ← tget to utcb_address;
  ret ← ipc_short_copy to from;
  if ret <? 0 then mret ret
  else
    ret ← tcb_check_and_lazy_map_utcb fuel pager_pagein_request to true;
    if ret <? 0 then mret ret
    else
      ret ← tcb_check_and_lazy_map_utcb fuel pager_pagein_request from true;
      if ret <? 0 then mret ret
      else
        words ← user_read (Z.to_nat (MR_REST * 4)) (u32 (from_utcb + UTCB_MR_REST));
        user_write (u32 (to_utcb + UTCB_MR_REST)) words ;;
        mret 0.

(** The two nested switches on the ipc types; a type that no case names copies
    nothing and succeeds. *)
Definition ipc_copy_by_type (to from recv_type send_type : Z) : K Z :=
  if recv_type =? IPC_FLAGS_SHORT then
    if send_type =? IPC_FLAGS_SHORT then ipc_short_copy to from
    else if send_type =? IPC_FLAGS_FULL then ipc_full_copy to from
    else if send_type =? IPC_FLAGS_EXTENDED then mret (- ENOIPC) else mret 0
  else if recv_type =? IPC_FLAGS_FULL then
    if send_type =? IPC_FLAGS_SHORT then ipc_full_copy to from
    else if send_type =? IPC_FLAGS_FULL then ipc_full_copy to from
    else if send_type =? IPC_FLAGS_EXTENDED then mret (- ENOIPC) else mret 0
  else if recv_type =? IPC_FLAGS_EXTENDED then
    if send_type =? IPC_FLAGS_EXTENDED then
      ret ← ipc_short_copy to from;
      if ret <? 0 then mret ret else ipc_extended_copy to from
    else if send_type =? IPC_FLAGS_SHORT then mret (- ENOIPC)
    else if send_type =? IPC_FLAGS_FULL then mret (- ENOIPC) else mret 0
  else mret 0.

Definition ipc_msg_copy (to from : Z) : K Z :=
  recv_ipc_type ← tget to tcb_get_ipc_type;
  send_ipc_type ← tget from tcb_get_ipc_type;
  ret ← ipc_copy_by_type to from recv_ipc_type send_ipc_type;
  e ← tget to expected_sender;
  when (e =? L4_ANYTHREAD)
    (mr0_dst ← KTCB_REF_MR0 to;
     id ← tget from tid;
     mr_write mr0_dst R4 id) ;;
  mret ret.

(** The receiver waits on its own [wqh_recv] for the current task. *)
Definition expects (s : kstate) (receiver sender : Z) : bool :=
  let e := expected_sender (tcbs s receiver) in
  (e =? tid (tcbs s sender)) || (e =? L4_ANYTHREAD).
Definition ready_to_receive (s : kstate) (receiver : Z) : bool :=
  bool_decide (state (tcbs s receiver) = TASK_SLEEPING)
  && bool_decide (waiting_on (tcbs s receiver) = Some (WQ_RECV receiver))
  && expects s receiver (current s).

Definition ipc_send (recv_tid flags_ : Z) : K Z :=
  receiver ← tcb_find_lock recv_tid;
  if receiver =? 0 then mret (- ESRCH)
  else
    let wqhs_ := WQ_SEND receiver in
    let wqhr := WQ_RECV receiver in
    spin_lock ;;
    spin_lock ;;
    ready ← gets (fun s => ready_to_receive s receiver);
    cur ← gets current;
    if (ready : bool) then
      w ← tget receiver wq;
      match w with
      | None => bug "ipc_send: null wq"
      | Some w => wmod wqhr (fun q => q <| task_list ::= list_del w |>)
      end ;;
      wmod wqhr (fun q => q <| sleepers ::= Z.pred |>) ;;
      task_unset_wqh receiver ;;
      spin_unlock ;;
      spin_unlock ;;
      ret ← ipc_msg_copy receiver cur;
      when (ret <? 0) (ipc_signal_error receiver ret) ;;
      sched_resume_async receiver ;;
      spin_unlock ;;
      mret ret
    else
      wq_enqueue wqhs_ cur ;;
      task_set_wqh cur wqhs_ cur ;;
      sched_prepare_sleep ;;
      spin_unlock ;;
      spin_unlock ;;
      spin_unlock ;;
      schedule ;;
      ipc_handle_errors.

(** The first sender in the queue the receiver accepts. *)
Definition accepted_sender (s : kstate) (receiver : Z) : option Z :=
  snd <$> list_find (fun t => expects s receiver t) (task_list (wqhs s (WQ_SEND receiver))).

Definition ipc_recv (senderid flags_ : Z) : K Z :=
  cur ← gets current;
  let wqhs_ := WQ_SEND cur in
  let wqhr := WQ_RECV cur in
  tmod cur (fun t => t <| expected_sender := senderid |>) ;;
  spin_lock ;;
  spin_lock ;;
  n ← gets (fun s => sleepers (wqhs s wqhs_));
  found ← (if 0 <? n then
             BUG_ON (fun s => bool_decide (task_list (wqhs s wqhs_) = [])) "ipc_recv" ;;
             gets (fun s => accepted_sender s cur)
           else mret None);
  match found with
  | Some sleeper =>
      wmod wqhs_ (fun q => q <| task_list ::= list_del sleeper |>) ;;
      wmod wqhs_ (fun q => q <| sleepers ::= Z.pred |>) ;;
      task_unset_wqh sleeper ;;
      spin_unlock ;;
      spin_unlock ;;
      ret ← ipc_msg_copy cur sleeper;
      when (ret <? 0) (ipc_signal_error sleeper ret) ;;
      sched_resume_sync sleeper ;;
      mret ret
  | None =>
      wq_enqueue wqhr cur ;;
      task_set_wqh cur wqhr cur ;;
      sched_prepare_sleep ;;
      spin_unlock ;;
      spin_unlock ;;
      schedule ;;
      ipc_handle_errors
  end.

Definition ipc_sendrecv (to from flags_ : Z) : K Z :=
  if to =? from then
    ret ← ipc_send to flags_;
    if ret <? 0 then mret ret
    else
      ret ← ipc_recv from flags_;
      if ret <? 0 then mret ret else mret ret
  else mret (- ENOSYS).

Definition ipc_sendrecv_extended (to from flags_ : Z) : K Z := mret (- ENOSYS).

Definition ipc_recv_extended (sendertid flags_ : Z) : K Z :=
  let msg_index := extended_ipc_msg_index flags_ in
  cur ← gets current;
  mr0_current ← KTCB_REF_MR0 cur;
  ipc_address ← mr_read mr0_current msg_index;
  let size := extended_ipc_msg_size flags_ in
  if IPC_EXTENDED_MAX_SIZE <? size then mret (- EINVAL)
  else
    tmod cur (fun t => t <| extended_ipc_size := size |>) ;;
    err ← ipc_recv sendertid flags_;
    if err <? 0 then mret err
    else
      err ← check_access pager_pagein_request ipc_address size MAP_USR_RW true;
      if err <? 0 then mret err
      else
        t ← gets (fun s => tcbs s cur);
        user_write ipc_address (take (Z.to_nat (extended_ipc_size t)) (extended_ipc_buffer t)) ;;
        mret 0.

Definition ipc_send_extended (recv_tid flags_ : Z) : K Z :=
  let msg_index := extended_ipc_msg_index flags_ in
  cur ← gets current;
  mr0_current ← KTCB_REF_MR0 cur;
  ipc_address ← mr_read mr0_current msg_index;
  let size := extended_ipc_msg_size flags_ in
  if IPC_EXTENDED_MAX_SIZE <? size then mret (- EINVAL)
  else
    tmod cur (fun t => t <| extended_ipc_size := size |>) ;;
    err ← check_access pager_pagein_request ipc_address size MAP_USR_RW true;
    if err <? 0 then mret err
    else
      data ← user_read (Z.to_nat size) ipc_address;
      tmod cur (fun t => t <| extended_ipc_buffer ::= fun b => data ++ drop (Z.to_nat size) b |>) ;;
      ipc_send recv_tid flags_.

Definition __sys_ipc (to from ipc_dir flags_ : Z) : K Z :=
  if ipc_flags_get_type flags_ =? IPC_FLAGS_EXTENDED then
    if ipc_dir =? IPC_SEND then ipc_send_extended to flags_
    else if ipc_dir =? IPC_RECV then ipc_recv_extended from flags_
    else if ipc_dir =? IPC_SENDRECV then ipc_sendrecv_extended to from flags_
    else mret (- ENOSYS)
  else
    if ipc_dir =? IPC_SEND then ipc_send to flags_
    else if ipc_dir =? IPC_RECV then ipc_recv from flags_
    else if ipc_dir =? IPC_SENDRECV then ipc_sendrecv to from flags_
    else mret (- ENOSYS).

(** A special id other than the two that may be given. *)
Definition bad_special (id : Z) : bool :=
  tid_special_value id && negb (id =? L4_ANYTHREAD) && negb (id =? L4_NILTHREAD).

Definition sys_ipc (to from flags_ : Z) : K Z :=
  if bad_special from then mret (- EINVAL)
  else if bad_special to then mret (- EINVAL)
  else
    ct ← cur_get tid;
    if (from =? ct) || (to =? ct) then mret (- EINVAL)
    else
      let ipc_dir := Z.lor (if negb (to =? L4_NILTHREAD) then IPC_SEND else IPC_INVALID)
                           (if negb (from =? L4_NILTHREAD) then IPC_RECV else IPC_INVALID) in
      if ipc_dir =? IPC_INVALID then mret (- EINVAL)
      else
        ret ← cap_ipc_check to from flags_ ipc_dir;
        if ret <? 0 then mret ret
        else
          cur ← gets current;
          tcb_set_ipc_flags cur flags_ ;;
          __sys_ipc to from ipc_dir flags_.
End Ipc.
