(* ===== verification/Rendezvous.v ===== *)
(** The rendezvous of [src/api/ipc.c]: a sender and a receiver meet, the message
    registers are copied from one trap frame to the other, and both go on. *)
From S2P Require Import Prelude Bits Defs Kernel Exec Sched SchedInv SchedOps Schedule Fairness Demo Waiting.
From S2P Require Import Alloc Mutexes Caps Authority Mapping Space Tcb Ipc.

(** * Messages *)

Definition with_sysctx (f : (sysref -> regs) -> sysref -> regs) (s : kstate) : kstate := s <| sysctx ::= f |>.

(** The message registers of frame [src] copied to [dst], if [copy], and the
    sender's id stored in the second of them, if [tag]. *)
Definition deliver (copy : bool) (dst src : sysref) (tag : option Z) : kstate -> kstate :=
  with_sysctx (fun m =>
    let m1 := if copy then <[dst := fun x => if bool_decide (x ∈ mr_regs) then m src x else m dst x]> m else m in
    match tag with Some id => <[dst := <[R4 := id]> (m1 dst)]> m1 | None => m1 end).

Lemma deliver_read copy dst src tag s r x :
  sysctx (deliver copy dst src tag s) r x =
  if decide (r = dst) then
    match tag with
    | Some id => if decide (x = R4) then id
                 else if copy && bool_decide (x ∈ mr_regs) then sysctx s src x else sysctx s dst x
    | None => if copy && bool_decide (x ∈ mr_regs) then sysctx s src x else sysctx s dst x
    end
  else sysctx s r x.
Proof.
  unfold deliver, with_sysctx. cbn. destruct (decide (r = dst)) as [->|Hr].
  - destruct tag as [id|]; [rewrite upd_eq; destruct (decide (x = R4)) as [->|Hx]; [by rewrite upd_eq|rewrite (upd_ne _ R4) by done]|];
      destruct copy; cbn [andb]; rewrite ?upd_eq; done.
  - destruct tag as [id|]; destruct copy; by rewrite ?upd_ne.
Qed.

(** Delivery is a frame for everything else. *)
Lemma deliver_preempt copy dst src tag f s :
  deliver copy dst src tag (with_preempt f s) = with_preempt f (deliver copy dst src tag s).
Proof. reflexivity. Qed.
Lemma deliver_tcb copy dst src tag t f s :
  deliver copy dst src tag (with_tcb t f s) = with_tcb t f (deliver copy dst src tag s).
Proof. reflexivity. Qed.
Lemma deliver_leave copy dst src tag t h s :
  deliver copy dst src tag (wq_leave t h s) = wq_leave t h (deliver copy dst src tag s).
Proof. reflexivity. Qed.
Lemma deliver_resume copy dst src tag t s :
  deliver copy dst src tag (resume t s) = resume t (deliver copy dst src tag s).
Proof. reflexivity. Qed.
Lemma deliver_inv copy dst src tag s : sched_inv s -> sched_inv (deliver copy dst src tag s).
Proof. by apply sinv_ext. Qed.

(** What [ipc_msg_copy] writes besides the message: who sent it. *)
Definition sender_tag (s : kstate) (to from : Z) : option Z :=
  if expected_sender (tcbs s to) =? L4_ANYTHREAD then Some (tid (tcbs s from)) else None.
Definition frame_of (s : kstate) (t : Z) : sysref := syscall_regs (tcbs s t).
Definition ipc_type_of (s : kstate) (t : Z) : Z := tcb_get_ipc_type (tcbs s t).

(** The outcome of a transfer that needs no utcb: a short message between short
    parties, and nothing between an extended party and another. *)
Definition incompatible (recv_type send_type : Z) : bool :=
  ((recv_type =? IPC_FLAGS_EXTENDED) && ((send_type =? IPC_FLAGS_SHORT) || (send_type =? IPC_FLAGS_FULL)))
  || ((send_type =? IPC_FLAGS_EXTENDED) && ((recv_type =? IPC_FLAGS_SHORT) || (recv_type =? IPC_FLAGS_FULL))).
Definition both_short (recv_type send_type : Z) : bool := (recv_type =? IPC_FLAGS_SHORT) && (send_type =? IPC_FLAGS_SHORT).

Section Ipc.
Context (fuel : nat) (req : Z -> Z -> Z -> K Z).

Lemma KTCB_REF_MR0_run t s : frame_of s t <> SYS_NULL -> KTCB_REF_MR0 t s = Ret (frame_of s t) s.
Proof. intros H. exec KTCB_REF_MR0. fold (frame_of s t). by rewrite bool_decide_false. Qed.

Lemma ipc_copy_short to from s : frame_of s to <> SYS_NULL -> frame_of s from <> SYS_NULL ->
  ipc_copy_by_type fuel req to from IPC_FLAGS_SHORT IPC_FLAGS_SHORT s
  = Ret 0 (deliver true (frame_of s to) (frame_of s from) None s).
Proof.
  intros H1 H2. exec ipc_copy_by_type ipc_short_copy. change (IPC_FLAGS_SHORT =? IPC_FLAGS_SHORT) with true. cbv beta iota.
  rewrite KTCB_REF_MR0_run by done. cbn [obind]. rewrite KTCB_REF_MR0_run by done. reflexivity.
Qed.
Lemma ipc_copy_incompatible to from rt st s : incompatible rt st = true ->
  ipc_copy_by_type fuel req to from rt st s = Ret (- ENOIPC) s.
Proof.
  unfold incompatible. rewrite orb_true_iff, !andb_true_iff, !orb_true_iff, !Z.eqb_eq.
  intros [[-> [-> | ->]] | [-> [-> | ->]]]; reflexivity.
Qed.

(** After the copy, the tag. *)
Lemma ipc_tag_run to from copy src (r : Z) s0 s1 :
  frame_of s0 to <> SYS_NULL -> s1 = deliver copy (frame_of s0 to) src None s0 ->
  (e ← tget to expected_sender;
   when (e =? L4_ANYTHREAD) (mr0_dst ← KTCB_REF_MR0 to; id ← tget from tid; mr_write mr0_dst R4 id) ;;
   mret r) s1
  = Ret r (deliver copy (frame_of s0 to) src (sender_tag s0 to from) s0).
Proof.
  intros Hf ->. exec. unfold sender_tag. change (tcbs (deliver copy (frame_of s0 to) src None s0)) with (tcbs s0).
  destruct (expected_sender (tcbs s0 to) =? L4_ANYTHREAD); [|done]. cbn [obind].
  rewrite KTCB_REF_MR0_run by done. cbn [obind].
  change (frame_of (deliver copy (frame_of s0 to) src None s0) to) with (frame_of s0 to). exec mr_write.
  change (tcbs (deliver copy (frame_of s0 to) src None s0)) with (tcbs s0). reflexivity.
Qed.
Lemma ipc_msg_copy_short to from s :
  both_short (ipc_type_of s to) (ipc_type_of s from) = true -> frame_of s to <> SYS_NULL -> frame_of s from <> SYS_NULL ->
  ipc_msg_copy fuel req to from s = Ret 0 (deliver true (frame_of s to) (frame_of s from) (sender_tag s to from) s).
Proof.
  intros [E1%Z.eqb_eq E2%Z.eqb_eq]%andb_true_iff H1 H2. unfold ipc_msg_copy. exec. fold (ipc_type_of s to) (ipc_type_of s from).
  rewrite E1, E2, ipc_copy_short by done. cbn [obind]. by apply ipc_tag_run.
Qed.
Lemma ipc_msg_copy_incompatible to from s :
  incompatible (ipc_type_of s to) (ipc_type_of s from) = true -> frame_of s to <> SYS_NULL ->
  ipc_msg_copy fuel req to from s = Ret (- ENOIPC) (deliver false (frame_of s to) (frame_of s from) (sender_tag s to from) s).
Proof.
  intros E H1. unfold ipc_msg_copy. exec. fold (ipc_type_of s to) (ipc_type_of s from).
  rewrite ipc_copy_incompatible by done. cbn [obind].
  assert (deliver false (frame_of s to) (frame_of s from) None s = s) as Es by by destruct s.
  by apply ipc_tag_run.
Qed.

(** * Sending *)

Lemma container_find_lock_tcb_run c tid_ s :
  container_find_lock_tcb c tid_ s
  = Ret (find_in s c tid_) (if find_in s c tid_ =? 0 then s else with_preempt Z.succ s).
Proof.
  exec container_find_lock_tcb find_task.
  repeat match goal with |- context [default 0 ?x] => change (default 0 x) with (find_in s c tid_) end.
  destruct (find_in s c tid_ =? 0); cbn [negb obind]; by rewrite preempt_pred_succ.
Qed.
Lemma tcb_find_lock_run tid_ s : current s <> 0 ->
  tcb_find_lock tid_ s = Ret (task_of s tid_) (if task_of s tid_ =? 0 then s else with_preempt Z.succ s).
Proof.
  intros Hc. exec tcb_find_lock. unfold task_of. destruct (_ =? tid_).
  - cbn [obind]. by rewrite (proj2 (Z.eqb_neq _ _)) by done.
  - exec. destruct (tid_to_cid tid_ =? _).
    + apply container_find_lock_tcb_run.
    + rewrite container_find_run. cbn [obind]. destruct (container_of _ _ =? 0); [done|apply container_find_lock_tcb_run].
Qed.

(** A ready receiver is taken off its wait queue before anything is copied; one
    lock is held meanwhile. *)
Lemma ipc_send_ready r tid_ fl s :
  wq_inv s -> task_of s tid_ = r -> r <> 0 -> current s <> 0 -> ready_to_receive s r = true ->
  ipc_send fuel req tid_ fl s
  = obind (ipc_msg_copy fuel req r (current s) (with_preempt Z.succ (wq_leave r (WQ_RECV r) s)))
      (fun ret => when (ret <? 0) (ipc_signal_error r ret) ;; sched_resume_async r ;; spin_unlock ;; mret ret).
Proof.
  intros [_ _ _ Hwq] Hr Hn Hc Hrd. exec ipc_send. rewrite tcb_find_lock_run, Hr by done. cbn [obind].
  rewrite (proj2 (Z.eqb_neq r 0)) by done. exec.
  change (ready_to_receive (with_preempt Z.succ (with_preempt Z.succ (with_preempt Z.succ s))) r) with (ready_to_receive s r).
  rewrite Hrd. unfold ready_to_receive in Hrd. apply andb_true_iff in Hrd as [[_ Hw%bool_decide_eq_true]%andb_true_iff _].
  exec. change (wq (tcbs (with_preempt Z.succ (with_preempt Z.succ (with_preempt Z.succ s))) r)) with (wq (tcbs s r)).
  rewrite (Hwq r _ Hw). cbn [obind]. unfold task_unset_wqh. exec.
  f_equal. f_equal. autorewrite with frame. reflexivity.
Qed.

Lemma leave_field {A} (g : ktcb -> A) t h s u :
  (forall k x, g (k <| wq := x |>) = g k) -> (forall k x, g (k <| waiting_on := x |>) = g k) ->
  g (tcbs (wq_leave t h s) u) = g (tcbs s u).
Proof. intros H1 H2. cbn. rewrite (upd_same g) by (rewrite upd_eq; apply H1). by rewrite (upd_same g). Qed.

(** The parties of a transfer, seen after the sleeper left its queue. *)
Record same_party (s s' : kstate) (t : Z) : Prop := {
  sp_frame : frame_of s' t = frame_of s t;
  sp_type : ipc_type_of s' t = ipc_type_of s t;
  sp_expected : expected_sender (tcbs s' t) = expected_sender (tcbs s t);
  sp_tid : tid (tcbs s' t) = tid (tcbs s t) }.
Lemma leave_party t h s u : same_party s (with_preempt Z.succ (wq_leave t h s)) u /\ same_party s (wq_leave t h s) u.
Proof.
  split; split; unfold frame_of, ipc_type_of; change (tcbs (with_preempt Z.succ ?x)) with (tcbs x).
  all: first [apply (leave_field syscall_regs)|apply (leave_field tcb_get_ipc_type)|apply (leave_field expected_sender)
             |apply (leave_field tid)]; done.
Qed.
Lemma party_tag s s' to from : same_party s s' to -> same_party s s' from -> sender_tag s' to from = sender_tag s to from.
Proof. intros H1 H2. unfold sender_tag. by rewrite (sp_expected _ _ _ H1), (sp_tid _ _ _ H2). Qed.

Lemma ready_waiting s r : ready_to_receive s r = true ->
  waiting_on (tcbs s r) = Some (WQ_RECV r) /\ state (tcbs s r) = TASK_SLEEPING.
Proof.
  unfold ready_to_receive. intros [[H1%bool_decide_eq_true H2%bool_decide_eq_true]%andb_true_iff _]%andb_true_iff. done.
Qed.

(** The receiver resumed after a transfer that wrote [f] into its tcb. *)
Lemma resume_delivered r h copy dst src tag s :
  sched_inv s -> waiting_on (tcbs s r) = Some h ->
  sched_resume_async r (deliver copy dst src tag (with_preempt Z.succ (wq_leave r h s)))
  = Ret tt (with_preempt Z.succ (deliver copy dst src tag (woken 0 r h s))).
Proof.
  intros Hs Hw. destruct (sinv_left 0 r h s Hs Hw) as (H1 & H2 & _).
  rewrite sched_resume_async_run; [reflexivity| |exact H2].
  by apply (rq_inv_ext (wq_leave r h s)), H1.
Qed.

Lemma ipc_send_short r tid_ fl s :
  sched_inv s -> task_of s tid_ = r -> r <> 0 -> current s <> 0 -> ready_to_receive s r = true ->
  both_short (ipc_type_of s r) (ipc_type_of s (current s)) = true ->
  frame_of s r <> SYS_NULL -> frame_of s (current s) <> SYS_NULL ->
  ipc_send fuel req tid_ fl s
  = Ret 0 (deliver true (frame_of s r) (frame_of s (current s)) (sender_tag s r (current s)) (woken 0 r (WQ_RECV r) s)).
Proof.
  intros Hs Hr Hn Hc Hrd Hty Hf1 Hf2. rewrite (ipc_send_ready r) by (done || apply Hs).
  destruct (leave_party r (WQ_RECV r) s r) as [P1 _], (leave_party r (WQ_RECV r) s (current s)) as [P2 _].
  rewrite ipc_msg_copy_short; rewrite ?(sp_frame _ _ _ P1), ?(sp_frame _ _ _ P2), ?(sp_type _ _ _ P1), ?(sp_type _ _ _ P2);
    [|done..].
  rewrite (party_tag s) by done. cbn [obind]. change (0 <? 0) with false. cbv beta iota. exec.
  rewrite resume_delivered; [|done|by apply ready_waiting]. cbn [obind]. by rewrite preempt_pred_succ.
Qed.
End Ipc.

(** Delivery and the facts about a woken task. *)
Lemma deliver_steady copy dst src tag i s : steady i s -> steady i (deliver copy dst src tag s).
Proof. intros []. split; try done. by apply deliver_inv. Qed.
Lemma woken_steady fl t h i s : steady i s -> waiting_on (tcbs s t) = Some h -> steady i (woken fl t h s).
Proof.
  intros [H1 H2 H3 H4 H5] Hw. destruct (keeps_woken fl t h s) as (K1 & K2 & K3 & K4).
  split; [by apply sched_inv_woken|congruence|congruence|congruence|].
  destruct (waiting_facts s t h H1 Hw) as (Hsl & _). rewrite K1. unfold woken, resume, interrupt.
  destruct (flag_set fl _); cbn; rewrite !upd_ne by congruence; done.
Qed.

(** * Waiting for the other party *)

(** The current task queues up on [h] and falls asleep, [n] locks held. *)
Lemma prepare_sleep_locked h q f s :
  sched_inv s -> rq (tcbs s (current s)) = Some q ->
  sched_prepare_sleep (with_preempt f (wq_enter (current s) h s)) = Ret tt (with_preempt f (asleep_on h q s)).
Proof.
  intros Hs Hq. assert (rq_inv (wq_enter (current s) h s)) as Hrq.
  { repeat apply rq_inv_tcb; try done. by apply (rq_inv_ext s), Hs. }
  rewrite (sched_prepare_sleep_run _ q); [|by apply (rq_inv_ext (wq_enter (current s) h s))|].
  - change (current (with_preempt f (wq_enter (current s) h s))) with (current s).
    unfold asleep_on, fall_asleep, deq, unlink_rq, set_state. autorewrite with frame. reflexivity.
  - rewrite <- Hq. apply (wq_enter_rq (current s) h s (current s)).
Qed.

Definition three (z : Z) : Z := Z.succ (Z.succ (Z.succ z)).
Lemma preempt_three s : with_preempt Z.succ (with_preempt Z.succ (with_preempt Z.succ s)) = with_preempt three s.
Proof. reflexivity. Qed.
Definition two (z : Z) : Z := Z.succ (Z.succ z).
Lemma preempt_two s : with_preempt Z.succ (with_preempt Z.succ s) = with_preempt two s.
Proof. reflexivity. Qed.
Lemma preempt_down_three s : with_preempt Z.pred (with_preempt Z.pred (with_preempt Z.pred (with_preempt three s))) = s.
Proof. rewrite <- preempt_three. by rewrite !preempt_pred_succ. Qed.
Lemma preempt_down_two s : with_preempt Z.pred (with_preempt Z.pred (with_preempt two s)) = s.
Proof. rewrite <- preempt_two. by rewrite !preempt_pred_succ. Qed.

Lemma enter_order t h f s :
  with_tcb t (fun k => k <| wq := Some t |>) (with_tcb t (fun k => k <| waiting_on := Some h |>)
    (with_wqh h (fun w => w <| task_list ::= fun l => l ++ [t] |>) (with_wqh h (fun w => w <| sleepers ::= Z.succ |>)
      (with_preempt f s)))) = with_preempt f (wq_enter t h s).
Proof. reflexivity. Qed.

Section Blocking.
Context (fuel : nat) (req : Z -> Z -> Z -> K Z).

Lemma ipc_send_blocked r tid_ fl q s :
  sched_inv s -> rq (tcbs s (current s)) = Some q -> task_of s tid_ = r -> r <> 0 -> current s <> 0 ->
  ready_to_receive s r = false ->
  ipc_send fuel req tid_ fl s = obind (schedule (asleep_on (WQ_SEND r) q s)) (fun _ => ipc_handle_errors).
Proof.
  intros Hs Hq Hr Hn Hc Hrd. exec ipc_send. rewrite tcb_find_lock_run, Hr by done. cbn [obind].
  rewrite (proj2 (Z.eqb_neq r 0)) by done. exec.
  change (ready_to_receive (with_preempt Z.succ (with_preempt Z.succ (with_preempt Z.succ s))) r) with (ready_to_receive s r).
  rewrite Hrd. exec wq_enqueue task_set_wqh. autorewrite with frame.
  change (current (with_preempt Z.succ (with_preempt Z.succ (with_preempt Z.succ s)))) with (current s).
  match goal with |- obind (sched_prepare_sleep ?x) _ = _ =>
    replace x with (with_preempt three (wq_enter (current s) (WQ_SEND r) s))
      by (symmetry; etransitivity; [|apply enter_order]; autorewrite with frame; reflexivity) end.
  rewrite (prepare_sleep_locked _ q) by done. cbn [obind]. by rewrite preempt_down_three.
Qed.
End Blocking.

(** * Receiving *)

(** The state in which the current task has said whom it expects. *)
Definition expecting (id : Z) (s : kstate) : kstate :=
  with_tcb (current s) (fun t => t <| expected_sender := id |>) s.
Lemma expecting_inv id s : sched_inv s -> sched_inv (expecting id s).
Proof.
  intros Hs. apply sinv_tcb; try done; [by right|apply (si_ok _ _ Hs)|]. intros ->. apply (si_idle_flags _ _ Hs).
Qed.
Lemma expecting_steady id i s : steady i s -> steady i (expecting id s).
Proof. intros []. split; try done; [by apply expecting_inv|]. cbn. by rewrite upd_eq. Qed.
Lemma expecting_quiet id s : quiet s -> quiet (expecting id s).
Proof.
  intros [H1 H2 H3]. assert (flags (tcbs (expecting id s) (current s)) = flags (tcbs s (current s))) as E by (cbn; by rewrite upd_eq).
  split; change (current (expecting id s)) with (current s); by rewrite ?E.
Qed.
Lemma expecting_party id s t : t <> current s -> same_party s (expecting id s) t.
Proof. intros. split; unfold frame_of, ipc_type_of; cbn; by rewrite upd_ne. Qed.
Lemma expecting_current id s :
  frame_of (expecting id s) (current s) = frame_of s (current s)
  /\ ipc_type_of (expecting id s) (current s) = ipc_type_of s (current s)
  /\ expected_sender (tcbs (expecting id s) (current s)) = id.
Proof. unfold frame_of, ipc_type_of. cbn. by rewrite upd_eq. Qed.

(** The sender that a receive takes: the first in the queue that is expected. *)
Definition wanted (s : kstate) (from t : Z) : bool := (from =? tid (tcbs s t)) || (from =? L4_ANYTHREAD).
Definition first_wanted (s : kstate) (from : Z) : option Z :=
  snd <$> list_find (fun t => wanted s from t) (task_list (wqhs s (WQ_SEND (current s)))).
Lemma list_find_ext' {A} (P Q : A -> bool) (l : list A) :
  (forall x, P x = Q x) -> list_find (fun x => P x) l = list_find (fun x => Q x) l.
Proof. intros H. induction l as [|x l IH]; [done|]. cbn. rewrite <- IH. repeat case_decide; try done; congruence. Qed.
Lemma accepted_first s from f :
  accepted_sender (with_preempt f (expecting from s)) (current s) = first_wanted s from.
Proof.
  unfold accepted_sender, first_wanted. f_equal. apply list_find_ext'. intros t. unfold expects, wanted. cbn. rewrite upd_eq.
  by rewrite (upd_same tid).
Qed.
Lemma first_wanted_in s from t : first_wanted s from = Some t -> t ∈ task_list (wqhs s (WQ_SEND (current s))).
Proof.
  unfold first_wanted. rewrite fmap_Some. intros ([n x] & H & ->). apply list_find_Some in H as (H & _ & _).
  by apply list_elem_of_lookup_2 in H.
Qed.

Section Receiving.
Context (fuel : nat) (req : Z -> Z -> Z -> K Z).

Lemma ipc_recv_run from fl s :
  wq_inv s ->
  ipc_recv fuel req from fl s
  = match first_wanted s from with
    | Some t =>
        obind (ipc_msg_copy fuel req (current s) t (wq_leave t (WQ_SEND (current s)) (expecting from s)))
          (fun ret => when (ret <? 0) (ipc_signal_error t ret) ;; sched_resume_sync t ;; mret ret)
    | None =>
        obind (sched_prepare_sleep (with_preempt two (wq_enter (current s) (WQ_RECV (current s)) (expecting from s))))
          (fun _ => spin_unlock ;; spin_unlock ;; schedule ;; ipc_handle_errors)
    end.
Proof.
  intros [_ _ Hl _]. exec ipc_recv. fold (expecting from s).
  change (wqhs (with_preempt Z.succ (with_preempt Z.succ (expecting from s)))) with (wqhs s).
  rewrite Hl. set (l := task_list (wqhs s (WQ_SEND (current s)))) in *.
  match goal with |- obind ?o _ = _ => assert (o = Ret (first_wanted s from) (with_preempt two (expecting from s))) as -> end.
  { destruct l as [|x l'] eqn:El.
    - unfold first_wanted. fold l. rewrite El. reflexivity.
    - rewrite (proj2 (Z.ltb_lt 0 _)) by (cbn; lia).
      change (wqhs (with_preempt Z.succ (with_preempt Z.succ (expecting from s)))) with (wqhs s). fold l. rewrite El.
      rewrite bool_decide_false by done. cbn [obind]. rewrite <- (accepted_first s from two). reflexivity. }
  cbn [obind]. destruct (first_wanted s from) as [t|]; exec.
  - unfold task_unset_wqh. exec.
    match goal with |- obind (ipc_msg_copy _ _ _ _ ?x) _ = _ =>
      assert (x = wq_leave t (WQ_SEND (current s)) (expecting from s)) as ->; [|done] end.
    rewrite <- preempt_two. autorewrite with frame. reflexivity.
  - exec wq_enqueue task_set_wqh.
    match goal with |- obind (sched_prepare_sleep ?x) _ = obind (sched_prepare_sleep ?y) _ =>
      assert (x = y) as ->; [|done] end.
    etransitivity; [|apply enter_order]. rewrite <- preempt_two. autorewrite with frame. reflexivity.
Qed.
End Receiving.

Lemma steady_running i s : steady i s -> 0 < current s < 2 ^ 32.
Proof. intros [Hs _ _ _ Hst]. apply (si_ok _ _ Hs). left. congruence. Qed.
Lemma asleep_facts h q i s :
  steady i s -> rq (tcbs s (current s)) = Some q -> current s <> i -> quiet s ->
  schedule (asleep_on h q s) = Switch (schedule_spec (asleep_on h q s)) (fun s' => Ret tt s')
  /\ steady i (schedule_spec (asleep_on h q s))
  /\ task_list (wqhs (schedule_spec (asleep_on h q s)) h) = task_list (wqhs s h) ++ [current s]
  /\ state (tcbs (schedule_spec (asleep_on h q s)) (current s)) = TASK_SLEEPING.
Proof.
  intros [Hs Hv Hn Hid Hst] Hrq Hi Hq. subst i.
  pose proof (asleep_inv h s q Hs Hrq Hi) as Ha. fold (asleep_on h q s) in Ha.
  pose proof (asleep_quiet h q s Hq) as Hqa. pose proof (schedule_steady _ Ha Hv Hn) as Hst'.
  split_and!; [apply schedule_run; (done || (split; [done|by left]))|exact Hst'| |].
  - rewrite schedule_wqhs by done. unfold asleep_on, fall_asleep. cbn. by rewrite !upd_eq.
  - rewrite (schedule_field state) by done. unfold asleep_on, fall_asleep. cbn. by rewrite !upd_eq.
Qed.

(** The message registers of [dst] hold those [src] had, the second of them the
    sender's id if one is given; every other register and frame is as it was. *)
Definition delivered (dst src : sysref) (tag : option Z) (s s' : kstate) : Prop :=
  (forall x, sysctx s' dst x =
     match tag with
     | Some id => if decide (x = R4) then id else if bool_decide (x ∈ mr_regs) then sysctx s src x else sysctx s dst x
     | None => if bool_decide (x ∈ mr_regs) then sysctx s src x else sysctx s dst x
     end)
  /\ (forall r x, r <> dst -> sysctx s' r x = sysctx s r x).
Lemma deliver_delivered dst src tag s s1 : sysctx s1 = sysctx s -> delivered dst src tag s (deliver true dst src tag s1).
Proof. intros E. split; intros; rewrite deliver_read, E; [by rewrite decide_True|by rewrite decide_False]. Qed.


Lemma demo_on_steady h : steady 64 (demo_on h).
Proof. split; [apply demo_on_inv|done..]. Qed.
Lemma demo_on_quiet h : quiet (demo_on h).
Proof. by split. Qed.

Lemma schedule_sysctx s : quiet s -> sysctx (schedule_spec s) = sysctx s.
Proof. intros Hq. pose proof (schedule_store s Hq) as E. unfold store in E. congruence. Qed.
Lemma deliver_quiet copy dst src tag s : quiet s -> quiet (deliver copy dst src tag s).
Proof. by intros []. Qed.

Section Meeting.
Context (fuel : nat) (req : Z -> Z -> Z -> K Z) (from fl i : Z) (s : kstate) (t : Z).
Context (Hs : steady i s) (Hq : quiet s) (Hw : first_wanted s from = Some t).
Context (Hty : both_short (ipc_type_of s (current s)) (ipc_type_of s t) = true).
Context (Hf1 : frame_of s (current s) <> SYS_NULL) (Hf2 : frame_of s t <> SYS_NULL).
#[local] Abbreviation cur := (current s).
#[local] Abbreviation h := (WQ_SEND (current s)).
#[local] Abbreviation tag := (if from =? L4_ANYTHREAD then Some (tid (tcbs s t)) else None).
(** The state in which the sender is about to leave the queue, the message delivered. *)
#[local] Abbreviation s0 := (deliver true (frame_of s cur) (frame_of s t) tag (expecting from s)).

Lemma meeting_sender : waiting_on (tcbs s t) = Some h /\ t <> cur.
Proof.
  pose proof Hs as [Hinv _ _ _ Hst]. assert (waiting_on (tcbs s t) = Some h) as Hwo.
  { apply (si_wq _ _ Hinv). by apply first_wanted_in with (from := from). }
  split; [done|]. intros ->. destruct (waiting_facts _ _ _ Hinv Hwo). congruence.
Qed.
Lemma meeting_copy :
  ipc_msg_copy fuel req cur t (wq_leave t h (expecting from s)) = Ret 0 (wq_leave t h s0).
Proof.
  destruct meeting_sender as [_ Hne]. destruct (expecting_current from s) as (E1 & E2 & E3).
  pose proof (expecting_party from s t Hne) as P. destruct (leave_party t h (expecting from s) cur) as [_ P1],
    (leave_party t h (expecting from s) t) as [_ P2].
  rewrite ipc_msg_copy_short; rewrite ?(sp_frame _ _ _ P1), ?(sp_frame _ _ _ P2), ?(sp_type _ _ _ P1), ?(sp_type _ _ _ P2),
    ?(sp_frame _ _ _ P), ?(sp_type _ _ _ P), ?E1, ?E2; [|done..].
  rewrite (party_tag (expecting from s)) by done. unfold sender_tag. by rewrite E3, (sp_tid _ _ _ P).
Qed.
Lemma meeting_steady : steady i s0 /\ quiet s0 /\ waiting_on (tcbs s0 t) = Some h.
Proof.
  destruct meeting_sender as [Hwo Hne]. split_and!.
  - by apply deliver_steady, expecting_steady.
  - by apply deliver_quiet, expecting_quiet.
  - change (tcbs s0) with (tcbs (expecting from s)). cbn. by rewrite upd_ne.
Qed.
Lemma meeting_run :
  ipc_recv fuel req from fl s = Switch (schedule_spec (woken 0 t h s0)) (fun s2 => Ret 0 s2).
Proof.
  destruct meeting_steady as (Hs0 & Hq0 & Hw0). pose proof Hs0 as [Hinv0 Hv Hn Hid Hst].
  rewrite ipc_recv_run by apply Hs. rewrite Hw. rewrite meeting_copy. cbn [obind]. change (0 <? 0) with false. cbv beta iota. exec.
  rewrite resume_sync_run by done. destruct (keeps_woken 0 t h s0) as (_ & K2 & K3 & K4).
  rewrite schedule_run; [reflexivity|by apply sched_inv_woken|]. split; [congruence|left; congruence].
Qed.
Lemma meeting_after : let s1 := schedule_spec (woken 0 t h s0) in
  steady i s1 /\ current s1 = t /\ task_list (wqhs s1 h) = list_del t (task_list (wqhs s h))
  /\ delivered (frame_of s cur) (frame_of s t) tag s s1.
Proof.
  intros s1. destruct meeting_steady as (Hs0 & Hq0 & Hw0). pose proof Hs0 as [Hinv0 Hv Hn Hid Hst].
  destruct (woken_runs_next 0 t h s0 Hinv0 Hw0) as [Hc Hqw]; [split; [done|by left]|done|done|].
  destruct (woken_facts 0 t h s0 Hinv0 Hw0) as (G1 & _ & _ & _ & _ & _ & G6 & _).
  destruct (keeps_woken 0 t h s0) as (_ & K2 & K3 & K4).
  split_and!.
  - pose proof (schedule_steady _ G1 ltac:(congruence) ltac:(congruence)) as Hst'. by rewrite K2, Hid in Hst'.
  - exact Hc.
  - unfold s1. rewrite schedule_wqhs, G6, decide_True by done. reflexivity.
  - assert (sysctx s1 = sysctx s0) as E by (unfold s1; rewrite schedule_sysctx; done).
    destruct (deliver_delivered (frame_of s cur) (frame_of s t) tag s (expecting from s) eq_refl) as [D1 D2].
    split; intros; rewrite E; auto.
Qed.
End Meeting.

(** C5: called with no signal pending, for a short transfer and towards a sender
    that asks for one too, [ipc_recv] takes the message of the longest waiting
    sender it accepts, leaving the others queued; the sender is woken and runs at once, and the
    receiver returns 0 when it runs again.  With no such sender the receiver
    sleeps on its receive queue, having recorded whom it expects. *)
Theorem ipc_recv_rendezvous (fuel : nat) (req : Z -> Z -> Z -> K Z) (from fl i : Z) (s : kstate)
    (Hs : steady i s) (Hi : current s <> i) (Hq : quiet s) (Hf : frame_of s (current s) <> SYS_NULL)
    (Hok : forall t, first_wanted s from = Some t ->
       both_short (ipc_type_of s (current s)) (ipc_type_of s t) = true /\ frame_of s t <> SYS_NULL) :
  match first_wanted s from with
  | Some t => exists s1, ipc_recv fuel req from fl s = Switch s1 (fun s2 => Ret 0 s2) /\ steady i s1 /\ current s1 = t
      /\ task_list (wqhs s1 (WQ_SEND (current s))) = list_del t (task_list (wqhs s (WQ_SEND (current s))))
      /\ delivered (frame_of s (current s)) (frame_of s t) (if from =? L4_ANYTHREAD then Some (tid (tcbs s t)) else None) s s1
  | None => exists s1, ipc_recv fuel req from fl s = Switch s1 ipc_handle_errors /\ steady i s1
      /\ task_list (wqhs s1 (WQ_RECV (current s))) = task_list (wqhs s (WQ_RECV (current s))) ++ [current s]
      /\ state (tcbs s1 (current s)) = TASK_SLEEPING /\ expected_sender (tcbs s1 (current s)) = from
  end.
Proof.
  destruct (first_wanted s from) as [t|] eqn:Ew.
  - destruct (Hok t eq_refl) as [Hty Hft]. eexists. split; [by apply (meeting_run fuel req from fl i s t)|].
    by apply (meeting_after from i s t).
  - pose proof (expecting_steady from i s Hs) as Hs0. pose proof Hs0 as [Hinv _ _ _ Hst].
    destruct (running_queue _ Hinv Hst) as [q Hrq]. change (current (expecting from s)) with (current s) in Hrq.
    destruct (asleep_facts (WQ_RECV (current s)) q i (expecting from s) Hs0 Hrq Hi (expecting_quiet _ _ Hq)) as (H1 & H2 & H3 & H4).
    exists (schedule_spec (asleep_on (WQ_RECV (current s)) q (expecting from s))). split_and!; [|done|done|done|].
    + rewrite ipc_recv_run, Ew by apply Hs.
      change (wq_enter (current s)) with (wq_enter (current (expecting from s))).
      rewrite (prepare_sleep_locked _ q) by done. cbn [obind]. exec. rewrite preempt_down_two. by rewrite H1.
    + rewrite (schedule_field expected_sender) by (try done; by apply asleep_quiet, expecting_quiet).
      unfold asleep_on, fall_asleep, expecting. cbn. by rewrite !upd_eq.
Qed.
Lemma ipc_recv_rendezvous_witness :
  exists s1, ipc_recv 0 (fun _ _ _ => mret 0) L4_ANYTHREAD 0 demo = Switch s1 (fun s2 => Ret 0 s2) /\ steady 64 s1 /\ current s1 = 48
    /\ task_list (wqhs s1 (WQ_SEND 16)) = [] /\ delivered (SYS_FRAME 16) (SYS_FRAME 48) (Some 3) demo s1.
Proof.
  assert (first_wanted demo L4_ANYTHREAD = Some 48) as E by (by vm_compute).
  assert (forall t, first_wanted demo L4_ANYTHREAD = Some t ->
    both_short (ipc_type_of demo (current demo)) (ipc_type_of demo t) = true /\ frame_of demo t <> SYS_NULL) as Hok.
  { intros t Ht. rewrite E in Ht. injection Ht as <-. by vm_compute. }
  pose proof (ipc_recv_rendezvous 0 (fun _ _ _ => mret 0) L4_ANYTHREAD 0 64 demo (demo_on_steady _) ltac:(by vm_compute)
    demo_quiet ltac:(by vm_compute) Hok) as H.
  rewrite E in H. exact H.
Defined.

(** * Failures *)

(** The receiver [r] of a failed transfer, told of the error and resumed. *)
Definition told (r bit : Z) : kstate -> kstate := with_tcb r (fun k => k <| ipc_flags ::= fun f => Z.lor f bit |>).

Section Told.
Context (r : Z) (h : wqh_ref) (bit : Z) (dst src : sysref) (tag : option Z) (i : Z) (s : kstate).
Context (Hs : steady i s) (Hw : waiting_on (tcbs s r) = Some h).
#[local] Abbreviation s1 := (told r bit (deliver false dst src tag (wq_leave r h s))).

Lemma told_left : sinv (Some r) s1 /\ rq (tcbs s1 r) = None /\ waiting_on (tcbs s1 r) = None /\ task_ok r (tcbs s1 r) /\ r <> idle s.
Proof.
  destruct (sinv_left 0 r h s (st_inv _ _ Hs) Hw) as (H1 & H2 & H3 & H4 & _).
  change (interrupt 0 r (wq_leave r h s)) with (wq_leave r h s) in *.
  destruct (waiting_facts s r h (st_inv _ _ Hs) Hw) as (_ & _ & Hne & _).
  assert (tcbs s1 r = tcbs (wq_leave r h s) r <| ipc_flags ::= fun f => Z.lor f bit |>) as E by (unfold told; cbn; by rewrite !upd_eq).
  rewrite E. split_and!; try done.
  apply sinv_tcb; try done; [by apply (sinv_ext _ (wq_leave r h s))|by left].
Qed.
Lemma told_steady : steady i (resume r s1).
Proof.
  destruct told_left as (H1 & H2 & H3 & H4 & H5). pose proof Hs as [Hinv Hv Hn Hid Hst].
  destruct (waiting_facts s r h Hinv Hw) as (Hsl & _).
  split; [|done|done|done|].
  - apply sinv_resume; try done.
  - unfold resume, enq, set_state, told. cbn. rewrite !upd_ne by congruence. done.
Qed.
Lemma told_tcb : state (tcbs (resume r s1) r) = TASK_RUNNABLE
  /\ ipc_flags (tcbs (resume r s1) r) = Z.lor (ipc_flags (tcbs s r)) bit /\ flags (tcbs (resume r s1) r) = flags (tcbs s r).
Proof. unfold resume, enq, set_state, told. cbn. by rewrite !upd_eq. Qed.
Lemma told_run_queue : run_queue (resume r s1) = r :: run_queue s.
Proof.
  unfold resume. unfold run_queue at 1. rewrite enq_list. by rewrite decide_True.
Qed.
End Told.

Lemma ipc_send_incompatible fuel req r tid_ fl i s :
  steady i s -> task_of s tid_ = r -> r <> 0 -> ready_to_receive s r = true ->
  incompatible (ipc_type_of s r) (ipc_type_of s (current s)) = true -> frame_of s r <> SYS_NULL ->
  ipc_send fuel req tid_ fl s
  = Ret (- ENOIPC) (resume r (told r IPC_ENOIPC
      (deliver false (frame_of s r) (frame_of s (current s)) (sender_tag s r (current s)) (wq_leave r (WQ_RECV r) s)))).
Proof.
  intros Hs Hr Hn Hrd Hty Hf. pose proof (steady_running i s Hs) as Hcur. destruct (ready_waiting s r Hrd) as [Hw _].
  rewrite (ipc_send_ready fuel req r) by (done || lia || apply Hs).
  destruct (leave_party r (WQ_RECV r) s r) as [P1 _], (leave_party r (WQ_RECV r) s (current s)) as [P2 _].
  rewrite ipc_msg_copy_incompatible; rewrite ?(sp_frame _ _ _ P1), ?(sp_frame _ _ _ P2), ?(sp_type _ _ _ P1), ?(sp_type _ _ _ P2);
    [|done..].
  rewrite (party_tag s) by done. cbn [obind]. change (- ENOIPC <? 0) with true. cbv beta iota.
  exec ipc_signal_error. change (negb (- ENOIPC =? - EFAULT) && negb (- ENOIPC =? - ENOIPC)) with false. cbn [obind].
  change (- ENOIPC =? - EFAULT) with false. change (- ENOIPC =? - ENOIPC) with true. cbn [obind].
  destruct (told_left r (WQ_RECV r) IPC_ENOIPC (frame_of s r) (frame_of s (current s)) (sender_tag s r (current s)) i s Hs Hw)
    as (H1 & H2 & _).
  fold (told r IPC_ENOIPC). rewrite sched_resume_async_run; [| |exact H2].
  - cbn [obind]. f_equal. rewrite deliver_preempt. unfold told at 1. rewrite <- preempt_tcb. fold (told r IPC_ENOIPC).
    unfold resume, enq, set_state. autorewrite with frame. reflexivity.
  - by apply (rq_inv_ext (told r IPC_ENOIPC
      (deliver false (frame_of s r) (frame_of s (current s)) (sender_tag s r (current s)) (wq_leave r (WQ_RECV r) s)))), H1.
Qed.

(** A task that runs again with no interrupt and no fault, but this error flagged. *)
Lemma handle_enoipc s fl :
  flag_set (flags (tcbs s (current s))) TASK_INTERRUPTED = false ->
  flag_set fl IPC_EFAULT = false -> flag_set fl IPC_ENOIPC = false -> is_u32 fl ->
  ipc_flags (tcbs s (current s)) = Z.lor fl IPC_ENOIPC ->
  exists s', ipc_handle_errors s = Ret (- ENOIPC) s' /\ ipc_flags (tcbs s' (current s)) = fl.
Proof.
  intros H1 H2 H3 H4 E. exec ipc_handle_errors. rewrite H1, E, !flag_set_lor, H2.
  change (flag_set IPC_ENOIPC IPC_EFAULT) with false. change (flag_set IPC_ENOIPC IPC_ENOIPC) with true.
  rewrite orb_true_r. cbn [orb]. exec. eexists. split; [reflexivity|].
  cbn. rewrite upd_eq. cbn. rewrite E. apply Z.bits_inj'. intros m Hm.
  rewrite Z.land_spec, Z.lor_spec, testbit_lnot32 by done. unfold IPC_ENOIPC. rewrite testbit_pow2 by done.
  case_bool_decide as Em.
  - subst m. unfold IPC_ENOIPC in H3. rewrite flag_set_bit in H3 by done. by rewrite H3.
  - rewrite orb_false_r. destruct (Z.ltb_spec m 32); cbn [xorb]; [by rewrite andb_true_r|].
    rewrite andb_false_r. symmetry. destruct H4. rewrite <- (Z.mod_small fl (2 ^ 32)) by done. apply Z.mod_pow2_bits_high. lia.
Qed.

(** C32: an extended party and a party that is not cannot communicate, and both
    learn of it.  The send returns [-ENOIPC], the receiver is woken, no message
    register moves except the sender's id, and the receiver's own call returns
    [-ENOIPC] when it runs again, its flags as before the call. *)
Theorem incompatible_ipc_fails_for_both (fuel : nat) (req : Z -> Z -> Z -> K Z) (to fl i : Z) (s : kstate)
    (Hs : steady i s) (Hn : task_of s to <> 0) (Hrd : ready_to_receive s (task_of s to) = true)
    (Hty : incompatible (ipc_type_of s (task_of s to)) (ipc_type_of s (current s)) = true)
    (Hf : frame_of s (task_of s to) <> SYS_NULL)
    (Hfl : is_u32 (ipc_flags (tcbs s (task_of s to)))
           /\ flag_set (ipc_flags (tcbs s (task_of s to))) IPC_EFAULT = false
           /\ flag_set (ipc_flags (tcbs s (task_of s to))) IPC_ENOIPC = false) :
  let r := task_of s to in
  exists s', ipc_send fuel req to fl s = Ret (- ENOIPC) s' /\ steady i s' /\ run_queue s' = r :: run_queue s
    /\ (forall x, x <> R4 -> sysctx s' (frame_of s r) x = sysctx s (frame_of s r) x)
    /\ forall s2, current s2 = r -> ipc_flags (tcbs s2 r) = ipc_flags (tcbs s' r) ->
         flag_set (flags (tcbs s2 r)) TASK_INTERRUPTED = false ->
         exists s3, ipc_handle_errors s2 = Ret (- ENOIPC) s3 /\ ipc_flags (tcbs s3 r) = ipc_flags (tcbs s r).
Proof.
  intros r. destruct (ready_waiting s r Hrd) as [Hw _].
  eexists. split; [by apply (ipc_send_incompatible fuel req r to fl i s)|].
  destruct (told_tcb r (WQ_RECV r) IPC_ENOIPC (frame_of s r) (frame_of s (current s)) (sender_tag s r (current s)) s) as (_ & H2 & _).
  split_and!; [by apply told_steady|apply told_run_queue| |].
  - intros x Hx. change (sysctx (resume r (told r IPC_ENOIPC ?y))) with (sysctx y). rewrite deliver_read, decide_True by done.
    cbn [andb]. destruct (sender_tag s r (current s)); [by rewrite decide_False|done].
  - intros s2 Hc E Hi. rewrite H2 in E. subst r. rewrite <- Hc in E, Hi.
    destruct (handle_enoipc s2 (ipc_flags (tcbs s (current s2))) Hi) as (s3 & E3 & F3); try (rewrite Hc; apply Hfl).
    + rewrite E. by rewrite Hc.
    + exists s3. rewrite <- Hc. by split.
Qed.
Definition demo_typed (receiver_type sender_type : Z) : kstate :=
  with_tcb 48 (fun k => k <| ipc_flags := receiver_type |>)
    (with_tcb 16 (fun k => k <| ipc_flags := sender_type |>) (demo_on (WQ_RECV 48))).
Lemma demo_typed_steady rt st : steady 64 (demo_typed rt st).
Proof.
  assert (forall t x s, t <> idle s -> steady 64 s -> steady 64 (with_tcb t (fun k => k <| ipc_flags := x |>) s)) as H.
  { intros t x s Ht [Hinv ? ? ? ?]. split; try done; [|by cbn; rewrite (upd_same state)].
    apply sinv_tcb; try done; [by right|apply (si_ok _ _ Hinv)]. }
  by apply H, H, demo_on_steady.
Qed.
Lemma incompatible_ipc_fails_for_both_witness :
  let s := demo_typed IPC_FLAGS_SHORT IPC_FLAGS_EXTENDED in
  exists s', ipc_send 0 (fun _ _ _ => mret 0) 3 0 s = Ret (- ENOIPC) s' /\ steady 64 s' /\ run_queue s' = [48; 16; 32]
    /\ (forall x, x <> R4 -> sysctx s' (SYS_FRAME 48) x = sysctx s (SYS_FRAME 48) x)
    /\ forall s2, current s2 = 48 -> ipc_flags (tcbs s2 48) = ipc_flags (tcbs s' 48) ->
         flag_set (flags (tcbs s2 48)) TASK_INTERRUPTED = false ->
         exists s3, ipc_handle_errors s2 = Ret (- ENOIPC) s3 /\ ipc_flags (tcbs s3 48) = ipc_flags (tcbs s 48).
Proof.
  intros s. assert (task_of s 3 = 48) as E1 by (by vm_compute).
  assert (ready_to_receive s (task_of s 3) = true) as E2 by (by vm_compute).
  assert (incompatible (ipc_type_of s (task_of s 3)) (ipc_type_of s (current s)) = true) as E3 by (by vm_compute).
  pose proof (incompatible_ipc_fails_for_both 0 (fun _ _ _ => mret 0) 3 0 64 s (demo_typed_steady _ _)) as H.
  cbv zeta in H. rewrite E1 in H, E2, E3. apply H; [done|done|done|by vm_compute|by vm_compute].
Defined.

Section Full.
Context (fuel : nat) (req : Z -> Z -> Z -> K Z).
(** One party sends or receives a full message, the other a short or full one. *)
Definition one_full (recv_type send_type : Z) : bool :=
  ((recv_type =? IPC_FLAGS_FULL) && ((send_type =? IPC_FLAGS_SHORT) || (send_type =? IPC_FLAGS_FULL)))
  || ((recv_type =? IPC_FLAGS_SHORT) && (send_type =? IPC_FLAGS_FULL)).

Lemma ipc_copy_full to from rt st s : one_full rt st = true ->
  ipc_copy_by_type fuel req to from rt st s = ipc_full_copy fuel req to from s.
Proof.
  unfold one_full. rewrite orb_true_iff, !andb_true_iff, !orb_true_iff, !Z.eqb_eq.
  intros [[-> [-> | ->]] | [-> ->]]; reflexivity.
Qed.
Lemma ipc_full_copy_no_utcb to from s :
  frame_of s to <> SYS_NULL -> frame_of s from <> SYS_NULL -> utcb_address (tcbs s to) = 0 ->
  ipc_full_copy fuel req to from s = Ret (- ENOUTCB) (deliver true (frame_of s to) (frame_of s from) None s).
Proof.
  intros H1 H2 Hu. exec ipc_full_copy ipc_short_copy. rewrite KTCB_REF_MR0_run by done. cbn [obind].
  rewrite KTCB_REF_MR0_run by done. cbn [obind]. change (0 <? 0) with false. cbv beta iota.
  exec tcb_check_and_lazy_map_utcb. change (tcbs (set_field (proj := sysctx) ?f s)) with (tcbs s). rewrite Hu. reflexivity.
Qed.
Lemma ipc_msg_copy_no_utcb to from s :
  one_full (ipc_type_of s to) (ipc_type_of s from) = true ->
  frame_of s to <> SYS_NULL -> frame_of s from <> SYS_NULL -> utcb_address (tcbs s to) = 0 ->
  exists s', ipc_msg_copy fuel req to from s = Ret (- ENOUTCB) s'.
Proof.
  intros E H1 H2 Hu. unfold ipc_msg_copy. exec. fold (ipc_type_of s to) (ipc_type_of s from).
  rewrite ipc_copy_full, ipc_full_copy_no_utcb by done. cbn [obind]. eexists. by apply ipc_tag_run.
Qed.
End Full.

(** a full message to a thread that has registered no utcb halts the
    kernel: the copy fails with [-ENOUTCB], for which [ipc_signal_error] has a
    [BUG_ON]. *)
Theorem full_ipc_without_utcb_halts (fuel : nat) (req : Z -> Z -> Z -> K Z) (to fl i : Z) (s : kstate)
    (Hs : steady i s) (Hn : task_of s to <> 0) (Hrd : ready_to_receive s (task_of s to) = true)
    (Hty : one_full (ipc_type_of s (task_of s to)) (ipc_type_of s (current s)) = true)
    (Hf : frame_of s (task_of s to) <> SYS_NULL /\ frame_of s (current s) <> SYS_NULL)
    (Hu : utcb_address (tcbs s (task_of s to)) = 0) :
  ipc_send fuel req to fl s = Bug "ipc_signal_error".
Proof.
  pose proof (steady_running i s Hs) as Hcur. set (r := task_of s to) in *.
  rewrite (ipc_send_ready fuel req r) by (done || lia || apply Hs).
  destruct (leave_party r (WQ_RECV r) s r) as [P1 _], (leave_party r (WQ_RECV r) s (current s)) as [P2 _].
  destruct (ipc_msg_copy_no_utcb fuel req r (current s) (with_preempt Z.succ (wq_leave r (WQ_RECV r) s))) as [s' ->];
    rewrite ?(sp_frame _ _ _ P1), ?(sp_frame _ _ _ P2), ?(sp_type _ _ _ P1), ?(sp_type _ _ _ P2); try by destruct Hf.
  change (tcbs (with_preempt Z.succ ?x)) with (tcbs x). by rewrite (leave_field utcb_address).
Qed.
Lemma full_ipc_without_utcb_halts_witness :
  ipc_send 0 (fun _ _ _ => mret 0) 3 0 (demo_typed IPC_FLAGS_SHORT IPC_FLAGS_FULL) = Bug "ipc_signal_error".
Proof.
  assert (task_of (demo_typed IPC_FLAGS_SHORT IPC_FLAGS_FULL) 3 = 48) as E by (by vm_compute).
  apply (full_ipc_without_utcb_halts 0 (fun _ _ _ => mret 0) 3 0 64); rewrite ?E; [apply demo_typed_steady|done|by vm_compute..].
Defined.
