(* ===== verification/Thread.v ===== *)
(** Thread control: [src/api/thread.c].

    [ids] points to a [struct task_ids] in user memory; the creation functions
    read and update it there. *)
From S2P Require Import Prelude Defs Kernel Sched Alloc Caps Mapping Space Tcb.

Definition ids_mod (ids : Z) (f : task_ids -> task_ids) : K unit :=
  modify (fun s => s <| u_ids ::= fun m => <[ids := f (m ids)]> m |>).
Definition ids_get {A} (ids : Z) (f : task_ids -> A) : K A := gets (fun s => f (u_ids s ids)).

Definition sys_thread_switch : K Z := schedule ;; mret 0.

(** The node behind [x] in a circular list: [Some None] is the head.  A node
    that has left the list has no successor in it. *)
Fixpoint succ_in (x : Z) (l : list Z) : option (option Z) :=
  match l with
  | [] => None
  | y :: l => if x =? y then Some (head l) else succ_in x l
  end.

Definition task_is_child (s : kstate) (task : Z) : bool :=
  negb (bool_decide (task = current s)) && bool_decide (pager (tcbs s task) = current s).

(** [space_is_pager] of [tcb.h]. *)
Definition space_is_pager (s : kstate) (t : Z) : bool :=
  spid (spaces s (space (tcbs s t))) =? spid (spaces s (space (tcbs s (pager (tcbs s t))))).

Definition context_set (task : Z) (x : reg) (v : Z) : K unit :=
  tmod task (fun t => t <| context ::= fun c => <[x := v]> c |>).

(** The registers copied from the system call context by
    [arch_setup_new_thread], each with the register it comes from. *)
Definition copied_regs : list (reg * reg) :=
  ((fun r => (r, r)) <$> [R0; R1; R2; R3; R4; R5; R6; R7; R8; R9; R10; R11; R12; SP]) ++ [(PC, LR)].

Definition arch_setup_new_thread (new orig flags_ : Z) : K Z :=
  if flag_set flags_ TC_NEW_SPACE then
    bug_on (negb (orig =? 0)) "arch_setup_new_thread" ;;
    context_set new SPSR ARM_MODE_USR ;;
    mret 0
  else
    bug_on (orig =? 0) "arch_setup_new_thread" ;;
    r ← tget orig syscall_regs;
    if bool_decide (r = SYS_NULL) then mret 0
    else
      psr ← gets (fun s => sysctx s r SPSR);
      context_set new SPSR psr ;;
      bug_on (psr =? 0) "arch_setup_new_thread" ;;
      foreach copied_regs (fun p =>
        v ← gets (fun s => sysctx s r (snd p)); context_set new (fst p) v) ;;
      left_ ← tget orig ticks_left;
      tmod new (fun t => t <| ticks_left := Z.shiftr (u32 (left_ + 1)) 1 |>) ;;
      tmod orig (fun t => t <| ticks_left ::= fun n => Z.shiftr n 1 |>) ;;
      left_ ← tget orig ticks_left;
      when (left_ =? 0) (tmod orig (fun t => t <| ticks_left := 1 |>)) ;;
      mret 0.

Definition thread_setup_affinity (task : Z) : K unit :=
  spin_lock ;;
  a ← gets cpu_rr_affinity;
  tmod task (fun t => t <| affinity := a |>) ;;
  modify (fun s => s <| cpu_rr_affinity ::= fun a => u32 (a + 1) |>) ;;
  a ← gets cpu_rr_affinity;
  when (CONFIG_NCPU <=? a) (modify (fun s => s <| cpu_rr_affinity := 0 |>)) ;;
  spin_unlock.

Definition thread_setup_new_ids (ids flags_ new orig : Z) : K unit :=
  (if flag_set flags_ TC_SHARE_GROUP then
     g ← tget orig tgid; tmod new (fun t => t <| tgid := g |>)
   else i ← tget new tid; tmod new (fun t => t <| tgid := i |>)) ;;
  i ← tget new tid;
  ids_mod ids (fun d => d <| ids_tid := i |>) ;;
  g ← tget new tgid;
  ids_mod ids (fun d => d <| ids_tgid := g |>).

Section Thread.
Context (fuel : nat).

(** * Signals, suspension and destruction *)

Definition thread_signal (task flags_ : Z) (task_state : task_state) : K Z :=
  st ← tget task state;
  if bool_decide (st = task_state) then mret 0
  else
    tmod task (set_flag flags_) ;;
    _ ← wake_up_task sched_resume_sync task (Z.lor WAKEUP_INTERRUPT WAKEUP_SYNC);
    WAIT_EVENT fuel (WQ_PAGER task) (gets (fun s => bool_decide (state (tcbs s task) = task_state))).

Definition thread_suspend (task : Z) : K Z := thread_signal task TASK_SUSPENDING TASK_INACTIVE.
Definition thread_exit (task : Z) : K Z := thread_signal task TASK_SUSPENDING TASK_INACTIVE.

(** [wake_up_all(wqh, flags)] from process context. *)
Definition wake_all (wqh : wqh_ref) (flags_ : Z) : K unit := wake_up_all sched_resume_sync fuel wqh flags_.

Definition thread_destroy_child (task : Z) : K Z :=
  _ ← thread_exit task;
  cur_mod (set_flag TASK_EXITED) ;;
  tcb_remove task ;;
  wake_all (WQ_SEND task) WAKEUP_INTERRUPT ;;
  wake_all (WQ_RECV task) WAKEUP_INTERRUPT ;;
  BUG_ON (fun s => 0 <? sleepers (wqhs s (WQ_PAGER task))) "thread_destroy_child" ;;
  BUG_ON (fun s => negb (bool_decide (state (tcbs s task) = TASK_INACTIVE))) "thread_destroy_child" ;;
  ktcb_list_add task ;;
  mret 0.

(** The traversal holds the next task while one is destroyed: if that next task
    leaves the list meanwhile, the traversal goes astray. *)
Fixpoint destroy_children_from (n : nat) (task : option Z) : K unit :=
  match task, n with
  | None, _ => mret tt
  | Some _, O => out_of_fuel
  | Some task, S n =>
      c ← curcont;
      next ← gets (fun s => succ_in task (ktcb_list (conts s c)));
      child ← gets (fun s => task_is_child s task);
      when child (spin_unlock ;; _ ← thread_destroy_child task; spin_lock) ;;
      match next with
      | None => bug "thread_destroy_children: next task unlinked"
      | Some t => destroy_children_from n t
      end
  end.
Definition thread_destroy_children : K Z :=
  spin_lock ;;
  c ← curcont;
  first ← gets (fun s => head (ktcb_list (conts s c)));
  destroy_children_from fuel first ;;
  spin_unlock ;;
  cur ← gets current;
  WAIT_EVENT fuel (WQ_PAGER cur) (gets (fun s => nchild (tcbs s (current s)) =? 0)).

Definition thread_destroy_self (exit_code_ : Z) : K unit :=
  cur ← gets current;
  self_paged ← gets (fun s => thread_is_pager s cur);
  when self_paged
    (r ← thread_destroy_children;
     bug_on (r <? 0) "thread_destroy_self" ;;
     tcb_remove cur ;;
     wake_all (WQ_SEND cur) WAKEUP_INTERRUPT ;;
     wake_all (WQ_RECV cur) WAKEUP_INTERRUPT ;;
     c ← curcont;
     sp ← tget cur space;
     cap_list_move (CL_PAGER c 0) (CL_SPACE sp) ;;
     ktcb_list_add cur) ;;
  tmod cur (fun t => t <| exit_code := exit_code_ |>) ;;
  tmod cur (set_flag TASK_EXITED) ;;
  sched_suspend_sync.

Definition thread_wait (task : Z) : K Z :=
  ret ← WAIT_EVENT fuel (WQ_PAGER task)
          (gets (fun s => bool_decide (state (tcbs s task) = TASK_INACTIVE)));
  if ret <? 0 then mret ret
  else
    tcb_remove task ;;
    wake_all (WQ_SEND task) WAKEUP_INTERRUPT ;;
    wake_all (WQ_RECV task) WAKEUP_INTERRUPT ;;
    BUG_ON (fun s => 0 <? sleepers (wqhs s (WQ_PAGER task))) "thread_wait" ;;
    BUG_ON (fun s => negb (bool_decide (state (tcbs s task) = TASK_INACTIVE))) "thread_wait" ;;
    code ← tget task exit_code;
    ktcb_list_add task ;;
    mret (s32 code).

Definition thread_destroy (task exit_code_ : Z) : K Z :=
  let exit_code_ := Z.land exit_code_ THREAD_EXIT_MASK in
  child ← gets (fun s => task_is_child s task);
  if (child : bool) then thread_destroy_child task
  else
    cur ← gets current;
    if bool_decide (task = cur) then thread_destroy_self exit_code_ ;; mret 0
    else bug "thread_destroy".

(** * Recycling *)

Definition arch_clear_thread (tcb : Z) : K Z :=
  tcb_remove tcb ;;
  BUG_ON (fun _ => negb (is_page_aligned tcb)) "arch_clear_thread" ;;
  BUG_ON (fun s => 0 <? sleepers (wqhs s (WQ_PAGER tcb))) "arch_clear_thread" ;;
  BUG_ON (fun s => 0 <? sleepers (wqhs s (WQ_SEND tcb))) "arch_clear_thread" ;;
  BUG_ON (fun s => 0 <? sleepers (wqhs s (WQ_RECV tcb))) "arch_clear_thread" ;;
  BUG_ON (fun s => bool_decide (tcb ∈ ktcb_list (conts s (container (tcbs s tcb))))
                   || bool_decide (tcb ∈ zombies (kres s))) "arch_clear_thread" ;;
  BUG_ON (fun s => rq_linked s tcb) "arch_clear_thread" ;;
  BUG_ON (fun s => bool_decide (is_Some (rq (tcbs s tcb)))) "arch_clear_thread" ;;
  BUG_ON (fun s => negb (nlocks (tcbs s tcb) =? 0)) "arch_clear_thread" ;;
  BUG_ON (fun s => bool_decide (is_Some (waiting_on (tcbs s tcb)))) "arch_clear_thread" ;;
  BUG_ON (fun s => bool_decide (is_Some (wq (tcbs s tcb)))) "arch_clear_thread" ;;
  tmod tcb (fun t => t <| context := fun _ => 0 |>) ;;
  context_set tcb SPSR ARM_MODE_USR ;;
  sp ← tget tcb space;
  csp ← cur_get space;
  remove_mapping_pgd_all_user fuel sp (CL_SPACE csp) ;;
  tcb_init tcb ;;
  tcb_add tcb ;;
  mret 0.

Definition thread_recycle (task : Z) : K Z :=
  ret ← thread_suspend task;
  if ret <? 0 then mret ret
  else
    wake_all (WQ_SEND task) 0 ;;
    wake_all (WQ_RECV task) 0 ;;
    BUG_ON (fun s => 0 <? sleepers (wqhs s (WQ_PAGER task))) "thread_recycle" ;;
    _ ← arch_clear_thread task;
    mret 0.

Definition thread_start (task : Z) : K Z :=
  got ← mutex_trylock (MX_TCB task);
  if negb got then mret (- EAGAIN)
  else
    sched_resume_async task ;;
    mutex_unlock (MX_TCB task) ;;
    mret 0.

(** * Creation *)

Definition thread_setup_space (tcb ids flags_ : Z) : K Z :=
  if flag_set flags_ TC_SHARE_SPACE then
    spin_lock ;;
    id ← ids_get ids ids_spid;
    space_ ← address_space_find id;
    if space_ =? 0 then spin_unlock ;; mret (- ESRCH)
    else
      spin_lock ;;
      spin_unlock ;;
      address_space_attach tcb space_ ;;
      spin_unlock ;;
      mret 0
  else if flag_set flags_ TC_COPY_SPACE then
    spin_lock ;;
    id ← ids_get ids ids_spid;
    space_ ← address_space_find id;
    if space_ =? 0 then spin_unlock ;; mret (- ESRCH)
    else
      spin_lock ;;
      new ← address_space_create fuel space_;
      if IS_ERR new then spin_unlock ;; spin_unlock ;; mret (s32 new)
      else
        spin_unlock ;;
        nid ← gets (fun s => spid (spaces s new));
        ids_mod ids (fun d => d <| ids_spid := nid |>) ;;
        address_space_attach tcb new ;;
        address_space_add new ;;
        spin_unlock ;;
        mret 0
  else if flag_set flags_ TC_NEW_SPACE then
    new ← address_space_create fuel 0;
    if IS_ERR new then mret (s32 new)
    else
      nid ← gets (fun s => spid (spaces s new));
      ids_mod ids (fun d => d <| ids_spid := nid |>) ;;
      address_space_attach tcb new ;;
      spin_lock ;;
      address_space_add new ;;
      spin_unlock ;;
      mret 0
  else mret 0.

(** The argument checks of [thread_create], on the masked flags. *)
Definition create_flags_ok (flags_ : Z) : bool :=
  negb (negb (Z.land (Z.land (Z.land flags_ TC_SHARE_SPACE) TC_COPY_SPACE) TC_NEW_SPACE =? 0)
        || (flags_ =? 0))
  && negb (Z.land flags_ THREAD_SPACE_MASK =? 0)
  && (flag_set flags_ TC_SHARE_SPACE
      || negb (flag_set flags_ TC_SHARE_UTCB || flag_set flags_ TC_SHARE_GROUP)).

Definition thread_create (ids flags_ : Z) : K Z :=
  let flags_ := Z.land flags_ THREAD_CREATE_MASK in
  if negb (create_flags_ok flags_) then mret (- EINVAL)
  else
    cc ← curcont;
    ccid ← gets (fun s => cid (conts s cc));
    new ← tcb_alloc_init fuel ccid;
    if new =? 0 then mret (- ENOMEM)
    else
      let out_err err := (sp ← cur_get space; ktcb_cap_free fuel new (CL_SPACE sp) ;; mret err) in
      err ← thread_setup_space new ids flags_;
      if err <? 0 then out_err err
      else
        orig ← (if flag_set flags_ TC_SHARE_SPACE || flag_set flags_ TC_COPY_SPACE
                then (i ← ids_get ids ids_tid; o ← tcb_find i; mret (Some o))
                else mret None);
        if bool_decide (orig = Some 0) then out_err (- EINVAL)
        else
          let orig := default 0 orig in
          cur ← gets current;
          tmod new (fun t => t <| pager := cur |>) ;;
          spin_lock ;;
          tmod cur (fun t => t <| nchild ::= Z.succ |>) ;;
          spin_unlock ;;
          c ← curcont;
          tmod new (fun t => t <| container := c |>) ;;
          thread_setup_affinity new ;;
          thread_setup_new_ids ids flags_ new orig ;;
          _ ← arch_setup_new_thread new orig flags_;
          tcb_add new ;;
          mret 0.

(** * The system call *)

Variable pager_pagein_request : Z -> Z -> Z -> K Z.

Definition thread_action (task ids flags_ : Z) : K Z :=
  let action := Z.land flags_ THREAD_ACTION_MASK in
  if action =? THREAD_CREATE then thread_create ids flags_
  else if action =? THREAD_RUN then thread_start task
  else if action =? THREAD_SUSPEND then thread_suspend task
  else if action =? THREAD_DESTROY then thread_destroy task flags_
  else if action =? THREAD_RECYCLE then thread_recycle task
  else if action =? THREAD_WAIT then thread_wait task
  else mret (- EINVAL).

(** [sizeof(struct task_ids)] is three words. *)
Definition sys_thread_control (flags_ ids : Z) : K Z :=
  err ← check_access pager_pagein_request ids 12 MAP_USR_RW true;
  if err <? 0 then mret err
  else
    let checked task :=
      (err ← cap_thread_check task flags_;
       if err <? 0 then mret err else thread_action task ids flags_) in
    if negb (Z.land flags_ THREAD_ACTION_MASK =? THREAD_CREATE) then
      i ← ids_get ids ids_tid;
      task ← tcb_find i;
      if task =? 0 then mret (- ESRCH)
      else
        cur ← gets current;
        is_pager ← gets (fun s => space_is_pager s cur);
        if negb is_pager then mret (- EPERM) else checked task
    else checked 0.
End Thread.
