(* ===== verification/Fault.v ===== *)
(** Memory faults: [src/arch/arm/exception-common.c] and the ARMv5
    [src/arch/arm/v5/exception.c] with their headers.

    A fault becomes an ipc to the task's pager, and that ipc may itself need
    pages: [pager_pagein_request] bounds this nesting by [depth].  The entry
    points below are the ones the other files' [pager_pagein_request] parameter
    stands for. *)
From S2P Require Import Prelude Defs Kernel Sched Alloc Caps Mapping Space Tcb Ipc Thread.

(** * Fault status *)

Definition ABORT_TYPE_PREFETCH := 1.
Definition ABORT_TYPE_DATA := 0.
Definition ABORT_HANDLED := 1.
Definition set_abort_type (fsr x : Z) : Z :=
  Z.lor (Z.land fsr (lnot32 (Z.shiftl 1 8))) (Z.shiftl (Z.land x 1) 8).
Definition is_prefetch_abort (fsr : Z) : bool := flag_set (Z.shiftr fsr 8) 1.
Definition is_user_mode (spsr : Z) : bool := Z.land spsr ARM_MODE_MASK =? ARM_MODE_USR.
Definition FSR_FS_MASK := 0xF.
Definition DABT_XLATE_SECT := 0x5.
Definition DABT_XLATE_PAGE := 0x7.
Definition DABT_PERM_PAGE := 0xF.

(** Only translation faults and page permission faults may go to a pager, and
    only from outside the kernel's address range; a prefetch abort, only from
    user mode.  The cases the switch answers with [-EABORT] and its default are
    one branch here. *)
Definition check_abort_type (faulted_pc fsr far spsr : Z) : Z :=
  if is_prefetch_abort fsr then (if negb (is_user_mode spsr) then - EABORT else 0)
  else
    let fs := Z.land fsr FSR_FS_MASK in
    let ret := if fs =? DABT_PERM_PAGE then 0
               else if fs =? DABT_XLATE_PAGE then 0
               else if fs =? DABT_XLATE_SECT then 0
               else - EABORT in
    if is_kernel_address faulted_pc then - EABORT else ret.

(** [while (1)]: the system halts. *)
Definition abort_die {A} : K A := disable_irqs ;; bug "abort_die".

(** * Saving and forging ipc state *)

Record ipc_state := MkIpcState { mr : list Z; saved_flags : Z }.

Definition ipc_save_state : K ipc_state :=
  cur ← gets current;
  mr0_current ← KTCB_REF_MR0 cur;
  mrs ← gets (fun s => sysctx s mr0_current <$> mr_regs);
  fl ← tget cur tcb_get_ipc_flags;
  mret (MkIpcState mrs fl).

(** Writes the saved registers wherever [syscall_regs] points at that time. *)
Definition ipc_restore_state (st : ipc_state) : K unit :=
  cur ← gets current;
  mr0_current ← KTCB_REF_MR0 cur;
  foreach (zip mr_regs (mr st)) (fun p => mr_write mr0_current (fst p) (snd p)) ;;
  tcb_set_ipc_flags cur (saved_flags st).

(** [mr] laid out as the frame [syscall_regs] is made to point at. *)
Definition forge_frame (m : list Z) : K unit :=
  cur ← gets current;
  foreach (zip mr_regs m) (fun p => mr_write (SYS_FAULT cur) (fst p) (snd p)) ;;
  tmod cur (fun t => t <| syscall_regs := SYS_FAULT cur |>).

Section Fault.
Context (fuel : nat).
(** [thread_destroy] is called through a prototype without its second argument:
    the exit code is whatever the argument register holds. *)
Context (stray_exit_code : Z).

Section Pagein.
Variable pager_pagein : Z -> Z -> Z -> K Z.

Definition fault_ipc_with (faulty_pc fsr far ipc_tag : Z) : K Z :=
  cur ← gets current;
  sender ← tget cur tid;
  pte ← virt_to_pte (if is_prefetch_abort fsr then faulty_pc else far);
  forge_frame [ipc_tag; sender; faulty_pc; fsr; far; pte] ;;
  tcb_set_ipc_flags cur IPC_FLAGS_SHORT ;;
  p ← tget cur pager;
  when (bool_decide (cur = p)) (_ ← thread_destroy fuel cur stray_exit_code; mret tt) ;;
  pid ← gets (fun s => tid (tcbs s (pager (tcbs s cur))));
  err ← ipc_sendrecv fuel pager_pagein pid pid 0;
  if err <? 0 then
    BUG_ON (fun s => negb (nlocks (tcbs s cur) =? 0)) "fault_ipc_to_pager" ;;
    if err =? - EINTR then mret err
    else
      tmod cur (set_flag TASK_SUSPENDING) ;;
      sched_suspend_sync ;;
      mret 0
  else mret 0.

(** The loop over the [n] pages from [addr], left on the first error. *)
Fixpoint pagein_pages (n : nat) (addr abort : Z) : K Z :=
  match n with
  | O => mret 0
  | S n =>
      err ← fault_ipc_with 0 abort addr L4_IPC_TAG_PFAULT;
      if err <? 0 then mret err else pagein_pages n (u32 (addr + PAGE_SIZE)) abort
  end.
End Pagein.

Fixpoint pager_pagein_request (depth : nat) (addr size flags_ : Z) : K Z :=
  match depth with
  | O => out_of_fuel
  | S depth =>
      let npages := __pfn (align_up size PAGE_SIZE) in
      let abort := set_abort_type 0 ABORT_TYPE_DATA in
      st ← ipc_save_state;
      err ← pagein_pages (pager_pagein_request depth) (Z.to_nat npages) addr abort;
      if err <? 0 then mret err else ipc_restore_state st ;; mret 0
  end.

Definition fault_ipc_to_pager (depth : nat) (faulty_pc fsr far ipc_tag : Z) : K Z :=
  fault_ipc_with (pager_pagein_request depth) faulty_pc fsr far ipc_tag.

(** * Handlers *)

(** The common end of the three handlers. *)
Definition suspend_if_asked : K unit :=
  cur ← gets current;
  f ← tget cur flags;
  when (flag_set f TASK_SUSPENDING)
    (BUG_ON (fun s => negb (nlocks (tcbs s cur) =? 0)) "abort handler" ;;
     sched_suspend_sync).

Definition data_abort_handler (depth : nat) (faulted_pc dfsr dfar spsr : Z) : K unit :=
  let dfsr := set_abort_type dfsr ABORT_TYPE_DATA in
  let ret := check_abort_type faulted_pc dfsr dfar spsr in
  if ret <? 0 then abort_die
  else if ret =? ABORT_HANDLED then mret tt
  else
    _ ← fault_ipc_to_pager depth faulted_pc dfsr dfar L4_IPC_TAG_PFAULT;
    suspend_if_asked.

Definition prefetch_abort_handler (depth : nat) (faulted_pc ifsr ifar spsr : Z) : K unit :=
  let ifsr := set_abort_type ifsr ABORT_TYPE_PREFETCH in
  let ret := check_abort_type 0 ifsr ifar spsr in
  if ret <? 0 then abort_die
  else if ret =? ABORT_HANDLED then mret tt
  else
    _ ← fault_ipc_to_pager depth faulted_pc ifsr ifar L4_IPC_TAG_PFAULT;
    suspend_if_asked.

Definition undefined_instr_handler (depth : nat) (undefined_address spsr lr : Z) : K unit :=
  _ ← fault_ipc_to_pager depth undefined_address 0 undefined_address L4_IPC_TAG_UNDEF_FAULT;
  if negb (is_user_mode spsr) then abort_die else suspend_if_asked.
End Fault.
