(* ===== verification/Exregs.v ===== *)
(** Exchange of registers: [src/api/exregs.c]. *)
From S2P Require Import Prelude Defs Kernel Sched Alloc Caps Mapping Space Tcb Thread.

Definition FIELD_VALID (exregs : exregs_data) (r : reg) : bool :=
  flag_set (valid_vect exregs) (FIELD_TO_BIT r).

(** One [if] of the two functions per register, in the source's order. *)
Definition merge_regs (exregs : exregs_data) (from to : regs) : regs :=
  foldl (fun c r => if FIELD_VALID exregs r then <[r := from r]> c else c) to ex_fields.

(** The [goto flags] on an empty [valid_vect] skips tests that would all fail. *)
Definition exregs_write_registers (task exregs : Z) : K unit :=
  e ← gets (fun s => u_exregs s exregs);
  when (negb (valid_vect e =? 0))
    (tmod task (fun t => t <| context ::= merge_regs e (ex_context e) |>)) ;;
  when (flag_set (ex_flags e) EXREGS_SET_UTCB)
    (tmod task (fun t => t <| utcb_address := ex_utcb e |>) ;;
     cur ← gets current;
     when (bool_decide (task = cur)) (task_update_utcb task)).

Definition exregs_mod (exregs : Z) (f : exregs_data -> exregs_data) : K unit :=
  modify (fun s => s <| u_exregs ::= fun m => <[exregs := f (m exregs)]> m |>).

Definition exregs_read_registers (task exregs : Z) : K unit :=
  e ← gets (fun s => u_exregs s exregs);
  c ← tget task context;
  when (negb (valid_vect e =? 0))
    (exregs_mod exregs (fun e => e <| ex_context ::= merge_regs e c |>)) ;;
  when (flag_set (ex_flags e) EXREGS_SET_PAGER)
    (id ← gets (fun s => tid (tcbs s (pager (tcbs s task))));
     exregs_mod exregs (fun e => e <| pagerid := id |>)) ;;
  when (flag_set (ex_flags e) EXREGS_SET_UTCB)
    (a ← tget task utcb_address;
     exregs_mod exregs (fun e => e <| ex_utcb := a |>)).

(** [sizeof(struct exregs_data)]: sixteen registers and four words. *)
Definition EXREGS_SIZE := 4 * 20.

Section Exregs.
Variable pager_pagein_request : Z -> Z -> Z -> K Z.

(** The refusal for want of a capability returns with [thread_control_lock]
    held, as in the source. *)
Definition sys_exchange_registers (exregs tid_ : Z) : K Z :=
  err ← check_access pager_pagein_request exregs EXREGS_SIZE MAP_USR_RW true;
  if err <? 0 then mret err
  else
    task ← tcb_find tid_;
    if task =? 0 then mret (- ESRCH)
    else
      got ← mutex_trylock (MX_TCB task);
      if negb got then mret (- EAGAIN)
      else
        cur ← gets current;
        active ← gets (fun s =>
          negb (bool_decide (state (tcbs s task) = TASK_INACTIVE))
          && negb (valid_vect (u_exregs s exregs) =? 0)
          && negb (bool_decide (cur = task))
          && negb (tid (tcbs s (pager (tcbs s task))) =? tid (tcbs s cur)));
        if (active : bool) then mutex_unlock (MX_TCB task) ;; mret (- EACTIVE)
        else
          e ← gets (fun s => u_exregs s exregs);
          err ← cap_exregs_check task e;
          if err <? 0 then mret (- ENOCAP)
          else
            (if flag_set (ex_flags e) EXREGS_READ then exregs_read_registers task exregs
             else exregs_write_registers task exregs) ;;
            mutex_unlock (MX_TCB task) ;;
            mret err.
End Exregs.
