(* ===== verification/Umutex.v ===== *)
(** Userspace mutexes: [src/api/mutex.c] with [include/l4/api/mutex.h].

    A container's mutex queue head is named by the container: its list and
    count are [mq_list] and [mq_count], its lock [MX_QHEAD]. *)
From S2P Require Import Prelude Defs Kernel Sched Alloc Caps Mapping Space Tcb.

Definition init_mutex_queue_head (mqhead : Z) : K unit :=
  contmod mqhead (fun c => c <| mq_list := [] |> <| mq_count := 0 |>) ;;
  mutex_init (MX_QHEAD mqhead).

Definition mutex_queue_init (mq physical_ : Z) : K unit :=
  mqmod mq (fun q => q <| physical := physical_ |>) ;;
  waitqueue_head_init (WQ_HOLDERS mq) ;;
  waitqueue_head_init (WQ_CONTENDERS mq).

Definition mutex_control_add (mqhead mq : Z) : K unit :=
  BUG_ON (fun s => bool_decide (mq ∈ mq_list (conts s mqhead))) "mutex_control_add" ;;
  contmod mqhead (fun c => c <| mq_list ::= cons mq |>) ;;
  contmod mqhead (fun c => c <| mq_count ::= Z.succ |>).

Definition mutex_control_remove (mqhead mq : Z) : K unit :=
  contmod mqhead (fun c => c <| mq_list ::= list_del mq |>) ;;
  contmod mqhead (fun c => c <| mq_count ::= Z.pred |>).

Definition mutex_control_find (mqhead mutex_physical : Z) : K Z :=
  gets (fun s =>
    default 0 (list_find (fun q => physical (mqs s q) =? mutex_physical) (mq_list (conts s mqhead))
               ≫= fun x => Some (snd x))).

Section Umutex.
Context (fuel : nat).

(** The result of the interruptible lock is dropped, as in the source. *)
Definition mutex_queue_head_lock (mqhead : Z) : K unit := _ ← mutex_lock fuel (MX_QHEAD mqhead); mret tt.
Definition mutex_queue_head_unlock (mqhead : Z) : K unit := mutex_unlock_async (MX_QHEAD mqhead).

Definition mutex_control_create (mutex_physical : Z) : K Z :=
  mutex_queue ← mutex_cap_alloc fuel;
  if mutex_queue =? 0 then mret 0
  else mutex_queue_init mutex_queue mutex_physical ;; mret mutex_queue.

Definition mutex_control_delete (mqhead mq : Z) : K unit :=
  BUG_ON (fun s => bool_decide (mq ∈ mq_list (conts s mqhead))) "mutex_control_delete" ;;
  BUG_ON (fun s => negb (sleepers (wqhs s (WQ_CONTENDERS mq)) =? 0)) "mutex_control_delete" ;;
  BUG_ON (fun s => negb (sleepers (wqhs s (WQ_HOLDERS mq)) =? 0)) "mutex_control_delete" ;;
  BUG_ON (fun s => negb (bool_decide (task_list (wqhs s (WQ_CONTENDERS mq)) = []))) "mutex_control_delete" ;;
  BUG_ON (fun s => negb (bool_decide (task_list (wqhs s (WQ_HOLDERS mq)) = []))) "mutex_control_delete" ;;
  mutex_cap_free fuel mq.

(** Wait on [wqh] with the head's lock dropped between preparing and sleeping. *)
Definition unlock_and_wait (mqhead : Z) (wqh : wqh_ref) : K Z :=
  _ ← wait_on_prepare wqh;
  mutex_queue_head_unlock mqhead ;;
  wait_on_prepared_wait.

(** [wake_up(wqh, WAKEUP_ASYNC)] *)
Definition wake_async (wqh : wqh_ref) : K unit := wake_up sched_resume_sync wqh WAKEUP_ASYNC.

Definition mutex_control_lock (mqhead mutex_address : Z) : K Z :=
  mutex_queue_head_lock mqhead ;;
  mutex_queue ← mutex_control_find mqhead mutex_address;
  if mutex_queue =? 0 then
    mutex_queue ← mutex_control_create mutex_address;
    if mutex_queue =? 0 then mutex_queue_head_unlock mqhead ;; mret (- ENOMEM)
    else
      mutex_control_add mqhead mutex_queue ;;
      unlock_and_wait mqhead (WQ_CONTENDERS mutex_queue)
  else
    holders ← gets (fun s => sleepers (wqhs s (WQ_HOLDERS mutex_queue)));
    if negb (holders =? 0) then
      mqmod mutex_queue (fun q => q <| contenders ::= Z.pred |>) ;;
      n ← gets (fun s => contenders (mqs s mutex_queue));
      when (n =? 0)
        (wake_async (WQ_HOLDERS mutex_queue) ;;
         mutex_control_remove mqhead mutex_queue ;;
         mutex_control_delete mqhead mutex_queue) ;;
      mutex_queue_head_unlock mqhead ;;
      mret 0
    else unlock_and_wait mqhead (WQ_CONTENDERS mutex_queue).

(** The [while] that wakes contenders who made it to the kernel, at most [n]
    of them. *)
Fixpoint wake_contenders (n : nat) (mq : Z) : K unit :=
  left_ ← gets (fun s => contenders (mqs s mq));
  here ← gets (fun s => sleepers (wqhs s (WQ_CONTENDERS mq)));
  if negb (left_ =? 0) && negb (here =? 0) then
    match n with
    | O => out_of_fuel
    | S n =>
        mqmod mq (fun q => q <| contenders ::= Z.pred |>) ;;
        wake_async (WQ_CONTENDERS mq) ;;
        wake_contenders n mq
    end
  else mret tt.

Definition mutex_control_unlock (mqhead mutex_address contenders_ : Z) : K Z :=
  mutex_queue_head_lock mqhead ;;
  mutex_queue ← mutex_control_find mqhead mutex_address;
  if mutex_queue =? 0 then
    mutex_queue ← mutex_control_create mutex_address;
    if mutex_queue =? 0 then mutex_queue_head_unlock mqhead ;; mret (- ENOMEM)
    else
      mqmod mutex_queue (fun q => q <| contenders := contenders_ |>) ;;
      mutex_control_add mqhead mutex_queue ;;
      unlock_and_wait mqhead (WQ_HOLDERS mutex_queue)
  else
    mqmod mutex_queue (fun q => q <| contenders ::= fun n => s32 (n + contenders_) |>) ;;
    holders ← gets (fun s => sleepers (wqhs s (WQ_HOLDERS mutex_queue)));
    when (negb (holders =? 0)) (wake_async (WQ_HOLDERS mutex_queue)) ;;
    wake_contenders fuel mutex_queue ;;
    n ← gets (fun s => contenders (mqs s mutex_queue));
    if n =? 0 then
      here ← gets (fun s => sleepers (wqhs s (WQ_CONTENDERS mutex_queue)));
      when (here =? 0)
        (mutex_control_remove mqhead mutex_queue ;; mutex_control_delete mqhead mutex_queue) ;;
      mutex_queue_head_unlock mqhead ;;
      mret 0
    else unlock_and_wait mqhead (WQ_HOLDERS mutex_queue).

Definition sys_mutex_control (mutex_address mutex_flags : Z) : K Z :=
  let mutex_op := mutex_operation mutex_flags in
  let contenders_ := mutex_contenders mutex_flags in
  if KERN_ADDR mutex_address then mret (- EINVAL)
  else if negb (mutex_op =? MUTEX_CONTROL_LOCK) && negb (mutex_op =? MUTEX_CONTROL_UNLOCK) then
    mret (- EPERM)
  else
    p ← gets (fun s => TASK_PGD s (current s));
    mutex_physical ← virt_to_phys_by_pgd p mutex_address;
    if mutex_physical =? 0 then mret (- EINVAL)
    else
      c ← curcont;
      if mutex_op =? MUTEX_CONTROL_LOCK then mutex_control_lock c mutex_physical
      else mutex_control_unlock c mutex_physical contenders_.
End Umutex.
