(* ===== verification/Contention.v ===== *)
(** Contended userspace mutexes: the queues of [src/api/mutex.c] keep one
    number per mutex, the wake-ups its unlockers owe less the lockers that
    have come to the kernel.  A thread sleeps exactly as this number tells. *)
From S2P Require Import Prelude Bits Defs Kernel Exec Sched SchedInv SchedOps Schedule Fairness Demo Waiting Alloc Mutexes Caches Umutex.

(** * The critical section of a container's queue head *)

#[local] Abbreviation head_mx c := (MX_QHEAD c).

(** The state of a thread that holds the lock of head [c], for which no other
    thread waits. *)
Record working (c : Z) (s : kstate) : Prop := {
  wk_inv : sched_inv s;
  wk_state : state (tcbs s (current s)) = TASK_RUNNABLE;
  wk_lock : mutexes s (head_mx c) = MUTEX_LOCKED;
  wk_queue : task_list (wqhs s (WQ_MUTEX (head_mx c))) = [];
  wk_nlocks : 0 < nlocks (tcbs s (current s));
  wk_vol : voluntary_preempt s = 0;
  wk_nest : irq_nest_count s = 0;
  wk_quiet : quiet s;
  wk_busy : current s <> idle s }.

(** Nobody holds or waits for the lock of head [c]. *)
Record at_rest (c : Z) (s : kstate) : Prop := {
  ar_steady : steady (idle s) s;
  ar_busy : current s <> idle s;
  ar_quiet : quiet s;
  ar_free : mutexes s (head_mx c) = MUTEX_UNLOCKED;
  ar_queue : task_list (wqhs s (WQ_MUTEX (head_mx c))) = [];
  ar_nlocks : 0 <= nlocks (tcbs s (current s)) }.

Lemma head_lock_run fuel c s : at_rest c s ->
  mutex_queue_head_lock fuel c s = Ret tt (taken (head_mx c) s) /\ working c (taken (head_mx c) s).
Proof.
  intros [Hst Hb Hq Hf Hl Hn]. split; [exec mutex_queue_head_lock; by rewrite mutex_lock_free|].
  pose proof Hst as [Hs Hv Hi _ Hr]. pose proof Hq as [Q1 Q2 Q3].
  split; try done; [by apply sched_inv_taken|..].
  - cbn. by rewrite upd_eq.
  - cbn. by rewrite upd_eq.
  - cbn. rewrite upd_eq. cbn. lia.
  - split; cbn; rewrite ?upd_eq; done.
Qed.
Lemma head_unlock_run c s : working c s ->
  mutex_queue_head_unlock c s = Ret tt (let_go (head_mx c) s).
Proof.
  intros H. destruct H. unfold mutex_queue_head_unlock, mutex_unlock_async. rewrite mutex_unlock_run by done. by rewrite wk_queue0.
Qed.

(** ** Steps inside *)

Lemma working_ext c s s' : working c s -> sched_inv s' ->
  (forall u, tcbs s' u = tcbs s u) -> wqhs s' = wqhs s -> sched s' = sched s -> (forall m, mutexes s' m = mutexes s m) ->
  keeps s s' -> working c s'.
Proof.
  intros [] Hs Et Ew Es Em (K1 & K2 & K3 & K4). destruct wk_quiet0 as [Q1 Q2 Q3].
  split; rewrite ?Et, ?Ew, ?Em, ?K1, ?K2, ?K3, ?K4; try done.
  split; rewrite ?Et, ?Es, ?K1; done.
Qed.
Lemma working_mq c q f s : working c s -> working c (with_mq q f s).
Proof. intros H. apply (working_ext c s); try done. by apply (sinv_ext None s), H. Qed.
Lemma working_cont c d f s : working c s -> working c (with_cont d f s).
Proof. intros H. apply (working_ext c s); try done. by apply (sinv_ext None s), H. Qed.
Lemma working_woken c h t s : working c s -> waiting_on (tcbs s t) = Some h -> h <> WQ_MUTEX (head_mx c) ->
  working c (woken WAKEUP_ASYNC t h s).
Proof.
  intros [] Hw Hh. destruct (woken_facts WAKEUP_ASYNC t h s wk_inv0 Hw) as (H1 & _ & _ & _ & _ & _ & H7 & _ & H9).
  destruct (keeps_woken WAKEUP_ASYNC t h s) as (K1 & K2 & K3 & K4). destruct (waiting_facts s t h wk_inv0 Hw) as (Hsl & _).
  assert (t <> current s) as Hne by congruence.
  assert (tcbs (woken WAKEUP_ASYNC t h s) (current s) = tcbs s (current s)) as Et.
  { unfold woken, resume, interrupt. change (flag_set WAKEUP_ASYNC WAKEUP_INTERRUPT) with false. cbn. by rewrite !upd_ne. }
  split; rewrite ?K1, ?K2, ?K3, ?K4, ?Et; try done.
  - rewrite H7. by rewrite decide_False.
  - by apply woken_quiet.
Qed.

(** [wake_up] of the first sleeper of a queue. *)
Definition roused (h : wqh_ref) (s : kstate) : kstate :=
  match task_list (wqhs s h) with [] => s | t :: _ => woken WAKEUP_ASYNC t h s end.
Lemma wake_async_run c h s : working c s -> h <> WQ_MUTEX (head_mx c) ->
  wake_async h s = Ret tt (roused h s) /\ working c (roused h s).
Proof.
  intros H Hh. unfold wake_async, roused.
  destruct (wake_up_async sched_resume_sync h WAKEUP_ASYNC s) as [-> Hs]; [apply H|done|].
  split; [done|]. destruct (task_list (wqhs s h)) as [|t l] eqn:E; [done|].
  apply working_woken; [done| |done]. apply (si_wq _ _ (wk_inv c s H)). rewrite E. left.
Qed.

(** * Deleting a queue *)

(** The pool that the current task's capabilities name for mutex queues. *)
Definition mutex_pool (s : kstate) : Z :=
  let p := fun c => cap_rtype c =? CAP_RTYPE_MUTEXPOOL in
  let c := first_cap s p (caps (caplists s (CL_SPACE (space (tcbs s (current s)))))) in
  if c =? 0 then first_cap s p (caps (caplists s (CL_CONT (container (tcbs s (current s)))))) else c.

(** A queue that was allocated and can be given back. *)
Record returnable (q : Z) (s : kstate) : Prop := {
  rt_free : mutexes s (MX_CACHE MUTEX_CACHE) = MUTEX_UNLOCKED;
  rt_queue : task_list (wqhs s (WQ_MUTEX (MX_CACHE MUTEX_CACHE))) = [];
  rt_cache : cache_inv (caches s MUTEX_CACHE);
  rt_used : in_use (caches s MUTEX_CACHE) q;
  rt_pool : mutex_pool s <> 0 }.

Lemma returnable_ext q s s' : returnable q s ->
  mutexes s' (MX_CACHE MUTEX_CACHE) = mutexes s (MX_CACHE MUTEX_CACHE) ->
  task_list (wqhs s' (WQ_MUTEX (MX_CACHE MUTEX_CACHE))) = task_list (wqhs s (WQ_MUTEX (MX_CACHE MUTEX_CACHE))) ->
  caches s' = caches s -> caplists s' = caplists s -> capmem s' = capmem s -> current s' = current s ->
  space (tcbs s' (current s)) = space (tcbs s (current s)) ->
  container (tcbs s' (current s)) = container (tcbs s (current s)) -> returnable q s'.
Proof.
  intros [] E1 E2 E3 E4 E5 E6 E7 E8.
  assert (mutex_pool s' = mutex_pool s) as Ep.
  { unfold mutex_pool. rewrite E6, E7, E8, E4.
    assert (forall p l, first_cap s' p l = first_cap s p l) as Ef by (intros p l; induction l as [|x l IH]; cbn; by rewrite ?E5, ?IH).
    by rewrite !Ef. }
  split; rewrite ?E1, ?E2, ?E3, ?Ep; done.
Qed.

(** The threads asleep on a queue and the wake-ups it owes. *)
Definition holding (s : kstate) (q : Z) : list Z := task_list (wqhs s (WQ_HOLDERS q)).
Definition contending (s : kstate) (q : Z) : list Z := task_list (wqhs s (WQ_CONTENDERS q)).
Definition owed (s : kstate) (q : Z) : Z := contenders (mqs s q).

Lemma delete_run fuel c q s :
  working c s -> returnable q s -> q ∉ mq_list (conts s c) -> holding s q = [] -> contending s q = [] ->
  exists s', mutex_control_delete fuel c q s = Ret tt s' /\ working c s' /\ conts s' = conts s /\ wqhs s' = wqhs s
    /\ (in_use (caches s' MUTEX_CACHE) q -> False) /\ keeps s s'
    /\ (forall u, tcbs s' u = tcbs s u) /\ (forall m, mutexes s' m = mutexes s m).
Proof.
  intros Hw [Hf Hq Hc Hu Hp] Hno Hh Hco. pose proof (wk_inv c s Hw) as Hs.
  set (s1 := with_cap (mutex_pool s) (fun x => x <| used ::= fun u => u32 (u - 1) |>) s).
  assert (mutex_control_delete fuel c q s
    = obind (mem_cache_free fuel MUTEX_CACHE q s1) (fun r => bug_on (r <? 0) "mutex_cap_free")) as E.
  { exec mutex_control_delete. rewrite bool_decide_false by done. cbn [obind].
    unfold holding, contending in Hh, Hco. pose proof (wqi_sleepers _ (si_wq _ _ Hs)) as Hsl.
    rewrite (Hsl (WQ_CONTENDERS q)), Hco. exec. change (negb (Z.of_nat (length (@nil Z)) =? 0)) with false. cbn [obind].
    rewrite (Hsl (WQ_HOLDERS q)), Hh. change (negb (Z.of_nat (length (@nil Z)) =? 0)) with false. cbn [obind].
    rewrite Hco, bool_decide_true by done. cbn [negb obind]. rewrite Hh, bool_decide_true by done. cbn [negb obind].
    exec mutex_cap_free cap_find_by_rtype cap_free_to. fold (mutex_pool s). rewrite (proj2 (Z.eqb_neq _ _) Hp). cbn [obind].
    exec capability_free. fold s1. replace (used (capmem s1 (mutex_pool s)) <? 0) with false; [done|].
    symmetry. apply Z.ltb_ge. cbn. rewrite upd_eq. apply u32_range. }
  rewrite E. clear E. destruct Hu as (b & Hb & Hset & ->).
  assert (uncontended MUTEX_CACHE s1) as Hun.
  { split; [by apply (sinv_ext None s)|done|done|]. destruct Hw. cbn. lia. }
  destruct (mem_cache_free_run fuel MUTEX_CACHE s1 b Hun Hc Hb) as (s' & H1 & H2 & _ & H4 & H5).
  change (caches s1) with (caches s) in H1, H4. rewrite Hset in H1, H4. rewrite H1.
  destruct H5 as [G1 G2 G3 G4 G5 (G6 & _)]. exists s'. split_and!; [done| |done|done| |done|done|done].
  - apply (working_ext c s); try done. apply H2.
  - rewrite H4. intros (j & Hj & Hbj & Ej). cbn in Hj, Ej, Hbj. pose proof (ci_size _ Hc). assert (j = b) as -> by nia.
    pose proof (in_map_total _ b Hc Hb) as Hin. rewrite bit_at_clear in Hbj by (done || lia). by rewrite bool_decide_true in Hbj.
Qed.

(** * The balance of a queue *)

(** [d] wake-ups are owed, or [- d] lockers wait: one unlocker sleeps until
    [d] lockers have come, or the lockers sleep and nothing is owed. *)
Definition balance (q d : Z) (s : kstate) : Prop :=
  if 0 <? d then (exists h, holding s q = [h]) /\ contending s q = [] /\ owed s q = d
  else holding s q = [] /\ owed s q = 0 /\ Z.of_nat (length (contending s q)) = - d.

Definition set_owed (q : Z) (f : Z -> Z) (s : kstate) : kstate := with_mq q (fun x => x <| contenders ::= f |>) s.

Lemma owed_set q f s : owed (set_owed q f s) q = f (owed s q).
Proof. unfold owed, set_owed. cbn. by rewrite upd_eq. Qed.

(** What waking on the two queues of a mutex leaves alone. *)
Record aside (q : Z) (s s' : kstate) : Prop := {
  as_keeps : keeps s s';
  as_wqhs : forall h, h <> WQ_HOLDERS q -> h <> WQ_CONTENDERS q -> wqhs s' h = wqhs s h;
  as_current : tcbs s' (current s) = tcbs s (current s);
  as_mutexes : mutexes s' = mutexes s;
  as_store : conts s' = conts s /\ caches s' = caches s /\ caplists s' = caplists s /\ capmem s' = capmem s;
  as_awake : forall u, state (tcbs s u) = TASK_RUNNABLE -> state (tcbs s' u) = TASK_RUNNABLE }.
Lemma aside_refl q s : aside q s s.
Proof. by split. Qed.
Lemma aside_trans q s1 s2 s3 : aside q s1 s2 -> aside q s2 s3 -> aside q s1 s3.
Proof.
  intros [K1 A1 B1 C1 D1 E1] [K2 A2 B2 C2 D2 E2]. pose proof K1 as (Ec & _). split.
  - by apply (keeps_trans _ s2).
  - intros h H1 H2. rewrite A2, A1; done.
  - rewrite Ec in B2. congruence.
  - congruence.
  - intuition congruence.
  - intros u Hu. by apply E2, E1.
Qed.
Lemma aside_owed q f s : aside q s (set_owed q f s).
Proof. by split. Qed.
Lemma aside_roused c q h s : working c s -> h = WQ_HOLDERS q \/ h = WQ_CONTENDERS q -> aside q s (roused h s).
Proof.
  intros Hk Hh. unfold roused. destruct (task_list (wqhs s h)) as [|t l] eqn:E; [apply aside_refl|].
  pose proof (wk_inv c s Hk) as Hs.
  assert (waiting_on (tcbs s t) = Some h) as Hw by (apply (si_wq _ _ Hs); rewrite E; left).
  destruct (waiting_facts s t h Hs Hw) as (Hsl & _). pose proof (wk_state c s Hk).
  assert (t <> current s) as Hne by congruence.
  unfold woken, resume, interrupt. change (flag_set WAKEUP_ASYNC WAKEUP_INTERRUPT) with false. cbv iota. split; try done.
  - intros h' H1 H2. cbn. rewrite !upd_ne; [done|intros <-; by destruct Hh..].
  - cbn. by rewrite !upd_ne.
  - intros u Hu. destruct (decide (t = u)) as [<-|Hn]; [congruence|]. cbn. by rewrite !upd_ne.
Qed.
Lemma aside_returnable q s s' : aside q s s' -> returnable q s -> returnable q s'.
Proof.
  intros [(K1 & _) A B C (_ & D2 & D3 & D4) _] H. apply (returnable_ext q s); try done; rewrite ?C, ?A, ?B; done.
Qed.

(** Waking the first of a queue's sleepers. *)
Lemma roused_lists c q h s : working c s ->
  h = WQ_HOLDERS q \/ h = WQ_CONTENDERS q ->
  task_list (wqhs (roused h s) h) = tail (task_list (wqhs s h))
  /\ (forall h', h' <> h -> task_list (wqhs (roused h s) h') = task_list (wqhs s h'))
  /\ (forall q', owed (roused h s) q' = owed s q')
  /\ forall t, head (task_list (wqhs s h)) = Some t -> state (tcbs (roused h s) t) = TASK_RUNNABLE.
Proof.
  intros Hk Hh. pose proof (wk_inv c s Hk) as Hs. unfold roused.
  destruct (task_list (wqhs s h)) as [|t l] eqn:E; [by rewrite E|].
  assert (waiting_on (tcbs s t) = Some h) as Hw by (apply (si_wq _ _ Hs); rewrite E; left).
  destruct (woken_facts WAKEUP_ASYNC t h s Hs Hw) as (_ & _ & _ & H4 & _ & _ & H7 & _). split_and!.
  - rewrite H7, decide_True, E by done. cbn [tail]. apply list_del_head. rewrite <- E. apply (si_wq _ _ Hs).
  - intros h' Hne. by rewrite H7, decide_False by congruence.
  - done.
  - by intros u [= <-].
Qed.

(** As many contenders are woken as are owed a wake-up and have come. *)
Definition woken_count (s : kstate) (q : Z) : nat := Nat.min (Z.to_nat (owed s q)) (length (contending s q)).
Lemma wake_contenders_none c q fuel s : working c s -> owed s q = 0 \/ contending s q = [] ->
  wake_contenders fuel q s = Ret tt s.
Proof.
  intros Hw He. pose proof (wqi_sleepers _ (si_wq _ _ (wk_inv c s Hw)) (WQ_CONTENDERS q)) as Hsl.
  assert (negb (owed s q =? 0) && negb (sleepers (wqhs s (WQ_CONTENDERS q)) =? 0) = false) as E.
  { rewrite Hsl. fold (contending s q). destruct He as [-> | ->]; [done|apply andb_false_r]. }
  destruct fuel; cbn [wake_contenders]; exec; fold (owed s q); by rewrite E.
Qed.
Lemma wake_contenders_run c q : forall fuel s,
  working c s -> 0 <= owed s q -> (length (contending s q) <= fuel)%nat ->
  exists s', wake_contenders fuel q s = Ret tt s' /\ working c s' /\ aside q s s' /\ holding s' q = holding s q
    /\ contending s' q = drop (woken_count s q) (contending s q)
    /\ owed s' q = owed s q - Z.of_nat (woken_count s q)
    /\ forall t, t ∈ take (woken_count s q) (contending s q) -> state (tcbs s' t) = TASK_RUNNABLE.
Proof.
  intros fuel s Hw Ho Hl. remember (woken_count s q) as k eqn:Hk. revert fuel s Hw Ho Hl Hk.
  induction k as [|k IH]; intros fuel s Hw Ho Hl Hk; unfold woken_count in Hk.
  - exists s. rewrite (wake_contenders_none c); [|done|].
    + split_and!; try done; [lia|]. intros u Hu. by apply elem_of_nil in Hu.
    + destruct (contending s q); [by right|left; cbn in Hk; lia].
  - destruct (contending s q) as [|t l] eqn:E; [cbn in Hk; lia|]. destruct fuel as [|fuel]; [cbn in Hl; lia|].
    set (s1 := set_owed q Z.pred s). pose proof (working_mq c q (fun x => x <| contenders ::= Z.pred |>) s Hw) as Hw1. fold s1 in Hw1.
    destruct (wake_async_run c (WQ_CONTENDERS q) s1 Hw1) as [E2 Hw2]; [done|].
    destruct (roused_lists c q (WQ_CONTENDERS q) s1 Hw1) as (R1 & R2 & R3 & R4); [by right|].
    pose proof (aside_roused c q (WQ_CONTENDERS q) s1 Hw1 (or_intror eq_refl)) as Ha.
    set (s2 := roused (WQ_CONTENDERS q) s1) in *.
    assert (owed s2 q = owed s q - 1) as Eo by (rewrite R3; unfold s1; rewrite owed_set; lia).
    assert (contending s2 q = l) as Ec.
    { unfold contending. rewrite R1. change (wqhs s1) with (wqhs s). fold (contending s q). by rewrite E. }
    destruct (IH fuel s2) as (s' & G1 & G2 & G3 & G4 & G5 & G6 & G7);
      [done|lia|rewrite Ec; cbn in Hl; lia|unfold woken_count; rewrite Ec, Eo; cbn in Hk; lia|].
    exists s'. split_and!; [|done| | | | |].
    + cbn [wake_contenders]. exec. fold (owed s q). rewrite (wqi_sleepers _ (si_wq _ _ (wk_inv c s Hw))).
      fold (contending s q). rewrite E. replace (owed s q =? 0) with false by lia. cbn [negb andb length].
      change (Z.of_nat (S (length l)) =? 0) with false. cbn [negb].
      change (with_mq q _ s) with s1. rewrite E2. cbn [obind]. exact G1.
    + apply (aside_trans _ _ s1); [apply aside_owed|]. by apply (aside_trans _ _ s2).
    + rewrite G4. unfold holding. by rewrite R2.
    + rewrite G5, Ec. done.
    + lia.
    + rewrite Ec in G7. intros u [->|Hu]%elem_of_cons; [|by apply G7].
      apply (as_awake _ _ _ G3), R4. change (wqhs s1) with (wqhs s). fold (contending s q). by rewrite E.
Qed.

(** * Sleeping on a queue with the head's lock let go *)

Lemma wait_on_prepare_run h s q0 : sched_inv s -> rq (tcbs s (current s)) = Some q0 ->
  wait_on_prepare h s = Ret 0 (with_preempt Z.succ (asleep_on h q0 s)).
Proof.
  intros Hs Hq. exec wait_on_prepare wq_enqueue task_set_wqh.
  match goal with |- obind (sched_prepare_sleep ?x) _ = _ =>
    replace x with (wq_enter (current s) h (with_irqs false (with_preempt Z.succ s))) by (unfold wq_enter; frame_eq) end.
  rewrite (sched_prepare_sleep_run _ q0).
  - cbn [obind]. change (current (wq_enter (current s) h (with_irqs false (with_preempt Z.succ s)))) with (current s).
    unfold asleep_on, fall_asleep, deq, unlink_rq, set_state, wq_enter. frame_eq.
  - apply (rq_inv_ext (wq_enter (current s) h s)); [done|done|]. repeat apply rq_inv_tcb; try done. by apply (rq_inv_ext s), Hs.
  - change (current (wq_enter (current s) h (with_irqs false (with_preempt Z.succ s)))) with (current s).
    rewrite wq_enter_rq. exact Hq.
Qed.

(** The current task asleep on [h], the lock let go. *)
Definition left_waiting (c : Z) (h : wqh_ref) (q0 : Z) (s : kstate) : kstate :=
  let_go (head_mx c) (asleep_on h q0 s).

Lemma quiet_let_go m s : quiet s -> quiet (let_go m s).
Proof. intros [Q1 Q2 Q3]. split; try done; cbn; by rewrite upd_eq. Qed.
Lemma unlock_and_wait_run c h s : working c s -> h <> WQ_MUTEX (head_mx c) ->
  exists q0, rq (tcbs s (current s)) = Some q0
    /\ unlock_and_wait c h s = Switch (schedule_spec (left_waiting c h q0 s)) check_interrupted
    /\ sched_inv (left_waiting c h q0 s) /\ quiet (left_waiting c h q0 s).
Proof.
  intros Hw Hh. destruct (running_queue s (wk_inv c s Hw) (wk_state c s Hw)) as [q0 Hq]. exists q0. split; [done|].
  pose proof (asleep_inv h s q0 (wk_inv c s Hw) Hq (wk_busy c s Hw)) as Ha. fold (asleep_on h q0 s) in Ha.
  pose proof (asleep_quiet h q0 s (wk_quiet c s Hw)) as Hqa. set (s1 := asleep_on h q0 s) in *.
  assert (sched_inv (let_go (head_mx c) s1)) as Hg by by apply sched_inv_let_go.
  pose proof (quiet_let_go (head_mx c) s1 Hqa) as Hqg.
  split; [|done].
  exec unlock_and_wait. rewrite (wait_on_prepare_run h s q0) by (done || apply Hw). cbn [obind]. fold s1.
  assert (nlocks (tcbs s1 (current s)) = nlocks (tcbs s (current s))) as Hnl.
  { unfold s1, asleep_on, fall_asleep. cbn. by rewrite !upd_eq. }
  assert (task_list (wqhs s1 (WQ_MUTEX (head_mx c))) = []) as Hl.
  { unfold s1, asleep_on, fall_asleep. cbn. rewrite !upd_ne by done. apply Hw. }
  unfold mutex_queue_head_unlock, mutex_unlock_async. rewrite mutex_unlock_run; [|by apply sinv_preempt|apply (wk_lock c s Hw)|].
  2: { change (0 < nlocks (tcbs s1 (current s))). rewrite Hnl. apply (wk_nlocks c s Hw). }
  change (task_list (wqhs (with_preempt Z.succ s1) (WQ_MUTEX (head_mx c)))) with (task_list (wqhs s1 (WQ_MUTEX (head_mx c)))).
  rewrite Hl. cbn [obind]. exec wait_on_prepared_wait.
  assert (with_preempt Z.pred (let_go (head_mx c) (with_preempt Z.succ s1)) = let_go (head_mx c) s1) as E.
  { unfold let_go. autorewrite with frame. reflexivity. }
  rewrite E. rewrite schedule_run; [done|done|]. destruct Hw. by split; [|left].
Qed.

Lemma left_waiting_facts c h q0 s : working c s -> h <> WQ_MUTEX (head_mx c) ->
  rq (tcbs s (current s)) = Some q0 -> sched_inv (left_waiting c h q0 s) -> quiet (left_waiting c h q0 s) ->
  let s1 := schedule_spec (left_waiting c h q0 s) in
  steady (idle s) s1 /\ mutexes s1 (head_mx c) = MUTEX_UNLOCKED
  /\ task_list (wqhs s1 h) = task_list (wqhs s h) ++ [current s]
  /\ (forall h', h' <> h -> wqhs s1 h' = wqhs s h')
  /\ mqs s1 = mqs s
  /\ (forall u, u <> current s -> state (tcbs s1 u) = state (tcbs s u)).
Proof.
  intros Hw Hh Hq Hs Hqu s1. pose proof (schedule_store _ Hqu) as Est. unfold store in Est.
  assert (mutexes s1 = mutexes (left_waiting c h q0 s)) as Em by (unfold s1; congruence).
  assert (mqs s1 = mqs (left_waiting c h q0 s)) as Eq by (unfold s1; congruence). clear Est.
  split_and!.
  - apply (schedule_steady (left_waiting c h q0 s)); [done|apply (wk_vol c s Hw)|apply (wk_nest c s Hw)].
  - rewrite Em. cbn. by rewrite upd_eq.
  - unfold s1. rewrite schedule_wqhs by done. unfold left_waiting, asleep_on, fall_asleep. cbn. by rewrite !upd_eq.
  - intros h' Hne. unfold s1. rewrite schedule_wqhs by done. unfold left_waiting, asleep_on, fall_asleep. cbn. by rewrite !upd_ne.
  - by rewrite Eq.
  - intros u Hu. unfold s1. rewrite (schedule_field state) by done.
    unfold left_waiting, asleep_on, fall_asleep. cbn. by rewrite !upd_ne.
Qed.

(** The lock is let go at the end of a call that does not sleep. *)
Lemma at_rest_again c s : working c s -> at_rest c (let_go (head_mx c) s).
Proof.
  intros Hw. pose proof (quiet_let_go (head_mx c) s (wk_quiet c s Hw)) as Hq. destruct Hw.
  split; [split|..]; try done; [by apply sched_inv_let_go|..]; cbn; rewrite ?upd_eq; try done. cbn. lia.
Qed.

(** * Arriving at a queue *)

(** The queue is off the container's list, nobody sleeps on it and its memory
    is free. *)
Definition retired (c q : Z) (s s' : kstate) : Prop :=
  mq_list (conts s' c) = list_del q (mq_list (conts s c))
  /\ (in_use (caches s' MUTEX_CACHE) q -> False) /\ holding s' q = [] /\ contending s' q = [].

Lemma retire_run fuel c q s : working c s -> returnable q s -> holding s q = [] -> contending s q = [] ->
  exists s', (mutex_control_remove c q ;; mutex_control_delete fuel c q) s = Ret tt s' /\ working c s'
    /\ retired c q s s' /\ keeps s s' /\ forall u, tcbs s' u = tcbs s u.
Proof.
  intros Hw Hr Hh Hc.
  set (s1 := with_cont c (fun x => x <| mq_count ::= Z.pred |>) (with_cont c (fun x => x <| mq_list ::= list_del q |>) s)).
  assert (mq_list (conts s1 c) = list_del q (mq_list (conts s c))) as Hl by (unfold s1; cbn; by rewrite !upd_eq).
  destruct (delete_run fuel c q s1) as (s' & E & H1 & H2 & H3 & H4 & H5 & H6 & H7).
  - by do 2 apply working_cont.
  - by apply (returnable_ext q s).
  - rewrite Hl. unfold list_del. rewrite list_elem_of_filter. by intros [? _].
  - done.
  - done.
  - exists s'. split; [exact E|]. split; [done|]. split; [|split; [exact H5|exact H6]].
    split; [by rewrite H2|]. split; [done|]. unfold holding, contending. by rewrite H3.
Qed.

Lemma find_taken c addr q m s : mutex_control_find c addr s = Ret q s ->
  mutex_control_find c addr (taken m s) = Ret q (taken m s).
Proof. intros [= E]. unfold mutex_control_find, gets in *. change (conts (taken m s)) with (conts s). f_equal. exact E. Qed.

Lemma let_go_state m s u : state (tcbs (let_go m s) u) = state (tcbs s u).
Proof. cbn. by rewrite (upd_same state). Qed.

Record arrival (c addr q d : Z) (s : kstate) : Prop := {
  av_rest : at_rest c s;
  av_find : mutex_control_find c addr s = Ret q s;
  av_queue : q <> 0;
  av_balance : balance q d s;
  av_back : returnable q s }.

Lemma arrival_opens fuel c addr q d s : arrival c addr q d s ->
  let s1 := taken (head_mx c) s in
  mutex_queue_head_lock fuel c s = Ret tt s1 /\ working c s1 /\ mutex_control_find c addr s1 = Ret q s1
  /\ balance q d s1 /\ returnable q s1.
Proof.
  intros [Hr Hf Hq Hb Hk] s1. destruct (head_lock_run fuel c s Hr) as [E Hw]. split_and!; [done|done|by apply find_taken|done|].
  apply (returnable_ext q s); try done; cbn; by rewrite upd_eq.
Qed.

(** A locker that comes to the kernel for a queue of balance [d] brings it to
    [d - 1]: it returns at once and lets the sleeping unlocker go if it was the
    last one awaited, in which case the queue is deleted; or else it sleeps as
    the last of the contenders, the lock of the queues let go. *)
Lemma mutex_control_lock_takes_one (fuel : nat) (c addr q d : Z) (s : kstate) (Ha : arrival c addr q d s) :
  if 1 <? d then exists s', mutex_control_lock fuel c addr s = Ret 0 s' /\ at_rest c s' /\ balance q (d - 1) s'
    /\ holding s' q = holding s q
  else if d =? 1 then exists s', mutex_control_lock fuel c addr s = Ret 0 s' /\ at_rest c s' /\ retired c q s s'
    /\ forall h, h ∈ holding s q -> state (tcbs s' h) = TASK_RUNNABLE
  else exists s1, mutex_control_lock fuel c addr s = Switch s1 check_interrupted /\ steady (idle s) s1
    /\ mutexes s1 (MX_QHEAD c) = MUTEX_UNLOCKED /\ balance q (d - 1) s1
    /\ contending s1 q = contending s q ++ [current s].
Proof.
  destruct (arrival_opens fuel c addr q d s Ha) as (E1 & Hw & Ef & Hb & Hk). set (s1 := taken (MX_QHEAD c) s) in *.
  pose proof (wqi_sleepers _ (si_wq _ _ (wk_inv c s1 Hw)) (WQ_HOLDERS q)) as Hsl. fold (holding s1 q) in Hsl.
  unfold mutex_control_lock. rewrite (bind_ret _ _ _ _ _ E1), (bind_ret _ _ _ _ _ Ef).
  rewrite (proj2 (Z.eqb_neq q 0)) by apply (av_queue _ _ _ _ _ Ha). exec. rewrite Hsl. unfold balance in Hb.
  destruct (Z.ltb_spec 0 d) as [Hd|Hd].
  - destruct Hb as ((h & Hh) & Hc & Ho). rewrite Hh. change (negb (Z.of_nat (length [h]) =? 0)) with true. exec.
    change (with_mq q _ s1) with (set_owed q Z.pred s1). set (s2 := set_owed q Z.pred s1).
    assert (working c s2) as Hw2 by by apply working_mq.
    assert (owed s2 q = d - 1) as Ho2 by (unfold s2; rewrite owed_set; lia).
    fold (owed s2 q). rewrite Ho2. destruct (Z.ltb_spec 1 d) as [H1|H1].
    + replace (d - 1 =? 0) with false by lia. cbn [obind]. rewrite head_unlock_run by done. cbn [obind].
      exists (let_go (MX_QHEAD c) s2). split; [done|]. split; [by apply at_rest_again|].
      split; [|done]. unfold balance. replace (0 <? d - 1) with true by lia. split; [by exists h|]. split; [done|exact Ho2].
    + assert (d = 1) as -> by lia. change (1 - 1 =? 0) with true. change (1 =? 1) with true. exec.
      destruct (wake_async_run c (WQ_HOLDERS q) s2 Hw2) as [E2 Hw3]; [done|].
      destruct (roused_lists c q (WQ_HOLDERS q) s2 Hw2) as (R1 & R2 & _ & R4); [by left|].
      pose proof (aside_roused c q (WQ_HOLDERS q) s2 Hw2 (or_introl eq_refl)) as Has.
      rewrite E2. cbn [obind]. set (s3 := roused (WQ_HOLDERS q) s2) in *.
      change (task_list (wqhs s2 (WQ_HOLDERS q))) with (holding s1 q) in R1, R4. rewrite Hh in R1, R4.
      destruct (retire_run fuel c q s3) as (s4 & E4 & Hw4 & Hrt & Hkp & Ht); [done| |exact R1|unfold contending; by rewrite R2|].
      { by apply (aside_returnable q s2 s3 Has), (returnable_ext q s1). }
      unfold mbind, prog_bind in E4. rewrite E4. cbn [obind]. rewrite head_unlock_run by done. cbn [obind].
      exists (let_go (MX_QHEAD c) s4). split; [done|]. split; [by apply at_rest_again|]. split.
      * destruct Hrt as (T1 & T2). split; [|done]. destruct (as_store _ _ _ Has) as (Hcs & _).
        change (conts (let_go (MX_QHEAD c) s4)) with (conts s4). by rewrite T1, Hcs.
      * change (holding s q) with (holding s1 q). rewrite Hh. intros h' ->%list_elem_of_singleton.
        rewrite let_go_state, Ht. by apply R4.
  - destruct Hb as (Hh & Ho & Hc). rewrite Hh. change (negb (Z.of_nat (length (@nil Z)) =? 0)) with false. exec.
    replace (1 <? d) with false by lia. replace (d =? 1) with false by lia.
    destruct (unlock_and_wait_run c (WQ_CONTENDERS q) s1 Hw) as (q0 & Hq0 & E & Hs' & Hq'); [done|].
    destruct (left_waiting_facts c (WQ_CONTENDERS q) q0 s1 Hw) as (F1 & F2 & F3 & F4 & F5 & F6); [done..|].
    eexists. split; [exact E|]. split; [exact F1|]. split; [exact F2|]. split; [|exact F3].
    unfold balance. replace (0 <? d - 1) with false by lia. split; [unfold holding; by rewrite F4|].
    split; [unfold owed; by rewrite F5|]. unfold contending. rewrite F3, length_app. fold (contending s1 q). cbn. lia.
Qed.

(** The unlocker's part up to the wake-ups: its contenders are added to the
    debt, an unlocker that slept is let go, and contenders are woken. *)
Definition unlock_wakes (fuel : nat) (q n : Z) : K unit :=
  mqmod q (fun x => x <| contenders ::= fun m => s32 (m + n) |>) ;;
  holders ← gets (fun s => sleepers (wqhs s (WQ_HOLDERS q)));
  when (negb (holders =? 0)) (wake_async (WQ_HOLDERS q)) ;;
  wake_contenders fuel q.

Lemma sleeper_not_current s h u : sched_inv s -> state (tcbs s (current s)) = TASK_RUNNABLE ->
  u ∈ task_list (wqhs s h) -> u <> current s.
Proof.
  intros Hs Hr Hu ->. apply (si_wq _ _ Hs) in Hu. destruct (waiting_facts _ _ _ Hs Hu) as (Hsl & _). congruence.
Qed.

Lemma unlock_wakes_run fuel c q n d s :
  working c s -> balance q d s -> 0 <= n -> Z.max 0 d + n < 2 ^ 31 -> (length (contending s q) <= fuel)%nat ->
  exists s', unlock_wakes fuel q n s = Ret tt s' /\ working c s' /\ aside q s s' /\ holding s' q = []
    /\ owed s' q = Z.max 0 (d + n) /\ contending s' q = drop (Z.to_nat n) (contending s q)
    /\ forall u, u ∈ holding s q ++ take (Z.to_nat n) (contending s q) -> state (tcbs s' u) = TASK_RUNNABLE.
Proof.
  intros Hw Hb Hn Hd Hf. set (s2 := set_owed q (fun m => s32 (m + n)) s).
  assert (working c s2) as Hw2 by by apply working_mq.
  assert (owed s q = Z.max 0 d /\ Z.of_nat (length (contending s q)) = Z.max 0 (- d)
    /\ (holding s q = [] \/ exists h, holding s q = [h])) as (Ho & Hl & Hh).
  { unfold balance in Hb. destruct (Z.ltb_spec 0 d).
    - destruct Hb as (Hh & -> & ->). split; [lia|]. split; [cbn; lia|by right].
    - destruct Hb as (Hh & -> & Hl). split; [lia|]. split; [lia|by left]. }
  assert (owed s2 q = Z.max 0 d + n) as Ho2 by (unfold s2; rewrite owed_set, s32_id; lia).
  set (s3 := roused (WQ_HOLDERS q) s2).
  destruct (wake_async_run c (WQ_HOLDERS q) s2 Hw2) as [E3 Hw3]; [done|].
  destruct (roused_lists c q (WQ_HOLDERS q) s2 Hw2) as (R1 & R2 & R3 & R4); [by left|].
  pose proof (aside_roused c q (WQ_HOLDERS q) s2 Hw2 (or_introl eq_refl)) as Ha3. fold s3 in E3, Hw3, R1, R2, R3, R4, Ha3.
  change (task_list (wqhs s2 (WQ_HOLDERS q))) with (holding s q) in R1, R4.
  assert (contending s3 q = contending s q) as Ec3 by (unfold contending; by rewrite R2).
  assert (owed s3 q = Z.max 0 d + n) as Eo3 by by rewrite R3.
  destruct (wake_contenders_run c q fuel s3 Hw3) as (s4 & G1 & G2 & G3 & G4 & G5 & G6 & G7);
    [lia|by rewrite Ec3|].
  assert (woken_count s3 q = Nat.min (Z.to_nat n) (length (contending s q))) as Ek.
  { unfold woken_count. rewrite Ec3, Eo3. destruct (contending s q); [by rewrite !Nat.min_0_r|]. f_equal. cbn in Hl. lia. }
  assert (take (woken_count s3 q) (contending s q) = take (Z.to_nat n) (contending s q)
    /\ drop (woken_count s3 q) (contending s q) = drop (Z.to_nat n) (contending s q)) as [Et Ed].
  { rewrite Ek. destruct (Nat.min_spec (Z.to_nat n) (length (contending s q))) as [[_ ->]|[? ->]]; [done|].
    by rewrite !take_ge, !drop_ge by lia. }
  exists s4. split_and!; [|done| | | | |].
  - exec unlock_wakes. change (with_mq q _ s) with s2. rewrite (wqi_sleepers _ (si_wq _ _ (wk_inv c s2 Hw2))).
    change (task_list (wqhs s2 (WQ_HOLDERS q))) with (holding s q).
    assert (holding s q = [] -> s3 = s2) as Es3.
    { intros E. unfold s3, roused. change (task_list (wqhs s2 (WQ_HOLDERS q))) with (holding s q). by rewrite E. }
    destruct Hh as [Hh|[h Hh]]; rewrite Hh; [rewrite (Es3 Hh) in G1; exact G1|].
    change (negb (Z.of_nat (length [h]) =? 0)) with true. cbv iota. rewrite E3. exact G1.
  - apply (aside_trans _ _ s2); [apply aside_owed|]. by apply (aside_trans _ _ s3).
  - rewrite G4. unfold holding at 1. rewrite R1. by destruct Hh as [-> | [h ->]].
  - rewrite G6, Eo3, Ek. lia.
  - by rewrite G5, Ec3, Ed.
  - rewrite Ec3, Et in G7. intros u [Hu|Hu]%elem_of_app; [|by apply G7]. apply (as_awake _ _ _ G3).
    apply R4. destruct Hh as [Hh|[h Hh]]; rewrite Hh in Hu |- *; [by apply elem_of_nil in Hu|].
    by apply list_elem_of_singleton in Hu as ->.
Qed.

Lemma unlock_wakes_bind {A} fuel c q n (k : K A) s : working c s ->
  (mqmod q (fun x => x <| contenders ::= fun m => s32 (m + n) |>) ;;
   holders ← gets (fun s => sleepers (wqhs s (WQ_HOLDERS q)));
   when (negb (holders =? 0)) (wake_async (WQ_HOLDERS q)) ;;
   wake_contenders fuel q ;; k) s = obind (unlock_wakes fuel q n s) (fun _ => k).
Proof.
  intros Hw. exec unlock_wakes. set (s2 := with_mq q _ s).
  assert (working c s2) as Hw2 by by apply working_mq.
  destruct (wake_async_run c (WQ_HOLDERS q) s2 Hw2) as [E3 _]; [done|].
  destruct (negb _); cbv iota; rewrite ?E3; done.
Qed.

(** An unlocker that comes with [n] contenders to wake brings the balance
    from [d] to [d + n].  It wakes as many sleeping contenders as it has to, in
    their order of arrival, and lets an unlocker that slept go.  If more are to
    come it takes over the waiting, asleep with the lock of the queues let go;
    else it returns, and deletes the queue when the balance is nought. *)
Lemma mutex_control_unlock_adds (fuel : nat) (c addr q d n : Z) (s : kstate) (Ha : arrival c addr q d s)
    (Hn : 0 <= n) (Hmax : Z.max 0 d + n < 2 ^ 31) (Hf : (length (contending s q) <= fuel)%nat) :
  if 0 <? d + n then
    exists s1, mutex_control_unlock fuel c addr n s = Switch s1 check_interrupted /\ steady (idle s) s1
      /\ mutexes s1 (MX_QHEAD c) = MUTEX_UNLOCKED /\ balance q (d + n) s1 /\ holding s1 q = [current s]
      /\ forall u, u ∈ holding s q ++ contending s q -> state (tcbs s1 u) = TASK_RUNNABLE
  else exists s', mutex_control_unlock fuel c addr n s = Ret 0 s' /\ at_rest c s'
      /\ (if d + n =? 0 then retired c q s s' else balance q (d + n) s')
      /\ contending s' q = drop (Z.to_nat n) (contending s q)
      /\ forall u, u ∈ take (Z.to_nat n) (contending s q) -> state (tcbs s' u) = TASK_RUNNABLE.
Proof.
  destruct (arrival_opens fuel c addr q d s Ha) as (E1 & Hw & Ef & Hb & Hk). set (s1 := taken (MX_QHEAD c) s) in *.
  destruct (unlock_wakes_run fuel c q n d s1 Hw Hb Hn Hmax Hf) as (s2 & E2 & Hw2 & Has & Hh & Ho & Hc & Haw).
  change (contending s1 q) with (contending s q) in Hc, Haw. change (holding s1 q) with (holding s q) in Haw.
  assert (Z.of_nat (length (contending s q)) = Z.max 0 (- d)) as Hl.
  { unfold balance in Hb. destruct (Z.ltb_spec 0 d); [destruct Hb as (_ & E & _)|destruct Hb as (_ & _ & E)];
      change (contending s1 q) with (contending s q) in E; [rewrite E; cbn; lia|lia]. }
  unfold mutex_control_unlock. rewrite (bind_ret _ _ _ _ _ E1), (bind_ret _ _ _ _ _ Ef).
  rewrite (proj2 (Z.eqb_neq q 0)) by apply (av_queue _ _ _ _ _ Ha).
  rewrite (unlock_wakes_bind fuel c) by done. rewrite E2. cbn [obind]. exec. fold (owed s2 q). rewrite Ho.
  destruct (Z.ltb_spec 0 (d + n)) as [Hd|Hd].
  - replace (Z.max 0 (d + n) =? 0) with false by lia. exec.
    destruct (unlock_and_wait_run c (WQ_HOLDERS q) s2 Hw2) as (q0 & Hq0 & E & Hs' & Hq'); [done|].
    destruct (left_waiting_facts c (WQ_HOLDERS q) q0 s2 Hw2) as (F1 & F2 & F3 & F4 & F5 & F6); [done..|].
    pose proof (as_keeps _ _ _ Has) as (Kc & Ki & _).
    assert (holding (schedule_spec (left_waiting c (WQ_HOLDERS q) q0 s2)) q = [current s]) as Hh'.
    { unfold holding. rewrite F3. fold (holding s2 q). by rewrite Hh, Kc. }
    eexists. split; [exact E|]. rewrite Ki in F1. split; [exact F1|]. split; [exact F2|]. split; [|split; [exact Hh'|]].
    + unfold balance. rewrite (proj2 (Z.ltb_lt _ _) Hd). split; [by exists (current s)|]. split.
      * unfold contending. rewrite F4 by done. fold (contending s2 q). rewrite Hc. apply drop_ge. lia.
      * unfold owed. rewrite F5. fold (owed s2 q). lia.
    + intros u Hu. rewrite F6.
      * apply Haw. rewrite take_ge by lia. exact Hu.
      * rewrite Kc. apply elem_of_app in Hu as [Hu|Hu];
          [apply (sleeper_not_current s1 (WQ_HOLDERS q))|apply (sleeper_not_current s1 (WQ_CONTENDERS q))];
          (exact (wk_inv c s1 Hw) || exact (wk_state c s1 Hw) || exact Hu).
  - replace (Z.max 0 (d + n) =? 0) with true by lia. exec.
    rewrite (wqi_sleepers _ (si_wq _ _ (wk_inv c s2 Hw2))). fold (contending s2 q). rewrite Hc.
    destruct (Z.eqb_spec (d + n) 0) as [Hz|Hz].
    + assert (drop (Z.to_nat n) (contending s q) = []) as Ed by (apply drop_ge; lia). rewrite Ed in Hc |- *.
      change (Z.of_nat (length (@nil Z)) =? 0) with true. exec.
      destruct (retire_run fuel c q s2) as (s3 & E3 & Hw3 & Hrt & _ & Ht); [done|by apply (aside_returnable q s1)|done|done|].
      unfold mbind, prog_bind in E3. rewrite E3. cbn [obind]. rewrite head_unlock_run by done. cbn [obind].
      exists (let_go (MX_QHEAD c) s3). split; [done|]. split; [by apply at_rest_again|]. destruct Hrt as (T1 & T2 & T3 & T4).
      split; [|split; [exact T4|]].
      * split; [|done]. destruct (as_store _ _ _ Has) as (Hcs & _).
        change (conts (let_go (MX_QHEAD c) s3)) with (conts s3). by rewrite T1, Hcs.
      * intros u Hu. rewrite let_go_state, Ht. apply Haw, elem_of_app. by right.
    + rewrite (proj2 (Z.eqb_neq (Z.of_nat (length (drop (Z.to_nat n) (contending s q)))) 0)) by (rewrite length_drop; lia). exec.
      rewrite head_unlock_run by done. cbn [obind].
      exists (let_go (MX_QHEAD c) s2). split; [done|]. split; [by apply at_rest_again|]. split; [|split; [exact Hc|]].
      * unfold balance. rewrite (proj2 (Z.ltb_ge _ _) Hd). split; [exact Hh|]. split; [change (owed s2 q = 0); lia|].
        change (contending (let_go (MX_QHEAD c) s2) q) with (contending s2 q). rewrite Hc, length_drop. lia.
      * intros u Hu. rewrite let_go_state. apply Haw, elem_of_app. by right.
Qed.

(** * A queue of the demo system

    Task 48 sleeps on one of the two wait queues of the mutex queue at 2048. *)
Definition demo_contended (h : wqh_ref) (n : Z) : kstate :=
  with_cont 512 (fun x => x <| mq_list := [2048] |> <| mq_count := 1 |>)
    (with_mq 2048 (fun _ => MkMq n 0x5000)
    (with_cache MUTEX_CACHE (fun _ => MkCache 4 3 2048 2240 48 [1])
    (with_caps (CL_SPACE 256) (fun _ => MkCapList 1 [1024])
    (with_cap 1024 (fun _ => MkCap 1 1 0 (Z.lor CAP_TYPE_QUANTITY CAP_RTYPE_MUTEXPOOL) 0 0 0 2 1) (demo_on h))))).
Lemma demo_contended_arrival h n d :
  task_list (wqhs (demo_on h) (WQ_MUTEX (MX_QHEAD 512))) = [] ->
  task_list (wqhs (demo_on h) (WQ_MUTEX (MX_CACHE MUTEX_CACHE))) = [] ->
  balance 2048 d (demo_contended h n) -> arrival 512 0x5000 2048 d (demo_contended h n).
Proof.
  intros H1 H2 Hb.
  assert (sched_inv (demo_contended h n)) as Hs by (apply (sinv_ext None (demo_on h)); [done..|]; apply demo_on_inv).
  split; [split| | |exact Hb|split].
  - split; done.
  - done.
  - by split.
  - done.
  - exact H1.
  - done.
  - by vm_compute.
  - done.
  - done.
  - exact H2.
  - split; (done || by vm_compute).
  - exists 0. by vm_compute.
  - by vm_compute.
Qed.
