(* ===== verification/Newqueue.v ===== *)
(** The first thread to come to the kernel for a userspace mutex: the queue of
    the mutex is created by [mutex_control_create] of [src/api/mutex.c], put on
    the container's list, and the thread sleeps on it. *)
From S2P Require Import Prelude Bits Defs Kernel Exec Sched SchedInv SchedOps Schedule Fairness Demo Waiting Alloc Mutexes Caches Caps Authority Tcb Umutex Contention.

(** * Comparing states pointwise *)

Lemma wq_inv_pointwise s s' :
  (forall u, tcbs s' u = tcbs s u) -> (forall h, wqhs s' h = wqhs s h) -> wq_inv s -> wq_inv s'.
Proof.
  intros Et Ew [H1 H2 H3 H4].
  split; intros *; rewrite ?Et, ?Ew; [apply H1|apply H2|apply H3|apply H4].
Qed.
Lemma sinv_pointwise_wq s s' :
  current s' = current s -> tcbs s' = tcbs s -> sched s' = sched s -> (forall h, wqhs s' h = wqhs s h) ->
  sched_inv s -> sched_inv s'.
Proof.
  intros Ec Et Es Ew [H1 H2 H3 H4 H5 H6 H7 H8 H9]. unfold idle in *.
  split; unfold idle in *; rewrite ?Ec, ?Et, ?Es; try done.
  - by apply (rq_inv_ext s).
  - apply (wq_inv_pointwise s); [by intros; rewrite Et|done|done].
Qed.
Lemma working_pointwise c s s' : working c s -> sched_inv s' ->
  (forall u, tcbs s' u = tcbs s u) -> (forall h, wqhs s' h = wqhs s h) -> sched s' = sched s ->
  (forall m, mutexes s' m = mutexes s m) -> keeps s s' -> working c s'.
Proof.
  intros [A1 A2 A3 A4 A5 A6 A7 [Q1 Q2 Q3] A9] Hs Et Ew Es Em (K1 & K2 & K3 & K4).
  split; rewrite ?Et, ?Ew, ?Em, ?K1, ?K2, ?K3, ?K4; try done.
  split; rewrite ?Et, ?Es, ?K1; done.
Qed.

(** * The pool of queues *)

(** The current task has a capability for mutex queues, with room for one
    more. *)
Definition mutex_room (s : kstate) : bool :=
  negb (mutex_pool s =? 0)
  && negb (csize (capmem s (mutex_pool s)) <? u32 (used (capmem s (mutex_pool s)) + 1)).
(** Nobody is at the cache of queues; it lies in the kernel's memory; nobody
    sleeps on a queue that is not in use, and those on the container's list are. *)
Record pool_ready (c : Z) (s : kstate) : Prop := {
  pd_free : mutexes s (MX_CACHE MUTEX_CACHE) = MUTEX_UNLOCKED;
  pd_queue : task_list (wqhs s (WQ_MUTEX (MX_CACHE MUTEX_CACHE))) = [];
  pd_cache : cache_inv (caches s MUTEX_CACHE);
  pd_memory : 0 < mc_start (caches s MUTEX_CACHE) /\ mc_end (caches s MUTEX_CACHE) <= KERNEL_AREA_END;
  pd_left : mutex_room s = true -> 0 < mc_free (caches s MUTEX_CACHE);
  pd_unused : forall q, (in_use (caches s MUTEX_CACHE) q -> False) -> holding s q = [] /\ contending s q = [];
  pd_listed : forall q, q ∈ mq_list (conts s c) -> in_use (caches s MUTEX_CACHE) q }.

Lemma mutex_pool_taken m s : mutex_pool (taken m s) = mutex_pool s.
Proof.
  unfold mutex_pool. change (current (taken m s)) with (current s).
  assert (forall u, space (tcbs (taken m s) u) = space (tcbs s u) /\ container (tcbs (taken m s) u) = container (tcbs s u)) as Eu
    by (intros u; cbn; by rewrite (upd_same space), (upd_same container)).
  rewrite !(proj1 (Eu _)), !(proj2 (Eu _)). change (caplists (taken m s)) with (caplists s).
  assert (forall p l, first_cap (taken m s) p l = first_cap s p l) as Ef by (intros p l; induction l as [|x l IH]; cbn; by rewrite ?IH).
  by rewrite !Ef.
Qed.
Lemma mutex_room_taken m s : mutex_room (taken m s) = mutex_room s.
Proof. unfold mutex_room. by rewrite mutex_pool_taken. Qed.
Lemma pool_ready_taken c s : pool_ready c s -> pool_ready c (taken (MX_QHEAD c) s).
Proof.
  intros []. split; try done; by rewrite mutex_room_taken.
Qed.

Lemma queue_not_error m b : cache_inv m -> 0 < mc_start m -> mc_end m <= KERNEL_AREA_END -> 0 <= b < mc_total m ->
  (cache_addr m b =? 0) || IS_ERR (cache_addr m b) = false.
Proof.
  intros Hi H1 H2 Hb. destruct (cache_addr_exact m b Hi Hb) as (_ & H3 & H4). pose proof (ci_size _ Hi).
  generalize dependent (cache_addr m b). intros a H3 H4. unfold KERNEL_AREA_END in H2.
  apply orb_false_iff. split; [by apply Z.eqb_neq; lia|].
  unfold IS_ERR, is_err, s32. apply andb_false_iff. destruct (Z.ltb_spec a (2 ^ 31)).
  - left. apply Z.ltb_ge. rewrite Z.mod_small by lia. lia.
  - right. apply Z.ltb_ge. replace (a + 2 ^ 31) with (a - 2 ^ 31 + 1 * 2 ^ 32) by lia.
    rewrite Z.mod_add, Z.mod_small by lia. lia.
Qed.

(** * Making a queue *)

(** The queue [q] is new at [s']: its memory was not in use, it is named by
    [addr], it owes [n] wake-ups and nobody sleeps on it. *)
Record made (addr q n : Z) (s s' : kstate) : Prop := {
  md_nonzero : q <> 0;
  md_fresh : in_use (caches s MUTEX_CACHE) q -> False;
  md_used : forall x, in_use (caches s' MUTEX_CACHE) x <-> x = q \/ in_use (caches s MUTEX_CACHE) x;
  md_mq : mqs s' q = MkMq n addr;
  md_others : forall x, x <> q -> mqs s' x = mqs s x;
  md_wqhs : forall h, wqhs s' h = wqhs s h;
  md_empty : holding s' q = [] /\ contending s' q = [];
  md_keeps : keeps s s';
  md_conts : conts s' = conts s }.

Lemma mutex_cap_alloc_refused fuel s : mutex_room s = false -> mutex_cap_alloc fuel s = Ret 0 s.
Proof.
  unfold mutex_room. intros H. exec mutex_cap_alloc cap_find_by_rtype cap_alloc_from. fold (mutex_pool s).
  destruct (mutex_pool s =? 0); [done|]. rewrite capability_consume_run.
  destruct (csize _ <? _); [done|discriminate H].
Qed.

Lemma empty_queues s q : sched_inv s -> holding s q = [] -> contending s q = [] ->
  wqhs s (WQ_HOLDERS q) = MkWqh 0 [] /\ wqhs s (WQ_CONTENDERS q) = MkWqh 0 [].
Proof.
  intros Hs Hh Hc. unfold holding, contending in *.
  pose proof (wqi_sleepers _ (si_wq _ _ Hs) (WQ_HOLDERS q)) as S1.
  pose proof (wqi_sleepers _ (si_wq _ _ Hs) (WQ_CONTENDERS q)) as S2. rewrite Hh in S1. rewrite Hc in S2.
  destruct (wqhs s (WQ_HOLDERS q)), (wqhs s (WQ_CONTENDERS q)). cbn in *. by subst.
Qed.

(** The memory of a new queue cleared and made a queue. *)
Definition made_queue (addr q : Z) (s : kstate) : kstate :=
  with_wqh (WQ_CONTENDERS q) (fun _ => MkWqh 0 []) (with_wqh (WQ_HOLDERS q) (fun _ => MkWqh 0 [])
    (with_mq q (fun x => x <| physical := addr |>) (zero_object MUTEX_CACHE q s))).
Lemma made_queue_same addr q s : let s' := made_queue addr q s in
  current s' = current s /\ tcbs s' = tcbs s /\ sched s' = sched s /\ mutexes s' = mutexes s /\ keeps s s'
  /\ caches s' = caches s /\ conts s' = conts s.
Proof. done. Qed.
Lemma made_queue_wqhs addr q s h : wqhs s (WQ_HOLDERS q) = MkWqh 0 [] -> wqhs s (WQ_CONTENDERS q) = MkWqh 0 [] ->
  wqhs (made_queue addr q s) h = wqhs s h.
Proof.
  intros F1 F2. unfold made_queue. cbn.
  destruct (decide (WQ_CONTENDERS q = h)) as [<-|]; [by rewrite !upd_eq|rewrite upd_ne by done].
  destruct (decide (WQ_HOLDERS q = h)) as [<-|]; [by rewrite !upd_eq|by rewrite !upd_ne].
Qed.
Lemma made_queue_mqs addr q s x : mqs (made_queue addr q s) x = if decide (q = x) then MkMq 0 addr else mqs s x.
Proof. unfold made_queue. cbn. destruct (decide _) as [<-|]; [by rewrite !upd_eq|by rewrite !upd_ne]. Qed.

Section Create.
Context (fuel : nat) (c addr : Z) (s : kstate) (Hw : working c s) (Hp : pool_ready c s) (Hr : mutex_room s = true).

(** The cache gives the element [b], is cleared, and is made a queue. *)
#[local] Abbreviation charged := (charge (mutex_pool s) 1 s).
#[local] Abbreviation given b := (allocated MUTEX_CACHE b charged).
Definition created (b : Z) : kstate := made_queue addr (cache_addr (caches s MUTEX_CACHE) b) (given b).

Lemma charged_uncontended : uncontended MUTEX_CACHE charged.
Proof using Hw Hp.
  split; [apply (sinv_ext None s); try done; apply (wk_inv c s Hw)|apply (pd_free c s Hp)|apply (pd_queue c s Hp)|].
  pose proof (wk_nlocks c s Hw). cbn. lia.
Qed.
Lemma given_same b : same_but_caches charged (given b).
Proof using Hp. apply lock_unlock_same; try done. apply (pd_free c s Hp). Qed.
Lemma created_wqhs b h : (in_use (caches s MUTEX_CACHE) (cache_addr (caches s MUTEX_CACHE) b) -> False) ->
  wqhs (created b) h = wqhs s h.
Proof using Hw Hp.
  intros Hn. destruct (pd_unused c s Hp _ Hn) as [E1 E2].
  destruct (empty_queues s _ (wk_inv c s Hw) E1 E2) as [F1 F2]. pose proof (sc_wqhs _ _ (given_same b)) as E.
  unfold created. by rewrite made_queue_wqhs, E by (rewrite E; done).
Qed.
Lemma created_working b : (in_use (caches s MUTEX_CACHE) (cache_addr (caches s MUTEX_CACHE) b) -> False) ->
  sched_inv (given b) -> working c (created b) /\ keeps s (created b).
Proof using Hw Hp.
  intros Hn Hi. destruct (given_same b) as [S1 S2 S3 S4 S5 S6].
  destruct (made_queue_same addr (cache_addr (caches s MUTEX_CACHE) b) (given b)) as (M1 & M2 & M3 & M4 & M5 & _).
  assert (keeps s (created b)) as Hk by exact (keeps_trans _ _ _ S5 M5).
  split; [|done]. apply (working_pointwise c s); [exact Hw| | |intros h; by apply created_wqhs| | |exact Hk].
  - apply (sinv_pointwise_wq (given b)); [exact M1|exact M2|exact M3| |exact Hi]. intros h. rewrite created_wqhs by done. by rewrite S3.
  - intros u. unfold created. rewrite M2. apply S1.
  - unfold created. rewrite M3. exact S4.
  - intros m. unfold created. rewrite M4. apply S2.
Qed.

Lemma mutex_control_create_run :
  exists q s', mutex_control_create fuel addr s = Ret q s' /\ working c s' /\ made addr q 0 s s'.
Proof using Hw Hp Hr.
  pose proof Hr as Hroom. unfold mutex_room in Hroom. apply andb_true_iff in Hroom as [Hr1%negb_true_iff Hr2%negb_true_iff].
  pose proof (pd_cache c s Hp) as Hc. pose proof (pd_memory c s Hp) as [Hm1 Hm2].
  destruct (mem_cache_alloc_run fuel MUTEX_CACHE charged charged_uncontended Hc (pd_left c s Hp Hr)) as (b & Hb & Hclr & Er & Hu & Ht & _).
  change (caches charged) with (caches s) in *. set (q := cache_addr (caches s MUTEX_CACHE) b) in *.
  pose proof (queue_not_error _ b Hc Hm1 Hm2 Hb) as Hne. destruct (cache_addr_exact _ b Hc Hb) as (Ea & Hlo & _). fold q in Hne, Ea, Hlo.
  pose proof (ci_size _ Hc) as Hsz.
  assert (in_use (caches s MUTEX_CACHE) q -> False) as Hn.
  { intros (j & Hj & Hset & Ej). assert (j = b) as -> by nia. congruence. }
  destruct (given_same b) as [_ _ _ _ _ (S6 & S7 & _)].
  destruct (made_queue_same addr q (given b)) as (_ & _ & _ & _ & _ & M6 & M7).
  destruct (created_working b Hn (uc_inv _ _ Hu)) as [Hcw Hck].
  exists q, (created b). split; [|split; [exact Hcw|]].
  - exec mutex_control_create mutex_cap_alloc. exec cap_find_by_rtype cap_alloc_from. fold (mutex_pool s). rewrite Hr1.
    rewrite capability_consume_run, Hr2. cbn [obind]. change (0 <? 0) with false. cbv beta iota. exec mem_cache_zalloc.
    rewrite Er. cbn [obind]. rewrite Hne. cbn [obind]. rewrite (proj2 (Z.eqb_neq q 0)) by lia.
    exec mutex_queue_init waitqueue_head_init. reflexivity.
  - split; [lia|done| | | |intros h; by apply created_wqhs| |exact Hck|exact (eq_trans M7 S6)]; unfold created; fold q.
    + intros x. rewrite M6, Ht, in_use_take by done. by rewrite <- Ea.
    + by rewrite made_queue_mqs, decide_True.
    + intros x Hx. by rewrite made_queue_mqs, decide_False, S7 by done.
    + change (holding (created b) q = [] /\ contending (created b) q = []). unfold holding, contending. rewrite !created_wqhs by done. by apply (pd_unused c s Hp).
Qed.
End Create.

(** * Coming first *)

(** The lock is free, the mutex has no queue yet, and one can be made. *)
Record first_comer (c addr : Z) (s : kstate) : Prop := {
  fc_rest : at_rest c s;
  fc_find : mutex_control_find c addr s = Ret 0 s;
  fc_pool : pool_ready c s }.
(** [q] is a queue made since [s], the one that is found for [addr]. *)
Record new_queue (c addr q : Z) (s s1 : kstate) : Prop := {
  nq_fresh : in_use (caches s MUTEX_CACHE) q -> False;
  nq_used : in_use (caches s1 MUTEX_CACHE) q;
  nq_listed : mq_list (conts s1 c) = q :: mq_list (conts s c);
  nq_found : mutex_control_find c addr s1 = Ret q s1 }.
(** What a refused call leaves as it was. *)
Definition untouched (s s' : kstate) : Prop :=
  conts s' = conts s /\ mqs s' = mqs s /\ caches s' = caches s /\ wqhs s' = wqhs s.

Lemma first_comer_opens fuel c addr s : first_comer c addr s ->
  let s1 := taken (MX_QHEAD c) s in
  mutex_queue_head_lock fuel c s = Ret tt s1 /\ working c s1 /\ mutex_control_find c addr s1 = Ret 0 s1
  /\ pool_ready c s1 /\ mutex_room s1 = mutex_room s.
Proof.
  intros [Hr Hf Hp] s1. destruct (head_lock_run fuel c s Hr) as [E Hw].
  split_and!; [done|done|by apply find_taken|by apply pool_ready_taken|apply mutex_room_taken].
Qed.

(** The queue on the container's list. *)
Definition listed (c q : Z) (s : kstate) : kstate :=
  with_cont c (fun x => x <| mq_count ::= Z.succ |>) (with_cont c (fun x => x <| mq_list ::= cons q |>) s).
Lemma mutex_control_add_run c q s : q ∉ mq_list (conts s c) -> mutex_control_add c q s = Ret tt (listed c q s).
Proof. intros Hq. exec mutex_control_add. by rewrite bool_decide_false. Qed.

Lemma made_owed addr q n s s' : made addr q 0 s s' -> made addr q n s (set_owed q (fun _ => n) s').
Proof.
  intros [M1 M2 M3 M4 M5 M6 M7 M8 M9]. split; try done.
  - cbn. by rewrite upd_eq, M4.
  - intros x Hx. cbn. rewrite upd_ne by done. by apply M5.
Qed.
Lemma made_unlisted c addr q n s s' : pool_ready c s -> made addr q n s s' -> q ∉ mq_list (conts s' c).
Proof. intros Hp Hm Hq. rewrite (md_conts _ _ _ _ _ Hm) in Hq. by apply (md_fresh _ _ _ _ _ Hm), (pd_listed c s Hp). Qed.

Section Join.
Context (c addr q n : Z) (h : wqh_ref) (s0 s' : kstate).
Context (Hm : made addr q n s0 s') (Hw : working c s') (Hh : h <> WQ_MUTEX (MX_QHEAD c)).
#[local] Abbreviation joined := (listed c q s').

Lemma joined_working : working c joined.
Proof using Hw. by repeat apply working_cont. Qed.
(** The thread sleeps on one of the queues of [q], the lock let go. *)
Lemma join_run :
  exists s1, unlock_and_wait c h joined = Switch s1 check_interrupted /\ steady (idle s0) s1
    /\ mutexes s1 (MX_QHEAD c) = MUTEX_UNLOCKED /\ new_queue c addr q s0 s1 /\ owed s1 q = n
    /\ task_list (wqhs s1 h) = task_list (wqhs s0 h) ++ [current s0] /\ forall h', h' <> h -> wqhs s1 h' = wqhs s0 h'.
Proof using Hm Hw Hh.
  destruct Hm as [M1 M2 M3 M4 M5 M6 M7 (Kc & Ki & _) M9].
  destruct (unlock_and_wait_run c h joined joined_working Hh) as (q0 & Hq0 & E & Hs' & Hq').
  destruct (left_waiting_facts c h q0 joined joined_working Hh Hq0 Hs' Hq') as (F1 & F2 & F3 & F4 & F5 & _).
  pose proof (schedule_store _ Hq') as Est. unfold store in Est.
  set (s1 := schedule_spec (left_waiting c h q0 joined)) in *.
  assert (conts s1 = conts joined) as Ec by (change (conts joined) with (conts (left_waiting c h q0 joined)); congruence).
  assert (caches s1 = caches s') as Ek by (change (caches s') with (caches (left_waiting c h q0 joined)); congruence).
  clear Est. change (idle joined) with (idle s') in F1. rewrite Ki in F1.
  assert (mqs s1 q = MkMq n addr) as Eq by (rewrite F5; exact M4).
  assert (mq_list (conts s1 c) = q :: mq_list (conts s0 c)) as El by (rewrite Ec; cbn; rewrite !upd_eq, <- M9; done).
  exists s1. split_and!; [exact E|exact F1|exact F2| | | |].
  - split; [exact M2|rewrite Ek; apply M3; by left|exact El|].
    unfold mutex_control_find, gets. rewrite El. cbn [list_find]. rewrite Eq.
    rewrite decide_True by (cbn; apply Is_true_true, Z.eqb_refl). reflexivity.
  - unfold owed. by rewrite Eq.
  - rewrite F3. change (wqhs joined) with (wqhs s'). change (current joined) with (current s'). by rewrite M6, Kc.
  - intros h' Hne. rewrite F4 by done. apply M6.
Qed.
End Join.

(** The call of a thread that comes first and finds no room for a queue. *)
Lemma refused_at_rest c s : at_rest c s ->
  at_rest c (let_go (MX_QHEAD c) (taken (MX_QHEAD c) s)) /\ untouched s (let_go (MX_QHEAD c) (taken (MX_QHEAD c) s)).
Proof. intros Hr. destruct (head_lock_run 0 c s Hr) as [_ Hw]. split; [by apply at_rest_again|done]. Qed.
Lemma mutex_control_create_refused fuel addr s : mutex_room s = false -> mutex_control_create fuel addr s = Ret 0 s.
Proof. intros H. exec mutex_control_create. by rewrite mutex_cap_alloc_refused. Qed.

Section First.
Context (fuel : nat) (c addr : Z) (s : kstate) (Hf : first_comer c addr s).

(** Asleep on queue [h q] of a new queue that owes [n] wake-ups, or refused for
    want of a queue. *)
Definition asleep_first (h : Z -> wqh_ref) (n : Z) (r : outcome kstate Z) : Prop :=
  if mutex_room s then
    exists q s1, r = Switch s1 check_interrupted /\ steady (idle s) s1 /\ mutexes s1 (MX_QHEAD c) = MUTEX_UNLOCKED
      /\ new_queue c addr q s s1 /\ owed s1 q = n /\ task_list (wqhs s1 (h q)) = [current s]
      /\ forall h', h' = WQ_HOLDERS q \/ h' = WQ_CONTENDERS q -> h' <> h q -> task_list (wqhs s1 h') = []
  else exists s', r = Ret (- ENOMEM) s' /\ at_rest c s' /\ untouched s s'.

Lemma mutex_control_lock_first : asleep_first WQ_CONTENDERS 0 (mutex_control_lock fuel c addr s).
Proof using Hf.
  destruct (first_comer_opens fuel c addr s Hf) as (E1 & Hw & Ef & Hp & Er). set (s1 := taken (MX_QHEAD c) s) in *.
  unfold asleep_first, mutex_control_lock. rewrite (bind_ret _ _ _ _ _ E1), (bind_ret _ _ _ _ _ Ef).
  change (0 =? 0) with true. cbv iota. destruct (mutex_room s).
  - destruct (mutex_control_create_run fuel c addr s1 Hw Hp Er) as (q & s2 & E2 & Hw2 & Hm).
    rewrite (bind_ret _ _ _ _ _ E2), (proj2 (Z.eqb_neq q 0)) by apply (md_nonzero _ _ _ _ _ Hm).
    rewrite (bind_ret _ _ _ _ _ (mutex_control_add_run c q s2 (made_unlisted _ _ _ _ _ _ Hp Hm))).
    destruct (join_run c addr q 0 (WQ_CONTENDERS q) s1 s2 Hm Hw2) as (s3 & E & F1 & F2 & [N1 N2 N3 N4] & F4 & F5 & F6); [done|].
    destruct (pd_unused c s1 Hp q (md_fresh _ _ _ _ _ Hm)) as [U1 U2]. unfold holding, contending in U1, U2.
    exists q, s3. split_and!; [exact E|exact F1|exact F2|by split|exact F4|by rewrite F5, U2|].
    intros h' [->| ->] Hne; [by rewrite F6, U1|done].
  - rewrite (bind_ret _ _ _ _ _ (mutex_control_create_refused fuel addr s1 Er)). change (0 =? 0) with true. cbv iota.
    rewrite (bind_ret _ _ _ _ _ (head_unlock_run c s1 Hw)). eexists. split; [reflexivity|]. apply refused_at_rest, Hf.
Qed.

Lemma mutex_control_unlock_first (n : Z) : asleep_first WQ_HOLDERS n (mutex_control_unlock fuel c addr n s).
Proof using Hf.
  destruct (first_comer_opens fuel c addr s Hf) as (E1 & Hw & Ef & Hp & Er). set (s1 := taken (MX_QHEAD c) s) in *.
  unfold asleep_first, mutex_control_unlock. rewrite (bind_ret _ _ _ _ _ E1), (bind_ret _ _ _ _ _ Ef).
  change (0 =? 0) with true. cbv iota. destruct (mutex_room s).
  - destruct (mutex_control_create_run fuel c addr s1 Hw Hp Er) as (q & s2 & E2 & Hw2 & Hm).
    rewrite (bind_ret _ _ _ _ _ E2), (proj2 (Z.eqb_neq q 0)) by apply (md_nonzero _ _ _ _ _ Hm).
    apply (made_owed _ _ n) in Hm. set (s2' := set_owed q (fun _ => n) s2) in *.
    assert (mqmod q (fun x => x <| contenders := n |>) s2 = Ret tt s2') as Eo by reflexivity.
    rewrite (bind_ret _ _ _ _ _ Eo).
    rewrite (bind_ret _ _ _ _ _ (mutex_control_add_run c q s2' (made_unlisted _ _ _ _ _ _ Hp Hm))).
    destruct (join_run c addr q n (WQ_HOLDERS q) s1 s2' Hm) as (s3 & E & F1 & F2 & [N1 N2 N3 N4] & F4 & F5 & F6);
      [by apply working_mq|done|].
    destruct (pd_unused c s1 Hp q (md_fresh _ _ _ _ _ Hm)) as [U1 U2]. unfold holding, contending in U1, U2.
    exists q, s3. split_and!; [exact E|exact F1|exact F2|by split|exact F4|by rewrite F5, U1|].
    intros h' [->| ->] Hne; [done|by rewrite F6, U2].
  - rewrite (bind_ret _ _ _ _ _ (mutex_control_create_refused fuel addr s1 Er)). change (0 =? 0) with true. cbv iota.
    rewrite (bind_ret _ _ _ _ _ (head_unlock_run c s1 Hw)). eexists. split; [reflexivity|]. apply refused_at_rest, Hf.
Qed.
End First.
