(* ===== verification/Ulock.v ===== *)
(** Userspace mutexes from end to end: [l4_mutex_lock] and [l4_mutex_unlock] of
    [conts/userlibs/libl4/src/mutex.c], the atomic operations of
    [libl4/src/arch/arm/v5/mutex.S] they are made of, and the kernel's queue of
    the mutex as file Contention describes it.

    Threads take steps in any order; a step is one access to the mutex word, one
    system call, or the entry into [l4_mutex_lock] or [l4_mutex_unlock].  The
    word is -1 when the mutex is free, -2 while a thread is between the swap and
    the store of an operation, and otherwise the number of attempts to lock it
    that have failed since it was taken. *)
From S2P Require Import Prelude Bits Defs Words.

Definition L4_MUTEX_LOCKED := 0.
Definition L4_MUTEX_UNLOCKED := -1.
Definition GRABBED := -2.

(** Where a thread is. [LockStore] and [UnlockStore] carry the value that was
    swapped out, [UnlockCall] the contenders to tell the kernel of. *)
Inductive pc :=
| Outside
| LockSwap | LockStore (old : Z) | LockCall | LockSleep
| Holding
| UnlockSwap | UnlockStore (old : Z) | UnlockCall (contended : Z) | UnlockSleep.
#[export] Instance pc_eq_dec : EqDecision pc.
Proof. solve_decision. Defined.

(** The kernel's queue of the mutex; one that does not exist is empty. *)
Record queue := MkQueue { debt : Z; lockers : list nat; unlocker : option nat }.
#[export] Instance queue_shape : Shape queue := fun q => MkQueue (debt q) (lockers q) (unlocker q).
(** [disturbed] is set when a system call has failed. *)
Record users := MkUsers { word : Z; pcs : list pc; mqueue : queue; disturbed : bool }.
#[export] Instance users_shape : Shape users := fun u => MkUsers (word u) (pcs u) (mqueue u) (disturbed u).

(** * Steps *)

(** The word and the place of a thread after its next step outside the kernel. *)
Definition user_step (w : Z) (p : pc) : option (Z * pc) :=
  match p with
  | Outside => Some (w, LockSwap)
  | LockSwap => Some (GRABBED, if w =? GRABBED then LockSwap else LockStore w)
  | LockStore old =>
      let new := s32 (old + 1) in Some (new, if new =? L4_MUTEX_LOCKED then Holding else LockCall)
  | Holding => Some (w, UnlockSwap)
  | UnlockSwap => Some (GRABBED, if w =? GRABBED then UnlockSwap else UnlockStore w)
  | UnlockStore old => Some (L4_MUTEX_UNLOCKED, if old =? 0 then Outside else UnlockCall old)
  | LockCall | LockSleep | UnlockCall _ | UnlockSleep => None
  end.

(** What [mutex_control_lock] and [mutex_control_unlock] do to the queue: the
    queue, whether the caller sleeps, and the threads that are woken.  [None]
    is the [BUG_ON] of [mutex_control_delete]. *)
Definition kernel_lock (i : nat) (q : queue) : option (queue * bool * list nat) :=
  match unlocker q with
  | Some h =>
      if debt q - 1 =? 0 then
        if bool_decide (lockers q = []) then Some (MkQueue 0 [] None, false, [h]) else None
      else Some (q <| debt ::= Z.pred |>, false, [])
  | None => Some (q <| lockers ::= fun l => l ++ [i] |>, true, [])
  end.
Definition kernel_unlock (i : nat) (contended : Z) (q : queue) : queue * bool * list nat :=
  let n := debt q + contended in
  let k := Nat.min (Z.to_nat n) (length (lockers q)) in
  let left_ := n - Z.of_nat k in
  let woken := option_list (unlocker q) ++ take k (lockers q) in
  if left_ =? 0 then (MkQueue 0 (drop k (lockers q)) None, false, woken)
  else (MkQueue left_ (drop k (lockers q)) (Some i), true, woken).

(** A locker that is woken tries again, an unlocker is done. *)
Definition wake (p : pc) : pc := match p with LockSleep => LockSwap | UnlockSleep => Outside | p => p end.
Definition wake_all (woken : list nat) (l : list pc) : list pc :=
  imap (fun j p => if decide (j ∈ woken) then wake p else p) l.

(** [Run i]: thread [i] takes its next step.  [Refuse i]: the kernel has no
    memory for the queue, and the call fails.  [Interrupt i]: the sleep is
    interrupted, and the call fails. *)
Inductive event := Run (i : nat) | Refuse (i : nat) | Interrupt (i : nat).
Definition after_call (i : nat) (u : users) (q : queue) (p : pc) (woken : list nat) : users :=
  u <| mqueue := q |> <| pcs ::= fun l => wake_all woken (<[i := p]> l) |>.
Definition fails (i : nat) (q : queue) (u : users) : users :=
  u <| mqueue := q |> <| pcs ::= <[i := Outside]> |> <| disturbed := true |>.
Definition step (e : event) (u : users) : option users :=
  match e with
  | Run i =>
      p ← pcs u !! i;
      match p with
      | LockCall =>
          '(q, sleeps, woken) ← kernel_lock i (mqueue u);
          Some (after_call i u q (if sleeps : bool then LockSleep else LockSwap) woken)
      | UnlockCall n =>
          let '(q, sleeps, woken) := kernel_unlock i (mutex_contenders (Z.lor n MUTEX_CONTROL_UNLOCK)) (mqueue u) in
          Some (after_call i u q (if sleeps : bool then UnlockSleep else Outside) woken)
      | _ => '(w, p) ← user_step (word u) p; Some (u <| word := w |> <| pcs ::= <[i := p]> |>)
      end
  | Refuse i =>
      p ← pcs u !! i;
      match p with LockCall | UnlockCall _ => Some (fails i (mqueue u) u) | _ => None end
  | Interrupt i =>
      p ← pcs u !! i;
      match p with
      | LockSleep => Some (fails i (mqueue u <| lockers ::= filter (fun j => j <> i) |>) u)
      | UnlockSleep => Some (fails i (mqueue u <| unlocker := None |>) u)
      | _ => None
      end
  end.
(** [n] threads and a mutex that [l4_mutex_init] has set up. *)
Definition l4_mutex_init (n : nat) : users := MkUsers L4_MUTEX_UNLOCKED (replicate n Outside) (MkQueue 0 [] None) false.
Inductive reachable (n : nat) : users -> Prop :=
| reachable_init : reachable n (l4_mutex_init n)
| reachable_step e u u' : reachable n u -> step e u = Some u' -> reachable n u'.
Fixpoint steps (l : list event) (u : users) : option users :=
  match l with [] => Some u | e :: l => step e u ≫= steps l end.

(** * Sums over the threads *)

Fixpoint weigh (f : pc -> Z) (l : list pc) : Z := match l with [] => 0 | p :: l => f p + weigh f l end.
Definition storing (p : pc) : Z := match p with LockStore _ | UnlockStore _ => 1 | _ => 0 end.
Definition owning (p : pc) : Z := match p with Holding | UnlockSwap | UnlockStore _ => 1 | _ => 0 end.
Definition telling (p : pc) : Z := match p with UnlockCall n => n | _ => 0 end.
Definition coming (p : pc) : Z := match p with LockCall => 1 | _ => 0 end.
Definition asleep (p : pc) : Z := match p with LockSleep => 1 | _ => 0 end.

Lemma weigh_insert f l i p p' : l !! i = Some p -> weigh f (<[i := p']> l) = weigh f l - f p + f p'.
Proof. revert i. induction l as [|q l IH]; intros [|i] E; try done; simpl in *; [injection E as <-; lia|rewrite (IH _ E); lia]. Qed.
Lemma weigh_wake f woken l : (forall p, f (wake p) = f p) -> weigh f (wake_all woken l) = weigh f l.
Proof.
  intros Hf. unfold wake_all.
  assert (forall k, weigh f (imap (fun j p => if decide (j + k ∈ woken)%nat then wake p else p) l) = weigh f l) as H.
  { induction l as [|p l IH]; intros k; [done|]. cbn. f_equal; [destruct (decide _); [apply Hf|done]|]. rewrite <- (IH (S k)).
    f_equal. apply imap_ext. intros j x _. cbn. by rewrite Nat.add_succ_r. }
  rewrite <- (H O). f_equal. apply imap_ext. intros j x _. by rewrite Nat.add_0_r.
Qed.
Lemma weigh_nonneg f l : (forall p, p ∈ l -> 0 <= f p) -> 0 <= weigh f l.
Proof. induction l as [|p l IH]; intros H; cbn; [done|]. pose proof (H p ltac:(left)). assert (0 <= weigh f l) by (apply IH; intros; apply H; by right). lia. Qed.
Lemma weigh_at f l i p : l !! i = Some p -> (forall p, p ∈ l -> 0 <= f p) -> f p <= weigh f l.
Proof.
  revert i. induction l as [|q l IH]; intros [|i] E H; try done; cbn in *.
  - injection E as ->. assert (0 <= weigh f l) by (apply weigh_nonneg; intros; apply H; by right). lia.
  - pose proof (H q ltac:(left)). assert (f p <= weigh f l) by (apply (IH i E); intros; apply H; by right). lia.
Qed.
Lemma weigh_le f l b : (forall p, f p <= b) -> weigh f l <= b * Z.of_nat (length l).
Proof. intros H. induction l as [|p l IH]; cbn [weigh length]; [lia|]. pose proof (H p). lia. Qed.
Lemma weigh_add f g l : weigh f l + weigh g l = weigh (fun p => f p + g p) l.
Proof. induction l as [|p l IH]; cbn; [done|]. lia. Qed.
(** Different sleepers are counted once each. *)
Lemma sleepers_counted js : forall l, NoDup js -> (forall j, j ∈ js -> l !! j = Some LockSleep) -> Z.of_nat (length js) <= weigh asleep l.
Proof.
  induction js as [|j js IH]; intros l Hn Hl; cbn; [apply weigh_nonneg; by intros []|]. inversion_clear Hn as [|? ? Hj Hjs].
  pose proof (Hl j ltac:(left)) as Ej. pose proof (weigh_insert asleep l j LockSleep Outside Ej) as Et. cbn in Et.
  specialize (IH (<[j := Outside]> l) Hjs). enough (Z.of_nat (length js) <= weigh asleep (<[j := Outside]> l)) by lia.
  apply IH. intros k Hk. rewrite list_lookup_insert_ne by (by intros ->). apply Hl. by right.
Qed.
Lemma wake_all_lookup woken l j : wake_all woken l !! j = (fun p => if decide (j ∈ woken) then wake p else p) <$> l !! j.
Proof. unfold wake_all. by rewrite list_lookup_imap. Qed.
Lemma wake_all_length woken l : length (wake_all woken l) = length l.
Proof. unfold wake_all. by rewrite length_imap. Qed.

(** * The invariant *)

(** [v] is the word, or what it was before the operation under way grabbed it. *)
Record consistent (n : nat) (v : Z) (u : users) : Prop := {
  cs_threads : length (pcs u) = n;
  cs_word : word u = if weigh storing (pcs u) =? 0 then v else GRABBED;
  cs_one : weigh storing (pcs u) <= 1;
  cs_old : forall i old, pcs u !! i = Some (LockStore old) \/ pcs u !! i = Some (UnlockStore old) -> old = v;
  cs_value : -1 <= v;
  cs_owner : weigh owning (pcs u) = if 0 <=? v then 1 else 0;
  cs_told : forall i c, pcs u !! i = Some (UnlockCall c) -> 0 < c;
  cs_count : Z.max 0 v + weigh telling (pcs u) + debt (mqueue u) = weigh coming (pcs u) + Z.of_nat (length (lockers (mqueue u)));
  cs_nodup : NoDup (lockers (mqueue u));
  cs_lockers : forall i, i ∈ lockers (mqueue u) <-> pcs u !! i = Some LockSleep;
  cs_unlocker : forall i, unlocker (mqueue u) = Some i <-> pcs u !! i = Some UnlockSleep;
  cs_owed : 0 <= debt (mqueue u);
  cs_waits : unlocker (mqueue u) = None <-> debt (mqueue u) = 0;
  cs_calm : debt (mqueue u) = 0 \/ lockers (mqueue u) = [] }.

Section Consistent.
Context {n : nat} {v : Z} {u : users} (Hc : consistent n v u).

Lemma storing_nonneg : forall p, p ∈ pcs u -> 0 <= storing p. Proof. by intros [] _. Qed.
Lemma owning_nonneg : forall p, p ∈ pcs u -> 0 <= owning p. Proof. by intros [] _. Qed.
Lemma telling_nonneg : forall p, p ∈ pcs u -> 0 <= telling p.
Proof. intros [] Hp; cbn; try lia. apply list_elem_of_lookup in Hp as [i Hi]. pose proof (cs_told _ _ _ Hc _ _ Hi). lia. Qed.
(** No more threads have failed to lock the mutex than there are. *)
Lemma failed_bound : Z.max 0 v + weigh telling (pcs u) + debt (mqueue u) <= Z.of_nat n.
Proof.
  rewrite (cs_count _ _ _ Hc). pose proof (sleepers_counted (lockers (mqueue u)) (pcs u) (cs_nodup _ _ _ Hc)) as Hs.
  assert (Z.of_nat (length (lockers (mqueue u))) <= weigh asleep (pcs u)) by (apply Hs; intros j; apply (cs_lockers _ _ _ Hc)).
  pose proof (weigh_add coming asleep (pcs u)). pose proof (weigh_le (fun p => coming p + asleep p) (pcs u) 1 ltac:(by intros [])) as Hl.
  rewrite (cs_threads _ _ _ Hc) in Hl. lia.
Qed.
Lemma telling_bound i c : pcs u !! i = Some (UnlockCall c) -> 0 < c <= Z.of_nat n.
Proof.
  intros Hi. pose proof (cs_told _ _ _ Hc i c Hi). pose proof (weigh_at telling (pcs u) i _ Hi telling_nonneg) as Ht. cbn in Ht.
  pose proof failed_bound. pose proof (cs_owed _ _ _ Hc). lia.
Qed.
Lemma grabbed_now : word u = GRABBED -> weigh storing (pcs u) = 1.
Proof.
  pose proof (cs_one _ _ _ Hc). pose proof (cs_value _ _ _ Hc). pose proof (weigh_nonneg storing (pcs u) storing_nonneg).
  rewrite (cs_word _ _ _ Hc). destruct (Z.eqb_spec (weigh storing (pcs u)) 0); unfold GRABBED; lia.
Qed.
Lemma not_grabbed : word u <> GRABBED -> weigh storing (pcs u) = 0 /\ word u = v.
Proof. rewrite (cs_word _ _ _ Hc). destruct (Z.eqb_spec (weigh storing (pcs u)) 0); [done|by intros []]. Qed.

(** A step outside the kernel keeps the invariant when it keeps what the word
    and the totals say. *)
Lemma consistent_user i p p' w v' : pcs u !! i = Some p ->
  asleep p = 0 -> p <> UnlockSleep -> asleep p' = 0 -> p' <> UnlockSleep -> coming p = 0 -> telling p = 0 ->
  (forall c, p' = UnlockCall c -> 0 < c) ->
  w = (if weigh storing (pcs u) - storing p + storing p' =? 0 then v' else GRABBED) ->
  weigh storing (pcs u) - storing p + storing p' <= 1 ->
  (v' = v \/ weigh storing (pcs u) = storing p) -> storing p' = 0 \/ p' = LockStore v' \/ p' = UnlockStore v' ->
  -1 <= v' -> weigh owning (pcs u) - owning p + owning p' = (if 0 <=? v' then 1 else 0) ->
  Z.max 0 v' + telling p' = Z.max 0 v + coming p' ->
  consistent n v' (u <| word := w |> <| pcs ::= <[i := p']> |>).
Proof.
  intros Hp Ha Hu Ha' Hu' Hco Hte Htell Hw Hone Hv Hold Hr Hown Hcount.
  pose proof (lookup_lt_Some _ _ _ Hp) as Hi.
  destruct Hc as [C1 C2 C3 C4 C5 C6 C7 C8 C9 C10 C11 C12 C13 C14].
  assert (forall q, asleep q = 0 -> q <> LockSleep) as Hns by by intros [].
  split; cbn; try done.
  - by rewrite length_insert.
  - by rewrite (weigh_insert _ _ _ _ _ Hp).
  - by rewrite (weigh_insert _ _ _ _ _ Hp).
  - intros j old Hj. rewrite !list_lookup_insert_Some in Hj. destruct Hj as [[(<- & E & _)|(Hne & E)]|[(<- & E & _)|(Hne & E)]].
    1, 3: subst p'; destruct Hold as [Ho|[Ho|Ho]]; cbn in *; congruence || lia.
    all: destruct Hv as [->|Hs]; [by apply (C4 j); auto|];
      pose proof (weigh_insert storing (pcs u) i p Outside Hp) as Et; cbn in Et;
      assert (<[i := Outside]> (pcs u) !! j = Some (LockStore old) \/ <[i := Outside]> (pcs u) !! j = Some (UnlockStore old)) as Hj
        by (rewrite list_lookup_insert_ne by done; auto);
      destruct Hj as [Hj|Hj]; (apply (weigh_at storing) in Hj; [cbn in Hj; lia|by intros []]).
  - by rewrite (weigh_insert _ _ _ _ _ Hp).
  - intros j c [(<- & E & _)|(Hne & E)]%list_lookup_insert_Some; [by apply Htell|by apply (C7 j)].
  - rewrite !(weigh_insert _ _ _ _ _ Hp). lia.
  - intros j. rewrite C10, list_lookup_insert_Some. destruct (decide (i = j)) as [<-|Hne].
    + rewrite Hp. split; [intros [= ->]; done|]. intros [(_ & E & _)|(E & _)]; [by apply Hns in Ha'; subst|done].
    + split; [auto|by intros [(? & _)|(_ & ?)]].
  - intros j. rewrite C11, list_lookup_insert_Some. destruct (decide (i = j)) as [<-|Hne].
    + rewrite Hp. split; [intros [= ->]; done|]. intros [(_ & E & _)|(E & _)]; [done|done].
    + split; [auto|by intros [(? & _)|(_ & ?)]].
Qed.
End Consistent.

#[local] Ltac tally := cbn; rewrite ?Z.sub_0_r, ?Z.add_0_r; auto; try lia; try done.
Lemma user_step_keeps n v u i p w p' : consistent n v u -> Z.of_nat n < 2 ^ 28 -> pcs u !! i = Some p ->
  user_step (word u) p = Some (w, p') -> exists v', consistent n v' (u <| word := w |> <| pcs ::= <[i := p']> |>).
Proof.
  intros Hc Hn Hp Hs. pose proof (failed_bound Hc) as Hb. pose proof (cs_value _ _ _ Hc) as Hv. pose proof (cs_owed _ _ _ Hc).
  pose proof (weigh_nonneg telling _ (telling_nonneg Hc)). pose proof (cs_owner _ _ _ Hc) as Ho. pose proof (cs_one _ _ _ Hc) as H1.
  pose proof (weigh_nonneg storing _ (@storing_nonneg u)) as Hs0. pose proof (cs_word _ _ _ Hc) as Hw.
  pose proof (weigh_at storing _ _ _ Hp (@storing_nonneg u)) as Hst. pose proof (weigh_at owning _ _ _ Hp (@owning_nonneg u)) as Hown.
  destruct p as [| |old| | | | |old| |]; try done; cbn in Hs, Hst, Hown.
  - injection Hs as <- <-. exists v. apply (consistent_user Hc _ Outside); tally.
  - injection Hs as <- <-. destruct (Z.eqb_spec (word u) GRABBED) as [E|E].
    + exists v. apply (consistent_user Hc _ LockSwap); tally; congruence.
    + destruct (not_grabbed Hc E) as [Es ->]. exists v. apply (consistent_user Hc _ LockSwap); tally; by rewrite Es.
  - pose proof (cs_old _ _ _ Hc i old (or_introl Hp)) as ->. rewrite s32_id in Hs by lia. injection Hs as <- <-. exists (v + 1).
    assert (weigh storing (pcs u) = 1) as Es by lia. rewrite Es in *.
    apply (consistent_user Hc _ (LockStore v)); rewrite ?Es; cbn; auto; try lia; destruct (Z.eqb_spec (v + 1) L4_MUTEX_LOCKED) as [E|E];
      unfold L4_MUTEX_LOCKED in E; cbn; auto; try done; destruct (Z.leb_spec 0 (v + 1)); destruct (Z.leb_spec 0 v); lia.
  - injection Hs as <- <-. exists v. apply (consistent_user Hc _ Holding); tally.
  - injection Hs as <- <-. destruct (Z.eqb_spec (word u) GRABBED) as [E|E].
    + exists v. apply (consistent_user Hc _ UnlockSwap); tally; congruence.
    + destruct (not_grabbed Hc E) as [Es ->]. exists v. apply (consistent_user Hc _ UnlockSwap); tally; by rewrite Es.
  - pose proof (cs_old _ _ _ Hc i old (or_intror Hp)) as ->. injection Hs as <- <-. exists (-1).
    assert (weigh storing (pcs u) = 1) as Es by lia. rewrite Es in *. assert (0 <= v) as Hv0 by (destruct (Z.leb_spec 0 v); lia).
    rewrite (proj2 (Z.leb_le 0 v) Hv0) in Ho.
    apply (consistent_user Hc _ (UnlockStore v)); rewrite ?Es, ?Ho; cbn; auto; try lia; destruct (Z.eqb_spec v 0) as [E|E]; cbn; auto; try done; try lia.
    intros c [= <-]. lia.
Qed.

(** * Steps in the kernel *)

Lemma wake_all_sleeper woken l j x : x = LockSleep \/ x = UnlockSleep ->
  wake_all woken l !! j = Some x <-> (j ∉ woken) /\ l !! j = Some x.
Proof.
  intros Hx. rewrite wake_all_lookup. destruct (l !! j) as [p|]; cbn; [|by split; [|intros []]].
  destruct (decide (j ∈ woken)) as [Hj|Hj]; [|by split; [|intros []]].
  split; [intros [= E]; exfalso; destruct p, Hx; subst; done|by intros []].
Qed.
Lemma wake_all_other woken l j x : x <> LockSwap -> x <> Outside -> wake_all woken l !! j = Some x -> l !! j = Some x.
Proof.
  intros H1 H2. rewrite wake_all_lookup. destruct (l !! j) as [p|]; cbn; [|done]. destruct (decide _); [|done].
  by intros [= <-]; destruct p.
Qed.
Lemma weigh_after f woken l i old p : (forall p, f (wake p) = f p) -> l !! i = Some old ->
  weigh f (wake_all woken (<[i := p]> l)) = weigh f l - f old + f p.
Proof. intros Hf Hi. by rewrite weigh_wake, (weigh_insert _ _ _ _ _ Hi). Qed.

Lemma consistent_call n v u i old p q woken : consistent n v u -> pcs u !! i = Some old ->
  (exists c, old = UnlockCall c) \/ old = LockCall ->
  p = LockSleep \/ p = LockSwap \/ p = UnlockSleep \/ p = Outside ->
  debt q - Z.of_nat (length (lockers q)) = debt (mqueue u) - Z.of_nat (length (lockers (mqueue u))) + telling old - coming old ->
  NoDup (lockers q) ->
  (forall j, j ∈ lockers q <-> (j ∉ woken) /\ <[i := p]> (pcs u) !! j = Some LockSleep) ->
  (forall j, unlocker q = Some j <-> (j ∉ woken) /\ <[i := p]> (pcs u) !! j = Some UnlockSleep) ->
  0 <= debt q -> (unlocker q = None <-> debt q = 0) -> debt q = 0 \/ lockers q = [] ->
  consistent n v (after_call i u q p woken).
Proof.
  intros [C1 C2 C3 C4 C5 C6 C7 C8 C9 C10 C11 C12 C13 C14] Hi Hold Hp Hcount Hnd Hlo Hun Ho Hw Hcalm.
  assert (forall f, (forall p, f (wake p) = f p) -> weigh f (wake_all woken (<[i := p]> (pcs u))) = weigh f (pcs u) - f old + f p) as Ht
    by (intros f Hf; by apply weigh_after).
  assert (storing old = 0 /\ storing p = 0 /\ owning old = 0 /\ owning p = 0 /\ telling p = 0 /\ coming p = 0) as (E1 & E2 & E3 & E4 & E5 & E6).
  { destruct Hold as [[c ->]| ->], Hp as [->|[->|[->| ->]]]; done. }
  assert (forall j x, x <> LockSwap -> x <> Outside -> x <> p -> wake_all woken (<[i := p]> (pcs u)) !! j = Some x -> pcs u !! j = Some x) as Hback.
  { intros j x H1 H2 H3 Hx. apply wake_all_other in Hx; [|done..]. by apply list_lookup_insert_Some in Hx as [(_ & ? & _)|(_ & ?)]. }
  split; cbn; try done.
  - by rewrite wake_all_length, length_insert.
  - rewrite Ht by by intros []. rewrite C2. by replace (weigh storing (pcs u) - storing old + storing p) with (weigh storing (pcs u)) by lia.
  - rewrite Ht by by intros []. lia.
  - intros j o Hj. apply (C4 j). destruct Hj as [Hj|Hj]; apply Hback in Hj; auto; by destruct Hp as [->|[->|[->| ->]]].
  - rewrite Ht by by intros []. lia.
  - intros j c Hj. apply (C7 j). apply Hback in Hj; auto. by destruct Hp as [->|[->|[->| ->]]].
  - rewrite !Ht by by intros []. lia.
  - intros j. rewrite Hlo, wake_all_sleeper; auto.
  - intros j. rewrite Hun, wake_all_sleeper; auto.
Qed.

Lemma kernel_lock_keeps n v u i : consistent n v u -> pcs u !! i = Some LockCall ->
  exists q sleeps woken, kernel_lock i (mqueue u) = Some (q, sleeps, woken) /\
    consistent n v (after_call i u q (if sleeps : bool then LockSleep else LockSwap) woken).
Proof.
  intros Hc Hi. pose proof Hc as [C1 C2 C3 C4 C5 C6 C7 C8 C9 C10 C11 C12 C13 C14]. pose proof (lookup_lt_Some _ _ _ Hi) as Hlt.
  unfold kernel_lock. destruct (unlocker (mqueue u)) as [h|] eqn:Eh.
  - assert (debt (mqueue u) <> 0) as Hne by (intros E; by apply C13 in E). destruct C14 as [?|El]; [done|].
    pose proof (proj1 (C11 h) eq_refl) as Hh. assert (h <> i) as Hhi by congruence.
    assert (forall j, j ∈ lockers (mqueue u) <-> <[i := LockSwap]> (pcs u) !! j = Some LockSleep) as Hl.
    { intros j. rewrite C10, list_lookup_insert_Some. destruct (decide (i = j)) as [<-|?]; [rewrite Hi|];
        (split; [try done; auto|by intros [(_ & ? & _)|(? & ?)]]). }
    assert (forall j, <[i := LockSwap]> (pcs u) !! j = Some UnlockSleep <-> j = h) as Hu.
    { intros j. rewrite list_lookup_insert_Some. split.
      - intros [(_ & ? & _)|(_ & Hj)]; [done|]. apply C11 in Hj. congruence.
      - intros ->. auto. }
    destruct (Z.eqb_spec (debt (mqueue u) - 1) 0) as [E|E].
    + rewrite bool_decide_true by done. eexists _, _, _. split; [done|]. apply (consistent_call n v u i LockCall); auto; cbn.
      * rewrite El. cbn. lia.
      * by apply NoDup_nil.
      * intros j. rewrite <- Hl, El. split; [by intros ?%elem_of_nil|intros [_ ?]; done].
      * intros j. rewrite Hu, list_elem_of_singleton. by split; [|intros []].
      * done.
      * done.
    + eexists _, _, _. split; [done|]. apply (consistent_call n v u i LockCall); auto; cbn.
      * lia.
      * intros j. rewrite <- Hl. split; [split; [by apply not_elem_of_nil|done]|by intros []].
      * intros j. rewrite Hu, Eh. split; [intros [= ->]; split; [by apply not_elem_of_nil|done]|intros [_ ->]; done].
      * lia.
      * rewrite Eh. split; [done|lia].
  - pose proof (proj1 C13 eq_refl) as Ho. eexists _, _, _. split; [done|]. apply (consistent_call n v u i LockCall); auto; cbn.
    + rewrite length_app. cbn. lia.
    + apply NoDup_app. split; [done|]. split; [|by apply NoDup_singleton]. intros j Hj ->%list_elem_of_singleton. apply C10 in Hj. congruence.
    + intros j. rewrite elem_of_app, list_elem_of_singleton, C10, list_lookup_insert_Some. split.
      * intros [Hj| ->]; (split; [by apply not_elem_of_nil|]); [right; split; [intros ->; congruence|done]|by left].
      * intros [_ [(-> & _)|(_ & ?)]]; auto.
    + intros j. rewrite Eh, list_lookup_insert_Some. split; [done|]. intros [_ [(_ & ? & _)|(_ & Hj)]]; [done|]. apply C11 in Hj. congruence.
    + by rewrite Eh.
Qed.

(** The kernel is told the number the word held. *)
Lemma contenders_told c : 0 <= c < 2 ^ 28 -> mutex_contenders (Z.lor c MUTEX_CONTROL_UNLOCK) = c.
Proof.
  intros Hc. unfold mutex_contenders. apply Z.bits_inj'. intros m Hm.
  rewrite Z.land_spec, Z.lor_spec, testbit_lnot32 by done.
  change MUTEX_CONTROL_UNLOCK with (Z.shiftl 1 29). change MUTEX_CONTROL_OPMASK with (Z.shiftl (Z.ones 4) 28).
  rewrite testbit_pow2, Z.shiftl_spec by done. destruct (Z.ltb_spec m 28) as [Hlt|Hge].
  - rewrite (Z.testbit_neg_r _ (m - 28)) by lia. rewrite bool_decide_false by lia. replace (m <? 32) with true by lia. cbn.
    by rewrite orb_false_r, andb_true_r.
  - assert (Z.testbit c m = false) as ->
      by (rewrite <- (Z.mod_small c (2 ^ 28)) by lia; apply Z.mod_pow2_bits_high; lia).
    cbn. destruct (Z.ltb_spec m 32).
    + rewrite Z.ones_spec_low by lia. cbn. by rewrite andb_false_r.
    + rewrite Z.ones_spec_high by lia. cbn. by rewrite andb_false_r.
Qed.

Lemma kernel_unlock_keeps n v u i c q sleeps woken : consistent n v u -> pcs u !! i = Some (UnlockCall c) ->
  kernel_unlock i c (mqueue u) = (q, sleeps, woken) ->
  consistent n v (after_call i u q (if sleeps : bool then UnlockSleep else Outside) woken).
Proof.
  intros Hc Hi. pose proof Hc as [C1 C2 C3 C4 C5 C6 C7 C8 C9 C10 C11 C12 C13 C14]. pose proof (lookup_lt_Some _ _ _ Hi) as Hlt.
  pose proof (C7 i c Hi) as Hc0. unfold kernel_unlock. set (k := Nat.min _ _). set (l := lockers (mqueue u)) in *.
  assert (forall j, unlocker (mqueue u) = Some j -> j ∈ option_list (unlocker (mqueue u))) as Hwu by (intros j ->; left).
  assert (forall j, j ∈ option_list (unlocker (mqueue u)) -> pcs u !! j = Some UnlockSleep) as Huw.
  { intros j Hj. apply C11. destruct (unlocker (mqueue u)); [by apply list_elem_of_singleton in Hj as ->|by apply elem_of_nil in Hj]. }
  assert (forall j p, p <> LockSleep -> j ∈ drop k l <-> (j ∉ option_list (unlocker (mqueue u)) ++ take k l) /\ <[i := p]> (pcs u) !! j = Some LockSleep) as Hd.
  { intros j p Hp. rewrite list_lookup_insert_Some, not_elem_of_app. pose proof (take_drop k l) as Etd. rewrite <- Etd in C9, C10.
    apply NoDup_app in C9 as (_ & Hdis & _). split.
    - intros Hj. assert (pcs u !! j = Some LockSleep) as Ej by (apply C10, elem_of_app; by right). split; [split|].
      + intros Hu. apply Huw in Hu. congruence.
      + intros Ht. by apply (Hdis j).
      + right. split; [congruence|done].
    - intros [[_ Ht] [(-> & ? & _)|(_ & Ej)]]; [congruence|]. apply C10, elem_of_app in Ej as [?|?]; done. }
  assert (NoDup (drop k l)) as Hnd by (rewrite <- (take_drop k l) in C9; by apply NoDup_app in C9 as (_ & _ & ?)).
  assert (debt (mqueue u) + c - Z.of_nat k = 0 \/ drop k l = []) as Hk.
  { unfold k. destruct (Nat.min_spec (Z.to_nat (debt (mqueue u) + c)) (length l)) as [[? ->]|[? ->]]; [left; lia|right; by apply drop_ge]. }
  assert (Z.of_nat k <= debt (mqueue u) + c /\ (k <= length l)%nat) as [Hko Hkl] by (unfold k; lia).
  destruct (Z.eqb_spec (debt (mqueue u) + c - Z.of_nat k) 0) as [E|E]; intros [= <- <- <-];
    apply (consistent_call n v u i (UnlockCall c)); eauto; cbn; rewrite ?length_drop; try (fold l; lia); try done.
  - intros j. split; [done|]. intros [Hj Hx]. exfalso. apply Hj, elem_of_app. left. apply Hwu, C11.
    by apply list_lookup_insert_Some in Hx as [(_ & ? & _)|(_ & ?)].
  - intros j. rewrite not_elem_of_app. split.
    + intros [= <-]. split; [split|by apply list_lookup_insert_eq].
      * intros Hj. apply Huw in Hj. congruence.
      * intros Hj. assert (i ∈ l) as Hl by (rewrite <- (take_drop k l); apply elem_of_app; by left). apply C10 in Hl. congruence.
    + intros [[Hj _] [(-> & _)|(_ & Hx)]%list_lookup_insert_Some]; [done|]. by apply C11, Hwu in Hx.
Qed.

(** * What holds in every reachable state *)

Lemma consistent_init n : consistent n (-1) (l4_mutex_init n).
Proof.
  assert (forall f, f Outside = 0 -> weigh f (replicate n Outside) = 0) as Ht by (intros f Hf; induction n; cbn; lia).
  assert (forall i p, replicate n Outside !! i = Some p -> p = Outside) as Hp by by intros i p [? _]%lookup_replicate_1.
  split; cbn; rewrite ?Ht by done; auto; try lia; try done.
  - by rewrite length_replicate.
  - intros i old [E|E]; by apply Hp in E.
  - intros i c E. by apply Hp in E.
  - by apply NoDup_nil.
  - intros i. split; [by intros ?%elem_of_nil|intros E; by apply Hp in E].
  - intros i. split; [done|intros E; by apply Hp in E].
Qed.
Lemma step_keeps n v e u u' : consistent n v u -> Z.of_nat n < 2 ^ 28 -> step e u = Some u' -> disturbed u' = false ->
  exists v', consistent n v' u'.
Proof.
  intros Hc Hn Hs Hd. destruct e as [i|i|i]; cbn in Hs.
  - destruct (pcs u !! i) as [p|] eqn:Hi; [|done]. cbn in Hs.
    assert (forall w p', user_step (word u) p = Some (w, p') -> u' = u <| word := w |> <| pcs ::= <[i := p']> |> -> exists v', consistent n v' u') as Hu
      by (intros w p' E ->; by apply (user_step_keeps n v u i p)).
    destruct p as [| |old| | | | |old|c|]; cbn [user_step mbind option_bind] in Hs; try done; try (injection Hs as <-; by eapply Hu).
    + destruct (kernel_lock_keeps n v u i Hc Hi) as (q & sl & wk & E & Hk). rewrite E in Hs. injection Hs as <-. by exists v.
    + rewrite contenders_told in Hs by (pose proof (telling_bound Hc i c Hi); lia).
      destruct (kernel_unlock i c (mqueue u)) as [[q sl] wk] eqn:E. injection Hs as <-. exists v. by apply (kernel_unlock_keeps _ _ _ _ c).
  - destruct (pcs u !! i) as [[]|]; cbn in Hs; try done; injection Hs as <-; done.
  - destruct (pcs u !! i) as [[]|]; cbn in Hs; try done; injection Hs as <-; done.
Qed.
Lemma step_disturbed e u u' : step e u = Some u' -> disturbed u = true -> disturbed u' = true.
Proof.
  intros Hs Hd. destruct e as [i|i|i]; cbn in Hs; destruct (pcs u !! i) as [[]|]; cbn in Hs; try done; try (injection Hs as <-; done).
  - destruct (kernel_lock _ _) as [[[]]|]; [|done]. by injection Hs as <-.
  - destruct (kernel_unlock _ _ _) as [[] ?]. by injection Hs as <-.
Qed.
Lemma reachable_consistent n u : Z.of_nat n < 2 ^ 28 -> reachable n u -> disturbed u = false -> exists v, consistent n v u.
Proof.
  intros Hn Hr. induction Hr as [|e u u' Hr IH Hs]; intros Hd; [exists (-1); apply consistent_init|].
  destruct (disturbed u) eqn:E; [rewrite (step_disturbed e u u' Hs E) in Hd; done|]. destruct (IH eq_refl) as [v Hc]. by apply (step_keeps n v e u).
Qed.
Lemma steps_reachable n l : forall u u', reachable n u -> steps l u = Some u' -> reachable n u'.
Proof.
  induction l as [|e l IH]; intros u u' Hu Hs; cbn in Hs; [by injection Hs as <-|].
  destruct (step e u) as [u1|] eqn:E; [|done]. exact (IH u1 u' (reachable_step n e u u1 Hu E) Hs).
Qed.

(** C14: of any number of threads that lock and unlock a mutex in any interleaving,
    with system calls that succeed, at most one is between [l4_mutex_lock] and
    the store of its [l4_mutex_unlock]; the word never exceeds the number of
    threads, so that it fits the bits the kernel is told it in; and every
    thread that is not asleep can take its next step, none reaching the
    kernel's [BUG_ON]. *)
Theorem user_mutex_excludes (n : nat) (u : users) : Z.of_nat n < 2 ^ 28 -> reachable n u -> disturbed u = false ->
  (forall i j p q, pcs u !! i = Some p -> pcs u !! j = Some q -> owning p = 1 -> owning q = 1 -> i = j) /\
  word u <= Z.of_nat n /\
  forall i p, pcs u !! i = Some p -> p <> LockSleep -> p <> UnlockSleep -> is_Some (step (Run i) u).
Proof.
  intros Hn Hr Hd. destruct (reachable_consistent n u Hn Hr Hd) as [v Hc]. pose proof (failed_bound Hc) as Hb. split_and!.
  - intros i j p q Hi Hj Hp Hq. destruct (decide (i = j)) as [|Hne]; [done|exfalso].
    pose proof (weigh_insert owning _ i p Outside Hi) as Et. rewrite Hp in Et. change (owning Outside) with 0 in Et.
    assert (<[i := Outside]> (pcs u) !! j = Some q) as Hj' by by rewrite list_lookup_insert_ne.
    pose proof (weigh_at owning _ _ _ Hj' ltac:(by intros [])). pose proof (cs_owner _ _ _ Hc) as Ho.
    destruct (0 <=? v); lia.
  - pose proof (cs_word _ _ _ Hc). pose proof (weigh_nonneg telling _ (telling_nonneg Hc)). pose proof (cs_owed _ _ _ Hc).
    destruct (weigh storing (pcs u) =? 0); unfold GRABBED in *; lia.
  - intros i p Hi Hl Hu. cbn [step]. rewrite Hi. cbn [mbind option_bind]. destruct p; cbn; try done.
    + destruct (kernel_lock_keeps n v u i Hc Hi) as (q & sl & wk & -> & _). done.
    + destruct (kernel_unlock _ _ _) as [[] ?]. done.
Qed.
Lemma user_mutex_excludes_witness : exists u,
  steps [Run 0; Run 1; Run 0; Run 1; Run 0; Run 1; Run 1; Run 1] (l4_mutex_init 2) = Some u /\
  pcs u = [Holding; LockSleep] /\ word u = 1 /\ is_Some (step (Run 0) u).
Proof.
  eexists. split; [vm_compute; reflexivity|]. split; [done|]. split; [done|].
  apply (user_mutex_excludes 2 _) with (i := 0%nat) (p := Holding); try done.
  apply (steps_reachable 2 [Run 0; Run 1; Run 0; Run 1; Run 0; Run 1; Run 1; Run 1] (l4_mutex_init 2)); [apply reachable_init|].
  vm_compute. reflexivity.
Defined.

(** Every thread is outside, holds the mutex, or sleeps. *)
Definition settled (u : users) : Prop := forall i p, pcs u !! i = Some p -> p ∈ [Outside; Holding; LockSleep; UnlockSleep].
Lemma weigh_zero f l : (forall p, p ∈ l -> f p = 0) -> weigh f l = 0.
Proof. induction l as [|p l IH]; intros H; cbn; [done|]. rewrite (H p), IH; [done| |left]. intros q Hq. apply H. by right. Qed.
Lemma weigh_some f l : 0 < weigh f l -> exists i p, l !! i = Some p /\ 0 < f p.
Proof.
  induction l as [|p l IH]; cbn; [lia|]. intros H. destruct (Z.ltb_spec 0 (f p)); [by exists 0%nat, p|].
  destruct IH as (i & q & Hi & Hq); [lia|]. by exists (S i), q.
Qed.
Lemma settled_counts n v u : consistent n v u -> settled u ->
  word u = v /\ debt (mqueue u) = 0 /\ unlocker (mqueue u) = None /\ Z.max 0 v = Z.of_nat (length (lockers (mqueue u))).
Proof.
  intros Hc Hq. assert (forall f, f Outside = 0 -> f Holding = 0 -> f LockSleep = 0 -> f UnlockSleep = 0 -> weigh f (pcs u) = 0) as Ht.
  { intros f H1 H2 H3 H4. apply weigh_zero. intros p [i Hi]%list_elem_of_lookup. apply Hq in Hi.
    repeat (apply elem_of_cons in Hi as [->|Hi]; [done|]). by apply elem_of_nil in Hi. }
  pose proof (cs_word _ _ _ Hc) as Hw. pose proof (cs_count _ _ _ Hc) as Hn. rewrite Ht in Hw by done. rewrite !Ht in Hn by done.
  pose proof (cs_owed _ _ _ Hc) as Ho. assert (debt (mqueue u) = 0) as E.
  { destruct (cs_calm _ _ _ Hc) as [|El]; [done|]. rewrite El in Hn. cbn in Hn. lia. }
  split; [done|]. split; [done|]. split; [by apply (cs_waits _ _ _ Hc)|lia].
Qed.

Lemma step_user u i p w p' : pcs u !! i = Some p -> user_step (word u) p = Some (w, p') ->
  step (Run i) u = Some (u <| word := w |> <| pcs ::= <[i := p']> |>).
Proof. intros Hi Hs. cbn. rewrite Hi. cbn. destruct p; cbn in Hs |- *; try done; by injection Hs as <- <-. Qed.

(** Three steps of the holder outside the kernel, when nobody else moves. *)
Lemma unlock_steps n v u i : Z.of_nat n < 2 ^ 28 -> consistent n v u -> settled u -> pcs u !! i = Some Holding ->
  0 <= v /\ steps [Run i; Run i; Run i] u =
    Some (u <| word := L4_MUTEX_UNLOCKED |> <| pcs ::= <[i := if v =? 0 then Outside else UnlockCall v]> |>).
Proof.
  intros Hn Hc Hq Hi. destruct (settled_counts n v u Hc Hq) as (Hw & Ho & Hu & Hl).
  pose proof (cs_value _ _ _ Hc) as Hv. pose proof (cs_owner _ _ _ Hc) as Hown. pose proof (lookup_lt_Some _ _ _ Hi) as Hlt.
  pose proof (weigh_at owning _ _ _ Hi (@owning_nonneg u)) as Hone. cbn in Hone. split; [destruct (Z.leb_spec 0 v); lia|].
  assert ((v =? GRABBED) = false) as Eg by (unfold GRABBED; lia). pose proof (step_user u i Holding _ _ Hi eq_refl) as E1.
  cbn [steps]. rewrite E1. cbn [mbind option_bind].
  erewrite step_user; [|by apply list_lookup_insert_eq|cbn; by rewrite Hw, Eg]. cbn [mbind option_bind].
  erewrite step_user; [|apply list_lookup_insert_eq; cbn; by rewrite length_insert|reflexivity]. cbn [mbind option_bind].
  set (p := if v =? 0 then _ else _). f_equal.
  change (MkUsers L4_MUTEX_UNLOCKED (<[i := p]> (<[i := UnlockStore v]> (<[i := UnlockSwap]> (pcs u)))) (mqueue u) (disturbed u) =
    MkUsers L4_MUTEX_UNLOCKED (<[i := p]> (pcs u)) (mqueue u) (disturbed u)). by rewrite !list_insert_insert_eq.
Qed.
Lemma unlock_wakes_all n v u i : Z.of_nat n < 2 ^ 28 -> consistent n v u -> settled u -> pcs u !! i = Some Holding ->
  exists k u', (k <= 4)%nat /\ steps (replicate k (Run i)) u = Some u' /\
    pcs u' !! i = Some Outside /\ word u' = L4_MUTEX_UNLOCKED /\
    forall j, pcs u !! j = Some LockSleep -> pcs u' !! j = Some LockSwap.
Proof.
  intros Hn Hc Hq Hi. destruct (settled_counts n v u Hc Hq) as (Hw & Ho & Hu & Hl). pose proof (lookup_lt_Some _ _ _ Hi) as Hlt.
  destruct (unlock_steps n v u i Hn Hc Hq Hi) as [Hv0 E3]. set (u3 := set_field _ _) in E3.
  destruct (Z.eqb_spec v 0) as [E|E].
  + exists 3%nat, u3. split; [lia|]. split; [exact E3|]. split; [unfold u3; cbn; by rewrite list_lookup_insert_eq|]. split; [done|].
    intros j Hj. apply (cs_lockers _ _ _ Hc) in Hj. destruct (lockers (mqueue u)); [by apply elem_of_nil in Hj|cbn in Hl; lia].
  + set (u4 := after_call i u3 (MkQueue 0 [] None) Outside (lockers (mqueue u))).
    exists 4%nat, u4. split; [lia|]. change (replicate 4 (Run i)) with ([Run i; Run i; Run i] ++ [Run i]).
    assert (forall l1 l2 x, steps (l1 ++ l2) x = steps l1 x ≫= steps l2) as Happ.
    { induction l1 as [|e l1 IH]; intros l2 x; [done|]. cbn. destruct (step e x); cbn; [apply IH|done]. }
    assert (step (Run i) u3 = Some u4) as E4.
    { unfold step. change (pcs u3) with (<[i := UnlockCall v]> (pcs u)). rewrite list_lookup_insert_eq by done. cbn [mbind option_bind]. change (mqueue u3) with (mqueue u).
      pose proof (failed_bound Hc) as Hb. pose proof (weigh_nonneg telling _ (telling_nonneg Hc)). rewrite contenders_told by lia.
      unfold kernel_unlock. rewrite Ho, Hu.
      replace (Nat.min (Z.to_nat (0 + v)) (length (lockers (mqueue u)))) with (length (lockers (mqueue u))) by lia.
      replace (0 + v - Z.of_nat (length (lockers (mqueue u))) =? 0) with true by lia. by rewrite firstn_all, drop_all. }
    rewrite Happ, E3. cbn [mbind option_bind steps]. rewrite E4. split; [done|].
    assert (pcs u4 = wake_all (lockers (mqueue u)) (<[i := Outside]> (pcs u))) as Ep.
    { change (wake_all (lockers (mqueue u)) (<[i := Outside]> (<[i := UnlockCall v]> (pcs u))) = wake_all (lockers (mqueue u)) (<[i := Outside]> (pcs u))).
      by rewrite list_insert_insert_eq. }
    rewrite Ep. split_and!; [|done|].
    * rewrite wake_all_lookup, list_lookup_insert_eq by done. cbn. by destruct (decide _).
    * intros j Hj. rewrite wake_all_lookup, list_lookup_insert_ne by congruence. rewrite Hj. cbn.
      apply (cs_lockers _ _ _ Hc) in Hj. by rewrite decide_True.
Qed.

(** C15: no wake-up is lost.  When every thread is outside, holds the mutex or
    sleeps, no unlocker sleeps; if lockers sleep then a thread holds the mutex;
    and the unlock of the thread that holds it, in at most four steps, wakes all
    of them and returns. *)
Theorem user_mutex_loses_no_wakeup (n : nat) (u : users) :
  Z.of_nat n < 2 ^ 28 -> reachable n u -> disturbed u = false -> settled u ->
  (forall j, pcs u !! j <> Some UnlockSleep) /\
  (forall j, pcs u !! j = Some LockSleep -> exists i, pcs u !! i = Some Holding) /\
  forall i, pcs u !! i = Some Holding -> exists k u', (k <= 4)%nat /\ steps (replicate k (Run i)) u = Some u' /\
    pcs u' !! i = Some Outside /\ word u' = L4_MUTEX_UNLOCKED /\
    forall j, pcs u !! j = Some LockSleep -> pcs u' !! j = Some LockSwap.
Proof.
  intros Hn Hr Hd Hq. destruct (reachable_consistent n u Hn Hr Hd) as [v Hc].
  destruct (settled_counts n v u Hc Hq) as (Hw & Ho & Hu & Hl). pose proof (cs_value _ _ _ Hc) as Hv. pose proof (cs_owner _ _ _ Hc) as Hown.
  split_and!.
  - intros j Hj. apply (cs_unlocker _ _ _ Hc) in Hj. congruence.
  - intros j Hj. apply (cs_lockers _ _ _ Hc) in Hj. assert (0 < v) as Hpos by (destruct (lockers (mqueue u)); [by apply elem_of_nil in Hj|cbn in Hl; lia]).
    rewrite (proj2 (Z.leb_le 0 v)) in Hown by lia. destruct (weigh_some owning (pcs u)) as (i & p & Hi & Hp); [lia|]. exists i.
    pose proof (Hq i p Hi) as Hin. repeat (apply elem_of_cons in Hin as [->|Hin]; [done|]). by apply elem_of_nil in Hin.
  - intros i Hi. by apply (unlock_wakes_all n v u i).
Qed.
(** Thread 1 sleeps behind thread 0, which holds the mutex. *)
Definition contended_run : list event := [Run 0; Run 1; Run 0; Run 1; Run 0; Run 1; Run 1; Run 1].
Definition contended : users := MkUsers 1 [Holding; LockSleep] (MkQueue 0 [1%nat] None) false.
Lemma contended_reachable : reachable 2 contended.
Proof. apply (steps_reachable 2 contended_run (l4_mutex_init 2)); [apply reachable_init|vm_compute; reflexivity]. Qed.
Lemma contended_settled : settled contended.
Proof. intros [|[|i]] p E; cbn in E; try done; injection E as <-; apply list_elem_of_In; cbn; auto. Qed.
Lemma user_mutex_loses_no_wakeup_witness : exists k u', (k <= 4)%nat /\ steps (replicate k (Run 0)) contended = Some u' /\
  pcs u' !! 0%nat = Some Outside /\ pcs u' !! 1%nat = Some LockSwap.
Proof.
  destruct (user_mutex_loses_no_wakeup 2 contended ltac:(done) contended_reachable eq_refl contended_settled) as (_ & _ & H).
  destruct (H 0%nat eq_refl) as (k & u' & Hk & Hs & Ho & _ & Hw). exists k, u'. auto.
Defined.

(** A locker whose sleep is interrupted stays counted in the word: the unlocker
    tells the kernel of it and sleeps until another locker happens to come. *)
Lemma an_interrupted_locker_is_waited_for :
  steps [Interrupt 1; Run 0; Run 0; Run 0; Run 0] contended =
  Some (MkUsers L4_MUTEX_UNLOCKED [UnlockSleep; Outside] (MkQueue 1 [] (Some 0%nat)) true).
Proof. vm_compute. reflexivity. Qed.
