(* ===== verification/Uqueue.v ===== *)
(** The kernel's part of a userspace mutex: [mutex_control_lock] and
    [mutex_control_unlock] of [src/api/mutex.c] implement the steps that file
    Ulock takes them to make on the queue of the mutex. *)
From S2P Require Import Prelude Bits Defs Kernel Exec Sched SchedInv SchedOps Demo Waiting Alloc Mutexes Caches Umutex Contention Newqueue Ulock.

Section Uqueue.
Context (tid : nat -> Z) (c addr q : Z).

(** The queue at [q] holds thread [i] as the task [tid i]. *)
Record stands_for (s : kstate) (Q : queue) : Prop := {
  sf_debt : owed s q = debt Q;
  sf_lockers : contending s q = tid <$> lockers Q;
  sf_unlocker : holding s q = tid <$> option_list (unlocker Q) }.
(** A queue that is empty may also be deleted. *)
Definition left_as (s s' : kstate) (Q : queue) : Prop :=
  stands_for s' Q \/ retired c q s s' /\ Q = MkQueue 0 [] None.
Record queue_ok (Q : queue) : Prop := {
  qo_debt : 0 <= debt Q;
  qo_waits : unlocker Q = None <-> debt Q = 0;
  qo_calm : debt Q = 0 \/ lockers Q = [] }.
Definition balance_of (Q : queue) : Z := debt Q - Z.of_nat (length (lockers Q)).
Lemma stands_balance s Q : queue_ok Q -> stands_for s Q -> balance q (balance_of Q) s.
Proof.
  intros [H1 H2 H3] [E1 E2 E3]. unfold balance, balance_of in *. rewrite E1, E2, E3, length_fmap. destruct H3 as [H3|H3].
  - rewrite H3. rewrite (proj2 (Z.ltb_ge 0 (0 - Z.of_nat (length (lockers Q))))) by lia. rewrite (proj2 H2 H3). split_and!; [done|done|lia].
  - rewrite H3. cbn [length fmap list_fmap]. change (Z.of_nat 0) with 0. rewrite Z.sub_0_r. destruct (Z.ltb_spec 0 (debt Q)).
    + assert (unlocker Q <> None) as Hu by (intros E; apply H2 in E; lia).
      destruct (unlocker Q) as [h|]; [|done]. split_and!; [by exists (tid h)|done|done].
    + assert (debt Q = 0) as E by lia. rewrite E, (proj2 H2 E). done.
Qed.

(** What a call refines: it returns, or sleeps with the lock of the queues let
    go, as the step says, and wakes the threads it says. *)
Definition lock_refined (i : nat) (s : kstate) (Q : queue) (r : outcome kstate Z) : Prop :=
  exists Q' sleeps woken, kernel_lock i Q = Some (Q', sleeps, woken) /\
    if sleeps : bool then
      exists s1, r = Switch s1 check_interrupted /\ steady (idle s) s1 /\
        mutexes s1 (MX_QHEAD c) = MUTEX_UNLOCKED /\ stands_for s1 Q'
    else
      exists s', r = Ret 0 s' /\ at_rest c s' /\ left_as s s' Q' /\
        forall j, j ∈ woken -> state (tcbs s' (tid j)) = TASK_RUNNABLE.
Definition unlock_refined (i : nat) (n : Z) (s : kstate) (Q : queue) (r : outcome kstate Z) : Prop :=
  let '(Q', sleeps, woken) := kernel_unlock i n Q in
  if sleeps : bool then
    exists s1, r = Switch s1 check_interrupted /\ steady (idle s) s1 /\
      mutexes s1 (MX_QHEAD c) = MUTEX_UNLOCKED /\ stands_for s1 Q' /\
      forall j, j ∈ woken -> state (tcbs s1 (tid j)) = TASK_RUNNABLE
  else
    exists s', r = Ret 0 s' /\ at_rest c s' /\ left_as s s' Q' /\
      forall j, j ∈ woken -> state (tcbs s' (tid j)) = TASK_RUNNABLE.

Lemma lock_found (fuel i : nat) (s : kstate) (Q : queue) :
  arrival c addr q (balance_of Q) s -> stands_for s Q -> queue_ok Q -> current s = tid i ->
  lock_refined i s Q (mutex_control_lock fuel c addr s).
Proof.
  intros Ha Hf [H1 H2 H3] Hi. pose proof (mutex_control_lock_takes_one fuel c addr q _ s Ha) as H. destruct Hf as [E1 E2 E3].
  unfold lock_refined, kernel_lock, balance_of in *. destruct (unlocker Q) as [h|] eqn:Eu.
  - assert (debt Q <> 0) as Hd by (intros E; by apply H2 in E). destruct H3 as [H3|H3]; [done|]. rewrite H3 in *. cbn [length] in H.
    change (Z.of_nat 0) with 0 in H. rewrite Z.sub_0_r in H. destruct (Z.eqb_spec (debt Q - 1) 0) as [E|E].
    + replace (debt Q) with 1 in H by lia. cbn in H. destruct H as (s' & R & Hr & Hd' & Hw). rewrite bool_decide_true by done.
      eexists _, _, _. split; [done|]. cbn. exists s'. split_and!; [done|done|by right|].
      intros j ->%list_elem_of_singleton. apply Hw. rewrite E3. left.
    + replace (1 <? debt Q) with true in H by lia. destruct H as (s' & R & Hr & Hb & Hh). eexists _, _, _. split; [done|]. cbn.
      exists s'. split_and!; [done|done|left|by intros j ?%elem_of_nil]. unfold balance in Hb. replace (0 <? debt Q - 1) with true in Hb by lia.
      destruct Hb as (_ & Hc & Ho). split; cbn; [lia| |by rewrite Hh, E3, Eu]. by rewrite Hc, H3.
  - pose proof (proj1 H2 eq_refl) as Hz. rewrite Hz in *.
    set (k := Z.of_nat (length (lockers Q))) in *. assert (0 <= k) by lia. rewrite (proj2 (Z.ltb_ge 1 (0 - k))), (proj2 (Z.eqb_neq (0 - k) 1)) in H by lia.
    destruct H as (s1 & R & Hs & Hm & Hb & Hc). eexists _, _, _. split; [done|]. cbn. exists s1. split_and!; [done|done|done|].
    unfold balance in Hb. rewrite (proj2 (Z.ltb_ge 0 (0 - k - 1))) in Hb by lia. destruct Hb as (Hh & Ho & _).
    split; cbn; [by rewrite Ho, Hz|by rewrite Hc, fmap_app, E2, Hi|by rewrite Hh, Eu].
Qed.

Lemma unlock_found (fuel i : nat) (n : Z) (s : kstate) (Q : queue) :
  arrival c addr q (balance_of Q) s -> stands_for s Q -> queue_ok Q -> current s = tid i ->
  0 <= n -> debt Q + n < 2 ^ 31 -> (length (lockers Q) <= fuel)%nat ->
  unlock_refined i n s Q (mutex_control_unlock fuel c addr n s).
Proof.
  intros Ha Hf [H1 H2 H3] Hi Hn Hmax Hfuel. destruct Hf as [E1 E2 E3].
  pose proof (mutex_control_unlock_adds fuel c addr q _ n s Ha Hn) as H. rewrite E2, E3, length_fmap in H.
  unfold unlock_refined, kernel_unlock, balance_of in *. set (l := lockers Q) in *. set (k := Nat.min _ _).
  assert (debt Q + n - Z.of_nat k = Z.max 0 (debt Q - Z.of_nat (length l) + n)) as Ek by (unfold k; destruct H3 as [H3|H3]; rewrite H3 in *; cbn; lia).
  rewrite Ek. destruct (Z.ltb_spec 0 (debt Q - Z.of_nat (length l) + n)) as [Hd|Hd].
  - replace (Z.max 0 _ =? 0) with false by lia. destruct H as (s1 & R & Hs & Hm & Hb & Hh & Hw); [lia|lia|].
    exists s1. split_and!; [done|done|done| |].
    + unfold balance in Hb. rewrite (proj2 (Z.ltb_lt _ _) Hd) in Hb. destruct Hb as (_ & Hc & Ho). split; cbn; [lia| |by rewrite Hh, Hi].
      rewrite Hc, drop_ge by (unfold k; lia). done.
    + intros j Hj. apply Hw. rewrite <- fmap_app. apply list_elem_of_fmap_2. rewrite elem_of_app in Hj |- *.
      destruct Hj as [?|Hj]; [by left|right]. rewrite <- (take_drop k l), elem_of_app. by left.
  - replace (Z.max 0 _ =? 0) with true by lia. destruct H as (s' & R & Hr & Hb & Hc & Hw); [lia|lia|].
    assert (debt Q = 0) as Hz by (destruct H3 as [H3|H3]; [done|rewrite H3 in *; cbn in Hd; lia]). rewrite (proj2 H2 Hz) in *.
    assert (k = Z.to_nat n) as -> by (unfold k; lia). exists s'. split_and!; [done|done| |].
    + destruct (Z.eqb_spec (debt Q - Z.of_nat (length l) + n) 0) as [E|E].
      * right. split; [done|]. by rewrite drop_ge by lia.
      * left. unfold balance in Hb. replace (0 <? _) with false in Hb by lia. destruct Hb as (Hh & Ho & _).
        split; cbn; [done|by rewrite Hc, fmap_drop|by rewrite Hh].
    + intros j Hj. apply Hw. rewrite <- fmap_take. by apply list_elem_of_fmap_2.
Qed.
End Uqueue.

(** A mutex that has no queue stands for the empty one. *)
Definition no_queue : queue := MkQueue 0 [] None.

(** The first to come for a mutex: the call makes the queue and sleeps on it as
    the step says, or is refused for want of a queue. *)
Definition first_sleeps (tid : nat -> Z) (c addr : Z) (s : kstate) (Q' : queue) (r : outcome kstate Z) : Prop :=
  if mutex_room s then
    exists q s1, r = Switch s1 check_interrupted /\ steady (idle s) s1 /\
      mutexes s1 (MX_QHEAD c) = MUTEX_UNLOCKED /\ new_queue c addr q s s1 /\ stands_for tid q s1 Q'
  else exists s', r = Ret (- ENOMEM) s' /\ at_rest c s' /\ untouched s s'.

(** C16: [mutex_control_lock] refines [kernel_lock]: at a mutex that has a queue,
    and, as the first to come for it, on the empty queue, which it makes; it is
    refused, and changes nothing, when no queue can be made. *)
Theorem mutex_control_lock_refines (tid : nat -> Z) (fuel i : nat) (c addr : Z) (s : kstate) (Hi : current s = tid i) :
  (forall q Q, arrival c addr q (balance_of Q) s -> stands_for tid q s Q -> queue_ok Q ->
     lock_refined tid c q i s Q (mutex_control_lock fuel c addr s))
  /\ (first_comer c addr s -> exists Q', kernel_lock i no_queue = Some (Q', true, [])
        /\ first_sleeps tid c addr s Q' (mutex_control_lock fuel c addr s)).
Proof.
  split; [intros q Q Ha Hs Hq; by apply (lock_found tid c addr)|]. intros Hf. eexists. split; [reflexivity|].
  pose proof (mutex_control_lock_first fuel c addr s Hf) as H. unfold asleep_first in H. unfold first_sleeps.
  destruct (mutex_room s); [|exact H]. destruct H as (q & s1 & E & F1 & F2 & F3 & F4 & F5 & F6).
  exists q, s1. split_and!; [done..|]. split; [exact F4|unfold contending; rewrite F5, Hi; done|]. apply F6; [by left|done].
Qed.

(** C17: [mutex_control_unlock] refines [kernel_unlock]: at a mutex that has a
    queue, and, as the first to come for it with contenders to wake, on the empty
    queue, which it makes and which then owes them; it is refused, and changes
    nothing, when no queue can be made. *)
Theorem mutex_control_unlock_refines (tid : nat -> Z) (fuel i : nat) (c addr n : Z) (s : kstate)
    (Hi : current s = tid i) (Hn : 0 <= n) :
  (forall q Q, arrival c addr q (balance_of Q) s -> stands_for tid q s Q -> queue_ok Q ->
     debt Q + n < 2 ^ 31 -> (length (lockers Q) <= fuel)%nat ->
     unlock_refined tid c q i n s Q (mutex_control_unlock fuel c addr n s))
  /\ (first_comer c addr s -> 0 < n -> exists Q', kernel_unlock i n no_queue = (Q', true, [])
        /\ first_sleeps tid c addr s Q' (mutex_control_unlock fuel c addr n s)).
Proof.
  split; [intros q Q Ha Hs Hq Hd Hl; by apply (unlock_found tid c addr)|]. intros Hf Hp. exists (MkQueue n [] (Some i)). split.
  - unfold kernel_unlock, no_queue. cbn [debt lockers unlocker length option_list app]. rewrite Nat.min_0_r.
    change (Z.of_nat 0) with 0. rewrite Z.sub_0_r, Z.add_0_l, (proj2 (Z.eqb_neq n 0)) by lia. done.
  - pose proof (mutex_control_unlock_first fuel c addr s Hf n) as H. unfold asleep_first in H. unfold first_sleeps.
    destruct (mutex_room s); [|exact H]. destruct H as (q & s1 & E & F1 & F2 & F3 & F4 & F5 & F6).
    exists q, s1. split_and!; [done..|]. split; [exact F4| |unfold holding; rewrite F5, Hi; done]. apply F6; [by right|done].
Qed.
(** The queue of a mutex whose threads follow the protocol is one of those. *)
Lemma consistent_queue_ok n v u : consistent n v u -> queue_ok (mqueue u).
Proof. intros []. by split. Qed.

(** Thread 0 is task 48, thread 1 the running task 16. *)
Definition demo_tid (i : nat) : Z := match i with O => 48 | _ => 16 end.
Lemma demo_stands h n Q : task_list (wqhs (demo_contended h n) (WQ_CONTENDERS 2048)) = demo_tid <$> lockers Q ->
  task_list (wqhs (demo_contended h n) (WQ_HOLDERS 2048)) = demo_tid <$> option_list (unlocker Q) ->
  debt Q = n -> stands_for demo_tid 2048 (demo_contended h n) Q.
Proof. intros H1 H2 <-. by split. Qed.
(** The demo system with room for a queue, and no mutex yet. *)
Definition demo_unqueued : kstate :=
  with_cache MUTEX_CACHE (fun _ => MkCache 4 4 2048 2240 48 [0])
    (with_caps (CL_SPACE 256) (fun _ => MkCapList 1 [1024])
    (with_cap 1024 (fun _ => MkCap 1 1 0 (Z.lor CAP_TYPE_QUANTITY CAP_RTYPE_MUTEXPOOL) 0 0 0 2 1) demo)).
Lemma demo_unqueued_first : first_comer 512 0x5000 demo_unqueued.
Proof.
  assert (sched_inv demo_unqueued) as Hs by (apply (sinv_ext None demo); [done..|apply demo_sched_inv]).
  split; [split; try done; by split|by vm_compute|].
  split; [done|done|split; (done || by vm_compute)|by vm_compute|by vm_compute|done|].
  intros q Hq. by apply elem_of_nil in Hq.
Qed.

Lemma mutex_control_lock_refines_witness :
  (exists s', mutex_control_lock 0 512 0x5000 (demo_contended (WQ_HOLDERS 2048) 1) = Ret 0 s' /\ at_rest 512 s' /\
    left_as demo_tid 512 2048 (demo_contended (WQ_HOLDERS 2048) 1) s' (MkQueue 0 [] None) /\
    forall j, j ∈ [0%nat] -> state (tcbs s' (demo_tid j)) = TASK_RUNNABLE)
  /\ exists q s1, mutex_control_lock 0 512 0x5000 demo_unqueued = Switch s1 check_interrupted /\ steady 64 s1 /\
       mutexes s1 (MX_QHEAD 512) = MUTEX_UNLOCKED /\ new_queue 512 0x5000 q demo_unqueued s1 /\
       stands_for demo_tid q s1 (MkQueue 0 [1%nat] None).
Proof.
  set (Q := MkQueue 1 [] (Some 0%nat)). assert (queue_ok Q) as Hq by (split; cbn; [done| |by right]; by split).
  assert (stands_for demo_tid 2048 (demo_contended (WQ_HOLDERS 2048) 1) Q) as Hf by (apply demo_stands; by vm_compute).
  assert (arrival 512 0x5000 2048 (balance_of Q) (demo_contended (WQ_HOLDERS 2048) 1)) as Ha
    by (apply demo_contended_arrival; [by vm_compute|by vm_compute|by apply (stands_balance demo_tid)]). split.
  - destruct (mutex_control_lock_refines demo_tid 0 1 512 0x5000 (demo_contended (WQ_HOLDERS 2048) 1) eq_refl) as [H _].
    destruct (H 2048 Q Ha Hf Hq) as (Q' & sl & wk & E & H'). injection E as <- <- <-. exact H'.
  - destruct (mutex_control_lock_refines demo_tid 0 1 512 0x5000 demo_unqueued eq_refl) as [_ H].
    destruct (H demo_unqueued_first) as (Q' & E & H'). injection E as <-. exact H'.
Defined.
Lemma mutex_control_unlock_refines_witness :
  (exists s1, mutex_control_unlock 1 512 0x5000 3 (demo_contended (WQ_CONTENDERS 2048) 0) = Switch s1 check_interrupted /\
    steady 64 s1 /\ mutexes s1 (MX_QHEAD 512) = MUTEX_UNLOCKED /\ stands_for demo_tid 2048 s1 (MkQueue 2 [] (Some 1%nat)) /\
    forall j, j ∈ [0%nat] -> state (tcbs s1 (demo_tid j)) = TASK_RUNNABLE)
  /\ exists q s1, mutex_control_unlock 1 512 0x5000 3 demo_unqueued = Switch s1 check_interrupted /\ steady 64 s1 /\
       mutexes s1 (MX_QHEAD 512) = MUTEX_UNLOCKED /\ new_queue 512 0x5000 q demo_unqueued s1 /\
       stands_for demo_tid q s1 (MkQueue 3 [] (Some 1%nat)).
Proof.
  set (Q := MkQueue 0 [0%nat] None). assert (queue_ok Q) as Hq by (split; cbn; [done| |by left]; by split).
  assert (stands_for demo_tid 2048 (demo_contended (WQ_CONTENDERS 2048) 0) Q) as Hf by (apply demo_stands; by vm_compute).
  assert (arrival 512 0x5000 2048 (balance_of Q) (demo_contended (WQ_CONTENDERS 2048) 0)) as Ha
    by (apply demo_contended_arrival; [by vm_compute|by vm_compute|by apply (stands_balance demo_tid)]). split.
  - destruct (mutex_control_unlock_refines demo_tid 1 1 512 0x5000 3 (demo_contended (WQ_CONTENDERS 2048) 0) eq_refl) as [H _]; [done|].
    exact (H 2048 Q Ha Hf Hq ltac:(cbn; lia) (le_n 1)).
  - destruct (mutex_control_unlock_refines demo_tid 1 1 512 0x5000 3 demo_unqueued eq_refl) as [_ H]; [done|].
    destruct (H demo_unqueued_first) as (Q' & E & H'); [done|]. injection E as <-. exact H'.
Defined.
