(* ===== verification/Time.v ===== *)
(** Time keeping: [src/generic/time.c]. *)
From S2P Require Import Prelude Defs Kernel Sched Alloc Caps Mapping Space.

Definition increase_jiffies : K unit := modify (fun s => s <| jiffies ::= fun j => u32 (j + 1) |>).

(** [systime] is updated by the timer irq: [thz] counts ticks of the current
    second, [sec], 64 bits wide, the seconds. *)
Definition tick (t : time_info) : time_info :=
  let t := if negb (reader t =? 0) then t <| reader := 0 |> else t in
  let t := t <| thz ::= fun n => u32 (n + 1) |> in
  if thz t =? CONFIG_SCHED_TICKS
  then t <| thz := 0 |> <| sec ::= fun n => (n + 1) mod 2 ^ 64 |> else t.
Definition update_system_time : K unit := modify (fun s => s <| systime ::= tick |>).

Definition in_kernel (s : kstate) : bool := Z.land (preempted_psr s) ARM_MODE_MASK =? ARM_MODE_SVC.

(** [ticks_left], [sched_granule] and the times are unsigned. *)
Definition update_process_times : K unit :=
  cur ← gets current;
  left_ ← tget cur ticks_left;
  nested ← gets in_nested_irq_context;
  pre ← gets preemptive;
  if left_ =? 0 then
    if nested || negb pre then mret tt else bug "update_process_times"
  else
    k ← gets in_kernel;
    (if (k : bool) then tmod cur (fun t => t <| kernel_time ::= fun n => u32 (n + 1) |>)
     else tmod cur (fun t => t <| user_time ::= fun n => u32 (n + 1) |>)) ;;
    tmod cur (fun t => t <| ticks_left ::= fun n => u32 (n - 1) |>) ;;
    tmod cur (fun t => t <| sched_granule ::= fun n => u32 (n - 1) |>) ;;
    left_ ← tget cur ticks_left;
    when (left_ =? 0) (tmod cur (fun t => t <| ts_need_resched := 1 |>)) ;;
    g ← tget cur sched_granule;
    when (g =? 0) (tmod cur (fun t => t <| ts_need_resched := 1 |>)).

Definition do_timer_irq : K Z :=
  increase_jiffies ;; update_process_times ;; update_system_time ;; mret 0.
Definition secondary_timer_irq : K Z := update_process_times ;; mret 0.

(** The microseconds are computed in 32 bits and stored, like the seconds, in
    an [int]. *)
Definition time_usec (t : time_info) : Z := u32 (1000000 * thz t) / CONFIG_SCHED_TICKS.
Definition time_sec (t : time_info) : Z := s32 (sec t).

Section Time.
Variable pager_pagein_request : Z -> Z -> Z -> K Z.
(** How many timer interrupts hit the attempt that has the given number of
    retries left: after [reader] is set, between the two reads, and before
    [reader] is tested. *)
Variable timer_irqs : nat -> nat * nat * nat.

Definition ticks (n : nat) : K unit := foreach (replicate n tt) (fun _ => update_system_time).

(** The retry loop, with the number of retries left; returns that number. *)
Fixpoint sys_time_loop (retries : nat) (tv : Z) : K nat :=
  match retries with
  | O => mret O
  | S n =>
      let '(a, b, c) := timer_irqs retries in
      modify (fun s => s <| systime ::= fun t => t <| reader := 1 |> |>) ;;
      ticks a ;;
      sec_ ← gets (fun s => time_sec (systime s));
      modify (fun s => s <| u_time ::= fun m => <[tv := (sec_, snd (m tv))]> m |>) ;;
      ticks b ;;
      usec ← gets (fun s => s32 (time_usec (systime s)));
      modify (fun s => s <| u_time ::= fun m => <[tv := (fst (m tv), usec)]> m |>) ;;
      ticks c ;;
      r ← gets (fun s => reader (systime s));
      if negb (r =? 0) then mret n else sys_time_loop n tv
  end.

Definition sys_time (tv set : Z) : K Z :=
  err ← check_access pager_pagein_request tv 8 MAP_USR_RW true;
  if err <? 0 then mret err
  else if set =? 0 then
    retries ← sys_time_loop 20 tv;
    mret (if bool_decide (retries = O) then - EBUSY else 0)
  else mret (- ENOSYS).
End Time.
