(* ===== verification/Clock.v ===== *)
(** The clock of [src/generic/time.c]: it counts timer interrupts, and
    [sys_time] reads seconds and microseconds of one moment although the timer
    may interrupt it anywhere. *)
From S2P Require Import Prelude Defs Kernel Exec SchedInv Space Time Demo.

(** Ticks since the start. *)
Definition clock (t : time_info) : Z := CONFIG_SCHED_TICKS * sec t + thz t.
Record clock_ok (t : time_info) : Prop := {
  ck_thz : 0 <= thz t < CONFIG_SCHED_TICKS;
  ck_sec : 0 <= sec t }.

Lemma tick_clock t : clock_ok t -> sec t + 1 < 2 ^ 64 -> clock_ok (tick t) /\ clock (tick t) = clock t + 1
  /\ sec (tick t) <= sec t + 1 /\ reader (tick t) = 0.
Proof.
  intros [H1 H2] H3. unfold CONFIG_SCHED_TICKS in *.
  assert (reader (if negb (reader t =? 0) then t <| reader := 0 |> else t) = 0
    /\ thz (if negb (reader t =? 0) then t <| reader := 0 |> else t) = thz t
    /\ sec (if negb (reader t =? 0) then t <| reader := 0 |> else t) = sec t) as (E1 & E2 & E3).
  { destruct (Z.eqb_spec (reader t) 0); by cbn. }
  unfold tick, clock, CONFIG_SCHED_TICKS. set (t0 := if negb _ then _ else _) in *. cbn. rewrite E2.
  rewrite (u32_id (thz t + 1)) by (unfold is_u32; lia). destruct (Z.eqb_spec (thz t + 1) 1000) as [E|E]; cbn.
  - rewrite E1, E3, (Z.mod_small (sec t + 1)) by lia. split_and!; [split; cbn; rewrite ?E3, ?(Z.mod_small (sec t + 1)) by lia; unfold CONFIG_SCHED_TICKS; lia|lia|lia|done].
  - rewrite E1, E2, E3, (u32_id (thz t + 1)) by (unfold is_u32; lia).
    split_and!; [split; cbn; rewrite ?E2, ?E3, ?(u32_id (thz t + 1)) by (unfold is_u32; lia); unfold CONFIG_SCHED_TICKS; lia|lia|lia|done].
Qed.

Definition ticked (n : nat) (t : time_info) : time_info := Nat.iter n tick t.
Lemma ticked_clock n t : clock_ok t -> sec t + Z.of_nat n < 2 ^ 64 ->
  clock_ok (ticked n t) /\ clock (ticked n t) = clock t + Z.of_nat n /\ sec (ticked n t) <= sec t + Z.of_nat n
  /\ reader (ticked n t) = if bool_decide (n = 0%nat) then reader t else 0.
Proof.
  intros Ht. induction n as [|n IH]; intros Hn; [cbn; split_and!; (done || lia)|].
  destruct IH as (H1 & H2 & H3 & H4); [lia|]. destruct (tick_clock (ticked n t) H1) as (T1 & T2 & T3 & T4); [lia|].
  change (ticked (S n) t) with (tick (ticked n t)). split_and!; [done|lia|lia|]. by rewrite bool_decide_false.
Qed.

Definition with_time (f : time_info -> time_info) (s : kstate) : kstate := s <| systime ::= f |>.
Lemma time_time f g s : with_time f (with_time g s) = with_time (fun t => f (g t)) s.
Proof. reflexivity. Qed.
Lemma time_ext f g s : f (systime s) = g (systime s) -> with_time f s = with_time g s.
Proof. intros E. destruct s. cbn in E. unfold with_time. state_cbv. by rewrite E. Qed.
Lemma ticks_run n s : ticks n s = Ret tt (with_time (ticked n) s).
Proof.
  revert s. induction n as [|n IH]; intros s; [by destruct s|].
  unfold ticks. cbn [replicate foreach]. fold (ticks n).
  rewrite (bind_ret _ (fun _ => ticks n) _ tt (with_time tick s)) by done.
  rewrite IH, time_time. f_equal. apply time_ext. apply Nat.iter_swap.
Qed.

(** The value [sys_time] stores for a moment of the clock. *)
Definition timeval (t : Z) : Z * Z := (s32 (t / CONFIG_SCHED_TICKS), 1000000 / CONFIG_SCHED_TICKS * (t mod CONFIG_SCHED_TICKS)).
Lemma timeval_read t : clock_ok t -> (time_sec t, s32 (time_usec t)) = timeval (clock t).
Proof.
  intros [H1 H2]. unfold timeval, clock, time_sec, time_usec, CONFIG_SCHED_TICKS in *.
  rewrite (u32_id (1000000 * thz t)) by (unfold is_u32; lia).
  replace (1000000 * thz t) with (1000 * thz t * 1000) by lia. rewrite Z.div_mul by lia. rewrite (s32_id (1000 * thz t)) by lia.
  rewrite (Z.add_comm (1000 * sec t)), (Z.mul_comm 1000 (sec t)), Z.div_add, Z.mod_add, Z.div_small, Z.mod_small by lia. done.
Qed.

Section Reading.
Context (irqs : nat -> nat * nat * nat).

(** No interrupt falls into the attempt that has [i] retries left. *)
Definition hits (i : nat) : nat := let '(a, b, c) := irqs i in (a + b + c)%nat.
Definition undisturbed (i : nat) : Prop := hits i = O.
Fixpoint all_hits (i : nat) : nat := match i with O => O | S i => (hits (S i) + all_hits i)%nat end.

(** The steps of an attempt, on the clock and the value stored. *)
Lemma step_time f s : exists s', modify (fun s => s <| systime ::= f |>) s = Ret tt s'
  /\ systime s' = f (systime s) /\ u_time s' = u_time s.
Proof. by eexists. Qed.
Lemma step_ticks n s : exists s', ticks n s = Ret tt s' /\ systime s' = ticked n (systime s) /\ u_time s' = u_time s.
Proof. exists (with_time (ticked n) s). split; [apply ticks_run|done]. Qed.
Lemma step_store f s : exists s', modify (fun s => s <| u_time ::= f |>) s = Ret tt s'
  /\ systime s' = systime s /\ u_time s' = f (u_time s).
Proof. by eexists. Qed.
Lemma bind_gets {A B} (f : kstate -> A) (k : A -> K B) s : (x ← gets f; k x) s = k (f s) s.
Proof. done. Qed.
Ltac step H := let s := fresh "s" in let E := fresh "E" in let T := fresh "T" in let U := fresh "U" in
  destruct H as (s & E & T & U); rewrite (bind_ret _ _ _ _ _ E); clear E.

(** One attempt: it is the last exactly when it is undisturbed. *)
Lemma attempt_run retries n tv s : retries = S n ->
  clock_ok (systime s) -> sec (systime s) + Z.of_nat (hits retries) < 2 ^ 64 ->
  exists s', clock_ok (systime s') /\ clock (systime s') = clock (systime s) + Z.of_nat (hits retries)
    /\ sec (systime s') <= sec (systime s) + Z.of_nat (hits retries)
    /\ if (hits retries =? 0)%nat
       then sys_time_loop irqs retries tv s = Ret n s' /\ u_time s' tv = timeval (clock (systime s'))
       else sys_time_loop irqs retries tv s = sys_time_loop irqs n tv s'.
Proof.
  intros -> Hk Hs. cbn [sys_time_loop]. unfold hits in *. destruct (irqs (S n)) as [[a b] c].
  set (t0 := systime s <| reader := 1 |>).
  assert (clock_ok t0 /\ clock t0 = clock (systime s) /\ sec t0 = sec (systime s)) as (H1 & H2 & H3) by (destruct Hk; done).
  step (step_time (fun t => t <| reader := 1 |>) s). fold t0 in T. step (step_ticks a s0). rewrite bind_gets.
  step (step_store (fun m => <[tv := (time_sec (systime s1), snd (m tv))]> m) s1). step (step_ticks b s2). rewrite bind_gets.
  step (step_store (fun m => <[tv := (fst (m tv), s32 (time_usec (systime s3)))]> m) s3). step (step_ticks c s4). rewrite bind_gets.
  assert (systime s5 = ticked (c + (b + a)) t0) as Ea 
    by (transitivity (ticked c (ticked b (ticked a t0))); [congruence|unfold ticked; by rewrite !Nat.iter_add]).
  destruct (ticked_clock (c + (b + a)) t0 H1) as (K1 & K2 & K3 & K4); [lia|]. rewrite <- Ea in K1, K2, K3, K4.
  exists s5. split; [done|]. split; [lia|]. split; [lia|]. rewrite K4.
  destruct (Nat.eqb_spec (a + b + c) 0) as [Hz|Hz].
  - assert (a = O /\ b = O /\ c = O) as (-> & -> & ->) by lia. split; [done|].
    rewrite <- (timeval_read _ K1), U4, U3, upd_eq, U2, U1, upd_eq. cbn [fst]. rewrite T4, T3, T2, T1. done.
  - rewrite bool_decide_false by lia. done.
Qed.

Lemma sys_time_loop_run retries tv s :
  clock_ok (systime s) -> sec (systime s) + Z.of_nat (all_hits retries) < 2 ^ 64 ->
  exists n s', clock_ok (systime s') /\ clock (systime s') = clock (systime s) + Z.of_nat n /\ (n <= all_hits retries)%nat
    /\ ((exists i, (1 <= i <= retries)%nat /\ undisturbed i /\ (forall j, (i < j <= retries)%nat -> ~ undisturbed j)
           /\ sys_time_loop irqs retries tv s = Ret (pred i) s'
           /\ u_time s' tv = timeval (clock (systime s')))
        \/ (forall i, (1 <= i <= retries)%nat -> ~ undisturbed i) /\ sys_time_loop irqs retries tv s = Ret O s').
Proof.
  revert s. induction retries as [|n IH]; intros s Hk Hs.
  { exists O, s. split_and!; [done|lia|done|]. right. split; [lia|done]. }
  destruct (attempt_run (S n) n tv s eq_refl Hk) as (s1 & Hk1 & Hc1 & Hs1 & H).
  { cbn [all_hits] in Hs. lia. }
  cbn [all_hits] in *. destruct (Nat.eqb_spec (hits (S n)) 0) as [Hq|Hq].
  - exists O, s1. destruct H as [H Hu]. split_and!; [done|lia|lia|]. left. exists (S n). by split_and!; [lia|lia|..|lia| |].
  - destruct (IH s1 Hk1) as (m & s2 & Hk2 & Hc2 & Hm & H2); [lia|].
    exists (hits (S n) + m)%nat, s2. split_and!; [done|lia|lia|]. rewrite H.
    destruct H2 as [(i & Hi & Hu & Hm' & E & Ev)|[Hn E]].
    { left. exists i. split_and!; [lia|lia|done| |done|done]. intros j Hj.
      destruct (decide (j = S n)) as [->|]; [done|]. apply Hm'. lia. }
    right. split; [|done]. intros i Hi. destruct (decide (i = S n)) as [->|]; [done|]. apply Hn. lia.
Qed.
End Reading.

(** C18: whenever and however often timer interrupts fall into it, [sys_time]
    terminates, the clock has advanced by the interrupts taken, and a call that
    returns 0 has stored the seconds and microseconds of one moment, the end of
    the call.  It answers [-EBUSY] exactly when none of the first nineteen of
    its twenty attempts is undisturbed, so also when the last one succeeds. *)
Theorem sys_time_reads_one_moment (req : Z -> Z -> Z -> K Z) (irqs : nat -> nat * nat * nat) (tv : Z) (s s1 : kstate) :
  check_access req tv 8 MAP_USR_RW true s = Ret 0 s1 ->
  clock_ok (systime s1) -> sec (systime s1) + Z.of_nat (all_hits irqs 20) < 2 ^ 64 ->
  exists r n s', sys_time req irqs tv 0 s = Ret r s' /\ (n <= all_hits irqs 20)%nat
    /\ clock (systime s') = clock (systime s1) + Z.of_nat n
    /\ (r = 0 /\ (exists i, (2 <= i <= 20)%nat /\ undisturbed irqs i) /\ u_time s' tv = timeval (clock (systime s'))
        \/ r = - EBUSY /\ forall i, (2 <= i <= 20)%nat -> ~ undisturbed irqs i).
Proof.
  intros Ha Hk Hs. destruct (sys_time_loop_run irqs 20 tv s1 Hk Hs) as (n & s' & _ & Hc & Hn & Hrun).
  assert (sys_time req irqs tv 0 s
    = obind (sys_time_loop irqs 20 tv s1) (fun m => mret (if bool_decide (m = O) then - EBUSY else 0))) as E.
  { unfold sys_time. by rewrite (bind_ret _ _ _ _ _ Ha). }
  rewrite E. destruct Hrun as [(i & Hi & Hu & Hm & -> & Hv)|[Hnone ->]]; cbn [obind mret].
  - destruct (decide (i = 1%nat)) as [->|Hi1].
    + exists (- EBUSY), n, s'. split_and!; [done|done|done|]. right. split; [done|]. intros j Hj. apply Hm. lia.
    + exists 0, n, s'. split_and!; [destruct i as [|[|i]]; [lia|done|done]|done|done|]. left. split_and!; [done| |done].
      exists i. split; [lia|done].
  - exists (- EBUSY), n, s'. split_and!; [done|done|done|]. right. split; [done|]. intros i Hi. apply Hnone. lia.
Qed.
Lemma sys_time_reads_one_moment_witness :
  let irqs := fun i => if Nat.eqb i 20 then (0, 1, 0)%nat else (0, 0, 0)%nat in
  exists r n s', sys_time (fun _ _ _ => mret 0) irqs 0x8000 0 demo = Ret r s' /\ (n <= all_hits irqs 20)%nat
    /\ clock (systime s') = clock (systime demo) + Z.of_nat n
    /\ (r = 0 /\ (exists i, (2 <= i <= 20)%nat /\ undisturbed irqs i) /\ u_time s' 0x8000 = timeval (clock (systime s'))
        \/ r = - EBUSY /\ forall i, (2 <= i <= 20)%nat -> ~ undisturbed irqs i).
Proof.
  intros irqs.
  assert (check_access (fun _ _ _ => mret 0) 0x8000 8 MAP_USR_RW true demo = Ret 0 demo) as Ha by (by vm_compute).
  assert (clock_ok (systime demo)) as Hk by (by split; vm_compute).
  assert (sec (systime demo) + Z.of_nat (all_hits irqs 20) < 2 ^ 64) as Hs by (by vm_compute).
  exact (sys_time_reads_one_moment _ irqs 0x8000 demo demo Ha Hk Hs).
Defined.
