(* ===== verification/Irq.v ===== *)
(** Interrupts: [src/generic/irq.c] with [include/l4/generic/irq.h], the PL190
    driver [src/drivers/irq/pl190/pl190_vic.c], the PB926 tables and handlers of
    [src/platform/pb926/irq.c], the SP804 timer driver
    [src/drivers/timer/sp804/timer.c], and the system call of [src/api/irq.c].
    The timer tick itself is in file Time. *)
From S2P Require Import Prelude Bits Defs Kernel Sched Alloc Caps Mapping Space Tcb Ipc Thread Time.

(** * Device registers *)

Definition read (address : Z) : K Z := gets (fun s => io s address).
Definition write (val address : Z) : K unit :=
  modify (fun s => s <| io ::= fun m => <[address := val]> m |>).
Definition setbit (w fl : Z) : K unit := v ← read w; write (Z.lor v fl) w.
Definition clrbit (w fl : Z) : K unit := v ← read w; write (Z.land v (lnot32 fl)) w.

Definition DEVICE_PAGE := 0x1000.
Definition PLATFORM_TIMER0_VBASE := IO_AREA_START + 0 * DEVICE_PAGE.
Definition PLATFORM_IRQCTRL0_VBASE := IO_AREA_START + 2 * DEVICE_PAGE.
Definition PLATFORM_IRQCTRL1_VBASE := IO_AREA_START + 3 * DEVICE_PAGE.
Definition PLATFORM_TIMER1_VBASE := IO_AREA_START + 6 * DEVICE_PAGE.
Definition PLATFORM_KEYBOARD0_VBASE := IO_AREA_START + 7 * DEVICE_PAGE.
Definition PLATFORM_MOUSE0_VBASE := IO_AREA_START + 8 * DEVICE_PAGE.

(** * SP804 timer *)

Definition SP804_LOAD := 0x0.
Definition SP804_VALUE := 0x4.
Definition SP804_CTRL := 0x8.
Definition SP804_INTCLR := 0xC.
Definition SP804_ENABLE := Z.shiftl 1 7.
Definition SP804_PERIODIC := Z.shiftl 1 6.
Definition SP804_IRQEN := Z.shiftl 1 5.
Definition SP804_32BIT := Z.shiftl 1 1.
Definition SP804_ONESHOT := Z.shiftl 1 0.
Definition SP804_SECONDARY_OFFSET := 0x20.

Definition timer_secondary_base (timer_base : Z) : Z := u32 (timer_base + SP804_SECONDARY_OFFSET).
Definition timer_irq_clear (timer_base : Z) : K unit := write 1 (timer_base + SP804_INTCLR).
Definition timer_start (timer_base : Z) : K unit :=
  reg ← read (timer_base + SP804_CTRL); write (Z.lor reg SP804_ENABLE) (timer_base + SP804_CTRL).
Definition timer_load (loadval timer_base : Z) : K unit := write loadval (timer_base + SP804_LOAD).
Definition timer_read (timer_base : Z) : K Z := read (timer_base + SP804_VALUE).
Definition timer_stop (timer_base : Z) : K unit := write 0 (timer_base + SP804_CTRL).
Definition timer_init_periodic (timer_base load_value : Z) : K unit :=
  write (Z.lor (Z.lor SP804_PERIODIC SP804_32BIT) SP804_IRQEN) (timer_base + SP804_CTRL) ;;
  if negb (load_value =? 0) then timer_load load_value timer_base else timer_load 1000 timer_base.
Definition timer_init_oneshot (timer_base : Z) : K unit :=
  reg ← read (timer_base + SP804_CTRL);
  write (Z.lor reg (Z.lor SP804_32BIT SP804_ONESHOT)) (timer_base + SP804_CTRL).
Definition timer_init (timer_base load_value : Z) : K unit := timer_init_periodic timer_base load_value.

(** * PL190 primary and secondary interrupt controllers *)

Definition IRQ_NIL := 0xFFFFFFFF.
Definition IRQ_SPURIOUS := 0xFFFFFFFE.
Definition IRQ_HANDLED := 0.

Definition PL190_VIC_IRQSTATUS := PLATFORM_IRQCTRL0_VBASE + 0x00.
Definition PL190_VIC_INTSELECT := PLATFORM_IRQCTRL0_VBASE + 0x0C.
Definition PL190_VIC_INTENABLE := PLATFORM_IRQCTRL0_VBASE + 0x10.
Definition PL190_VIC_INTENCLEAR := PLATFORM_IRQCTRL0_VBASE + 0x14.
Definition PL190_VIC_SOFTINTCLEAR := PLATFORM_IRQCTRL0_VBASE + 0x1C.
Definition PL190_VIC_PROTECTION := PLATFORM_IRQCTRL0_VBASE + 0x20.
Definition PL190_SIC_STATUS := PLATFORM_IRQCTRL1_VBASE + 0x0.
Definition PL190_SIC_ENABLE := PLATFORM_IRQCTRL1_VBASE + 0x08.
Definition PL190_SIC_ENSET := PLATFORM_IRQCTRL1_VBASE + 0x08.
Definition PL190_SIC_ENCLR := PLATFORM_IRQCTRL1_VBASE + 0x0C.
Definition PL190_SIC_PICENCLR := PLATFORM_IRQCTRL1_VBASE + 0x24.

(** [l4id_t] is unsigned: the test [irq < 0] never succeeds, and the empty
    status word gives [31 - 32] wrapped, which is [IRQ_NIL] itself. *)
Definition irq_of_status (status : Z) : Z :=
  let irq := u32 (31 - __clz status) in if irq <? 0 then IRQ_NIL else irq.
Definition pl190_read_irq : K Z := st ← read PL190_VIC_IRQSTATUS; mret (irq_of_status st).
Definition pl190_mask_irq (irq : Z) : K unit := write (u32 (Z.shiftl 1 irq)) PL190_VIC_INTENCLEAR.
Definition pl190_ack_irq (irq : Z) : K unit := pl190_mask_irq irq.
Definition pl190_unmask_irq (irq : Z) : K unit := setbit PL190_VIC_INTENABLE (u32 (Z.shiftl 1 irq)).
Definition pl190_sic_read_irq : K Z := st ← read PL190_SIC_STATUS; mret (irq_of_status st).
Definition pl190_sic_mask_irq (irq : Z) : K unit := write (u32 (Z.shiftl 1 irq)) PL190_SIC_ENCLR.
Definition pl190_sic_ack_irq (irq : Z) : K unit := pl190_sic_mask_irq irq.
Definition pl190_sic_unmask_irq (irq : Z) : K unit := setbit PL190_SIC_ENSET (u32 (Z.shiftl 1 irq)).
Definition pl190_vic_init : K unit :=
  write 0 PL190_VIC_INTENABLE ;;
  write 0xFFFFFFFF PL190_VIC_INTENCLEAR ;;
  write 0 PL190_VIC_INTSELECT ;;
  write 1 PL190_VIC_PROTECTION ;;
  write 0xFFFFFFFF PL190_VIC_SOFTINTCLEAR.
Definition pl190_sic_init : K unit :=
  write 0 PL190_SIC_ENABLE ;;
  write 0xFFFFFFFF PL190_SIC_ENCLR ;;
  write 0xFFFFFFFF PL190_SIC_PICENCLR.

(** * Chips *)

Record irq_chip := MkChip {
  cascade : Z; chip_start : Z; init : K unit; read_irq : K Z;
  ack_and_mask : Z -> K unit; unmask : Z -> K unit }.
Definition IRQ_CHIPS_MAX := 2.
Definition VIC_CHIP_OFFSET := 0.
Definition SIC_CHIP_OFFSET := 31.
Definition IRQS_MAX := 64.
Definition IRQ_SIC := 31 + VIC_CHIP_OFFSET.

Definition irq_chip_array : list irq_chip :=
  [ MkChip IRQ_SIC VIC_CHIP_OFFSET pl190_vic_init pl190_read_irq pl190_mask_irq pl190_unmask_irq;
    MkChip IRQ_NIL SIC_CHIP_OFFSET pl190_sic_init pl190_sic_read_irq pl190_sic_mask_irq
      pl190_sic_unmask_irq ].

(** [irq_desc_array] as initialised: the timers on the first chip, keyboard and
    mouse on the second. *)
Definition irq_desc_init (i : Z) : irq_desc :=
  if i =? 4 then MkIrqDesc (Some platform_timer_handler) (Some 0) 0 0
  else if i =? 5 then MkIrqDesc (Some platform_timer_user_handler) (Some 0) 0 0
  else if i =? 3 + SIC_CHIP_OFFSET then MkIrqDesc (Some platform_keyboard_user_handler) (Some 1) 0 0
  else if i =? 4 + SIC_CHIP_OFFSET then MkIrqDesc (Some platform_mouse_user_handler) (Some 1) 0 0
  else MkIrqDesc None None 0 0.

Definition chip_of (irq_index : Z) : K irq_chip :=
  c ← gets (fun s => chip (irq_descs s irq_index));
  match c ≫= fun i => irq_chip_array !! Z.to_nat i with
  | Some c => mret c
  | None => bug "null irq chip"
  end.
Definition irq_enable (irq_index : Z) : K unit :=
  this_chip ← chip_of irq_index; unmask this_chip (u32 (irq_index - chip_start this_chip)).
Definition irq_disable (irq_index : Z) : K unit :=
  this_chip ← chip_of irq_index; ack_and_mask this_chip (u32 (irq_index - chip_start this_chip)).

(** [cascade] is an [int]: [IRQ_NIL] is negative there.  The timer and chip
    operations of the tables are all set. *)
Definition cascade_irq_chip (this_chip : irq_chip) : K unit :=
  when (0 <=? s32 (cascade this_chip))
    (bug_on (IRQ_CHIPS_MAX =? 1) "cascade_irq_chip" ;; unmask this_chip (cascade this_chip)).
Definition irq_controllers_init : K unit :=
  foreach irq_chip_array (fun c => init c ;; cascade_irq_chip c).

Fixpoint find_irq (chips : list irq_chip) : K Z :=
  match chips with
  | [] => bug "global_irq_index"
  | this_chip :: chips =>
      irq_index ← read_irq this_chip;
      bug_on (irq_index =? IRQ_NIL) "global_irq_index" ;;
      if irq_index =? cascade this_chip then find_irq chips
      else mret (u32 (irq_index + chip_start this_chip))
  end.
Definition global_irq_index : K Z := find_irq irq_chip_array.

Definition desc_mod (i : Z) (f : irq_desc -> irq_desc) : K unit :=
  modify (fun s => s <| irq_descs ::= fun m => <[i := f (m i)]> m |>).

(** The descriptor is read before the index is checked, and the check lets
    [IRQS_MAX] itself pass: past the array, the C code reads and writes what
    lies behind it. *)
Definition irq_register (task notify_slot irq_index : Z) : K Z :=
  bug_on (IRQS_MAX <=? irq_index) "irq_register: irq_desc_array out of bounds" ;;
  d ← gets (fun s => irq_descs s irq_index);
  if negb (bool_decide (is_Some (handler d))) || negb (bool_decide (is_Some (chip d))) then
    mret (- ENOIRQ)
  else if IRQS_MAX <? irq_index then mret (- ENOIRQ)
  else
    desc_mod irq_index (fun d => d <| irq_task := task |>) ;;
    desc_mod irq_index (fun d => d <| task_notify_slot := notify_slot |>) ;;
    waitqueue_head_init (WQ_IRQ irq_index) ;;
    irq_enable irq_index ;;
    mret 0.

(** * Notification and the system call *)

(** Offset of [notify] in [struct utcb]; the slot is the caller's number,
    unchecked. *)
Definition UTCB_NOTIFY := 4 * MR_TOTAL + 4 + 4.
Definition notify_addr (utcb slot : Z) : Z := u32 (utcb + UTCB_NOTIFY + slot).

Section Irq.
Context (fuel : nat).
(** See file Fault. *)
Context (stray_exit_code : Z).
Variable pager_pagein_request : Z -> Z -> Z -> K Z.

Definition irq_thread_notify (desc : Z) : K Z :=
  task ← gets (fun s => irq_task (irq_descs s desc));
  bug_on (task =? 0) "irq_thread_notify: no task registered" ;;
  err ← tcb_check_and_lazy_map_utcb fuel pager_pagein_request task false;
  when (err <? 0) (_ ← thread_destroy fuel task stray_exit_code; mret tt) ;;
  utcb ← tget task utcb_address;
  slot ← gets (fun s => task_notify_slot (irq_descs s desc));
  n ← user_readb (notify_addr utcb slot);
  when (negb (n =? TASK_NOTIFY_MAXVALUE)) (user_writeb (notify_addr utcb slot) (n + 1)) ;;
  wake_up sched_resume_sync (WQ_IRQ desc) WAKEUP_ASYNC ;;
  BUG_ON (fun s => negb (irqs_enabled s)) "irq_thread_notify" ;;
  mret 0.

Definition PL050_KMICR := 0.
Definition PL050_KMI_RXINTR := Z.shiftl 1 4.

Definition run_handler (h : irq_handler) (desc : Z) : K Z :=
  match h with
  | platform_timer_handler => timer_irq_clear PLATFORM_TIMER0_VBASE ;; do_timer_irq
  | platform_timer_user_handler =>
      timer_irq_clear PLATFORM_TIMER1_VBASE ;; _ ← irq_thread_notify desc; mret 0
  | platform_keyboard_user_handler =>
      clrbit (PLATFORM_KEYBOARD0_VBASE + PL050_KMICR) PL050_KMI_RXINTR ;;
      _ ← irq_thread_notify desc; mret 0
  | platform_mouse_user_handler =>
      clrbit (PLATFORM_MOUSE0_VBASE + PL050_KMICR) PL050_KMI_RXINTR ;;
      _ ← irq_thread_notify desc; mret 0
  end.

Definition do_irq : K unit :=
  irq_index ← global_irq_index;
  bug_on (irq_index =? IRQ_SPURIOUS) "do_irq" ;;
  irq_disable irq_index ;;
  modify (with_irqs true) ;;
  h ← gets (fun s => handler (irq_descs s irq_index));
  match h with
  | None => bug "do_irq"
  | Some h => r ← run_handler h irq_index; bug_on (negb (r =? IRQ_HANDLED)) "do_irq"
  end ;;
  irq_enable irq_index.

Definition irq_control_register (task slot irqnum : Z) : K Z :=
  cur ← gets current;
  err ← tcb_check_and_lazy_map_utcb fuel pager_pagein_request cur true;
  if err <? 0 then mret err
  else
    err ← irq_register cur slot irqnum;
    if err <? 0 then mret err
    else tmod cur (set_flag TASK_REALTIME) ;; mret 0.

(** [l4_atomic_dest_readb] is one [swpb]: read the byte and store zero. *)
Definition l4_atomic_dest_readb (a : Z) : K Z := v ← user_readb a; user_writeb a 0 ;; mret v.

Definition irq_wait (irq_index : Z) : K Z :=
  utcb ← cur_get utcb_address;
  if IRQS_MAX <? irq_index then mret (- EINVAL)
  else
    cur ← gets current;
    ret ← tcb_check_and_lazy_map_utcb fuel pager_pagein_request cur true;
    if ret <? 0 then mret ret
    else
      bug_on (irq_index =? IRQS_MAX) "irq_wait: irq_desc_array out of bounds" ;;
      ret ← WAIT_EVENT fuel (WQ_IRQ irq_index)
              (slot ← gets (fun s => task_notify_slot (irq_descs s irq_index));
               n ← user_readb (notify_addr utcb slot);
               mret (negb (n =? 0)));
      if ret <? 0 then mret ret
      else
        slot ← gets (fun s => task_notify_slot (irq_descs s irq_index));
        l4_atomic_dest_readb (notify_addr utcb slot).

Definition sys_irq_control (req flags_ irqnum : Z) : K Z :=
  task ← gets current;
  err ← cap_irq_check task req irqnum;
  if err <? 0 then mret err
  else if req =? IRQ_CONTROL_REGISTER then irq_control_register task flags_ irqnum
  else if req =? IRQ_CONTROL_WAIT then irq_wait irqnum
  else mret (- EINVAL).
End Irq.
