(* ===== verification/Syscalls.v ===== *)
(** The remaining system calls and the dispatcher: [src/api/map.c], [cap.c],
    [cache.c], [syscall.c], and [src/glue/arm/systable.c] with the cache
    functions of [src/arch/arm/v5/cache.c]. *)
From S2P Require Import Prelude Defs Kernel Sched Alloc Caps Mapping Space Tcb Ipc Thread Fault.
From S2P Require Import Exregs Umutex Time Irq.

(** * Mapping *)

Definition user_map_flags_validate (flags_ : Z) : bool :=
  (flags_ =? MAP_USR_RO) || (flags_ =? MAP_USR_RW) || (flags_ =? MAP_USR_RWX)
  || (flags_ =? MAP_USR_RX) || (flags_ =? MAP_USR_IO).

Section Syscalls.
Context (fuel : nat).

Definition sys_map (phys virt npages flags_ tid_ : Z) : K Z :=
  target ← tcb_find tid_;
  if target =? 0 then mret (- ESRCH)
  else if negb (user_map_flags_validate flags_) then mret (- EINVAL)
  else if (npages =? 0) || (phys =? 0) || (virt =? 0) then mret (- EINVAL)
  else
    err ← cap_map_check target phys virt npages flags_;
    if err <? 0 then mret err
    else
      sp ← tget target space;
      add_mapping_space fuel phys virt (u32 (Z.shiftl npages PAGE_BITS)) flags_ sp.

(** Every page is tried; the result is that of the last failure. *)
Fixpoint unmap_pages (n : nat) (space_ virtual retval : Z) : K Z :=
  match n with
  | O => mret retval
  | S n =>
      ret ← remove_mapping_space space_ virtual;
      unmap_pages n space_ (u32 (virtual + PAGE_SIZE)) (if negb (ret =? 0) then ret else retval)
  end.
Definition sys_unmap (virtual npages tid_ : Z) : K Z :=
  target ← tcb_find tid_;
  if target =? 0 then mret (- ESRCH)
  else if (npages =? 0) || (virtual =? 0) then mret (- EINVAL)
  else
    ret ← cap_unmap_check target virtual npages;
    if ret <? 0 then mret ret
    else
      sp ← tget target space;
      unmap_pages (Z.to_nat npages) sp virtual 0.

(** * Cache control: maintenance has no effect on this state *)
Definition arch_invalidate_icache (start end_ : Z) : K unit := mret tt.
Definition arch_invalidate_dcache (start end_ : Z) : K unit := mret tt.
Definition arch_clean_dcache (start end_ : Z) : K unit := mret tt.
Definition arch_clean_invalidate_dcache (start end_ : Z) : K unit := mret tt.
Definition arch_invalidate_tlb (start end_ : Z) : K unit := mret tt.

Definition sys_cache_control (start end_ flags_ : Z) : K Z :=
  ret ← cap_cache_check start end_ flags_;
  if ret <? 0 then mret ret
  else if flags_ =? L4_INVALIDATE_ICACHE then arch_invalidate_icache start end_ ;; mret ret
  else if flags_ =? L4_INVALIDATE_DCACHE then arch_invalidate_dcache start end_ ;; mret ret
  else if flags_ =? L4_CLEAN_DCACHE then arch_clean_dcache start end_ ;; mret ret
  else if flags_ =? L4_CLEAN_INVALIDATE_DCACHE then arch_clean_invalidate_dcache start end_ ;; mret ret
  else if flags_ =? L4_INVALIDATE_TLB then arch_invalidate_tlb start end_ ;; mret ret
  else mret (- EINVAL).

Definition sys_schedule : K Z := mret 0.
Definition sys_container_control (req flags_ userbuf : Z) : K Z := mret 0.

(** * Calls with user buffers *)

Section Buffers.
Variable pager_pagein_request : Z -> Z -> Z -> K Z.

Definition sys_getid (ids : Z) : K Z :=
  err ← check_access pager_pagein_request ids 12 MAP_USR_RW true;
  if err <? 0 then mret err
  else
    t ← gets (fun s => tcbs s (current s));
    i ← gets (fun s => spid (spaces s (space t)));
    ids_mod ids (fun _ => MkIds (tid t) i (tgid t)) ;;
    mret 0.

(** The capabilities of the task's space, then those of its container, in list
    order. *)
Definition cap_read_all (caparray : Z) : K Z :=
  modify (fun s =>
    let t := tcbs s (current s) in
    let l := caps (caplists s (CL_SPACE (space t))) ++ caps (caplists s (CL_CONT (container t))) in
    s <| u_caps ::= fun m => <[caparray := capmem s <$> l]> m |>) ;;
  mret 0.

(** [sizeof(struct capability)]: a link and nine words. *)
Definition CAPABILITY_SIZE := 44.
Definition sys_capability_control (req flags_ userbuf : Z) : K Z :=
  cur ← gets current;
  if req =? CAP_CONTROL_NCAPS then
    err ← check_access pager_pagein_request userbuf 4 MAP_USR_RW true;
    if err <? 0 then mret err
    else
      n ← cap_count cur;
      modify (fun s => s <| u_int ::= fun m => <[userbuf := n]> m |>) ;;
      mret 0
  else if req =? CAP_CONTROL_READ then
    n ← cap_count cur;
    err ← check_access pager_pagein_request userbuf (u32 (n * CAPABILITY_SIZE)) MAP_USR_RW true;
    if err <? 0 then mret err else cap_read_all userbuf
  else mret (- EINVAL).
End Buffers.

(** * Dispatch *)

Definition ARM_SYSCALL_PAGE := 0xFFFFF000.
Definition syscall_offset_mask := 0xFF.
Definition sys_ipc_offset := 0x0.
Definition sys_thread_switch_offset := 0x4.
Definition sys_thread_control_offset := 0x8.
Definition sys_exchange_registers_offset := 0xC.
Definition sys_schedule_offset := 0x10.
Definition sys_unmap_offset := 0x14.
Definition sys_irq_control_offset := 0x18.
Definition sys_ipc_control_offset := 0x1C.
Definition sys_map_offset := 0x20.
Definition sys_getid_offset := 0x24.
Definition sys_capability_control_offset := 0x28.
Definition sys_container_control_offset := 0x2C.
Definition sys_time_offset := 0x30.
Definition sys_mutex_control_offset := 0x34.
Definition sys_cache_control_offset := 0x38.
Definition syscalls_end_offset := sys_cache_control_offset.

Section Dispatch.
(** Nesting of page-in requests, the stray exit code of file Fault and the
    timer interrupts of file Time. *)
Context (depth : nat) (stray_exit_code : Z) (timer_irqs : nat -> nat * nat * nat).
Definition pagein : Z -> Z -> Z -> K Z := pager_pagein_request fuel stray_exit_code depth.

Definition arch_sys_ipc (regs_ : regs) : K Z := sys_ipc fuel pagein (regs_ R0) (regs_ R1) (regs_ R2).
Definition arch_sys_thread_switch (regs_ : regs) : K Z := sys_thread_switch.
Definition arch_sys_thread_control (regs_ : regs) : K Z :=
  sys_thread_control fuel pagein (regs_ R0) (regs_ R1).
Definition arch_sys_exchange_registers (regs_ : regs) : K Z :=
  sys_exchange_registers pagein (regs_ R0) (regs_ R1).
Definition arch_sys_schedule (regs_ : regs) : K Z := sys_schedule.
Definition arch_sys_getid (regs_ : regs) : K Z := sys_getid pagein (regs_ R0).
Definition arch_sys_unmap (regs_ : regs) : K Z := sys_unmap (regs_ R0) (regs_ R1) (regs_ R2).
Definition arch_sys_irq_control (regs_ : regs) : K Z :=
  sys_irq_control fuel pagein (regs_ R0) (regs_ R1) (regs_ R2).
Definition arch_sys_ipc_control (regs_ : regs) : K Z := sys_ipc_control.
Definition arch_sys_map (regs_ : regs) : K Z :=
  sys_map (regs_ R0) (regs_ R1) (regs_ R2) (regs_ R3) (regs_ R4).
Definition arch_sys_capability_control (regs_ : regs) : K Z :=
  sys_capability_control pagein (regs_ R0) (regs_ R1) (regs_ R2).
Definition arch_sys_container_control (regs_ : regs) : K Z :=
  sys_container_control (regs_ R0) (regs_ R1) (regs_ R2).
Definition arch_sys_time (regs_ : regs) : K Z := sys_time pagein timer_irqs (regs_ R0) (regs_ R1).
Definition arch_sys_mutex_control (regs_ : regs) : K Z := sys_mutex_control fuel (regs_ R0) (regs_ R1).
Definition arch_sys_cache_control (regs_ : regs) : K Z :=
  sys_cache_control (regs_ R0) (regs_ R1) (regs_ R2).

(** [syscall_table] as filled by [syscall_init], an entry per word offset. *)
Definition syscall_table : list (regs -> K Z) :=
  [ arch_sys_ipc; arch_sys_thread_switch; arch_sys_thread_control; arch_sys_exchange_registers;
    arch_sys_schedule; arch_sys_unmap; arch_sys_irq_control; arch_sys_ipc_control; arch_sys_map;
    arch_sys_getid; arch_sys_capability_control; arch_sys_container_control; arch_sys_time;
    arch_sys_mutex_control; arch_sys_cache_control ].

(** The registers are read from the frame [regs] points to.  The mask test on
    the page address accepts any address whose upper twenty bits are set. *)
Definition syscall (frame : sysref) (swi_addr : Z) : K Z :=
  if Z.land swi_addr ARM_SYSCALL_PAGE =? ARM_SYSCALL_PAGE then
    if Z.land swi_addr syscall_offset_mask <=? syscalls_end_offset then
      regs_ ← gets (fun s => sysctx s frame);
      ret ← match syscall_table !! Z.to_nat (Z.shiftr (Z.land swi_addr 0xFF) 2) with
            | Some f => f regs_
            | None => bug "syscall_table out of bounds"
            end;
      cur ← gets current;
      f ← tget cur flags;
      when (flag_set f TASK_SUSPENDING)
        (BUG_ON (fun s => negb (nlocks (tcbs s cur) =? 0)) "syscall" ;;
         sched_suspend_sync) ;;
      mret ret
    else mret (- ENOSYS)
  else mret (- ENOSYS).
End Dispatch.
End Syscalls.
