(* ===== verification/Resource.v ===== *)
(** Boot-time resource accounting: [src/generic/bootmem.c],
    [src/generic/resource.c], the cache set-up of [src/lib/memcache.c] and
    [add_boot_mapping] of [src/arch/arm/mapping-common.c].  The allocation
    functions of [resource.c] that run after boot are in file Alloc.

    The container descriptions [cinfo] are generated at build time and the
    addresses of the kernel image come from the linker: all are arguments. *)
From S2P Require Import Prelude Defs Kernel Sched Alloc Caps Mapping Space Tcb.

(** * Cache set-up *)

(** [sizeof(struct mem_cache)]: list, mutex and six words. *)
Definition SIZEOF_MEM_CACHE := 52.

Definition bitmap_words (n : Z) : Z :=
  Z.shiftr n 5 + (if negb (Z.land n 0x1F =? 0) then 1 else 0).

Definition mem_cache_bufsize (start struct_size nstructs : Z) (aligned : bool) : Z :=
  let start_address := align_up start 4 in
  let total_bytes := s32 (struct_size * nstructs) in
  let bitmap_size := bitmap_words nstructs * 4 in
  let start_address := u32 (start_address + bitmap_size + total_bytes + SIZEOF_MEM_CACHE) in
  let start_address := if aligned then align_up start_address struct_size else start_address in
  s32 (start_address - start).

(** The cache structure and its address, or nothing for a buffer too small.
    [BUG_ON(diff >= struct_size)] is [None] as well: the property
    [mem_cache_init_layout] shows it is not reached. *)
Definition mem_cache_init (bufstart cache_size struct_size : Z) (aligned : bool) : option (Z * mem_cache) :=
  let start := align_up bufstart 4 in
  let cache_size := s32 (cache_size - (start - bufstart)) in
  if (struct_size <? 0) || (cache_size <? 0) || (start =? 0xFFFFFFFF) then None
  else
    let area_start := u32 (start + SIZEOF_MEM_CACHE) in
    let cache_size := s32 (cache_size - SIZEOF_MEM_CACHE) in
    if cache_size <? struct_size then None
    else
      let bwords := bitmap_words (Z.quot cache_size struct_size) in
      let cache_size := s32 (cache_size - bwords * 4) in
      let total := Z.quot cache_size struct_size in
      if (total <=? 0) || (cache_size <=? 0) then None
      else
        let area_start := u32 (area_start + bwords * 4) in
        let addr_aligned := align_up area_start struct_size in
        let diff := u32 (addr_aligned - area_start) in
        let map := replicate (Z.to_nat bwords) 0 in
        if aligned then
          if struct_size <=? diff then None
          else
            let cache_size := s32 (cache_size - diff) in
            let total := Z.quot cache_size struct_size in
            Some (start, MkCache total total addr_aligned (u32 (addr_aligned + cache_size)) struct_size map)
        else
          Some (start, MkCache total total area_start (u32 (area_start + cache_size)) struct_size map).

(** * Boot memory *)

Definition BOOTMEM_SIZE := 4 * 0x1000.

(** [struct cap_info], [struct pager_info], [struct container_info],
    [struct boot_resources]; a memory region is its start, end and type. *)
Record cap_info := MkCapInfo {
  ci_target : Z; ci_type : Z; ci_access : Z; ci_start : Z; ci_end : Z; ci_size : Z }.
Record pager_info := MkPagerInfo {
  pager_lma : Z; pager_vma : Z; pager_size : Z; pi_start_address : Z; pi_rw_start : Z; pi_rw_end : Z;
  pi_rx_start : Z; pi_rx_end : Z; pi_caps : list cap_info }.
Record container_info := MkContInfo { ci_caps : list cap_info; ci_pagers : list pager_info }.
Record boot_resources := MkBootres {
  nconts : Z; b_ncaps : Z; nthreads : Z; nspaces : Z; npmds : Z; nmutex : Z }.
#[export] Instance boot_resources_shape : Shape boot_resources := fun b =>
  MkBootres (nconts b) (b_ncaps b) (nthreads b) (nspaces b) (npmds b) (nmutex b).
Definition MEM_TYPE_RAM := 0.
Definition MEM_TYPE_DEV := 1.

Section Resource.
Context (fuel : nat).
(** Addresses of the [bootmem] array and of [init_pgd]. *)
Context (bootmem init_pgd : Z).

(** The memory is zeroed by the callers below, each at the type it uses. *)
Definition alloc_bootmem (size alignment : Z) : K Z :=
  cursor ← gets bootmem_cursor;
  let cursor :=
    if negb (alignment =? 0) then
      (if negb (is_aligned cursor alignment) then align_up cursor alignment else cursor)
    else if 4 <=? size then (if negb (is_aligned cursor 4) then align_up cursor 4 else cursor)
    else cursor in
  modify (fun s => s <| bootmem_cursor := u32 (cursor + size) |>) ;;
  BUG_ON (fun s => bootmem + BOOTMEM_SIZE <=? bootmem_cursor s) "alloc_bootmem" ;;
  mret cursor.

Definition alloc_boot_cap : K Z :=
  cap ← alloc_bootmem 44 0; capmod cap (fun _ => cap_zero) ;; mret cap.
Definition alloc_boot_pmd : K Z :=
  pmd ← alloc_bootmem PMD_SIZE PMD_SIZE;
  modify (fun s => s <| pmds ::= fun m => <[pmd := fun _ => 0]> m |>) ;; mret pmd.

Fixpoint boot_map_pages (n : nat) (physical virtual ptflags : Z) : K unit :=
  match n with
  | O => mret tt
  | S n =>
      pmd_table ← pmd_exists init_pgd virtual;
      (if pmd_table =? 0 then
         pmd_table ← alloc_boot_pmd;
         pte ← arch_prepare_pte physical virtual ptflags;
         arch_write_pte (pmd_table, PMD_INDEX virtual) pte ;;
         sp ← cur_get space;
         attach_pmd sp pmd_table virtual
       else arch_prepare_write_pte physical virtual ptflags (pmd_table, PMD_INDEX virtual)) ;;
      boot_map_pages n (u32 (physical + PAGE_SIZE)) (u32 (virtual + PAGE_SIZE)) ptflags
  end.
Definition add_boot_mapping (physical virtual sz_bytes flags_ : Z) : K unit :=
  bug_on (sz_bytes <? PAGE_SIZE) "add_boot_mapping" ;;
  let flags_ := space_flags_to_ptflags flags_ in
  bug_on (flags_ =? 0) "add_boot_mapping" ;;
  boot_map_pages (Z.to_nat (map_npages sz_bytes)) physical virtual flags_.

(** * Memory capabilities *)

(** The new capability gets the tail of the range; its type stays zero. *)
Definition memcap_split (cap : Z) (clist : cl_ref) (start end_ : Z) : K Z :=
  new ← alloc_boot_cap;
  BUG_ON (fun s => (start <=? cstart (capmem s cap)) || (cend (capmem s cap) <=? end_)) "memcap_split" ;;
  e ← gets (fun s => cend (capmem s cap));
  capmod new (fun c => c <| cend := e |>) ;;
  capmod new (fun c => c <| cstart := end_ |>) ;;
  capmod cap (fun c => c <| cend := start |>) ;;
  a ← gets (fun s => access (capmem s cap));
  capmod new (fun c => c <| access := a |>) ;;
  cap_list_insert new clist ;;
  mret 0.

Definition memcap_shrink (cap start end_ : Z) : K Z :=
  c ← gets (fun s => capmem s cap);
  if cstart c <? start then
    bug_on (cend c <=? start) "memcap_shrink" ;;
    capmod cap (fun c => c <| cend := start |>) ;;
    mret 0
  else if end_ <? cend c then
    bug_on (end_ <=? cstart c) "memcap_shrink" ;;
    capmod cap (fun c => c <| cstart := end_ |>) ;;
    mret 0
  else bug "memcap_shrink".

(** A capability covered by the range is unlinked; [ncaps] keeps its value. *)
Definition memcap_unmap_range (cap : Z) (clist : cl_ref) (start end_ : Z) : K Z :=
  c ← gets (fun s => capmem s cap);
  if (cstart c <? start) && (end_ <? cend c) then memcap_split cap clist start end_
  else if ((start <=? cstart c) && (end_ <? cend c)) || ((cstart c <? start) && (cend c <=? end_)) then
    memcap_shrink cap start end_
  else if (start <=? cstart c) && (cend c <=? end_) then
    clmod clist (fun l => l <| caps ::= list_del cap |>) ;; mret 0
  else bug "memcap_unmap_range".

Definition overlaps (start end_ : Z) (c : capability) : bool :=
  set_intersection start end_ (cstart c) (cend c).

(** An overlap with the used list, or a failure, ends in [BUG()]. *)
Definition memcap_unmap (used_list : option cl_ref) (clist : cl_ref) (unmap_start unmap_end : Z) : K Z :=
  match used_list with
  | Some u => BUG_ON (fun s => existsb (fun c => overlaps unmap_start unmap_end (capmem s c))
                                 (caps (caplists s u))) "memcap_unmap: range in use"
  | None => mret tt
  end ;;
  cap ← gets (fun s => first_cap s (overlaps unmap_start unmap_end) (caps (caplists s clist)));
  if cap =? 0 then mret (- EEXIST)
  else
    ret ← memcap_unmap_range cap clist unmap_start unmap_end;
    bug_on (negb (ret =? 0)) "memcap_unmap" ;;
    mret 0.

(** * Copying the build-time descriptions *)

Definition copy_cap_info (clist : cl_ref) (cap_infos : list cap_info) : K unit :=
  foreach cap_infos (fun i =>
    cap ← alloc_boot_cap;
    capmod cap (fun c => c <| resid := ci_target i |> <| ctype := ci_type i |> <| access := ci_access i |>
                           <| cstart := ci_start i |> <| cend := ci_end i |> <| csize := ci_size i |>) ;;
    cap_list_insert cap clist).

Definition copy_pager_info (c i : Z) (pinfo : pager_info) : K Z :=
  contmod c (fun ct => ct <| pagers ::= fun l => <[Z.to_nat i :=
    MkPager (__pfn_to_addr (pager_lma pinfo)) (__pfn_to_addr (pager_vma pinfo)) (pi_start_address pinfo)
      (__pfn_to_addr (pager_size pinfo)) (pi_rw_start pinfo) (pi_rw_end pinfo) (pi_rx_start pinfo)
      (pi_rx_end pinfo)]> l |>) ;;
  copy_cap_info (CL_PAGER c i) (pi_caps pinfo) ;;
  mret 0.

Fixpoint copy_pagers (c i : Z) (l : list pager_info) : K unit :=
  match l with
  | [] => mret tt
  | p :: l => _ ← copy_pager_info c i p; copy_pagers c (i + 1) l
  end.
(** The name is not part of the model's container. *)
Definition copy_container_info (c : Z) (cinfo : container_info) : K Z :=
  contmod c (fun ct => ct <| npagers := Z.of_nat (length (ci_pagers cinfo)) |>) ;;
  copy_cap_info (CL_CONT c) (ci_caps cinfo) ;;
  copy_pagers c 0 (ci_pagers cinfo) ;;
  mret 0.

(** * Accounting for the descriptions *)

Definition info_rtype (c : cap_info) : Z := Z.land (ci_type c) CAP_RTYPE_MASK.
Definition info_type (c : cap_info) : Z := Z.land (ci_type c) CAP_TYPE_MASK.

Definition count_pool (cap : cap_info) (b : boot_resources) : boot_resources :=
  if info_rtype cap =? CAP_RTYPE_THREADPOOL then b <| nthreads ::= Z.add (ci_size cap) |>
  else if info_rtype cap =? CAP_RTYPE_SPACEPOOL then b <| nspaces ::= Z.add (ci_size cap) |>
  else if info_rtype cap =? CAP_RTYPE_MUTEXPOOL then b <| nmutex ::= Z.add (ci_size cap) |>
  else if info_rtype cap =? CAP_RTYPE_MAPPOOL then b <| npmds ::= Z.add (ci_size cap) |>
  else b.

Definition process_cap_info (cap : cap_info) (bootres : boot_resources) : K boot_resources :=
  (if info_type cap =? CAP_TYPE_MAP_VIRTMEM then
     _ ← memcap_unmap (Some CL_VIRT_USED) CL_VIRT_FREE (ci_start cap) (ci_end cap); mret tt
   else if info_type cap =? CAP_TYPE_MAP_PHYSMEM then
     ret ← memcap_unmap (Some CL_PHYS_USED) CL_PHYS_FREE (ci_start cap) (ci_end cap);
     when (ret =? - EEXIST)
       (ret ← memcap_unmap (Some CL_DEV_USED) CL_DEV_FREE (ci_start cap) (ci_end cap);
        bug_on (ret =? - EEXIST) "process_cap_info")
   else mret tt) ;;
  mret (count_pool cap bootres).

Fixpoint process_caps (l : list cap_info) (b : boot_resources) : K boot_resources :=
  match l with
  | [] => mret b
  | c :: l => b ← process_cap_info c b; process_caps l b
  end.
Fixpoint process_pagers (l : list pager_info) (b : boot_resources) : K boot_resources :=
  match l with
  | [] => mret b
  | p :: l =>
      b ← process_caps (pi_caps p) (b <| b_ncaps ::= Z.add (Z.of_nat (length (pi_caps p))) |>);
      process_pagers l b
  end.
Fixpoint process_containers (l : list container_info) (b : boot_resources) : K boot_resources :=
  match l with
  | [] => mret b
  | c :: l =>
      b ← process_caps (ci_caps c) (b <| b_ncaps ::= Z.add (Z.of_nat (length (ci_caps c))) |>);
      b ← process_pagers (ci_pagers c) b;
      process_containers l b
  end.

(** * Caches carved out of free physical memory *)

Fixpoint carve_cache (c : cache_ref) (nstruct struct_size_ : Z) (aligned : bool) (l : list Z) : K unit :=
  match l with
  | [] => modify (fun s => s <| cache_ptr ::= fun m => <[c := 0]> m |>)
  | cap :: l =>
      cp ← gets (fun s => capmem s cap);
      let phys := __pfn_to_addr (cstart cp) in
      let bufsize := u32 (mem_cache_bufsize phys struct_size_ nstruct aligned) in
      if bufsize <=? __pfn_to_addr (u32 (cend cp - cstart cp)) then
        let virtual := phys_to_virt phys in
        pmdc ← gets (fun s => cache_ptr s PMD_CACHE);
        (if pmdc =? 0 then add_boot_mapping phys virtual (page_align_up bufsize) MAP_KERN_RW
         else (sp ← cur_get space;
               _ ← add_mapping_space fuel phys virtual (page_align_up bufsize) MAP_KERN_RW sp; mret tt)) ;;
        _ ← memcap_unmap_range cap CL_PHYS_FREE (cstart cp) (cstart cp + __pfn (page_align_up bufsize));
        match mem_cache_init virtual (s32 bufsize) struct_size_ aligned with
        | None => modify (fun s => s <| cache_ptr ::= fun m => <[c := 0]> m |>)
        | Some (p, mc) =>
            modify (fun s => s <| caches ::= fun m => <[c := mc]> m |>
                               <| cache_ptr ::= fun m => <[c := p]> m |>) ;;
            mutex_init (MX_CACHE c)
        end
      else carve_cache c nstruct struct_size_ aligned l
  end.
Definition init_resource_cache (c : cache_ref) (nstruct struct_size_ : Z) (aligned : bool) : K unit :=
  l ← gets (fun s => caps (caplists s CL_PHYS_FREE)); carve_cache c nstruct struct_size_ aligned l.

(** [sizeof(struct address_space)] and [sizeof(struct mutex_queue)]. *)
Definition SIZEOF_SPACE := 36.
Definition SIZEOF_MUTEX_QUEUE := 48.
Definition PGD_SIZE := 4 * PGD_ENTRY_TOTAL.

Definition init_resource_allocators (b : boot_resources) : K unit :=
  init_resource_cache PGD_CACHE (nspaces b) PGD_SIZE true ;;
  init_resource_cache SPACE_CACHE (nspaces b) SIZEOF_SPACE false ;;
  init_resource_cache KTCB_CACHE (nthreads b) PAGE_SIZE true ;;
  init_resource_cache MUTEX_CACHE (nmutex b) SIZEOF_MUTEX_QUEUE false ;;
  init_resource_cache PMD_CACHE (npmds b) PMD_SIZE true.

Definition kernel_setup_physmem (mem_regions : list (Z * Z * Z)) : K unit :=
  foreach mem_regions (fun r =>
    let '(start, end_, type) := r in
    physmem ← alloc_boot_cap;
    capmod physmem (fun c => c <| cstart := __pfn start |>) ;;
    capmod physmem (fun c => c <| cend := __pfn end_ |>) ;;
    if type =? MEM_TYPE_RAM then cap_list_insert physmem CL_PHYS_FREE
    else if type =? MEM_TYPE_DEV then cap_list_insert physmem CL_DEV_FREE
    else bug "kernel_setup_physmem").
End Resource.
