(* ===== verification/Boot.v ===== *)
(** Boot-time set-up of memory caches: what [mem_cache_init] and
    [mem_cache_bufsize] of [src/lib/memcache.c] lay out satisfies the invariant
    that allocation relies on (file Caches). *)
From S2P Require Import Prelude Bits Defs Words Kernel Exec Sched SchedInv Demo Waiting Alloc Mutexes Caches Resource.

(** * The layout of a cache *)

Lemma align_up4 a : 0 <= a -> a + 3 < 2 ^ 32 -> a <= align_up a 4 < a + 4 /\ align_up a 4 mod 4 = 0.
Proof.
  intros H1 H2. unfold align_up. change (u32 (4 - 1)) with (2 ^ 2 - 1).
  rewrite land_lnot32_floor by (apply u32_range || lia). rewrite u32_id by (unfold is_u32; lia).
  change (2 ^ 2) with 4. pose proof (Z.div_mod (a + (4 - 1)) 4 ltac:(lia)). pose proof (Z.mod_pos_bound (a + (4 - 1)) 4 ltac:(lia)).
  split; [lia|]. by apply Z.mod_mul.
Qed.
(** Rounding up to a power of two. *)
Lemma align_up_pow2 a k : 0 <= k <= 31 -> 0 <= a -> a + 2 ^ k <= 2 ^ 32 ->
  a <= align_up a (2 ^ k) < a + 2 ^ k /\ align_up a (2 ^ k) mod 2 ^ k = 0.
Proof.
  intros Hk H1 H2. assert (0 < 2 ^ k) as Hp by (apply Z.pow_pos_nonneg; lia).
  unfold align_up. rewrite (u32_id (2 ^ k - 1)) by (unfold is_u32; lia).
  rewrite land_lnot32_floor by (apply u32_range || lia). rewrite u32_id by (unfold is_u32; lia).
  pose proof (Z.div_mod (a + (2 ^ k - 1)) (2 ^ k) ltac:(lia)). pose proof (Z.mod_pos_bound (a + (2 ^ k - 1)) (2 ^ k) ltac:(lia)).
  split; [lia|]. apply Z.mod_mul. lia.
Qed.

Lemma bitmap_words_div n : 0 <= n -> n <= bitmap_words n * 32 < n + 32.
Proof.
  intros Hn. unfold bitmap_words. change 0x1F with (2 ^ 5 - 1). rewrite land_ones_mod, Z.shiftr_div_pow2 by lia.
  change (2 ^ 5) with 32. pose proof (Z.div_mod n 32 ltac:(lia)). pose proof (Z.mod_pos_bound n 32 ltac:(lia)).
  destruct (Z.eqb_spec (n mod 32) 0); cbn [negb]; lia.
Qed.

Lemma filter_everything {A} (P : A -> Prop) `{forall x, Decision (P x)} (l : list A) :
  (forall x, x ∈ l -> P x) -> filter P l = l.
Proof.
  induction l as [|x l IH]; intros Hl; [done|].
  rewrite filter_cons_True by (apply Hl; left). f_equal. apply IH. intros y Hy. apply Hl. by right.
Qed.
Lemma clear_bits_zero n total : 0 <= total -> clear_bits (replicate n 0) total = total.
Proof.
  intros Ht. unfold clear_bits. rewrite filter_everything; [rewrite length_seqZ; lia|].
  intros i _. unfold bit_at, word_get. destruct (replicate n 0 !! _) as [w|] eqn:E; [|apply Z.bits_0].
  apply lookup_replicate in E as [-> _]. apply Z.bits_0.
Qed.

(** What is known of a cache made in a buffer of [size] bytes at [buf]. *)
Record laid_out (buf size ssize : Z) (p : Z) (mc : mem_cache) : Prop := {
  lo_inv : cache_inv mc;
  lo_struct : struct_size mc = ssize;
  lo_header : buf <= p /\ p mod 4 = 0;
  lo_area : p + SIZEOF_MEM_CACHE + 4 * Z.of_nat (length (mc_bitmap mc)) <= mc_start mc;
  lo_end : mc_end mc <= buf + size;
  lo_empty : mc_free mc = mc_total mc }.

(** The layout: header, [w] words of bitmap, [d] bytes of padding, elements. *)
Definition carve (start w d room ssize : Z) : mem_cache :=
  let area := start + SIZEOF_MEM_CACHE + 4 * w + d in
  MkCache ((room - d) / ssize) ((room - d) / ssize) area (area + (room - d)) ssize (replicate (Z.to_nat w) 0).

(** Arguments for which no sum wraps around; elements are aligned to powers of two. *)
Record cache_request (buf size ssize : Z) (aligned : bool) : Prop := {
  cr_buf : 0 <= buf;
  cr_size : 0 <= size < 2 ^ 31;
  cr_struct : 0 < ssize < 2 ^ 31;
  cr_sum : buf + size + ssize + 3 < 2 ^ 32;
  cr_pow : aligned = true -> exists k, 0 <= k <= 31 /\ ssize = 2 ^ k }.

(** The room left by the header, and its bitmap. *)
Definition room_after_header (buf size : Z) : Z := size - (align_up buf 4 - buf) - SIZEOF_MEM_CACHE.
Definition bitmap_for (buf size ssize : Z) : Z := bitmap_words (room_after_header buf size / ssize).

Definition padding (aligned : bool) (area ssize : Z) : Z := if aligned then align_up area ssize - area else 0.

Lemma mem_cache_init_eq buf size ssize aligned :
  cache_request buf size ssize aligned ->
  let w := bitmap_for buf size ssize in
  let r := room_after_header buf size in
  let p := align_up buf 4 in
  mem_cache_init buf size ssize aligned
  = if (ssize <=? r) && (ssize <=? r - 4 * w)
    then Some (p, carve p w (padding aligned (p + SIZEOF_MEM_CACHE + 4 * w) ssize) (r - 4 * w) ssize) else None.
Proof.
  intros [Hb Hs Hz Hbs Hpow] w r start. unfold mem_cache_init.
  destruct (align_up4 buf) as [Hal Hal4]; [lia|lia|].
  fold start in Hal, Hal4 |- *. assert (SIZEOF_MEM_CACHE = 52) as Eh by done.
  assert (r = size - (start - buf) - SIZEOF_MEM_CACHE) as Er by done.
  rewrite (s32_id (size - (start - buf))) by lia. rewrite <- Er.
  destruct (start =? 0xFFFFFFFF) eqn:E3; [lia|].
  destruct (Z.leb_spec ssize r) as [E4|E4]; cbn [andb].
  2: { destruct (_ || _ || _) eqn:E2; [done|]. rewrite (s32_id r) by lia.
       destruct (r <? ssize) eqn:E5; [done|lia]. }
  replace (ssize <? 0) with false by lia. replace (size - (start - buf) <? 0) with false by lia. cbn [orb].
  rewrite (s32_id r) by lia. replace (r <? ssize) with false by lia.
  rewrite (Z.quot_div_nonneg r ssize) by lia.
  rewrite (u32_id (start + SIZEOF_MEM_CACHE)) by (unfold is_u32; lia).
  change (bitmap_words (r / ssize)) with w.
  assert (0 <= r / ssize <= r) as Hn by (split; [apply Z.div_pos; lia|apply Z.div_le_upper_bound; nia]).
  assert (r / ssize <= w * 32 < r / ssize + 32) as Hw by (apply bitmap_words_div; lia).
  rewrite (Z.mul_comm w 4). rewrite (s32_id (r - 4 * w)) by lia. set (room := r - 4 * w) in *.
  destruct (Z.leb_spec ssize room) as [Hrm|Hrm].
  2: { destruct (room <=? 0) eqn:E6; [by rewrite orb_true_r|]. rewrite Z.quot_div_nonneg, Z.div_small by lia. done. }
  rewrite !(Z.quot_div_nonneg room ssize) by lia.
  assert (0 < room / ssize) as Hd by (apply Z.div_str_pos; lia).
  replace (room / ssize <=? 0) with false by lia. replace (room <=? 0) with false by lia. cbn [orb].
  rewrite (u32_id (start + SIZEOF_MEM_CACHE + 4 * w)) by (unfold is_u32; lia).
  set (area := start + SIZEOF_MEM_CACHE + 4 * w) in *. assert (area + room = buf + size) as Hend by lia.
  unfold padding. destruct aligned.
  - destruct (Hpow eq_refl) as (k & Hk & Ek). destruct (align_up_pow2 area k Hk) as [Ha Ham]; [lia|lia|].
    rewrite <- Ek in Ha, Ham. set (d := align_up area ssize - area) in *. rewrite (u32_id d) by (unfold is_u32; lia).
    replace (ssize <=? d) with false by lia.
    rewrite s32_id by lia. unfold carve. rewrite Z.quot_div_nonneg by lia. fold area.
    replace (align_up area ssize) with (area + d) by lia. rewrite (u32_id (area + d + (room - d))) by (unfold is_u32; lia). done.
  - rewrite (u32_id (area + room)) by (unfold is_u32; lia).
    unfold carve. fold area. by rewrite !Z.add_0_r, !Z.sub_0_r.
Qed.

Lemma padding_range buf size ssize aligned w :
  cache_request buf size ssize aligned -> 0 <= w ->
  let area := align_up buf 4 + SIZEOF_MEM_CACHE + 4 * w in
  area <= buf + size ->
  0 <= padding aligned area ssize < ssize /\ if aligned then (area + padding aligned area ssize) mod ssize = 0 else padding aligned area ssize = 0.
Proof.
  intros [Hb Hs Hz Hbs Hpow] Hw area Ha. destruct (align_up4 buf) as [Hal Hal4]; [lia|lia|].
  unfold padding, SIZEOF_MEM_CACHE in *. destruct aligned; [|lia].
  destruct (Hpow eq_refl) as (k & Hk & Ek). destruct (align_up_pow2 area k Hk) as [H1 H2]; [lia|lia|].
  rewrite <- Ek in H1, H2. split; [lia|]. by replace (area + (align_up area ssize - area)) with (align_up area ssize) by lia.
Qed.

Lemma carve_inv start w d room ssize :
  0 <= start -> 0 < ssize -> 0 <= w -> 0 <= d < ssize -> ssize <= room ->
  room / ssize <= w * 32 -> start + SIZEOF_MEM_CACHE + 4 * w + room < 2 ^ 32 ->
  cache_inv (carve start w d room ssize).
Proof.
  intros H1 H2 H3 H4 H5 H6 H7. unfold SIZEOF_MEM_CACHE in *.
  assert (0 <= (room - d) / ssize <= room / ssize) as Hd.
  { split; [apply Z.div_pos; lia|apply Z.div_le_mono; lia]. }
  split; unfold carve; cbn.
  - rewrite length_replicate. unfold WORD_BITS. lia.
  - done.
  - pose proof (Z.mul_div_le (room - d) ssize H2). unfold SIZEOF_MEM_CACHE. lia.
  - rewrite clear_bits_zero; [done|lia].
Qed.

Lemma room_fits buf size ssize aligned w :
  cache_request buf size ssize aligned -> 0 <= room_after_header buf size -> w = bitmap_for buf size ssize ->
  align_up buf 4 + SIZEOF_MEM_CACHE + 4 * w + (room_after_header buf size - 4 * w) = buf + size
  /\ (room_after_header buf size - 4 * w) / ssize <= w * 32.
Proof.
  intros [Hb Hs Hz Hbs _] Hr ->. unfold bitmap_for.
  assert (0 <= room_after_header buf size / ssize) as Hn by (apply Z.div_pos; lia).
  pose proof (bitmap_words_div _ Hn) as Hw. split; [unfold room_after_header; lia|].
  transitivity (room_after_header buf size / ssize); [apply Z.div_le_mono; lia|lia].
Qed.

(** The cache that [mem_cache_init] lays out in a buffer satisfies the
    cache invariant: its header and its bitmap come first, both inside the
    buffer, its elements end where the buffer does or before, one bit is there
    for each, all of them are free, and aligned elements start at a multiple
    of their size. *)
Theorem mem_cache_init_layout buf size ssize aligned p mc :
  cache_request buf size ssize aligned ->
  mem_cache_init buf size ssize aligned = Some (p, mc) ->
  laid_out buf size ssize p mc
  /\ if aligned then mc_start mc mod ssize = 0 else 0 < mc_total mc.
Proof.
  intros Hq. rewrite mem_cache_init_eq by done.
  destruct (Z.leb_spec ssize (room_after_header buf size)) as [Hr|]; [|done].
  destruct (Z.leb_spec ssize (room_after_header buf size - 4 * bitmap_for buf size ssize)) as [Hm|]; [|done].
  cbn [andb]. intros [= <- <-].
  pose proof Hq as [Hb Hs Hz Hbs _]. destruct (align_up4 buf) as [Hal Hal4]; [lia|lia|].
  destruct (room_fits _ _ _ _ _ Hq ltac:(lia) eq_refl) as [He Hf].
  assert (0 <= bitmap_for buf size ssize) as Hw.
  { pose proof (bitmap_words_div (room_after_header buf size / ssize)). unfold bitmap_for.
    assert (0 <= room_after_header buf size / ssize) by (apply Z.div_pos; lia). lia. }
  destruct (padding_range buf size ssize aligned _ Hq Hw) as [Hp Ha]; [unfold SIZEOF_MEM_CACHE in *; lia|].
  set (room := room_after_header buf size) in *. set (w := bitmap_for buf size ssize) in *.
  split; [split|].
  - apply carve_inv; lia.
  - done.
  - split; lia.
  - cbn. rewrite length_replicate. lia.
  - cbn. lia.
  - done.
  - destruct aligned; [exact Ha|]. cbn. rewrite Z.sub_0_r. apply Z.div_str_pos. lia.
Qed.
Lemma mem_cache_init_layout_witness : exists p mc,
  cache_request 0xF0200001 0x4000 0x400 true /\ mem_cache_init 0xF0200001 0x4000 0x400 true = Some (p, mc)
  /\ laid_out 0xF0200001 0x4000 0x400 p mc /\ mc_start mc mod 0x400 = 0.
Proof.
  assert (cache_request 0xF0200001 0x4000 0x400 true) as Hq.
  { split; try lia. intros _. exists 10. lia. }
  eexists _, _. split; [exact Hq|]. split; [vm_compute; reflexivity|].
  exact (mem_cache_init_layout _ _ _ true _ _ Hq eq_refl).
Defined.

(** * The size that [mem_cache_bufsize] asks for *)


(** * The size that [mem_cache_bufsize] asks for *)

(** A number of elements whose bitmap takes less room than one element. *)
Record cache_plan (start n ssize : Z) (aligned : bool) : Prop := {
  cp_start : 0 <= start;
  cp_count : 1 <= n;
  cp_bitmap : 4 * bitmap_words n < ssize;
  cp_fits : ssize * n + 3 * ssize + 64 < 2 ^ 31;
  cp_sum : start + ssize * n + 4 * ssize + 64 < 2 ^ 32;
  cp_pow : aligned = true -> exists k, 0 <= k <= 31 /\ ssize = 2 ^ k }.

Lemma ceil_unique a b m x : 0 < m -> x <= a < x + m -> a mod m = 0 -> x <= b < x + m -> b mod m = 0 -> a = b.
Proof.
  intros Hm Ha Ha' Hb Hb'. pose proof (Z.div_mod a m ltac:(lia)) as E. pose proof (Z.div_mod b m ltac:(lia)) as E'.
  assert (a / m = b / m) by nia. lia.
Qed.

(** The size, with the padding that makes its end a multiple of the element size. *)
Lemma mem_cache_bufsize_run start n ssize aligned :
  cache_plan start n ssize aligned ->
  exists pad, 0 <= pad < ssize
    /\ room_after_header start (mem_cache_bufsize start ssize n aligned) = 4 * bitmap_words n + ssize * n + pad
    /\ cache_request start (mem_cache_bufsize start ssize n aligned) ssize aligned
    /\ if aligned then (align_up start 4 + SIZEOF_MEM_CACHE + 4 * bitmap_words n + pad) mod ssize = 0 else pad = 0.
Proof.
  intros [H1 H2 H3 H4 H5 H6]. pose proof (bitmap_words_div n ltac:(lia)) as Hb.
  destruct (align_up4 start) as [Hal Hal4]; [lia|nia|].
  assert (0 < ssize) as Hz by lia. assert (ssize <= ssize * n) as Hm by nia. assert (ssize < 2 ^ 31) as Hz' by lia.
  unfold mem_cache_bufsize, room_after_header, SIZEOF_MEM_CACHE.
  rewrite (s32_id (ssize * n)) by nia. rewrite (Z.mul_comm (bitmap_words n) 4).
  set (p := align_up start 4) in *. set (w := bitmap_words n) in *. set (y := p + 4 * w + ssize * n + 52).
  assert (0 <= y) as Hy by (unfold y; lia). rewrite (u32_id y) by (unfold is_u32, y; lia).
  destruct aligned.
  - destruct (H6 eq_refl) as (k & Hk & Ek). destruct (align_up_pow2 y k Hk) as [Ha Ham]; [lia|unfold y; lia|].
    rewrite <- Ek in Ha, Ham. set (e := align_up y ssize) in *.
    assert (0 <= e - start < 2 ^ 31) as He by (unfold y in Ha; lia). rewrite (s32_id (e - start)) by lia.
    exists (e - y). split; [lia|]. split; [unfold y; lia|]. split.
    + split; [lia|lia|lia| |done]. unfold y in Ha. lia.
    + replace (p + 52 + 4 * w + (e - y)) with (e - n * ssize) by (unfold y; lia).
      by rewrite Zminus_mod, Ham, Z_mod_mult.
  - assert (0 <= y - start < 2 ^ 31) as He by (unfold y; lia). rewrite (s32_id (y - start)) by lia.
    exists 0. split; [lia|]. split; [unfold y; lia|]. split; [|done].
    split; [lia|lia|lia| |done]. unfold y. lia.
Qed.

Lemma multiple_of_4 k ssize p x pad :
  0 <= k -> ssize = 2 ^ k -> 4 < ssize -> p mod 4 = 0 -> (p + x) mod ssize = 0 -> 0 < pad ->
  (exists q, x = 4 * q + pad) -> 4 <= pad.
Proof.
  intros Hk Ek Hs Hp Hx Hpad [q ->]. assert (2 < k) as Hk'.
  { apply (Z.pow_lt_mono_r_iff 2); [lia|lia|]. rewrite <- Ek. change (2 ^ 2) with 4. lia. }
  assert (ssize = 4 * 2 ^ (k - 2)) as E.
  { rewrite Ek. change 4 with (2 ^ 2). rewrite <- Z.pow_add_r by lia. f_equal. lia. }
  pose proof (Z.div_mod p 4 ltac:(lia)). pose proof (Z.div_mod (p + (4 * q + pad)) ssize ltac:(lia)) as Hd.
  rewrite Hx, E in Hd. destruct (Z.lt_ge_cases pad 4); [|done]. exfalso.
  assert (4 * (2 ^ (k - 2) * ((p + (4 * q + pad)) / (4 * 2 ^ (k - 2))) - p / 4 - q) = pad); lia.
Qed.

(** a buffer of the size that [mem_cache_bufsize] computes is enough:
    [mem_cache_init] makes a cache of exactly the number of elements asked
    for, as long as the bitmap for that number is smaller than one element. *)
Theorem mem_cache_bufsize_is_enough start n ssize aligned :
  cache_plan start n ssize aligned ->
  exists p mc, mem_cache_init start (mem_cache_bufsize start ssize n aligned) ssize aligned = Some (p, mc)
    /\ mc_total mc = n.
Proof.
  intros Hp. destruct (mem_cache_bufsize_run _ _ _ _ Hp) as (pad & Hpad & Hr & Hq & Ha).
  rewrite mem_cache_init_eq by done. destruct Hp as [H1 H2 H3 H4 H5 H6]. unfold bitmap_for. rewrite Hr.
  set (size := mem_cache_bufsize start ssize n aligned) in *. set (p := align_up start 4) in *.
  set (w := bitmap_words n) in *. pose proof (bitmap_words_div n ltac:(lia)) as Hb. fold w in Hb.
  assert (0 < ssize) as Hz by lia.
  set (n' := (4 * w + ssize * n + pad) / ssize).
  assert (n' = n \/ n' = n + 1 /\ ssize <= 4 * w + pad) as Hn.
  { unfold n'. replace (4 * w + ssize * n + pad) with (4 * w + pad + n * ssize) by lia. rewrite Z.div_add by lia.
    destruct (Z.lt_ge_cases (4 * w + pad) ssize); [rewrite Z.div_small by lia; by left|].
    right. split; [|done]. rewrite <- (Z.div_unique (4 * w + pad) ssize 1 (4 * w + pad - ssize)); lia. }
  set (w' := bitmap_words n'). pose proof (bitmap_words_div n' ltac:(lia)) as Hb'. fold w' in Hb'.
  assert (w' = w \/ w' = w + 1 /\ ssize <= 4 * w + pad) as Hw.
  { destruct Hn as [E|[E Hx]]; [left; unfold w'; by rewrite E|]. rewrite E in Hb'.
    destruct (Z.eq_dec w' w); [by left|right; lia]. }
  assert (align_up start 4 + SIZEOF_MEM_CACHE + 4 * w' <= start + size) as Hin.
  { pose proof Hr as Hr'. unfold room_after_header in Hr'. fold p in Hr' |- *. nia. }
  destruct (padding_range start size ssize aligned w' Hq ltac:(lia) Hin) as [Hd Hdm]. fold p in Hd, Hdm, Hin.
  set (area := p + SIZEOF_MEM_CACHE + 4 * w') in *. set (d := padding aligned area ssize) in *.
  assert (4 * w + ssize * n + pad - 4 * w' - d = n * ssize) as E.
  { destruct Hw as [Ew|[Ew Hx]].
    - destruct aligned; [|lia]. unfold area in Hdm. rewrite Ew in Hdm.
      enough (p + SIZEOF_MEM_CACHE + 4 * w + pad = p + SIZEOF_MEM_CACHE + 4 * w + d) by lia.
      apply (ceil_unique _ _ ssize (p + SIZEOF_MEM_CACHE + 4 * w)); try done; lia.
    - destruct aligned; [|lia]. destruct (H6 eq_refl) as (k & Hk & Ek).
      enough (p + SIZEOF_MEM_CACHE + 4 * w + pad = area + d) by (unfold area in *; lia).
      assert (4 <= pad) as Hp4.
      { apply (multiple_of_4 k ssize p (SIZEOF_MEM_CACHE + 4 * w + pad) pad); [lia|lia|lia|by apply align_up4; lia| |lia|].
        - by rewrite !Z.add_assoc.
        - exists (13 + w). unfold SIZEOF_MEM_CACHE. lia. }
      apply (ceil_unique _ _ ssize area); [lia|unfold area; lia|done|lia|done]. }
  assert (0 <= d) by lia. rewrite !(proj2 (Z.leb_le _ _)) by nia. cbn [andb].
  eexists _, _. split; [reflexivity|]. unfold carve. cbn. fold w'. fold p. fold area. fold d. rewrite E.
  apply Z.div_mul. lia.
Qed.
Lemma mem_cache_bufsize_is_enough_witness : exists p mc,
  cache_plan 0xF0200000 100 0x400 true
  /\ mem_cache_init 0xF0200000 (mem_cache_bufsize 0xF0200000 0x400 100 true) 0x400 true = Some (p, mc)
  /\ mc_total mc = 100.
Proof.
  assert (cache_plan 0xF0200000 100 0x400 true) as Hq.
  { split; try (vm_compute; congruence). intros _. exists 10. split; [lia|done]. }
  destruct (mem_cache_bufsize_is_enough _ _ _ _ Hq) as (p & mc & H1 & H2).
  exists p, mc. exact (conj Hq (conj H1 H2)).
Defined.

(** the bound of [mem_cache_bufsize_is_enough] is not respected by the
    cache of address spaces: its elements take 36 bytes, so for 288 of them
    the nine words of the bitmap leave room for one more element, whose bit
    needs a tenth word, and one element less than asked for is made. *)
Theorem space_cache_is_one_element_short :
  exists p mc, mem_cache_init 0xF0200000 (mem_cache_bufsize 0xF0200000 SIZEOF_SPACE 288 false) SIZEOF_SPACE false
    = Some (p, mc) /\ mc_total mc = 287.
Proof. eexists _, _. split; [vm_compute; reflexivity|done]. Qed.
