(* ===== verification/Memcaps.v ===== *)
(** Memory capabilities at boot: [memcap_unmap] of [src/generic/resource.c]
    takes a range of page frames out of a list of memory capabilities, by
    shrinking, splitting or unlinking the one that holds the range. *)
From S2P Require Import Prelude Defs Words Kernel Exec SchedInv Alloc Resource Boot Demo.

(** * The page frames of a list *)

Definition inside (c : capability) (pfn : Z) : Prop := cstart c <= pfn < cend c.
Definition covered (m : Z -> capability) (l : list Z) (pfn : Z) : Prop := exists c, c ∈ l /\ inside (m c) pfn.

Lemma covered_cons m c l p : covered m (c :: l) p <-> inside (m c) p \/ covered m l p.
Proof. unfold covered. set_solver. Qed.
Lemma covered_ext m m' l p : (forall c, c ∈ l -> m c = m' c) -> covered m l p <-> covered m' l p.
Proof. intros E. unfold covered. split; intros (c & Hc & Hp); exists c; (split; [done|]); [rewrite <- E by done|rewrite E by done]; done. Qed.
Lemma in_list_del c x l : c ∈ list_del x l <-> c <> x /\ c ∈ l.
Proof. unfold list_del. by rewrite list_elem_of_filter. Qed.
Lemma covered_del m x l p : x ∈ l -> covered m l p <-> inside (m x) p \/ covered m (list_del x l) p.
Proof.
  intros Hx. unfold covered. setoid_rewrite in_list_del. split.
  - intros (c & Hc & Hp). destruct (decide (c = x)) as [->|]; [by left|right; by exists c].
  - intros [Hp|(c & [_ Hc] & Hp)]; [by exists x|by exists c].
Qed.
Lemma covered_upd m x y l p : x ∈ l -> covered (<[x := y]> m) l p <-> inside y p \/ covered m (list_del x l) p.
Proof.
  intros Hx. rewrite (covered_del _ x) by done. rewrite upd_eq.
  rewrite (covered_ext (<[x := y]> m) m) by (intros c [Hc _]%in_list_del; by apply upd_ne). done.
Qed.

(** The capabilities of a list hold non-empty ranges with no page in common. *)
Record apart (m : Z -> capability) (l : list Z) : Prop := {
  ap_range : forall c, c ∈ l -> cstart (m c) < cend (m c);
  ap_apart : forall c c' p, c ∈ l -> c' ∈ l -> inside (m c) p -> inside (m c') p -> c = c' }.
Lemma apart_rest m l x p : apart m l -> x ∈ l -> inside (m x) p -> ~ covered m (list_del x l) p.
Proof. intros Ha Hx Hp (c & [Hn Hc]%in_list_del & Hp'). apply Hn. by eapply (ap_apart _ _ Ha). Qed.
Lemma apart_del m l x : apart m l -> apart m (list_del x l).
Proof.
  intros Ha. split.
  - intros c [_ Hc]%in_list_del. by apply (ap_range _ _ Ha).
  - intros c c' p [_ Hc]%in_list_del [_ Hc']%in_list_del. by apply (ap_apart _ _ Ha).
Qed.
Lemma apart_upd m l x y : apart m l -> x ∈ l -> cstart y < cend y -> (forall p, inside y p -> inside (m x) p) ->
  apart (<[x := y]> m) l.
Proof.
  intros Ha Hx Hr Hs.
  assert (forall c p, c ∈ l -> inside ((<[x := y]> m) c) p -> inside (m c) p) as Hi.
  { intros c p Hc. destruct (decide (x = c)) as [<-|Hn]; [rewrite upd_eq; apply Hs|by rewrite upd_ne]. }
  split.
  - intros c Hc. destruct (decide (x = c)) as [<-|Hn]; [by rewrite upd_eq|rewrite upd_ne by done; by apply (ap_range _ _ Ha)].
  - intros c c' p Hc Hc' Hp Hp'. apply (ap_apart _ _ Ha _ _ p); [done|done|by apply Hi|by apply Hi].
Qed.
Lemma apart_cons m l x : apart m l -> cstart (m x) < cend (m x) -> (forall p, inside (m x) p -> ~ covered m l p) ->
  apart m (x :: l).
Proof.
  intros Ha Hr Hd. split.
  - intros c [->|Hc]%elem_of_cons; [done|by apply (ap_range _ _ Ha)].
  - intros c c' p [->|Hc]%elem_of_cons [->|Hc']%elem_of_cons Hp Hp'; [done| | |by eapply (ap_apart _ _ Ha)].
    + destruct (Hd p Hp). by exists c'.
    + destruct (Hd p Hp'). by exists c.
Qed.

(** * The four ways to take a range out of a capability *)

Definition taken_out (m : Z -> capability) (l : list Z) (start end_ : Z) (m' : Z -> capability) (l' : list Z) : Prop :=
  apart m' l' /\ forall p, covered m' l' p <-> covered m l p /\ ~ (start <= p < end_).

(** Only the ranges matter. *)
Lemma taken_out_ext m l start end_ m1 m2 l' : taken_out m l start end_ m1 l' ->
  (forall c, c ∈ l' -> cstart (m2 c) = cstart (m1 c) /\ cend (m2 c) = cend (m1 c)) -> taken_out m l start end_ m2 l'.
Proof.
  intros [[Hr Ha] Hc] E.
  assert (forall c p, c ∈ l' -> inside (m2 c) p <-> inside (m1 c) p) as Ei.
  { intros c p Hl. destruct (E c Hl) as [E1 E2]. unfold inside. by rewrite E1, E2. }
  split; [split|].
  - intros c Hl. destruct (E c Hl) as [-> ->]. by apply Hr.
  - intros c c' p Hl Hl'. rewrite !Ei by done. by apply Ha.
  - intros p. rewrite <- Hc. unfold covered. split; intros (c & Hl & Hp); exists c; (split; [done|]); by apply (Ei c p Hl).
Qed.

Section Ways.
Context (m : Z -> capability) (l : list Z) (x start end_ : Z).
Hypothesis (Ha : apart m l) (Hx : x ∈ l) (Hr : start < end_) (Hin : cstart (m x) <= start /\ end_ <= cend (m x)).

Lemma rest_outside p : covered m (list_del x l) p -> ~ (start <= p < end_).
Proof. intros Hc Hp. apply (apart_rest m l x p Ha Hx); [unfold inside; lia|done]. Qed.

Lemma whole_taken_out : cstart (m x) = start -> cend (m x) = end_ -> taken_out m l start end_ m (list_del x l).
Proof.
  intros E1 E2. split; [by apply apart_del|]. intros p. rewrite (covered_del m x l) by done.
  pose proof (rest_outside p). unfold inside. rewrite E1, E2. tauto.
Qed.
Lemma piece_taken_out y : cstart y < cend y ->
  (forall p, inside y p <-> inside (m x) p /\ ~ (start <= p < end_)) -> taken_out m l start end_ (<[x := y]> m) l.
Proof.
  intros Hy Hp. split; [apply apart_upd; [done|done|done|]; by intros p [Hq _]%Hp|].
  intros p. rewrite covered_upd, (covered_del m x l) by done. rewrite Hp. pose proof (rest_outside p). tauto.
Qed.
Lemma middle_taken_out y z new : x <> new -> new ∉ l -> cstart y < cend y -> cstart z < cend z ->
  (forall p, inside y p -> ~ inside z p) ->
  (forall p, inside y p \/ inside z p <-> inside (m x) p /\ ~ (start <= p < end_)) ->
  taken_out m l start end_ (<[x := y]> (<[new := z]> m)) (new :: l).
Proof.
  intros Hn Hl Hy Hz Hd Hp. set (m1 := <[new := z]> m).
  assert (forall c, c ∈ l -> m1 c = m c) as Em by (intros c Hc; apply upd_ne; by intros ->).
  assert (m1 x = m x) as Ex by (by apply Em).
  assert (forall l' p, (forall c, c ∈ l' -> c ∈ l) -> covered m1 l' p <-> covered m l' p) as Ec.
  { intros l' p Hs. apply covered_ext. intros c Hc. by apply Em, Hs. }
  assert (apart m1 l) as Ha1.
  { split; [intros c Hc; rewrite Em by done; by apply (ap_range _ _ Ha)|].
    intros c c' p Hc Hc'. rewrite !Em by done. by apply (ap_apart _ _ Ha). }
  assert (apart (<[x := y]> m1) l) as Ha2.
  { apply apart_upd; [done|done|done|]. intros p Hq. rewrite Ex. destruct (Hp p) as [Hp' _]. tauto. }
  assert ((<[x := y]> m1) new = z) as En by (rewrite upd_ne by done; apply upd_eq).
  split.
  - apply apart_cons; [done|by rewrite En|]. intros p. rewrite En, covered_upd by done. intros Hq [Hq'|Hq'].
    + by apply (Hd p).
    + apply Ec in Hq'; [|by intros c [_ Hc]%in_list_del]. destruct (Hp p) as [Hp' _].
      apply (apart_rest m l x p Ha Hx); [tauto|done].
  - intros p. rewrite covered_cons, En, covered_upd by done.
    rewrite (Ec (list_del x l)) by (by intros c [_ Hc]%in_list_del). rewrite (covered_del m x l) by done.
    pose proof (rest_outside p). pose proof (Hp p). tauto.
Qed.
End Ways.

(** * The functions *)

(** Reads at written points, whose equalities are among the hypotheses. *)
Ltac writes := repeat first [rewrite upd_eq | rewrite upd_ne by done | progress cbn].

Section Run.
Context (bootmem : Z).

(** Boot memory for one more capability. *)
Definition boot_room (s : kstate) : Prop :=
  0 <= bootmem_cursor s /\ bootmem_cursor s + 48 <= bootmem + BOOTMEM_SIZE < 2 ^ 31.

Definition fresh_cap (new : Z) (s : kstate) : kstate :=
  with_cap new (fun _ => cap_zero) (s <| bootmem_cursor := new + 44 |>).
Lemma alloc_boot_cap_run s : boot_room s ->
  exists new, bootmem_cursor s <= new /\ alloc_boot_cap bootmem s = Ret new (fresh_cap new s).
Proof.
  intros [H1 H2]. destruct (align_up4 (bootmem_cursor s)) as [Ha _]; [lia|lia|].
  set (new := if negb (is_aligned (bootmem_cursor s) 4) then align_up (bootmem_cursor s) 4 else bootmem_cursor s).
  assert (bootmem_cursor s <= new < bootmem_cursor s + 4) as Hn by (unfold new; destruct (negb _); lia).
  exists new. split; [lia|]. exec alloc_boot_cap alloc_bootmem.
  change (negb (0 =? 0)) with false. change (4 <=? 44) with true. cbv iota. fold new.
  rewrite (u32_id (new + 44)) by (unfold is_u32; lia). cbn [bootmem_cursor set_field].
  assert ((bootmem + BOOTMEM_SIZE <=? new + 44) = false) as E by lia. cbn. rewrite E. reflexivity.
Qed.

Record holds_range (clist : cl_ref) (x start end_ : Z) (s : kstate) : Prop := {
  hr_apart : apart (capmem s) (caps (caplists s clist));
  hr_in : x ∈ caps (caplists s clist);
  hr_range : cstart (capmem s x) <= start < end_ /\ end_ <= cend (capmem s x);
  hr_old : forall c, c ∈ caps (caplists s clist) -> 0 < c < bootmem_cursor s;
  hr_room : boot_room s }.

(** The range has left the list and the other lists are as they were. *)
Definition range_gone (clist : cl_ref) (start end_ : Z) (s s' : kstate) : Prop :=
  taken_out (capmem s) (caps (caplists s clist)) start end_ (capmem s') (caps (caplists s' clist))
  /\ forall cl, cl <> clist -> caplists s' cl = caplists s cl.

Lemma memcap_split_run clist x start end_ s : holds_range clist x start end_ s ->
  cstart (capmem s x) < start -> end_ < cend (capmem s x) ->
  exists s', memcap_split bootmem x clist start end_ s = Ret 0 s' /\ range_gone clist start end_ s s'.
Proof.
  intros [Ha Hx Hr Ho Hb] H1 H2. destruct (alloc_boot_cap_run s Hb) as (new & Hn & E).
  assert (new ∉ caps (caplists s clist)) as Hl by (intros Hc%Ho; lia).
  assert (x <> new) as Hxn by (by intros ->).
  eexists. split.
  - unfold memcap_split. rewrite (bind_ret _ _ _ _ _ E). exec. cbn. rewrite (upd_ne _ new x) by done.
    assert ((start <=? cstart (capmem s x)) || (cend (capmem s x) <=? end_) = false) as -> by lia. cbn.
    reflexivity.
  - split; [|intros cl Hcl; cbn; by rewrite upd_ne by done]. cbn. rewrite (upd_eq (caplists s) clist). cbn.
    eapply (taken_out_ext _ _ _ _ (<[x := capmem s x <| cend := start |>]>
      (<[new := capmem s x <| cstart := end_ |>]> (capmem s)))).
    + apply (middle_taken_out _ _ x); first [done|unfold inside; cbn; lia].
    + intros c _. assert (new <> x) by congruence. destruct (decide (x = c)) as [<-|Hc]; [by writes|].
      destruct (decide (new = c)) as [<-|Hc']; by writes.
Qed.

Lemma memcap_shrink_run clist x start end_ s : holds_range clist x start end_ s ->
  start = cstart (capmem s x) /\ end_ < cend (capmem s x) \/ cstart (capmem s x) < start /\ end_ = cend (capmem s x) ->
  exists s', memcap_shrink x start end_ s = Ret 0 s' /\ range_gone clist start end_ s s'.
Proof.
  intros [Ha Hx Hr _ _] Hw. destruct Hw as [[E H]|[H E]].
  - exists (with_cap x (fun c => c <| cstart := end_ |>) s). split.
    + exec memcap_shrink. rewrite E, Z.ltb_irrefl. rewrite (proj2 (Z.ltb_lt _ _) H). exec.
      by rewrite (proj2 (Z.leb_gt _ _)) by lia.
    + split; [|done]. apply (piece_taken_out _ _ x); first [done|unfold inside; cbn; lia].
  - exists (with_cap x (fun c => c <| cend := start |>) s). split.
    + exec memcap_shrink. rewrite (proj2 (Z.ltb_lt _ _) H). exec. by rewrite (proj2 (Z.leb_gt _ _)) by lia.
    + split; [|done]. apply (piece_taken_out _ _ x); first [done|unfold inside; cbn; lia].
Qed.

Lemma memcap_unmap_range_run clist x start end_ s : holds_range clist x start end_ s ->
  exists s', memcap_unmap_range bootmem x clist start end_ s = Ret 0 s' /\ range_gone clist start end_ s s'.
Proof.
  intros H. pose proof (hr_range _ _ _ _ _ H) as [Hr1 Hr2]. exec memcap_unmap_range.
  destruct (Z.ltb_spec (cstart (capmem s x)) start) as [H1|H1], (Z.ltb_spec end_ (cend (capmem s x))) as [H2|H2]; cbn [andb orb].
  - by apply memcap_split_run.
  - rewrite (proj2 (Z.leb_le (cend (capmem s x)) end_)) by lia. rewrite (proj2 (Z.leb_gt start (cstart (capmem s x)))) by lia. cbn [andb orb].
    apply memcap_shrink_run; [done|lia].
  - rewrite (proj2 (Z.leb_le start (cstart (capmem s x)))) by lia. cbn [andb orb]. apply memcap_shrink_run; [done|lia].
  - rewrite (proj2 (Z.leb_le start (cstart (capmem s x)))) by lia. rewrite (proj2 (Z.leb_le (cend (capmem s x)) end_)) by lia. cbn [andb orb].
    exec. eexists. split; [reflexivity|]. split; [|intros cl Hcl; cbn; by rewrite upd_ne by done].
    cbn. rewrite (upd_eq (caplists s) clist). cbn. destruct H. apply (whole_taken_out _ _ x); try done; lia.
Qed.
End Run.

Lemma first_cap_only s (p : capability -> bool) l x :
  x ∈ l -> p (capmem s x) = true -> (forall c, c ∈ l -> p (capmem s c) = true -> c = x) -> first_cap s p l = x.
Proof.
  intros Hx Hp Ho. induction l as [|c l IH]; [by apply elem_of_nil in Hx|]. cbn.
  destruct (p (capmem s c)) eqn:E; [apply Ho; [left|done]|].
  apply elem_of_cons in Hx as [->|Hx]; [congruence|]. apply IH; [done|]. intros c' Hc'. apply Ho. by right.
Qed.
Lemma first_cap_none s (p : capability -> bool) l : (forall c, c ∈ l -> p (capmem s c) = false) -> first_cap s p l = 0.
Proof.
  induction l as [|c l IH]; intros Hl; [done|]. cbn. rewrite Hl by left. apply IH. intros c' Hc'. apply Hl. by right.
Qed.
Lemma overlaps_true start end_ c : overlaps start end_ c = true <-> cstart c < end_ /\ start < cend c.
Proof.
  unfold overlaps, set_intersection.
  destruct (Z.leb_spec end_ (cstart c)), (Z.leb_spec (cend c) start); cbn; split; intros; (done || lia).
Qed.

(** The list checked for ranges in use, if one is given, does not meet the range. *)
Definition not_in_use (used_list : option cl_ref) (start end_ : Z) (s : kstate) : Prop :=
  forall u c, used_list = Some u -> c ∈ caps (caplists s u) -> overlaps start end_ (capmem s c) = false.

Lemma memcap_unmap_reaches bootmem used_list clist start end_ s : not_in_use used_list start end_ s ->
  memcap_unmap bootmem used_list clist start end_ s
  = (let x := first_cap s (overlaps start end_) (caps (caplists s clist)) in
     if x =? 0 then Ret (- EEXIST) s
     else obind (memcap_unmap_range bootmem x clist start end_ s)
       (fun ret => (bug_on (negb (ret =? 0)) "memcap_unmap" ;; mret 0))).
Proof.
  intros Hu. exec memcap_unmap.
  assert (forall u, used_list = Some u ->
    existsb (fun c => overlaps start end_ (capmem s c)) (caps (caplists s u)) = false) as Hf.
  { intros u Eu. destruct (existsb _ _) eqn:E; [|done]. apply existsb_exists in E as (c & Hc & E).
    rewrite (Hu u c Eu) in E; [done|by apply list_elem_of_In]. }
  destruct used_list as [u|]; [rewrite (Hf u eq_refl)|]; exec; cbv zeta; by destruct (_ =? 0).
Qed.

(** [memcap_unmap] on a range that one capability of a list holds takes
    exactly that range out of the pages the list covers: the capability is
    shrunk, split in two or unlinked, the capabilities stay disjoint and the
    other lists are not changed. *)
Theorem memcap_unmap_takes_the_range bootmem used_list clist x start end_ s :
  holds_range bootmem clist x start end_ s -> not_in_use used_list start end_ s ->
  exists s', memcap_unmap bootmem used_list clist start end_ s = Ret 0 s'
    /\ apart (capmem s') (caps (caplists s' clist))
    /\ (forall pfn, covered (capmem s') (caps (caplists s' clist)) pfn
                    <-> covered (capmem s) (caps (caplists s clist)) pfn /\ ~ (start <= pfn < end_))
    /\ forall cl, cl <> clist -> caplists s' cl = caplists s cl.
Proof.
  intros H Hu. rewrite memcap_unmap_reaches by done. pose proof H as [Ha Hx [Hr1 Hr2] Ho _].
  rewrite (first_cap_only s _ _ x); [|done|apply overlaps_true; lia|].
  2: { intros c Hc [H1 H2]%overlaps_true.
       apply (ap_apart _ _ Ha c x (Z.max start (cstart (capmem s c)))); [done|done| |]; unfold inside; [|lia].
       pose proof (ap_range _ _ Ha c Hc). lia. }
  pose proof (Ho x Hx). cbv zeta. destruct (Z.eqb_spec x 0); [lia|].
  destruct (memcap_unmap_range_run _ _ _ _ _ _ H) as (s' & -> & [Hap Hcov] & Hcl). exec.
  exists s'. split_and!; [reflexivity|done|done|done].
Qed.

(** Two regions of memory, the first of which loses pages 0x10 to 0x20. *)
Definition demo_regions : kstate :=
  kstate_zero <| bootmem_cursor := 4200 |>
    <| capmem := <[4100 := cap_zero <| cstart := 0 |> <| cend := 0x100 |>]>
                 (<[4144 := cap_zero <| cstart := 0x200 |> <| cend := 0x300 |>]> (fun _ => cap_zero)) |>
    <| caplists := <[CL_PHYS_FREE := MkCapList 2 [4144; 4100]]> (fun _ => MkCapList 0 []) |>.
Lemma memcap_unmap_takes_the_range_witness :
  exists s', memcap_unmap 4096 (Some CL_PHYS_USED) CL_PHYS_FREE 0x10 0x20 demo_regions = Ret 0 s'
    /\ forall pfn, covered (capmem s') (caps (caplists s' CL_PHYS_FREE)) pfn
         <-> covered (capmem demo_regions) [4144; 4100] pfn /\ ~ (0x10 <= pfn < 0x20).
Proof.
  assert (holds_range 4096 CL_PHYS_FREE 4100 0x10 0x20 demo_regions) as H.
  { split; change (caps (caplists demo_regions CL_PHYS_FREE)) with [4144; 4100].
    - split; [intros c Hc|intros c c' p Hc Hc']; rewrite !elem_of_cons, elem_of_nil in Hc.
      + destruct Hc as [->|[->|[]]]; done.
      + rewrite !elem_of_cons, elem_of_nil in Hc'. unfold inside.
        destruct Hc as [->|[->|[]]], Hc' as [->|[->|[]]]; try done; writes; lia.
    - apply (bool_decide_unpack _). by vm_compute.
    - unfold demo_regions. writes. lia.
    - intros c Hc. rewrite !elem_of_cons, elem_of_nil in Hc. destruct Hc as [->|[->|[]]]; cbn; lia.
    - split; cbn; unfold BOOTMEM_SIZE; lia. }
  destruct (memcap_unmap_takes_the_range 4096 (Some CL_PHYS_USED) CL_PHYS_FREE 4100 0x10 0x20 demo_regions H)
    as (s' & E & _ & Hc & _).
  { intros u c [= <-] Hc. by apply elem_of_nil in Hc. }
  exists s'. exact (conj E Hc).
Defined.
