(* ===== verification/Container.v ===== *)
(** Containers and their pagers: [src/generic/container.c], [setup_idle_task] of
    [src/generic/idle.c], and [init_system_resources] of
    [src/generic/resource.c]. *)
From S2P Require Import Prelude Bits Defs Kernel Sched Alloc Caps Mapping Space Tcb Thread Umutex Resource.

(** [src/glue/arm/memory.c] *)
Definition task_init_registers (task pc : Z) : K unit :=
  context_set task PC pc ;; context_set task SPSR ARM_MODE_USR.
Definition copy_pgd_kernel_entries (to : Z) : K unit := arch_copy_pgd_kernel_entries to.

Definition cap_list_init (l : cl_ref) : K unit := clmod l (fun _ => MkCapList 0 []).

(** [sizeof(struct container)], [sizeof(struct pager)] and the configuration. *)
Definition SIZEOF_CONTAINER := 176.
Definition SIZEOF_PAGER := 52.
Definition CONFIG_MAX_PAGERS_USED := 1.
Definition pager_zero : pager_desc := MkPager 0 0 0 0 0 0 0 0.

Definition kres_insert_container (c : Z) : K unit :=
  spin_lock ;;
  kmod (fun k => k <| containers ::= cons c |>) ;;
  kmod (fun k => k <| ncont ::= Z.succ |>) ;;
  spin_unlock.

(** [struct ktcb] of the boot stack, with the kernel's space and directory. *)
Definition setup_idle_task (init_space init_pgd : Z) : K unit :=
  cur ← gets current;
  tmod cur (fun _ => ktcb_zero) ;;
  tmod cur (fun t => t <| space := init_space |>) ;;
  spmod init_space (fun p => p <| pgd := init_pgd |>) ;;
  cap_list_init (CL_SPACE init_space) ;;
  sched_init_task cur TASK_PRIO_NORMAL ;;
  tmod cur (fun t => t <| pager := 0 |>) ;;
  tmod cur (fun t => t <| tgid := u32 (-1) |>).

(** Pagers' capabilities get their run-time targets. *)
Definition update_capid (pager_ cap : Z) : K unit :=
  p ← gets (fun s => tcbs s pager_);
  capmod cap (fun c => c <| owner := tid p |>) ;;
  c ← gets (fun s => capmem s cap);
  when (cap_type c =? CAP_TYPE_QUANTITY) (capmod cap (fun c => c <| resid := CAP_RESID_NONE |>)) ;;
  when (cap_rtype c =? CAP_RTYPE_SPACE)
    (id ← gets (fun s => spid (spaces s (space p))); capmod cap (fun c => c <| resid := id |>)) ;;
  when (cap_rtype c =? CAP_RTYPE_THREAD)
    (target ← gets (fun s => resid (capmem s cap));
     tcont ← container_find target;
     bug_on (tcont =? 0) "update_dynamic_capids" ;;
     l ← gets (fun s => ktcb_list (conts s tcont));
     match l with
     | [] => bug "update_dynamic_capids"
     | tpager :: _ => id ← tget tpager tid; capmod cap (fun c => c <| resid := id |>)
     end).
Definition update_dynamic_capids : K Z :=
  cs ← gets (fun s => containers (kres s));
  foreach cs (fun cont_ =>
    ps ← gets (fun s => ktcb_list (conts s cont_));
    foreach ps (fun pager_ =>
      l ← gets (fun s => caps (caplists s (CL_SPACE (space (tcbs s pager_)))));
      foreach l (fun cap => update_capid pager_ cap))) ;;
  mret 0.

Section Container.
Context (fuel : nat).
Context (bootmem init_pgd : Z).

Definition container_alloc_init : K Z :=
  c ← alloc_bootmem bootmem SIZEOF_CONTAINER 0;
  contmod c (fun _ => MkCont 0 0 [] 0 [] 0 [] 0 []) ;;
  id ← id_new CONTAINER_IDS;
  contmod c (fun ct => ct <| cid := id |>) ;;
  init_address_space_list c ;;
  contmod c (fun ct => ct <| ktcb_list := [] |> <| ktcb_count := 0 |>) ;;
  init_mutex_queue_head c ;;
  cap_list_init (CL_CONT c) ;;
  _ ← alloc_bootmem bootmem (SIZEOF_PAGER * CONFIG_MAX_PAGERS_USED) 0;
  contmod c (fun ct => ct <| pagers := replicate (Z.to_nat CONFIG_MAX_PAGERS_USED) pager_zero |>) ;;
  foreach (seqZ 0 CONFIG_MAX_PAGERS_USED) (fun i => cap_list_init (CL_PAGER c i)) ;;
  mret c.

(** Sizes are unsigned: a section whose end lies before its start wraps. *)
Definition map_pager_sections (pg : pager_desc) (task : Z) : K unit :=
  sp ← tget task space;
  let phys v := u32 (v - start_vma pg + start_lma pg) in
  let size_rx := u32 (page_align_up (rx_pheader_end pg) - rx_pheader_start pg) in
  let size_rw := u32 (page_align_up (rw_pheader_end pg) - rw_pheader_start pg) in
  when (PAGE_SIZE <=? size_rx)
    (_ ← add_mapping_space fuel (phys (rx_pheader_start pg)) (rx_pheader_start pg) size_rx MAP_USR_RX sp;
     mret tt) ;;
  when (PAGE_SIZE <=? size_rw)
    (_ ← add_mapping_space fuel (phys (rw_pheader_start pg)) (rw_pheader_start pg) size_rw MAP_USR_RW sp;
     mret tt) ;;
  when ((size_rx =? 0) && (size_rw =? 0))
    (_ ← add_mapping_space fuel (start_lma pg) (start_vma pg) (page_align_up (memsize pg)) MAP_USR_RWX sp;
     mret tt).

(** Failed allocations are not checked: the kernel would write through the null
    or error pointer. *)
Definition init_pager (c i : Z) (pg : pager_desc) : K Z :=
  csp ← cur_get space;
  cap_list_move (CL_SPACE csp) (CL_PAGER c i) ;;
  cur_mod (fun t => t <| container := c |>) ;;
  id ← gets (fun s => cid (conts s c));
  task ← tcb_alloc_init fuel id;
  space_ ← address_space_create fuel 0;
  bug_on ((task =? 0) || IS_ERR space_) "init_pager: null or error pointer" ;;
  address_space_attach task space_ ;;
  task_init_registers task (start_address pg) ;;
  tmod task (fun t => t <| pager := task |>) ;;
  tmod task (fun t => t <| tgid := tid t |>) ;;
  tmod task (fun t => t <| container := c |>) ;;
  thread_setup_affinity task ;;
  tsp ← tget task space;
  address_space_add tsp ;;
  map_pager_sections pg task ;;
  cap_list_move (CL_SPACE tsp) (CL_SPACE csp) ;;
  sched_init_task task TASK_PRIO_PAGER ;;
  tmod task (fun t => t <| ticks_left := 1 |>) ;;
  sched_resume_async task ;;
  tcb_add task ;;
  mret 0.

Fixpoint init_pagers_of (c i : Z) (l : list pager_desc) : K unit :=
  match l with
  | [] => mret tt
  | p :: l => _ ← init_pager c i p; init_pagers_of c (i + 1) l
  end.
Definition container_init_pagers : K Z :=
  cs ← gets (fun s => containers (kres s));
  foreach cs (fun c =>
    ps ← gets (fun s => take (Z.to_nat (npagers (conts s c))) (pagers (conts s c)));
    init_pagers_of c 0 ps) ;;
  _ ← update_dynamic_capids;
  mret 0.

(** * [init_system_resources] *)

(** [CONFIG_MAX_SYSTEM_IDS >> 5] words per pool; the kernel image's bounds are
    physical addresses. *)
Context (SYSTEM_IDS_MAX start_kernel end_kernel : Z).
Context (mem_regions : list (Z * Z * Z)) (cinfo : list container_info).

Definition boot_cap (start end_ : Z) (l : cl_ref) : K unit :=
  cap ← alloc_boot_cap bootmem;
  capmod cap (fun c => c <| cstart := start |>) ;;
  capmod cap (fun c => c <| cend := end_ |>) ;;
  cap_list_insert cap l.

Definition id_pool_words : K unit :=
  let w (p : id_pool) : id_pool := p <| nwords := SYSTEM_IDS_MAX |> in
  kmod (fun k => k <| space_ids ::= w |> <| ktcb_ids ::= w |> <| container_ids ::= w |>
                   <| capability_ids ::= w |>).

Definition add_containers : K unit :=
  foreach cinfo (fun i =>
    c ← container_alloc_init;
    _ ← copy_container_info bootmem c i;
    kres_insert_container c).

Definition init_system_resources : K Z :=
  id_pool_words ;;
  kmod (fun k => k <| ncont := 0 |> <| containers := [] |>) ;;
  foreach [CL_PHYS_USED; CL_PHYS_FREE; CL_DEV_USED; CL_DEV_FREE; CL_VIRT_USED; CL_VIRT_FREE] cap_list_init ;;
  csp ← cur_get space;
  cap_list_init (CL_SPACE csp) ;;
  kernel_setup_physmem bootmem mem_regions ;;
  boot_cap (__pfn 0) (__pfn 0xFFFFFFFF) CL_VIRT_FREE ;;
  boot_cap (__pfn start_kernel) (__pfn end_kernel) CL_PHYS_USED ;;
  _ ← memcap_unmap bootmem None CL_PHYS_FREE (__pfn start_kernel) (__pfn end_kernel);
  bootres ← process_containers bootmem cinfo (MkBootres (Z.of_nat (length cinfo)) 0 0 0 0 0);
  init_resource_allocators fuel bootmem init_pgd bootres ;;
  kid ← id_get CONTAINER_IDS (Z.of_nat (length cinfo) + 1);
  kmod (fun k => k <| kr_cid := kid |>) ;;
  t ← id_new KTCB_IDS;
  cur_mod (fun c => c <| tid := t |>) ;;
  p ← id_new SPACE_IDS;
  csp ← cur_get space;
  spmod csp (fun sp => sp <| spid := p |>) ;;
  init_zombie_list ;;
  add_containers ;;
  _ ← container_init_pagers;
  mret 0.
End Container.
