(* ===== verification/Malloc.v ===== *)
(** The heap of the userspace pager: [kmalloc], [kfree] and [krealloc] of
    [src/conts/userlibs/libmem/malloc/malloc.c] and [kzalloc] of
    [include/mem/malloc.h] beside it.

    The heap is a chain of blocks, each a header followed by its bytes, in the
    order of their [next] pointers.  [magics] are the addresses that hold a
    valid [magic] word: headers, and headers of blocks that were merged into
    the one before until [kfree] fills that one with 0xFF.  Writes of the
    heap's users into their blocks are not modelled. *)
From S2P Require Import Prelude Defs.

Definition HEAP_SIZE := 500000.
(** [sizeof(malloc_t)] *)
Definition SIZEOF_MALLOC := 12.

Record malloc_t := MkBlk { maddr : Z; msize : Z; mused : bool }.
#[export] Instance malloc_shape : Shape malloc_t := fun m => MkBlk (maddr m) (msize m) (mused m).
#[export] Instance malloc_eq_dec : EqDecision malloc_t.
Proof. solve_decision. Defined.
Record heap_t := MkHeap { g_heap_bot : Z; g_kbrk : Z; g_heap_top : Z; blocks : list malloc_t; magics : list Z }.
#[export] Instance heap_shape : Shape heap_t := fun h =>
  MkHeap (g_heap_bot h) (g_kbrk h) (g_heap_top h) (blocks h) (magics h).

Section Malloc.
(** Address of the static array [heap]. *)
Context (heap : Z).

Definition kbrk (delta : Z) (h : heap_t) : Z * heap_t :=
  let h := if g_heap_bot h =? 0
           then h <| g_heap_bot := heap |> <| g_kbrk := heap |> <| g_heap_top := heap + HEAP_SIZE |> else h in
  let new_brk := u32 (g_kbrk h + delta) in
  if new_brk <? g_heap_bot h then (0, h)
  else if g_heap_top h <=? new_brk then (0, h)
  else (g_kbrk h, h <| g_kbrk := new_brk |>).

(** The search stops at the last block, which it does not look at. *)
Fixpoint first_fit (size : Z) (l : list malloc_t) : option (Z * list malloc_t) :=
  match l with
  | [] | [_] => None
  | m :: rest =>
      let total_size := u32 (size + SIZEOF_MALLOC) in
      let skip := match first_fit size rest with Some (a, l) => Some (a, m :: l) | None => None end in
      if mused m then skip
      else if size =? msize m then Some (maddr m, m <| mused := true |> :: rest)
      else if msize m <? total_size then skip
      else Some (maddr m, MkBlk (maddr m) size true :: MkBlk (maddr m + total_size) (msize m - total_size) false :: rest)
  end.

(** The word tested first is that of [g_heap_bot], which holds a header unless
    the very first request was refused. *)
Definition corrupt (h : heap_t) : bool := negb (bool_decide (g_heap_bot h ∈ magics h)).
Definition kmalloc (size : Z) (h : heap_t) : Z * heap_t :=
  if size =? 0 then (0, h)
  else if negb (g_heap_bot h =? 0) && corrupt h then (0, h)
  else
    match first_fit size (blocks h) with
    | Some (m, l) =>
        (m + SIZEOF_MALLOC, h <| blocks := l |> <| magics ::= fun g => (maddr <$> l) ++ g |>)
    | None =>
        let '(n, h) := kbrk (s32 (u32 (size + SIZEOF_MALLOC))) h in
        if n =? 0 then (0, h)
        else (n + SIZEOF_MALLOC, h <| blocks ::= fun l => l ++ [MkBlk n size true] |> <| magics ::= cons n |>)
    end.

(** The [while] at block [m] merges free successors into it; the [for] goes on
    with the next block. *)
Fixpoint coalesce_from (m : malloc_t) (l : list malloc_t) : list malloc_t :=
  match l with
  | [] => [m]
  | n :: l =>
      if negb (mused m) && negb (mused n)
      then coalesce_from (m <| msize ::= fun s => s + (SIZEOF_MALLOC + msize n) |>) l
      else m :: coalesce_from n l
  end.
Definition coalesce (l : list malloc_t) : list malloc_t :=
  match l with [] => [] | m :: l => coalesce_from m l end.

(** [None] is the [BUG()] on a bad magic word. *)
Definition kfree (blk : Z) (h : heap_t) : option heap_t :=
  let m := blk - SIZEOF_MALLOC in
  if negb (bool_decide (m ∈ magics h)) then None
  else if corrupt h then Some h
  else
    match list_find (fun n => maddr n = m) (blocks h) with
    | None => Some h
    | Some (i, n) =>
        Some (h <| blocks := coalesce (<[i := n <| mused := false |>]> (blocks h)) |>
                <| magics ::= filter (fun a => ~ (blk <= a < blk + msize n)) |>)
    end.
(** The copy of the old bytes is not modelled. *)
Definition krealloc (blk size : Z) (h : heap_t) : option (Z * heap_t) :=
  if size =? 0 then if blk =? 0 then Some (0, h) else pair 0 <$> kfree blk h
  else
    let '(new_blk, h) := kmalloc size h in
    if (new_blk =? 0) || (blk =? 0) then Some (new_blk, h)
    else if negb (bool_decide (blk - SIZEOF_MALLOC ∈ magics h)) then Some (0, h)
    else pair new_blk <$> kfree blk h.
(** [None] is the write through the null pointer of a refused request. *)
Definition kzalloc (size : Z) (h : heap_t) : option (Z * heap_t) :=
  let '(buf, h) := kmalloc size h in
  if (buf =? 0) && negb (size =? 0) then None else Some (buf, h).
End Malloc.

(** * The heap's invariant *)

(** The blocks follow each other without gaps from [a] to [e]. *)
Fixpoint chained (a : Z) (l : list malloc_t) (e : Z) : Prop :=
  match l with
  | [] => a = e
  | m :: l => maddr m = a /\ 0 <= msize m /\ chained (a + SIZEOF_MALLOC + msize m) l e
  end.
Record live (heap : Z) (h : heap_t) : Prop := {
  lv_bot : 0 < heap /\ g_heap_bot h = heap;
  lv_top : g_heap_top h = heap + HEAP_SIZE /\ heap + HEAP_SIZE < 2 ^ 32;
  lv_chain : chained heap (blocks h) (g_kbrk h);
  lv_some : blocks h <> [];
  lv_brk : g_kbrk h < g_heap_top h;
  lv_magics : forall m, m ∈ blocks h -> maddr m ∈ magics h }.
(** Nothing was ever asked of the heap; or the only request so far was refused. *)
Definition unborn : heap_t := MkHeap 0 0 0 [] [].
Definition stillborn (heap : Z) : heap_t := MkHeap heap heap (heap + HEAP_SIZE) [] [].
Definition heap_ok (heap : Z) (h : heap_t) : Prop := h = unborn \/ h = stillborn heap \/ live heap h.
(** The memory handed out: [n] bytes at [a]. *)
Definition handed_out (h : heap_t) (a n : Z) : Prop := MkBlk (a - SIZEOF_MALLOC) n true ∈ blocks h.

Lemma chained_app a l1 l2 e : chained a (l1 ++ l2) e <-> exists b, chained a l1 b /\ chained b l2 e.
Proof.
  revert a. induction l1 as [|m l1 IH]; intros a; cbn; [naive_solver|].
  rewrite IH. naive_solver.
Qed.
Lemma chained_at a b l e : chained a l e -> a = b -> chained b l e.
Proof. by intros H ->. Qed.
Lemma chained_le a l e : chained a l e -> a <= e.
Proof. revert a. induction l as [|m l IH]; cbn; intros a; [lia|]. intros (_ & H & Hc). apply IH in Hc. unfold SIZEOF_MALLOC in *. lia. Qed.
Lemma chained_bound a l e m : chained a l e -> m ∈ l ->
  a <= maddr m /\ 0 <= msize m /\ maddr m + SIZEOF_MALLOC + msize m <= e.
Proof.
  revert a. induction l as [|n l IH]; intros a; [by intros _ H%elem_of_nil|].
  intros (Ea & Hs & Hc) [->|Hm]%elem_of_cons.
  - apply chained_le in Hc. lia.
  - destruct (IH _ Hc Hm) as (H1 & H2 & H3). unfold SIZEOF_MALLOC in *. lia.
Qed.
(** Different blocks do not overlap, headers included. *)
Lemma chained_apart a l e m n : chained a l e -> m ∈ l -> n ∈ l -> m <> n ->
  maddr m + SIZEOF_MALLOC + msize m <= maddr n \/ maddr n + SIZEOF_MALLOC + msize n <= maddr m.
Proof.
  revert a. induction l as [|k l IH]; intros a; [by intros _ H%elem_of_nil|].
  intros (Ea & Hs & Hc) [->|Hm]%elem_of_cons [->|Hn]%elem_of_cons Hne; [done| | |by eapply IH].
  - left. destruct (chained_bound _ _ _ _ Hc Hn). lia.
  - right. destruct (chained_bound _ _ _ _ Hc Hm). lia.
Qed.

Definition used_in (l : list malloc_t) (m : malloc_t) : Prop := m ∈ l /\ mused m = true.
Lemma used_cons m n l : used_in (n :: l) m <-> m = n /\ mused n = true \/ used_in l m.
Proof. unfold used_in. rewrite elem_of_cons. naive_solver. Qed.

Lemma first_fit_cons size m l : l <> [] ->
  first_fit size (m :: l) =
    let total_size := u32 (size + SIZEOF_MALLOC) in
    let skip := match first_fit size l with Some (a, l) => Some (a, m :: l) | None => None end in
    if mused m then skip
    else if size =? msize m then Some (maddr m, m <| mused := true |> :: l)
    else if msize m <? total_size then skip
    else Some (maddr m, MkBlk (maddr m) size true :: MkBlk (maddr m + total_size) (msize m - total_size) false :: l).
Proof. by destruct l. Qed.
Lemma first_fit_run size l : 0 < size -> size + SIZEOF_MALLOC < 2 ^ 32 -> forall a e x l',
  chained a l e -> first_fit size l = Some (x, l') ->
  chained a l' e /\ (forall m, used_in l' m <-> m = MkBlk x size true \/ used_in l m) /\
  exists b, b ∈ l /\ mused b = false /\ maddr b = x.
Proof.
  intros Hs Hm. assert (u32 (size + SIZEOF_MALLOC) = size + SIZEOF_MALLOC) as Eu.
  { apply u32_id. unfold is_u32, SIZEOF_MALLOC in *. lia. }
  induction l as [|m l IH]; [done|]. intros a e x l' (Ea & Hz & Hc) H.
  rewrite first_fit_cons in H by (by intros ->). assert (forall x l', match first_fit size l with Some (a, l) => Some (a, m :: l) | None => None end = Some (x, l') ->
    chained a l' e /\ (forall b, used_in l' b <-> b = MkBlk x size true \/ used_in (m :: l) b) /\
    exists b, b ∈ m :: l /\ mused b = false /\ maddr b = x) as Hskip.
  { intros y k E. destruct (first_fit size l) as [[y' k']|] eqn:Ef; [|done]. injection E as -> <-.
    destruct (IH _ _ _ _ Hc eq_refl) as (H1 & H2 & b & Hb & Hf). split; [by split_and!|split].
    - intros c. rewrite !used_cons, H2. tauto.
    - exists b. split; [by right|done]. }
  cbn zeta in H. rewrite Eu in H. destruct (mused m) eqn:Em; [by apply Hskip|].
  destruct (Z.eqb_spec size (msize m)) as [Es|Es].
  - injection H as <- <-. split; [by split_and!|split; [|by exists m; split; [left|]]].
    + intros b. rewrite !used_cons, Em. destruct m as [ma ms mu]. unfold set_field. cbn in *. subst. intuition congruence.
  - destruct (Z.ltb_spec (msize m) (size + SIZEOF_MALLOC)); [by apply Hskip|]. injection H as <- <-.
    split; [|split; [|by exists m; split; [left|]]].
    + cbn. split_and!; [done|lia|lia|lia|]. eapply chained_at; [exact Hc|lia].
    + intros b. rewrite !used_cons, Em. cbn. intuition congruence.
Qed.

Lemma coalesce_run : forall l m a e, chained a (m :: l) e ->
  chained a (coalesce_from m l) e /\ forall b, used_in (coalesce_from m l) b <-> used_in (m :: l) b.
Proof.
  induction l as [|n l IH]; intros m a e Hc; [done|]. cbn [coalesce_from]. destruct Hc as (Ea & Hm & En & Hn & Hc).
  destruct (negb (mused m) && negb (mused n)) eqn:Ef.
  - apply andb_true_iff in Ef as [Fm%negb_true_iff Fn%negb_true_iff].
    destruct (IH (m <| msize ::= fun s => s + (SIZEOF_MALLOC + msize n) |>) a e) as [H1 H2].
    { cbn. split_and!; [done|unfold SIZEOF_MALLOC in *; lia|].
      eapply chained_at; [exact Hc|lia]. }
    split; [done|]. intros b. rewrite H2, !used_cons. cbn. rewrite Fm, Fn. intuition congruence.
  - destruct (IH n (a + SIZEOF_MALLOC + msize m) e) as [H1 H2]; [by split_and!|].
    split; [by split_and!|]. intros b. rewrite (used_cons b m), H2, (used_cons b m). done.
Qed.
(** No two neighbours are free. *)
Fixpoint coalesced (l : list malloc_t) : Prop :=
  match l with
  | m :: ((n :: _) as l') => (mused m = true \/ mused n = true) /\ coalesced l'
  | _ => True
  end.
Lemma coalesce_from_used l m : exists n k, coalesce_from m l = n :: k /\ mused n = mused m.
Proof.
  revert m. induction l as [|n l IH]; intros m; [by exists m, []|]. cbn [coalesce_from].
  destruct (negb (mused m) && negb (mused n)); [|by exists m, (coalesce_from n l)].
  destruct (IH (m <| msize ::= fun s => s + (SIZEOF_MALLOC + msize n) |>)) as (k & r & E & Hk). by exists k, r.
Qed.
Lemma coalesce_from_coalesced l m : coalesced (coalesce_from m l).
Proof.
  revert m. induction l as [|n l IH]; intros m; [done|]. cbn [coalesce_from].
  destruct (negb (mused m) && negb (mused n)) eqn:E; [apply IH|].
  specialize (IH n). destruct (coalesce_from_used l n) as (k & r & Ek & Hk). rewrite Ek in *.
  split; [|done]. rewrite Hk. by destruct (mused m), (mused n); auto.
Qed.

Section Heap.
Context (heap : Z).

Lemma live_corrupt h : live heap h -> corrupt h = false.
Proof.
  unfold corrupt. intros [[_ ->] _ Hc Hn _ Hm]. destruct (blocks h) as [|m l] eqn:E; [done|].
  rewrite bool_decide_true; [done|]. destruct Hc as [<- _]. apply Hm. by left.
Qed.
(** [kbrk] moves the break of a heap that has room; a sum that wraps around
    is below the heap's bottom. *)
Lemma kbrk_live n h : live heap h -> 0 <= n < 2 ^ 31 ->
  kbrk heap n h = if heap + HEAP_SIZE <=? g_kbrk h + n then (0, h) else (g_kbrk h, h <| g_kbrk := g_kbrk h + n |>).
Proof.
  intros [[Hp Eb] [Et Ht] Hc _ Hk _] Hn. apply chained_le in Hc. unfold kbrk. rewrite Et in Hk.
  destruct (Z.eqb_spec (g_heap_bot h) 0); [lia|]. cbn zeta. rewrite Eb, Et.
  assert (HEAP_SIZE = 500000) as EH by done.
  destruct (Z.lt_ge_cases (g_kbrk h + n) (2 ^ 32)).
  - rewrite u32_id by (unfold is_u32; lia). by destruct (Z.ltb_spec (g_kbrk h + n) heap); [lia|].
  - replace (u32 (g_kbrk h + n)) with (g_kbrk h + n - 2 ^ 32).
    + destruct (Z.ltb_spec (g_kbrk h + n - 2 ^ 32) heap); [|lia]. by destruct (Z.leb_spec (heap + HEAP_SIZE) (g_kbrk h + n)); [|lia].
    + unfold u32. apply (Z.mod_unique _ _ 1); lia.
Qed.
Lemma kbrk_unborn n : 0 < heap -> heap + HEAP_SIZE < 2 ^ 32 -> 0 <= n < 2 ^ 31 ->
  kbrk heap n unborn = if HEAP_SIZE <=? n then (0, stillborn heap) else (heap, stillborn heap <| g_kbrk := heap + n |>).
Proof.
  intros Hp Ht Hn. unfold kbrk. cbn -[HEAP_SIZE u32]. assert (HEAP_SIZE = 500000) as EH by done.
  destruct (Z.lt_ge_cases (heap + n) (2 ^ 32)).
  - rewrite u32_id by (unfold is_u32; lia). destruct (Z.ltb_spec (heap + n) heap); [lia|].
    by destruct (Z.leb_spec (heap + HEAP_SIZE) (heap + n)), (Z.leb_spec HEAP_SIZE n); try lia.
  - replace (u32 (heap + n)) with (heap + n - 2 ^ 32).
    + destruct (Z.ltb_spec (heap + n - 2 ^ 32) heap); [|lia]. by destruct (Z.leb_spec HEAP_SIZE n); [|lia].
    + unfold u32. apply (Z.mod_unique _ _ 1); lia.
Qed.

(** [n] bytes at [p], apart from what was in use. *)
Definition fresh (h h' : heap_t) (p n : Z) : Prop :=
  heap + SIZEOF_MALLOC <= p /\ p + n < heap + HEAP_SIZE /\
  (forall m, used_in (blocks h') m <-> m = MkBlk (p - SIZEOF_MALLOC) n true \/ used_in (blocks h) m) /\
  forall m, used_in (blocks h) m ->
    p + n <= maddr m \/ maddr m + SIZEOF_MALLOC + msize m <= p - SIZEOF_MALLOC.
Lemma fresh_of h h' x n : live heap h' ->
  (forall m, used_in (blocks h') m <-> m = MkBlk x n true \/ used_in (blocks h) m) ->
  ~ used_in (blocks h) (MkBlk x n true) -> fresh h h' (x + SIZEOF_MALLOC) n.
Proof.
  intros [_ [Et _] Hc _ Hk _] Hu Hne.
  assert (MkBlk x n true ∈ blocks h') as Hx by (apply Hu; by left).
  destruct (chained_bound _ _ _ _ Hc Hx) as (H1 & _ & H2). cbn in H1, H2.
  unfold fresh. split; [lia|split; [lia|split; [by replace (x + SIZEOF_MALLOC - SIZEOF_MALLOC) with x by lia|]]].
  intros m Hmu. assert (m ∈ blocks h') as Hm by (apply Hu; by right).
  assert (m <> MkBlk x n true) as Hd by by intros ->.
  destruct (chained_apart _ _ _ _ _ Hc Hm Hx Hd); cbn in *; lia.
Qed.

(** The three ways to serve a request: from the array, from a free block, by a
    new last block. *)
Lemma born n : 0 < heap -> heap + HEAP_SIZE < 2 ^ 32 -> 0 <= n -> n + SIZEOF_MALLOC < HEAP_SIZE ->
  let h := MkHeap heap (heap + (n + SIZEOF_MALLOC)) (heap + HEAP_SIZE) [MkBlk heap n true] [heap] in
  live heap h /\ fresh unborn h (heap + SIZEOF_MALLOC) n.
Proof.
  intros Hp Ht Hn Hz h. assert (live heap h) as Hl.
  { unfold h. split; cbn -[HEAP_SIZE]; [done|done|lia|done|lia|]. intros m ->%list_elem_of_singleton. by left. }
  split; [done|]. apply fresh_of; [done| |by intros [Hx%elem_of_nil _]].
  intros m. cbn. rewrite used_cons. cbn. intuition.
Qed.
Lemma live_fit h n x l : live heap h -> 0 < n -> n + SIZEOF_MALLOC < 2 ^ 31 -> first_fit n (blocks h) = Some (x, l) ->
  let h' := h <| blocks := l |> <| magics ::= fun g => (maddr <$> l) ++ g |> in
  live heap h' /\ fresh h h' (x + SIZEOF_MALLOC) n.
Proof.
  intros [Hb Ht Hc Hs Hk Hm] Hn Hz Hf h'.
  destruct (first_fit_run n (blocks h) Hn ltac:(lia) _ _ _ _ Hc Hf) as (Hl & Hu & b & Hbl & Hfree & Hbx).
  assert (live heap h') as Hlive.
  { unfold h'. split; cbn -[HEAP_SIZE]; [done|done|done| |done|].
    - intros ->. by destruct (proj2 (Hu _) (or_introl eq_refl)) as [Hx%elem_of_nil _].
    - intros m Hx. apply elem_of_app. left. by apply list_elem_of_fmap_2. }
  split; [done|]. apply fresh_of; [done|done|]. intros [Hx Hux].
  destruct (chained_apart _ _ _ _ _ Hc Hbl Hx) as [Ha|Ha]; cbn in *; [by intros ->|..].
  - destruct (chained_bound _ _ _ _ Hc Hbl). unfold SIZEOF_MALLOC in *. lia.
  - unfold SIZEOF_MALLOC in *. lia.
Qed.
Lemma live_grow h n : live heap h -> 0 <= n -> g_kbrk h + (n + SIZEOF_MALLOC) < heap + HEAP_SIZE ->
  let h' := h <| g_kbrk := g_kbrk h + (n + SIZEOF_MALLOC) |> <| blocks ::= fun l => l ++ [MkBlk (g_kbrk h) n true] |>
              <| magics ::= cons (g_kbrk h) |> in
  live heap h' /\ fresh h h' (g_kbrk h + SIZEOF_MALLOC) n.
Proof.
  intros [Hb Ht Hc Hs Hk Hm] Hn Hr h'. assert (live heap h') as Hlive.
  { unfold h'. split; cbn -[HEAP_SIZE]; [done|done| |by destruct (blocks h)|by destruct Ht as [-> _]|].
    - apply chained_app. exists (g_kbrk h). cbn. split_and!; [done..|lia].
    - intros m [H| ->%list_elem_of_singleton]%elem_of_app; [right; by apply Hm|by left]. }
  split; [done|]. apply fresh_of; [done| |].
  - intros m. unfold h', used_in. cbn. rewrite elem_of_app, list_elem_of_singleton. intuition (subst; done).
  - intros [Hx _]. destruct (chained_bound _ _ _ _ Hc Hx) as (_ & _ & H3). cbn in *. unfold SIZEOF_MALLOC in *. lia.
Qed.

Lemma kmalloc_run h size : 0 < heap -> heap + HEAP_SIZE < 2 ^ 32 -> heap_ok heap h ->
  0 < size -> size + SIZEOF_MALLOC < 2 ^ 31 ->
  let '(p, h') := kmalloc heap size h in
  heap_ok heap h' /\ (p = 0 /\ blocks h' = blocks h \/ live heap h' /\ fresh h h' p size).
Proof.
  intros Hp Ht Hh Hs Hz. unfold kmalloc. destruct (Z.eqb_spec size 0); [lia|].
  rewrite u32_id, s32_id by (unfold is_u32, SIZEOF_MALLOC in *; lia).
  assert (HEAP_SIZE = 500000 /\ SIZEOF_MALLOC = 12) as [EH ES] by done.
  destruct Hh as [->|[->|Hl]].
  - change (negb (g_heap_bot unborn =? 0) && corrupt unborn) with false. cbn [first_fit blocks unborn].
    rewrite kbrk_unborn by lia. destruct (Z.leb_spec HEAP_SIZE (size + SIZEOF_MALLOC)); [by split; [right; left|left]|].
    destruct (Z.eqb_spec heap 0); [lia|]. destruct (born size) as [H1 H2]; [lia..|]. split; [by right; right|by right].
  - unfold corrupt. cbn -[HEAP_SIZE]. destruct (Z.eqb_spec heap 0); [lia|]. by split; [right; left|left].
  - rewrite (live_corrupt _ Hl), andb_false_r. destruct (first_fit size (blocks h)) as [[x l]|] eqn:Ef.
    + destruct (live_fit h size x l) as [H1 H2]; [done..|]. split; [by right; right|by right].
    + rewrite kbrk_live by (done || lia). destruct (Z.leb_spec (heap + HEAP_SIZE) (g_kbrk h + (size + SIZEOF_MALLOC))).
      { split; [by right; right|by left]. }
      destruct (Z.eqb_spec (g_kbrk h) 0) as [E0|]; [destruct Hl as [_ _ Hc%chained_le]; lia|].
      destruct (live_grow h size Hl) as [H1 H2]; [lia..|]. split; [by right; right|by right].
Qed.

(** C35: [kmalloc] returns 0 and leaves the chain alone, or returns an area of the asked size inside the heap array that overlaps no block in use nor its header, and marks exactly that area as in use, splitting free blocks and moving the break as needed. *)
Theorem kmalloc_gives_fresh_memory h size : 0 < heap -> heap + HEAP_SIZE < 2 ^ 32 -> heap_ok heap h ->
  0 < size -> size + SIZEOF_MALLOC < 2 ^ 31 ->
  let '(p, h') := kmalloc heap size h in
  heap_ok heap h' /\ (p = 0 /\ blocks h' = blocks h \/ live heap h' /\ fresh h h' p size).
Proof. apply kmalloc_run. Qed.
(** A request that the rest of the array could serve is served. *)
Lemma kmalloc_room h size : live heap h -> 0 < size -> g_kbrk h + (size + SIZEOF_MALLOC) < heap + HEAP_SIZE ->
  exists p h', kmalloc heap size h = (p, h') /\ p <> 0 /\ live heap h' /\ fresh h h' p size /\
    g_kbrk h <= g_kbrk h' <= g_kbrk h + (size + SIZEOF_MALLOC).
Proof.
  intros Hl Hs Hr. pose proof Hl as [[Hp Hb] [Ht Htop] Hc _ _ _]. assert (heap <= g_kbrk h) as Hk by (by eapply chained_le).
  assert (HEAP_SIZE = 500000 /\ SIZEOF_MALLOC = 12) as [EH ES] by done.
  unfold kmalloc. destruct (Z.eqb_spec size 0); [lia|].
  rewrite u32_id, s32_id by (unfold is_u32; lia). rewrite (live_corrupt _ Hl), andb_false_r.
  destruct (first_fit size (blocks h)) as [[x l]|] eqn:Ef.
  - destruct (live_fit h size x l) as [H1 H2]; [done|done|lia|done|]. do 2 eexists. split; [done|].
    split; [destruct H2; lia|]. split_and!; [done|done|cbn; lia|cbn; lia].
  - rewrite kbrk_live by (done || lia). destruct (Z.leb_spec (heap + HEAP_SIZE) (g_kbrk h + (size + SIZEOF_MALLOC))); [lia|].
    destruct (Z.eqb_spec (g_kbrk h) 0); [lia|]. destruct (live_grow h size Hl) as [H1 H2]; [lia..|].
    do 2 eexists. split; [done|]. split; [lia|]. split_and!; [done|done|cbn; lia|cbn; lia].
Qed.

Lemma used_insert l i n b : NoDup (maddr <$> l) -> l !! i = Some n ->
  used_in (<[i := n <| mused := false |>]> l) b <-> used_in l b /\ b <> n.
Proof.
  revert i. induction l as [|m l IH]; intros i Hd Hi; [done|]. cbn in Hd. apply NoDup_cons in Hd as [Hm Hd]. destruct i as [|i]; cbn in Hi.
  - injection Hi as ->. cbn [insert list_insert]. rewrite !used_cons. cbn. split.
    + intros [[_ ?]|Hu]; [done|]. split; [by right|]. intros ->. apply Hm. apply list_elem_of_fmap_2, Hu.
    + intros [[[-> Hu]|Hu] Hne]; [done|by right].
  - cbn [insert list_insert]. rewrite !used_cons. change (list_insert i (n <| mused := false |>) l) with
      (<[i := n <| mused := false |>]> l). rewrite (IH i Hd Hi). split.
    + intros [[-> Hu]|[Hu Hne]]; [|by split; [right|]]. split; [by left|]. intros ->.
      apply Hm. apply list_elem_of_fmap_2. by eapply list_elem_of_lookup_2.
    + intros [[[-> Hu]|Hu] Hne]; [by left; split|by right].
Qed.
Lemma chained_insert i n u l a e : l !! i = Some n -> chained a l e -> chained a (<[i := n <| mused := u |>]> l) e.
Proof.
  revert i a. induction l as [|m l IH]; intros [|i] a Hi; [done|done|by injection Hi as ->|].
  intros (Ea & Hs & Hc). split_and!; [done|done|]. by apply (IH i).
Qed.
Lemma chained_nodup l a e : chained a l e -> NoDup (maddr <$> l).
Proof.
  revert a. induction l as [|m l IH]; intros a; [intros; constructor|]. intros (Ea & Hs & Hc). cbn. constructor; [|by eapply IH].
  intros (k & Ek & Hk)%list_elem_of_fmap. destruct (chained_bound _ _ _ _ Hc Hk). unfold SIZEOF_MALLOC in *. lia.
Qed.
Lemma coalesce_addr l m b : b ∈ coalesce_from m l -> maddr b ∈ maddr <$> m :: l.
Proof.
  revert m. induction l as [|n l IH]; intros m; cbn [coalesce_from].
  - by intros ->%list_elem_of_singleton; left.
  - destruct (negb (mused m) && negb (mused n)).
    + intros Hb%IH. cbn in Hb |- *. rewrite elem_of_cons in Hb |- *. destruct Hb as [->|Hb]; [by left|by right; right].
    + intros [->|Hb%IH]%elem_of_cons; [by left|by right].
Qed.
Lemma coalesce_used l a e : chained a l e -> l <> [] ->
  chained a (coalesce l) e /\ coalesce l <> [] /\ coalesced (coalesce l) /\
  (forall b, used_in (coalesce l) b <-> used_in l b) /\ forall b, b ∈ coalesce l -> maddr b ∈ maddr <$> l.
Proof.
  destruct l as [|m l]; [done|]. intros Hc _. cbn [coalesce]. destruct (coalesce_run _ _ _ _ Hc) as [H1 H2].
  split; [done|split; [|split; [apply coalesce_from_coalesced|split; [done|apply coalesce_addr]]]].
  destruct (coalesce_from_used l m) as (k & r & -> & _). done.
Qed.

Lemma kfree_run h a n : live heap h -> used_in (blocks h) (MkBlk (a - SIZEOF_MALLOC) n true) ->
  exists h', kfree a h = Some h' /\ live heap h' /\ coalesced (blocks h') /\
    (forall m, used_in (blocks h') m <-> used_in (blocks h) m /\ m <> MkBlk (a - SIZEOF_MALLOC) n true).
Proof.
  intros Hl [Hin _]. pose proof Hl as [Hb Ht Hc Hs Hk Hm]. unfold kfree.
  rewrite bool_decide_true by apply (Hm _ Hin). rewrite (live_corrupt _ Hl). cbn [negb].
  destruct (list_find_elem_of (fun n => maddr n = a - SIZEOF_MALLOC) _ _ Hin) as [[i k] Ef]; [done|].
  rewrite Ef. apply list_find_Some in Ef as (Hi & Ek & _).
  assert (k = MkBlk (a - SIZEOF_MALLOC) n true) as ->.
  { apply list_elem_of_lookup_1 in Hin as [j Hj]. pose proof (chained_nodup _ _ _ Hc) as Hd.
    assert (i = j) as <-; [|congruence]. eapply NoDup_lookup; [exact Hd|rewrite list_lookup_fmap, Hi|rewrite list_lookup_fmap, Hj].
    - done.
    - by cbn; rewrite Ek. }
  pose proof (chained_insert _ _ false _ _ _ Hi Hc) as Hc'.
  destruct (coalesce_used _ _ _ Hc') as (H1 & H2 & H3 & H4 & H5).
  { intros E. apply (f_equal length) in E. rewrite length_insert in E. by destruct (blocks h). }
  eexists. split; [done|]. split; [|split; [exact H3|]].
  - split; cbn -[HEAP_SIZE]; [done..|]. intros m Hx%H5. rewrite list_fmap_insert, list_insert_id in Hx.
    2: { by rewrite list_lookup_fmap, Hi. }
    apply list_elem_of_fmap in Hx as (b & Eb' & Hbl). rewrite Eb' in *. apply list_elem_of_filter. split; [|by apply Hm].
    destruct (decide (b = MkBlk (a - SIZEOF_MALLOC) n true)) as [->|Hne]; [cbn; unfold SIZEOF_MALLOC in *; lia|].
    pose proof (chained_bound _ _ _ _ Hc Hbl).
    destruct (chained_apart _ _ _ _ _ Hc Hbl Hin Hne); cbn in *; unfold SIZEOF_MALLOC in *; lia.
  - intros m. cbn. rewrite H4. apply used_insert; [by eapply chained_nodup|done].
Qed.

(** C36: [kfree] of an area in use succeeds: exactly that area stops being in use, the blocks still tile the heap without gap or overlap, and no two neighbours are left free. *)
Theorem kfree_takes_it_back h a n : live heap h -> used_in (blocks h) (MkBlk (a - SIZEOF_MALLOC) n true) ->
  exists h', kfree a h = Some h' /\ live heap h' /\ coalesced (blocks h') /\
    forall m, used_in (blocks h') m <-> used_in (blocks h) m /\ m <> MkBlk (a - SIZEOF_MALLOC) n true.
Proof. apply kfree_run. Qed.

(** Memory that was given back is not used again when it is the last block: the search leaves that block out, so with everything given back, a request that fits the one free block moves the break, and giving it back leaves one free block that is longer by the request and its header, until the break meets the top of the heap. *)
Theorem kmalloc_passes_over_the_last_block h n s : live heap h -> 0 < n ->
  blocks h = [MkBlk heap s false] -> g_kbrk h + (n + SIZEOF_MALLOC) < heap + HEAP_SIZE ->
  exists h1 h2, kmalloc heap n h = (g_kbrk h + SIZEOF_MALLOC, h1) /\ kfree (g_kbrk h + SIZEOF_MALLOC) h1 = Some h2 /\
    blocks h2 = [MkBlk heap (s + (SIZEOF_MALLOC + n)) false] /\ g_kbrk h2 = g_kbrk h + (n + SIZEOF_MALLOC).
Proof.
  intros Hl Hn Eb Hr. pose proof Hl as [[Hp Ebot] [_ Ht] Hc _ _ Hm]. rewrite Eb in Hc, Hm.
  destruct Hc as (_ & Hs & Ek). specialize (Hm _ (list_elem_of_here _ _)). cbn in Ek, Hm, Hs.
  assert (HEAP_SIZE = 500000 /\ SIZEOF_MALLOC = 12) as [EH ES] by done.
  unfold kmalloc. destruct (Z.eqb_spec n 0); [lia|]. rewrite (live_corrupt _ Hl), andb_false_r, Eb. cbn [first_fit].
  rewrite u32_id, s32_id by (unfold is_u32; lia). rewrite kbrk_live by (done || lia).
  destruct (Z.leb_spec (heap + HEAP_SIZE) (g_kbrk h + (n + SIZEOF_MALLOC))); [lia|].
  destruct (Z.eqb_spec (g_kbrk h) 0); [lia|]. do 2 eexists. split; [done|].
  unfold kfree, corrupt. rewrite Z.add_simpl_r. cbn -[Z.add]. rewrite Ebot, Eb, !bool_decide_true by (by left || by right).
  cbn -[Z.add]. rewrite decide_False by lia. cbn -[Z.add]. rewrite decide_True by done. by cbn -[Z.add].
Qed.
End Heap.

(** * Concrete heaps *)

(** Two areas were handed out and the first was given back; everything was given back. *)
Definition demo_heap : heap_t := MkHeap 4096 4270 504096 [MkBlk 4096 100 false; MkBlk 4208 50 true] [4096; 4208].
Definition demo_idle : heap_t := MkHeap 4096 4208 504096 [MkBlk 4096 100 false] [4096].
Example demo_heap_built :
  kfree 4108 (kmalloc 4096 50 (kmalloc 4096 100 unborn).2).2 = Some (demo_heap <| magics := [4208; 4096] |>).
Proof. vm_compute. reflexivity. Qed.
Lemma demo_heap_live : live 4096 demo_heap.
Proof.
  split; cbn; [done|done|done|done|done|]. intros m. rewrite !elem_of_cons. intros [->|[->|Hm%elem_of_nil]]; [by left|by right; left|done].
Qed.
Lemma demo_idle_live : live 4096 demo_idle.
Proof. split; cbn; [done|done|done|done|done|]. intros m ->%list_elem_of_singleton. by left. Qed.

Lemma kmalloc_gives_fresh_memory_witness : let '(p, h') := kmalloc 4096 20 demo_heap in
  heap_ok 4096 h' /\ (p = 0 /\ blocks h' = blocks demo_heap \/ live 4096 h' /\ fresh 4096 demo_heap h' p 20).
Proof.
  apply (kmalloc_gives_fresh_memory 4096 demo_heap 20); [done|done|right; right; apply demo_heap_live|done|done].
Defined.
Lemma kfree_takes_it_back_witness : exists h', kfree 4220 demo_heap = Some h' /\ live 4096 h' /\ coalesced (blocks h') /\
  forall m, used_in (blocks h') m <-> used_in (blocks demo_heap) m /\ m <> MkBlk (4220 - SIZEOF_MALLOC) 50 true.
Proof.
  apply (kfree_takes_it_back 4096 demo_heap 4220 50); [apply demo_heap_live|]. split; [by right; left|done].
Defined.
Lemma kmalloc_passes_over_the_last_block_witness : exists h1 h2,
  kmalloc 4096 100 demo_idle = (4208 + SIZEOF_MALLOC, h1) /\ kfree (4208 + SIZEOF_MALLOC) h1 = Some h2 /\
  blocks h2 = [MkBlk 4096 (100 + (SIZEOF_MALLOC + 100)) false] /\ g_kbrk h2 = 4208 + (100 + SIZEOF_MALLOC).
Proof. apply (kmalloc_passes_over_the_last_block 4096 demo_idle 100 100); [apply demo_idle_live|done|done|done]. Defined.
