(* ===== verification/Pools.v ===== *)
(** The userspace pager's id pools and address pools: runs of clear bits in
    [conts/posix/mm0/lib/bit.c], [lib/idpool.c], and the pools of virtual
    addresses of [lib/addr.c] and [lib/vaddr.c].

    Words and single bits are those of Bits, whose C code the pager has a copy
    of.  An address pool is a set of pages in use, found and released in runs. *)
From S2P Require Import Prelude Bits Defs Words.

(** * [lib/bit.c]: runs of bits *)

(** The inner [while] from bit [i]: the bit it stops at, and whether [stop] was
    reached.  A run of no bits is never complete; [None] is a scan past the fuel. *)
Fixpoint run_scan (n : nat) (word : list Z) (i stop : Z) : option (Z * bool) :=
  match n with
  | O => None
  | S n =>
      if bit_is_set word i then Some (i, false)
      else if i + 1 =? stop then Some (i + 1, true) else run_scan n word (i + 1) stop
  end.
(** The outer [while]: the first bit of the run, or -1. *)
Fixpoint contig_scan (n : nat) (word : list Z) (limit nbits i : Z) : option Z :=
  match n with
  | O => None
  | S n =>
      if limit <? i + nbits then Some (-1)
      else
        match run_scan (S (Z.to_nat nbits)) word i (i + nbits) with
        | None => None
        | Some (_, true) => Some i
        | Some (i, false) => contig_scan n word limit nbits (i + 1)
        end
  end.
(** [for (int x = first; x < first + nbits; x++)] *)
Fixpoint set_run (n : nat) (x : Z) (word : list Z) : list Z :=
  match n with O => word | S n => set_run n (x + 1) (bit_set word x) end.
Definition find_and_set_first_free_contig_bits (word : list Z) (limit nbits : Z) : option (Z * list Z) :=
  if limit <? u32 nbits then Some (-1, word)
  else
    match contig_scan (S (Z.to_nat limit)) word limit nbits 0 with
    | None => None
    | Some first => Some (if first <? 0 then (-1, word) else (first, set_run (Z.to_nat nbits) first word))
    end.

Fixpoint clear_run (n : nat) (i : Z) (word : list Z) : Z * list Z :=
  match n with
  | O => (0, word)
  | S n =>
      let '(err, word) := check_and_clear_bit word i in
      if err <? 0 then (-1, word) else clear_run n (i + 1) word
  end.
Definition check_and_clear_contig_bits (word : list Z) (first nbits : Z) : Z * list Z :=
  clear_run (Z.to_nat nbits) first word.

(** * [lib/idpool.c] *)

Record pool := MkPool { nwords : Z; bitlimit : Z; bitmap : list Z }.
#[export] Instance pool_shape : Shape pool := fun p => MkPool (nwords p) (bitlimit p) (bitmap p).

Definition id_pool_new_init (totalbits : Z) : pool :=
  let nwords := BITWISE_GETWORD totalbits + 1 in
  MkPool nwords totalbits (replicate (Z.to_nat nwords) 0).
Definition id_new (p : pool) : Z * pool :=
  let '(id, map) := find_and_set_first_free_bit (bitmap p) (bitlimit p) in (id, p <| bitmap := map |>).
Definition ids_new_contiguous (p : pool) (numids : Z) : option (Z * pool) :=
  match find_and_set_first_free_contig_bits (bitmap p) (bitlimit p) numids with
  | None => None
  | Some (id, map) => Some (id, p <| bitmap := map |>)
  end.
Definition ids_del_contiguous (p : pool) (first numids : Z) : Z * pool :=
  if nwords p * WORD_BITS <? u32 (first + numids) then (-1, p)
  else let '(ret, map) := check_and_clear_contig_bits (bitmap p) first numids in (ret, p <| bitmap := map |>).
(** The result is that of the comparison: [ret = (check_and_clear_bit() < 0)]. *)
Definition id_del (p : pool) (id : Z) : Z * pool :=
  if nwords p * WORD_BITS <? id then (-1, p)
  else let '(err, map) := check_and_clear_bit (bitmap p) id in
    (if err <? 0 then 1 else 0, p <| bitmap := map |>).
Definition id_get (p : pool) (id : Z) : Z * pool :=
  let '(ret, map) := check_and_set_bit (bitmap p) id in
  (if ret <? 0 then ret else id, p <| bitmap := map |>).
Definition id_is_empty (p : pool) : bool := forallb (Z.eqb 0) (bitmap p).

(** * [lib/addr.c] *)

Record address_pool := MkAddrPool { idpool : pool; ap_start : Z; ap_end : Z }.
#[export] Instance address_pool_shape : Shape address_pool := fun p => MkAddrPool (idpool p) (ap_start p) (ap_end p).

Definition address_pool_init_with_idpool (p : pool) (start end_ : Z) : address_pool := MkAddrPool p start end_.
Definition address_pool_init (start end_ : Z) : address_pool :=
  MkAddrPool (id_pool_new_init (__pfn (u32 (end_ - start)))) start end_.
Definition address_new (p : address_pool) (npages : Z) : option (Z * address_pool) :=
  match ids_new_contiguous (idpool p) npages with
  | None => None
  | Some (pfn, ids) =>
      Some (if pfn <? 0 then 0 else u32 (u32 (__pfn_to_addr pfn) + ap_start p), p <| idpool := ids |>)
  end.
Definition address_del (p : address_pool) (addr npages : Z) : Z * address_pool :=
  let pfn := __pfn (u32 (page_align addr - ap_start p)) in
  let '(err, ids) := ids_del_contiguous (idpool p) pfn npages in
  (if err <? 0 then -1 else 0, p <| idpool := ids |>).

(** * [lib/vaddr.c]; [shm_start] is [cont_mem_regions.shmem->start], a page frame *)

Definition vaddr_new (shm_start : Z) (p : pool) (npages : Z) : option (Z * pool) :=
  match ids_new_contiguous p npages with
  | None => None
  | Some (shm_vpfn, p) => Some (if shm_vpfn <? 0 then 0 else u32 (__pfn_to_addr (shm_vpfn + shm_start)), p)
  end.
Definition vaddr_del (shm_start : Z) (p : pool) (vaddr npages : Z) : Z * pool :=
  let idpfn := __pfn (u32 (page_align vaddr - u32 (__pfn_to_addr shm_start))) in
  let '(err, p) := ids_del_contiguous p idpfn npages in
  (if err <? 0 then -1 else 0, p).

(** * Runs *)

(** The bits [i] to [i + n] are clear. *)
Definition free_run (word : list Z) (i n : Z) : Prop := forall j, i <= j < i + n -> bit_at word j = false.

Lemma run_scan_spec n : forall word i stop, i < stop -> stop - i < Z.of_nat n ->
  (run_scan n word i stop = Some (stop, true) /\ forall j, i <= j < stop -> bit_at word j = false) \/
  exists k, i <= k < stop /\ bit_at word k = true /\ run_scan n word i stop = Some (k, false).
Proof.
  induction n as [|n IH]; intros word i stop Hi Hn; [lia|]. cbn [run_scan]. rewrite bit_is_set_at.
  destruct (bit_at word i) eqn:E; [right; exists i; by split; [lia|]|].
  destruct (Z.eqb_spec (i + 1) stop) as [<-|Hne].
  - left. split; [done|]. intros j Hj. by replace j with i by lia.
  - destruct (IH word (i + 1) stop) as [[-> Hall]|(k & Hk & Hb & ->)]; [lia|lia| |].
    + left. split; [done|]. intros j Hj. destruct (decide (j = i)) as [->|]; [done|apply Hall; lia].
    + right. exists k. by split; [lia|].
Qed.
Lemma contig_scan_spec n : forall word limit nbits i, 0 < nbits -> 0 <= i <= limit -> limit - i < Z.of_nat n ->
  (contig_scan n word limit nbits i = Some (-1) /\ forall k, i <= k -> k + nbits <= limit -> ~ free_run word k nbits) \/
  exists k, i <= k /\ k + nbits <= limit /\ contig_scan n word limit nbits i = Some k /\ free_run word k nbits /\
    forall j, i <= j < k -> ~ free_run word j nbits.
Proof.
  induction n as [|n IH]; intros word limit nbits i Hb Hi Hn; [lia|]. cbn [contig_scan].
  destruct (Z.ltb_spec limit (i + nbits)) as [Hlt|Hle]; [left; split; [done|lia]|].
  destruct (run_scan_spec (S (Z.to_nat nbits)) word i (i + nbits)) as [[-> Hall]|(k & Hk & Hs & ->)]; [lia|lia| |].
  + right. exists i. split_and!; [lia|done|done|done|lia].
  + assert (forall j, i <= j <= k -> ~ free_run word j nbits) as Hno.
    { intros j Hj Hf. rewrite (Hf k) in Hs by lia. done. }
    destruct (IH word limit nbits (k + 1)) as [[-> Hall]|(m & Hm & Hl & -> & Hf & Hlt)]; [done|lia|lia| |].
    * left. split; [done|]. intros m Hm Hl. destruct (Z.le_gt_cases m k); [apply Hno; lia|apply Hall; lia].
    * right. exists m. split_and!; [lia|done|done|done|]. intros j Hj. destruct (Z.le_gt_cases j k); [apply Hno; lia|apply Hlt; lia].
Qed.
Lemma set_run_spec n : forall x word j, (forall k, x <= k < x + Z.of_nat n -> in_map word k) -> 0 <= x -> 0 <= j ->
  bit_at (set_run n x word) j = bool_decide (x <= j < x + Z.of_nat n) || bit_at word j.
Proof.
  induction n as [|n IH]; intros x word j Hin Hx Hj; cbn [set_run]; [by rewrite bool_decide_false by lia|].
  rewrite IH; [|intros k Hk; unfold in_map; rewrite length_bit_set; apply Hin; lia|lia|done].
  rewrite bit_at_set, orb_assoc by (done || apply Hin; lia). f_equal.
  apply eq_true_iff_eq. rewrite orb_true_iff, !bool_decide_eq_true. lia.
Qed.
Lemma length_set_run n x word : length (set_run n x word) = length word.
Proof. revert x word. induction n as [|n IH]; intros x word; [done|]. cbn. by rewrite IH, length_bit_set. Qed.
Lemma clear_run_spec n : forall x word, (forall k, x <= k < x + Z.of_nat n -> in_map word k /\ bit_at word k = true) -> 0 <= x ->
  exists word', clear_run n x word = (0, word') /\ length word' = length word /\
    forall j, 0 <= j -> bit_at word' j = negb (bool_decide (x <= j < x + Z.of_nat n)) && bit_at word j.
Proof.
  induction n as [|n IH]; intros x word Hin Hx; cbn [clear_run].
  - exists word. split_and!; [done|done|]. intros j Hj. by rewrite bool_decide_false by lia.
  - destruct (Hin x ltac:(lia)) as [Hx' Hb]. unfold check_and_clear_bit. rewrite bit_is_set_at, Hb. cbn [Z.ltb Z.compare].
    destruct (IH (x + 1) (bit_clear word x)) as (w & -> & Hl & Hw); [|lia|].
    { intros k Hk. destruct (Hin k ltac:(lia)) as [Hk' Hb']. unfold in_map. rewrite length_bit_clear. split; [done|].
      rewrite bit_at_clear, bool_decide_false by (done || lia). done. }
    exists w. split_and!; [done|by rewrite Hl, length_bit_clear|]. intros j Hj. rewrite Hw, bit_at_clear by (done || lia).
    rewrite andb_assoc, <- negb_orb. do 2 f_equal. apply eq_true_iff_eq. rewrite orb_true_iff, !bool_decide_eq_true. lia.
Qed.

(** * Address pools *)

(** The page [i] of the pool is given out. *)
Definition page_used (p : address_pool) (i : Z) : Prop := bit_at (bitmap (idpool p)) i = true.
Record pool_ok (p : address_pool) : Prop := {
  po_limit : 0 <= bitlimit (idpool p) <= nwords (idpool p) * WORD_BITS;
  po_words : Z.of_nat (length (bitmap (idpool p))) = nwords (idpool p);
  po_start : 0 <= ap_start p /\ ap_start p mod PAGE_SIZE = 0;
  po_room : ap_start p + bitlimit (idpool p) * PAGE_SIZE < 2 ^ 32 }.


Lemma find_contig_spec word limit n : 0 <= limit <= Z.of_nat (length word) * WORD_BITS -> 0 < n < 2 ^ 31 ->
  exists r w, find_and_set_first_free_contig_bits word limit n = Some (r, w) /\ length w = length word /\
  (r = -1 /\ w = word /\ (forall k, 0 <= k -> k + n <= limit -> ~ free_run word k n) \/
   0 <= r /\ r + n <= limit /\ free_run word r n /\ (forall k, 0 <= k < r -> ~ free_run word k n) /\
   forall j, 0 <= j -> bit_at w j = bool_decide (r <= j < r + n) || bit_at word j).
Proof.
  intros Hl Hn. unfold find_and_set_first_free_contig_bits. rewrite u32_id by (unfold is_u32; lia).
  destruct (Z.ltb_spec limit n).
  { exists (-1), word. split_and!; [done|done|]. left. split_and!; [done|done|lia]. }
  destruct (contig_scan_spec (S (Z.to_nat limit)) word limit n 0) as [[-> Hno]|(k & Hk & Hkl & -> & Hf & Hlt)]; [lia|lia|lia| |].
  - exists (-1), word. split_and!; [done|done|by left].
  - destruct (Z.ltb_spec k 0); [lia|]. exists k, (set_run (Z.to_nat n) k word). split_and!; [done|apply length_set_run|].
    right. split_and!; [done|done|done|done|]. intros j Hj. rewrite set_run_spec; [by rewrite Z2Nat.id by lia| |done|done].
    unfold in_map, WORD_BITS in *. lia.
Qed.

(** A pool gives out the lowest run of pages that is not in use, inside its range, and reports exhaustion only when there is none; giving the run back leaves the pages in use as they were. *)
Theorem address_pool_gives_and_takes_back p n : pool_ok p -> 0 < n < 2 ^ 31 ->
  exists a p', address_new p n = Some (a, p') /\
  ((a = 0 /\ p' = p /\ forall k, 0 <= k -> k + n <= bitlimit (idpool p) -> ~ free_run (bitmap (idpool p)) k n) \/
   exists i, a = ap_start p + i * PAGE_SIZE /\ 0 <= i /\ i + n <= bitlimit (idpool p) /\
     free_run (bitmap (idpool p)) i n /\ (forall k, 0 <= k < i -> ~ free_run (bitmap (idpool p)) k n) /\
     (forall j, 0 <= j -> page_used p' j <-> i <= j < i + n \/ page_used p j) /\
     exists p'', address_del p' a n = (0, p'') /\ forall j, 0 <= j -> page_used p'' j <-> page_used p j).
Proof.
  intros [Hlim Hw [Hs Ha] Hr] Hn. assert (PAGE_SIZE = 4096) as EP by done. assert (WORD_BITS = 32) as EW by done.
  destruct (find_contig_spec (bitmap (idpool p)) (bitlimit (idpool p)) n) as (r & w & E & Hlw & H); [lia|lia|].
  unfold address_new, ids_new_contiguous. rewrite E. do 2 eexists. split; [done|].
  destruct H as [(-> & -> & Hno)|(Hr0 & Hrl & Hf & Hlt & Hb)].
  { left. split_and!; [done| |done]. by destruct p as [[? ? ?] ? ?]. }
  right. exists r. assert (r * PAGE_SIZE < 2 ^ 32) by nia.
  assert (__pfn_to_addr r = r * PAGE_SIZE) as Ep.
  { unfold __pfn_to_addr. rewrite Z.shiftl_mul_pow2 by done. apply u32_id. unfold is_u32. lia. }
  destruct (Z.ltb_spec r 0); [lia|]. rewrite Ep, (u32_id (r * _)), u32_id by (unfold is_u32; nia).
  split; [lia|]. split_and!; [done|done|done|done| |].
  { intros j Hj. unfold page_used. cbn. rewrite Hb by done. rewrite orb_true_iff, bool_decide_eq_true. done. }
  unfold address_del, ids_del_contiguous. cbn -[PAGE_SIZE page_align].
  rewrite page_align_floor, (Z.add_comm (r * _)) by (unfold is_u32; nia).
  assert ((ap_start p + r * PAGE_SIZE) / PAGE_SIZE * PAGE_SIZE = ap_start p + r * PAGE_SIZE) as Ef.
  { rewrite Z.div_add by lia. pose proof (Z.div_mod (ap_start p) PAGE_SIZE ltac:(lia)). lia. }
  rewrite Ef, Z.add_simpl_l, (u32_id (r * PAGE_SIZE)) by (unfold is_u32; nia). rewrite pfn_div, Z.div_mul by lia.
  rewrite (u32_id (r + n)) by (unfold is_u32; lia). destruct (Z.ltb_spec (nwords (idpool p) * WORD_BITS) (r + n)); [lia|].
  destruct (clear_run_spec (Z.to_nat n) r w) as (w' & E' & _ & Hw'); [|lia|].
  { intros k Hk. split; [unfold in_map; lia|]. rewrite Hb, bool_decide_true by lia. done. }
  unfold check_and_clear_contig_bits. rewrite E'. eexists. split; [done|]. intros j Hj. unfold page_used. cbn.
  rewrite Hw', Hb, Z2Nat.id by lia. case_bool_decide as Hd; cbn; [|done].
  split; [done|]. intros Hu. by rewrite (Hf j Hd) in Hu.
Qed.

(** Pages 0 and 2 to 4 of a pool of 64 are in use: a run of two is found at page 5. *)
Definition demo_pool : address_pool := MkAddrPool (MkPool 3 64 [29; 0; 0]) 0x40000000 0x40040000.
Lemma address_pool_gives_and_takes_back_witness :
  fst <$> address_new demo_pool 2 = Some 0x40005000 /\
  exists a p', address_new demo_pool 2 = Some (a, p') /\
  ((a = 0 /\ p' = demo_pool /\ forall k, 0 <= k -> k + 2 <= 64 -> ~ free_run [29; 0; 0] k 2) \/
   exists i, a = 0x40000000 + i * PAGE_SIZE /\ 0 <= i /\ i + 2 <= 64 /\
     free_run [29; 0; 0] i 2 /\ (forall k, 0 <= k < i -> ~ free_run [29; 0; 0] k 2) /\
     (forall j, 0 <= j -> page_used p' j <-> i <= j < i + 2 \/ page_used demo_pool j) /\
     exists p'', address_del p' a 2 = (0, p'') /\ forall j, 0 <= j -> page_used p'' j <-> page_used demo_pool j).
Proof.
  split; [vm_compute; reflexivity|]. apply (address_pool_gives_and_takes_back demo_pool 2); [|done].
  split; vm_compute; (done || split; done || split; discriminate).
Defined.
