(* ===== verification/PageAlloc.v ===== *)
(** The userspace pager's physical pages: the page allocator of
    [conts/userlibs/libmem/mm/alloc_page.c] over the memory caches of
    [conts/userlibs/libmem/memcache/memcache.c], which hold its area records.

    The list of areas is in list order; an area is known by the address of its
    record.  A record that was given back to its cache is not on the list and
    following its links is a [Bug], as its links hold [L4_DEADWORD]. *)
From S2P Require Import Prelude Bits Defs Words.

(** * [memcache.c] *)

Record mem_cache := MkCache {
  mc_total : Z; mc_free : Z; mc_start : Z; mc_end : Z; struct_size : Z; mc_bitmap : list Z }.
#[export] Instance mem_cache_shape : Shape mem_cache := fun c =>
  MkCache (mc_total c) (mc_free c) (mc_start c) (mc_end c) (struct_size c) (mc_bitmap c).
(** [sizeof(struct mem_cache)]: a list link and six words. *)
Definition SIZEOF_MEM_CACHE := 32.

(** [None] is the [BUG()]. *)
Definition mem_cache_alloc (cache : mem_cache) : option (Z * mem_cache) :=
  if 0 <? mc_free cache then
    let cache := cache <| mc_free ::= Z.pred |> in
    let '(bit, map) := find_and_set_first_free_bit (mc_bitmap cache) (mc_total cache) in
    if bit <? 0 then None
    else Some (u32 (mc_start cache + struct_size cache * bit), cache <| mc_bitmap := map |>)
  else Some (0, cache).
Definition mem_cache_free (cache : mem_cache) (struct_addr : Z) : Z * mem_cache :=
  if (struct_addr <? mc_start cache) || (mc_end cache <? struct_addr) then (-1, cache)
  else
    let bit := u32 (struct_addr - mc_start cache) / struct_size cache in
    if negb (u32 (bit * struct_size cache + mc_start cache) =? struct_addr) then (-1, cache)
    else
      let '(err, map) := check_and_clear_bit (mc_bitmap cache) bit in
      if err <? 0 then (-1, cache <| mc_bitmap := map |>)
      else
        let cache := cache <| mc_bitmap := map |> <| mc_free ::= Z.succ |> in
        (if mc_total cache <? mc_free cache then -1 else 0, cache).
Definition mem_cache_is_empty (cache : mem_cache) : bool := mc_free cache =? mc_total cache.
Definition mem_cache_total_empty (cache : mem_cache) : Z := mc_free cache.

(** [Some None] is the null pointer. *)
Definition mem_cache_init (start cache_size size : Z) (aligned : bool) : option (option mem_cache) :=
  if (size <? 0) || (cache_size <? 0) || (start =? 0xFFFFFFFF) then Some None
  else
    let area_start := u32 (start + SIZEOF_MEM_CACHE) in
    let cache_size := cache_size - SIZEOF_MEM_CACHE in
    if cache_size <? size then Some None
    else
      let total := Z.quot cache_size size in
      let bwords := Z.shiftr total 5 + (if flag_set total 0x1F then 1 else 0) in
      let bsize := bwords * 4 in
      let bwords_in_structs := Z.quot bsize size + 1 in
      let total := total - bwords_in_structs in
      let cache_size := cache_size - bsize in
      if total <=? 0 then Some None
      else if cache_size <=? 0 then Some None
      else
        let area_start := u32 (area_start + bsize) in
        let diff := if aligned then u32 (align_up area_start size - area_start) else 0 in
        if size <=? diff then None
        else
          let cache_size := cache_size - diff in
          let area_start := u32 (area_start + diff) in
          let total := Z.quot cache_size size in
          Some (Some (MkCache total total area_start (u32 (area_start + cache_size)) size
                        (replicate (Z.to_nat bwords) 0))).

(** * [alloc_page.c] *)

(** [struct page_area], with the address of the record. *)
Record page_area := MkArea { pa_addr : Z; used : bool; pfn : Z; numpages : Z; cache : Z }.
#[export] Instance page_area_shape : Shape page_area := fun a =>
  MkArea (pa_addr a) (used a) (pfn a) (numpages a) (cache a).
(** Caches are listed with their addresses. *)
Record page_allocator := MkAllocator {
  page_area_list : list page_area; pga_cache_list : list (Z * mem_cache); pga_free : Z }.
#[export] Instance page_allocator_shape : Shape page_allocator := fun p =>
  MkAllocator (page_area_list p) (pga_cache_list p) (pga_free p).
(** [sizeof(struct page_area)] *)
Definition SIZEOF_PAGE_AREA := 24.

Abbreviation A := (prog page_allocator).
Definition upd_area (a : Z) (f : page_area -> page_area) : list page_area -> list page_area :=
  fmap (fun x => if pa_addr x =? a then f x else x).
(** The elements before and after the one at [a]. *)
Fixpoint prev_area (a : Z) (l : list page_area) : option page_area :=
  match l with
  | x :: ((y :: _) as l') => if pa_addr y =? a then Some x else prev_area a l'
  | _ => None
  end.
Fixpoint next_area (a : Z) (l : list page_area) : option page_area :=
  match l with
  | x :: ((y :: _) as l') => if pa_addr x =? a then Some y else next_area a l'
  | _ => None
  end.

Section PageAlloc.
(** [membank[0].start] and [PAGER_VIRTUAL_START]. *)
Context (membank_start virtual_start : Z).
Definition phys_to_virt (p : Z) : Z := u32 (p - membank_start + virtual_start).
Definition virt_to_phys (v : Z) : Z := u32 (v - virtual_start + membank_start).

(** The first cache with an element left: the element's address and the cache's. *)
Fixpoint take_record (l : list (Z * mem_cache)) : option (option (Z * Z) * list (Z * mem_cache)) :=
  match l with
  | [] => Some (None, [])
  | (ca, c) :: l =>
      match mem_cache_alloc c with
      | None => None
      | Some (a, c) =>
          if negb (a =? 0) then Some (Some (a, ca), (ca, c) :: l)
          else match take_record l with Some (r, l) => Some (r, (ca, c) :: l) | None => None end
      end
  end.
(** The record's address and its cache's. *)
Definition new_page_area : A (option (Z * Z)) :=
  l ← gets pga_cache_list;
  match take_record l with
  | None => bug "mem_cache_alloc"
  | Some (r, l) =>
      modify (fun p => p <| pga_cache_list := l |>) ;;
      match r with
      | Some a => modify (fun p => p <| pga_free ::= Z.pred |>) ;; mret (Some a)
      | None => mret None
      end
  end.

(** The loop over the areas. *)
Fixpoint scan_areas (quantity : Z) (l : list page_area) : A (option page_area) :=
  match l with
  | [] => mret None
  | area :: l =>
      if (numpages area =? quantity) && negb (used area) then
        modify (fun p => p <| page_area_list ::= upd_area (pa_addr area) (fun a => a <| used := true |>) |>) ;;
        mret (Some (area <| used := true |>))
      else if (quantity <? numpages area) && negb (used area) then
        new ← new_page_area;
        match new with
        | None => bug "get_free_page_area: null record"
        | Some (a, c) =>
            let left := u32 (numpages area - quantity) in
            let new := MkArea a true (u32 (pfn area + left)) quantity c in
            modify (fun p => p <| page_area_list ::= fun l =>
              l ≫= fun x => if pa_addr x =? pa_addr area then [x <| numpages := left |>; new] else [x] |>) ;;
            mret (Some new)
        end
      else scan_areas quantity l
  end.
Definition get_free_page_area (quantity : Z) : A (option page_area) :=
  if quantity <=? 0 then mret None else l ← gets page_area_list; scan_areas quantity l.

(** [None] is a write through a null pointer or the [BUG()] of a cache. *)
Definition init_page_allocator (start end_ : Z) : option page_allocator :=
  match mem_cache_init (phys_to_virt start) PAGE_SIZE SIZEOF_PAGE_AREA false with
  | Some (Some c0) =>
      let ca := phys_to_virt start in
      match mem_cache_alloc c0 with
      | Some (a1, c1) =>
          match mem_cache_alloc c1 with
          | Some (a2, c2) =>
              if (a1 =? 0) || (a2 =? 0) then None
              else
                let area := MkArea a1 true (__pfn start) 1 ca in
                let start := u32 (start + PAGE_SIZE) in
                let freemem := MkArea a2 false (__pfn start) (u32 (__pfn end_ - __pfn start)) ca in
                Some (MkAllocator [freemem; area] [(ca, c2)] (mem_cache_total_empty c2))
          | None => None
          end
      | None => None
      end
  | _ => None
  end.

Definition check_page_areas : A Z :=
  free ← gets pga_free;
  if free =? 1 then
    new ← get_free_page_area 1;
    match new with
    | None => mret (-1)
    | Some new =>
        free ← gets pga_free; bug_on (negb (free =? 0)) "check_page_areas" ;;
        let va := phys_to_virt (__pfn_to_addr (pfn new)) in
        match mem_cache_init va PAGE_SIZE SIZEOF_PAGE_AREA false with
        | Some (Some newcache) =>
            modify (fun p => p <| pga_free ::= Z.add (mem_cache_total_empty newcache) |>
                               <| pga_cache_list ::= cons (va, newcache) |>) ;;
            mret 0
        | _ => bug "check_page_areas: no cache"
        end
    end
  else mret 0.

Definition alloc_page (quantity : Z) : A Z :=
  r ← check_page_areas;
  if r <? 0 then mret 0
  else
    new ← get_free_page_area quantity;
    match new with
    | None => bug "alloc_page: null area"
    | Some new => mret (__pfn_to_addr (pfn new))
    end.

Definition cache_at (ca : Z) (l : list (Z * mem_cache)) : option mem_cache :=
  snd <$> List.find (fun c => c.1 =? ca) l.
Definition put_cache (ca : Z) (c : mem_cache) : list (Z * mem_cache) -> list (Z * mem_cache) :=
  fmap (fun x => if x.1 =? ca then (ca, c) else x).

(** [free_page] is the recursive call on the page of an emptied cache. *)
Definition merge_free_areas (free_page : Z -> A Z) (before after : page_area) : A page_area :=
  bug_on (negb (u32 (pfn before + numpages before) =? pfn after)) "merge_free_areas" ;;
  bug_on (used before || used after) "merge_free_areas" ;;
  bug_on (pa_addr before =? pa_addr after) "merge_free_areas" ;;
  let merged := before <| numpages := u32 (numpages before + numpages after) |> in
  modify (fun p => p <| page_area_list ::= fun l =>
    filter (fun x => pa_addr x <> pa_addr after) (upd_area (pa_addr before) (fun _ => merged) l) |>) ;;
  caches ← gets pga_cache_list;
  match cache_at (cache after) caches with
  | None => bug "merge_free_areas: cache"
  | Some c =>
      let c := (mem_cache_free c (pa_addr after)).2 in
      modify (fun p => p <| pga_cache_list ::= put_cache (cache after) c |>) ;;
      when (mem_cache_is_empty c)
        (modify (fun p => p <| pga_cache_list ::= filter (fun x => x.1 <> cache after) |>) ;;
         r ← free_page (virt_to_phys (cache after)); bug_on (r <? 0) "merge_free_areas: page not found") ;;
      l ← gets page_area_list;
      match List.find (fun x => pa_addr x =? pa_addr before) l with
      | None => bug "merge_free_areas: released record"
      | Some before => mret before
      end
  end.
(** [area] is read again after each step, as the code reads it. *)
Fixpoint find_and_free_page_area (fuel : nat) (addr : Z) : A Z :=
  match fuel with
  | O => out_of_fuel
  | S fuel =>
      l ← gets page_area_list;
      match List.find (fun a => (__pfn_to_addr (pfn a) =? addr) && used a) l with
      | None => mret (-1)
      | Some area =>
          let area := area <| used := false |> in
          modify (fun p => p <| page_area_list ::= upd_area (pa_addr area) (fun _ => area) |>) ;;
          l ← gets page_area_list;
          area ← match prev_area (pa_addr area) l with
                 | Some prev =>
                     if used prev then mret area else merge_free_areas (find_and_free_page_area fuel) prev area
                 | None => mret area
                 end;
          l ← gets page_area_list;
          match next_area (pa_addr area) l with
          | Some next =>
              if used next then mret 0
              else merge_free_areas (find_and_free_page_area fuel) area next ;; mret 0
          | None => mret 0
          end
      end
  end.
(** Each recursive call has taken a cache off the list. *)
Definition free_page (paddr : Z) : A Z := fun p =>
  find_and_free_page_area (S (length (pga_cache_list p))) paddr p.
End PageAlloc.

(** * The allocator's invariant *)

Record cache_inv (m : mem_cache) : Prop := {
  ci_words : 0 <= mc_total m <= Z.of_nat (length (mc_bitmap m)) * WORD_BITS;
  ci_size : 0 < struct_size m;
  ci_room : 0 < mc_start m /\ mc_start m + struct_size m * mc_total m <= mc_end m < 2 ^ 32;
  ci_free : mc_free m = clear_bits (mc_bitmap m) (mc_total m) }.
Definition record_of (m : mem_cache) (b : Z) : Z := mc_start m + struct_size m * b.
(** The record at [a] is in use. *)
Definition in_use (m : mem_cache) (a : Z) : Prop :=
  exists b, 0 <= b < mc_total m /\ bit_at (mc_bitmap m) b = true /\ a = record_of m b.

(** The areas follow each other from page [lo] to page [hi]. *)
Fixpoint tiles (lo : Z) (l : list page_area) (hi : Z) : Prop :=
  match l with
  | [] => lo = hi
  | a :: l => pfn a = lo /\ 0 < numpages a /\ tiles (lo + numpages a) l hi
  end.
Definition free_records (l : list (Z * mem_cache)) : Z := foldr (fun c n => mc_free c.2 + n) 0 l.
Definition records_ok (l : list page_area) (cs : list (Z * mem_cache)) : Prop :=
  NoDup (pa_addr <$> l) /\ forall a, a ∈ l -> exists c, (cache a, c) ∈ cs /\ in_use c (pa_addr a).
(** The records of two caches are apart. *)
Fixpoint caches_apart (cs : list (Z * mem_cache)) : Prop :=
  match cs with
  | [] => True
  | (ca, c) :: cs =>
      (forall x, x ∈ cs -> x.1 <> ca /\ (mc_end x.2 <= mc_start c \/ mc_end c <= mc_start x.2)) /\ caches_apart cs
  end.

Lemma take_bit_inv m b : cache_inv m -> 0 <= b < mc_total m -> bit_at (mc_bitmap m) b = false ->
  cache_inv (m <| mc_free ::= Z.pred |> <| mc_bitmap := bit_set (mc_bitmap m) b |>).
Proof.
  intros [] Hb Hf. split; cbn; [by rewrite length_bit_set|done|done|].
  rewrite (clear_bits_set (mc_bitmap m) _ _ b); [lia|done|done|]. intros j Hj. apply bit_at_set; [unfold in_map; lia|done].
Qed.
Lemma record_exact m b : cache_inv m -> 0 <= b < mc_total m ->
  u32 (record_of m b) = record_of m b /\ 0 < mc_start m <= record_of m b /\ record_of m b + struct_size m <= mc_end m.
Proof.
  intros [] Hb. assert (struct_size m * b + struct_size m <= struct_size m * mc_total m) by nia.
  assert (0 <= struct_size m * b) by nia. unfold record_of in *. rewrite u32_id by (unfold is_u32; lia). lia.
Qed.
Lemma in_use_range m a : cache_inv m -> in_use m a -> mc_start m <= a < mc_end m.
Proof. intros Hi (b & Hb & _ & ->). pose proof (record_exact m b Hi Hb). pose proof (ci_size m Hi). lia. Qed.
Lemma record_alloc_run m : cache_inv m ->
  mc_free m = 0 /\ mem_cache_alloc m = Some (0, m) \/
  0 < mc_free m /\ exists b, 0 <= b < mc_total m /\ bit_at (mc_bitmap m) b = false /\
    mem_cache_alloc m = Some (record_of m b, m <| mc_free ::= Z.pred |> <| mc_bitmap := bit_set (mc_bitmap m) b |>).
Proof.
  intros Hi. pose proof Hi as [Hw Hs Hr Hf]. unfold mem_cache_alloc. pose proof (clear_bits_nonneg (mc_bitmap m) (mc_total m)).
  destruct (Z.ltb_spec 0 (mc_free m)) as [Hp|Hp]; [right|left; split; [lia|done]]. split; [done|].
  destruct (clear_bits_pos (mc_bitmap m) (mc_total m)) as (k & Hk & Hkf); [lia|].
  unfold find_and_set_first_free_bit. cbn [mc_bitmap mc_total].
  destruct (first_free_loop_spec (Z.to_nat (mc_total m)) 0 (mc_bitmap m) ltac:(lia)) as [[_ Hall]|(b & Hb & Hbf & _ & E)].
  { rewrite Hall in Hkf by lia. done. }
  exists b. split_and!; [lia|lia|done|]. cbn. rewrite E.
  destruct (Z.ltb_spec b 0); [lia|].
  destruct (record_exact m b Hi ltac:(lia)) as [Hu _]. unfold record_of in *. by rewrite Hu.
Qed.

Lemma take_record_run cs : Forall (fun c => cache_inv c.2) cs -> 0 < free_records cs ->
  exists l1 ca c l2 b, cs = l1 ++ (ca, c) :: l2 /\ 0 <= b < mc_total c /\ bit_at (mc_bitmap c) b = false /\
    take_record cs = Some (Some (record_of c b, ca),
      l1 ++ (ca, c <| mc_free ::= Z.pred |> <| mc_bitmap := bit_set (mc_bitmap c) b |>) :: l2).
Proof.
  induction 1 as [|[ca c] cs Hc Hcs IH]; cbn -[mem_cache_alloc]; [lia|]. change (foldr _ 0 cs) with (free_records cs).
  intros Hn. cbn in Hc.
  destruct (record_alloc_run c Hc) as [[E ->]|(Hp & b & Hb & Hf & ->)].
  - cbn. destruct IH as (l1 & ca' & c' & l2 & b & -> & Hb & Hf & ->); [lia|].
    by exists ((ca, c) :: l1), ca', c', l2, b.
  - destruct (record_exact c b Hc Hb) as (_ & H1 & _). destruct (Z.eqb_spec (record_of c b) 0); [lia|].
    by exists [], ca, c, cs, b.
Qed.

Lemma in_use_kept c b a : cache_inv c -> 0 <= b < mc_total c ->
  in_use c a -> in_use (c <| mc_free ::= Z.pred |> <| mc_bitmap := bit_set (mc_bitmap c) b |>) a.
Proof.
  intros [] Hb (k & Hk & Ht & ->). exists k. split_and!; cbn; [lia|lia| |done].
  rewrite bit_at_set by (unfold in_map; lia). rewrite Ht. apply orb_true_r.
Qed.
Lemma in_use_taken c b : cache_inv c -> 0 <= b < mc_total c ->
  in_use (c <| mc_free ::= Z.pred |> <| mc_bitmap := bit_set (mc_bitmap c) b |>) (record_of c b).
Proof.
  intros [] Hb. exists b. split_and!; cbn; [lia|lia| |done]. by rewrite bit_at_set, bool_decide_true by (unfold in_map; lia).
Qed.
Lemma record_fresh c b : cache_inv c -> 0 <= b < mc_total c -> bit_at (mc_bitmap c) b = false -> ~ in_use c (record_of c b).
Proof.
  intros [] Hb Hf (k & Hk & Ht & E). unfold record_of in E. assert (k = b) as -> by nia. by rewrite Hf in Ht.
Qed.

(** * Lists of areas *)

Lemma tiles_app lo l1 l2 hi : tiles lo (l1 ++ l2) hi <-> exists m, tiles lo l1 m /\ tiles m l2 hi.
Proof. revert lo. induction l1 as [|a l1 IH]; intros lo; cbn; [naive_solver|]. rewrite IH. naive_solver. Qed.
Lemma tiles_le lo l hi : tiles lo l hi -> lo <= hi.
Proof. revert lo. induction l as [|a l IH]; cbn; intros lo; [lia|]. intros (_ & H & Ht%IH). lia. Qed.
Lemma tiles_bound lo l hi a : tiles lo l hi -> a ∈ l -> lo <= pfn a /\ 0 < numpages a /\ pfn a + numpages a <= hi.
Proof.
  revert lo. induction l as [|b l IH]; intros lo; [by intros _ H%elem_of_nil|].
  intros (E & H & Ht) [->|Ha]%elem_of_cons.
  - apply tiles_le in Ht. lia.
  - destruct (IH _ Ht Ha). lia.
Qed.
(** An area is apart from those before and after it. *)
Lemma tiles_apart lo l1 a l2 hi b : tiles lo (l1 ++ a :: l2) hi -> b ∈ l1 ++ l2 ->
  pfn b + numpages b <= pfn a \/ pfn a + numpages a <= pfn b.
Proof.
  intros (m & H1 & E & H & H2)%tiles_app [Hb|Hb]%elem_of_app.
  - left. destruct (tiles_bound _ _ _ _ H1 Hb). lia.
  - right. destruct (tiles_bound _ _ _ _ H2 Hb). lia.
Qed.

Definition fits (q : Z) (a : page_area) : Prop := used a = false /\ q <= numpages a.
#[export] Instance fits_dec q a : Decision (fits q a).
Proof. unfold fits. apply _. Defined.
Lemma split_fits q l : Forall (fun a => ~ fits q a) l \/
  exists pre a post, l = pre ++ a :: post /\ Forall (fun a => ~ fits q a) pre /\ fits q a.
Proof.
  induction l as [|a l IH]; [by left|]. destruct (decide (fits q a)); [by right; exists [], a, l|].
  destruct IH as [H|(pre & b & post & -> & H & Hb)]; [left; by constructor|].
  right. exists (a :: pre), b, post. split_and!; [done|by constructor|done].
Qed.
Lemma scan_skip q pre l p : Forall (fun a => ~ fits q a) pre -> scan_areas q (pre ++ l) p = scan_areas q l p.
Proof.
  induction 1 as [|a pre Ha _ IH]; [done|]. cbn [app scan_areas].
  assert (((numpages a =? q) && negb (used a) = false) /\ ((q <? numpages a) && negb (used a) = false)) as [-> ->]; [|done].
  unfold fits in Ha. destruct (used a); [by rewrite !andb_false_r|].
  destruct (Z.eqb_spec (numpages a) q), (Z.ltb_spec q (numpages a)); cbn; [lia|exfalso; apply Ha; split; [done|lia]..|done].
Qed.
Lemma upd_area_split f pre a post : NoDup (pa_addr <$> pre ++ a :: post) ->
  upd_area (pa_addr a) f (pre ++ a :: post) = pre ++ f a :: post.
Proof.
  intros Hd. rewrite fmap_app, fmap_cons in Hd. apply NoDup_app in Hd as (_ & Hpre & [Ha _]%NoDup_cons).
  assert (forall l, pa_addr a ∉ pa_addr <$> l -> upd_area (pa_addr a) f l = l) as Hid.
  { intros l Hl. unfold upd_area. rewrite <- (list_fmap_id l) at 2. apply list_fmap_ext. intros i x Hx.
    destruct (Z.eqb_spec (pa_addr x) (pa_addr a)) as [E|]; [|done]. exfalso. apply Hl. rewrite <- E.
    apply list_elem_of_fmap_2. by eapply list_elem_of_lookup_2. }
  unfold upd_area in *. rewrite fmap_app, fmap_cons, Z.eqb_refl, Hid, (Hid post); [done|done|].
  intros Hin. by apply (Hpre _ Hin); left.
Qed.
Lemma expand_split (k : page_area -> list page_area) pre a post : NoDup (pa_addr <$> pre ++ a :: post) ->
  (pre ++ a :: post) ≫= (fun x => if pa_addr x =? pa_addr a then k x else [x]) = pre ++ k a ++ post.
Proof.
  intros Hd. rewrite fmap_app, fmap_cons in Hd. apply NoDup_app in Hd as (_ & Hpre & [Ha _]%NoDup_cons).
  assert (forall l, pa_addr a ∉ pa_addr <$> l ->
    l ≫= (fun x => if pa_addr x =? pa_addr a then k x else [x]) = l) as Hid.
  { intros l. induction l as [|x l IH]; [done|]. rewrite fmap_cons. intros [Hne Hl]%not_elem_of_cons.
    rewrite bind_cons. rewrite IH by done. by destruct (Z.eqb_spec (pa_addr x) (pa_addr a)). }
  rewrite bind_app, bind_cons, Z.eqb_refl, Hid, (Hid post); [done|done|]. intros Hin. by apply (Hpre _ Hin); left.
Qed.

(** [k] pages from page [n] are in use as one area. *)
Definition in_run (p : page_allocator) (n k : Z) : Prop :=
  exists a, a ∈ page_area_list p /\ used a = true /\ pfn a = n /\ numpages a = k.

Section Invariant.
(** The memory managed starts at page [lo - 1], which holds the first cache. *)
Context (membank_start virtual_start lo hi : Z).
Definition geometry : Prop :=
  0 < lo /\ hi <= 2 ^ 20 /\ 0 < virtual_start /\ 0 <= membank_start <= (lo - 1) * PAGE_SIZE /\
  hi * PAGE_SIZE - membank_start + virtual_start < 2 ^ 32.
Record pa_ok (p : page_allocator) : Prop := {
  pk_areas : exists l first, page_area_list p = l ++ [first] /\ tiles lo l hi /\
    used first = true /\ pfn first = lo - 1 /\ numpages first = 1;
  pk_records : records_ok (page_area_list p) (pga_cache_list p);
  pk_caches : Forall (fun c => cache_inv c.2) (pga_cache_list p);
  pk_apart : caches_apart (pga_cache_list p);
  pk_home : forall ca c, (ca, c) ∈ pga_cache_list p -> exists n, in_run p n 1 /\
    ca = phys_to_virt membank_start virtual_start (__pfn_to_addr n) /\ ca <= mc_start c /\ mc_end c <= ca + PAGE_SIZE;
  pk_count : pga_free p <= free_records (pga_cache_list p) }.

Lemma fits_split q p : pa_ok p -> 0 < q ->
  Forall (fun a => ~ fits q a) (page_area_list p) \/
  exists pre a post first, page_area_list p = pre ++ a :: post ++ [first] /\ Forall (fun a => ~ fits q a) pre /\ fits q a /\
    tiles lo (pre ++ a :: post) hi /\ used first = true /\ pfn first = lo - 1 /\ numpages first = 1.
Proof.
  intros [(l & first & El & Ht & Hu & Hf & Hn) _ _ _ _ _] Hq. rewrite El.
  destruct (split_fits q (l ++ [first])) as [H|(pre & a & post & E & Hpre & Ha)]; [by left|right].
  destruct post as [|b post _] using rev_ind.
  - apply app_inj_tail in E as [-> ->]. destruct Ha. congruence.
  - rewrite app_comm_cons, app_assoc in E. apply app_inj_tail in E as [-> ->].
    exists pre, a, post, b. split_and!; try done. by rewrite app_comm_cons, app_assoc.
Qed.

Definition grown (p p' : page_allocator) (n q : Z) : Prop :=
  forall x k, in_run p' x k <-> x = n /\ k = q \/ in_run p x k.
Definition apart_run (p : page_allocator) (n q : Z) : Prop := forall x k, in_run p x k -> x + k <= n \/ n + q <= x.

Lemma records_ok_ext l l' cs : (fun a => (pa_addr a, cache a)) <$> l' = (fun a => (pa_addr a, cache a)) <$> l ->
  records_ok l cs -> records_ok l' cs.
Proof.
  intros E [Hd Hin]. assert (forall l : list page_area, pa_addr <$> l = fst <$> ((fun a => (pa_addr a, cache a)) <$> l)) as Ef.
  { intros k. by rewrite <- list_fmap_compose. }
  split; [by rewrite Ef, E, <- Ef|]. intros a Ha. apply (list_elem_of_fmap_2 (fun a => (pa_addr a, cache a))) in Ha.
  rewrite E in Ha. apply list_elem_of_fmap in Ha as (b & Eb & Hb). injection Eb as -> ->. by apply Hin.
Qed.
Lemma in_run_split p pre a post n k : page_area_list p = pre ++ a :: post ->
  in_run p n k <-> used a = true /\ pfn a = n /\ numpages a = k \/
    exists b, b ∈ pre ++ post /\ used b = true /\ pfn b = n /\ numpages b = k.
Proof.
  intros E. unfold in_run. rewrite E. split.
  - intros (b & Hb & H). rewrite elem_of_app, elem_of_cons in Hb. destruct Hb as [Hb|[->|Hb]]; [right|by left|right];
      exists b; by rewrite elem_of_app; auto.
  - intros [H|(b & Hb & H)]; [exists a|exists b]; (split; [|done]); rewrite elem_of_app, elem_of_cons; [by auto|].
    apply elem_of_app in Hb as [|]; auto.
Qed.

(** The split of an area with room for [q] pages, before its list is written. *)
Record fit_at (p : page_allocator) (q : Z) (pre : list page_area) (a : page_area) (post : list page_area) (first : page_area) : Prop := {
  fa_list : page_area_list p = pre ++ a :: post ++ [first];
  fa_skip : Forall (fun a => ~ fits q a) pre;
  fa_fits : fits q a;
  fa_tiles : tiles lo (pre ++ a :: post) hi;
  fa_first : used first = true /\ pfn first = lo - 1 /\ numpages first = 1 }.
Lemma fit_apart p q pre a post first : fit_at p q pre a post first -> forall x k, in_run p x k ->
  x + k <= pfn a \/ pfn a + numpages a <= x.
Proof.
  intros [El _ [Hu _] Ht (_ & Hf & Hn)] x k. rewrite (in_run_split _ _ _ _ _ _ El).
  intros [(Hc & _)|(b & Hb & _ & <- & <-)]; [congruence|].
  rewrite app_assoc, elem_of_app, list_elem_of_singleton in Hb. destruct Hb as [Hb| ->].
  - by apply (tiles_apart lo pre a post hi).
  - assert (a ∈ pre ++ a :: post) as Ha by (rewrite elem_of_app; right; by left).
    destruct (tiles_bound _ _ _ _ Ht Ha). lia.
Qed.

Lemma get_free_scan q p : 0 < q -> get_free_page_area q p = scan_areas q (page_area_list p) p.
Proof. intros. unfold get_free_page_area. by destruct (Z.leb_spec q 0); [lia|]. Qed.
(** The caches keep their places. *)
Definition same_ranges (p p' : page_allocator) : Prop := forall c, c ∈ pga_cache_list p' ->
  exists d, d ∈ pga_cache_list p /\ d.1 = c.1 /\ mc_start d.2 = mc_start c.2 /\ mc_end d.2 = mc_end c.2.
Lemma get_exact p q pre a post first : pa_ok p -> 0 < q -> fit_at p q pre a post first -> numpages a = q ->
  exists p', get_free_page_area q p = Ret (Some (a <| used := true |>)) p' /\ grown p p' (pfn a) q /\ pa_ok p' /\
    pga_free p' = pga_free p /\ same_ranges p p'.
Proof.
  intros Hok Hq Hfit Eq. pose proof Hok as [_ Hr Hc Hap Hh Hn]. pose proof Hfit as [El Hskip [Hu _] Ht Hf].
  set (p' := p <| page_area_list := pre ++ a <| used := true |> :: post ++ [first] |>).
  assert (grown p p' (pfn a) q) as Hg.
  { intros x k. rewrite (in_run_split p' pre (a <| used := true |>) (post ++ [first])), (in_run_split p _ _ _ _ _ El) by done.
    cbn. rewrite Hu, Eq. naive_solver. }
  exists p'. split_and!; [|done| |done|by intros c H; exists c].
  - rewrite get_free_scan, El, scan_skip by done. cbn [scan_areas].
    rewrite Eq, Z.eqb_refl, Hu. run. unfold p'.
    rewrite <- (upd_area_split (fun a => a <| used := true |>)), <- El by (rewrite <- El; apply Hr). done.
  - split; try done; cbn.
    + exists (pre ++ a <| used := true |> :: post), first. rewrite <- app_assoc. split_and!; try apply Hf; [done|].
      apply tiles_app in Ht as (m & H1 & H2). apply tiles_app. exists m. by split.
    + apply (records_ok_ext (page_area_list p)); [by rewrite El, !fmap_app|exact Hr].
    + intros ca c Hin. destruct (Hh ca c Hin) as (n & Hrun & H). exists n. split; [|done]. apply Hg. by right.
Qed.

(** A free record is taken for the new area. *)
Lemma new_page_area_run p : pa_ok p -> 0 < pga_free p ->
  exists l1 ca c l2 b, pga_cache_list p = l1 ++ (ca, c) :: l2 /\ 0 <= b < mc_total c /\ bit_at (mc_bitmap c) b = false /\
    new_page_area p = Ret (Some (record_of c b, ca)) (p <| pga_cache_list :=
      l1 ++ (ca, c <| mc_free ::= Z.pred |> <| mc_bitmap := bit_set (mc_bitmap c) b |>) :: l2 |> <| pga_free ::= Z.pred |>).
Proof.
  intros [_ _ Hc _ _ Hn] Hp. destruct (take_record_run _ Hc ltac:(lia)) as (l1 & ca & c & l2 & b & E & Hb & Hf & Et).
  exists l1, ca, c, l2, b. split; [done|split; [done|split; [done|]]]. unfold new_page_area. run. rewrite Et. done.
Qed.

Lemma caches_apart_split l1 ca c l2 x : caches_apart (l1 ++ (ca, c) :: l2) -> x ∈ l1 ++ l2 ->
  x.1 <> ca /\ (mc_end x.2 <= mc_start c \/ mc_end c <= mc_start x.2).
Proof.
  induction l1 as [|[cb d] l1 IH]; cbn.
  - intros [H _] Hx. by apply H.
  - intros [H Ha] [->|Hx]%elem_of_cons; [|by apply IH].
    destruct (H (ca, c)) as [H1 H2]; [rewrite elem_of_app; right; by left|]. cbn in *. split; [by apply not_eq_sym|lia].
Qed.
Lemma caches_apart_replace l1 ca c c' l2 : mc_start c' = mc_start c -> mc_end c' = mc_end c ->
  caches_apart (l1 ++ (ca, c) :: l2) -> caches_apart (l1 ++ (ca, c') :: l2).
Proof.
  intros Es Ee. induction l1 as [|[cb d] l1 IH]; cbn.
  - intros [H Ha]. split; [|done]. intros x Hx. rewrite Es, Ee. by apply H.
  - intros [H Ha]. split; [|by apply IH]. intros x Hx. rewrite elem_of_app, elem_of_cons in Hx.
    destruct Hx as [Hx|[->|Hx]]; [apply H; set_solver| |apply H; set_solver].
    cbn. rewrite Es, Ee. apply (H (ca, c)). set_solver.
Qed.
(** The record found is no area's yet. *)
Lemma record_unused p l1 ca c l2 b a : pa_ok p -> pga_cache_list p = l1 ++ (ca, c) :: l2 ->
  0 <= b < mc_total c -> bit_at (mc_bitmap c) b = false -> a ∈ page_area_list p -> pa_addr a <> record_of c b.
Proof.
  intros [_ [_ Hr] Hc Hap _ _] Ecs Hb Hf Ha Ea. destruct (Hr a Ha) as (d & Hd & Hu). rewrite Ea in Hu.
  assert (cache_inv c) as Hic by (rewrite Forall_forall in Hc; apply (Hc (ca, c)); rewrite Ecs, elem_of_app; right; by left).
  rewrite Ecs in Hd, Hap, Hc. rewrite elem_of_app, elem_of_cons in Hd.
  assert ((cache a, d) = (ca, c) \/ (cache a, d) ∈ l1 ++ l2) as [E|Hd'] by (rewrite elem_of_app; tauto).
  - injection E as _ ->. by apply (record_fresh c b).
  - destruct (caches_apart_split _ _ _ _ _ Hap Hd') as [_ Hsep]. cbn in Hsep.
    assert (cache_inv d) as Hid.
    { rewrite Forall_forall in Hc. apply (Hc (cache a, d)). rewrite elem_of_app, elem_of_cons. rewrite elem_of_app in Hd'. tauto. }
    pose proof (in_use_range d _ Hid Hu). destruct (record_exact c b Hic Hb) as (_ & ? & ?). pose proof (ci_size c Hic). lia.
Qed.

Lemma fit_bounds p q pre a post first : geometry -> fit_at p q pre a post first -> 0 < q ->
  lo <= pfn a /\ q <= numpages a /\ pfn a + numpages a <= hi /\ hi <= 2 ^ 20 /\ 0 < lo.
Proof.
  intros (G1 & G2 & _) [_ _ [_ Hq] Ht _] H. assert (a ∈ pre ++ a :: post) as Ha by (rewrite elem_of_app; right; by left).
  destruct (tiles_bound _ _ _ _ Ht Ha). lia.
Qed.
Lemma free_records_replace l1 ca c c' l2 : mc_free c' = mc_free c - 1 ->
  free_records (l1 ++ (ca, c') :: l2) = free_records (l1 ++ (ca, c) :: l2) - 1.
Proof. intros E. induction l1 as [|x l1 IH]; cbn; [lia|]. unfold free_records in IH. lia. Qed.
Lemma elem_replace {X} (x y z : X) l1 l2 : z ∈ l1 ++ x :: l2 -> z = x \/ z ∈ l1 ++ y :: l2.
Proof. rewrite !elem_of_app, !elem_of_cons. tauto. Qed.

(** The state after an area was divided and its upper part given out. *)
Section Divided.
Context (p : page_allocator) (q : Z) (pre : list page_area) (a : page_area) (post : list page_area) (first : page_area).
Context (l1 : list (Z * mem_cache)) (ca : Z) (c : mem_cache) (l2 : list (Z * mem_cache)) (b : Z).
Context (Hgeo : geometry) (Hok : pa_ok p) (Hq : 0 < q) (Hp : 0 < pga_free p).
Context (Hfit : fit_at p q pre a post first) (Hlt : q < numpages a).
Context (Ecs : pga_cache_list p = l1 ++ (ca, c) :: l2) (Hb : 0 <= b < mc_total c) (Hbf : bit_at (mc_bitmap c) b = false).

Let c' := c <| mc_free ::= Z.pred |> <| mc_bitmap := bit_set (mc_bitmap c) b |>.
Let lower := a <| numpages := numpages a - q |>.
Let new := MkArea (record_of c b) true (pfn a + (numpages a - q)) q ca.
Let p' := p <| page_area_list := pre ++ lower :: new :: post ++ [first] |>
            <| pga_cache_list := l1 ++ (ca, c') :: l2 |> <| pga_free ::= Z.pred |>.

Lemma divided_cache : cache_inv c.
Proof.
  pose proof (pk_caches _ Hok) as Hc. rewrite Forall_forall, Ecs in Hc. apply (Hc (ca, c)).
  rewrite elem_of_app. right. by left.
Qed.
Lemma divided_grown : grown p p' (pfn a + (numpages a - q)) q.
Proof.
  intros x k. pose proof Hfit as [El _ [Hu _] _ _].
  rewrite (in_run_split p' pre lower (new :: post ++ [first])), (in_run_split p _ _ _ _ _ El) by done.
  unfold lower. cbn. rewrite Hu. split.
  - intros [[? _]|(d & Hd & H)]; [done|]. rewrite elem_of_app, elem_of_cons in Hd.
    destruct Hd as [Hd|[->|Hd]]; [right; right; exists d; rewrite elem_of_app; auto|cbn in H; left; naive_solver|].
    right. right. exists d. rewrite elem_of_app. auto.
  - intros [[-> ->]|[[? _]|(d & Hd & H)]]; [|done|].
    + right. exists new. rewrite elem_of_app, elem_of_cons. auto.
    + right. exists d. rewrite elem_of_app, elem_of_cons in *. tauto.
Qed.
Lemma divided_records : records_ok (page_area_list p') (pga_cache_list p').
Proof.
  pose proof Hfit as [El _ _ _ _]. pose proof Hok as [_ [Hd Hr] _ _ _ _]. cbn.
  assert (forall d, d ∈ page_area_list p -> exists e, (cache d, e) ∈ l1 ++ (ca, c') :: l2 /\ in_use e (pa_addr d)) as Hold.
  { intros d Hin. destruct (Hr d Hin) as (e & He & Hu). rewrite Ecs in He.
    apply (elem_replace _ (ca, c')) in He as [E|He]; [|by exists e]. injection E as -> ->.
    exists c'. split; [rewrite elem_of_app; right; by left|]. apply in_use_kept; [apply divided_cache|done|done]. }
  split.
  - assert (record_of c b ∉ pa_addr <$> page_area_list p) as Hn.
    { intros (d & Ed & Hin)%list_elem_of_fmap. by apply (record_unused p l1 ca c l2 b d Hok Ecs Hb Hbf Hin). }
    assert (pa_addr <$> pre ++ lower :: new :: post ++ [first] ≡ₚ record_of c b :: (pa_addr <$> page_area_list p)) as ->;
      [|by apply NoDup_cons].
    rewrite El, !fmap_app, !fmap_cons. cbn. solve_Permutation.
  - intros d. rewrite elem_of_app, !elem_of_cons. intros Hd'.
    assert (d = new \/ exists e, e ∈ page_area_list p /\ cache d = cache e /\ pa_addr d = pa_addr e) as [->|(e & He & -> & ->)].
    { rewrite El. destruct Hd' as [H|[->|[->|H]]]; [right; exists d|right; exists a|by left|right; exists d]; set_solver. }
    + exists c'. split; [rewrite elem_of_app; right; by left|]. apply in_use_taken; [apply divided_cache|done].
    + by apply Hold.
Qed.
Lemma divided_ok : pa_ok p'.
Proof.
  destruct (fit_bounds _ _ _ _ _ _ Hgeo Hfit Hq) as (B1 & _ & B2 & B3 & B4).
  pose proof Hfit as [El _ [Hu _] Ht Hf]. pose proof Hok as [_ _ Hc Hap Hh Hn]. pose proof divided_cache as Hci.
  split; [|apply divided_records|..]; cbn.
  - exists (pre ++ lower :: new :: post), first. rewrite <- app_assoc. split_and!; try apply Hf; [done|].
    apply tiles_app in Ht as (m & H1 & E & Hnum & H2). apply tiles_app. exists m. split; [done|]. cbn.
    split_and!; [done|lia|lia|lia|]. by replace (m + (numpages a - q) + q) with (m + numpages a) by lia.
  - rewrite Ecs in Hc. rewrite Forall_app, Forall_cons in *. destruct Hc as (H1 & _ & H2). split_and!; [done| |done].
    by apply take_bit_inv.
  - rewrite Ecs in Hap. by apply (caches_apart_replace l1 ca c c' l2).
  - intros cb d Hd. apply (elem_replace _ (ca, c)) in Hd. rewrite <- Ecs in Hd.
    assert (exists e, (cb, e) ∈ pga_cache_list p /\ mc_start d = mc_start e /\ mc_end d = mc_end e) as (e & He & -> & ->).
    { destruct Hd as [E|Hd]; [|by exists d]. injection E as -> ->. exists c. rewrite Ecs, elem_of_app. split; [right; by left|done]. }
    destruct (Hh cb e He) as (n & Hrun & H). exists n. split; [|done]. apply divided_grown. by right.
  - pose proof (free_records_replace l1 ca c c' l2 eq_refl) as E. rewrite <- Ecs in E.
    change (Z.pred (pga_free p) <= free_records (l1 ++ (ca, c') :: l2)). lia.
Qed.
Lemma divided_ranges : same_ranges p p'.
Proof.
  intros e He. apply (elem_replace _ (ca, c)) in He. rewrite <- Ecs in He. destruct He as [->|He]; [|by exists e].
  exists (ca, c). rewrite Ecs, elem_of_app. split; [right; by left|done].
Qed.
Lemma divided_run :
  new_page_area p = Ret (Some (record_of c b, ca)) (p <| pga_cache_list := l1 ++ (ca, c') :: l2 |> <| pga_free ::= Z.pred |>) ->
  get_free_page_area q p = Ret (Some new) p'.
Proof.
  destruct (fit_bounds _ _ _ _ _ _ Hgeo Hfit Hq) as (B1 & _ & B2 & B3 & B4).
  pose proof Hfit as [El Hskip [Hu _] Ht Hf]. intros En.
  rewrite get_free_scan, El, scan_skip by done. cbn [scan_areas]. rewrite Hu.
  destruct (Z.eqb_spec (numpages a) q); [lia|]. destruct (Z.ltb_spec q (numpages a)); [|lia]. cbn [negb andb].
  rewrite (run_bind _ _ _ _ _ En). cbv zeta. rewrite (u32_id (numpages a - q)), u32_id by (unfold is_u32; lia). run. do 2 f_equal.
  pose proof (expand_split (fun x => [x <| numpages := numpages a - q |>; new]) pre a (post ++ [first])) as Ex.
  rewrite <- El in Ex. specialize (Ex (proj1 (pk_records _ Hok))). cbn [app] in Ex. fold lower in Ex.
  unfold p'. by rewrite <- Ex.
Qed.
End Divided.

(** [get_free_page_area] finds room or there is none. *)
Lemma get_free_run p q : geometry -> pa_ok p -> 0 < q -> 0 < pga_free p ->
  Forall (fun a => ~ fits q a) (page_area_list p) /\ get_free_page_area q p = Ret None p \/
  exists pre a post first b p', fit_at p q pre a post first /\ get_free_page_area q p = Ret (Some b) p' /\
    lo <= pfn b /\ pfn b + q <= hi /\ grown p p' (pfn b) q /\ apart_run p (pfn b) q /\ pa_ok p' /\
    pga_free p' = pga_free p - (if numpages a =? q then 0 else 1) /\ same_ranges p p'.
Proof.
  intros Hg Hok Hq Hp. destruct (fits_split q p Hok Hq) as [Hno|(pre & a & post & first & Hs)]; [left|right].
  { split; [done|]. rewrite get_free_scan, <- (app_nil_r (page_area_list p)) at 1 by done. by rewrite scan_skip. }
  assert (fit_at p q pre a post first) as Hfit by (destruct Hs as (? & ? & ? & ? & ? & ? & ?); by split).
  destruct (fit_bounds _ _ _ _ _ _ Hg Hfit Hq) as (B1 & B2 & B3 & _). exists pre, a, post, first.
  pose proof (fit_apart _ _ _ _ _ _ Hfit) as Hap. destruct (Z.eqb_spec (numpages a) q) as [E|E].
  - destruct (get_exact p q pre a post first Hok Hq Hfit E) as (p' & Er & Hgr & Hok' & Hn & Hsr).
    exists (a <| used := true |>), p'. split; [done|]. split; [done|]. cbn -[Z.add].
    split_and!; [lia|lia|done| |done|lia|done]. intros x k Hx. specialize (Hap x k Hx). cbn. lia.
  - destruct (new_page_area_run p Hok Hp) as (l1 & ca & c & l2 & b & Ecs & Hb & Hbf & En).
    assert (q < numpages a) as Hlt by lia. do 2 eexists. split; [done|].
    split; [by apply (divided_run p q pre a post first l1 ca c l2 b)|]. cbn -[Z.add].
    split_and!; [lia|lia| | | |done|].
    + by apply (divided_grown p q pre a post first l1 ca c l2 b).
    + intros x k Hx. specialize (Hap x k Hx). lia.
    + by apply (divided_ok p q pre a post first l1 ca c l2 b).
    + by apply (divided_ranges p q pre a post first l1 ca c l2 b).
Qed.

(** ** A new cache *)

(** A page as a cache of area records. *)
Definition page_cache (va : Z) : mem_cache := MkCache 168 168 (va + 56) (va + PAGE_SIZE) SIZEOF_PAGE_AREA (replicate 6 0).
Lemma page_cache_init va : 0 < va -> va + PAGE_SIZE < 2 ^ 32 ->
  mem_cache_init va PAGE_SIZE SIZEOF_PAGE_AREA false = Some (Some (page_cache va)).
Proof.
  intros Hv Hr. assert (PAGE_SIZE = 4096) as EP by done. unfold mem_cache_init. destruct (Z.eqb_spec va 0xFFFFFFFF); [lia|].
  change ((SIZEOF_PAGE_AREA <? 0) || (PAGE_SIZE <? 0) || false) with false.
  transitivity (Some (Some (MkCache 168 168 (u32 (u32 (u32 (va + 32) + 24) + 0))
    (u32 (u32 (u32 (u32 (va + 32) + 24) + 0) + 4040)) 24 (replicate 6 0)))); [reflexivity|].
  rewrite (u32_id (va + 32)), (u32_id (va + 32 + 24)), (u32_id (va + 32 + 24 + 0)), u32_id by (unfold is_u32; lia).
  unfold page_cache, SIZEOF_PAGE_AREA. do 3 f_equal; lia.
Qed.
Lemma page_cache_inv va : 0 < va -> va + PAGE_SIZE < 2 ^ 32 -> cache_inv (page_cache va).
Proof. intros Hv Hr. unfold PAGE_SIZE in *. split; [cbn; unfold WORD_BITS; lia|done| |by vm_compute].
  change (0 < va + 56 /\ va + 56 + 24 * 168 <= va + PAGE_SIZE < 2 ^ 32). unfold PAGE_SIZE. lia. Qed.

Definition refilled (p : page_allocator) (va : Z) : page_allocator :=
  p <| pga_free ::= Z.add 168 |> <| pga_cache_list ::= cons (va, page_cache va) |>.
Lemma page_addr n : 0 <= n < 2 ^ 20 -> __pfn_to_addr n = n * PAGE_SIZE.
Proof. intros. unfold __pfn_to_addr. rewrite Z.shiftl_mul_pow2 by done. apply u32_id. unfold is_u32, PAGE_SIZE. change (2 ^ PAGE_BITS) with 4096. lia. Qed.
Lemma page_virt n : geometry -> lo - 1 <= n < hi ->
  phys_to_virt membank_start virtual_start (__pfn_to_addr n) = n * PAGE_SIZE - membank_start + virtual_start /\
  0 < n * PAGE_SIZE - membank_start + virtual_start /\ n * PAGE_SIZE - membank_start + virtual_start + PAGE_SIZE < 2 ^ 32.
Proof.
  intros (G1 & G2 & G3 & G4 & G5) Hn. rewrite page_addr by lia. assert (PAGE_SIZE = 4096) as EP by done.
  split; [|lia]. unfold phys_to_virt. apply u32_id. unfold is_u32. lia.
Qed.
Lemma run_bounds p x k : geometry -> pa_ok p -> in_run p x k -> lo - 1 <= x /\ x + k <= hi /\ 0 < k.
Proof.
  intros (G1 & _) [(l & first & El & Ht & _ & Hf & Hn) _ _ _ _ _] (a & Ha & _ & <- & <-). rewrite El in Ha.
  pose proof (tiles_le _ _ _ Ht). apply elem_of_app in Ha as [Ha| ->%list_elem_of_singleton]; [|lia].
  destruct (tiles_bound _ _ _ _ Ht Ha). lia.
Qed.
Lemma refilled_ok p p' n : geometry -> pa_ok p -> lo <= n -> n + 1 <= hi -> grown p p' n 1 -> apart_run p n 1 -> pa_ok p' -> same_ranges p p' ->
  pa_ok (refilled p' (phys_to_virt membank_start virtual_start (__pfn_to_addr n))).
Proof.
  intros Hg Hok Hl Hh Hgr Hap Hok' Hcs. destruct (page_virt n Hg ltac:(lia)) as (Ev & V1 & V2).
  rewrite Ev. set (va := n * PAGE_SIZE - membank_start + virtual_start) in *.
  pose proof Hok' as [Ha [Hd Hr] Hc Hca Hhm Hn]. split; cbn -[page_cache].
  - exact Ha.
  - split; [exact Hd|]. intros a Hin. destruct (Hr a Hin) as (c & Hc1 & Hc2). exists c. split; [by right|done].
  - constructor; [by apply page_cache_inv|done].
  - split; [|done]. intros c Hin. destruct (Hcs c Hin) as ([ca d] & Hd1 & E1 & E2 & E3).
    destruct (pk_home _ Hok ca d Hd1) as (m & Hrun & Em & H1 & H2). cbn in E1, E2, E3.
    destruct (run_bounds p m 1 Hg Hok Hrun) as (R1 & R2 & _). destruct (page_virt m Hg ltac:(lia)) as (Em' & M1 & _).
    assert (PAGE_SIZE = 4096) as EP by done. pose proof (Hap m 1 Hrun). cbn. unfold va. lia.
  - intros ca c Hin. apply elem_of_cons in Hin as [E|Hin]; [|by apply Hhm]. injection E as -> ->.
    exists n. split; [apply Hgr; by left|]. rewrite Ev. cbn. unfold va, PAGE_SIZE. lia.
  - change (168 + pga_free p' <= 168 + free_records (pga_cache_list p')). lia.
Qed.

(** ** [alloc_page] *)

(** The first area with room for a page. *)
Definition first_room (p : page_allocator) (a : page_area) : Prop := exists pre post first, fit_at p 1 pre a post first.
(** The check passes at once, or takes a page for a new cache. *)
Definition checked (p p1 : page_allocator) : Prop :=
  1 < pga_free p /\ p1 = p \/
  pga_free p = 1 /\ (exists a, first_room p a /\ 1 < numpages a) /\
    exists n, lo <= n /\ n + 1 <= hi /\ grown p p1 n 1 /\ apart_run p n 1.
Lemma check_run p : geometry -> pa_ok p ->
  1 < pga_free p \/ pga_free p = 1 /\ (exists a, first_room p a /\ 1 < numpages a) ->
  exists p1, check_page_areas membank_start virtual_start p = Ret 0 p1 /\ checked p p1 /\ pa_ok p1 /\ 1 < pga_free p1.
Proof.
  intros Hg Hok [Hp|[Hp (a & (pre & post & first & Hfit) & Ha)]]; unfold check_page_areas; run.
  { destruct (Z.eqb_spec (pga_free p) 1); [lia|]. exists p. split; [done|]. split; [by left|done]. }
  rewrite Hp. cbn [Z.eqb Pos.eqb].
  destruct (get_free_run p 1 Hg Hok) as [[Hno _]|H]; [lia|lia| |].
  { exfalso. rewrite Forall_forall in Hno. destruct Hfit as [El _ Hf _ _]. apply (Hno a); [|done].
    rewrite El, elem_of_app. right. by left. }
  destruct H as (pre' & a' & post' & first' & b & p' & Hfit' & Er & Hl & Hh & Hgr & Hap & Hok' & Hn & Hsr).
  assert (a' = a) as ->.
  { destruct Hfit as [E1 S1 F1 _ _], Hfit' as [E2 S2 F2 _ _]. rewrite E1 in E2. clear -E2 S1 S2 F1 F2.
    revert pre' E2 S2. induction pre as [|x pre IH]; intros [|y pre'] E2 S2; cbn in E2; injection E2 as -> E2.
    - done.
    - by apply Forall_cons in S2 as [? _].
    - by apply Forall_cons in S1 as [? _].
    - apply Forall_cons in S1 as [_ S1], S2 as [_ S2]. by eapply IH. }
  destruct (Z.eqb_spec (numpages a) 1); [lia|]. rewrite Er. run. rewrite Hn, Hp. cbn [negb Z.eqb Z.sub Z.add Z.opp Z.pos_sub].
  destruct (page_virt (pfn b) Hg ltac:(lia)) as (Ev & V1 & V2).
  pose proof (refilled_ok p p' (pfn b) Hg Hok ltac:(lia) ltac:(lia) Hgr Hap Hok' Hsr) as Hok1.
  rewrite Ev in *. rewrite page_cache_init by lia. eexists. split; [reflexivity|].
  split; [right; split; [done|]; split; [exists a; split; [by exists pre, post, first|done]|by exists (pfn b)]|]. split; [exact Hok1|].
  change (1 < 168 + pga_free p'). lia.
Qed.

(** What follows a check that has passed. *)
Lemma pages_from_checked p p1 q : geometry -> pa_ok p1 -> 0 < q -> 1 < pga_free p1 ->
  check_page_areas membank_start virtual_start p = Ret 0 p1 ->
  Forall (fun a => ~ fits q a) (page_area_list p1) /\
     alloc_page membank_start virtual_start q p = Bug "alloc_page: null area" \/
  exists n p', alloc_page membank_start virtual_start q p = Ret (n * PAGE_SIZE) p' /\ lo <= n /\ n + q <= hi /\
     apart_run p1 n q /\ grown p1 p' n q /\ pa_ok p' /\ 0 < pga_free p'.
Proof.
  intros Hg Hok1 Hq Hp1 Ec. unfold alloc_page. rewrite (run_bind _ _ _ _ _ Ec). cbn [Z.ltb Z.compare].
  destruct (get_free_run p1 q Hg Hok1 Hq) as [[Hno Er]|H]; [lia|left|right].
  { split; [done|]. by rewrite (run_bind _ _ _ _ _ Er). }
  destruct H as (pre & a & post & first & b & p' & _ & Er & Hl & Hh & Hgr & Hap & Hok' & Hn & _).
  rewrite (run_bind _ _ _ _ _ Er). destruct Hg as (G1 & G2 & _).
  exists (pfn b), p'. split; [by rewrite <- page_addr by lia|]. split_and!; [done|done|done|done|done|].
  destruct (numpages a =? q); lia.
Qed.
(** With one record left, the check finds no page and gives up. *)
Lemma alloc_page_gives_up p q : geometry -> pa_ok p -> pga_free p = 1 -> Forall (fun a => ~ fits 1 a) (page_area_list p) ->
  alloc_page membank_start virtual_start q p = Ret 0 p.
Proof.
  intros Hg Hok Hp Hno. destruct (get_free_run p 1 Hg Hok) as [[_ Er]|H]; [lia|lia| |].
  { unfold alloc_page, check_page_areas. run. rewrite Hp. cbn [Z.eqb Pos.eqb]. rewrite Er. by run. }
  destruct H as (pre & a & post & first & b & p' & [El _ Hf _ _] & _). rewrite Forall_forall in Hno. destruct (Hno a); [|done].
  rewrite El, elem_of_app. right. by left.
Qed.
(** It halts when the first area with room for a page is a single page: that is
    taken as it is, so the count of free records does not drop to the zero that the
    code insists on. *)
Lemma alloc_page_can_halt p q a : geometry -> pa_ok p -> pga_free p = 1 -> first_room p a -> numpages a = 1 ->
  alloc_page membank_start virtual_start q p = Bug "check_page_areas".
Proof.
  intros Hg Hok Hp (pre & post & first & Hfit) Ha.
  destruct (get_exact p 1 pre a post first Hok ltac:(lia) Hfit Ha) as (p' & Er & _ & _ & Hn & _).
  unfold alloc_page, check_page_areas. run. rewrite Hp. cbn [Z.eqb Pos.eqb]. rewrite Er. run. by rewrite Hn, Hp.
Qed.
Lemma first_room_cases p : geometry -> pa_ok p -> 0 < pga_free p ->
  Forall (fun a => ~ fits 1 a) (page_area_list p) \/ exists a, first_room p a /\ 0 < numpages a.
Proof.
  intros Hg Hok Hp. destruct (get_free_run p 1 Hg Hok) as [[? _]|H]; [lia|done|by left|right].
  destruct H as (pre & a & post & first & _ & _ & Hfit & _). exists a. split; [by exists pre, post, first|].
  pose proof (fa_fits _ _ _ _ _ _ Hfit) as [_ ?]. lia.
Qed.

(** C34: [alloc_page] with a record left for its areas, for any positive number
    [q] of pages.  It first makes sure of records: when one is left it turns a page
    into a cache of records.  If there is no page for that it returns 0 and nothing
    has changed, and if the first area with room is a single page the pager halts.
    Otherwise it gives out the physical address of [q] adjacent pages of the managed
    memory that nobody uses, and exactly those become used, or, when no area has
    room for them, follows a null pointer.  Nothing in use moves, and the allocator
    stays well formed with a record left. *)
Theorem alloc_page_gives_free_pages p q : geometry -> pa_ok p -> 0 < q -> 0 < pga_free p ->
  pga_free p = 1 /\ Forall (fun a => ~ fits 1 a) (page_area_list p) /\ alloc_page membank_start virtual_start q p = Ret 0 p \/
  pga_free p = 1 /\ (exists a, first_room p a /\ numpages a = 1) /\
    alloc_page membank_start virtual_start q p = Bug "check_page_areas" \/
  exists p1, checked p p1 /\ pa_ok p1 /\
  (Forall (fun a => ~ fits q a) (page_area_list p1) /\
     alloc_page membank_start virtual_start q p = Bug "alloc_page: null area" \/
   exists n p', alloc_page membank_start virtual_start q p = Ret (n * PAGE_SIZE) p' /\ lo <= n /\ n + q <= hi /\
     apart_run p1 n q /\ grown p1 p' n q /\ pa_ok p' /\ 0 < pga_free p').
Proof.
  intros Hg Hok Hq Hp. destruct (decide (pga_free p = 1)) as [H1|H1]; [|right; right].
  1: destruct (first_room_cases p Hg Hok Hp) as [Hno|(a & Hroom & Ha)]; [left; by split_and!; [..|apply alloc_page_gives_up]|right].
  1: destruct (decide (numpages a = 1)) as [Ea|Ea]; [left|right].
  { split; [done|]. split; [by exists a|by apply (alloc_page_can_halt p q a)]. }
  all: destruct (check_run p Hg Hok) as (p1 & Ec & Hc & Hok1 & Hp1); [first [left; lia|right; split; [done|exists a; split; [done|lia]]]|].
  all: exists p1; split; [done|]; split; [done|]; by apply pages_from_checked.
Qed.

(** ** [free_page] *)

(** The cache with a record given back. *)
Definition given (c : mem_cache) (b : Z) : mem_cache :=
  c <| mc_bitmap := bit_clear (mc_bitmap c) b |> <| mc_free ::= Z.succ |>.
Lemma given_inv c b : cache_inv c -> 0 <= b < mc_total c -> bit_at (mc_bitmap c) b = true -> cache_inv (given c b).
Proof.
  intros [] Hb Hf. assert (in_map (mc_bitmap c) b) as Hin by (unfold in_map; lia).
  split; cbn; [by rewrite length_bit_clear|done|done|].
  rewrite ci_free0, (clear_bits_set (bit_clear (mc_bitmap c) b) (mc_bitmap c) _ b); [lia|done| |].
  - by rewrite bit_at_clear, bool_decide_true by (done || lia).
  - intros j Hj. rewrite bit_at_clear by done. case_bool_decide; [by subst|done].
Qed.
Lemma given_in_use c b a : cache_inv c -> 0 <= b < mc_total c -> in_use c a -> a <> record_of c b -> in_use (given c b) a.
Proof.
  intros [] Hb (k & Hk & Ht & ->) Hne. exists k. split_and!; cbn; [lia|lia| |done].
  rewrite bit_at_clear, Ht, bool_decide_false by (try (intros ->; done); unfold in_map; lia). done.
Qed.
Lemma record_free_run c b : cache_inv c -> 0 <= b < mc_total c -> bit_at (mc_bitmap c) b = true ->
  mem_cache_free c (record_of c b) = (0, given c b).
Proof.
  intros Hc Hb Hf. destruct (record_exact c b Hc Hb) as (E & H1 & H2). pose proof (ci_size c Hc).
  pose proof (given_inv c b Hc Hb Hf) as Hg. unfold mem_cache_free.
  destruct (Z.ltb_spec (record_of c b) (mc_start c)); [lia|]. destruct (Z.ltb_spec (mc_end c) (record_of c b)); [lia|].
  cbn [orb]. assert (u32 (record_of c b - mc_start c) / struct_size c = b) as ->.
  { destruct Hc as [_ _ [_ ?] _]. rewrite u32_id by (unfold is_u32; lia). unfold record_of.
    rewrite Z.add_simpl_l, Z.mul_comm. apply Z.div_mul. lia. }
  rewrite Z.mul_comm, Z.add_comm. fold (record_of c b). rewrite E, Z.eqb_refl. cbn [negb].
  unfold check_and_clear_bit. rewrite bit_is_set_at, Hf. cbn [Z.ltb Z.compare]. fold (given c b).
  destruct Hg as [_ _ _ Hgf]. destruct (Z.ltb_spec (mc_total (given c b)) (mc_free (given c b))) as [Hl|]; [|done].
  pose proof (clear_bits_le (mc_bitmap (given c b)) (mc_total (given c b)) ltac:(cbn; destruct Hc; lia)). lia.
Qed.
Lemma cache_split l1 ca c l2 c' : caches_apart (l1 ++ (ca, c) :: l2) ->
  cache_at ca (l1 ++ (ca, c) :: l2) = Some c /\ put_cache ca c' (l1 ++ (ca, c) :: l2) = l1 ++ (ca, c') :: l2.
Proof.
  intros Hap. assert (forall x, x ∈ l1 ++ l2 -> x.1 <> ca) as Hne by (intros x Hx; by apply (caches_apart_split _ _ _ _ x Hap)).
  clear Hap. induction l1 as [|x l1 IH].
  - unfold cache_at, put_cache. cbn. rewrite Z.eqb_refl. split; [done|]. f_equal.
    rewrite <- (list_fmap_id l2) at 2. apply list_fmap_ext. intros i x Hx. destruct (Z.eqb_spec x.1 ca); [|done].
    exfalso. apply (Hne x); [by eapply list_elem_of_lookup_2|done].
  - destruct IH as [H1 H2]; [intros y Hy; apply Hne; by right|]. unfold cache_at, put_cache in *. cbn.
    destruct (Z.eqb_spec x.1 ca); [exfalso; apply (Hne x); [by left|done]|]. split; [exact H1|by rewrite H2].
Qed.

(** No cache is emptied by giving back [k] records. *)
Definition roomy (k : Z) (p : page_allocator) : Prop := forall c, c ∈ pga_cache_list p -> mc_free c.2 + k < mc_total c.2.
Definition same_runs (p p' : page_allocator) : Prop := forall x k, in_run p' x k <-> in_run p x k.

Lemma find_addr_split (f : page_area -> bool) pre a post : Forall (fun x => f x = false) pre -> f a = true ->
  List.find f (pre ++ a :: post) = Some a.
Proof. intros H Ha. induction H as [|x pre Hx _ IH]; cbn; [by rewrite Ha|]. by rewrite Hx. Qed.
Lemma addr_pre pre a post : NoDup (pa_addr <$> pre ++ a :: post) -> Forall (fun x => (pa_addr x =? pa_addr a) = false) pre.
Proof.
  rewrite fmap_app, fmap_cons. intros (_ & H & _)%NoDup_app. apply Forall_forall. intros x Hx. apply Z.eqb_neq. intros E.
  apply (H (pa_addr x)); [by apply list_elem_of_fmap_2|]. rewrite E. by left.
Qed.
Lemma filter_all {X} (P : X -> Prop) `{!forall x, Decision (P x)} l : Forall P l -> filter P l = l.
Proof. induction 1 as [|x l Hx _ IH]; [done|]. by rewrite filter_cons_True, IH. Qed.
Lemma filter_other pre a post : NoDup (pa_addr <$> pre ++ a :: post) ->
  filter (fun x => pa_addr x <> pa_addr a) (pre ++ a :: post) = pre ++ post.
Proof.
  intros Hd. rewrite fmap_app, fmap_cons in Hd. apply NoDup_app in Hd as (_ & Hpre & [Ha _]%NoDup_cons).
  rewrite filter_app, filter_cons_False by naive_solver. f_equal; apply filter_all; apply Forall_forall; intros x Hx E.
  - apply (Hpre (pa_addr x)); [by apply list_elem_of_fmap_2|]. rewrite E. by left.
  - apply Ha. rewrite <- E. by apply list_elem_of_fmap_2.
Qed.

Lemma free_records_given l1 ca c l2 b : free_records (l1 ++ (ca, given c b) :: l2) = free_records (l1 ++ (ca, c) :: l2) + 1.
Proof. induction l1 as [|x l1 IH]; cbn; [lia|]. unfold free_records in IH. lia. Qed.

Section Merge.
Context (p : page_allocator) (l1 : list page_area) (b a : page_area) (l2 : list page_area) (first : page_area).
Context (c1 : list (Z * mem_cache)) (c : mem_cache) (c2 : list (Z * mem_cache)) (k : Z).
Context (Hgeo : geometry) (Hok : pa_ok p) (El : page_area_list p = l1 ++ b :: a :: l2 ++ [first]).
Context (Ht : tiles lo (l1 ++ b :: a :: l2) hi) (Hfirst : used first = true /\ pfn first = lo - 1 /\ numpages first = 1).
Context (Hb : used b = false) (Ha : used a = false).
Context (Ecs : pga_cache_list p = c1 ++ (cache a, c) :: c2) (Hk : 0 <= k < mc_total c) (Hkt : bit_at (mc_bitmap c) k = true).
Context (Ek : pa_addr a = record_of c k) (Hroom : mc_free c + 1 < mc_total c).

Let m := b <| numpages := numpages b + numpages a |>.
Let p' := p <| page_area_list := l1 ++ m :: l2 ++ [first] |> <| pga_cache_list := c1 ++ (cache a, given c k) :: c2 |>.

Lemma merge_tiles : lo <= pfn b /\ pfn b + numpages b = pfn a /\ 0 < numpages b /\ 0 < numpages a /\ pfn a + numpages a <= hi /\
  tiles lo (l1 ++ m :: l2) hi.
Proof.
  pose proof Ht as (x & H1 & E & H & E' & H' & H2)%tiles_app. pose proof (tiles_le _ _ _ H1). pose proof (tiles_le _ _ _ H2).
  split_and!; [lia..|]. apply tiles_app. exists x. split; [done|]. cbn. split_and!; [lia|lia|].
  by replace (x + (numpages b + numpages a)) with (x + numpages b + numpages a) by lia.
Qed.
Lemma merge_cache : cache_inv c.
Proof.
  pose proof (pk_caches _ Hok) as H. rewrite Forall_forall, Ecs in H. apply (H (cache a, c)). rewrite elem_of_app. right. by left.
Qed.
Lemma merge_nodup : NoDup (pa_addr <$> (l1 ++ [b]) ++ a :: l2 ++ [first]).
Proof. rewrite <- app_assoc. cbn [app]. rewrite <- El. apply Hok. Qed.
Lemma merge_runs : same_runs p p'.
Proof.
  intros x j. assert (page_area_list p = (l1 ++ [b]) ++ a :: l2 ++ [first]) as E1 by by rewrite El, <- app_assoc.
  rewrite (in_run_split p' l1 m (l2 ++ [first])), (in_run_split p _ _ _ _ _ E1) by done. unfold m. cbn. rewrite Ha, Hb.
  split; (intros [[? _]|(d & Hd & H)]; [done|right]); exists d; rewrite !elem_of_app, ?list_elem_of_singleton in *;
    split; try done; try tauto. destruct Hd as [[Hd| ->]|Hd]; [tauto| |tauto]. destruct H. congruence.
Qed.
Lemma merge_ok : pa_ok p'.
Proof.
  destruct merge_tiles as (_ & _ & _ & _ & _ & Hm). pose proof Hok as [_ [Hd Hr] Hc Hap Hh Hn]. pose proof merge_cache as Hci.
  split; cbn -[given].
  - exists (l1 ++ m :: l2), first. by rewrite <- app_assoc.
  - assert (NoDup (pa_addr a :: (pa_addr <$> page_area_list p'))) as [Hna Hd']%NoDup_cons.
    { assert (pa_addr <$> page_area_list p ≡ₚ pa_addr a :: (pa_addr <$> page_area_list p')) as <-; [|exact Hd].
      rewrite El. cbn. rewrite !fmap_app, !fmap_cons. cbn. solve_Permutation. }
    split; [exact Hd'|]. intros d Hin.
    assert (pa_addr d <> pa_addr a) as Hne by (intros E; apply Hna; rewrite <- E; by apply list_elem_of_fmap_2).
    assert (exists e, e ∈ page_area_list p /\ cache e = cache d /\ pa_addr e = pa_addr d) as (e & He & Ec & Ee).
    { rewrite El. rewrite elem_of_app, elem_of_cons in Hin. destruct Hin as [H|[->|H]]; [exists d|exists b|exists d]; set_solver. }
    destruct (Hr e He) as (f & Hf & Hu). rewrite Ec, Ecs in Hf. rewrite Ee in Hu.
    apply (elem_replace _ (cache a, given c k)) in Hf as [E|Hf]; [|by exists f]. injection E as Eca ->.
    exists (given c k). rewrite Eca, elem_of_app. split; [right; by left|]. apply given_in_use; [done|done|done|congruence].
  - rewrite Ecs in Hc. rewrite Forall_app, Forall_cons in *. destruct Hc as (H1 & _ & H2). split_and!; [done| |done].
    by apply given_inv.
  - rewrite Ecs in Hap. by apply (caches_apart_replace c1 (cache a) c (given c k) c2).
  - intros cb d Hd'. apply (elem_replace _ (cache a, c)) in Hd'. rewrite <- Ecs in Hd'.
    assert (exists e, (cb, e) ∈ pga_cache_list p /\ mc_start d = mc_start e /\ mc_end d = mc_end e) as (e & He & -> & ->).
    { destruct Hd' as [E|Hd']; [|by exists d]. injection E as -> ->. exists c. rewrite Ecs, elem_of_app. split; [right; by left|done]. }
    destruct (Hh cb e He) as (n & Hrun & H). exists n. split; [|done]. by apply merge_runs.
  - rewrite free_records_given, <- Ecs. lia.
Qed.
Lemma merge_run fp : merge_free_areas membank_start virtual_start fp b a p = Ret m p'.
Proof.
  destruct merge_tiles as (B1 & B2 & B3 & B4 & B5 & _). pose proof merge_nodup as Hnd. destruct Hgeo as (G1 & G2 & _).
  assert (pa_addr b <> pa_addr a) as Hne.
  { rewrite !fmap_app in Hnd. apply NoDup_app in Hnd as (_ & Hx & _). intros E. apply (Hx (pa_addr b)); [set_solver|].
    rewrite E. by left. }
  unfold merge_free_areas. run. rewrite !u32_id by (unfold is_u32; lia). rewrite B2, Z.eqb_refl, Hb, Ha. cbn [negb orb].
  run. destruct (Z.eqb_spec (pa_addr b) (pa_addr a)); [done|]. run. fold m.
  set (F := fun l => filter (fun x => pa_addr x <> pa_addr a) (upd_area (pa_addr b) (fun _ => m) l)).
  assert (F (page_area_list p) = l1 ++ m :: l2 ++ [first]) as EF.
  { unfold F. rewrite El, upd_area_split by (rewrite <- El; apply Hok).
    change (l1 ++ m :: a :: l2 ++ [first]) with (l1 ++ [m] ++ a :: l2 ++ [first]). rewrite app_assoc, filter_other.
    - by rewrite <- app_assoc.
    - by rewrite !fmap_app in *. }
  change (p <| page_area_list ::= F |>) with (p <| page_area_list := F (page_area_list p) |>). rewrite EF.
  change (pga_cache_list (p <| page_area_list := l1 ++ m :: l2 ++ [first] |>)) with (pga_cache_list p).
  pose proof (pk_apart _ Hok) as Hap. rewrite Ecs in Hap. destruct (cache_split c1 (cache a) c c2 (given c k) Hap) as [E1 E2].
  rewrite Ecs, E1, Ek, (record_free_run c k merge_cache Hk Hkt). cbn [snd].
  assert (mem_cache_is_empty (given c k) = false) as ->.
  { unfold mem_cache_is_empty. cbn. apply Z.eqb_neq. lia. }
  assert (p <| page_area_list := l1 ++ m :: l2 ++ [first] |> <| pga_cache_list ::= put_cache (cache a) (given c k) |> = p') as Ep
    by (unfold p'; by rewrite <- E2, <- Ecs).
  run. rewrite Ep. change (page_area_list p') with (l1 ++ m :: l2 ++ [first]).
  rewrite (find_addr_split (fun x => pa_addr x =? pa_addr b) l1 m); [done| |by apply Z.eqb_refl].
  apply (addr_pre l1 b (a :: l2 ++ [first])). rewrite <- El. apply Hok.
Qed.
End Merge.

Lemma merge_at fp p l1 b a l2 first : geometry -> pa_ok p -> page_area_list p = l1 ++ b :: a :: l2 ++ [first] ->
  used b = false -> used a = false -> roomy 1 p ->
  exists p', merge_free_areas membank_start virtual_start fp b a p = Ret (b <| numpages := numpages b + numpages a |>) p' /\
    page_area_list p' = l1 ++ b <| numpages := numpages b + numpages a |> :: l2 ++ [first] /\ pa_ok p' /\ same_runs p p' /\
    (roomy 2 p -> roomy 1 p').
Proof.
  intros Hg Hok El Hb Ha Hroom. pose proof Hok as [(l & f & El' & Ht & Hf) [Hd Hr] _ _ _ _].
  rewrite El in El'. change (b :: a :: l2 ++ [first]) with ((b :: a :: l2) ++ [first]) in El'. rewrite app_assoc in El'.
  apply app_inj_tail in El' as [<- <-].
  destruct (Hr a) as (c & Hc & k & Hk & Hkt & Ek); [rewrite El; set_solver|].
  destruct (list_elem_of_split _ _ Hc) as (c1 & c2 & Ecs). pose proof (Hroom _ Hc) as Hroom'. cbn in Hroom'.
  eexists. split; [by apply (merge_run p l1 b a l2 first c1 c c2 k)|]. split; [done|]. split; [|split].
  - by apply (merge_ok p l1 b a l2 first c1 c c2 k).
  - by apply (merge_runs p l1 b a l2 first c1 c c2 k).
  - intros H2 d Hd'. cbn in Hd'. apply (elem_replace _ (cache a, c)) in Hd'. rewrite <- Ecs in Hd'.
    destruct Hd' as [->|Hd']; [specialize (H2 _ Hc); cbn in *; lia|specialize (H2 _ Hd'); lia].
Qed.

Lemma prev_cons w x y l : prev_area w (x :: y :: l) = if pa_addr y =? w then Some x else prev_area w (y :: l).
Proof. done. Qed.
Lemma prev_none w x l : w ∉ pa_addr <$> l -> prev_area w (x :: l) = None.
Proof.
  revert x. induction l as [|y l IH]; intros x Hn; [done|]. rewrite fmap_cons, not_elem_of_cons in Hn.
  rewrite prev_cons. destruct (Z.eqb_spec (pa_addr y) w); [naive_solver|]. apply IH, Hn.
Qed.
Lemma prev_split pre a post : NoDup (pa_addr <$> pre ++ a :: post) -> prev_area (pa_addr a) (pre ++ a :: post) = last pre.
Proof.
  intros Hd. pose proof (addr_pre _ _ _ Hd) as Hp. rewrite fmap_app, fmap_cons in Hd.
  apply NoDup_app in Hd as (_ & _ & [Ha _]%NoDup_cons). induction Hp as [|x pre Hx Hp IH]; [by apply prev_none|].
  destruct pre as [|y pre]; cbn [app]; rewrite prev_cons.
  - by rewrite Z.eqb_refl.
  - apply Forall_cons in Hp as [Hy _]. by rewrite Hy.
Qed.
Lemma next_split pre a post : NoDup (pa_addr <$> pre ++ a :: post) -> next_area (pa_addr a) (pre ++ a :: post) = head post.
Proof.
  intros Hd. pose proof (addr_pre _ _ _ Hd) as Hp. clear Hd. induction Hp as [|x pre Hx Hp IH].
  - cbn. destruct post as [|y post]; [done|]. by rewrite Z.eqb_refl.
  - cbn [app next_area]. destruct pre as [|y pre]; cbn [app] in *; by rewrite Hx.
Qed.

(** The area after [a] is merged into it when it is free. *)
Lemma free_next fp p pre a post first : geometry -> pa_ok p -> page_area_list p = pre ++ a :: post ++ [first] ->
  used a = false -> roomy 1 p ->
  exists p', match next_area (pa_addr a) (page_area_list p) with
             | Some next => if used next then mret 0 else merge_free_areas membank_start virtual_start fp a next ;; mret 0
             | None => mret 0
             end p = Ret 0 p' /\ pa_ok p' /\ same_runs p p'.
Proof.
  intros Hg Hok El Ha Hr. rewrite El, next_split by (rewrite <- El; apply Hok).
  assert (forall q : prog page_allocator Z, q p = Ret 0 p ->
    exists p', q p = Ret 0 p' /\ pa_ok p' /\ same_runs p p') as Hstop by (intros q E; by exists p).
  destruct post as [|n post]; cbn [head app].
  { destruct (used first) eqn:Ef; [by apply Hstop|]. destruct Hok as [(l & f & El' & _ & Hf & _) _ _ _ _ _].
    rewrite El in El'. change (a :: [] ++ [first]) with ([a] ++ [first]) in El'. rewrite app_assoc in El'.
    apply app_inj_tail in El' as [_ <-]. congruence. }
  destruct (used n) eqn:En; [by apply Hstop|].
  destruct (merge_at fp p pre a n post first Hg Hok El Ha En Hr) as (p' & E & _ & Hok' & Hs & _).
  exists p'. by rewrite (run_bind _ _ _ _ _ E).
Qed.
(** The area is merged into a free one before it, then the one after into both. *)
Lemma free_merges fp p pre a post first : geometry -> pa_ok p -> page_area_list p = pre ++ a :: post ++ [first] ->
  used a = false -> roomy 2 p ->
  exists p', (area ← match prev_area (pa_addr a) (page_area_list p) with
                     | Some prev => if used prev then mret a else merge_free_areas membank_start virtual_start fp prev a
                     | None => mret a
                     end;
              l ← gets page_area_list;
              match next_area (pa_addr area) l with
              | Some next => if used next then mret 0 else merge_free_areas membank_start virtual_start fp area next ;; mret 0
              | None => mret 0
              end) p = Ret 0 p' /\ pa_ok p' /\ same_runs p p'.
Proof.
  intros Hg Hok El Ha Hr. assert (roomy 1 p) as Hr1 by (intros c Hc; specialize (Hr c Hc); lia).
  rewrite El, prev_split by (rewrite <- El; apply Hok).
  destruct pre as [|b pre _] using rev_ind.
  { destruct (free_next fp p [] a post first Hg Hok El Ha Hr1) as (p' & E & H). exists p'. split; [exact E|done]. }
  rewrite last_snoc. destruct (used b) eqn:Eb.
  { destruct (free_next fp p (pre ++ [b]) a post first Hg Hok El Ha Hr1) as (p' & E & H). exists p'. split; [exact E|done]. }
  assert (page_area_list p = pre ++ b :: a :: post ++ [first]) as El' by by rewrite El, <- app_assoc.
  destruct (merge_at fp p pre b a post first Hg Hok El' Eb Ha Hr1) as (p1 & E1 & L1 & Hok1 & Hs1 & Hr').
  destruct (free_next fp p1 pre _ post first Hg Hok1 L1 Eb (Hr' Hr)) as (p' & E & Hok' & Hs).
  exists p'. rewrite (run_bind _ _ _ _ _ E1). split; [exact E|]. split; [done|]. intros x k. by rewrite (Hs x k).
Qed.

(** The page holds no cache of the allocator. *)
Definition no_cache_at (p : page_allocator) (n : Z) : Prop :=
  forall c, c ∈ pga_cache_list p -> c.1 <> phys_to_virt membank_start virtual_start (__pfn_to_addr n).
(** The area found is no longer in use. *)
Lemma unused_ok p pre a post first : geometry -> pa_ok p -> page_area_list p = pre ++ a :: post ++ [first] -> used a = true ->
  no_cache_at p (pfn a) ->
  let p1 := p <| page_area_list := pre ++ a <| used := false |> :: post ++ [first] |> in
  pa_ok p1 /\ forall x k, in_run p1 x k <-> in_run p x k /\ x <> pfn a.
Proof.
  intros Hg Hok El Hu Hno p1. pose proof Hok as [(l & f & El' & Ht & Hf) Hr Hc Hap Hh Hn].
  rewrite El in El'. change (a :: post ++ [first]) with ((a :: post) ++ [first]) in El'. rewrite app_assoc in El'.
  apply app_inj_tail in El' as [<- <-].
  assert (forall x k, in_run p1 x k <-> in_run p x k /\ x <> pfn a) as Hruns.
  { intros x k. rewrite (in_run_split p1 pre (a <| used := false |>) (post ++ [first])), (in_run_split p _ _ _ _ _ El) by done.
    cbn. split.
    - intros [[? _]|(d & Hd & H)]; [done|]. split; [right; by exists d|]. intros ->. destruct H as (_ & Ed & _).
      assert (a ∈ pre ++ a :: post) as Ha by (rewrite elem_of_app; right; by left).
      destruct (tiles_bound _ _ _ _ Ht Ha) as (B1 & B2 & B3).
      rewrite app_assoc, elem_of_app, list_elem_of_singleton in Hd. destruct Hd as [Hd| ->]; [|lia].
      assert (d ∈ pre ++ a :: post) as Hd' by (rewrite elem_of_app, elem_of_cons in *; tauto).
      destruct (tiles_bound _ _ _ _ Ht Hd'), (tiles_apart _ _ _ _ _ _ Ht Hd); lia.
    - intros [[(_ & <- & _)|H] Hne]; [done|by right]. }
  split; [|exact Hruns]. split; try done; cbn.
  - exists (pre ++ a <| used := false |> :: post), first. rewrite <- app_assoc. split; [done|]. split; [|done].
    apply tiles_app in Ht as (m & H1 & H2). apply tiles_app. exists m. by split.
  - apply (records_ok_ext (page_area_list p)); [by rewrite El, !fmap_app|exact Hr].
  - intros ca c Hin. destruct (Hh ca c Hin) as (n & Hrun & Eca & H). exists n. split; [|done]. apply Hruns. split; [done|].
    intros ->. by apply (Hno _ Hin).
Qed.

(** [free_page] of an area in use takes exactly that area out of use, merged with its free neighbours, and the allocator stays well formed; an address that is not the start of an area in use is refused and nothing changes. (No cache of records is emptied, and the page is not such a cache.) *)
Theorem free_page_takes_back p n : geometry -> pa_ok p -> lo <= n < hi -> roomy 2 p -> no_cache_at p n ->
  (exists k, in_run p n k) /\
    (exists p', free_page membank_start virtual_start (n * PAGE_SIZE) p = Ret 0 p' /\ pa_ok p' /\
      forall x k, in_run p' x k <-> in_run p x k /\ x <> n) \/
  ~ (exists k, in_run p n k) /\ free_page membank_start virtual_start (n * PAGE_SIZE) p = Ret (-1) p.
Proof.
  intros Hg Hok Hn Hr Hno. pose proof Hg as (G1 & G2 & _).
  set (f := fun a => (__pfn_to_addr (pfn a) =? n * PAGE_SIZE) && used a).
  assert (forall a, a ∈ page_area_list p -> f a = true <-> used a = true /\ pfn a = n) as Hf.
  { intros a Ha. unfold f. pose proof Hok as [(l & fst & El & Ht & _ & Hf1 & Hf2) _ _ _ _ _].
    assert (0 <= pfn a < 2 ^ 20) as Hb.
    { pose proof (tiles_le _ _ _ Ht). rewrite El in Ha. apply elem_of_app in Ha as [Ha| ->%list_elem_of_singleton]; [|lia].
      destruct (tiles_bound _ _ _ _ Ht Ha). lia. }
    rewrite page_addr by done. rewrite andb_true_iff, Z.eqb_eq. unfold PAGE_SIZE. split; intros [H1 H2]; (split; [done|lia]) || (split; [lia|done]). }
  unfold free_page. cbn [find_and_free_page_area]. run. fold f. destruct (List.find f (page_area_list p)) as [a|] eqn:Ef.
  - left. apply List.find_some in Ef as [Ha%list_elem_of_In Hfa]. apply Hf in Hfa as [Hu En]; [|done].
    split; [exists (numpages a), a; by split_and!|].
    destruct (list_elem_of_split _ _ Ha) as (pre & post0 & El).
    destruct post0 as [|first post _] using rev_ind.
    { destruct Hok as [(l & fst & El' & _ & _ & Hf1 & _) _ _ _ _ _]. rewrite El in El'. apply app_inj_tail in El' as [_ <-]. lia. }
    rewrite <- En in Hno. destruct (unused_ok p pre a post first Hg Hok El Hu Hno) as [Hok1 Hruns].
    set (p1 := p <| page_area_list := pre ++ a <| used := false |> :: post ++ [first] |>) in *.
    assert (p <| page_area_list ::= upd_area (pa_addr a) (fun _ => a <| used := false |>) |> = p1) as Ep.
    { unfold p1. rewrite <- (upd_area_split (fun _ => a <| used := false |>) pre a (post ++ [first])), <- El; [done|].
      rewrite <- El. apply Hok. }
    destruct (free_merges (find_and_free_page_area membank_start virtual_start (length (pga_cache_list p)))
      p1 pre (a <| used := false |>) post first Hg Hok1 eq_refl eq_refl Hr) as (p' & E & Hok' & Hs).
    exists p'. split; [|split; [done|]].
    + change (pa_addr (a <| used := false |>)) with (pa_addr a) in *. rewrite Ep. exact E.
    + intros x k. rewrite (Hs x k), <- En. apply Hruns.
  - right. split; [|done]. intros (k & a & Ha & Hu & En & _).
    assert (f a = true) as Hfa by by apply Hf.
    pose proof (List.find_none _ _ Ef a (proj1 (list_elem_of_In _ _) Ha)). congruence.
Qed.
End Invariant.

(** * A concrete allocator *)

(** Memory at 1 MB, seen at 1 GB: [k] free pages behind the first cache, which
    has given out two records; the count of free records says [m]. *)
Definition demo_cache : mem_cache := MkCache 168 166 0x40000038 0x40001000 24 [3; 0; 0; 0; 0; 0].
Definition demo_allocator (k m : Z) : page_allocator :=
  MkAllocator [MkArea 0x40000050 false 257 k 0x40000000; MkArea 0x40000038 true 256 1 0x40000000]
    [(0x40000000, demo_cache)] m.
Example demo_allocator_built : init_page_allocator 0x100000 0x40000000 0x100000 0x10B000 = Some (demo_allocator 10 166).
Proof. vm_compute. reflexivity. Qed.
Lemma demo_geometry k : 0 <= k <= 100 -> geometry 0x100000 0x40000000 257 (257 + k).
Proof. intros. unfold geometry, PAGE_SIZE. lia. Qed.
Lemma demo_records_inv : cache_inv demo_cache.
Proof. split; vm_compute; (done || split; done || split; discriminate || idtac). all: split; try done; discriminate. Qed.
Lemma demo_ok k m : 0 < k <= 100 -> m <= 166 -> pa_ok 0x100000 0x40000000 257 (257 + k) (demo_allocator k m).
Proof.
  intros Hk Hm. assert (forall b, (b = 0 \/ b = 1) -> in_use demo_cache (0x40000038 + 24 * b)) as Hu.
  { intros b Hb. exists b. split; [cbn; lia|]. split; [|done]. by destruct Hb as [-> | ->]. }
  split; cbn -[demo_cache].
  - exists [MkArea 0x40000050 false 257 k 0x40000000], (MkArea 0x40000038 true 256 1 0x40000000). cbn. split_and!; (done || lia).
  - split; [by vm_compute; repeat constructor; set_solver|]. intros a Ha. exists demo_cache.
    rewrite !elem_of_cons in Ha. destruct Ha as [->|[->|Ha%elem_of_nil]]; [|..|done];
      (split; [by left|]); [apply (Hu 1); by right|apply (Hu 0); by left].
  - constructor; [apply demo_records_inv|constructor].
  - split; [|done]. by intros x Hx%elem_of_nil.
  - intros ca c Hin%list_elem_of_singleton. injection Hin as -> ->. exists 256. split; [|vm_compute; split; [done|by split]].
    exists (MkArea 0x40000038 true 256 1 0x40000000). split; [right; by left|done].
  - exact Hm.
Qed.
Lemma demo_fit k m : 0 < k -> fit_at 257 (257 + k) (demo_allocator k m) 1 []
  (MkArea 0x40000050 false 257 k 0x40000000) [] (MkArea 0x40000038 true 256 1 0x40000000).
Proof. intros. split; [done|constructor|split; [done|cbn; lia]|cbn; lia|done]. Qed.

Lemma alloc_page_gives_free_pages_witness : exists n p', alloc_page 0x100000 0x40000000 3 (demo_allocator 10 1) = Ret (n * PAGE_SIZE) p' /\
  257 <= n /\ n + 3 <= 267.
Proof.
  destruct (alloc_page_gives_free_pages 0x100000 0x40000000 257 267 (demo_allocator 10 1) 3 (demo_geometry 10 ltac:(lia))
    (demo_ok 10 1 ltac:(lia) ltac:(lia)) ltac:(lia) ltac:(done)) as [(_ & _ & E)|[(_ & _ & E)|(p1 & _ & _ & [[_ E]|(n & p' & E & Hl & Hh & _)])]].
  - vm_compute in E. discriminate.
  - vm_compute in E. discriminate.
  - vm_compute in E. discriminate.
  - by exists n, p'.
Defined.
Lemma alloc_page_can_halt_witness : alloc_page 0x100000 0x40000000 1 (demo_allocator 1 1) = Bug "check_page_areas".
Proof.
  apply (alloc_page_can_halt 0x100000 0x40000000 257 258 (demo_allocator 1 1) 1 (MkArea 0x40000050 false 257 1 0x40000000)).
  - apply (demo_geometry 1). lia.
  - apply (demo_ok 1); lia.
  - done.
  - do 3 eexists. by apply (demo_fit 1).
  - done.
Defined.

(** Two pages at page 266 are in use. *)
Definition demo_busy : page_allocator :=
  MkAllocator [MkArea 0x40000050 false 257 9 0x40000000; MkArea 0x40000068 true 266 2 0x40000000;
               MkArea 0x40000038 true 256 1 0x40000000]
    [(0x40000000, demo_cache <| mc_free := 165 |> <| mc_bitmap := [7; 0; 0; 0; 0; 0] |>)] 165.
Example demo_busy_built : snd <$>
  (match init_page_allocator 0x100000 0x40000000 0x100000 0x10C000 with
   | Some p => match alloc_page 0x100000 0x40000000 2 p with Ret a p => Some (a, p) | _ => None end
   | None => None end) = Some demo_busy.
Proof. vm_compute. reflexivity. Qed.
Lemma demo_busy_ok : pa_ok 0x100000 0x40000000 257 268 demo_busy.
Proof.
  set (c := demo_cache <| mc_free := 165 |> <| mc_bitmap := [7; 0; 0; 0; 0; 0] |>).
  assert (forall b, (b = 0 \/ b = 1 \/ b = 2) -> in_use c (0x40000038 + 24 * b)) as Hu.
  { intros b Hb. exists b. split; [cbn; lia|]. split; [|done]. by destruct Hb as [-> |[-> | ->]]. }
  split.
  - exists [MkArea 0x40000050 false 257 9 0x40000000; MkArea 0x40000068 true 266 2 0x40000000],
      (MkArea 0x40000038 true 256 1 0x40000000). by vm_compute.
  - split; [by vm_compute; repeat constructor; set_solver|]. intros a Ha. exists c.
    assert (a ∈ page_area_list demo_busy -> (cache a, c) ∈ pga_cache_list demo_busy) as Hc.
    { intros H. unfold demo_busy in *. cbn in *. rewrite !elem_of_cons in H. destruct H as [->|[->|[->|H%elem_of_nil]]]; [by left..|done]. }
    split; [by apply Hc|]. unfold demo_busy in Ha. cbn in Ha. rewrite !elem_of_cons in Ha.
    destruct Ha as [->|[->|[->|Ha%elem_of_nil]]]; [apply (Hu 1)|apply (Hu 2)|apply (Hu 0)|done]; auto.
  - constructor; [|constructor]. split; vm_compute; (done || (split; [discriminate|]); try done || idtac).
    all: split; (done || discriminate || split; (done || discriminate)).
  - split; [|done]. by intros x Hx%elem_of_nil.
  - intros ca d Hin%list_elem_of_singleton. injection Hin as -> ->. exists 256. split; [|vm_compute; split; [done|by split]].
    exists (MkArea 0x40000038 true 256 1 0x40000000). split; [|done]. unfold demo_busy. cbn. rewrite !elem_of_cons. auto.
  - vm_compute. discriminate.
Qed.
Lemma free_page_takes_back_witness :
  (exists k, in_run demo_busy 266 k) /\
    (exists p', free_page 0x100000 0x40000000 (266 * PAGE_SIZE) demo_busy = Ret 0 p' /\ pa_ok 0x100000 0x40000000 257 268 p' /\
      forall x k, in_run p' x k <-> in_run demo_busy x k /\ x <> 266) \/
  ~ (exists k, in_run demo_busy 266 k) /\ free_page 0x100000 0x40000000 (266 * PAGE_SIZE) demo_busy = Ret (-1) demo_busy.
Proof.
  apply (free_page_takes_back 0x100000 0x40000000 257 268 demo_busy 266).
  - apply (demo_geometry 11). lia.
  - apply demo_busy_ok.
  - lia.
  - intros c Hc%list_elem_of_singleton. subst c. by vm_compute.
  - intros c Hc%list_elem_of_singleton. subst c. vm_compute. discriminate.
Defined.
