(* ===== verification/Memfs.v ===== *)
(** The memory file system: its structures and those of the vfs above it
    ([conts/posix/mm0/include/fs.h], [include/memfs/memfs.h]), the contents of
    files ([fs/memfs/file.c]), block allocation ([fs/memfs/memfs.c]), the vnode
    write-back of [fs/memfs/vnode.c], and [vfs_read] and [vfs_write] of
    [mm/file.c].

    A page or block is a function from offsets to bytes; a buffer of pages is a
    function from page numbers to pages.  Vnodes, dentries and inodes are known
    by their addresses.  There is one file system, whose superblocks are one
    record; times, which are never set, are left out. *)
From S2P Require Import Prelude Bits Defs Words Pools PageAlloc.

Definition bytes := Z -> Z.
Definition zero_page : bytes := fun _ => 0.
Definition MEMFS_TOTAL_SIZE := 0x400000.
Definition MEMFS_TOTAL_INODES := 128.
Definition MEMFS_FMAX_BLOCKS := 120.
Definition MEMFS_BLOCK_SIZE := PAGE_SIZE.
Definition MEMFS_DNAME_MAX := 32.
Definition VFS_DNAME_MAX := 256.
Definition VFS_FSIDX_MASK := 0xF0000000.
Definition VFS_FSIDX_SHIFT := 28.
Definition ENOENT := 2.
Definition ENOTDIR := 20.
Definition EISDIR := 21.
Definition ENOSPC := 28.

(** [include/stat.h] *)
Definition S_IFMT := 0xF000.
Definition S_IFREG := 0x8000.
Definition S_IFDIR := 0x4000.
Definition S_ISDIR (m : Z) : bool := Z.land m S_IFMT =? S_IFDIR.

Record inode := MkInode { inum : Z; i_mode : Z; i_owner : Z; i_size : Z; i_block : Z -> Z }.
#[export] Instance inode_shape : Shape inode := fun i =>
  MkInode (inum i) (i_mode i) (i_owner i) (i_size i) (i_block i).
(** [vdentries] are the names of the vnode; [dirbuf] is the block with the
    directory's records, 0 until the directory is read. *)
Record vnode := MkVnode {
  vnum : Z; vlinks : Z; vdentries : list Z; dirbuf_npages : Z; dirbuf : Z;
  mode : Z; vowner : Z; v_size : Z; v_inode : Z }.
#[export] Instance vnode_shape : Shape vnode := fun v =>
  MkVnode (vnum v) (vlinks v) (vdentries v) (dirbuf_npages v) (dirbuf v) (mode v) (vowner v) (v_size v) (v_inode v).
(** A name is the list of its bytes, without the null. *)
Record dentry := MkDentry { d_name : list Z; d_parent : Z; d_children : list Z; d_vnode : Z }.
#[export] Instance dentry_shape : Shape dentry := fun d =>
  MkDentry (d_name d) (d_parent d) (d_children d) (d_vnode d).
(** [struct memfs_superblock] with the generic superblock [fsidx], [sb_root],
    and [vfs_root.pivot], [vnode_cache] and [dentry_cache] of [fs/vfs.c].  The
    caches of inodes are listed with the blocks they are in. *)
Record memfs := MkMemfs {
  vnodes : Z -> vnode; dentries : Z -> dentry; inodes : Z -> inode;
  vnode_cache : list Z; dentry_cache : list Z;
  inode_table : Z -> Z; ipool : pool; inode_cache_list : list (Z * mem_cache);
  block_cache_list : list mem_cache; bdata : Z -> bytes;
  fsidx : Z; root_vnum : Z; sb_root : Z; pivot : Z }.
#[export] Instance memfs_shape : Shape memfs := fun f =>
  MkMemfs (vnodes f) (dentries f) (inodes f) (vnode_cache f) (dentry_cache f) (inode_table f) (ipool f)
    (inode_cache_list f) (block_cache_list f) (bdata f) (fsidx f) (root_vnum f) (sb_root f) (pivot f).

Definition vfs_isdir (v : vnode) : bool := S_ISDIR (mode v).
(** Block [x] of a vnode's file. *)
Definition block_of (f : memfs) (v x : Z) : Z := i_block (inodes f (v_inode (vnodes f v))) x.

Abbreviation F := (prog memfs).
Definition vmod (v : Z) (f : vnode -> vnode) : F unit := modify (fun s => s <| vnodes ::= fun m => <[v := f (m v)]> m |>).
Definition imod (i : Z) (f : inode -> inode) : F unit := modify (fun s => s <| inodes ::= fun m => <[i := f (m i)]> m |>).
Definition dmod (d : Z) (f : dentry -> dentry) : F unit := modify (fun s => s <| dentries ::= fun m => <[d := f (m d)]> m |>).
Definition bput (b : Z) (x : bytes) : F unit := modify (fun s => s <| bdata ::= fun m => <[b := x]> m |>).

(** The first cache that has an element. *)
Fixpoint memfs_alloc_block_from (l : list mem_cache) : option (Z * list mem_cache) :=
  match l with
  | [] => Some (PTR_ERR (- ENOSPC), [])
  | c :: l =>
      if negb (mc_free c =? 0) then
        match mem_cache_alloc c with Some (b, c) => Some (b, c :: l) | None => None end
      else match memfs_alloc_block_from l with Some (b, l) => Some (b, c :: l) | None => None end
  end.
Definition memfs_alloc_block : F Z :=
  l ← gets block_cache_list;
  match memfs_alloc_block_from l with
  | None => bug "mem_cache_alloc"
  | Some (b, l) =>
      modify (fun s => s <| block_cache_list := l |>) ;;
      when (negb (IS_ERR b)) (bput b zero_page) ;;
      mret b
  end.

(** [for (int x = first; ...; x++, bufpage++)]: blocks from [x] on, [n] of them,
    into the buffer from page [bufpage] on, and back. *)
Fixpoint blocks_to_buf (n : nat) (v : Z) (x bufpage : Z) (buf : Z -> bytes) : F (Z -> bytes) :=
  match n with
  | O => mret buf
  | S n =>
      b ← gets (fun s => bdata s (block_of s v x));
      blocks_to_buf n v (x + 1) (bufpage + 1) (<[bufpage := b]> buf)
  end.
Fixpoint buf_to_blocks (n : nat) (v : Z) (x bufpage : Z) (buf : Z -> bytes) : F unit :=
  match n with
  | O => mret tt
  | S n =>
      a ← gets (fun s => block_of s v x);
      bput a (buf bufpage) ;; buf_to_blocks n v (x + 1) (bufpage + 1) buf
  end.
(** Blocks for the file from [x] on; false when a null block is met.  An error
    pointer is taken for a block. *)
Fixpoint new_blocks (n : nat) (v : Z) (x : Z) : F bool :=
  match n with
  | O => mret true
  | S n =>
      b ← memfs_alloc_block;
      i ← gets (fun s => v_inode (vnodes s v));
      imod i (fun n => n <| i_block ::= <[x := b]> |>) ;;
      if b =? 0 then mret false else new_blocks n v (x + 1)
  end.
Fixpoint zero_blocks (n : nat) (v : Z) (x : Z) : F unit :=
  match n with
  | O => mret tt
  | S n => a ← gets (fun s => block_of s v x); bput a zero_page ;; zero_blocks n v (x + 1)
  end.

Definition memfs_file_read (v pfn npages : Z) (buf : Z -> bytes) : F (Z * (Z -> bytes)) :=
  i ← gets (fun s => v_inode (vnodes s v));
  bug_on (i =? 0) "memfs_file_read_write: inode" ;;
  if MEMFS_FMAX_BLOCKS <? u32 (pfn + npages) then mret (- EINVAL, buf)
  else
    size ← gets (fun s => v_size (vnodes s v));
    let start := if pfn <? __pfn size then pfn else __pfn size in
    let last := __pfn (page_align_up size) in
    let end_ := if u32 (pfn + npages) <? last then u32 (pfn + npages) else last in
    let count := u32 (end_ - start) in
    buf ← blocks_to_buf (Z.to_nat (end_ - start)) v start 0 buf;
    mret (s32 (u32 (count * MEMFS_BLOCK_SIZE)), buf).
Definition memfs_file_write (v pfn npages : Z) (buf : Z -> bytes) : F Z :=
  i ← gets (fun s => v_inode (vnodes s v));
  bug_on (i =? 0) "memfs_file_read_write: inode" ;;
  if MEMFS_FMAX_BLOCKS <? u32 (pfn + npages) then mret (- EINVAL)
  else
    size ← gets (fun s => v_size (vnodes s v));
    ok ← (if size <? u32 (u32 (pfn + npages) * MEMFS_BLOCK_SIZE) then
            let pagediff := u32 (pfn + npages - __pfn size) in
            let holes := if __pfn size <? pfn then pfn - __pfn size else 0 in
            ok ← new_blocks (Z.to_nat pagediff) v (__pfn size);
            when ok (zero_blocks (Z.to_nat holes) v (__pfn size)) ;; mret ok
          else mret true);
    if negb ok then mret (- ENOSPC)
    else
      buf_to_blocks (Z.to_nat npages) v pfn 0 buf ;;
      mret (s32 (u32 (npages * MEMFS_BLOCK_SIZE))).
Definition memfs_write_vnode (v : Z) : F unit :=
  n ← gets (fun s => vnodes s v);
  bug_on (v_inode n =? 0) "memfs_write_vnode" ;;
  imod (v_inode n) (fun i => i <| inum := Z.land (vnum n) (lnot32 VFS_FSIDX_MASK) |> <| i_size := v_size n |>
    <| i_mode := mode n |> <| i_owner := vowner n |>).

Definition vfs_read (v file_offset npages : Z) (pagebuf : Z -> bytes) : F (Z * (Z -> bytes)) :=
  dir ← gets (fun s => vfs_isdir (vnodes s v));
  if dir : bool then mret (- EISDIR, pagebuf) else memfs_file_read v file_offset npages pagebuf.
Definition vfs_write (v file_offset npages : Z) (pagebuf : Z -> bytes) : F Z :=
  dir ← gets (fun s => vfs_isdir (vnodes s v));
  if dir : bool then mret (- EISDIR)
  else
    ret ← memfs_file_write v file_offset npages pagebuf;
    if ret <? 0 then mret ret
    else
      let fwrite_end := s32 (u32 (__pfn_to_addr file_offset + ret)) in
      size ← gets (fun s => v_size (vnodes s v));
      when (size <? fwrite_end) (vmod v (fun n => n <| v_size := fwrite_end |>) ;; memfs_write_vnode v) ;;
      mret ret.
