(* ===== verification/Vm.v ===== *)
(** The data of the pager's virtual memory and its objects: pages, vm objects,
    files, links, areas and tasks of [conts/posix/mm0/include/vm_area.h],
    [task.h] and [shm.h]; [mm/vm_object.c]; the pagers of [mm/pagers.c];
    [insert_page_olist] of [mm/file.c] and [shm_destroy_priv_data] of [mm/shm.c].

    Structures from the heap are kept in maps from the address [kmalloc] gave
    them, so that allocation and aliasing are the heap's; a [struct page *] is
    an index into [page_array] or an error, and a vm object of a file lives 20
    bytes into the file.  An intrusive list is the list of its elements in
    order.  Threads of the pager do not preempt each other: spinlocks are left
    out.  System calls to the kernel are an interface, [kernel_abi]. *)
From S2P Require Import Prelude Bits Defs Words Malloc Pools PageAlloc Memfs.

(** * Flags and sizes *)

Definition VM_NONE := Z.shiftl 1 0.
Definition VM_READ := Z.shiftl 1 1.
Definition VM_EXEC := Z.shiftl 1 2.
Definition VM_WRITE := Z.shiftl 1 3.
Definition VM_PROT_MASK := Z.lor VM_READ (Z.lor VM_WRITE VM_EXEC).
Definition VMA_SHARED := Z.shiftl 1 4.
Definition VMA_ANONYMOUS := Z.shiftl 1 5.
Definition VMA_PRIVATE := Z.shiftl 1 6.
Definition VMA_FIXED := Z.shiftl 1 7.
Definition VMA_GROWSDOWN := Z.shiftl 1 8.
Definition VM_DIRTY := Z.shiftl 1 9.
Definition VM_FILE_DEVZERO := 1.
Definition VM_FILE_VFS := 2.
Definition VM_FILE_SHM := 3.
Definition VM_OBJ_SHADOW := Z.shiftl 1 10.
Definition VM_OBJ_FILE := Z.shiftl 1 11.
Definition TASK_FILES_MAX := 32.
Definition SHM_AREA_MAX := 64.
(** [sizeof] of [struct vm_area], [vm_obj_link], [vm_object], [vm_file] and
    [shm_descriptor], and the offset of [vm_obj] in [struct vm_file]. *)
Definition SIZEOF_VM_AREA := 32.
Definition SIZEOF_VM_OBJ_LINK := 20.
Definition SIZEOF_VM_OBJECT := 64.
Definition SIZEOF_VM_FILE := 96.
Definition SIZEOF_SHM_DESCRIPTOR := 20.
Definition OFFSETOF_VM_OBJ := 20.

(** * Data *)

(** [page_of] is the object on whose [page_cache] the page is, 0 for none. *)
Record page := MkPage { refcnt : Z; page_of : Z; owner : Z; virtual : Z; pflags : Z; offset : Z }.
#[export] Instance page_shape : Shape page := fun p =>
  MkPage (refcnt p) (page_of p) (owner p) (virtual p) (pflags p) (offset p).
(** A [struct page *]. *)
Inductive page_ptr := Page (p : Z) | PageErr (err : Z).

Inductive vm_pager := no_pager | file_pager | devzero_pager | swap_pager.
(** [shref] is the object on whose [shdw_list] this one is, 0 for none. *)
Record vm_object := MkObj {
  npages : Z; nlinks : Z; shadows : Z; shref : Z; shdw_list : list Z; link_list : list Z;
  orig_obj : Z; oflags : Z; pager : vm_pager; page_cache : list Z }.
#[export] Instance vm_object_shape : Shape vm_object := fun o =>
  MkObj (npages o) (nlinks o) (shadows o) (shref o) (shdw_list o) (link_list o)
    (orig_obj o) (oflags o) (pager o) (page_cache o).
(** [private_file_data] is a page of [page_array] for devzero and a descriptor
    for shared memory, whose [destroy_priv_data] is [shm_destroy_priv_data]. *)
Inductive destructor := no_destructor | destroy_shm.
Record vm_file := MkFile {
  openers : Z; ftype : Z; flength : Z; destroy_priv_data : destructor; fvnode : Z; private_file_data : Z }.
#[export] Instance vm_file_shape : Shape vm_file := fun f =>
  MkFile (openers f) (ftype f) (flength f) (destroy_priv_data f) (fvnode f) (private_file_data f).
(** [lvma] is the area on whose list the link is, 0 for none. *)
Record vm_obj_link := MkLink { lvma : Z; lobj : Z }.
#[export] Instance vm_obj_link_shape : Shape vm_obj_link := fun l => MkLink (lvma l) (lobj l).
(** The list of links of an area, front to back. *)
Record vm_area := MkVma { vm_obj_list : list Z; pfn_start : Z; pfn_end : Z; vflags : Z; file_offset : Z }.
#[export] Instance vm_area_shape : Shape vm_area := fun v =>
  MkVma (vm_obj_list v) (pfn_start v) (pfn_end v) (vflags v) (file_offset v).
Record shm_descriptor := MkShm { shm_key : Z; shmid : Z; shm_addr : Z; shm_npages : Z }.
#[export] Instance shm_descriptor_shape : Shape shm_descriptor := fun s =>
  MkShm (shm_key s) (shmid s) (shm_addr s) (shm_npages s).
Record global_list := MkGlobal { total : Z; glist : list Z }.
#[export] Instance global_list_shape : Shape global_list := fun g => MkGlobal (total g) (glist g).

Record file_descriptor := MkFd { cursor : Z; vmfile : Z }.
#[export] Instance file_descriptor_shape : Shape file_descriptor := fun d => MkFd (cursor d) (vmfile d).
(** [fdpool_at] is the address of the pool of descriptors. *)
Record task_fd_head := MkFds { fd : Z -> file_descriptor; fdpool : pool; fd_refs : Z; fdpool_at : Z }.
#[export] Instance task_fd_head_shape : Shape task_fd_head := fun f => MkFds (fd f) (fdpool f) (fd_refs f) (fdpool_at f).
Record task_vma_head := MkVmas { vma_list : list Z; vma_refs : Z }.
#[export] Instance task_vma_head_shape : Shape task_vma_head := fun v => MkVmas (vma_list v) (vma_refs v).
Record task_fs_data := MkFs { curdir : Z; rootdir : Z; fs_refs : Z }.
#[export] Instance task_fs_data_shape : Shape task_fs_data := fun f => MkFs (curdir f) (rootdir f) (fs_refs f).
Record utcb_desc := MkDesc { utcb_base : Z; slots : pool }.
#[export] Instance utcb_desc_shape : Shape utcb_desc := fun d => MkDesc (utcb_base d) (slots d).
Record utcb_heads := MkUtcbs { desc_list : list Z; utcb_refs : Z }.
#[export] Instance utcb_heads_shape : Shape utcb_heads := fun h => MkUtcbs (desc_list h) (utcb_refs h).
(** The page-aligned segment marks of a program. *)
Record segments := MkSegs {
  text_start : Z; text_end : Z; data_start : Z; data_end : Z; bss_start : Z; bss_end : Z;
  stack_start : Z; stack_end : Z; heap_start : Z; heap_end : Z; args_start : Z; args_end : Z }.
#[export] Instance segments_shape : Shape segments := fun m =>
  MkSegs (text_start m) (text_end m) (data_start m) (data_end m) (bss_start m) (bss_end m)
    (stack_start m) (stack_end m) (heap_start m) (heap_end m) (args_start m) (args_end m).
(** [child_of] is the task on whose [children] list this one is, 0 for none. *)
Record tcb := MkTcb {
  tid : Z; tstart : Z; tend : Z; map_start : Z; map_end : Z; vm_area_head : Z; files : Z;
  fs_data : Z; utcb_head : Z; utcb_address : Z; spid : Z; tgid : Z; tpagerid : Z; clone_flags : Z;
  parent : Z; children : list Z; child_of : Z; entry : Z; marks : segments }.
#[export] Instance tcb_shape : Shape tcb := fun t =>
  MkTcb (tid t) (tstart t) (tend t) (map_start t) (map_end t) (vm_area_head t) (files t)
    (fs_data t) (utcb_head t) (utcb_address t) (spid t) (tgid t) (tpagerid t) (clone_flags t)
    (parent t) (children t) (child_of t) (entry t) (marks t).

Record mm (K : Type) := MkMm {
  mheap : heap_t; mpages : page_allocator; mfs : memfs; kern : K;
  pages : Z -> page; pdata : Z -> bytes;
  objs : Z -> vm_object; vm_files : Z -> vm_file; links : Z -> vm_obj_link; areas : Z -> vm_area;
  global_vm_files : global_list; global_vm_objects : global_list; global_tasks : global_list;
  shm_ids : pool; shm_vaddr_pool : address_pool; shms : Z -> shm_descriptor; utcb_region_pool : address_pool; pager_vaddr_pool : address_pool;
  tcbs : Z -> tcb; vma_heads : Z -> task_vma_head; fd_heads : Z -> task_fd_head;
  fs_datas : Z -> task_fs_data; utcbs : Z -> utcb_heads; descs : Z -> utcb_desc }.
Arguments MkMm {K}. Arguments mheap {K}. Arguments mpages {K}. Arguments mfs {K}. Arguments kern {K}.
Arguments pages {K}. Arguments pdata {K}. Arguments objs {K}. Arguments vm_files {K}. Arguments links {K}.
Arguments areas {K}. Arguments global_vm_files {K}. Arguments global_vm_objects {K}. Arguments global_tasks {K}.
Arguments shm_ids {K}. Arguments shm_vaddr_pool {K}. Arguments shms {K}. Arguments utcb_region_pool {K}.
Arguments tcbs {K}. Arguments vma_heads {K}. Arguments fd_heads {K}. Arguments fs_datas {K}. Arguments utcbs {K}.
Arguments descs {K}. Arguments pager_vaddr_pool {K}.
#[export] Instance mm_shape {K} : Shape (mm K) := fun s =>
  MkMm (mheap s) (mpages s) (mfs s) (kern s) (pages s) (pdata s) (objs s) (vm_files s) (links s) (areas s)
    (global_vm_files s) (global_vm_objects s) (global_tasks s) (shm_ids s) (shm_vaddr_pool s) (shms s)
    (utcb_region_pool s) (pager_vaddr_pool s) (tcbs s) (vma_heads s) (fd_heads s) (fs_datas s) (utcbs s) (descs s).

(** [struct task_ids] and [struct exregs_data]; registers by their number. *)
Record task_ids := MkIds { ids_tid : Z; ids_spid : Z; ids_tgid : Z }.
#[export] Instance task_ids_shape : Shape task_ids := fun i => MkIds (ids_tid i) (ids_spid i) (ids_tgid i).
Record exregs_data := MkExregs { x_regs : Z -> Z; valid_vect : Z; x_flags : Z; x_pagerid : Z; x_utcb : Z }.
#[export] Instance exregs_data_shape : Shape exregs_data := fun x =>
  MkExregs (x_regs x) (valid_vect x) (x_flags x) (x_pagerid x) (x_utcb x).

(** The system calls [l4_map(phys, virt, npages, flags, tid)],
    [l4_unmap(virt, npages, tid)], [l4_thread_control(action, ids)], which may
    write the ids, and [l4_exchange_registers(exregs, tid)], as the pager sees
    them. *)
Class kernel_abi (K : Type) := {
  sys_map : Z -> Z -> Z -> Z -> Z -> K -> Z * K;
  sys_unmap : Z -> Z -> Z -> K -> Z * K;
  sys_thread_control : Z -> task_ids -> K -> Z * task_ids * K;
  sys_exchange_registers : exregs_data -> Z -> K -> Z * K }.

(** * Lists *)

Definition list_del (x : Z) (l : list Z) : list Z := filter (fun y => y <> x) l.
Fixpoint insert_before (x at_ : Z) (l : list Z) : list Z :=
  match l with [] => [] | y :: l => if y =? at_ then x :: y :: l else y :: insert_before x at_ l end.
Fixpoint next_of (x : Z) (l : list Z) : option Z :=
  match l with [] => None | y :: l => if y =? x then head l else next_of x l end.
Fixpoint prev_of (x : Z) (l : list Z) : option Z :=
  match l with
  | [] => None
  | y :: l => match l with [] => None | z :: _ => if z =? x then Some y else prev_of x l end
  end.

(** Where things are: the first memory bank, the pager's view of it, the heap
    array, and the page frames of the container's memory regions. *)
Class layout := {
  membank_start : Z; pager_virtual_start : Z; heap_array : Z; self_tid : Z;
  task_pfns : Z * Z; utcb_pfns : Z * Z; shmem_pfns : Z * Z }.

Section Vm.
Context {K : Type} `{kernel_abi K} `{layout}.
Abbreviation M := (prog (mm K)).

(** * State *)

Definition set_obj (o : Z) (f : vm_object -> vm_object) : M unit := modify (fun s => s <| objs ::= fun m => <[o := f (m o)]> m |>).
Definition set_file (x : Z) (f : vm_file -> vm_file) : M unit := modify (fun s => s <| vm_files ::= fun m => <[x := f (m x)]> m |>).
Definition set_page (p : Z) (f : page -> page) : M unit := modify (fun s => s <| pages ::= fun m => <[p := f (m p)]> m |>).
Definition set_area (a : Z) (f : vm_area -> vm_area) : M unit := modify (fun s => s <| areas ::= fun m => <[a := f (m a)]> m |>).
Definition set_link (l : Z) (f : vm_obj_link -> vm_obj_link) : M unit := modify (fun s => s <| links ::= fun m => <[l := f (m l)]> m |>).
Definition set_shm (a : Z) (f : shm_descriptor -> shm_descriptor) : M unit := modify (fun s => s <| shms ::= fun m => <[a := f (m a)]> m |>).
Definition put_data (p : Z) (d : bytes) : M unit := modify (fun s => s <| pdata ::= fun m => <[p := d]> m |>).
Definition obj (o : Z) : M vm_object := gets (fun s => objs s o).
Definition area (a : Z) : M vm_area := gets (fun s => areas s a).
Definition link_obj (l : Z) : M Z := gets (fun s => lobj (links s l)).
Definition file (x : Z) : M vm_file := gets (fun s => vm_files s x).
Definition vm_object_to_file (o : Z) : Z := o - OFFSETOF_VM_OBJ.
Definition vm_obj (f : Z) : Z := f + OFFSETOF_VM_OBJ.

(** The allocators and the file system, run on their part of the state. *)
Definition kzalloc (size : Z) : M Z := fun s =>
  match Malloc.kzalloc heap_array size (mheap s) with
  | None => Bug "kzalloc: write through null"
  | Some (a, h) => Ret a (s <| mheap := h |>)
  end.
Definition kfree (a : Z) : M unit := fun s =>
  match Malloc.kfree a (mheap s) with None => Bug "kfree" | Some h => Ret tt (s <| mheap := h |>) end.
Definition with_pages {A} (m : prog page_allocator A) : M A := fun s =>
  match m (mpages s) with
  | Ret a p => Ret a (s <| mpages := p |>)
  | Bug w => Bug w
  | _ => OutOfFuel
  end.
Definition with_fs {A} (m : prog memfs A) : M A := fun s =>
  match m (mfs s) with
  | Ret a f => Ret a (s <| mfs := f |>)
  | Bug w => Bug w
  | _ => OutOfFuel
  end.
Definition alloc_page (n : Z) : M Z := with_pages (PageAlloc.alloc_page membank_start pager_virtual_start n).
Definition free_page (paddr : Z) : M Z := with_pages (PageAlloc.free_page membank_start pager_virtual_start paddr).
Definition phys_to_page (x : Z) : Z := __pfn (u32 (x - membank_start)).
Definition page_to_phys (p : Z) : Z := u32 (__pfn_to_addr p + membank_start).

Definition l4_map (phys virt n flags t : Z) : M Z := fun s =>
  let '(r, k) := sys_map phys virt n flags t (kern s) in Ret r (s <| kern := k |>).
Definition l4_unmap (virt n t : Z) : M Z := fun s =>
  let '(r, k) := sys_unmap virt n t (kern s) in Ret r (s <| kern := k |>).
Definition l4_thread_control (action : Z) (ids : task_ids) : M (Z * task_ids) := fun s =>
  let '(r, ids, k) := sys_thread_control action ids (kern s) in Ret (r, ids) (s <| kern := k |>).
Definition l4_exchange_registers (exregs : exregs_data) (t : Z) : M Z := fun s =>
  let '(r, k) := sys_exchange_registers exregs t (kern s) in Ret r (s <| kern := k |>).

(** * The global lists ([mm/vm_object.c]) *)

Definition global_add_vm_object (o : Z) : M unit :=
  g ← gets global_vm_objects;
  bug_on (bool_decide (o ∈ glist g)) "global_add_vm_object" ;;
  modify (fun s => s <| global_vm_objects := MkGlobal (total g + 1) (o :: glist g) |>).
Definition global_remove_vm_object (o : Z) : M unit :=
  g ← gets global_vm_objects;
  bug_on (negb (bool_decide (o ∈ glist g))) "global_remove_vm_object" ;;
  modify (fun s => s <| global_vm_objects := MkGlobal (total g - 1) (list_del o (glist g)) |>) ;;
  bug_on (total g - 1 <? 0) "global_vm_objects.total".
Definition global_add_vm_file (f : Z) : M unit :=
  g ← gets global_vm_files;
  bug_on (bool_decide (f ∈ glist g)) "global_add_vm_file" ;;
  modify (fun s => s <| global_vm_files := MkGlobal (total g + 1) (f :: glist g) |>) ;;
  global_add_vm_object (vm_obj f).
Definition global_remove_vm_file (f : Z) : M unit :=
  g ← gets global_vm_files;
  bug_on (negb (bool_decide (f ∈ glist g))) "global_remove_vm_file" ;;
  modify (fun s => s <| global_vm_files := MkGlobal (total g - 1) (list_del f (glist g)) |>) ;;
  bug_on (total g - 1 <? 0) "global_vm_files.total" ;;
  global_remove_vm_object (vm_obj f).

(** * Creation *)

(** Zeroed memory with the list heads initialised. *)
Definition vm_object_init : vm_object := MkObj 0 0 0 0 [] [] 0 0 no_pager [].
Definition vm_object_create : M Z :=
  o ← kzalloc SIZEOF_VM_OBJECT;
  if o =? 0 then mret 0 else set_obj o (fun _ => vm_object_init) ;; mret o.
Definition vm_file_create : M Z :=
  f ← kzalloc SIZEOF_VM_FILE;
  if f =? 0 then mret (PTR_ERR (- ENOMEM))
  else
    set_file f (fun _ => MkFile 0 0 0 no_destructor 0 0) ;;
    set_obj (vm_obj f) (fun _ => vm_object_init <| oflags := VM_OBJ_FILE |>) ;;
    mret f.
Definition vfs_file_create : M Z :=
  f ← vm_file_create;
  if IS_ERR f then mret f else set_file f (fun x => x <| ftype := VM_FILE_VFS |>) ;; mret f.

(** * Pages ([mm/pagers.c]) *)

Definition page_init (p : Z) : M unit := set_page p (fun _ => MkPage (-1) 0 0 0 0 0).
Fixpoint find_in (m : Z -> page) (off : Z) (l : list Z) : option Z :=
  match l with [] => None | p :: l => if offset (m p) =? off then Some p else find_in m off l end.
Definition find_page (o off : Z) : M (option Z) := gets (fun s => find_in (pages s) off (page_cache (objs s o))).

(** The position of [this] among the pages [l] of a cache: [None] is [BUG()]. *)
Fixpoint olist_at (m : Z -> page) (this : Z) (l : list Z) : option (list Z) :=
  match l with
  | [] => None
  | before :: rest =>
      match rest with
      | [] =>
          if offset (m before) <? offset (m this) then Some [before; this]
          else if offset (m this) <? offset (m before) then Some [this; before]
          else None
      | after :: _ =>
          if (offset (m before) <? offset (m this)) && (offset (m this) <? offset (m after))
          then Some (before :: this :: rest)
          else if (offset (m this) =? offset (m before)) || (offset (m this) =? offset (m after)) then None
          else cons before <$> olist_at m this rest
      end
  end.
Definition insert_page_olist (this o : Z) : M unit :=
  l ← gets (fun s => page_cache (objs s o));
  m ← gets pages;
  match (if bool_decide (l = []) then Some [this] else olist_at m this l) with
  | None => bug "insert_page_olist"
  | Some l => set_obj o (fun x => x <| page_cache := l |>) ;; set_page this (fun p => p <| page_of := o |>)
  end.

Definition release_page (free : bool) (o p : Z) : M unit :=
  set_obj o (fun x => x <| page_cache ::= list_del p |>) ;;
  set_page p (fun x => x <| page_of := 0 |>) ;;
  c ← gets (fun s => refcnt (pages s p));
  bug_on (negb (c =? 0)) "release_pages: refcnt" ;;
  page_init p ;;
  when free (free_page (page_to_phys p) ;; mret tt) ;;
  set_obj o (fun x => x <| npages ::= Z.pred |>) ;;
  n ← gets (fun s => npages (objs s o));
  bug_on (n <? 0) "release_pages: npages".
Definition default_release_pages (o : Z) : M unit :=
  l ← gets (fun s => page_cache (objs s o)); foreach l (release_page true o).
Definition bootfile_release_pages (o : Z) : M unit :=
  l ← gets (fun s => page_cache (objs s o)); foreach l (release_page false o).

(** "Check first if the file has such a page at all": the frame number of the
    comparison's result. *)
Definition beyond_file (f off : Z) : M bool :=
  len ← gets (fun s => flength (vm_files s f));
  mret (negb (__pfn (if page_align_up len <=? off then 1 else 0) =? 0)).
Definition file_page_out (o off : Z) : M Z :=
  let f := vm_object_to_file o in
  b ← beyond_file f off;
  bug_on b "file_page_out" ;;
  p ← find_page o off;
  match p with
  | None => mret 0
  | Some p =>
      fl ← gets (fun s => pflags (pages s p));
      if negb (flag_set fl VM_DIRTY) then mret 0
      else
        v ← gets (fun s => fvnode (vm_files s f));
        d ← gets (fun s => pdata s p);
        err ← with_fs (vfs_write v off 1 (fun _ => d));
        if err <? 0 then mret err
        else set_page p (fun x => x <| pflags ::= fun fl => Z.land fl (lnot32 VM_DIRTY) |>) ;; mret 0
  end.
(** A refused page allocation is not tested for: the page would be outside of
    [page_array]. *)
Definition file_page_in (o off : Z) : M page_ptr :=
  let f := vm_object_to_file o in
  b ← beyond_file f off;
  bug_on b "file_page_in" ;;
  p ← find_page o off;
  match p with
  | Some p => mret (Page p)
  | None =>
      paddr ← alloc_page 1;
      bug_on (paddr =? 0) "file_page_in: wild page" ;;
      let page := phys_to_page paddr in
      v ← gets (fun s => fvnode (vm_files s f));
      d ← gets (fun s => pdata s page);
      r ← with_fs (vfs_read v off 1 (fun _ => d));
      put_data page (r.2 0) ;;
      if r.1 <? 0 then free_page paddr ;; mret (PageErr r.1)
      else
        set_obj o (fun x => x <| npages ::= Z.succ |>) ;;
        page_init page ;;
        set_page page (fun p => p <| refcnt ::= Z.succ |> <| owner := o |> <| offset := off |> <| virtual := 0 |>) ;;
        x ← gets (fun s => page_of (pages s page));
        bug_on (negb (x =? 0)) "file_page_in: list" ;;
        insert_page_olist page o ;;
        mret (Page page)
  end.
Definition swap_page_in (o off : Z) : M page_ptr :=
  p ← find_page o off;
  mret match p with None => PageErr (- EINVAL) | Some p => Page p end.
Definition devzero_page_in (o off : Z) : M page_ptr :=
  x ← file (vm_object_to_file o);
  let zpage := private_file_data x in
  bug_on (negb (flag_set (ftype x) VM_FILE_DEVZERO)) "devzero_page_in: type" ;;
  c ← gets (fun s => refcnt (pages s zpage));
  bug_on (c <? 0) "devzero_page_in: refcnt" ;;
  set_page zpage (fun p => p <| refcnt ::= Z.succ |>) ;;
  mret (Page zpage).

(** [vmo->pager->ops]; an operation a pager does not have is a null pointer. *)
Definition page_in (o off : Z) : M page_ptr :=
  x ← obj o;
  match pager x with
  | file_pager => file_page_in o off
  | devzero_pager => devzero_page_in o off
  | swap_pager => swap_page_in o off
  | no_pager => bug "page_in: null"
  end.
Definition page_out (o off : Z) : M Z :=
  x ← obj o;
  match pager x with file_pager => file_page_out o off | _ => bug "page_out: null" end.
Definition release_pages (o : Z) : M unit :=
  x ← obj o;
  match pager x with file_pager | swap_pager => default_release_pages o | _ => bug "release_pages: null" end.

Fixpoint first_file (m : Z -> vm_file) (type : Z) (l : list Z) : option Z :=
  match l with [] => None | f :: l => if ftype (m f) =? type then Some f else first_file m type l end.
Definition get_devzero : M (option Z) :=
  gets (fun s => first_file (vm_files s) VM_FILE_DEVZERO (glist (global_vm_files s))).
Definition init_devzero : M unit :=
  zphys ← alloc_page 1;
  let zpage := phys_to_page zphys in
  put_data zpage zero_page ;;
  devzero ← vm_file_create;
  let len := page_align (u32 (lnot32 0)) in
  set_file devzero (fun f => f <| ftype := VM_FILE_DEVZERO |> <| private_file_data := zpage |> <| flength := len |>) ;;
  set_obj (vm_obj devzero) (fun o => o <| npages := __pfn len |> <| pager := devzero_pager |> <| oflags := VM_OBJ_FILE |>) ;;
  set_page zpage (fun p => p <| refcnt ::= Z.succ |> <| owner := vm_obj devzero |>) ;;
  global_add_vm_file devzero.

(** * Deletion *)

Definition shm_delete_address (addr n : Z) : M Z := fun s =>
  let '(err, p) := address_del (shm_vaddr_pool s) addr n in Ret err (s <| shm_vaddr_pool := p |>).
Definition shm_destroy_priv_data (f : Z) : M unit :=
  x ← file f;
  let d := private_file_data x in
  a ← gets (fun s => shm_addr (shms s d));
  n ← gets (fun s => npages (objs s (vm_obj f)));
  err ← shm_delete_address a n;
  bug_on (err <? 0) "shm_delete_address" ;;
  i ← gets (fun s => shmid (shms s d));
  err ← (fun s => let '(err, p) := id_del (shm_ids s) i in Ret err (s <| shm_ids := p |>));
  bug_on (err <? 0) "shm_destroy_priv_data: id_del" ;;
  kfree d.

Definition vm_object_delete (o : Z) : M Z :=
  release_pages o ;;
  x ← obj o;
  (if flag_set (oflags x) VM_OBJ_FILE then global_remove_vm_file (vm_object_to_file o)
   else if flag_set (oflags x) VM_OBJ_SHADOW then global_remove_vm_object o
   else bug "vm_object_delete: flags") ;;
  x ← obj o;
  bug_on (negb (nlinks x =? 0)) "vm_object_delete: nlinks" ;;
  bug_on (negb (shadows x =? 0)) "vm_object_delete: shadows" ;;
  bug_on (negb (bool_decide (shdw_list x = []))) "vm_object_delete: shdw_list" ;;
  bug_on (negb (bool_decide (link_list x = []))) "vm_object_delete: link_list" ;;
  bug_on (negb (bool_decide (page_cache x = []))) "vm_object_delete: page_cache" ;;
  bug_on (negb (shref x =? 0)) "vm_object_delete: shref" ;;
  (if flag_set (oflags x) VM_OBJ_FILE then
     let f := vm_object_to_file o in
     l ← gets (fun s => glist (global_vm_files s));
     bug_on (bool_decide (f ∈ l)) "vm_object_delete: list" ;;
     y ← file f;
     when (negb (private_file_data y =? 0))
       match destroy_priv_data y with
       | destroy_shm => shm_destroy_priv_data f
       | no_destructor => kfree (private_file_data y)
       end ;;
     kfree f
   else kfree o) ;;
  mret 0.
Definition vm_file_delete (f : Z) : M Z := vm_object_delete (vm_obj f).
End Vm.

(** Executes straight-line code on the pager's state. *)
Ltac vrun :=
  cbv beta iota zeta delta [mbind prog_bind mret prog_ret gets modify bug_on bug when
    obj file area link_obj set_obj set_file set_page set_area set_link set_shm put_data find_page];
  cbn [obind].
