(* ===== verification/Shadow.v ===== *)
(** Copy-on-write: [conts/posix/mm0/mm/fault.c] and the fault decoding of
    [mm/arch/arm/v5/mm.c].

    An area holds a list of links, front to back; each names an object, the
    last one a file and those in front of it shadows.  A write to a page of a
    private area copies the page into the front shadow, which is made when the
    front object is not writable. *)
From S2P Require Import Prelude Bits Defs Words Mapping Fault Malloc Pools PageAlloc Memfs Vm.

Section Shadow.
Context {K : Type} `{kernel_abi K} `{layout}.
Abbreviation M := (prog (mm K)).

(** The fault handed to the handlers; [f_vma] is 0 for none. *)
Record fault_data := MkFault { f_reason : Z; f_address : Z; f_pte_flags : Z; f_vma : Z; f_task : Z }.

(** [vma_next_link(&vma->vm_obj_list, ...)] and [vma_next_link(&link->list, ...)] *)
Definition first_link (vma : Z) : M (option Z) := gets (fun s => head (vm_obj_list (areas s vma))).
Definition vma_next_link (link vma : Z) : M (option Z) := gets (fun s => next_of link (vm_obj_list (areas s vma))).
Definition or_bug {A} (x : option A) (where_ : string) : M A := match x with Some a => mret a | None => bug where_ end.

Definition vma_page_to_virtual (vma p : Z) : M Z :=
  v ← area vma;
  off ← gets (fun s => offset (pages s p));
  bug_on (off <? file_offset v) "vma_page_to_virtual" ;;
  mret (__pfn_to_addr (u32 (pfn_start v + off - file_offset v))).
Definition fault_to_file_offset (fault : fault_data) : M Z :=
  v ← area (f_vma fault);
  mret (u32 (file_offset v + u32 (__pfn (f_address fault) - pfn_start v))).

(** * Links *)

Definition vm_link_object (link o : Z) : M unit :=
  set_link link (fun l => l <| lobj := o |>) ;;
  set_obj o (fun x => x <| link_list ::= cons link |> <| nlinks ::= Z.succ |>).
Definition vm_unlink_object (link : Z) : M Z :=
  o ← link_obj link;
  set_obj o (fun x => x <| link_list ::= list_del link |> <| nlinks ::= Z.pred |>) ;;
  mret o.
(** [list_insert], [list_insert_tail] and [list_remove] of the link's [list]. *)
Definition link_insert (link vma : Z) : M unit :=
  set_area vma (fun v => v <| vm_obj_list ::= cons link |>) ;; set_link link (fun l => l <| lvma := vma |>).
Definition link_insert_tail (link vma : Z) : M unit :=
  set_area vma (fun v => v <| vm_obj_list ::= fun l => l ++ [link] |>) ;; set_link link (fun l => l <| lvma := vma |>).
Definition link_remove (link : Z) : M unit :=
  vma ← gets (fun s => lvma (links s link));
  set_area vma (fun v => v <| vm_obj_list ::= list_del link |>).
Definition vma_drop_link (link : Z) : M Z :=
  link_remove link ;;
  dropped ← vm_unlink_object link;
  kfree link ;;
  mret dropped.
Definition vm_objlink_create : M Z :=
  l ← kzalloc SIZEOF_VM_OBJ_LINK;
  if l =? 0 then mret (PTR_ERR (- ENOMEM)) else set_link l (fun _ => MkLink 0 0) ;; mret l.
Definition vma_create_shadow : M Z :=
  link ← vm_objlink_create;
  if IS_ERR link then mret 0
  else
    vmo ← vm_object_create;
    if vmo =? 0 then kfree link ;; mret 0
    else
      set_obj vmo (fun o => o <| oflags := VM_OBJ_SHADOW |>) ;;
      vm_link_object link vmo ;;
      mret link.
Fixpoint copy_links (l : list Z) (new_vma : Z) : M unit :=
  match l with
  | [] => mret tt
  | link :: l =>
      new_link ← vm_objlink_create;
      o ← link_obj link;
      vm_link_object new_link o ;;
      link_insert_tail new_link new_vma ;;
      copy_links l new_vma
  end.
Definition vma_copy_links (new_vma vma : Z) : M Z :=
  v ← area vma;
  bug_on (bool_decide (vm_obj_list v = [])) "vma_copy_links" ;;
  copy_links (vm_obj_list v) new_vma ;;
  mret 0.

(** * Dropping and merging objects *)

(** Not called: [vm_object_is_droppable] counts pages instead. *)
Definition vm_object_is_subset (shadow original : Z) : M bool :=
  gets (fun s =>
    if npages (objs s shadow) <? npages (objs s original) then false
    else forallb (fun p => bool_decide (is_Some (find_in (pages s) (offset (pages s p)) (page_cache (objs s shadow)))))
           (page_cache (objs s original))).
Definition vm_object_is_droppable (shadow original : Z) : M bool :=
  gets (fun s => (npages (objs s shadow) =? npages (objs s original)) && flag_set (oflags (objs s original)) VM_OBJ_SHADOW).
Definition vm_object_is_deletable (o : Z) : M bool :=
  x ← obj o;
  if negb (nlinks x =? 0) then mret false
  else
    bug_on (negb (shadows x =? 0)) "vm_object_is_deletable: shadows" ;;
    bug_on (negb (shref x =? 0)) "vm_object_is_deletable: shref" ;;
    if flag_set (oflags x) VM_OBJ_SHADOW then mret true
    else
      f ← file (vm_object_to_file o);
      if ftype f =? VM_FILE_DEVZERO then mret false
      else if ftype f =? VM_FILE_SHM then mret true
      else if ftype f =? VM_FILE_VFS then mret (openers f =? 0)
      else bug "vm_object_is_deletable".

(** [list_remove_init] and [list_insert] of [shref]. *)
Definition shref_remove (o : Z) : M unit :=
  h ← gets (fun s => shref (objs s o));
  when (negb (h =? 0)) (set_obj h (fun x => x <| shdw_list ::= list_del o |>)) ;;
  set_obj o (fun x => x <| shref := 0 |>).
Definition shref_insert (o orig : Z) : M unit :=
  set_obj orig (fun x => x <| shdw_list ::= cons o |>) ;;
  set_obj o (fun x => x <| shref := orig |>).

(** Moves a page that the front shadow does not have. *)
Definition move_page (redundant front p : Z) : M unit :=
  off ← gets (fun s => offset (pages s p));
  p2 ← find_page front off;
  match p2 with
  | Some _ => mret tt
  | None =>
      set_obj redundant (fun x => x <| page_cache ::= list_del p |>) ;;
      set_page p (fun x => x <| page_of := 0 |> <| owner := front |>) ;;
      insert_page_olist p front ;;
      set_obj front (fun x => x <| npages ::= Z.succ |>)
  end.
Definition vma_merge_object (redundant : Z) : M Z :=
  r ← obj redundant;
  bug_on (negb (nlinks r =? 1)) "vma_merge_object: nlinks" ;;
  bug_on (negb (shadows r =? 1)) "vma_merge_object: shadows" ;;
  front ← or_bug (head (shdw_list r)) "vma_merge_object: no shadow";
  foreach (page_cache r) (move_page redundant front) ;;
  shref_remove front ;;
  l ← gets (fun s => shdw_list (objs s redundant));
  bug_on (negb (bool_decide (l = []))) "vma_merge_object: shdw_list" ;;
  shref_remove redundant ;;
  orig ← gets (fun s => orig_obj (objs s redundant));
  shref_insert front orig ;;
  set_obj front (fun x => x <| orig_obj := orig |>) ;;
  l ← gets (fun s => link_list (objs s redundant));
  last_link ← or_bug (head l) "vma_merge_object: no link";
  vma_drop_link last_link ;;
  set_obj redundant (fun x => x <| shadows ::= Z.pred |>) ;;
  r ← obj redundant;
  bug_on (shadows r <? 0) "vma_merge_object: shadows" ;;
  vm_object_delete redundant ;;
  mret 0.

(** A link with a link in front of it is dropped because the front shadow hides
    it; one without is dropped because its area goes away. *)
Definition vma_drop_merge_delete (vma link : Z) : M Z :=
  l ← gets (fun s => vm_obj_list (areas s vma));
  let prev := prev_of link l in
  let next := next_of link l in
  o ← vma_drop_link link;
  next_obj ← (match next with Some n => link_obj n | None => mret 0 end);
  (match prev with
   | Some prev =>
       p ← link_obj prev;
       x ← obj p;
       bug_on (negb (flag_set (oflags x) VM_OBJ_SHADOW)) "vma_drop_merge_delete: prev is no shadow" ;;
       bug_on (negb (flag_set (oflags x) VM_WRITE)) "vma_drop_merge_delete: prev is read-only" ;;
       set_obj o (fun x => x <| shadows ::= Z.pred |>) ;;
       n ← gets (fun s => shadows (objs s o));
       bug_on (n <? 0) "vma_drop_merge_delete: shadows" ;;
       bug_on (shref x =? 0) "vma_drop_merge_delete: shref" ;;
       shref_remove p ;;
       bug_on (bool_decide (next = None)) "vma_drop_merge_delete: no next" ;;
       shref_insert p next_obj ;;
       set_obj p (fun x => x <| orig_obj := next_obj |>) ;;
       x ← obj o;
       if nlinks x =? 0 then
         bug_on (negb (orig_obj x =? next_obj)) "vma_drop_merge_delete: orig_obj" ;;
         shref_remove o
       else set_obj next_obj (fun x => x <| shadows ::= Z.succ |>)
   | None =>
       x ← obj o;
       when ((nlinks x =? 0) && bool_decide (next <> None) && flag_set (oflags x) VM_OBJ_SHADOW)
         (bug_on (negb (orig_obj x =? next_obj)) "vma_drop_merge_delete: orig_obj" ;;
          set_obj next_obj (fun x => x <| shadows ::= Z.pred |>) ;;
          n ← gets (fun s => shadows (objs s next_obj));
          bug_on (n <? 0) "vma_drop_merge_delete: shadows" ;;
          shref_remove o)
   end) ;;
  del ← vm_object_is_deletable o;
  x ← obj o;
  (if del : bool then vm_object_delete o ;; mret tt
   else when (flag_set (oflags x) VM_OBJ_SHADOW && (nlinks x =? 1) && (shadows x =? 1)) (vma_merge_object o ;; mret tt)) ;;
  mret 0.
Definition vma_drop_merge_delete_all (vma : Z) : M Z :=
  l ← gets (fun s => vm_obj_list (areas s vma));
  bug_on (bool_decide (l = [])) "vma_drop_merge_delete_all" ;;
  foreach l (fun link => vma_drop_merge_delete vma link ;; mret tt) ;;
  mret 0.

(** * Faults *)

Definition copy_to_new_page (orig : Z) : M Z :=
  paddr ← alloc_page 1;
  bug_on (paddr =? 0) "copy_to_new_page" ;;
  d ← gets (fun s => pdata s orig);
  put_data (phys_to_page paddr) d ;;
  mret (phys_to_page paddr).

(** Pages in from the link [link] of [vma] on, going down the list; [n] bounds
    the links that are left.  The page and the link that had it. *)
Fixpoint search_links (n : nat) (vma link off : Z) : M (Z * Z) :=
  o ← link_obj link;
  p ← page_in o off;
  match p, n with
  | Page p, _ => mret (p, link)
  | PageErr _, O => out_of_fuel
  | PageErr _, S n =>
      next ← vma_next_link link vma;
      match next with
      | None => bug "traversed all shadows and the original file's vm_object"
      | Some link => search_links n vma link off
      end
  end.
Definition search_page (vma link off : Z) : M (Z * Z) :=
  l ← gets (fun s => vm_obj_list (areas s vma));
  search_links (List.length l) vma link off.

(** The second half of [copy_on_write]: the page is looked for from link
    [start] on and copied into the object of [shadow_link]; the object below is
    dropped when the new front hides it. *)
Definition copy_into_shadow (vma off shadow_link start : Z) : M page_ptr :=
  found ← search_page vma start off;
  new_page ← copy_to_new_page found.1;
  at_ ← gets (fun s => page_of (pages s new_page));
  bug_on (negb (at_ =? 0)) "copy_on_write: list" ;;
  shadow ← link_obj shadow_link;
  set_page new_page (fun p => p <| refcnt := 0 |> <| owner := shadow |> <| offset := off |> <| virtual := 0 |>) ;;
  insert_page_olist new_page shadow ;;
  set_obj shadow (fun x => x <| npages ::= Z.succ |>) ;;
  v ← area vma;
  (if flag_set (vflags v) VMA_SHARED then mret tt
   else
     next ← vma_next_link shadow_link vma;
     below ← or_bug next "copy_on_write: copier must have an object under it";
     lower ← link_obj below;
     drop ← vm_object_is_droppable shadow lower;
     when drop (vma_drop_merge_delete vma below ;; mret tt)) ;;
  mret (Page new_page).
(** A new writable shadow in front of object [o], at the head of the area's list;
    0 when there is no memory for one. *)
Definition put_shadow_before (vma o : Z) : M Z :=
  shadow_link ← vma_create_shadow;
  if shadow_link =? 0 then mret 0
  else
    shadow ← link_obj shadow_link;
    set_obj shadow (fun x => x <| orig_obj := o |> <| oflags := Z.lor VM_OBJ_SHADOW VM_WRITE |> <| pager := swap_pager |>) ;;
    set_obj o (fun x => x <| shadows ::= Z.succ |>) ;;
    link_insert shadow_link vma ;;
    shref_insert shadow o ;;
    global_add_vm_object shadow ;;
    mret shadow_link.
(** The front object is not writable: a new shadow before it.  It is: its page,
    if it has it; or else the search starts below it. *)
Definition copy_on_write (fault : fault_data) : M page_ptr :=
  let vma := f_vma fault in
  off ← fault_to_file_offset fault;
  first ← first_link vma;
  vmo_link ← or_bug first "copy_on_write: no vm object in vma";
  o ← link_obj vmo_link;
  x ← obj o;
  if negb (flag_set (oflags x) VM_WRITE) then
    shadow_link ← put_shadow_before vma o;
    if shadow_link =? 0 then mret (PageErr (- ENOMEM)) else copy_into_shadow vma off shadow_link vmo_link
  else
    p ← page_in o off;
    match p with
    | Page p => mret (Page p)
    | PageErr _ =>
        next ← vma_next_link vmo_link vma;
        below ← or_bug next "copy_on_write: no read-only object";
        lower ← link_obj below;
        y ← obj lower;
        bug_on (flag_set (oflags y) VM_WRITE) "copy_on_write: two writable objects" ;;
        copy_into_shadow vma off vmo_link below
    end.

Definition page_read_fault (fault : fault_data) : M Z :=
  off ← fault_to_file_offset fault;
  first ← first_link (f_vma fault);
  link ← or_bug first "page_read_fault: no vm object in vma";
  found ← search_page (f_vma fault) link off;
  mret found.1.
(** [BUG_ON(IS_ERR(page))] *)
Definition no_err (p : M page_ptr) (where_ : string) : M Z :=
  p ← p; match p with Page p => mret p | PageErr _ => bug where_ end.
Definition page_write_fault (fault : fault_data) : M Z :=
  v ← area (f_vma fault);
  if flag_set (vflags v) VMA_PRIVATE then no_err (copy_on_write fault) "page_write_fault"
  else if flag_set (vflags v) VMA_SHARED then
    off ← fault_to_file_offset fault;
    first ← first_link (f_vma fault);
    link ← or_bug first "page_write_fault: no vm object in vma";
    o ← link_obj link;
    p ← page_in o off;
    match p with
    | Page p =>
        set_page p (fun x => x <| pflags ::= Z.lor VM_DIRTY |>) ;;
        own ← gets (fun s => owner (pages s p));
        set_obj own (fun x => x <| oflags ::= Z.lor VM_DIRTY |>) ;;
        mret p
    | PageErr _ =>
        if flag_set (vflags v) VMA_ANONYMOUS then no_err (copy_on_write fault) "page_write_fault"
        else bug "could not obtain faulty page from regular file"
    end
  else bug "page_write_fault: neither private nor shared".

Definition __do_page_fault (fault : fault_data) : M Z :=
  let reason := f_reason fault in
  let pte_flags := f_pte_flags fault in
  r ← (if flag_set reason VM_READ && flag_set pte_flags VM_NONE then
         p ← page_read_fault fault; mret (p, MAP_USR_RO)
       else if flag_set reason VM_WRITE && flag_set pte_flags VM_NONE then
         page_read_fault fault ;; p ← page_write_fault fault; mret (p, MAP_USR_RW)
       else if flag_set reason VM_EXEC && flag_set pte_flags VM_NONE then
         p ← page_read_fault fault; mret (p, MAP_USR_RX)
       else if flag_set reason VM_EXEC && flag_set pte_flags VM_READ then
         p ← page_read_fault fault;
         mret (p, if flag_set pte_flags VM_WRITE then MAP_USR_RWX else MAP_USR_RX)
       else if flag_set reason VM_WRITE && flag_set pte_flags VM_READ then
         p ← page_write_fault fault;
         mret (p, if flag_set pte_flags VM_EXEC then MAP_USR_RWX else MAP_USR_RW)
       else bug "unhandled page fault");
  t ← gets (fun s => tid (tcbs s (f_task fault)));
  l4_map (page_to_phys r.1) (page_align (f_address fault)) 1 r.2 t ;;
  mret r.1.

(** * Freezing at a fork *)

Definition freeze_page (vma t p : Z) : M unit :=
  virtual ← vma_page_to_virtual vma p;
  l4_map (page_to_phys p) virtual 1 MAP_USR_RO t ;; mret tt.
Definition freeze_vma (t vma : Z) : M unit :=
  v ← area vma;
  if flag_set (vflags v) VMA_SHARED then mret tt
  else
    link ← or_bug (head (vm_obj_list v)) "vm_freeze_shadows";
    o ← link_obj link;
    x ← obj o;
    if negb (flag_set (oflags x) VM_OBJ_SHADOW && flag_set (oflags x) VM_WRITE) then mret tt
    else
      set_obj o (fun x => x <| oflags ::= fun f => Z.lor (Z.land f (lnot32 VM_WRITE)) VM_READ |>) ;;
      foreach (page_cache x) (freeze_page vma t).
Definition task_vmas (task : Z) : M (list Z) := gets (fun s => vma_list (vma_heads s (vm_area_head (tcbs s task)))).
Definition vm_freeze_shadows (task : Z) : M Z :=
  l ← task_vmas task;
  t ← gets (fun s => tid (tcbs s task));
  foreach l (freeze_vma t) ;;
  mret 0.

(** * Page fault entry *)

(** [find_vma] of [include/vm_area.h]; 0 for none. *)
Fixpoint find_vma_in (m : Z -> vm_area) (pfn : Z) (l : list Z) : Z :=
  match l with
  | [] => 0
  | a :: l => if (pfn_start (m a) <=? pfn) && (pfn <? pfn_end (m a)) then a else find_vma_in m pfn l
  end.
Definition find_vma (addr task : Z) : M Z :=
  l ← task_vmas task; gets (fun s => find_vma_in (areas s) (__pfn addr) l).

(** [mm/arch/arm/mm.c]: the task is suspended, then the pager halts.  The ids
    other than [tid] are not set. *)
Definition fault_handle_error (fault : fault_data) : M unit :=
  t ← gets (fun s => tcbs s (f_task fault));
  r ← l4_thread_control THREAD_SUSPEND (MkIds (tid t) 0 0);
  bug_on (r.1 <? 0) "fault_handle_error: l4_thread_control" ;;
  bug "fault_handle_error".
Definition do_page_fault (fault : fault_data) : M Z :=
  v ← area (f_vma fault);
  let vma_flags := if f_vma fault =? 0 then VM_NONE else vflags v in
  when (flag_set vma_flags VM_NONE) (fault_handle_error fault) ;;
  when (negb (flag_set (f_reason fault) vma_flags)) (fault_handle_error fault) ;;
  __do_page_fault fault.

(** [mm/arch/arm/v5/mm.c] *)
Definition vm_prot_flags (pte : Z) : Z :=
  let rw_flags := Z.land __MAP_USR_RW PTE_PROT_MASK in
  let ro_flags := Z.land __MAP_USR_RO PTE_PROT_MASK in
  let pte := Z.land pte PTE_PROT_MASK in
  if pte =? ro_flags then Z.lor VM_READ VM_EXEC
  else if pte =? rw_flags then Z.lor (Z.lor VM_READ VM_WRITE) VM_EXEC
  else VM_NONE.
(** The reason, the address and the protection found in the page table. *)
Definition set_generic_fault_params (faulty_pc fsr far pte : Z) : option (Z * Z * Z) :=
  let prot_flags := vm_prot_flags pte in
  if is_prefetch_abort fsr then Some (VM_READ, faulty_pc, prot_flags)
  else if flag_set prot_flags VM_NONE then Some (VM_READ, far, prot_flags)
  else if flag_set prot_flags VM_READ then Some (VM_WRITE, far, prot_flags)
  else None.
Definition page_fault_handler (sender faulty_pc fsr far pte : Z) : M Z :=
  r ← or_bug (set_generic_fault_params faulty_pc fsr far pte) "set_generic_fault_params";
  let '(reason, address, pte_flags) := r in
  vma ← find_vma address sender;
  do_page_fault (MkFault reason address pte_flags vma sender).

(** * Prefaulting *)

(** [None] is [BUG()]. *)
Definition pte_to_map_flags (pte_flags : Z) : option Z :=
  if pte_flags =? VM_READ then Some MAP_USR_RO
  else if pte_flags =? Z.lor VM_READ VM_WRITE then Some MAP_USR_RW
  else if pte_flags =? Z.lor (Z.lor VM_READ VM_WRITE) VM_EXEC then Some MAP_USR_RWX
  else if pte_flags =? Z.lor VM_READ VM_EXEC then Some MAP_USR_RX
  else None.
Definition task_prefault_smart (task address wanted_flags : Z) : M page_ptr :=
  vma ← find_vma address task;
  if vma =? 0 then mret (PageErr (- EINVAL))
  else
    let fault := MkFault 0 address 0 vma task in
    when (flag_set wanted_flags VM_READ) (page_read_fault fault ;; mret tt) ;;
    when (flag_set wanted_flags VM_WRITE) (page_write_fault fault ;; mret tt) ;;
    off ← fault_to_file_offset fault;
    v ← area vma;
    first ← first_link vma;
    link ← or_bug first "task_prefault_smart: no vm object in vma";
    found ← search_page vma link off;
    o ← link_obj found.2;
    x ← obj o;
    let pte_flags := if flag_set (oflags x) VM_WRITE then Z.lor VM_WRITE VM_READ else VM_READ in
    let pte_flags := if flag_set (vflags v) VM_EXEC then Z.lor pte_flags VM_EXEC else pte_flags in
    map_flags ← or_bug (pte_to_map_flags pte_flags) "pte_to_map_flags";
    t ← gets (fun s => tid (tcbs s task));
    err ← l4_map (page_to_phys found.1) (page_align address) 1 map_flags t;
    bug_on (err <? 0) "task_prefault_smart: l4_map" ;;
    mret (Page found.1).
Definition task_prefault_page (task address vmflags : Z) : M page_ptr := task_prefault_smart task address vmflags.

Definition vm_compare_prot_flags (current needed : Z) : Z :=
  let current := Z.land current VM_PROT_MASK in
  let needed := Z.land needed VM_PROT_MASK in
  if flag_set needed VM_READ && flag_set current (Z.lor VM_READ VM_WRITE) then 1
  else if flag_set needed VM_WRITE && flag_set current VM_WRITE then 1
  else 0.
End Shadow.
