(* ===== verification/Pagecache.v ===== *)
(** Files in the pager: the page cache, [read], [write], [lseek], [fsync],
    [close] and the end of [open] in [conts/posix/mm0/mm/file.c], and
    [pager_validate_user_range] of [mm/user.c].  [sys_open]
    starts at the vnode here; how a path leads to it is in Vfs. *)
From S2P Require Import Prelude Bits Defs Words Malloc Pools PageAlloc Memfs Vm Shadow.

Definition EBADF := 9.
Definition SEEK_SET := 0.
Definition SEEK_CUR := 1.
Definition SEEK_END := 2.
Definition page_offset (x : Z) : Z := Z.land x PAGE_MASK.
(** [memcpy] between two pages. *)
Definition copy_bytes (dst src : bytes) (dst_offset src_offset size : Z) : bytes := fun i =>
  if (dst_offset <=? i) && (i <? dst_offset + size) then src (i - dst_offset + src_offset) else dst i.

Section Pagecache.
Context {K : Type} `{kernel_abi K} `{layout}.
Abbreviation M := (prog (mm K)).

Definition page_copy (dst src dst_offset src_offset size : Z) : M unit :=
  bug_on (PAGE_SIZE <? u32 (dst_offset + size)) "page_copy: dst" ;;
  bug_on (PAGE_SIZE <? u32 (src_offset + size)) "page_copy: src" ;;
  d ← gets (fun s => pdata s dst);
  x ← gets (fun s => pdata s src);
  put_data dst (copy_bytes d x dst_offset src_offset size).

(** * The page cache of a file *)

Fixpoint read_pages (n : nat) (o off : Z) : M Z :=
  match n with
  | O => mret 0
  | S n =>
      p ← page_in o off;
      match p with PageErr e => mret e | Page _ => read_pages n o (off + 1) end
  end.
Definition read_file_pages (f pfn_start pfn_end : Z) : M Z :=
  read_pages (Z.to_nat (pfn_end - pfn_start)) (vm_obj f) pfn_start.
Fixpoint write_pages (n : nat) (o off : Z) : M Z :=
  match n with
  | O => mret 0
  | S n => err ← page_out o off; if err <? 0 then mret err else write_pages n o (off + 1)
  end.
Definition write_file_pages (f pfn_start pfn_end : Z) : M Z :=
  x ← file f;
  bug_on (negb (ftype x =? VM_FILE_VFS)) "write_file_pages: type" ;;
  o ← obj (vm_obj f);
  if negb (flag_set (oflags o) VM_DIRTY) then mret 0
  else
    bug_on (negb (pfn_end =? __pfn (page_align_up (flength x)))) "write_file_pages: length" ;;
    write_pages (Z.to_nat (pfn_end - pfn_start)) (vm_obj f) pfn_start.
Definition vfs_update_file_stats (f : Z) : M Z :=
  x ← file f;
  with_fs (vmod (fvnode x) (fun v => v <| v_size := flength x |>) ;; memfs_write_vnode (fvnode x)) ;;
  mret 0.
Definition flush_file_pages (f : Z) : M Z :=
  x ← file f;
  err ← write_file_pages f 0 (__pfn (page_align_up (flength x)));
  if err <? 0 then mret err
  else err ← vfs_update_file_stats f; mret (if err <? 0 then err else 0).

Fixpoint new_pages (n : nat) (f paddr off : Z) : M unit :=
  match n with
  | O => mret tt
  | S n =>
      let page := phys_to_page paddr in
      page_init page ;;
      set_page page (fun p => p <| refcnt ::= Z.succ |> <| owner := vm_obj f |> <| offset := off |> <| virtual := 0 |>) ;;
      insert_page_olist page (vm_obj f) ;;
      new_pages n f (u32 (paddr + PAGE_SIZE)) (off + 1)
  end.
Definition new_file_pages (f start end_ : Z) : M Z :=
  let n := u32 (end_ - start) in
  paddr ← alloc_page n;
  if paddr =? 0 then mret (- ENOMEM)
  else
    new_pages (Z.to_nat n) f paddr start ;;
    set_obj (vm_obj f) (fun o => o <| npages ::= fun m => m + n |>) ;;
    mret 0.

(** * Between the cache and a task's buffer *)

(** The inner [while]: at most two rounds, up to the end of the task's page and
    then up to the end of the file's.  What is left, and the two offsets. *)
Fixpoint copy_cache_page (n : nat) (task file_page : Z) (read : bool) (empty left task_offset file_offset : Z) : M (Z * Z * Z) :=
  if (empty =? 0) || (left =? 0) then mret (left, task_offset, file_offset)
  else
    match n with
    | O => out_of_fuel
    | S n =>
        let copysize := min (PAGE_SIZE - page_offset file_offset) left in
        let copysize := min copysize (PAGE_SIZE - page_offset task_offset) in
        p ← task_prefault_smart task task_offset (if read then Z.lor VM_READ VM_WRITE else VM_READ);
        match p with
        | PageErr _ => bug "copy_cache_pages: wild page"
        | Page p =>
            (if read then page_copy p file_page (page_offset task_offset) (page_offset file_offset) copysize
             else page_copy file_page p (page_offset file_offset) (page_offset task_offset) copysize) ;;
            copy_cache_page n task file_page read (empty - copysize) (left - copysize)
              (u32 (task_offset + copysize)) (u32 (file_offset + copysize))
        end
    end.
(** The pages of the cache from [p] on, read from the list as it is then. *)
Fixpoint copy_pages (n : nat) (o task : Z) (read : bool) (pfn_start pfn_end : Z) (p : option Z)
    (left task_offset file_offset : Z) : M Z :=
  match p, n with
  | None, _ => mret left
  | Some _, O => out_of_fuel
  | Some p, S n =>
      off ← gets (fun s => offset (pages s p));
      if off <? pfn_start then
        next ← gets (fun s => next_of p (page_cache (objs s o)));
        copy_pages n o task read pfn_start pfn_end next left task_offset file_offset
      else if (off =? pfn_end) || (left =? 0) then mret left
      else
        r ← copy_cache_page 2 task p read (PAGE_SIZE - page_offset file_offset) left task_offset file_offset;
        next ← gets (fun s => next_of p (page_cache (objs s o)));
        copy_pages n o task read pfn_start pfn_end next r.1.1 r.1.2 r.2
  end.
Definition copy_cache_pages (f task buf pfn_start pfn_end cursor_offset count : Z) (read : bool) : M Z :=
  l ← gets (fun s => page_cache (objs s (vm_obj f)));
  left ← copy_pages (List.length l + 2 * Z.to_nat (pfn_end - pfn_start + 2)) (vm_obj f) task read pfn_start pfn_end
           (head l) count buf cursor_offset;
  bug_on (negb (left =? 0)) "copy_cache_pages: left" ;;
  mret (count - left).

(** * Files of a task *)

(** [task->files->fd[i]]; the element past the last is another variable. *)
Definition get_fd (task i : Z) : M file_descriptor :=
  bug_on (i =? TASK_FILES_MAX) "fd[TASK_FILES_MAX]" ;;
  gets (fun s => fd (fd_heads s (files (tcbs s task))) i).
Definition set_fd (task i : Z) (f : file_descriptor -> file_descriptor) : M unit :=
  modify (fun s => s <| fd_heads ::= fun m =>
    let h := files (tcbs s task) in <[h := m h <| fd ::= fun t => <[i := f (t i)]> t |>]> m |>).
Definition bad_fd (fdn : Z) : bool := (fdn <? 0) || (TASK_FILES_MAX <? fdn).

Definition fsync_common (task fdn : Z) : M Z :=
  if bad_fd fdn then mret (- EINVAL)
  else
    d ← get_fd task fdn;
    if vmfile d =? 0 then mret 0
    else err ← flush_file_pages (vmfile d); mret (if err <? 0 then err else 0).
(** The count is tested before it is decremented. *)
Definition vm_file_put (f : Z) : M unit :=
  x ← file f;
  set_file f (fun x => x <| openers ::= Z.pred |>) ;;
  if negb (openers x =? 0) then mret tt
  else
    n ← gets (fun s => nlinks (objs s (vm_obj f)));
    when (n =? 0) (vm_file_delete f ;; mret tt).
Definition do_close (task fdn : Z) : M Z :=
  err ← (fun s =>
           let h := files (tcbs s task) in
           let '(err, p) := id_del (fdpool (fd_heads s h)) fdn in
           Ret err (s <| fd_heads ::= fun m => <[h := m h <| fdpool := p |>]> m |>));
  if err <? 0 then mret err
  else
    d ← get_fd task fdn;
    if vmfile d =? 0 then mret 0
    else
      vm_file_put (vmfile d) ;;
      set_fd task fdn (fun _ => MkFd 0 0) ;;
      mret 0.
Definition sys_close (task fdn : Z) : M Z :=
  ret ← fsync_common task fdn;
  if ret <? 0 then mret ret else do_close task fdn.
Definition sys_fsync (task fdn : Z) : M Z := fsync_common task fdn.

(** [mm/user.c] *)
Fixpoint validate_pages (n : nat) (task vaddr vmflags : Z) : M Z :=
  match n with
  | O => mret 0
  | S n =>
      vma ← find_vma vaddr task;
      if vma =? 0 then mret (-1)
      else
        v ← area vma;
        if negb (Z.land (vflags v) vmflags =? vmflags) then mret (-1)
        else validate_pages n task (vaddr + PAGE_SIZE) vmflags
  end.
Definition pager_validate_user_range (task userptr size vmflags : Z) : M Z :=
  let start := page_align userptr in
  let end_ := page_align_up (u32 (userptr + size)) in
  validate_pages (Z.to_nat (__pfn (end_ - start))) task start vmflags.

Definition sys_read (task fdn buf count : Z) : M Z :=
  if bad_fd fdn then mret (- EBADF)
  else
    d ← get_fd task fdn;
    if vmfile d =? 0 then mret (- EBADF)
    else if count <? 0 then mret (- EINVAL)
    else if count =? 0 then mret 0
    else
      ret ← pager_validate_user_range task buf count VM_READ;
      if ret <? 0 then mret (- EFAULT)
      else
        x ← file (vmfile d);
        if flength x <=? cursor d then mret 0
        else
          let pfn_start := __pfn (cursor d) in
          let pfn_end := __pfn (page_align_up (u32 (cursor d + count))) in
          let file_end := __pfn (page_align_up (flength x)) in
          let pfn_end := if file_end <? pfn_end then file_end else pfn_end in
          let count := if flength x <? u32 (cursor d + count) then flength x - cursor d else count in
          ret ← read_file_pages (vmfile d) pfn_start pfn_end;
          if ret <? 0 then mret ret
          else
            count ← copy_cache_pages (vmfile d) task buf pfn_start pfn_end (cursor d) count true;
            if count <? 0 then mret count
            else set_fd task fdn (fun d => d <| cursor ::= fun c => u32 (c + count) |>) ;; mret count.

Definition sys_write (task fdn buf count : Z) : M Z :=
  if bad_fd fdn then mret (- EBADF)
  else
    d ← get_fd task fdn;
    if vmfile d =? 0 then mret (- EBADF)
    else if count <? 0 then mret (- EINVAL)
    else if count =? 0 then mret 0
    else
      ret ← pager_validate_user_range task buf count (Z.lor VM_WRITE VM_READ);
      if ret <? 0 then mret (- EINVAL)
      else
        x ← file (vmfile d);
        let pfn_wstart := __pfn (cursor d) in
        let pfn_wend := __pfn (page_align_up (u32 (cursor d + count))) in
        let fend := __pfn (page_align_up (flength x)) in
        let '(pfn_fstart, pfn_fend, pfn_nstart, pfn_nend) :=
          if pfn_wstart <? fend then
            if pfn_wend <? fend then (pfn_wstart, pfn_wend, 0, 0) else (pfn_wstart, fend, fend, pfn_wend)
          else (0, 0, pfn_wstart, pfn_wend) in
        ret ← read_file_pages (vmfile d) pfn_fstart pfn_fend;
        if ret <? 0 then mret ret
        else
          ret ← new_file_pages (vmfile d) pfn_nstart pfn_nend;
          if ret <? 0 then mret ret
          else
            ret ← copy_cache_pages (vmfile d) task buf pfn_wstart pfn_wend (cursor d) count false;
            if ret <? 0 then mret ret
            else
              d ← get_fd task fdn;
              when (flength x <? u32 (cursor d + count))
                (set_file (vmfile d) (fun x => x <| flength := u32 (cursor d + count) |>)) ;;
              set_fd task fdn (fun d => d <| cursor ::= fun c => u32 (c + count) |>) ;;
              mret count.

(** [SEEK_END] falls through into the default case. *)
Definition sys_lseek (task fdn off whence : Z) : M Z :=
  if bad_fd fdn then mret (- EBADF)
  else
    d ← get_fd task fdn;
    if vmfile d =? 0 then mret (- EBADF)
    else if off <? 0 then mret (- EINVAL)
    else if whence =? SEEK_SET then
      set_fd task fdn (fun d => d <| cursor := off |>) ;; mret off
    else if whence =? SEEK_CUR then
      if 0xFFFFFFFF <? cursor d + off then mret (- EINVAL)
      else set_fd task fdn (fun d => d <| cursor := cursor d + off |>) ;; mret (s32 (cursor d + off))
    else if whence =? SEEK_END then
      x ← file (vmfile d);
      when (negb (0xFFFFFFFF <? cursor d + flength x))
        (set_fd task fdn (fun d => d <| cursor := u32 (flength x + off) |>)) ;;
      mret (- EINVAL)
    else mret (- EINVAL).

(** [sys_open] once the vnode is found or made. *)
Fixpoint file_of_vnode (m : Z -> vm_file) (v : Z) (l : list Z) : option Z :=
  match l with [] => None | f :: l => if fvnode (m f) =? v then Some f else file_of_vnode m v l end.
Definition sys_open_vnode (task v : Z) : M Z :=
  fdn ← (fun s =>
          let h := files (tcbs s task) in
          let '(i, p) := id_new (fdpool (fd_heads s h)) in
          Ret i (s <| fd_heads ::= fun m => <[h := m h <| fdpool := p |>]> m |>));
  bug_on (fdn <? 0) "sys_open: id_new" ;;
  found ← gets (fun s => file_of_vnode (vm_files s) v (glist (global_vm_files s)));
  match found with
  | Some f =>
      set_fd task fdn (fun d => MkFd (cursor d) f) ;;
      set_file f (fun x => x <| openers ::= Z.succ |>) ;;
      mret fdn
  | None =>
      f ← vfs_file_create;
      if IS_ERR f then mret (s32 f)
      else
        size ← gets (fun s => v_size (vnodes (mfs s) v));
        set_file f (fun x => x <| fvnode := v |> <| flength := size |>) ;;
        set_obj (vm_obj f) (fun o => o <| pager := file_pager |>) ;;
        set_fd task fdn (fun d => MkFd (cursor d) f) ;;
        set_file f (fun x => x <| openers ::= Z.succ |>) ;;
        global_add_vm_file f ;;
        mret fdn
  end.
End Pagecache.
