(* ===== verification/Mmap.v ===== *)
(** Areas of a task: [conts/posix/mm0/mm/mmap.c] and [mm/munmap.c]. *)
From S2P Require Import Prelude Bits Defs Words Malloc Pools PageAlloc Memfs Vm Shadow Pagecache.

Definition TASK_SIZE := 0x10000000.
Definition PROT_READ := 1.
Definition PROT_WRITE := 2.
Definition PROT_EXEC := 4.
Definition MAP_SHARED := 1.
Definition MAP_PRIVATE := 2.
Definition MAP_FIXED := 0x10.
Definition MAP_ANONYMOUS := 0x20.
Definition MAP_GROWSDOWN := 0x100.

Section Mmap.
Context {K : Type} `{kernel_abi K} `{layout}.
Abbreviation M := (prog (mm K)).

Definition intersects (m : Z -> vm_area) (a b x : Z) : bool := set_intersection a b (pfn_start (m x)) (pfn_end (m x)).

Definition vma_new (pfn_start npages flags file_offset : Z) : M Z :=
  vma ← kzalloc SIZEOF_VM_AREA;
  if vma =? 0 then mret 0
  else set_area vma (fun _ => MkVma [] pfn_start (u32 (pfn_start + npages)) flags file_offset) ;; mret vma.

(** The place of [this] in a list that is not empty: [None] is [BUG()]. *)
Fixpoint insert_vma_at (m : Z -> vm_area) (this : Z) (l : list Z) : option (list Z) :=
  match l with
  | [] => None
  | before :: rest =>
      match rest with
      | [] =>
          if intersects m (pfn_start (m this)) (pfn_end (m this)) before then None
          else if pfn_start (m before) <? pfn_start (m this) then Some [before; this]
          else if pfn_start (m this) <? pfn_start (m before) then Some [this; before]
          else None
      | after :: _ =>
          if (pfn_start (m before) <? pfn_start (m this)) && (pfn_start (m this) <? pfn_start (m after)) then
            if intersects m (pfn_start (m this)) (pfn_end (m this)) before
               || intersects m (pfn_start (m this)) (pfn_end (m this)) after
            then None else Some (before :: this :: rest)
          else cons before <$> insert_vma_at m this rest
      end
  end.
Definition set_vmas (head : Z) (l : list Z) : M unit :=
  modify (fun s => s <| vma_heads ::= fun m => <[head := m head <| vma_list := l |>]> m |>).
(** [head] is the address of the [task_vma_head]. *)
Definition task_insert_vma (this head : Z) : M Z :=
  l ← gets (fun s => vma_list (vma_heads s head));
  m ← gets areas;
  match (if bool_decide (l = []) then Some [this] else insert_vma_at m this l) with
  | None => bug "task_insert_vma"
  | Some l => set_vmas head l ;; mret 0
  end.

Definition vma_intersection (m : Z -> vm_area) (l : list Z) (pfn_start pfn_end : Z) : bool :=
  existsb (intersects m pfn_start pfn_end) l.
Fixpoint unmapped_after (m : Z -> vm_area) (all : list Z) (npages map_end : Z) (l : list Z) : Z :=
  match l with
  | [] => 0
  | a :: l =>
      let pfn_start := pfn_end (m a) in
      let pfn_end := u32 (pfn_start + npages) in
      if (pfn_end <=? __pfn map_end) && negb (vma_intersection m all pfn_start pfn_end)
      then __pfn_to_addr pfn_start
      else unmapped_after m all npages map_end l
  end.
Definition find_unmapped_area (npages task : Z) : M Z :=
  t ← gets (fun s => tcbs s task);
  l ← task_vmas task;
  if __pfn (u32 (map_end t - map_start t)) <? npages then mret 0
  else if bool_decide (l = []) then mret (map_start t)
  else gets (fun s => unmapped_after (areas s) l npages (map_end t) l).

Definition mmap_address_validate (task map_address vm_flags : Z) : M bool :=
  t ← gets (fun s => tcbs s task);
  let in_pfns (r : Z * Z) := (__pfn_to_addr r.1 <=? map_address) && (map_address <? __pfn_to_addr r.2) in
  let in_task := (tstart t <=? map_address) && (map_address <? tend t) in
  if map_address =? 0 then mret false
  else if flag_set vm_flags VMA_PRIVATE then mret (in_task || in_pfns utcb_pfns)
  else if flag_set vm_flags VMA_SHARED then mret (in_task || in_pfns shmem_pfns)
  else bug "mmap_address_validate".
(** [address_new] on the pool of [mm/shm.c]; [None] is a scan past the model's
    fuel. *)
Definition shm_new_address (npages : Z) : M Z := fun s =>
  match address_new (shm_vaddr_pool s) npages with
  | None => OutOfFuel
  | Some (a, p) => Ret a (s <| shm_vaddr_pool := p |>)
  end.
Definition mmap_new_address (task flags npages : Z) : M Z :=
  if flag_set flags VMA_SHARED then shm_new_address npages else find_unmapped_area npages task.

(** * [mm/munmap.c] *)

(** The upper half goes before the lower one: [list_insert_tail] on [vma]. *)
Definition vma_split (vma task pfn_start_ pfn_end_ : Z) : M Z :=
  new ← vma_new 0 0 0 0;
  if new =? 0 then mret (- ENOMEM)
  else
    v ← area vma;
    bug_on ((pfn_start_ <=? pfn_start v) || (pfn_end v <=? pfn_end_)) "vma_split" ;;
    set_area new (fun n => n <| pfn_end := pfn_end v |> <| pfn_start := pfn_end_ |>
      <| file_offset := u32 (file_offset v + pfn_end_ - pfn_start v) |> <| vflags := vflags v |>) ;;
    set_area vma (fun v => v <| pfn_end := pfn_start_ |>) ;;
    vma_copy_links new vma ;;
    t ← gets (fun s => tcbs s task);
    l ← task_vmas task;
    set_vmas (vm_area_head t) (insert_before new vma l) ;;
    err ← l4_unmap (__pfn_to_addr pfn_start_) (pfn_end_ - pfn_start_) (tid t);
    bug_on (err <? 0) "vma_split: l4_unmap" ;;
    mret 0.
Definition vma_shrink (vma task pfn_start_ pfn_end_ : Z) : M Z :=
  v ← area vma;
  range ← (if pfn_start v <? pfn_start_ then
             bug_on (pfn_end v <=? pfn_start_) "vma_shrink: end" ;;
             set_area vma (fun v => v <| pfn_end := pfn_start_ |>) ;;
             mret (pfn_start_, pfn_end v)
           else if pfn_end_ <? pfn_end v then
             bug_on (pfn_end_ <=? pfn_start v) "vma_shrink: start" ;;
             set_area vma (fun v => v <| file_offset := u32 (file_offset v + (pfn_end_ - pfn_start v)) |> <| pfn_start := pfn_end_ |>) ;;
             mret (pfn_start v, pfn_end_)
           else bug "vma_shrink");
  t ← gets (fun s => tid (tcbs s task));
  err ← l4_unmap (__pfn_to_addr range.1) (range.2 - range.1) t;
  bug_on (err <? 0) "vma_shrink: l4_unmap" ;;
  mret 0.
Definition vma_destroy_single (task vma : Z) : M Z :=
  ret ← vma_drop_merge_delete_all vma;
  if ret <? 0 then mret ret
  else
    v ← area vma;
    t ← gets (fun s => tcbs s task);
    l4_unmap (__pfn_to_addr (pfn_start v)) (pfn_end v - pfn_start v) (tid t) ;;
    l ← task_vmas task;
    set_vmas (vm_area_head t) (list_del vma l) ;;
    kfree vma ;;
    mret 0.
Definition vma_unmap (vma task pfn_start_ pfn_end_ : Z) : M Z :=
  v ← area vma;
  if (pfn_start v <? pfn_start_) && (pfn_end_ <? pfn_end v) then vma_split vma task pfn_start_ pfn_end_
  else if ((pfn_start_ <=? pfn_start v) && (pfn_end_ <? pfn_end v)) || ((pfn_start v <? pfn_start_) && (pfn_end v <=? pfn_end_))
  then vma_shrink vma task pfn_start_ pfn_end_
  else if (pfn_start_ <=? pfn_start v) && (pfn_end v <=? pfn_end_) then vma_destroy_single task vma
  else bug "vma_unmap".

(** The flags tested on the object are those of an area. *)
Definition vma_flush_pages (vma : Z) : M Z :=
  v ← area vma;
  if negb (flag_set (vflags v) VM_WRITE) then mret 0
  else
    link ← or_bug (head (vm_obj_list v)) "vma_flush_pages";
    o ← link_obj link;
    x ← obj o;
    if negb (flag_set (oflags x) VM_DIRTY) then mret 0
    else if flag_set (oflags x) VM_OBJ_FILE && flag_set (oflags x) VMA_SHARED && negb (flag_set (oflags x) VMA_ANONYMOUS) then
      f ← file (vm_object_to_file o);
      bug_on (negb (ftype f =? VM_FILE_VFS)) "vma_flush_pages" ;;
      err ← flush_file_pages (vm_object_to_file o);
      mret (if err <? 0 then err else 0)
    else mret 0.
(** [list_foreach_removable_struct]: unmapping an area changes no other place
    of the list. *)
Fixpoint munmap_vmas (l : list Z) (task start end_ : Z) : M Z :=
  match l with
  | [] => mret 0
  | vma :: l =>
      v ← area vma;
      if set_intersection start end_ (pfn_start v) (pfn_end v) then
        err ← vma_flush_pages vma;
        if err <? 0 then mret err
        else
          err ← vma_unmap vma task start end_;
          if err <? 0 then mret err else munmap_vmas l task start end_
      else munmap_vmas l task start end_
  end.
Definition do_munmap (task vaddr npages : Z) : M Z :=
  l ← task_vmas task;
  let munmap_start := __pfn vaddr in
  munmap_vmas l task munmap_start (u32 (munmap_start + npages)).
Definition sys_munmap (task start length : Z) : M Z :=
  if negb (is_page_aligned start) then mret (- EINVAL)
  else do_munmap task start (__pfn (page_align_up length)).

(** An address is compared with a page frame; [n] bounds the areas met. *)
Fixpoint msync_from (n : nat) (task addr msync_end : Z) : M Z :=
  match n with
  | O => out_of_fuel
  | S n =>
      vma ← find_vma addr task;
      if vma =? 0 then mret 0
      else
        err ← vma_flush_pages vma;
        if err <? 0 then mret err
        else
          v ← area vma;
          let addr := __pfn_to_addr (pfn_end v) in
          if msync_end <=? addr then mret 0 else msync_from n task addr msync_end
  end.
Definition do_msync (task vaddr npages : Z) : M Z :=
  l ← task_vmas task;
  msync_from (S (List.length l)) task vaddr (u32 (__pfn vaddr + npages)).
Definition sys_msync (task start length : Z) : M Z :=
  if negb (is_page_aligned start) then mret (- EINVAL)
  else do_msync task start (__pfn (page_align_up length)).

(** * [mm/mmap.c] *)

(** [mapfile] is 0 for none. *)
Definition do_mmap (mapfile file_offset task map_address flags npages : Z) : M Z :=
  dz ← get_devzero;
  if (mapfile =? 0) && negb (flag_set flags VMA_ANONYMOUS) then mret (PTR_ERR (- EINVAL))
  else
    mf ← (if mapfile =? 0 then f ← or_bug dz "do_mmap: devzero"; mret (f, 0) else mret (mapfile, file_offset));
    let '(mapfile, file_offset) := (mf : Z * Z) in
    x ← file mapfile;
    let file_npages := __pfn (page_align_up (flength x)) in
    if u32 (file_npages - file_offset) <? npages then mret (PTR_ERR (- EINVAL))
    else if npages =? 0 then mret (PTR_ERR (- EINVAL))
    else if __pfn TASK_SIZE <? npages then mret (PTR_ERR (- ENOMEM))
    else
      valid ← mmap_address_validate task map_address flags;
      if negb valid && flag_set flags VMA_FIXED then mret (PTR_ERR (- EINVAL))
      else
        map_address ← (if valid : bool then mret map_address else mmap_new_address task flags npages);
        if negb valid && (map_address =? 0) then mret (PTR_ERR (- ENOMEM))
        else
          err ← do_munmap task map_address npages;
          if err <? 0 then mret (PTR_ERR err)
          else
            new ← vma_new (__pfn map_address) npages flags (__pfn file_offset);
            if new =? 0 then mret (PTR_ERR (- ENOMEM))
            else
              vmo_link ← vm_objlink_create;
              if vmo_link =? 0 then kfree new ;; mret (PTR_ERR (- ENOMEM))
              else
                vm_link_object vmo_link (vm_obj mapfile) ;;
                link_insert_tail vmo_link new ;;
                behind ← (if ftype x =? VM_FILE_SHM then
                            dzero ← get_devzero;
                            vmo_link2 ← vm_objlink_create;
                            if vmo_link2 =? 0 then kfree new ;; kfree vmo_link ;; mret false
                            else
                              dzero ← or_bug dzero "do_mmap: devzero";
                              vm_link_object vmo_link2 (vm_obj dzero) ;;
                              link_insert_tail vmo_link2 new ;;
                              mret true
                          else mret true);
                if negb behind then mret (PTR_ERR (- ENOMEM))
                else
                  h ← gets (fun s => vm_area_head (tcbs s task));
                  task_insert_vma new h ;;
                  mret (if flag_set flags VMA_GROWSDOWN then u32 (map_address + __pfn_to_addr npages) else map_address).
End Mmap.
