(* ===== verification/Shm.v ===== *)
(** Shared memory: [conts/posix/mm0/mm/shm.c], and the [mmap] system call of
    [mm/mmap.c], which makes shared memory for shared anonymous mappings. *)
From S2P Require Import Prelude Bits Defs Words Malloc Pools PageAlloc Memfs Vm Shadow Pagecache Mmap.

Definition IPC_PRIVATE := 0.
Definition IPC_CREAT := 0x200.
Definition IPC_EXCL := 0x400.
Definition SHM_RDONLY := 0x1000.
Definition SHM_RND := 0x2000.
Definition SHM_SHMMIN := 1.
Definition SHM_SHMMAX := 10.

Section Shm.
Context {K : Type} `{kernel_abi K} `{layout}.
Abbreviation M := (prog (mm K)).

Definition shm_pool_init : M unit :=
  modify (fun s => s <| shm_ids := id_pool_new_init SHM_AREA_MAX |>
    <| shm_vaddr_pool := address_pool_init (__pfn_to_addr shmem_pfns.1) (__pfn_to_addr shmem_pfns.2) |>).

Definition shm_new (key n : Z) : M Z :=
  bug_on (n =? 0) "shm_new" ;;
  f ← vm_file_create;
  if IS_ERR f then mret f
  else
    d ← kzalloc SIZEOF_SHM_DESCRIPTOR;
    if d =? 0 then kfree f ;; mret (PTR_ERR (- ENOMEM))
    else
      set_shm d (fun _ => MkShm 0 0 0 0) ;;
      i ← (fun s => let '(i, p) := id_new (shm_ids s) in Ret i (s <| shm_ids := p |>));
      set_shm d (fun x => x <| shmid := i |>) ;;
      if is_err i then kfree f ;; kfree d ;; mret (PTR_ERR i)
      else
        set_shm d (fun x => x <| shm_key := s32 key |> <| shm_npages := n |>) ;;
        set_file f (fun x => x <| flength := __pfn_to_addr n |> <| ftype := VM_FILE_SHM |>
          <| private_file_data := d |> <| destroy_priv_data := destroy_shm |>) ;;
        set_obj (vm_obj f) (fun o => o <| pager := swap_pager |> <| oflags := Z.lor VM_OBJ_FILE VM_WRITE |>) ;;
        global_add_vm_file f ;;
        mret f.
(** The descriptor of a file, looked at even when the file is an error. *)
Definition shmid_of (f : Z) : M Z :=
  bug_on (IS_ERR f) "sys_shmget: error taken for a file" ;;
  gets (fun s => shmid (shms s (private_file_data (vm_files s f)))).
Fixpoint file_with_key (s : mm K) (key : Z) (l : list Z) : option Z :=
  match l with
  | [] => None
  | f :: l =>
      if (ftype (vm_files s f) =? VM_FILE_SHM) && (shm_key (shms s (private_file_data (vm_files s f))) =? key)
      then Some f else file_with_key s key l
  end.
Definition sys_shmget (key size shmflg : Z) : M Z :=
  let n := __pfn (page_align_up (u32 size)) in
  if (SHM_SHMMAX <? n) || (n <? SHM_SHMMIN) then mret (- EINVAL)
  else if key =? IPC_PRIVATE then
    shm ← shm_new (-1) n;
    if shm =? 0 then mret (- ENOSPC) else shmid_of shm
  else
    found ← gets (fun s => file_with_key s key (glist (global_vm_files s)));
    match found with
    | Some f =>
        if flag_set shmflg IPC_CREAT && flag_set shmflg IPC_EXCL then mret (- EEXIST)
        else
          m ← gets (fun s => shm_npages (shms s (private_file_data (vm_files s f))));
          if m <? n then mret (- EINVAL) else shmid_of f
    | None =>
        if flag_set shmflg IPC_CREAT then
          shm ← shm_new key n;
          if shm =? 0 then mret (- ENOSPC) else shmid_of shm
        else mret (- ENOENT)
    end.

Definition do_shmat (f addr shmflg task : Z) : M Z :=
  d ← gets (fun s => private_file_data (vm_files s f));
  if flag_set addr PAGE_MASK && negb (flag_set shmflg SHM_RND) then mret (PTR_ERR (- EINVAL))
  else
    let addr := if flag_set addr PAGE_MASK then page_align addr else addr in
    let vmflags := Z.lor (Z.lor (Z.lor VM_READ VMA_SHARED) VMA_ANONYMOUS) (if flag_set shmflg SHM_RDONLY then 0 else VM_WRITE) in
    x ← gets (fun s => shms s d);
    if negb (shm_addr x =? 0) && negb (addr =? 0) && negb (shm_addr x =? addr) then mret (PTR_ERR (- EINVAL))
    else
      mapped ← do_mmap f 0 task addr vmflags (shm_npages x);
      if IS_ERR mapped then mret mapped
      else
        x ← gets (fun s => shms s d);
        (if shm_addr x =? 0 then set_shm d (fun x => x <| shm_addr := mapped |>)
         else bug_on (negb (shm_addr x =? mapped)) "do_shmat") ;;
        gets (fun s => shm_addr (shms s d)).
Fixpoint shm_file_where (s : mm K) (P : shm_descriptor -> bool) (l : list Z) : option Z :=
  match l with
  | [] => None
  | f :: l =>
      if (ftype (vm_files s f) =? VM_FILE_SHM) && P (shms s (private_file_data (vm_files s f)))
      then Some f else shm_file_where s P l
  end.
Definition sys_shmat (task id addr shmflg : Z) : M Z :=
  f ← gets (fun s => shm_file_where s (fun d => shmid d =? id) (glist (global_vm_files s)));
  match f with Some f => do_shmat f addr shmflg task | None => mret (PTR_ERR (- EINVAL)) end.
Definition do_shmdt (task shm : Z) : M Z :=
  x ← gets (fun s => shms s (private_file_data (vm_files s shm)));
  err ← do_munmap task (shm_addr x) (shm_npages x);
  mret (if err <? 0 then err else 0).
Definition sys_shmdt (task addr : Z) : M Z :=
  f ← gets (fun s => shm_file_where s (fun d => shm_addr d =? addr) (glist (global_vm_files s)));
  match f with Some f => do_shmdt task f | None => mret (- EINVAL) end.

(** [__sys_mmap]: the arguments of [sys_mmap] once they are read. *)
Definition __sys_mmap (task start length prot flags fdn file_offset : Z) : M Z :=
  let anon := flag_set flags MAP_ANONYMOUS in
  d ← (if anon then mret (MkFd 0 0) else if bad_fd fdn then mret (MkFd 0 0) else get_fd task fdn);
  if negb anon && (vmfile d =? 0) then mret (PTR_ERR (- EBADF))
  else if negb (is_page_aligned file_offset) then mret (PTR_ERR (- EINVAL))
  else
    let add (c : bool) (f flags : Z) := if c then Z.lor flags f else flags in
    let vmflags := add anon VMA_ANONYMOUS 0 in
    let vmflags := add (flag_set flags MAP_FIXED) VMA_FIXED vmflags in
    let vmflags := Z.lor vmflags (if flag_set flags MAP_PRIVATE then VMA_PRIVATE else VMA_SHARED) in
    let vmflags := add (flag_set flags MAP_GROWSDOWN) VMA_GROWSDOWN vmflags in
    let vmflags := add (flag_set prot PROT_READ) VM_READ vmflags in
    let vmflags := add (flag_set prot PROT_WRITE) VM_WRITE vmflags in
    let vmflags := add (flag_set prot PROT_EXEC) VM_EXEC vmflags in
    if anon && flag_set flags MAP_SHARED then
      shmid ← sys_shmget IPC_PRIVATE (s32 (page_align_up length)) 0;
      sys_shmat task shmid 0 0
    else do_mmap (if anon then 0 else vmfile d) file_offset task start vmflags (__pfn (page_align_up length)).
End Shm.
