(* ===== verification/Forking.v ===== *)
(** Tasks and their memory: [vma] copies and release of
    [conts/posix/mm0/mm/task.c], the memory side of [sys_fork] in
    [mm/clone.c], and the copies from and to user memory of [mm/user.c]. *)
From S2P Require Import Prelude Bits Defs Words Malloc Pools PageAlloc Memfs Vm Shadow Pagecache Mmap.

Definition TCB_SHARED_VM := Z.shiftl 1 0.
Definition TCB_SHARED_FILES := Z.shiftl 1 1.
Definition TCB_SHARED_FS := Z.shiftl 1 2.
Definition E2BIG := 7.
Definition TILL_PAGE_ENDS (x : Z) : Z := PAGE_SIZE - Z.land x PAGE_MASK.

Section Forking.
Context {K : Type} `{kernel_abi K} `{layout}.
Abbreviation M := (prog (mm K)).

(** * [mm/task.c] *)

Fixpoint copy_vmas (l : list Z) (to_head : Z) : M unit :=
  match l with
  | [] => mret tt
  | vma :: l =>
      v ← area vma;
      new_vma ← vma_new (pfn_start v) (u32 (pfn_end v - pfn_start v)) (vflags v) (file_offset v);
      vma_copy_links new_vma vma ;;
      task_insert_vma new_vma to_head ;;
      copy_vmas l to_head
  end.
Definition task_copy_vmas (to from : Z) : M Z :=
  l ← task_vmas from;
  h ← gets (fun s => vm_area_head (tcbs s to));
  copy_vmas l h ;;
  mret 0.
Definition release_vma (head vma : Z) : M unit :=
  vma_drop_merge_delete_all vma ;;
  l ← gets (fun s => vma_list (vma_heads s head));
  set_vmas head (list_del vma l) ;;
  kfree vma.
Definition task_release_vmas (head : Z) : M Z :=
  l ← gets (fun s => vma_list (vma_heads s head));
  foreach l (release_vma head) ;;
  mret 0.

(** Every open file of a copied table gets one more opener. *)
Definition open_again (h i : Z) : M unit :=
  f ← gets (fun s => vmfile (fd (fd_heads s h) i));
  when (negb (f =? 0)) (set_file f (fun x => x <| openers ::= Z.succ |>)).
(** The words that the limit counts, one less than the pool has. *)
Definition id_pool_copy (to_ from_ : pool) (totalbits : Z) : pool :=
  let n := Z.to_nat (BITWISE_GETWORD totalbits) in
  MkPool (nwords from_) (bitlimit from_) (take n (bitmap from_) ++ drop n (bitmap to_)).
Definition copy_fds (to_ from_ : Z) : M unit :=
  modify (fun s => s <| fd_heads ::= fun m =>
    <[to_ := m to_ <| fd := fd (m from_) |> <| fdpool ::= fun p => id_pool_copy p (fdpool (m from_)) TASK_FILES_MAX |>]> m |>) ;;
  foreach (Z.of_nat <$> seq 0 (Z.to_nat TASK_FILES_MAX)) (open_again to_).
Definition tmod (t : Z) (f : tcb -> tcb) : M unit := modify (fun s => s <| tcbs ::= fun m => <[t := f (m t)]> m |>).
(** The references to [fs_data] are copied with it; [entry] is not copied. *)
Definition copy_tcb (to from share_flags : Z) : M Z :=
  f ← gets (fun s => tcbs s from);
  tmod to (fun t => t <| tstart := tstart f |> <| tend := tend f |> <| marks := marks f |>
                      <| map_start := map_start f |> <| map_end := map_end f |>) ;;
  (if flag_set share_flags TCB_SHARED_VM then
     tmod to (fun t => t <| vm_area_head := vm_area_head f |>) ;;
     modify (fun s => s <| vma_heads ::= fun m => <[vm_area_head f := m (vm_area_head f) <| vma_refs ::= Z.succ |>]> m |>) ;;
     tmod to (fun t => t <| utcb_head := utcb_head f |>) ;;
     modify (fun s => s <| utcbs ::= fun m => <[utcb_head f := m (utcb_head f) <| utcb_refs ::= Z.succ |>]> m |>)
   else task_copy_vmas to from ;; mret tt) ;;
  (if flag_set share_flags TCB_SHARED_FILES then
     tmod to (fun t => t <| files := files f |>) ;;
     modify (fun s => s <| fd_heads ::= fun m => <[files f := m (files f) <| fd_refs ::= Z.succ |>]> m |>)
   else
     to_fds ← gets (fun s => files (tcbs s to));
     copy_fds to_fds (files f)) ;;
  (if flag_set share_flags TCB_SHARED_FS then
     tmod to (fun t => t <| fs_data := fs_data f |>) ;;
     modify (fun s => s <| fs_datas ::= fun m => <[fs_data f := m (fs_data f) <| fs_refs ::= Z.succ |>]> m |>)
   else
     to_fs ← gets (fun s => fs_data (tcbs s to));
     modify (fun s => s <| fs_datas ::= fun m => <[to_fs := m (fs_data f)]> m |>)) ;;
  mret 0.
(** The memory side of [sys_fork]: [child] is the new task's tcb. *)
Definition fork_memory (parent child : Z) : M unit :=
  vm_freeze_shadows parent ;; copy_tcb child parent 0 ;; mret tt.

(** * [mm/user.c] *)

(** The page frame of the mapped page and the offset of [userptr] in it. *)
Definition pager_get_user_page (task userptr size vm_flags : Z) : M (option (Z * Z)) :=
  let start := page_align userptr in
  let end_ := page_align_up (u32 (userptr + size)) in
  ok ← pager_validate_user_range task userptr size vm_flags;
  if ok <? 0 then mret None
  else
    p ← task_prefault_page task start vm_flags;
    match p with
    | PageErr _ => bug "pager_get_user_page: wild page"
    | Page p =>
        bug_on (u32 (start + PAGE_SIZE) <? end_) "pager_get_user_page" ;;
        mret (Some (p, Z.land userptr PAGE_MASK))
    end.

(** The [do ... while] of the copies: how many elements of [es] bytes, the one
    after [count] included, are copied from or to address [addr] until [size]
    of them are, [stop] holds of one, or the next is on a page boundary. *)
Fixpoint copied_until (n : nat) (stop : Z -> bool) (es addr size count : Z) : Z :=
  match n with
  | O => count
  | S n =>
      if stop count then count + 1
      else if (count + 1 <? size) && negb (is_page_aligned (addr + es * (count + 1)))
      then copied_until n stop es addr size (count + 1) else count + 1
  end.
Definition copied (stop : Z -> bool) (es addr size : Z) : Z := copied_until (Z.to_nat PAGE_SIZE) stop es addr size 0.
(** How much [memcpy_page(to, from, size, fault_on_dest)] copies and what it
    returns: the last test is on the source whatever [fault_on_dest] says. *)
Definition memcpy_page (to from size : Z) (fault_on_dest : bool) : Z * Z :=
  let count := copied (fun _ => false) 1 (if fault_on_dest then to else from) size in
  (count, if is_page_aligned (from + count) then - EFAULT else count).

(** A user page is named by its frame and the offset in it, whose address is
    the page's in the pager. *)
Definition page_to_virt (p : Z) : Z := PageAlloc.phys_to_virt membank_start pager_virtual_start (page_to_phys p).
(** [buf] is the address of the pager's buffer and [b] its bytes. *)
Fixpoint copy_from (n : nat) (task user buf : Z) (b : bytes) (p off done count : Z) : M (Z * bytes) :=
  match n with
  | O => out_of_fuel
  | S n =>
      d ← gets (fun s => pdata s p);
      let r := memcpy_page (buf + done) (page_to_virt p + off) count false in
      let b := copy_bytes b d done off r.1 in
      if r.2 <? 0 then
        let done := done + TILL_PAGE_ENDS off in
        m ← pager_get_user_page task (u32 (user + done)) (TILL_PAGE_ENDS (user + done)) VM_READ;
        match m with
        | None => mret (- EINVAL, b)
        | Some m => copy_from n task user buf b m.1 m.2 done (count - TILL_PAGE_ENDS off)
        end
      else mret (done + r.2, b)
  end.
Definition copy_from_user (task buf : Z) (b : bytes) (user size : Z) : M (Z * bytes) :=
  m ← pager_get_user_page task user (TILL_PAGE_ENDS user) VM_READ;
  match m with
  | None => mret (- EINVAL, b)
  | Some m => copy_from (Z.to_nat (size / PAGE_SIZE + 3)) task user buf b m.1 m.2 0 size
  end.
Fixpoint copy_to (n : nat) (task user buf : Z) (b : bytes) (p off done count : Z) : M Z :=
  match n with
  | O => out_of_fuel
  | S n =>
      d ← gets (fun s => pdata s p);
      let r := memcpy_page (page_to_virt p + off) (buf + done) count true in
      put_data p (copy_bytes d b off done r.1) ;;
      if r.2 <? 0 then
        let done := done + TILL_PAGE_ENDS off in
        m ← pager_get_user_page task (u32 (user + done)) (TILL_PAGE_ENDS (user + done)) (Z.lor VM_READ VM_WRITE);
        match m with
        | None => mret (- EINVAL)
        | Some m => copy_to n task user buf b m.1 m.2 done (count - TILL_PAGE_ENDS off)
        end
      else mret (done + r.2)
  end.
Definition copy_to_user (task user buf : Z) (b : bytes) (size : Z) : M Z :=
  m ← pager_get_user_page task user (TILL_PAGE_ENDS user) (Z.lor VM_READ VM_WRITE);
  match m with
  | None => mret (- EINVAL)
  | Some m => copy_to (Z.to_nat (size / PAGE_SIZE + 3)) task user buf b m.1 m.2 0 size
  end.

(** [strncpy_page] and [bufncpy_page] on a page's bytes [d] from offset [off]:
    elements copied, and the result. *)
Definition null_at (d : bytes) (es off i : Z) : bool :=
  forallb (fun k => d (off + es * i + k) =? 0) (Z.of_nat <$> seq 0 (Z.to_nat es)).
Definition ncpy_page (d : bytes) (es off maxlength : Z) : Z * Z :=
  let count := copied (null_at d es off) es off maxlength in
  (count, if is_page_aligned (off + es * count) then - EFAULT
          else if count =? maxlength then - E2BIG else count).
Fixpoint copy_user (n : nat) (task user : Z) (b : bytes) (p off done count es : Z) : M (Z * bytes) :=
  match n with
  | O => out_of_fuel
  | S n =>
      d ← gets (fun s => pdata s p);
      let r := ncpy_page d es off count in
      let b := copy_bytes b d done off (es * r.1) in
      if r.2 =? - E2BIG then mret (- E2BIG, b)
      else if r.2 <? 0 then
        let done := done + TILL_PAGE_ENDS off in
        m ← pager_get_user_page task (u32 (user + done)) (TILL_PAGE_ENDS (user + done)) VM_READ;
        match m with
        | None => mret (- EINVAL, b)
        | Some m => copy_user n task user b m.1 m.2 done (count - TILL_PAGE_ENDS off) es
        end
      else mret (done / es + r.2, b)
  end.
Definition copy_user_buf (task : Z) (b : bytes) (user maxlength elem_size : Z) : M (Z * bytes) :=
  if negb ((elem_size =? 1) || (elem_size =? 4)) then mret (- EINVAL, b)
  else
    m ← pager_get_user_page task user (TILL_PAGE_ENDS user) VM_READ;
    match m with
    | None => mret (- EINVAL, b)
    | Some m => copy_user (Z.to_nat (maxlength / PAGE_SIZE + 3)) task user b m.1 m.2 0 maxlength elem_size
    end.
Definition copy_user_string (task : Z) (b : bytes) (user maxlength : Z) : M (Z * bytes) :=
  copy_user_buf task b user maxlength 1.
Definition copy_user_ptrs (task : Z) (b : bytes) (user maxlength : Z) : M (Z * bytes) :=
  copy_user_buf task b user maxlength 4.
End Forking.
