(* ===== verification/Paths.v ===== *)
(** Path strings: [conts/posix/mm0/lib/pathstr.c] on a buffer of characters,
    and the components that [pathdata_parse] of [fs/path.c] takes from it,
    against the components of a path as a list of characters.

    The buffer is a function from positions to characters; a [char *] into it
    is a position.  Scans take fuel; one round per character is enough. *)
From S2P Require Import Prelude.

Definition VFS_CHAR_SEP := 47.
Definition VFS_STR_ROOTDIR : list Z := [47].
Definition VFS_STR_PARDIR : list Z := [46; 46].
Definition VFS_STR_CURDIR : list Z := [46].

Abbreviation buffer := (Z -> Z).
(** The string at [a], up to the null. *)
Fixpoint cstring (n : nat) (buf : buffer) (a : Z) : list Z :=
  match n with O => [] | S n => if buf a =? 0 then [] else buf a :: cstring n buf (a + 1) end.
(** [strcpy] of a string to [a], with its null. *)
Fixpoint strcpy (l : list Z) (buf : buffer) (a : Z) : buffer :=
  match l with [] => <[a := 0]> buf | c :: l => <[a := c]> (strcpy l buf (a + 1)) end.

(** [while ( *cursor == sep) { *cursor = 0; cursor++; }] *)
Fixpoint skip_seps (n : nat) (sep : Z) (buf : buffer) (cursor : Z) : option (buffer * Z) :=
  match n with
  | O => None
  | S n => if buf cursor =? sep then skip_seps n sep (<[cursor := 0]> buf) (cursor + 1) else Some (buf, cursor)
  end.
Fixpoint component_end (n : nat) (sep : Z) (buf : buffer) (end_ : Z) : option Z :=
  match n with
  | O => None
  | S n => if (buf end_ =? sep) || (buf end_ =? 0) then Some end_ else component_end n sep buf (end_ + 1)
  end.
(** The buffer, the new [*str] and the component. *)
Definition splitpath (n : nat) (sep : Z) (buf : buffer) (str : Z) : option (buffer * Z * Z) :=
  match skip_seps n sep buf str with
  | None => None
  | Some (buf, cursor) =>
      match component_end n sep buf cursor with
      | None => None
      | Some end_ =>
          if buf end_ =? sep then
            let buf := <[end_ := 0]> buf in
            Some (buf, if negb (buf (end_ + 1) =? 0) then end_ + 1 else end_, cursor)
          else Some (buf, end_, cursor)
      end
  end.
(** [strreverse] of the string at [str]; the copy on the stack has one byte
    less than [strcpy] writes to it. *)
Definition strreverse (n : nat) (buf : buffer) (str : Z) : buffer :=
  let tmp := cstring n buf str in
  fun i => if (str <=? i) && (i <? str + Z.of_nat (length tmp))
           then nth (Z.to_nat (Z.of_nat (length tmp) - 1 - (i - str))) tmp 0 else buf i.
Definition splitpath_end (n : nat) (sep : Z) (buf : buffer) (path : Z) : option (buffer * Z * Z) :=
  match splitpath n sep (strreverse n buf path) path with
  | None => None
  | Some (buf, path, component) => Some (strreverse n (strreverse n buf path) component, path, component)
  end.

(** The loop of [pathdata_parse]: the components, without ["."]. *)
Fixpoint split_components (n : nat) (m : nat) (buf : buffer) (str : Z) : option (buffer * list Z) :=
  match n with
  | O => None
  | S n =>
      match splitpath m VFS_CHAR_SEP buf str with
      | None => None
      | Some (buf, str, comp) =>
          if buf comp =? 0 then Some (buf, [])
          else
            match split_components n m buf str with
            | None => None
            | Some (buf', l) =>
                Some (buf', if bool_decide (cstring m buf comp = VFS_STR_CURDIR) then l else comp :: l)
            end
      end
  end.

(** * The components of a path *)

(** What is between separators, and of that what is not empty. *)
Fixpoint pieces (sep : Z) (l : list Z) : list (list Z) :=
  match l with
  | [] => [[]]
  | c :: l =>
      if c =? sep then [] :: pieces sep l
      else match pieces sep l with [] => [[c]] | p :: ps => (c :: p) :: ps end
  end.
Definition components (sep : Z) (l : list Z) : list (list Z) := filter (fun p => p <> []) (pieces sep l).

(** * Strings in a buffer *)

(** The string [l] is at [a], with its null after it. *)
Fixpoint holds (buf : buffer) (a : Z) (l : list Z) : Prop :=
  match l with [] => buf a = 0 | c :: l => buf a = c /\ c <> 0 /\ holds buf (a + 1) l end.

Lemma holds_same l : forall a buf buf', holds buf a l ->
  (forall i, a <= i <= a + Z.of_nat (length l) -> buf' i = buf i) -> holds buf' a l.
Proof.
  induction l as [|c l IH]; cbn; intros a buf buf' Hb Hs; [rewrite Hs by lia; done|].
  destruct Hb as (<- & Hc & Hl). split; [apply Hs; lia|]. split; [done|].
  apply (IH _ buf); [done|]. intros i Hi. apply Hs. lia.
Qed.
Lemma holds_cstring l : forall n a buf, holds buf a l -> (length l < n)%nat -> cstring n buf a = l.
Proof.
  induction l as [|c l IH]; intros [|n] a buf Hb Hn; cbn in *; [lia| |lia|].
  - by rewrite Hb.
  - destruct Hb as (-> & Hc & Hl). rewrite (proj2 (Z.eqb_neq c 0)) by done. f_equal. apply IH; [done|lia].
Qed.
Lemma strcpy_holds l : forall a buf, Forall (fun c => c <> 0) l -> holds (strcpy l buf a) a l.
Proof.
  induction l as [|c l IH]; intros a buf Hl; cbn [strcpy holds]; [apply fn_lookup_insert|].
  apply Forall_cons in Hl as [Hc Hl]. rewrite fn_lookup_insert. split; [done|]. split; [done|].
  apply (holds_same _ _ (strcpy l buf (a + 1))); [by apply IH|]. intros i Hi. rewrite fn_lookup_insert_ne; [done|lia].
Qed.

(** A string is separators, then a run without any, then the rest. *)
Definition run_of (sep : Z) (l w : list Z) : Prop := Forall (fun c => c <> sep) w /\ (l = [] \/ exists r, l = sep :: r).

Lemma split_run sep l : exists w r, l = w ++ r /\ run_of sep r w.
Proof.
  induction l as [|c l (w & r & -> & Hw & Hr)]; [by exists [], []; repeat split; auto|].
  destruct (decide (c = sep)) as [->|Hc]; [exists [], (sep :: w ++ r)|exists (c :: w), r].
  - split; [done|]. split; [done|]. right. by eexists.
  - split; [done|]. split; [by constructor|done].
Qed.
Lemma pieces_nonempty sep l : pieces sep l <> [].
Proof. destruct l as [|c l]; cbn; [done|]. destruct (c =? sep); [done|]. by destruct (pieces sep l). Qed.
Lemma pieces_run sep w r : run_of sep r w ->
  pieces sep (w ++ r) = w :: match r with [] => [] | _ :: r => pieces sep r end.
Proof.
  intros [Hw Hr]. induction w as [|c w IH]; cbn.
  - destruct Hr as [->|[x ->]]; [done|]. cbn. by rewrite Z.eqb_refl.
  - apply Forall_cons in Hw as [Hc Hw]. rewrite (proj2 (Z.eqb_neq c sep)) by done. by rewrite IH.
Qed.
Lemma components_seps sep k l : components sep (replicate k sep ++ l) = components sep l.
Proof. induction k as [|k IH]; cbn; [done|]. unfold components in *. cbn. rewrite Z.eqb_refl. by rewrite filter_cons_False by auto. Qed.
Lemma components_run sep w r : w <> [] -> run_of sep r w ->
  components sep (w ++ r) = w :: match r with [] => [] | _ :: r => components sep r end.
Proof.
  intros Hw Hr. unfold components. rewrite pieces_run by done. rewrite filter_cons_True by done. f_equal. by destruct r.
Qed.

Lemma skip_seps_skips sep l : sep <> 0 -> forall n a buf, holds buf a l -> (length l < n)%nat ->
  exists k l' buf', l = replicate k sep ++ l' /\ (forall r, l' <> sep :: r) /\
    skip_seps n sep buf a = Some (buf', a + Z.of_nat k) /\ holds buf' (a + Z.of_nat k) l' /\
    (forall i, i < a \/ a + Z.of_nat k <= i -> buf' i = buf i) /\ forall i, buf i = 0 -> buf' i = 0.
Proof.
  intros Hsep. induction l as [|c l IH]; intros [|n] a buf Hb Hn; cbn in Hn; try lia; cbn [skip_seps].
  - exists O, [], buf. cbn in Hb. rewrite Hb, (proj2 (Z.eqb_neq 0 sep)), Z.add_0_r by done. by split_and!.
  - destruct Hb as (E & Hc & Hl). rewrite E. destruct (Z.eqb_spec c sep) as [->|Hne].
    + destruct (IH n (a + 1) (<[a := 0]> buf)) as (k & l' & buf' & -> & Hl' & Hs & Hh & Hf & Hz); [|lia|].
      { apply (holds_same _ _ buf); [done|]. intros i Hi. rewrite fn_lookup_insert_ne; [done|lia]. }
      exists (S k), l', buf'. replace (a + Z.of_nat (S k)) with (a + 1 + Z.of_nat k) by lia. split_and!; [done..| |].
      * intros i Hi. rewrite Hf by lia. rewrite fn_lookup_insert_ne; [done|lia].
      * intros i Hi. apply Hz. destruct (decide (a = i)) as [->|]; [apply fn_lookup_insert|by rewrite fn_lookup_insert_ne].
    + exists O, (c :: l), buf. rewrite Z.add_0_r. split_and!; [done|congruence|done|by split_and!|done|done].
Qed.
Lemma component_end_finds sep w r : run_of sep r w -> forall n a buf, holds buf a (w ++ r) -> (length w < n)%nat ->
  component_end n sep buf a = Some (a + Z.of_nat (length w)).
Proof.
  intros [Hw Hr]. induction w as [|c w IH]; intros [|n] a buf Hb Hn; cbn in *; try lia.
  - rewrite Z.add_0_r. destruct Hr as [->|[x ->]]; cbn in Hb; [rewrite Hb; by rewrite orb_true_r|].
    destruct Hb as (-> & _). by rewrite Z.eqb_refl.
  - destruct Hb as (-> & Hc & Hl). apply Forall_cons in Hw as [Hcs Hw].
    rewrite (proj2 (Z.eqb_neq c sep)), (proj2 (Z.eqb_neq c 0)) by done. cbn. rewrite IH; [f_equal; lia|done|done|lia].
Qed.
Lemma holds_app w r : forall buf a, holds buf a (w ++ r) <->
  (forall i c, w !! i = Some c -> buf (a + Z.of_nat i) = c /\ c <> 0) /\ holds buf (a + Z.of_nat (length w)) r.
Proof.
  induction w as [|c w IH]; intros buf a; cbn [app length].
  - rewrite Z.add_0_r. split; [by intros ?|by intros [_ ?]].
  - cbn [holds]. rewrite IH. split.
    + intros (H1 & H2 & H3 & H4). split.
      * intros [|i] x; cbn; [intros [= ->]; by rewrite Z.add_0_r|]. intros Hx%H3. by replace (a + Z.of_nat (S i)) with (a + 1 + Z.of_nat i) by lia.
      * by replace (a + Z.of_nat (S (length w))) with (a + 1 + Z.of_nat (length w)) by lia.
    + intros [H1 H2]. destruct (H1 O c eq_refl) as [H3 H4]. rewrite Z.add_0_r in H3. split_and!; [done|done| |].
      * intros i x Hx. replace (a + 1 + Z.of_nat i) with (a + Z.of_nat (S i)) by lia. by apply H1.
      * by replace (a + 1 + Z.of_nat (length w)) with (a + Z.of_nat (S (length w))) by lia.
Qed.

(** One call takes the first component, or finds none; what is left has the
    other components, and the component is not touched any more. *)
Lemma splitpath_takes sep l n a buf : sep <> 0 -> holds buf a l -> (length l < n)%nat ->
  exists buf' str comp w l2, splitpath n sep buf a = Some (buf', str, comp) /\
    holds buf' comp w /\ holds buf' str l2 /\ (length l2 <= length l)%nat /\
    a <= comp /\ comp + Z.of_nat (length w) <= str /\
    (forall i, i < a -> buf' i = buf i) /\ (forall i, buf i = 0 -> buf' i = 0) /\
    match components sep l with [] => w = [] | c :: cs => w = c /\ components sep l2 = cs /\ (length l2 < length l)%nat end.
Proof.
  intros Hsep Hb Hn. destruct (skip_seps_skips sep l Hsep n a buf Hb Hn) as (k & l' & b1 & -> & Hns & Hs & Hh & Hf & Hz).
  destruct (split_run sep l') as (w & r & -> & Hr). rewrite length_app, length_replicate, length_app in Hn.
  unfold splitpath. rewrite Hs, (component_end_finds sep w r Hr n (a + Z.of_nat k) b1 Hh) by lia.
  set (s := a + Z.of_nat k) in *. set (e := s + Z.of_nat (length w)) in *.
  rewrite components_seps. apply holds_app in Hh as [Hw Hhr]. fold e in Hhr.
  assert (forall b, (forall i, s <= i < e -> b i = b1 i) -> b e = 0 -> holds b s w) as Hword.
  { intros b Hbi Hbe. rewrite <- (app_nil_r w). apply holds_app. split; [|done].
    intros i c Hi. rewrite Hbi; [by apply Hw|]. apply lookup_lt_Some in Hi. unfold e. lia. }
  assert (components sep (w ++ r) = match w with [] => [] | _ => w :: match r with [] => [] | _ :: r => components sep r end end) as ->.
  { destruct w as [|c w]; [|by apply components_run]. destruct Hr as [_ [->|[x ->]]]; [done|by destruct (Hns x)]. }
  destruct Hr as [Hrw [->|[x ->]]].
  - cbn in Hhr. rewrite Hhr, (proj2 (Z.eqb_neq 0 sep)) by done.
    exists b1, e, s, w, []. split_and!; [done|by apply Hword|done|cbn; lia|lia|lia|intros; apply Hf; lia|done|].
    destruct w as [|c w]; [done|]. split_and!; [done|done|]. rewrite !length_app, length_replicate. cbn. lia.
  - assert (w <> []) as Hne by (intros ->; by destruct (Hns x)). cbn [holds] in Hhr. destruct Hhr as (He & _ & Hx).
    rewrite He, Z.eqb_refl. set (b2 := <[e := 0]> b1).
    assert (forall i, i <> e -> b2 i = b1 i) as Hb2 by (intros; by apply fn_lookup_insert_ne).
    assert (b2 e = 0) as Hb2e by apply fn_lookup_insert.
    assert (holds b2 (e + 1) x) as Hxx by (apply (holds_same _ _ b1); [done|]; intros i Hi; apply Hb2; lia).
    assert (holds b2 s w) as Hcomp by (apply Hword; [intros; apply Hb2; lia|done]).
    assert (forall i, i < a -> b2 i = buf i) as Hlow by (intros i Hi; rewrite Hb2 by lia; apply Hf; lia).
    assert (forall i, buf i = 0 -> b2 i = 0) as Hzero.
    { intros i Hi%Hz. destruct (decide (i = e)) as [->|]; [done|by rewrite Hb2]. }
    rewrite !length_app, length_replicate. cbn [length].
    destruct x as [|c x]; cbn [holds] in Hxx.
    + rewrite Hxx. exists b2, e, s, w, []. split_and!; [done..|cbn; lia|lia|lia|done|done|].
      destruct w; [done|]. split_and!; [done|done|cbn; lia].
    + destruct Hxx as (Hc & Hc0 & Hxx). rewrite Hc, (proj2 (Z.eqb_neq c 0)) by done.
      exists b2, (e + 1), s, w, (c :: x). split_and!; [done|done|by split_and!|cbn; lia|lia|lia|done|done|].
      destruct w; [done|]. split_and!; [done|done|cbn; lia].
Qed.

Lemma pieces_short sep l : forall p, p ∈ pieces sep l -> (length p <= length l)%nat.
Proof.
  induction l as [|x l IHl]; intros p Hin; cbn in Hin; [by apply list_elem_of_singleton in Hin as ->|].
  destruct (x =? sep); [apply elem_of_cons in Hin as [->|Hin%IHl]; cbn in *; lia|].
  destruct (pieces sep l) as [|q ps] eqn:Ep; [by apply pieces_nonempty in Ep|].
  apply elem_of_cons in Hin as [->|Hin].
  - specialize (IHl q ltac:(by left)). cbn in *. lia.
  - specialize (IHl p ltac:(by right)). cbn in *. lia.
Qed.
Lemma components_short sep l c : c ∈ components sep l -> (length c <= length l)%nat.
Proof. intros [_ Hin]%list_elem_of_filter. by apply (pieces_short sep). Qed.

(** The components that the loop keeps: all but ["."]. *)
Definition kept (l : list Z) : list (list Z) := filter (fun c => c <> VFS_STR_CURDIR) (components VFS_CHAR_SEP l).

Lemma split_components_keeps m : forall n l a buf, holds buf a l -> (length l < m)%nat -> (length l < n)%nat ->
  exists buf' cs, split_components n m buf a = Some (buf', cs) /\
    map (cstring m buf') cs = kept l /\ (forall i, i < a -> buf' i = buf i) /\ forall i, buf i = 0 -> buf' i = 0.
Proof.
  induction n as [|n IH]; intros l a buf Hb Hm Hn; [lia|]. cbn [split_components].
  destruct (splitpath_takes VFS_CHAR_SEP l m a buf) as (b1 & str & comp & w & l2 & -> & Hw & Hl2 & Hlen & Ha & Hstr & Hlow & Hz & Hc);
    [done|done|lia|].
  unfold kept. destruct (components VFS_CHAR_SEP l) as [|c cs] eqn:E.
  - subst w. cbn in Hw. rewrite Hw. exists b1, []. by split_and!.
  - destruct Hc as (-> & Hcs & Hlt).
    assert (c <> []) as Hne.
    { assert (c ∈ components VFS_CHAR_SEP l) as [? _]%list_elem_of_filter by (rewrite E; by left). done. }
    destruct c as [|c0 c]; [done|]. pose proof Hw as Hw0. cbn [holds] in Hw0. destruct Hw0 as (E0 & Hc0 & _).
    rewrite E0, (proj2 (Z.eqb_neq c0 0)) by done.
    destruct (IH l2 str b1 Hl2 ltac:(lia) ltac:(lia)) as (b2 & ds & -> & Hds & Hlow2 & Hz2).
    exists b2. eexists. split; [done|].
    assert (holds b2 comp (c0 :: c)) as Hw2.
    { rewrite <- (app_nil_r (c0 :: c)). apply holds_app. rewrite <- (app_nil_r (c0 :: c)) in Hw. apply holds_app in Hw as [H1 H2].
      split; [|by apply Hz2]. intros i x Hi. rewrite Hlow2; [by apply H1|]. apply lookup_lt_Some in Hi. lia. }
    assert (length (c0 :: c) < m)%nat as Hcm.
    { enough (length (c0 :: c) <= length l)%nat by lia. apply (components_short VFS_CHAR_SEP). rewrite E. by left. }
    rewrite (holds_cstring _ _ _ _ Hw Hcm).
    assert (map (cstring m b2) (if bool_decide (c0 :: c = VFS_STR_CURDIR) then ds else comp :: ds) =
      filter (fun c => c <> VFS_STR_CURDIR) ((c0 :: c) :: cs)) as Hmap.
    { unfold kept in Hds. rewrite Hcs in Hds. case_bool_decide as Ed.
      - rewrite filter_cons_False by tauto. done.
      - rewrite filter_cons_True by done. cbn [map]. by rewrite (holds_cstring _ _ _ _ Hw2 Hcm), Hds. }
    split_and!; [done| |by intros i Hi%Hz%Hz2].
    intros i Hi. rewrite Hlow2 by lia. by apply Hlow.
Qed.
