(* ===== verification/Vfs.v ===== *)
(** Names of files in the pager: path data ([conts/posix/mm0/fs/path.c]), name
    lookup ([fs/lookup.c], [fs/vfs.c]), the inodes, vnodes and directories of
    the memory file system ([fs/memfs/vnode.c], [fs/memfs/memfs.c]), its
    start-up ([fs/init.c]), and the system calls on paths of [mm/file.c].

    A vnode's [ops], [fops], [sb] and [inode] are set together, by
    [memfs_alloc_vnode]: a vnode without inode has none of them.  The head of a
    list of dentries is its first element. *)
From S2P Require Import Prelude Bits Defs Words Malloc Pools PageAlloc Memfs Vm Shadow Pagecache Paths.

(** [sizeof] of [struct pathdata], [pathcomp], [vnode], [dentry],
    [memfs_inode], [memfs_superblock], [memfs_dentry] and [dirent]. *)
Definition SIZEOF_PATHDATA := 12.
Definition SIZEOF_PATHCOMP := 12.
Definition SIZEOF_VNODE := 176.
Definition SIZEOF_DENTRY := 304.
Definition SIZEOF_MEMFS_INODE := 528.
Definition SIZEOF_MEMFS_SUPERBLOCK := 8584.
Definition SIZEOF_MEMFS_DENTRY := 43.
Definition SIZEOF_DIRENT := 267.
Definition DIRENT_NAME_MAX := 256.
Definition EEXIST := 17.
Definition ENODEV := 19.
Definition O_CREAT := 0x40.

(** [strncpy]: a longer string has no null. *)
Definition strncpy (n : Z) (l : list Z) : list Z := take (Z.to_nat n) l.
(** Bytes and little-endian words in memory. *)
Fixpoint put_bytes (l : list Z) (a : Z) (m : Z -> Z) : Z -> Z :=
  match l with [] => m | x :: l => put_bytes l (a + 1) (<[a := x]> m) end.
Definition le_bytes (n : nat) (x : Z) : list Z := map (fun i => Z.land (Z.shiftr x (8 * Z.of_nat i)) 0xFF) (seq 0 n).
Definition get_u32 (m : Z -> Z) (a : Z) : Z := m a + m (a + 1) * 2 ^ 8 + m (a + 2) * 2 ^ 16 + m (a + 3) * 2 ^ 24.
(** A name padded with nulls to [n] bytes. *)
Definition padded (n : Z) (l : list Z) : list Z := strncpy n l ++ replicate (Z.to_nat (n - Z.of_nat (length l))) 0.

(** [list] and [vstart]; a component with the address of its [pathcomp]. *)
Record pathdata := MkPathdata { pd_at : Z; pd_list : list (Z * list Z); vstart : Z }.
#[export] Instance pathdata_shape : Shape pathdata := fun p => MkPathdata (pd_at p) (pd_list p) (vstart p).
Record kstat := MkKstat {
  ks_vnum : Z; ks_mode : Z; ks_links : Z; ks_uid : Z; ks_gid : Z; ks_size : Z; ks_blksize : Z }.

Section Vfs.
Context {K : Type} `{kernel_abi K} `{layout}.
Abbreviation M := (prog (mm K)).

Definition vnode_at (v : Z) : M vnode := gets (fun s => vnodes (mfs s) v).
Definition dentry_at (d : Z) : M dentry := gets (fun s => dentries (mfs s) d).
Definition set_fs (f : memfs -> memfs) : M unit := modify (fun s => s <| mfs ::= f |>).

(** * [fs/path.c] *)

Definition pathdata_next_component (p : pathdata) : M (list Z * pathdata) :=
  match pd_list p with
  | [] => mret ([], p)
  | (c, str) :: l => kfree c ;; mret (str, p <| pd_list := l |>)
  end.
Definition pathdata_last_component (p : pathdata) : M (list Z * pathdata) :=
  match last (pd_list p) with
  | None => mret ([], p)
  | Some (c, str) => kfree c ;; mret (str, p <| pd_list := removelast (pd_list p) |>)
  end.
Fixpoint free_components (l : list (Z * list Z)) : M unit :=
  match l with [] => mret tt | (c, _) :: l => kfree c ;; free_components l end.
Definition pathdata_destroy (p : pathdata) : M unit := free_components (pd_list p) ;; kfree (pd_at p).

Fixpoint alloc_components (l : list (list Z)) : M (list (Z * list Z)) :=
  match l with
  | [] => mret []
  | str :: l => c ← kzalloc SIZEOF_PATHCOMP; r ← alloc_components l; mret ((c, str) :: r)
  end.
(** [kzalloc] writes through the null pointer of a refused request, so that the
    tests of its result have no effect.  The components are taken from the
    buffer before their [pathcomp]s are allocated; [pathname] is a string and
    [task] is given. *)
Definition pathdata_parse (pathname : list Z) (task : Z) : M pathdata :=
  pdata ← kzalloc SIZEOF_PATHDATA;
  let m := S (length pathname) in
  r ← or_bug (split_components m m (strcpy pathname (fun _ => 0) 0) 0) "pathdata_parse: fuel";
  let strs := map (cstring m r.1) r.2 in
  fs ← gets (fun s => fs_datas s (fs_data (tcbs s task)));
  if bool_decide (head pathname = Some VFS_CHAR_SEP) then
    l ← alloc_components (VFS_STR_ROOTDIR :: strs);
    mret (MkPathdata pdata l (rootdir fs))
  else
    dir ← vnode_at (curdir fs);
    d ← or_bug (head (vdentries dir)) "pathdata_parse: no dentry";
    name ← gets (fun s => d_name (dentries (mfs s) d));
    l ← alloc_components (name :: strs);
    mret (MkPathdata pdata l (curdir fs)).

(** * Vnodes and inodes ([include/vfs.h], [fs/memfs/vnode.c], [fs/memfs/memfs.c]) *)

Definition vfs_alloc_dentry : M Z :=
  d ← kzalloc SIZEOF_DENTRY; with_fs (dmod d (fun _ => MkDentry [] 0 [] 0)) ;; mret d.
Definition vfs_alloc_vnode : M Z :=
  v ← kzalloc SIZEOF_VNODE; with_fs (vmod v (fun _ => MkVnode 0 0 [] 0 0 0 0 0 0)) ;; mret v.
Definition vfs_free_vnode (v : Z) : M unit := bug "vfs_free_vnode".

(** The inodes of the first cache that has one. *)
Fixpoint alloc_inode_from (l : list (Z * mem_cache)) : option (option (Z * list (Z * mem_cache))) :=
  match l with
  | [] => Some None
  | (a, c) :: l =>
      if negb (mc_free c =? 0) then
        match mem_cache_alloc c with Some (i, c) => Some (Some (i, (a, c) :: l)) | None => None end
      else match alloc_inode_from l with
           | Some (Some (i, l)) => Some (Some (i, (a, c) :: l)) | Some None => Some None | None => None end
  end.
Definition zero_inode : inode := MkInode 0 0 0 0 (fun _ => 0).
Definition set_inode_caches (l : list (Z * mem_cache)) : F unit := modify (fun s => s <| inode_cache_list := l |>).
Definition memfs_alloc_inode : F Z :=
  l ← gets inode_cache_list;
  match alloc_inode_from l with
  | None => bug "mem_cache_alloc"
  | Some (Some (i, l)) =>
      set_inode_caches l ;;
      if i =? 0 then mret (PTR_ERR (- ENOSPC)) else imod i (fun _ => zero_inode) ;; mret i
  | Some None =>
      b ← memfs_alloc_block;
      if IS_ERR b then mret b
      else
        match mem_cache_init b MEMFS_BLOCK_SIZE SIZEOF_MEMFS_INODE false with
        | Some (Some c) =>
            match mem_cache_alloc c with
            | None => bug "mem_cache_alloc"
            | Some (i, c) =>
                set_inode_caches ((b, c) :: l) ;;
                if i =? 0 then mret (PTR_ERR (- ENOSPC)) else imod i (fun _ => zero_inode) ;; mret i
            end
        | _ => bug "memfs_alloc_inode: null cache"
        end
  end.
(** Block allocation is from a single cache: the first decides. *)
Definition memfs_free_block (block : Z) : F Z :=
  l ← gets block_cache_list;
  match l with
  | [] => mret (- EINVAL)
  | c :: l =>
      let '(err, c) := mem_cache_free c block in
      modify (fun s => s <| block_cache_list := c :: l |>) ;;
      mret (if err =? 0 then 0 else - EINVAL)
  end.
Fixpoint free_inode_from (i : Z) (l : list (Z * mem_cache)) : option (Z * mem_cache) * list (Z * mem_cache) :=
  match l with
  | [] => (None, [])
  | (a, c) :: l =>
      let '(err, c) := mem_cache_free c i in
      if err =? 0 then (Some (a, c), (a, c) :: l)
      else let '(r, l) := free_inode_from i l in (r, (a, c) :: l)
  end.
Definition memfs_free_inode (i : Z) : F Z :=
  l ← gets inode_cache_list;
  let '(r, l) := free_inode_from i l in
  set_inode_caches l ;;
  match r with
  | None => mret (- EINVAL)
  | Some (a, c) =>
      when (mem_cache_is_empty c)
        (set_inode_caches (filter (fun p => p.1 <> a) l) ;; memfs_free_block a ;; mret tt) ;;
      mret 0
  end.
(** Neither test of a failure can hold: a pointer and an unsigned number are
    never negative.  The error of [memfs_alloc_inode] is used as an inode, a wild
    write, and the number -1 of a full pool as an index, of the word before the
    table. *)
Definition memfs_create_inode : F Z :=
  i ← memfs_alloc_inode;
  bug_on (IS_ERR i) "memfs_create_inode: wild inode" ;;
  p ← gets ipool;
  let '(n, p) := id_new p in
  modify (fun s => s <| ipool := p |>) ;;
  imod i (fun x => x <| inum := u32 n |>) ;;
  modify (fun s => s <| inode_table ::= <[s32 (u32 n) := i]> |>) ;;
  mret i.
Definition memfs_destroy_inode (i : Z) : F Z :=
  n ← gets (fun s => inum (inodes s i));
  err ← memfs_free_inode i;
  if err <? 0 then mret (- EINVAL)
  else
    p ← gets ipool;
    let '(err, p) := id_del p (s32 n) in
    modify (fun s => s <| ipool := p |>) ;;
    if err <? 0 then mret (- EINVAL)
    else modify (fun s => s <| inode_table ::= <[s32 n := 0]> |>) ;; mret 0.
Definition memfs_alloc_vnode : M Z :=
  i ← with_fs memfs_create_inode;
  if IS_ERR i then mret i
  else
    v ← vfs_alloc_vnode;
    n ← gets (fun s => inum (inodes (mfs s) i));
    x ← gets (fun s => fsidx (mfs s));
    with_fs (vmod v (fun y => y <| v_inode := i |> <| vnum := Z.lor n x |>)) ;;
    mret v.
Definition memfs_free_vnode (v : Z) : M Z :=
  i ← gets (fun s => v_inode (vnodes (mfs s) v));
  bug_on (i =? 0) "memfs_free_vnode" ;;
  with_fs (memfs_destroy_inode i) ;;
  vfs_free_vnode v ;;
  mret 0.
(** The table has [MEMFS_TOTAL_INODES] elements. *)
Definition memfs_read_inode (v : Z) : F Z :=
  n ← gets (fun s => vnum (vnodes s v));
  bug_on (MEMFS_TOTAL_INODES <=? n) "memfs_read_inode: outside of the table" ;;
  i ← gets (fun s => inode_table s n);
  bug_on (i =? 0) "memfs_read_inode" ;;
  mret i.
Definition memfs_read_vnode (v : Z) : F Z :=
  i ← memfs_read_inode v;
  n ← gets (fun s => inodes s i);
  x ← gets fsidx;
  vmod v (fun y => y <| vnum := Z.lor (inum n) x |> <| v_size := i_size n |> <| mode := i_mode n |> <| vowner := i_owner n |>) ;;
  mret 0.
Definition vfs_vnode_lookup_byvnum (n : Z) : M Z :=
  l ← gets (fun s => vnode_cache (mfs s));
  m ← gets (fun s => vnodes (mfs s));
  match list_find (fun v => vnum (m v) = n) l with
  | Some (_, v) => mret v
  | None =>
      v ← vfs_alloc_vnode;
      with_fs (vmod v (fun y => y <| vnum := n |>)) ;;
      err ← with_fs (memfs_read_vnode v);
      if err <? 0 then vfs_free_vnode v ;; mret (PTR_ERR err)
      else set_fs (fun s => s <| vnode_cache ::= cons v |>) ;; mret v
  end.

(** * Directories ([fs/memfs/vnode.c]) *)

(** [BUG_ON(parent->vref.next != &v->dentries)], which an empty list passes. *)
Definition only_dentry (v : Z) : M Z :=
  l ← gets (fun s => vdentries (vnodes (mfs s) v));
  bug_on (Nat.ltb 1 (length l)) "parent->vref.next" ;;
  mret (default 0 (head l)).
Definition memfs_dentry_inum (buf : bytes) (i : Z) : Z := get_u32 buf (i * SIZEOF_MEMFS_DENTRY).
Definition memfs_dentry_name (buf : bytes) (i : Z) : list Z :=
  cstring (Z.to_nat MEMFS_DNAME_MAX) buf (i * SIZEOF_MEMFS_DENTRY + 11).
Fixpoint populate (n : nat) (parent : Z) (buf : bytes) (i : Z) : M Z :=
  match n with
  | O => mret 0
  | S n =>
      newd ← vfs_alloc_dentry;
      bug_on (parent =? 0) "memfs_vnode_readdir: no parent" ;;
      with_fs (dmod newd (fun d => d <| d_parent := parent |>)) ;;
      with_fs (dmod parent (fun d => d <| d_children ::= cons newd |>)) ;;
      newv ← vfs_vnode_lookup_byvnum (memfs_dentry_inum buf i);
      bug_on (IS_ERR newv || (newv =? 0)) "memfs_vnode_readdir: no vnode" ;;
      with_fs (dmod newd (fun d => d <| d_vnode := newv |> <| d_name := memfs_dentry_name buf i |>)) ;;
      with_fs (vmod newv (fun v => v <| vdentries ::= cons newd |> <| vlinks ::= Z.succ |>)) ;;
      set_fs (fun s => s <| dentry_cache ::= cons newd |> <| vnode_cache ::= cons newv |>) ;;
      populate n parent buf (i + 1)
  end.
(** A failed allocation leaves the error in [dirbuf], which later calls take
    for a buffer that was read.  The alignment of the buffer is tested in
    [memfs_file_read_write].  The count of bytes read is taken for an error. *)
Definition memfs_vnode_readdir (v : Z) : M Z :=
  x ← vnode_at v;
  bug_on (v_inode x =? 0) "null operation" ;;
  parent ← only_dentry v;
  bug_on (negb (vfs_isdir x)) "memfs_vnode_readdir: not a directory" ;;
  if negb (dirbuf x =? 0) then mret 0
  else
    b ← with_fs memfs_alloc_block;
    with_fs (vmod v (fun y => y <| dirbuf := b |>)) ;;
    if IS_ERR b then mret (s32 b)
    else
      with_fs (vmod v (fun y => y <| dirbuf_npages := 1 |>)) ;;
      bug_on (PAGE_SIZE <? v_size x) "memfs_vnode_readdir: size" ;;
      bug_on (negb (is_page_aligned b)) "memfs_file_read_write: buffer" ;;
      d ← gets (fun s => bdata (mfs s) b);
      r ← with_fs (memfs_file_read v 0 1 (fun _ => d));
      with_fs (bput b (r.2 0)) ;;
      if negb (r.1 =? 0) then mret r.1
      else populate (Z.to_nat (v_size x / SIZEOF_MEMFS_DENTRY)) parent (r.2 0) 0.
(** The bytes of the buffer, a null one not being read; [userbuf] as it was. *)
Definition memfs_vnode_filldir (userbuf : bytes) (v count : Z) : M (Z * bytes) :=
  size ← gets (fun s => v_size (vnodes (mfs s) v));
  let nbytes := if (count <? 0) || (size <=? count) then size else count in
  err ← memfs_vnode_readdir v;
  if err <? 0 then mret (err, userbuf)
  else
    x ← vnode_at v;
    if negb (dirbuf x =? 0) && (u32 nbytes <=? dirbuf_npages x * PAGE_SIZE) then
      bug_on (IS_ERR (dirbuf x)) "memfs_vnode_filldir: wild buffer" ;;
      d ← gets (fun s => bdata (mfs s) (dirbuf x));
      mret (nbytes, copy_bytes userbuf d 0 0 nbytes)
    else mret (0, userbuf).

(** [generic_dentry_compare]; a name of [VFS_DNAME_MAX] characters or more is
    not terminated. *)
Definition generic_dentry_compare (d : Z) (name : list Z) : M bool :=
  x ← dentry_at d;
  bug_on (VFS_DNAME_MAX <=? Z.of_nat (length (d_name x))) "strcmp: unterminated name" ;;
  mret (bool_decide (d_name x = name) || bool_decide (name = VFS_STR_CURDIR)).
Fixpoint any_match (l : list Z) (name : list Z) : M bool :=
  match l with
  | [] => mret false
  | d :: l => c ← generic_dentry_compare d name; if c : bool then mret true else any_match l name
  end.
Definition set_type (v type : Z) : F unit :=
  vmod v (fun x => x <| mode ::= fun m => Z.lor (Z.land m (lnot32 S_IFMT)) (Z.land S_IFMT type) |>).
(** [struct memfs_dentry]: inum, offset, rlength, type and name, packed; the
    type is left as it is. *)
Definition memfs_dentry_bytes (n offset : Z) (name : list Z) (old : bytes) : bytes :=
  put_bytes (padded (MEMFS_DNAME_MAX - 1) name ++ [0]) (offset + 11)
    (put_bytes (le_bytes 4 n ++ le_bytes 4 offset ++ le_bytes 2 SIZEOF_MEMFS_DENTRY) offset old).
(** The directory buffer [d] is written and the dentry made. *)
Definition mknod_links (v parent newv : Z) (dirname : list Z) (d : bytes) : M Z :=
  err ← with_fs (memfs_file_write v 0 1 (fun _ => d));
  if err <? 0 then mret (PTR_ERR err)
  else
    with_fs (vmod v (fun y => y <| v_size ::= Z.add SIZEOF_MEMFS_DENTRY |>)) ;;
    with_fs (memfs_write_vnode v) ;;
    newd ← vfs_alloc_dentry;
    with_fs (dmod newd (fun y => y <| d_parent := parent |> <| d_vnode := newv |>
                                   <| d_name := strncpy VFS_DNAME_MAX dirname |>)) ;;
    with_fs (vmod newv (fun y => y <| vdentries ::= cons newd |>)) ;;
    with_fs (dmod parent (fun y => y <| d_children ::= cons newd |>)) ;;
    set_fs (fun s => s <| dentry_cache ::= cons newd |> <| vnode_cache ::= cons newv |>) ;;
    mret newv.
(** From the allocation of the vnode on.  A record that runs out of the
    directory's page into what follows it in memory is a [Bug] of its own. *)
Definition mknod_entry (v parent : Z) (dirname : list Z) (mode_ : Z) : M Z :=
  newv ← memfs_alloc_vnode;
  if IS_ERR newv then mret newv
  else
    with_fs (set_type newv mode_) ;;
    x ← vnode_at v;
    if dirbuf_npages x * PAGE_SIZE <=? v_size x then mret (PTR_ERR (- ENOSPC))
    else
      bug_on (IS_ERR (dirbuf x)) "memfs_vnode_mknod: wild buffer" ;;
      n ← gets (fun s => inum (inodes (mfs s) (v_inode (vnodes (mfs s) newv))));
      d ← gets (fun s => bdata (mfs s) (dirbuf x));
      let d := memfs_dentry_bytes n (v_size x) dirname d in
      bug_on (PAGE_SIZE <? v_size x + SIZEOF_MEMFS_DENTRY) "memfs_vnode_mknod: record outside of the buffer" ;;
      with_fs (bput (dirbuf x) d) ;;
      bug_on (negb (is_page_aligned (dirbuf x))) "memfs_file_read_write: buffer" ;;
      mknod_links v parent newv dirname d.
Definition memfs_vnode_mknod (v : Z) (dirname : list Z) (mode_ : Z) : M Z :=
  x ← vnode_at v;
  bug_on (bool_decide (vdentries x = [])) "memfs_vnode_mknod: no dentry" ;;
  parent ← only_dentry v;
  bug_on (negb (vfs_isdir x)) "memfs_vnode_mknod: not a directory" ;;
  err ← memfs_vnode_readdir v;
  if err <? 0 then mret (PTR_ERR err)
  else
    p ← dentry_at parent;
    exists_ ← any_match (d_children p) dirname;
    if exists_ : bool then mret (PTR_ERR (- EEXIST)) else mknod_entry v parent dirname mode_.

(** * Lookup ([fs/lookup.c], [fs/vfs.c]) *)

(** The children [l] in turn, all for the same component; what is left of the
    path is what the last search left. *)
Fixpoint lookup_children (lookup : Z -> pathdata -> list Z -> M (Z * pathdata)) (l : list Z) (p : pathdata)
    (component : list Z) : M (Z * pathdata) :=
  match l with
  | [] => mret (PTR_ERR (- ENOENT), p)
  | c :: l =>
      v ← gets (fun s => d_vnode (dentries (mfs s) c));
      r ← lookup v p component;
      if IS_ERR r.1 && (s32 r.1 =? - ENOENT) then lookup_children lookup l r.2 component else mret r
  end.
Definition lookup_dentry_children (lookup : Z -> pathdata -> list Z -> M (Z * pathdata)) (d : Z) (p : pathdata)
    : M (Z * pathdata) :=
  c ← pathdata_next_component p;
  l ← gets (fun s => d_children (dentries (mfs s) d));
  lookup_children lookup l c.2 c.1.
(** The names [l] of [thisnode]. *)
Fixpoint lookup_names (lookup : Z -> pathdata -> list Z -> M (Z * pathdata)) (thisnode : Z) (l : list Z) (p : pathdata)
    (component : list Z) : M (Z * pathdata) :=
  match l with
  | [] => mret (PTR_ERR (- ENOENT), p)
  | d :: l =>
      c ← generic_dentry_compare d component;
      if negb c then lookup_names lookup thisnode l p component
      else
        x ← vnode_at thisnode;
        if vfs_isdir x then
          if bool_decide (pd_list p = []) then mret (thisnode, p)
          else
            dv ← gets (fun s => d_vnode (dentries (mfs s) d));
            err ← memfs_vnode_readdir dv;
            if err <? 0 then mret (PTR_ERR err, p)
            else
              r ← lookup_dentry_children lookup d p;
              if negb (r.1 =? 0) then mret r else lookup_names lookup thisnode l r.2 component
        else if bool_decide (pd_list p = []) then mret (thisnode, p) else mret (PTR_ERR (- ENOTDIR), p)
  end.
(** Each level takes a component of the path. *)
Fixpoint generic_vnode_lookup (n : nat) (thisnode : Z) (p : pathdata) (component : list Z) : M (Z * pathdata) :=
  match n with
  | O => out_of_fuel
  | S n =>
      x ← vnode_at thisnode;
      bug_on (v_inode x =? 0) "null operation" ;;
      lookup_names (generic_vnode_lookup n) thisnode (vdentries x) p component
  end.
Definition vfs_vnode_lookup_bypath (p : pathdata) : M (Z * pathdata) :=
  bug_on (bool_decide (pd_list p = [])) "vfs_vnode_lookup_bypath" ;;
  c ← pathdata_next_component p;
  generic_vnode_lookup (S (length (pd_list p))) (vstart p) c.2 c.1.

(** * Start-up ([fs/memfs/memfs.c], [fs/init.c], [fs/vfs.c]) *)

(** [memfs_format_filesystem] and [memfs_init_caches] of the buffer at [sb]. *)
Definition memfs_format_filesystem (sb : Z) : F unit :=
  match mem_cache_init (u32 (sb + SIZEOF_MEMFS_SUPERBLOCK)) (MEMFS_TOTAL_SIZE - SIZEOF_MEMFS_SUPERBLOCK) MEMFS_BLOCK_SIZE true with
  | Some (Some c) =>
      match mem_cache_alloc c with
      | Some (b, c) =>
          match mem_cache_init b MEMFS_BLOCK_SIZE SIZEOF_MEMFS_INODE false with
          | Some (Some i) =>
              modify (fun s => s <| ipool := id_pool_new_init MEMFS_TOTAL_INODES |> <| inode_table := fun _ => 0 |>
                <| block_cache_list := [c] |> <| inode_cache_list := [(b, i)] |> <| root_vnum := 0 |>)
          | _ => bug "memfs_init_caches: null cache"
          end
      | None => bug "mem_cache_alloc"
      end
  | _ => bug "memfs_init_caches: null cache"
  end.
Definition memfs_init_rootdir : M Z :=
  v ← memfs_alloc_vnode;
  bug_on (IS_ERR v) "memfs_init_rootdir: wild vnode" ;;
  n ← gets (fun s => vnum (vnodes (mfs s) v));
  set_fs (fun s => s <| sb_root := v |> <| root_vnum := n |>) ;;
  bug_on (n =? 0) "memfs_init_rootdir" ;;
  with_fs (set_type v S_IFDIR) ;;
  d ← vfs_alloc_dentry;
  with_fs (dmod d (fun _ => MkDentry VFS_STR_ROOTDIR d [] v)) ;;
  with_fs (vmod v (fun x => x <| vdentries ::= cons d |>)) ;;
  set_fs (fun s => s <| dentry_cache ::= cons d |> <| vnode_cache ::= cons v |>) ;;
  mret 0.
(** [memfs_get_superblock] of a block that was formatted: the first index of
    file systems is wasted, so that vnode numbers are never 0. *)
Definition VFS_FSIDX_SIZE := 16.
Definition SIZEOF_SUPERBLOCK := 40.
Definition memfs_get_superblock : M unit :=
  kzalloc SIZEOF_SUPERBLOCK ;;
  let '(_, p) := id_new (id_pool_new_init VFS_FSIDX_SIZE) in
  let '(i, p) := id_new p in
  set_fs (fun s => s <| fsidx := u32 (Z.shiftl i VFS_FSIDX_SHIFT) |>) ;;
  memfs_init_rootdir ;; mret tt.
Definition vfs_mount_root : M Z :=
  i ← gets (fun s => fsidx (mfs s));
  v ← vfs_vnode_lookup_byvnum (Z.lor i 0);
  set_fs (fun s => s <| pivot := v |>) ;;
  mret 0.
(** [rootdev_blocks] is what [vfs_rootdev_open] returns. *)
Definition vfs_init (rootdev_blocks : Z) : M Z :=
  with_fs (memfs_format_filesystem rootdev_blocks) ;;
  memfs_get_superblock ;;
  vfs_mount_root ;;
  mret 0.

(** * System calls ([mm/file.c]) *)

Definition vfs_vnode_create (task : Z) (p : pathdata) (mode_ : Z) : M (Z * pathdata) :=
  c ← pathdata_last_component p;
  r ← vfs_vnode_lookup_bypath c.2;
  if IS_ERR r.1 then mret r
  else
    dir ← gets (fun s => vfs_isdir (vnodes (mfs s) r.1));
    if negb dir then mret (PTR_ERR (- ENOENT), r.2)
    else newnode ← memfs_vnode_mknod r.1 c.1 mode_; mret (newnode, r.2).
Definition sys_mkdir (task : Z) (pathname : list Z) (mode_ : Z) : M Z :=
  p ← pathdata_parse pathname task;
  r ← vfs_vnode_create task p (Z.lor mode_ S_IFDIR);
  pathdata_destroy r.2 ;;
  mret (if IS_ERR r.1 then s32 r.1 else 0).
Definition sys_chdir (task : Z) (pathname : list Z) : M Z :=
  p ← pathdata_parse pathname task;
  r ← vfs_vnode_lookup_bypath p;
  ret ← (if IS_ERR r.1 then mret (s32 r.1)
         else
           dir ← gets (fun s => vfs_isdir (vnodes (mfs s) r.1));
           if negb dir then mret (- ENOTDIR)
           else
             h ← gets (fun s => fs_data (tcbs s task));
             modify (fun s => s <| fs_datas ::= fun m => <[h := m h <| curdir := r.1 |>]> m |>) ;;
             mret 0);
  pathdata_destroy r.2 ;;
  mret ret.
Definition fill_kstat (v : Z) : M kstat :=
  x ← vnode_at v;
  mret (MkKstat (vnum x) (mode x) (vlinks x) (Z.land (vowner x) 0xFFFF) (Z.land (Z.shiftr (vowner x) 16) 0xFFFF)
          (v_size x) MEMFS_BLOCK_SIZE).
Definition sys_fstat (task fdn : Z) : M (Z * option kstat) :=
  if bad_fd fdn then mret (- EBADF, None)
  else
    d ← get_fd task fdn;
    if vmfile d =? 0 then mret (- EBADF, None)
    else f ← file (vmfile d); k ← fill_kstat (fvnode f); mret (0, Some k).
Definition sys_stat (task : Z) (pathname : list Z) : M (Z * option kstat) :=
  p ← pathdata_parse pathname task;
  r ← vfs_vnode_lookup_bypath p;
  ret ← (if IS_ERR r.1 then mret (s32 r.1, None) else k ← fill_kstat r.1; mret (0, Some k));
  pathdata_destroy r.2 ;;
  mret ret.
Definition sys_open (task : Z) (pathname : list Z) (flags mode_ : Z) : M Z :=
  p ← pathdata_parse pathname task;
  r ← (if flag_set flags O_CREAT then vfs_vnode_create task p (Z.lor mode_ S_IFREG) else vfs_vnode_lookup_bypath p);
  ret ← (if IS_ERR r.1 then mret (s32 r.1) else sys_open_vnode task r.1);
  pathdata_destroy r.2 ;;
  mret ret.
(** [struct dirent]; type and padding are left as they are. *)
Definition fill_dirent (buf : bytes) (at_ n offset : Z) (name : list Z) : bytes :=
  put_bytes (padded DIRENT_NAME_MAX name) (at_ + 11)
    (put_bytes (le_bytes 4 n ++ le_bytes 4 offset ++ le_bytes 2 SIZEOF_DIRENT) at_ buf).
(** [vmfile] is dereferenced whether or not there is one: the vnode of a
    closed descriptor is read from the first page of memory. *)
Definition sys_readdir (task fdn count : Z) (buf : bytes) : M (Z * bytes) :=
  if bad_fd fdn then mret (- EBADF, buf)
  else
    d ← get_fd task fdn;
    bug_on (vmfile d =? 0) "sys_readdir: null file" ;;
    f ← file (vmfile d);
    if fvnode f =? 0 then mret (- EBADF, buf)
    else
      x ← vnode_at (fvnode f);
      if negb (vfs_isdir x) then mret (- ENOTDIR, buf)
      else if count <? SIZEOF_DIRENT then mret (0, buf)
      else
        let buf := fill_dirent buf 0 (vnum x) 0 VFS_STR_CURDIR in
        if count - SIZEOF_DIRENT <? SIZEOF_DIRENT then mret (0, buf)
        else
          d ← or_bug (head (vdentries x)) "sys_readdir: no dentry";
          n ← gets (fun s => vnum (vnodes (mfs s) (d_vnode (dentries (mfs s) (d_parent (dentries (mfs s) d))))));
          let buf := fill_dirent buf SIZEOF_DIRENT n SIZEOF_DIRENT VFS_STR_PARDIR in
          r ← memfs_vnode_filldir (fun i => buf (2 * SIZEOF_DIRENT + i)) (fvnode f) (count - 2 * SIZEOF_DIRENT);
          if r.1 <? 0 then mret (r.1, buf)
          else mret (2 * SIZEOF_DIRENT + r.1, fun i => if i <? 2 * SIZEOF_DIRENT then buf i else r.2 (i - 2 * SIZEOF_DIRENT)).
End Vfs.
