(* ===== verification/Mmdemo.v ===== *)
(** A concrete pager: a kernel with page tables only, an empty pager, two tasks
    and a file, on which the theorems about the pager's memory are tried. *)
From S2P Require Import Prelude Bits Defs Words Malloc Pools PageAlloc Memfs Vm Shadow Pagecache Mmap Shm Forking.

(** Page tables: thread and virtual page to physical address and flags. *)
Definition ptab := Z -> Z -> option (Z * Z).
Fixpoint map_n (n : nat) (phys vpn flags t : Z) (k : ptab) : ptab :=
  match n with O => k | S n => map_n n (phys + PAGE_SIZE) (vpn + 1) flags t (<[t := <[vpn := Some (phys, flags)]> (k t)]> k) end.
Fixpoint unmap_n (n : nat) (vpn t : Z) (k : ptab) : Z * ptab :=
  match n with
  | O => (0, k)
  | S n =>
      let '(r, k') := unmap_n n (vpn + 1) t (<[t := <[vpn := None]> (k t)]> k) in
      (match k t vpn with None => - ENOMAP | Some _ => r end, k')
  end.
#[export] Instance demo_kernel : kernel_abi ptab := {
  sys_map phys virt n flags t k := (0, map_n (Z.to_nat n) phys (__pfn virt) flags t k);
  sys_unmap virt n t k := unmap_n (Z.to_nat n) (__pfn virt) t k;
  sys_thread_control _ ids k := (0, ids, k);
  sys_exchange_registers _ _ k := (0, k) }.
#[export] Instance demo_layout : layout := {
  membank_start := 0x100000; pager_virtual_start := 0x40000000; heap_array := 4096; self_tid := 1;
  task_pfns := (0x10000, 0x20000); utcb_pfns := (0x30000, 0x30100); shmem_pfns := (0x40000, 0x40100) }.

Definition nowhere : page := MkPage (-1) 0 0 0 0 0.
(** A file system without files. *)
Definition no_vnode : vnode := MkVnode 0 0 [] 0 0 0 0 0 0.
Definition memfs_none : memfs := MkMemfs
  (fun _ => no_vnode) (fun _ => MkDentry [] 0 [] 0) (fun _ => MkInode 0 0 0 0 (fun _ => 0)) [] []
  (fun _ => 0) (id_pool_new_init MEMFS_TOTAL_INODES) [] [] (fun _ => zero_page) 0x10000000 0 0 0.
Definition mm_empty : mm ptab := MkMm
  unborn (demo_allocator 10 166) memfs_none
  (fun _ _ => None) (fun _ => nowhere) (fun _ => zero_page)
  (fun _ => vm_object_init) (fun _ => MkFile 0 0 0 no_destructor 0 0) (fun _ => MkLink 0 0) (fun _ => MkVma [] 0 0 0 0)
  (MkGlobal 0 []) (MkGlobal 0 []) (MkGlobal 0 []) (id_pool_new_init SHM_AREA_MAX) (address_pool_init 0x40000000 0x40100000)
  (fun _ => MkShm 0 0 0 0) (address_pool_init 0x30000000 0x30100000)
  (address_pool_init_with_idpool (MkPool 2048 65536 (replicate 2048 0)) 0x40131000 0x40331000)
  (fun t => MkTcb t 0x10000000 0x20000000 0x10000000 0x20000000 (100 + t) (200 + t) (300 + t) (400 + t) 0 t t 1 0
              0 [] 0 0 (MkSegs 0 0 0 0 0 0 0 0 0 0 0 0))
  (fun _ => MkVmas [] 1) (fun _ => MkFds (fun _ => MkFd 0 0) (id_pool_new_init TASK_FILES_MAX) 1 0)
  (fun _ => MkFs 0 0 1) (fun _ => MkUtcbs [] 1) (fun _ => MkDesc 0 (id_pool_new_init 16)).

(** A store of a task to one byte: the page is brought in for writing. *)
Definition store (task addr v : Z) : prog (mm ptab) unit :=
  p ← task_prefault_page task addr (Z.lor VM_READ VM_WRITE);
  match p with
  | Page p => d ← gets (fun s => pdata s p); put_data p (<[Z.land addr PAGE_MASK := v]> d)
  | PageErr _ => bug "store"
  end.
Definition load (task addr : Z) : prog (mm ptab) Z :=
  p ← task_prefault_page task addr VM_READ;
  match p with
  | Page p => d ← gets (fun s => pdata s p); mret (d (Z.land addr PAGE_MASK))
  | PageErr _ => bug "load"
  end.
Definition rw : Z := Z.lor (Z.lor VM_READ VM_WRITE) (Z.lor VMA_PRIVATE VMA_ANONYMOUS).
(** What a program returns when it runs from the empty pager. *)
Definition result {A} (m : prog (mm ptab) A) : option A := match m mm_empty with Ret a _ => Some a | _ => None end.
(** The state it ends in. *)
Definition after {A} (m : prog (mm ptab) A) (s : mm ptab) : mm ptab := match m s with Ret _ s' => s' | _ => s end.
Definition returned {A} (o : outcome (mm ptab) A) : option A := match o with Ret a _ => Some a | _ => None end.
Lemma returned_after {A} (m : prog (mm ptab) A) s a : returned (m s) = Some a -> m s = Ret a (after m s).
Proof. unfold after. destruct (m s); cbn; [by intros [= ->]|done..]. Qed.
Lemma after_ret {A} (m : prog (mm ptab) A) s a s' : m s = Ret a s' -> after m s = s'.
Proof. unfold after. by intros ->. Qed.
