(* ===== verification/Cow.v ===== *)
(** Copy-on-write preserves what tasks see: theorems about [copy_on_write] of
    [conts/posix/mm0/mm/fault.c]. *)
From S2P Require Import Prelude Bits Defs Words Malloc Pools PageAlloc Memfs Vm Shadow Pagecache Mmap Shm Forking Mmdemo.

(** * Ordered insertion into a page cache *)

Lemma find_in_ext m m' off l : (forall q, q ∈ l -> offset (m q) = offset (m' q)) -> find_in m off l = find_in m' off l.
Proof.
  induction l as [|q l IH]; intros E; cbn; [done|]. rewrite (E q) by by left.
  rewrite IH; [done|]. intros x Hx. apply E. by right.
Qed.
Lemma find_in_None m off l : find_in m off l = None <-> forall q, q ∈ l -> offset (m q) <> off.
Proof.
  induction l as [|q l IH]; cbn; [split; [by intros _ x Hx%elem_of_nil|done]|].
  destruct (Z.eqb_spec (offset (m q)) off) as [E|E].
  - split; [done|]. intros Hall. exfalso. apply (Hall q); [by left|done].
  - rewrite IH. split; [|intros Hall x Hx; apply Hall; by right].
    by intros Hall x [->|Hx]%elem_of_cons; [|apply Hall].
Qed.
Lemma find_in_Some m off l p : find_in m off l = Some p -> p ∈ l /\ offset (m p) = off.
Proof.
  induction l as [|q l IH]; cbn; [done|]. destruct (Z.eqb_spec (offset (m q)) off) as [E|E].
  - intros [= ->]. by split; [left|].
  - intros H. destruct (IH H). by split; [right|].
Qed.
Lemma find_in_app m off l1 l2 : find_in m off (l1 ++ l2) = match find_in m off l1 with Some p => Some p | None => find_in m off l2 end.
Proof. induction l1 as [|q l1 IH]; cbn; [done|]. by destruct (offset (m q) =? off). Qed.

Lemma olist_at_cons m this b a l : olist_at m this (b :: a :: l) =
  if (offset (m b) <? offset (m this)) && (offset (m this) <? offset (m a)) then Some (b :: this :: a :: l)
  else if (offset (m this) =? offset (m b)) || (offset (m this) =? offset (m a)) then None
  else cons b <$> olist_at m this (a :: l).
Proof. done. Qed.
(** An insertion goes somewhere, unless the offset is taken. *)
Lemma olist_at_inserts m this l : l <> [] -> find_in m (offset (m this)) l = None ->
  exists l1 l2, l = l1 ++ l2 /\ olist_at m this l = Some (l1 ++ this :: l2).
Proof.
  intros Hne Hno. pose proof (proj1 (find_in_None _ _ _) Hno) as Hd. clear Hno.
  induction l as [|b l IH]; [done|]. clear Hne.
  assert (offset (m b) <> offset (m this)) as Hb by (apply Hd; by left).
  destruct l as [|a l]; [cbn [olist_at]|rewrite olist_at_cons].
  - destruct (Z.ltb_spec (offset (m b)) (offset (m this))); [by exists [b], []|].
    destruct (Z.ltb_spec (offset (m this)) (offset (m b))); [by exists [], [b]|lia].
  - destruct ((offset (m b) <? offset (m this)) && (offset (m this) <? offset (m a))); [by exists [b], (a :: l)|].
    assert (offset (m a) <> offset (m this)) as Ha by (apply Hd; right; by left).
    destruct (Z.eqb_spec (offset (m this)) (offset (m b))); [lia|].
    destruct (Z.eqb_spec (offset (m this)) (offset (m a))); [lia|]. cbn [orb].
    destruct IH as (l1 & l2 & El & ->); [done| |].
    + intros q Hq. apply Hd. by right.
    + exists (b :: l1), l2. cbn. by rewrite El.
Qed.

Section Cow.
Context {K : Type} `{kernel_abi K} `{layout}.
Abbreviation St := (mm K).

(** * What an object holds and what an area shows *)

(** The page an object has for an offset, without going to the file system. *)
Definition has_page (s : St) (o off : Z) : option Z :=
  match pager (objs s o) with
  | swap_pager | file_pager => find_in (pages s) off (page_cache (objs s o))
  | devzero_pager =>
      let f := vm_files s (vm_object_to_file o) in
      if flag_set (ftype f) VM_FILE_DEVZERO && (0 <=? refcnt (pages s (private_file_data f))) then Some (private_file_data f) else None
  | no_pager => None
  end.
(** The first page down a list of links; the objects passed over are shadows. *)
Fixpoint located (s : St) (l : list Z) (off : Z) : option (Z * Z) :=
  match l with
  | [] => None
  | k :: l =>
      match has_page s (lobj (links s k)) off with
      | Some p => Some (p, k)
      | None => match pager (objs s (lobj (links s k))) with swap_pager => located s l off | _ => None end
      end
  end.
Lemma located_cons (s : St) k l off : located s (k :: l) off =
  match has_page s (lobj (links s k)) off with
  | Some p => Some (p, k)
  | None => match pager (objs s (lobj (links s k))) with swap_pager => located s l off | _ => None end
  end.
Proof. done. Qed.
Definition content (s : St) (o off : Z) : option bytes := pdata s <$> has_page s o off.
(** The bytes of page [off] of an area's file, as its task sees them. *)
Definition view (s : St) (vma off : Z) : option bytes := (fun x => pdata s x.1) <$> located s (vm_obj_list (areas s vma)) off.

(** Pages that differ in their reference counts only, and not in the sign of these. *)
Definition recount (m m' : Z -> page) : Prop :=
  forall q, m' q = m q <| refcnt := refcnt (m' q) |> /\ (0 <=? refcnt (m' q)) = (0 <=? refcnt (m q)).
Lemma recount_refl m : recount m m.
Proof. intros q. by destruct (m q). Qed.

Lemma page_in_has (s : St) o off p : has_page s o off = Some p ->
  exists m, page_in o off s = Ret (Page p) (s <| pages := m |>) /\ recount (pages s) m.
Proof.
  unfold has_page, page_in. vrun. destruct (pager (objs s o)) eqn:Ep; [done|..].
  - intros E. exists (pages s). split; [|apply recount_refl].
    unfold file_page_in, beyond_file. vrun.
    assert (forall b : bool, __pfn (if b then 1 else 0) = 0) as -> by by intros [].
    cbn. rewrite E. by destruct s.
  - unfold devzero_page_in. vrun. destruct (flag_set _ _); [|done]. cbn [negb andb].
    destruct (Z.leb_spec 0 (refcnt (pages s (private_file_data (vm_files s (vm_object_to_file o)))))); [|done].
    intros [= <-]. cbn [obind]. rewrite (proj2 (Z.ltb_ge _ _)) by done.
    eexists. split; [done|]. intros q. destruct (decide (q = private_file_data (vm_files s (vm_object_to_file o)))) as [->|Hq].
    + rewrite fn_lookup_insert. split; [by destruct (pages s _)|]. cbn. apply eq_true_iff_eq. rewrite !Z.leb_le. lia.
    + rewrite fn_lookup_insert_ne by done. by destruct (pages s q).
  - intros E. exists (pages s). split; [|apply recount_refl].
    unfold swap_page_in. vrun. rewrite E. by destruct s.
Qed.

Lemma page_in_lacks (s : St) o off : pager (objs s o) = swap_pager -> has_page s o off = None ->
  page_in o off s = Ret (PageErr (- EINVAL)) s.
Proof. unfold has_page, page_in. intros Ep. vrun. rewrite Ep. intros E. unfold swap_page_in. vrun. by rewrite E. Qed.

(** * The search down the links *)

Lemma next_of_app pre k l : k ∉ pre -> next_of k (pre ++ k :: l) = head l.
Proof.
  intros Hk. induction pre as [|x pre IH]; cbn; [by rewrite Z.eqb_refl|].
  apply not_elem_of_cons in Hk as [Hx Hk]. rewrite (proj2 (Z.eqb_neq _ _)) by done. by apply IH.
Qed.
Lemma search_links_finds l : forall (s : St) n vma pre k off r, vm_obj_list (areas s vma) = pre ++ k :: l ->
  NoDup (pre ++ k :: l) -> (List.length l <= n)%nat -> located s (k :: l) off = Some r ->
  exists m, search_links n vma k off s = Ret r (s <| pages := m |>) /\ recount (pages s) m.
Proof.
  induction l as [|k' l IH]; intros s n vma pre k off r El Hd Hn Hloc; cbn [located] in Hloc;
    destruct n as [|n]; try (cbn in Hn; lia); cbn [search_links]; vrun;
    destruct (has_page s (lobj (links s k)) off) as [p|] eqn:Eh.
  1, 3, 5: injection Hloc as <-; destruct (page_in_has _ _ _ _ Eh) as (m & -> & Hm); exists m; done.
  1, 2: by destruct (pager _).
  destruct (pager (objs s (lobj (links s k)))) eqn:Ep; try done.
  rewrite (page_in_lacks _ _ _ Ep Eh). unfold vma_next_link. vrun. rewrite El.
  rewrite next_of_app by (apply NoDup_app in Hd as (_ & Hdj & _); intros Hk; apply (Hdj k Hk); by left). cbn [head].
  apply (IH s n vma (pre ++ [k]) k' off r); rewrite <- ?app_assoc; [done..|cbn in Hn; lia|done].
Qed.
Lemma search_page_finds (s : St) vma pre k l off r : vm_obj_list (areas s vma) = pre ++ k :: l ->
  NoDup (pre ++ k :: l) -> located s (k :: l) off = Some r ->
  exists m, search_page vma k off s = Ret r (s <| pages := m |>) /\ recount (pages s) m.
Proof.
  intros El Hd Hr. unfold search_page. vrun. eapply search_links_finds; [done..| |done].
  rewrite El, length_app. cbn. lia.
Qed.

(** * The copy *)

Lemma insert_page_olist_inserts (s : St) this o : find_in (pages s) (offset (pages s this)) (page_cache (objs s o)) = None ->
  exists l1 l2, page_cache (objs s o) = l1 ++ l2 /\
    insert_page_olist this o s = Ret tt (s <| objs ::= fun m => <[o := m o <| page_cache := l1 ++ this :: l2 |>]> m |>
                                           <| pages ::= fun m => <[this := m this <| page_of := o |>]> m |>).
Proof.
  intros Hno. unfold insert_page_olist. vrun. case_bool_decide as El.
  - exists [], []. by rewrite El.
  - destruct (olist_at_inserts _ _ _ El Hno) as (l1 & l2 & E & ->). by exists l1, l2.
Qed.

(** The state after page [n] of the allocator got the bytes of page [p] and
    was put, as page [off], in the cache of object [sh]. *)
Definition copied_page (s : St) (pa : page_allocator) (m : Z -> page) (n p sh off : Z) (l : list Z) : St :=
  s <| pages := m |> <| mpages := pa |> <| pdata ::= fun d => <[n := d p]> d |>
    <| pages ::= fun m => <[n := m n <| refcnt := 0 |> <| owner := sh |> <| offset := off |> <| virtual := 0 |>]> m |>
    <| objs ::= fun m => <[sh := m sh <| page_cache := l |>]> m |>
    <| pages ::= fun m => <[n := m n <| page_of := sh |>]> m |>
    <| objs ::= fun m => <[sh := m sh <| npages ::= Z.succ |>]> m |>.
Definition droppable (s : St) (shared : bool) (sh : Z) (next : option Z) : bool :=
  match next with
  | Some k => negb shared && (npages (objs s sh) + 1 =? npages (objs s (lobj (links s k)))) && flag_set (oflags (objs s (lobj (links s k)))) VM_OBJ_SHADOW
  | None => negb shared
  end.
Lemma copy_into_shadow_copies (s : St) vma off k0 pre k l p kp paddr pa :
  vm_obj_list (areas s vma) = pre ++ k :: l -> NoDup (pre ++ k :: l) ->
  located s (k :: l) off = Some (p, kp) ->
  PageAlloc.alloc_page membank_start pager_virtual_start 1 (mpages s) = Ret paddr pa -> paddr <> 0 ->
  page_of (pages s (phys_to_page paddr)) = 0 ->
  let sh := lobj (links s k0) in
  find_in (pages s) off (page_cache (objs s sh)) = None -> phys_to_page paddr ∉ page_cache (objs s sh) ->
  droppable s (flag_set (vflags (areas s vma)) VMA_SHARED) sh (next_of k0 (pre ++ k :: l)) = false ->
  (forall b, next_of k0 (pre ++ k :: l) = Some b -> lobj (links s b) <> sh) ->
  exists m l1 l2, recount (pages s) m /\ page_cache (objs s sh) = l1 ++ l2 /\
    copy_into_shadow vma off k0 k s =
      Ret (Page (phys_to_page paddr)) (copied_page s pa m (phys_to_page paddr) p sh off (l1 ++ phys_to_page paddr :: l2)).
Proof.
  intros El Hd Hloc Hal Hnz Hof sh Hno Hn Hdrop Hne. set (n := phys_to_page paddr) in *.
  destruct (search_page_finds s vma pre k l off _ El Hd Hloc) as (m & Hs & Hm).
  unfold copy_into_shadow. rewrite (run_bind _ _ _ _ _ Hs). unfold copy_to_new_page, alloc_page, with_pages. vrun.
  change (mpages (s <| pages := m |>)) with (mpages s). rewrite Hal. vrun.
  rewrite (proj2 (Z.eqb_neq paddr 0)) by done. cbn [obind fst].
  match goal with |- context [page_of (pages ?x _)] => set (s1 := x) end.
  assert (page_of (pages s1 n) = 0) as E1 by (change (page_of (m n) = 0); by rewrite (proj1 (Hm n))).
  fold n. rewrite E1. change (negb (0 =? 0)) with false. cbn [obind].
  change (lobj (links s1 k0)) with sh.
  match goal with |- context [insert_page_olist n sh ?x] => set (s2 := x) end.
  assert (pages s2 n = MkPage 0 0 sh 0 (pflags (m n)) off) as E2.
  { change (pages s2) with (<[n := m n <| refcnt := 0 |> <| owner := sh |> <| offset := off |> <| virtual := 0 |>]> m).
    rewrite fn_lookup_insert. unfold set_field. cbn. f_equal. exact E1. }
  assert (forall q, q <> n -> pages s2 q = m q) as E2'.
  { intros q Hq. change (pages s2) with (<[n := m n <| refcnt := 0 |> <| owner := sh |> <| offset := off |> <| virtual := 0 |>]> m).
    by rewrite fn_lookup_insert_ne. }
  assert (find_in (pages s2) (offset (pages s2 n)) (page_cache (objs s2 sh)) = None) as Hno2.
  { rewrite E2. cbn [offset]. change (objs s2) with (objs s). rewrite (find_in_ext _ (pages s)); [done|].
    intros q Hq. rewrite E2' by by intros ->. by rewrite (proj1 (Hm q)). }
  destruct (insert_page_olist_inserts s2 n sh Hno2) as (l1 & l2 & Ec & ->). cbn [obind].
  exists m, l1, l2. split; [done|]. split; [done|].
  match goal with |- context [obind (_ ?x) _] => set (s3 := x) end.
  change s3 with (copied_page s pa m n p sh off (l1 ++ n :: l2)). clear s3.
  set (s3 := copied_page s pa m n p sh off (l1 ++ n :: l2)).
  change (areas s3 vma) with (areas s vma). unfold droppable in Hdrop.
  destruct (flag_set (vflags (areas s vma)) VMA_SHARED); [done|].
  unfold vma_next_link. vrun. change (areas s3 vma) with (areas s vma). rewrite El.
  destruct (next_of k0 (pre ++ k :: l)) as [below|]; [|done]. cbn [negb andb] in Hdrop.
  unfold or_bug, vm_object_is_droppable. vrun. change (links s3) with (links s).
  assert (forall o, oflags (objs s3 o) = oflags (objs s o) /\ npages (objs s3 o) = npages (objs s o) + if decide (sh = o) then 1 else 0) as Eo.
  { intros o. change (objs s3) with (<[sh := <[sh := objs s sh <| page_cache := l1 ++ n :: l2 |>]> (objs s) sh <| npages ::= Z.succ |>]>
      (<[sh := objs s sh <| page_cache := l1 ++ n :: l2 |>]> (objs s))).
    unfold insert, fn_insert. destruct (decide (sh = o)) as [<-|]; [rewrite decide_True by done; cbn; split; [done|lia]|]. split; [done|lia]. }
  rewrite !(proj1 (Eo _)), !(proj2 (Eo _)), decide_True by done.
  rewrite decide_False by (intros E; by apply (Hne below)). rewrite Z.add_0_r, Hdrop. done.
Qed.

(** * What the copy leaves as it was *)

Section Copied.
Context (s : St) (pa : page_allocator) (m : Z -> page) (n p sh off : Z) (l1 l2 : list Z).
Context (Hm : recount (pages s) m) (Hc : page_cache (objs s sh) = l1 ++ l2).
(** The new page was nowhere before. *)
Context (Hn : forall o, n ∉ page_cache (objs s o)) 
  (Hz : forall o, pager (objs s o) = devzero_pager -> private_file_data (vm_files s (vm_object_to_file o)) <> n).
Abbreviation s' := (copied_page s pa m n p sh off (l1 ++ n :: l2)).

Lemma copied_pages q : pages s' q = if decide (n = q) then MkPage 0 sh sh 0 (pflags (m n)) off else m q.
Proof.
  change (pages s') with (<[n := <[n := m n <| refcnt := 0 |> <| owner := sh |> <| offset := off |> <| virtual := 0 |>]> m n <| page_of := sh |>]>
    (<[n := m n <| refcnt := 0 |> <| owner := sh |> <| offset := off |> <| virtual := 0 |>]> m)).
  unfold insert, fn_insert. by repeat case_decide.
Qed.
Lemma copied_objs o : objs s' o = if decide (sh = o) then objs s o <| page_cache := l1 ++ n :: l2 |> <| npages ::= Z.succ |> else objs s o.
Proof.
  change (objs s') with (<[sh := <[sh := objs s sh <| page_cache := l1 ++ n :: l2 |>]> (objs s) sh <| npages ::= Z.succ |>]>
      (<[sh := objs s sh <| page_cache := l1 ++ n :: l2 |>]> (objs s))).
  unfold insert, fn_insert. by repeat case_decide; subst.
Qed.
Lemma copied_data q : pdata s' q = if decide (n = q) then pdata s p else pdata s q.
Proof. done. Qed.
Lemma copied_offset q : q <> n -> offset (pages s' q) = offset (pages s q).
Proof. intros Hq. rewrite copied_pages, decide_False by done. by rewrite (proj1 (Hm q)). Qed.
Lemma copied_find o x : o <> sh -> find_in (pages s') x (page_cache (objs s' o)) = find_in (pages s) x (page_cache (objs s o)).
Proof.
  intros Ho. rewrite copied_objs, decide_False by done. apply find_in_ext. intros q Hq. rewrite copied_offset; [done|].
  intros ->. by apply (Hn o).
Qed.
Lemma copied_find_front x : find_in (pages s) off (page_cache (objs s sh)) = None ->
  find_in (pages s') x (page_cache (objs s' sh)) = if x =? off then Some n else find_in (pages s) x (page_cache (objs s sh)).
Proof.
  intros Hno. rewrite copied_objs, decide_True by done.
  change (page_cache (objs s sh <| page_cache := l1 ++ n :: l2 |> <| npages ::= Z.succ |>)) with (l1 ++ n :: l2). rewrite Hc in *. rewrite find_in_app in Hno.
  rewrite !find_in_app. cbn [find_in].
  assert (forall l, (forall q, q ∈ l -> q ∈ l1 ++ l2) -> find_in (pages s') x l = find_in (pages s) x l) as Ef.
  { intros l Hl. apply find_in_ext. intros q Hq. apply copied_offset. intros ->. apply (Hn sh). rewrite Hc. by apply Hl. }
  rewrite !Ef by (intros q Hq; rewrite elem_of_app; auto). rewrite copied_pages, decide_True by done. cbn [offset].
  rewrite (Z.eqb_sym off x). destruct (Z.eqb_spec x off) as [->|]; [|done].
  by destruct (find_in (pages s) off l1).
Qed.
Lemma copied_has o x : pager (objs s sh) = swap_pager -> find_in (pages s) off (page_cache (objs s sh)) = None ->
  has_page s' o x = if (o =? sh) && (x =? off) then Some n else has_page s o x.
Proof.
  intros Hp Hno. unfold has_page in *. destruct (Z.eqb_spec o sh) as [->|Ho]; cbn [andb].
  - assert (pager (objs s' sh) = swap_pager) as -> by by rewrite copied_objs, decide_True by done.
    rewrite Hp. by apply copied_find_front.
  - assert (pager (objs s' o) = pager (objs s o)) as -> by (rewrite copied_objs, decide_False by done; done).
    specialize (Hz o). destruct (pager (objs s o)); [done|by apply copied_find|..|by apply copied_find].
    change (vm_files s') with (vm_files s). specialize (Hz eq_refl).
    rewrite copied_pages, decide_False by auto. by rewrite (proj2 (Hm _)).
Qed.
End Copied.

(** * The theorems *)

(** A page of [page_array] that is in no cache and is not the zero page. *)
Record unused (s : St) (n : Z) : Prop := {
  un_list : page_of (pages s n) = 0;
  un_cache : forall o, n ∉ page_cache (objs s o);
  un_zero : forall o, pager (objs s o) = devzero_pager -> private_file_data (vm_files s (vm_object_to_file o)) <> n }.
Lemma unused_has s n o x : unused s n -> has_page s o x <> Some n.
Proof.
  intros [_ Hc Hz]. unfold has_page. destruct (pager (objs s o)) eqn:Ep; [done|..].
  1, 3: intros [Hin _]%find_in_Some; by apply (Hc o).
  destruct (_ && _); [|done]. intros [= E]. by apply (Hz o).
Qed.
(** The page an allocation of the page allocator gives. *)
Definition page_given (s : St) (n : Z) (pa : page_allocator) : Prop :=
  exists paddr, PageAlloc.alloc_page membank_start pager_virtual_start 1 (mpages s) = Ret paddr pa /\
    paddr <> 0 /\ phys_to_page paddr = n.
Definition fault_offset (s : St) (f : fault_data) : Z :=
  u32 (file_offset (areas s (f_vma f)) + u32 (__pfn (f_address f) - pfn_start (areas s (f_vma f)))).

(** C19: a write fault on a private area whose front object is a writable shadow
    without the page puts a copy of the page in that shadow: the task sees the
    same bytes, in a page no other object has, and what every object had for
    every other offset is as it was.  This is when the object below is not one
    that [vma_drop_merge_delete] drops: a read-only shadow, in an area that is not
    shared, with as many pages as the front object then has. *)
Theorem copy_on_write_adds_a_copy (s : St) fault k0 l n pa p kp :
  let vma := f_vma fault in
  let off := fault_offset s fault in
  let sh := lobj (links s k0) in
  vm_obj_list (areas s vma) = k0 :: l -> NoDup (k0 :: l) ->
  flag_set (oflags (objs s sh)) VM_WRITE = true -> pager (objs s sh) = swap_pager ->
  has_page s sh off = None -> located s l off = Some (p, kp) ->
  (forall b, head l = Some b -> lobj (links s b) <> sh /\ flag_set (oflags (objs s (lobj (links s b)))) VM_WRITE = false) ->
  page_given s n pa -> unused s n ->
  droppable s (flag_set (vflags (areas s vma)) VMA_SHARED) sh (head l) = false ->
  exists s', copy_on_write fault s = Ret (Page n) s' /\
    is_Some (view s vma off) /\ view s' vma off = view s vma off /\ has_page s' sh off = Some n /\
    forall o x, (o, x) <> (sh, off) -> content s' o x = content s o x.
Proof.
  intros vma off sh El Hd Hw Hp Hno Hloc Hbelow (paddr & Hal & Hnz & <-) Hu Hdrop.
  assert (exists b l', l = b :: l') as (b & l' & ->) by (destruct l as [|b l']; [done|by exists b, l']).
  destruct (Hbelow b eq_refl) as [Hne Hro]. set (n := phys_to_page paddr) in *.
  assert (next_of k0 (k0 :: b :: l') = Some b) as Enext by (cbn; by rewrite Z.eqb_refl).
  assert (find_in (pages s) off (page_cache (objs s sh)) = None) as Hno' by (unfold has_page in Hno; by rewrite Hp in Hno).
  destruct (copy_into_shadow_copies s vma off k0 [k0] b l' p kp paddr pa) as (m & l1 & l2 & Hm & Hc & Hcopy);
    [done|done|done|done|done|apply (un_list _ _ Hu)|done|apply (un_cache _ _ Hu)|cbn [app]; by rewrite Enext|cbn [app]; rewrite Enext; by intros b' [= <-]|].
  fold n sh in Hcopy. set (s' := copied_page s pa m n p sh off (l1 ++ n :: l2)) in *.
  assert (forall o x, has_page s' o x = if (o =? sh) && (x =? off) then Some n else has_page s o x) as Hhas.
  { intros o x. apply copied_has; [done|done|apply (un_cache _ _ Hu)|apply (un_zero _ _ Hu)|done|done]. }
  assert (forall q, pdata s' q = if decide (n = q) then pdata s p else pdata s q) as Hdat by done.
  exists s'. split.
  - unfold copy_on_write, fault_to_file_offset, first_link. vrun. fold vma.
    change (u32 (file_offset (areas s vma) + u32 (__pfn (f_address fault) - pfn_start (areas s vma)))) with off. rewrite El. cbn [head or_bug]. vrun.
    fold sh. rewrite Hw. cbn [negb]. rewrite (page_in_lacks _ _ _ Hp Hno). unfold vma_next_link. vrun. rewrite El, Enext.
    unfold or_bug. vrun. rewrite Hro. done.
  - assert (view s vma off = Some (pdata s p)) as Ev.
    { unfold view. rewrite El, located_cons. fold sh. by rewrite Hno, Hp, Hloc. }
    assert (has_page s' sh off = Some n) as Hn by by rewrite Hhas, !Z.eqb_refl.
    split; [by rewrite Ev|]. split; [|split; [done|]].
    + rewrite Ev. unfold view. change (areas s') with (areas s). rewrite El, located_cons.
      change (links s') with (links s). fold sh. rewrite Hn. change (Some (pdata s' n) = Some (pdata s p)). by rewrite Hdat, decide_True.
    + intros o x Hox. unfold content. rewrite Hhas.
      assert ((o =? sh) && (x =? off) = false) as -> by (destruct (Z.eqb_spec o sh) as [->|]; [destruct (Z.eqb_spec x off) as [->|]; [done|done]|done]).
      destruct (has_page s o x) as [q|] eqn:Eq; [|done]. change (Some (pdata s' q) = Some (pdata s q)). rewrite Hdat, decide_False; [done|].
      intros <-. by eapply unused_has.
Qed.

(** * A new shadow *)

(** The heap gives memory at [k] for a link and at [sh] for an object. *)
Definition memory_given (s : St) (k sh : Z) : Prop := exists h1 h2,
  Malloc.kzalloc heap_array SIZEOF_VM_OBJ_LINK (mheap s) = Some (k, h1) /\ k <> 0 /\ IS_ERR k = false /\
  Malloc.kzalloc heap_array SIZEOF_VM_OBJECT h1 = Some (sh, h2) /\ sh <> 0.
Record shadow_put (s s0 : St) (vma o k sh : Z) : Prop := {
  sp_pages : mpages s0 = mpages s /\ pages s0 = pages s /\ pdata s0 = pdata s /\ vm_files s0 = vm_files s;
  sp_link : links s0 k = MkLink vma sh;
  sp_links : forall x, x <> k -> links s0 x = links s x;
  sp_area : areas s0 vma = areas s vma <| vm_obj_list ::= cons k |>;
  sp_areas : forall x, x <> vma -> areas s0 x = areas s x;
  sp_new : objs s0 sh = MkObj 0 1 0 o [] [k] o (Z.lor VM_OBJ_SHADOW VM_WRITE) swap_pager [];
  sp_orig : objs s0 o = objs s o <| shadows ::= Z.succ |> <| shdw_list ::= cons sh |>;
  sp_objs : forall x, x <> sh -> x <> o -> objs s0 x = objs s x;
  sp_global : glist (global_vm_objects s0) = sh :: glist (global_vm_objects s) }.

Lemma put_shadow_before_puts (s : St) vma o k sh : memory_given s k sh -> sh <> o -> sh ∉ glist (global_vm_objects s) ->
  exists s0, put_shadow_before vma o s = Ret k s0 /\ shadow_put s s0 vma o k sh.
Proof.
  intros (h1 & h2 & E1 & Hk & Hke & E2 & Hsh) Hne Hg. unfold put_shadow_before, vma_create_shadow, vm_objlink_create.
  assert ((k =? 0) = false) as Ek by by apply Z.eqb_neq. assert ((sh =? 0) = false) as Es by by apply Z.eqb_neq.
  unfold kzalloc at 1. vrun. rewrite E1. cbn [obind]. rewrite Ek. cbn [obind]. rewrite Hke.
  unfold vm_object_create, kzalloc. vrun.
  match goal with |- context [mheap ?x] => change (mheap x) with h1 end. rewrite E2. cbn [obind]. rewrite Es. cbn [obind].
  rewrite Es. unfold vm_link_object. vrun. rewrite Ek. cbn [obind]. unfold link_insert, shref_insert, global_add_vm_object. vrun.
  match goal with |- context [lobj (links ?x k)] => set (s1 := x) end.
  assert (lobj (links s1 k) = sh) as El.
  { change (links s1) with (<[k := <[k := MkLink 0 0]> (links s) k <| lobj := sh |>]> (<[k := MkLink 0 0]> (links s))).
    by rewrite !fn_lookup_insert. }
  rewrite El.
  match goal with |- context [global_vm_objects ?x] => change (global_vm_objects x) with (global_vm_objects s) end.
  rewrite bool_decide_false by done. cbn [obind]. eexists. split; [done|]. unfold s1. clear s1 El. split.
  1: done. all: intros; cbn; unfold insert, fn_insert; repeat case_decide; subst; done.
Qed.
Lemma located_ext (s s0 : St) off l : (forall k, k ∈ l -> lobj (links s0 k) = lobj (links s k) /\
    has_page s0 (lobj (links s k)) off = has_page s (lobj (links s k)) off /\
    pager (objs s0 (lobj (links s k))) = pager (objs s (lobj (links s k)))) -> located s0 l off = located s l off.
Proof.
  induction l as [|k l IH]; intros Hl; [done|]. rewrite !located_cons.
  destruct (Hl k) as (-> & -> & ->); [by left|]. destruct (has_page s _ off); [done|].
  destruct (pager _); [done..|]. apply IH. intros x Hx. apply Hl. by right.
Qed.
Section Shadow_put.
Context (s s0 : St) (vma o k sh : Z) (Hs : shadow_put s s0 vma o k sh).
Lemma shadow_put_obj x : x <> sh -> pager (objs s0 x) = pager (objs s x) /\ page_cache (objs s0 x) = page_cache (objs s x) /\
  npages (objs s0 x) = npages (objs s x) /\ oflags (objs s0 x) = oflags (objs s x).
Proof. intros Hx. destruct (decide (x = o)) as [->|]; [by rewrite (sp_orig _ _ _ _ _ _ Hs)|by rewrite (sp_objs _ _ _ _ _ _ Hs)]. Qed.
Lemma shadow_put_has x off : x <> sh -> has_page s0 x off = has_page s x off.
Proof.
  intros Hx. unfold has_page. destruct (shadow_put_obj x Hx) as (-> & -> & _). destruct (sp_pages _ _ _ _ _ _ Hs) as (_ & -> & _ & ->). done.
Qed.
Lemma shadow_put_unused n : unused s n -> unused s0 n.
Proof.
  destruct (sp_pages _ _ _ _ _ _ Hs) as (_ & Ep & _ & Ef).
  intros [H1 H2 H3]. split; [by rewrite Ep|..].
  - intros x. destruct (decide (x = sh)) as [->|Hx]; [rewrite (sp_new _ _ _ _ _ _ Hs); apply not_elem_of_nil|].
    destruct (shadow_put_obj x Hx) as (_ & -> & _). done.
  - intros x. destruct (decide (x = sh)) as [->|Hx]; [by rewrite (sp_new _ _ _ _ _ _ Hs)|].
    destruct (shadow_put_obj x Hx) as (-> & _). rewrite Ef. auto.
Qed.
End Shadow_put.

(** C20: the first write to a private area whose front object may not be written
    (a file, or a shadow frozen by a fork) puts a new shadow in front, with a
    copy of the page: the task sees the same bytes, and no other object has
    changed for any offset.  This is when the front object is not one that is
    then dropped: a read-only shadow of exactly one page, in an area that is not
    shared. *)
Theorem copy_on_write_makes_a_shadow (s : St) fault k0 l n pa p kp k sh :
  let vma := f_vma fault in
  let off := fault_offset s fault in
  let o := lobj (links s k0) in
  vm_obj_list (areas s vma) = k0 :: l -> NoDup (k0 :: l) -> flag_set (oflags (objs s o)) VM_WRITE = false ->
  located s (k0 :: l) off = Some (p, kp) ->
  memory_given s k sh -> k ∉ k0 :: l -> (forall x, x ∈ k0 :: l -> lobj (links s x) <> sh) -> sh ∉ glist (global_vm_objects s) ->
  page_given s n pa -> unused s n ->
  (flag_set (vflags (areas s vma)) VMA_SHARED = false -> npages (objs s o) = 1 -> flag_set (oflags (objs s o)) VM_OBJ_SHADOW = false) ->
  exists s', copy_on_write fault s = Ret (Page n) s' /\
    vm_obj_list (areas s' vma) = k :: k0 :: l /\ lobj (links s' k) = sh /\ has_page s' sh off = Some n /\
    is_Some (view s vma off) /\ view s' vma off = view s vma off /\
    forall x y, x <> sh -> content s' x y = content s x y.
Proof.
  intros vma off o El Hd Hro Hloc Hmem Hk Hsh Hg (paddr & Hal & Hnz & <-) Hu Hdrop. set (n := phys_to_page paddr) in *.
  assert (sh <> o) as Hso by (apply not_eq_sym, Hsh; by left).
  destruct (put_shadow_before_puts s vma o k sh Hmem Hso Hg) as (s0 & Hput & Hs).
  destruct (sp_pages _ _ _ _ _ _ Hs) as (Epa & Epg & Epd & Evf).
  assert (located s0 (k0 :: l) off = located s (k0 :: l) off) as Eloc.
  { apply located_ext. intros x Hx. rewrite (sp_links _ _ _ _ _ _ Hs) by by intros ->. split; [done|].
    specialize (Hsh x Hx). split; [by eapply shadow_put_has|by eapply shadow_put_obj]. }
  assert (vm_obj_list (areas s0 vma) = [k] ++ k0 :: l) as El0 by (rewrite (sp_area _ _ _ _ _ _ Hs); cbn; by rewrite El).
  assert (lobj (links s0 k) = sh) as Elk by by rewrite (sp_link _ _ _ _ _ _ Hs).
  assert (links s0 k0 = links s k0) as Elk0 by (apply (sp_links _ _ _ _ _ _ Hs); intros ->; apply Hk; by left).
  destruct (shadow_put_unused s s0 vma o k sh Hs n Hu) as [Hu1 Hu2 Hu3].
  assert (next_of k ([k] ++ k0 :: l) = Some k0) as Enext by (cbn; by rewrite Z.eqb_refl).
  assert (oflags (objs s0 o) = oflags (objs s o) /\ npages (objs s0 o) = npages (objs s o)) as [Efl Enp]
    by (by destruct (shadow_put_obj s s0 vma o k sh Hs o (not_eq_sym Hso)) as (_ & _ & ? & ?)).
  assert (find_in (pages s0) off (page_cache (objs s0 sh)) = None) as Hno by by rewrite (sp_new _ _ _ _ _ _ Hs).
  destruct (copy_into_shadow_copies s0 vma off k [k] k0 l p kp paddr pa) as (m & l1 & l2 & Hm & Hc & Hcopy);
    [done|by apply NoDup_cons|by rewrite Eloc|by rewrite Epa|done|done|by rewrite Elk|rewrite Elk; apply Hu2|..].
  - rewrite Enext. unfold droppable. rewrite Elk, Elk0. fold o. rewrite Efl, Enp, (sp_new _ _ _ _ _ _ Hs), (sp_area _ _ _ _ _ _ Hs).
    change (vflags _) with (vflags (areas s vma)). cbn [npages].
    destruct (flag_set (vflags (areas s vma)) VMA_SHARED); [done|]. cbn [negb andb].
    destruct (Z.eqb_spec (0 + 1) (npages (objs s o))) as [E|E]; [|done]. cbn [andb]. by apply Hdrop.
  - rewrite Enext. intros b [= <-]. rewrite Elk, Elk0. by apply not_eq_sym.
  - rewrite Elk in *. fold n in Hcopy. set (s' := copied_page s0 pa m n p sh off (l1 ++ n :: l2)) in *.
    assert (forall x y, has_page s' x y = if (x =? sh) && (y =? off) then Some n else has_page s0 x y) as Hhas.
    { intros x y. apply copied_has; [done|done|done|done|by rewrite (sp_new _ _ _ _ _ _ Hs)|done]. }
    assert (forall q, pdata s' q = if decide (n = q) then pdata s p else pdata s q) as Hdat.
    { intros q. rewrite <- Epd. done. }
    exists s'. split; [|split; [exact El0|split; [exact Elk|split; [by rewrite Hhas, !Z.eqb_refl|]]]].
    + unfold copy_on_write, fault_to_file_offset, first_link. vrun. fold vma.
      change (u32 (file_offset (areas s vma) + u32 (__pfn (f_address fault) - pfn_start (areas s vma)))) with off. rewrite El.
      cbn [head]. unfold or_bug. vrun. fold o. rewrite Hro. cbn [negb]. rewrite Hput. cbn [obind].
      destruct Hmem as (? & ? & _ & Hk0 & _). by rewrite (proj2 (Z.eqb_neq k 0)).
    + assert (view s vma off = Some (pdata s p)) as Ev by (unfold view; by rewrite El, Hloc).
      split; [by rewrite Ev|]. split.
      * rewrite Ev. unfold view. change (areas s') with (areas s0). rewrite El0. cbn [app]. rewrite located_cons.
        change (links s') with (links s0). rewrite Elk, Hhas, !Z.eqb_refl. cbn [andb].
        change (Some (pdata s' n) = Some (pdata s p)). by rewrite Hdat, decide_True.
      * intros x y Hx. unfold content. rewrite Hhas, (proj2 (Z.eqb_neq x sh)) by done. cbn [andb].
        erewrite shadow_put_has by done. destruct (has_page s x y) as [q|] eqn:Eq; [|done].
        change (Some (pdata s' q) = Some (pdata s q)). rewrite Hdat, decide_False; [done|]. intros <-. by eapply unused_has.
Qed.
End Cow.

(** * On concrete states *)

(** An anonymous area of three pages from 0x10010 on, with the links [l]: 5100
    to a shadow 6000 that has page 0, 5101 to devzero. *)
Definition demo_cow (l : list Z) : mm ptab := mm_empty
  <| areas := <[5000 := MkVma l 0x10010 0x10013 rw 0]> (areas mm_empty) |>
  <| links := <[5100 := MkLink 5000 6000]> (<[5101 := MkLink 5000 7020]> (links mm_empty)) |>
  <| objs := <[6000 := MkObj 1 1 0 7020 [] [5100] 7020 (Z.lor VM_OBJ_SHADOW VM_WRITE) swap_pager [100]]>
       (<[7020 := MkObj 0xFFFFF 1 1 0 [6000] [5101] 0 VM_OBJ_FILE devzero_pager []]> (objs mm_empty)) |>
  <| vm_files := <[7000 := MkFile 0 VM_FILE_DEVZERO 0xFFFFF000 no_destructor 0 101]> (vm_files mm_empty) |>
  <| pages := <[100 := MkPage 0 6000 6000 0 0 0]> (<[101 := MkPage 0 0 7020 0 0 0]> (pages mm_empty)) |>
  <| pdata := <[100 := fun _ => 7]> (pdata mm_empty) |>.
Definition demo_pages : page_allocator := match PageAlloc.alloc_page 0x100000 0x40000000 1 (demo_allocator 10 166) with Ret _ p => p | _ => demo_allocator 10 166 end.
Definition demo_fault : fault_data := MkFault VM_WRITE 0x10011004 VM_READ 5000 1.
Lemma demo_unused l : unused (demo_cow l) 10.
Proof.
  split; [done|..]; intros o; cbn; unfold insert, fn_insert; repeat case_decide; subst; try done.
  1: by intros [=]%list_elem_of_singleton.
  all: by intros Hx%elem_of_nil.
Qed.
Lemma demo_given l : page_given (demo_cow l) 10 demo_pages.
Proof. exists 0x10A000. split; [by vm_compute|done]. Qed.

Lemma copy_on_write_adds_a_copy_witness : let s := demo_cow [5100; 5101] in
  exists s', copy_on_write demo_fault s = Ret (Page 10) s' /\
    is_Some (view s 5000 1) /\ view s' 5000 1 = view s 5000 1 /\ has_page s' 6000 1 = Some 10 /\
    forall o x, (o, x) <> (6000, 1) -> content s' o x = content s o x.
Proof.
  apply (copy_on_write_adds_a_copy (demo_cow [5100; 5101]) demo_fault 5100 [5101] 10 demo_pages 101 5101); try done.
  - vm_compute. repeat constructor; set_solver.
  - by intros b [= <-].
  - apply demo_given.
  - apply demo_unused.
Defined.
Lemma copy_on_write_makes_a_shadow_witness : let s := demo_cow [5101] in
  exists s', copy_on_write demo_fault s = Ret (Page 10) s' /\
    vm_obj_list (areas s' 5000) = [4108; 5101] /\ lobj (links s' 4108) = 4140 /\ has_page s' 4140 1 = Some 10 /\
    is_Some (view s 5000 1) /\ view s' 5000 1 = view s 5000 1 /\
    forall x y, x <> 4140 -> content s' x y = content s x y.
Proof.
  eapply (copy_on_write_makes_a_shadow (demo_cow [5101]) demo_fault 5101 [] 10 demo_pages 101 5101 4108 4140); try done.
  - apply NoDup_singleton.
  - eexists _, _. split; [vm_compute; reflexivity|]. split; [done|]. split; [done|]. split; [vm_compute; reflexivity|done].
  - by intros [=]%list_elem_of_singleton.
  - by intros x ->%list_elem_of_singleton.
  - by intros Hx%elem_of_nil.
  - apply demo_given.
  - apply demo_unused.
Defined.

(** [vm_object_is_droppable] compares how many pages two objects have, not
    which.  A task maps three pages, writes [v] to the first and forks; the
    child sees [v].  Once the child has written to the second page its new
    shadow has as many pages as the one below, which is dropped with the first
    page in it: the child reads 0 there.  The parent still reads [v]. *)
Theorem a_child_can_lose_a_page (v w : Z) :
  let A := 0x10010000 in
  result (init_devzero ;; do_mmap 0 0 1 A rw 3 ;; store 1 A v ;; fork_memory 1 2 ;;
          x ← load 2 A; store 2 (A + PAGE_SIZE) w ;;
          y ← load 2 A; z ← load 1 A; mret (x, y, z)) = Some (v, 0, v).
Proof. vm_compute. reflexivity. Qed.
