(* ===== verification/Regions.v ===== *)
(** The areas of a task: theorems about [find_unmapped_area] of
    [conts/posix/mm0/mm/mmap.c] and [do_munmap] of [mm/munmap.c]. *)
From S2P Require Import Prelude Bits Defs Words Malloc Pools PageAlloc Memfs Vm Shadow Pagecache Mmap Shm Forking Mmdemo.

(** * Geometry *)

(** The page frames of an area, and the file page and flags it maps one to. *)
Definition inside (v : vm_area) (pfn : Z) : Prop := pfn_start v <= pfn < pfn_end v.
Definition target (v : vm_area) (pfn : Z) : Z * Z := (u32 (file_offset v + (pfn - pfn_start v)), vflags v).
Definition maps (m : Z -> vm_area) (l : list Z) (pfn : Z) (y : Z * Z) : Prop :=
  exists a, a ∈ l /\ inside (m a) pfn /\ y = target (m a) pfn.
(** Areas of a list are ranges of page frames with no frame in common. *)
Record areas_ok (m : Z -> vm_area) (l : list Z) : Prop := {
  ok_dup : NoDup l;
  ok_range : forall a, a ∈ l -> 0 <= pfn_start (m a) < pfn_end (m a) /\ pfn_end (m a) <= 2 ^ 20;
  ok_apart : forall a b p, a ∈ l -> b ∈ l -> inside (m a) p -> inside (m b) p -> a = b }.
(** Same range, flags and file offset. *)
Definition same_area (v w : vm_area) : Prop :=
  pfn_start v = pfn_start w /\ pfn_end v = pfn_end w /\ vflags v = vflags w /\ file_offset v = file_offset w.
#[export] Instance same_area_equiv : Equivalence same_area.
Proof. unfold same_area. split; [done|intros v w|intros u v w]; intuition congruence. Qed.
Lemma same_inside v w p : same_area v w -> inside v p <-> inside w p.
Proof. unfold inside. intros (-> & -> & _). done. Qed.
Lemma same_target v w p : same_area v w -> target v p = target w p.
Proof. unfold target. by intros (-> & _ & -> & ->). Qed.

Lemma set_intersection_spec a b c d : a < b -> c < d ->
  set_intersection a b c d = false <-> forall p, a <= p < b -> ~ c <= p < d.
Proof.
  intros Hab Hcd. unfold set_intersection. split.
  - destruct (Z.leb_spec b c), (Z.leb_spec d a); cbn; (done || lia).
  - intros Hno. destruct (Z.leb_spec b c), (Z.leb_spec d a); cbn; try done.
    exfalso. destruct (Z.le_ge_cases a c); [apply (Hno c)|apply (Hno a)]; lia.
Qed.

Section Regions.
Context {K : Type} `{kernel_abi K} `{layout}.
Abbreviation St := (mm K).
Definition vmas (s : St) (task : Z) : list Z := vma_list (vma_heads s (vm_area_head (tcbs s task))).

(** * Finding room *)

Lemma unmapped_after_spec m all n map_end l : (forall a, a ∈ l -> 0 <= pfn_end (m a) <= 2 ^ 20) -> 0 < n <= 2 ^ 20 ->
  (unmapped_after m all n map_end l = 0) \/
  exists a, a ∈ l /\ unmapped_after m all n map_end l = __pfn_to_addr (pfn_end (m a)) /\
    pfn_end (m a) + n <= __pfn map_end /\ vma_intersection m all (pfn_end (m a)) (pfn_end (m a) + n) = false.
Proof.
  intros Hr Hn. induction l as [|a l IH]; cbn [unmapped_after]; [by left|].
  pose proof (Hr a ltac:(by left)) as Ha. cbn zeta.
  assert (u32 (pfn_end (m a) + n) = pfn_end (m a) + n) as -> by (apply u32_id; unfold is_u32; lia).
  destruct ((pfn_end (m a) + n <=? __pfn map_end) && negb (vma_intersection m all (pfn_end (m a)) (pfn_end (m a) + n))) eqn:E.
  - apply andb_true_iff in E as [E1 E2]. right. exists a. split; [by left|]. split; [done|].
    split; [by apply Z.leb_le|by apply negb_true_iff].
  - destruct IH as [->|(b & Hb & -> & Hrest)]; [intros b Hb; apply Hr; by right|by left|].
    right. exists b. by split; [right|].
Qed.

(** [find_unmapped_area] gives 0 or the address of [n] pages below the end
    of the task's region that no area of the task has. *)
Theorem find_unmapped_area_is_free (s : St) task n :
  areas_ok (areas s) (vmas s task) -> vmas s task <> [] -> 0 < n <= 2 ^ 20 -> is_u32 (map_end (tcbs s task)) ->
  exists r, find_unmapped_area n task s = Ret r s /\
    (r = 0 \/ exists pfn, r = pfn * PAGE_SIZE /\ (pfn + n) * PAGE_SIZE <= map_end (tcbs s task) /\
      forall p y, pfn <= p < pfn + n -> ~ maps (areas s) (vmas s task) p y).
Proof.
  intros Hok Hne Hn Hme. unfold find_unmapped_area, task_vmas. vrun. fold (vmas s task).
  destruct (Z.ltb_spec (__pfn (u32 (map_end (tcbs s task) - map_start (tcbs s task)))) n); [by exists 0; auto|].
  rewrite bool_decide_false by done. eexists. split; [done|].
  destruct (unmapped_after_spec (areas s) (vmas s task) n (map_end (tcbs s task)) (vmas s task)) as [->|(a & Ha & -> & Hle & Hx)];
    [intros a Ha; destruct (ok_range _ _ Hok a Ha); lia|done|by left|right].
  destruct (ok_range _ _ Hok a Ha) as [Hr1 Hr2].
  assert (__pfn (map_end (tcbs s task)) < 2 ^ 20) as Hpe.
  { unfold __pfn, PAGE_BITS. rewrite Z.shiftr_div_pow2 by lia. apply Z.div_lt_upper_bound; unfold is_u32 in Hme; lia. }
  exists (pfn_end (areas s a)). split; [|split].
  - unfold __pfn_to_addr, PAGE_BITS, PAGE_SIZE. rewrite Z.shiftl_mul_pow2 by lia. apply u32_id. unfold is_u32. lia.
  - unfold __pfn, PAGE_BITS in Hle. rewrite Z.shiftr_div_pow2 in Hle by lia. unfold PAGE_SIZE.
    pose proof (Z.mul_div_le (map_end (tcbs s task)) (2 ^ 12) ltac:(lia)). lia.
  - intros p y Hp (b & Hb & Hin & _). destruct (ok_range _ _ Hok b Hb) as [Hb1 _].
    assert (intersects (areas s) (pfn_end (areas s a)) (pfn_end (areas s a) + n) b = false) as Hi.
    { unfold vma_intersection in Hx. destruct (intersects _ _ _ b) eqn:E; [|done].
      rewrite <- Hx. symmetry. apply existsb_exists. exists b. split; [by apply list_elem_of_In|done]. }
    unfold intersects in Hi. rewrite set_intersection_spec in Hi by lia. by apply (Hi p).
Qed.

(** * What dropping objects leaves alone *)

Definition geo (s s' : St) : Prop :=
  (forall a, same_area (areas s a) (areas s' a)) /\ vma_heads s' = vma_heads s /\ tcbs s' = tcbs s.
#[local] Instance geo_preorder : PreOrder geo.
Proof.
  split; [intros s; split; [intros a; reflexivity|done]|]. intros s1 s2 s3 (A1 & V1 & T1) (A2 & V2 & T2). split; [|split; congruence].
  intros a. by etrans; [apply A1|apply A2].
Qed.
(** A step that does not write areas, lists of areas or tasks. *)
Ltac geo_done := by split; [intros ?; cbn; reflexivity|].
Ltac geo_fun := let s := fresh in let a := fresh in let s' := fresh in intros s a s'; repeat case_match; intros [= <- <-]; geo_done.

Lemma set_obj_geo o f : keeps geo (set_obj o f). Proof. unfold set_obj. keep. geo_done. Qed.
Lemma set_file_geo o f : keeps geo (set_file o f). Proof. unfold set_file. keep. geo_done. Qed.
Lemma set_page_geo o f : keeps geo (set_page o f). Proof. unfold set_page. keep. geo_done. Qed.
Lemma set_link_geo o f : keeps geo (set_link o f). Proof. unfold set_link. keep. geo_done. Qed.
Lemma set_links_geo a (f : list Z -> list Z) : keeps geo (set_area a (fun v => v <| vm_obj_list ::= f |>)).
Proof.
  unfold set_area. keep. split; [|done]. intros b. cbn. unfold insert, fn_insert. case_decide as E; [by subst|done].
Qed.
Lemma obj_geo o : keeps geo (obj o). Proof. unfold obj. keep. Qed.
Lemma file_geo o : keeps geo (file o). Proof. unfold file. keep. Qed.
Lemma area_geo o : keeps geo (area o). Proof. unfold area. keep. Qed.
Lemma link_obj_geo o : keeps geo (link_obj o). Proof. unfold link_obj. keep. Qed.
Lemma find_page_geo o x : keeps geo (find_page o x). Proof. unfold find_page. keep. Qed.
Lemma kfree_geo a : keeps geo (kfree a). Proof. unfold kfree. geo_fun. Qed.
Lemma kzalloc_geo a : keeps geo (kzalloc a). Proof. unfold kzalloc. geo_fun. Qed.
Lemma with_pages_geo {A} (m : prog page_allocator A) : keeps geo (with_pages m). Proof. unfold with_pages. geo_fun. Qed.
Lemma with_fs_geo {A} (m : prog memfs A) : keeps geo (with_fs m). Proof. unfold with_fs. geo_fun. Qed.
Lemma or_bug_geo {A} (x : option A) w : keeps geo (or_bug x w). Proof. unfold or_bug. keep. Qed.
Lemma l4_unmap_geo v n t : keeps geo (l4_unmap v n t). Proof. unfold l4_unmap. geo_fun. Qed.
#[local] Hint Resolve set_obj_geo set_file_geo set_page_geo set_link_geo set_links_geo obj_geo file_geo area_geo link_obj_geo
  find_page_geo kfree_geo kzalloc_geo with_pages_geo with_fs_geo or_bug_geo l4_unmap_geo : keeps.

Lemma release_page_geo b o p : keeps geo (release_page b o p).
Proof. unfold release_page, page_init, free_page. keep. Qed.
#[local] Hint Resolve release_page_geo : keeps.
Lemma release_pages_geo o : keeps geo (release_pages o).
Proof. unfold release_pages, default_release_pages. keep. Qed.
Lemma global_remove_vm_object_geo o : keeps geo (global_remove_vm_object o).
Proof. unfold global_remove_vm_object. keep. geo_done. Qed.
#[local] Hint Resolve release_pages_geo global_remove_vm_object_geo : keeps.
Lemma global_remove_vm_file_geo f : keeps geo (global_remove_vm_file f).
Proof. unfold global_remove_vm_file. keep. geo_done. Qed.
Lemma shm_destroy_priv_data_geo f : keeps geo (shm_destroy_priv_data f).
Proof.
  unfold shm_destroy_priv_data. keep; [unfold shm_delete_address; geo_fun|geo_fun].
Qed.
#[local] Hint Resolve global_remove_vm_file_geo shm_destroy_priv_data_geo : keeps.
Lemma vm_object_delete_geo o : keeps geo (vm_object_delete o).
Proof. unfold vm_object_delete. keep. Qed.
Lemma insert_page_olist_geo p o : keeps geo (insert_page_olist p o).
Proof. unfold insert_page_olist. keep. Qed.
Lemma shref_remove_geo o : keeps geo (shref_remove o). Proof. unfold shref_remove. keep. Qed.
Lemma shref_insert_geo o p : keeps geo (shref_insert o p). Proof. unfold shref_insert. keep. Qed.
Lemma vma_drop_link_geo l : keeps geo (vma_drop_link l). Proof. unfold vma_drop_link, link_remove, vm_unlink_object. keep. Qed.
#[local] Hint Resolve vm_object_delete_geo insert_page_olist_geo shref_remove_geo shref_insert_geo vma_drop_link_geo : keeps.
Lemma move_page_geo r f p : keeps geo (move_page r f p). Proof. unfold move_page. keep. Qed.
#[local] Hint Resolve move_page_geo : keeps.
Lemma vma_merge_object_geo o : keeps geo (vma_merge_object o). Proof. unfold vma_merge_object. keep. Qed.
Lemma vm_object_is_deletable_geo o : keeps geo (vm_object_is_deletable o). Proof. unfold vm_object_is_deletable. keep. Qed.
#[local] Hint Resolve vma_merge_object_geo vm_object_is_deletable_geo : keeps.
Lemma vma_drop_merge_delete_geo v l : keeps geo (vma_drop_merge_delete v l). Proof. unfold vma_drop_merge_delete. keep. Qed.
#[local] Hint Resolve vma_drop_merge_delete_geo : keeps.
Lemma vma_drop_merge_delete_all_geo v : keeps geo (vma_drop_merge_delete_all v).
Proof. unfold vma_drop_merge_delete_all. keep. Qed.

(** Flushing pages asks nothing of the heap either, and moves no object. *)
Definition geo_heap (s s' : St) : Prop :=
  areas s' = areas s /\ links s' = links s /\ vma_heads s' = vma_heads s /\ tcbs s' = tcbs s /\ mheap s' = mheap s.
#[local] Instance geo_heap_preorder : PreOrder geo_heap.
Proof. split; [done|]. unfold geo_heap. intros s1 s2 s3. intuition congruence. Qed.
Ltac geo_heap_done := by split_and!.
Lemma geo_heap_geo s s' : geo_heap s s' -> geo s s'.
Proof. intros (E & _ & ? & ? & _). split; [intros a; by rewrite E|done]. Qed.
Lemma vma_flush_pages_geo v : keeps geo_heap (vma_flush_pages v).
Proof.
  assert (forall A (m : prog memfs A), keeps geo_heap (with_fs m)) as Hfs.
  { intros A m s a s'. unfold with_fs. case_match; intros [= <- <-]. geo_heap_done. }
  assert (forall p f, keeps geo_heap (set_page p f)) as Hp by (intros p f; unfold set_page; keep; geo_heap_done).
  assert (forall n o x, keeps geo_heap (write_pages n o x)) as Hw.
  { induction n as [|n IH]; intros o x; cbn [write_pages]; keep.
    unfold page_out, file_page_out, obj, beyond_file, find_page. keep. }
  unfold vma_flush_pages, area, link_obj, obj, file, or_bug, flush_file_pages, write_file_pages, vfs_update_file_stats, file, obj.
  keep.
Qed.

(** * One area of a range *)

(** From [m] and [l] to [m'] and [l'], area [a] lost what it had of the range
    from [b] to [e]; the other areas are as they were. *)
Record trimmed (m : Z -> vm_area) (l : list Z) (m' : Z -> vm_area) (l' : list Z) (a b e : Z) : Prop := {
  tr_ok : areas_ok m' l';
  tr_maps : forall p y, maps m' l' p y <-> maps m l p y /\ ~ (inside (m a) p /\ b <= p < e);
  tr_rest : forall x, x ∈ l -> x <> a -> x ∈ l' /\ same_area (m x) (m' x);
  tr_new : forall x, x ∈ l' -> x ∈ l /\ x <> a \/ forall p, inside (m' x) p -> inside (m a) p /\ ~ b <= p < e }.

Section Trim.
Context (m : Z -> vm_area) (l : list Z) (a : Z) (Hok : areas_ok m l) (Ha : a ∈ l).

(** The area is gone. *)
Lemma trimmed_gone m' b e : (forall x, same_area (m x) (m' x)) -> b <= pfn_start (m a) -> pfn_end (m a) <= e ->
  trimmed m l m' (list_del a l) a b e.
Proof.
  intros Hm Hb He. unfold list_del.
  assert (forall x, x ∈ filter (fun y => y <> a) l <-> x <> a /\ x ∈ l) as Hin by (intros x; by rewrite list_elem_of_filter).
  assert (forall x p, inside (m' x) p <-> inside (m x) p) as Hi by (intros; symmetry; by apply same_inside).
  split.
  - split.
    + apply NoDup_filter, (ok_dup _ _ Hok).
    + intros x [_ Hx]%Hin. destruct (Hm x) as (<- & <- & _). by apply (ok_range _ _ Hok).
    + intros x y p [_ Hx]%Hin [_ Hy]%Hin. rewrite !Hi. by apply (ok_apart _ _ Hok).
  - intros p y. unfold maps. split.
    + intros (x & [Hne Hx]%Hin & Hp%Hi & ->). split; [exists x; split; [done|]; split; [done|symmetry; by apply same_target]|].
      intros [Hap _]. apply Hne. by eapply (ok_apart _ _ Hok).
    + intros [(x & Hx & Hp & ->) Hno]. exists x. rewrite Hin, Hi. split; [split; [|done]|split; [done|by apply same_target]].
      intros ->. apply Hno. split; [done|]. unfold inside in Hp. lia.
  - intros x Hx Hne. rewrite Hin. by split.
  - intros x [Hne Hx]%Hin. by left.
Qed.
(** The area is a new range without the frames that were taken off it. *)
Lemma trimmed_shrunk m' b e : (forall x, x <> a -> same_area (m x) (m' x)) ->
  pfn_start (m' a) < pfn_end (m' a) ->
  (forall p, inside (m' a) p <-> inside (m a) p /\ ~ b <= p < e) ->
  (forall p, inside (m' a) p -> target (m' a) p = target (m a) p) ->
  trimmed m l m' l a b e.
Proof.
  intros Hm Hne Hin Htg.
  assert (forall x p, inside (m' x) p -> inside (m x) p) as Hi.
  { intros x p Hp. destruct (decide (x = a)) as [->|Hx]; [by apply Hin in Hp as []|]. by apply (same_inside _ _ _ (Hm x Hx)). }
  assert (forall x, x ∈ l -> 0 <= pfn_start (m' x) < pfn_end (m' x) /\ pfn_end (m' x) <= 2 ^ 20) as Hr.
  { intros x Hx. pose proof (ok_range _ _ Hok x Hx) as Hrx. destruct (decide (x = a)) as [->|Hxa].
    - pose proof (Hi a (pfn_start (m' a)) ltac:(unfold inside; lia)) as H1.
      pose proof (Hi a (pfn_end (m' a) - 1) ltac:(unfold inside; lia)) as H2. unfold inside in *. lia.
    - by destruct (Hm x Hxa) as (<- & <- & _). }
  split.
  - split; [apply (ok_dup _ _ Hok)|done|]. intros x y p Hx Hy Hpx%Hi Hpy%Hi. by eapply (ok_apart _ _ Hok).
  - intros p y. unfold maps. split.
    + intros (x & Hx & Hp & ->). destruct (decide (x = a)) as [->|Hxa].
      * pose proof (proj1 (Hin p) Hp) as [Hp' Hno]. rewrite Htg by done. split; [by exists a|tauto].
      * split; [exists x; split; [done|]; split; [by apply Hi|symmetry; by apply same_target, Hm]|].
        intros [Hap _]. apply Hxa. apply (ok_apart _ _ Hok x a p); [done|done|by apply Hi|done].
    + intros [(x & Hx & Hp & ->) Hno]. exists x. split; [done|]. destruct (decide (x = a)) as [->|Hxa].
      * assert (inside (m' a) p) as Hp' by (apply Hin; tauto). by rewrite Htg.
      * split; [by apply (same_inside _ _ _ (Hm x Hxa))|by apply same_target, Hm].
  - intros x Hx Hxa. split; [done|by apply Hm].
  - intros x Hx. destruct (decide (x = a)) as [->|Hxa]; [right; intros p; by rewrite Hin|by left].
Qed.
(** The area ends before the range and a new one, before it in the list, has what
    is behind. *)
Lemma trimmed_split m' new b e : new ∉ l -> pfn_start (m a) < b -> b < e -> e < pfn_end (m a) ->
  (forall x, x <> a -> x <> new -> same_area (m x) (m' x)) ->
  same_area (m' a) (m a <| pfn_end := b |>) ->
  pfn_start (m' new) = e -> pfn_end (m' new) = pfn_end (m a) -> (forall p, target (m' new) p = target (m a) p) ->
  trimmed m l m' (insert_before new a l) a b e.
Proof.
  intros Hnew Hb Hbe He Hm (Sa & Ea & Fa & Oa) Sn En Tn.
  change (pfn_end (m a <| pfn_end := b |>)) with b in Ea.
  change (pfn_start (m a <| pfn_end := b |>)) with (pfn_start (m a)) in Sa.
  change (vflags (m a <| pfn_end := b |>)) with (vflags (m a)) in Fa.
  change (file_offset (m a <| pfn_end := b |>)) with (file_offset (m a)) in Oa.
  assert (a <> new) as Han by by intros ->.
  assert (forall x, x ∈ insert_before new a l <-> x = new \/ x ∈ l) as Hin.
  { clear Hok. revert Ha. clear Hnew. induction l as [|z l' IH]; intros Ha x; [by apply elem_of_nil in Ha|].
    cbn [insert_before]. destruct (Z.eqb_spec z a) as [->|Hz]; [by rewrite elem_of_cons|].
    apply elem_of_cons in Ha as [->|Ha]; [done|]. rewrite !elem_of_cons, IH by done. tauto. }
  assert (NoDup (insert_before new a l)) as Hd.
  { clear Hin. pose proof (ok_dup _ _ Hok) as Hd. clear Hok Ha. induction l as [|z l' IH]; cbn [insert_before]; [constructor|].
    apply NoDup_cons in Hd as [Hz Hd]. apply not_elem_of_cons in Hnew as [Hnz Hnew].
    destruct (Z.eqb_spec z a) as [->|Hza].
    - apply NoDup_cons. split; [by apply not_elem_of_cons|]. by apply NoDup_cons.
    - apply NoDup_cons. split; [|by apply IH]. intros Hx.
      assert (forall k, z ∈ insert_before new a k -> z = new \/ z ∈ k) as Hk.
      { induction k as [|w k IHk]; cbn [insert_before]; [by right|]. destruct (w =? a); rewrite ?elem_of_cons; [tauto|].
        intros [->|Hw]; [auto|]. destruct (IHk Hw); auto. }
      destruct (Hk _ Hx) as [->|Hx']; done. }
  destruct (ok_range _ _ Hok a Ha) as [Hr1 Hr2].
  assert (forall x p, x ∈ l -> x <> a -> (inside (m' x) p <-> inside (m x) p) /\ target (m' x) p = target (m x) p) as Hrest.
  { intros x p Hx Hxa. assert (same_area (m x) (m' x)) as Hs by (apply Hm; [done|by intros ->]).
    split; [symmetry; by apply same_inside|symmetry; by apply same_target]. }
  assert (forall p, inside (m' a) p <-> inside (m a) p /\ p < b) as Hia by (intros p; unfold inside; rewrite Sa, Ea; lia).
  assert (forall p, inside (m' new) p <-> inside (m a) p /\ e <= p) as Hin' by (intros p; unfold inside; rewrite Sn, En; lia).
  assert (forall p, target (m' a) p = target (m a) p) as Ta by (intros p; unfold target; by rewrite Sa, Fa, Oa).
  assert (forall x p, x ∈ insert_before new a l -> inside (m' x) p ->
    exists z, z ∈ l /\ inside (m z) p /\ target (m' x) p = target (m z) p /\ (x = new /\ z = a \/ x <> new /\ z = x)) as Hback.
  { intros x p [->|Hx]%Hin Hp; [exists a; apply Hin' in Hp as []; auto 6|].
    assert (x <> new) by by intros ->. exists x. destruct (decide (x = a)) as [->|Hxa]; [apply Hia in Hp as []; auto 6|].
    destruct (Hrest x p Hx Hxa) as [Hi Ht]. apply Hi in Hp. auto 6. }
  split.
  - split; [done|..].
    + intros x [->|Hx]%Hin; [rewrite Sn, En; lia|]. destruct (decide (x = a)) as [->|Hxa]; [rewrite Sa, Ea; lia|].
      pose proof (Hm x Hxa ltac:(by intros ->)) as (<- & <- & _). by apply (ok_range _ _ Hok).
    + intros x y p Hx Hy Hpx Hpy. destruct (Hback x p Hx Hpx) as (zx & Hzx & Hzpx & _ & Cx).
      destruct (Hback y p Hy Hpy) as (zy & Hzy & Hzpy & _ & Cy).
      assert (zx = zy) as -> by by eapply (ok_apart _ _ Hok).
      destruct Cx as [[-> ->]|[Hxn ->]], Cy as [[-> Ey]|[Hyn Ey]]; try done; subst.
      * apply Hin' in Hpx. apply Hia in Hpy. lia.
      * apply Hin' in Hpy. apply Hia in Hpx. lia.
  - intros p y. split.
    + intros (x & Hx & Hp & ->). destruct (Hback x p Hx Hp) as (z & Hz & Hzp & -> & C). split; [by exists z|].
      intros [Hap Hr]. assert (z = a) as -> by by eapply (ok_apart _ _ Hok).
      destruct C as [[-> _]|[_ <-]]; [apply Hin' in Hp; lia|apply Hia in Hp; lia].
    + intros [(x & Hx & Hp & ->) Hno]. destruct (decide (x = a)) as [->|Hxa].
      * destruct (Z.lt_ge_cases p b); [exists a; rewrite Hin, Hia; auto|].
        destruct (Z.lt_ge_cases p e); [by destruct Hno|]. exists new. rewrite Hin, Hin', Tn. split; [auto|]. split; [split; [done|lia]|done].
      * exists x. destruct (Hrest x p Hx Hxa) as [-> ->]. rewrite Hin. auto.
  - intros x Hx Hxa. split; [apply Hin; auto|]. apply Hm; [done|by intros ->].
  - intros x [->|Hx]%Hin.
    + right. intros p Hp. apply Hin' in Hp as [Hp He']. split; [done|lia].
    + destruct (decide (x = a)) as [->|Hxa]; [right|by left]. intros p Hp. apply Hia in Hp as [Hp Hb']. split; [done|lia].
Qed.
End Trim.

(** * Unmapping *)

(** The heap does not give the task's areas away again. *)
Definition area_memory (s : St) (task : Z) : Prop := forall new h,
  Malloc.kzalloc heap_array SIZEOF_VM_AREA (mheap s) = Some (new, h) -> new ∉ vmas s task.

Lemma vmas_geo s s' task : geo s s' -> vmas s' task = vmas s task.
Proof. unfold vmas. by intros (_ & -> & ->). Qed.
Lemma set_vmas_spec (s : St) task l s1 : set_vmas (vm_area_head (tcbs s task)) l s = Ret tt s1 ->
  vmas s1 task = l /\ areas s1 = areas s /\ tcbs s1 = tcbs s.
Proof.
  unfold set_vmas. vrun. intros [= <-]. split; [|done]. unfold vmas. cbn. by rewrite fn_lookup_insert.
Qed.
(** * The objects behind an area *)

(** The objects of an area's links, the front one first, and those behind a page
    of a task. *)
Definition objects (s : St) (a : Z) : list Z := (fun k => lobj (links s k)) <$> vm_obj_list (areas s a).
Definition backing (s : St) (task p : Z) (os : list Z) : Prop :=
  exists a, a ∈ vmas s task /\ inside (areas s a) p /\ os = objects s a.

(** The areas there were have the same objects, a new one those of [a]. *)
Record backed (s s' : St) (task a : Z) : Prop := {
  bk_old : forall x, x ∈ vmas s task -> x ∈ vmas s' task -> objects s' x = objects s x;
  bk_new : forall x, x ∈ vmas s' task -> x ∉ vmas s task -> objects s' x = objects s a }.

Lemma trimmed_backing (s s' : St) task a b e : areas_ok (areas s) (vmas s task) -> a ∈ vmas s task ->
  trimmed (areas s) (vmas s task) (areas s') (vmas s' task) a b e -> backed s s' task a ->
  forall p os, ~ b <= p < e -> backing s' task p os <-> backing s task p os.
Proof.
  intros Hok Ha [T1 T2 T3 T4] [B1 B2] p os Hp.
  assert (forall x, x ∈ vmas s' task -> inside (areas s' x) p ->
    exists z, z ∈ vmas s task /\ inside (areas s z) p /\ objects s' x = objects s z) as Hback.
  { intros x Hx Hxp. destruct (T4 x Hx) as [[Hxl Hxa]|Hin].
    - exists x. split; [done|]. split; [|by apply B1]. by apply (same_inside _ _ p (proj2 (T3 x Hxl Hxa))).
    - destruct (Hin p Hxp) as [Hap _]. exists a. split; [done|]. split; [done|].
      destruct (decide (x ∈ vmas s task)) as [Hxl|Hxl]; [|by apply B2]. rewrite B1 by done. f_equal.
      destruct (decide (x = a)) as [->|Hxa]; [done|]. apply (ok_apart _ _ Hok x a p); [done|done| |done].
      by apply (same_inside _ _ p (proj2 (T3 x Hxl Hxa))). }
  split.
  - intros (x & Hx & Hxp & ->). destruct (Hback x Hx Hxp) as (z & Hz & Hzp & ->). by exists z.
  - intros (z & Hz & Hzp & ->). destruct (proj2 (T2 p (target (areas s z) p))) as (x & Hx & Hxp & _).
    { split; [by exists z|tauto]. }
    destruct (Hback x Hx Hxp) as (y & Hy & Hyp & E). exists x. split; [done|]. split; [done|].
    rewrite E. f_equal. symmetry. by apply (ok_apart _ _ Hok y z p).
Qed.

(** Areas keep their links, and links their objects. *)
Definition same_links (s s' : St) : Prop :=
  links s' = links s /\ (forall a, vm_obj_list (areas s' a) = vm_obj_list (areas s a)) /\ vma_heads s' = vma_heads s /\ tcbs s' = tcbs s.
#[local] Instance same_links_preorder : PreOrder same_links.
Proof.
  split; [done|]. intros s1 s2 s3 (A1 & A2 & A3 & A4) (B1 & B2 & B3 & B4). split; [congruence|].
  split; [intros a; by rewrite B2|split; congruence].
Qed.
Lemma same_links_objects s s' a : same_links s s' -> objects s' a = objects s a.
Proof. intros (E1 & E2 & _). unfold objects. by rewrite E1, E2. Qed.
Lemma same_links_backed s s' task a : same_links s s' -> backed s s' task a.
Proof.
  intros Hs. pose proof Hs as (_ & _ & E3 & E4). assert (vmas s' task = vmas s task) as E by (unfold vmas; by rewrite E3, E4).
  split; intros x Hx Hx'; [by apply same_links_objects|]. by rewrite E in Hx.
Qed.
Lemma set_range_links a f : (forall v, vm_obj_list (f v) = vm_obj_list v) -> keeps same_links (set_area a f).
Proof.
  intros Hf. unfold set_area. keep. split; [done|]. split; [|done]. intros b. cbn. unfold insert, fn_insert.
  case_decide as E; [by rewrite Hf, E|done].
Qed.
Lemma area_links a : keeps same_links (area a). Proof. unfold area. keep. Qed.
Lemma l4_unmap_links v n t : keeps same_links (l4_unmap v n t).
Proof. intros s a s'. unfold l4_unmap. repeat case_match; intros [= <- <-]; done. Qed.
#[local] Hint Resolve set_range_links area_links l4_unmap_links : keeps.
Lemma vma_shrink_links a task b e : keeps same_links (vma_shrink a task b e).
Proof. unfold vma_shrink. keep. Qed.

(** The heap's next [n] links are none of those in use. *)
Fixpoint fresh_links (n : nat) (h : heap_t) (used : list Z) : Prop :=
  match n with
  | O => True
  | S n => forall k h', Malloc.kzalloc heap_array SIZEOF_VM_OBJ_LINK h = Some (k, h') -> (k ∉ used) /\ fresh_links n h' (k :: used)
  end.
Lemma kzalloc_nonzero size h k h' : size <> 0 -> Malloc.kzalloc heap_array size h = Some (k, h') -> k <> 0.
Proof.
  intros Hs. unfold Malloc.kzalloc. destruct (Malloc.kmalloc _ _ _) as [buf h1]. rewrite (proj2 (Z.eqb_neq size 0)) by done.
  destruct (Z.eqb_spec buf 0); [done|]. by intros [= <- _].
Qed.

(** Copies of links of objects, put behind the links of [new]. *)
Lemma copy_links_objects new l : forall (s s' : St) used,
  fresh_links (length l) (mheap s) used -> (forall k, k ∈ l -> k ∈ used) ->
  (forall k, k ∈ vm_obj_list (areas s new) -> k ∈ used) -> copy_links l new s = Ret tt s' ->
  (forall k, k ∈ used -> lobj (links s' k) = lobj (links s k))
  /\ (forall x, x <> new -> vm_obj_list (areas s' x) = vm_obj_list (areas s x))
  /\ objects s' new = objects s new ++ ((fun k => lobj (links s k)) <$> l).
Proof.
  induction l as [|k0 l IH]; intros s s' used Hf Hl Hn; cbn [copy_links length fresh_links] in *.
  { intros [= <-]. by rewrite app_nil_r. }
  unfold vm_objlink_create. intros (k & s1 & Hk & Hr)%bind_inv. apply bind_inv in Hk as (x & s0 & Hz & Hk).
  revert Hz. unfold kzalloc. destruct (Malloc.kzalloc _ _ _) as [[y h]|] eqn:Ez; [|done]. intros [= <- <-].
  rewrite (proj2 (Z.eqb_neq y 0)) in Hk by by eapply kzalloc_nonzero, Ez.
  destruct (Hf y h eq_refl) as [Hy Hf']. clear Hf. revert Hk. unfold set_link at 1. vrun. intros [= <- <-].
  assert (k0 ∈ used) as Hk0 by (apply Hl; by left). assert (y <> k0) as Hne by by intros ->.
  revert Hr. unfold vm_link_object, link_insert_tail, set_link, set_obj, set_area, link_obj. vrun. intros Hr.
  apply (IH _ _ (y :: used)) in Hr as (R1 & R2 & R3); [|exact Hf'|intros k Hk; right; apply Hl; by right|].
  2: { cbn. rewrite fn_lookup_insert. intros k. cbn. rewrite elem_of_app, list_elem_of_singleton. intros [Hk| ->]; [right; by apply Hn|by left]. }
  cbn in R1, R2, R3.
  assert (forall k, k ∈ used -> k <> y) as Huy by by intros k Hk ->.
  split; [|split].
  - intros k Hk. pose proof (Huy k Hk). rewrite R1 by by right. by rewrite !fn_lookup_insert_ne by done.
  - intros x Hx. rewrite R2 by done. by rewrite fn_lookup_insert_ne by congruence.
  - rewrite R3. unfold objects. cbn. rewrite !fn_lookup_insert. cbn. rewrite fmap_app, <- app_assoc. cbn.
    rewrite !fn_lookup_insert. cbn. f_equal; [|f_equal].
    + apply list_fmap_ext. intros i k Hi. apply list_elem_of_lookup_2, Hn, Huy in Hi. by rewrite !fn_lookup_insert_ne by done.
    + by rewrite fn_lookup_insert_ne.
    + apply list_fmap_ext. intros i k Hi. apply list_elem_of_lookup_2 in Hi.
      assert (k <> y) by (apply Huy, Hl; by right). by rewrite !fn_lookup_insert_ne by done.
Qed.

(** Links enough to split area [a]: none is a link of the task's areas. *)
Definition task_links (s : St) (task : Z) : list Z := vmas s task ≫= fun a => vm_obj_list (areas s a).
Definition split_memory (s : St) (task a : Z) : Prop := forall new h,
  Malloc.kzalloc heap_array SIZEOF_VM_AREA (mheap s) = Some (new, h) ->
  fresh_links (length (vm_obj_list (areas s a))) h (task_links s task).
Lemma elem_of_insert_before new a l x : x ∈ insert_before new a l -> x = new \/ x ∈ l.
Proof.
  induction l as [|w l IH]; cbn [insert_before]; [by right|].
  destruct (w =? a); rewrite ?elem_of_cons; [tauto|]. intros [->|Hw]; [auto|]. destruct (IH Hw); auto.
Qed.

Lemma u32_target fo d p st e : d = e - st -> u32 (u32 (fo + d) + (p - e)) = u32 (fo + (p - st)).
Proof. intros ->. unfold u32. rewrite Z.add_mod_idemp_l by lia. f_equal. lia. Qed.

Lemma vma_shrink_trims (s s' : St) task a b e r : areas_ok (areas s) (vmas s task) -> a ∈ vmas s task ->
  (pfn_start (areas s a) < b /\ b < pfn_end (areas s a) <= e \/ b <= pfn_start (areas s a) < e /\ e < pfn_end (areas s a)) ->
  vma_shrink a task b e s = Ret r s' -> trimmed (areas s) (vmas s task) (areas s') (vmas s' task) a b e.
Proof.
  intros Hok Ha Hcase. unfold vma_shrink. intros (v & s1 & [= <- <-] & Hr)%bind_inv.
  apply bind_inv in Hr as (range & s1 & Hset & Hr).
  assert (geo s1 s') as Hg.
  { refine ((_ : keeps geo _) _ _ _ Hr). keep. }
  rewrite (vmas_geo _ _ _ Hg). destruct Hg as (Hg & _ & _).
  destruct (Z.ltb_spec (pfn_start (areas s a)) b) as [H1|H1].
  - revert Hset. rewrite (proj2 (Z.leb_gt _ _)) by lia. vrun. intros [= <- <-].
    change (vmas _ task) with (vmas s task).
    assert (forall x, same_area (if decide (a = x) then areas s a <| pfn_end := b |> else areas s x) (areas s' x)) as Hs.
    { intros x. specialize (Hg x). cbn in Hg. unfold insert, fn_insert in Hg. case_decide; [by subst|done]. }
    assert (same_area (areas s a <| pfn_end := b |>) (areas s' a)) as Hsa by (specialize (Hs a); by rewrite decide_True in Hs).
    apply trimmed_shrunk; [done|done|..].
    + intros x Hx. specialize (Hs x). by rewrite decide_False in Hs.
    + destruct Hsa as (<- & <- & _). change (pfn_start (areas s a) < b). lia.
    + intros p. rewrite <- (same_inside _ _ p Hsa). unfold inside. change (pfn_start (areas s a) <= p < b <-> pfn_start (areas s a) <= p < pfn_end (areas s a) /\ ~ b <= p < e). lia.
    + intros p _. by rewrite <- (same_target _ _ p Hsa).
  - destruct Hcase as [|Hcase]; [lia|]. revert Hset. rewrite (proj2 (Z.ltb_lt e _)), (proj2 (Z.leb_gt _ _)) by lia. vrun. intros [= <- <-].
    change (vmas _ task) with (vmas s task).
    set (v' := areas s a <| file_offset := u32 (file_offset (areas s a) + (e - pfn_start (areas s a))) |> <| pfn_start := e |>) in *.
    assert (forall x, same_area (if decide (a = x) then v' else areas s x) (areas s' x)) as Hs.
    { intros x. specialize (Hg x). cbn in Hg. unfold insert, fn_insert in Hg. case_decide; [by subst|done]. }
    assert (same_area v' (areas s' a)) as Hsa by (specialize (Hs a); by rewrite decide_True in Hs).
    apply trimmed_shrunk; [done|done|..].
    + intros x Hx. specialize (Hs x). by rewrite decide_False in Hs.
    + destruct Hsa as (<- & <- & _). change (e < pfn_end (areas s a)). lia.
    + intros p. rewrite <- (same_inside _ _ p Hsa). unfold inside. change (e <= p < pfn_end (areas s a) <-> pfn_start (areas s a) <= p < pfn_end (areas s a) /\ ~ b <= p < e). lia.
    + intros p _. rewrite <- (same_target _ _ p Hsa). unfold target.
      change (pfn_start v') with e. change (vflags v') with (vflags (areas s a)).
      change (file_offset v') with (u32 (file_offset (areas s a) + (e - pfn_start (areas s a)))). f_equal. by apply u32_target.
Qed.

Lemma vma_destroy_trims (s s' : St) task a b e r : areas_ok (areas s) (vmas s task) -> a ∈ vmas s task ->
  b <= pfn_start (areas s a) -> pfn_end (areas s a) <= e ->
  vma_destroy_single task a s = Ret r s' -> 0 <= r -> trimmed (areas s) (vmas s task) (areas s') (vmas s' task) a b e.
Proof.
  intros Hok Ha Hb He. unfold vma_destroy_single. intros (ret & s1 & Hdrop & Hr)%bind_inv Hr0.
  pose proof (vma_drop_merge_delete_all_geo a _ _ _ Hdrop) as G1.
  assert (ret = 0) as ->.
  { revert Hdrop. unfold vma_drop_merge_delete_all. intros (? & ? & _ & Hd)%bind_inv. apply bind_inv in Hd as (? & ? & _ & Hd).
    apply bind_inv in Hd as (? & ? & _ & [= <- _]). done. }
  change (0 <? 0) with false in Hr.
  apply bind_inv in Hr as (v & s2 & [= <- <-] & Hr). apply bind_inv in Hr as (t & s2 & [= <- <-] & Hr).
  apply bind_inv in Hr as (ret & s2 & Hunmap & Hr). pose proof (l4_unmap_geo _ _ _ _ _ _ Hunmap) as G2.
  apply bind_inv in Hr as (l & s3 & Hl & Hr). assert (l = vmas s2 task /\ s3 = s2) as [-> ->] by (by injection Hl as <- <-).
  apply bind_inv in Hr as ([] & s3 & Hset & Hr).
  assert (vm_area_head (tcbs s1 task) = vm_area_head (tcbs s2 task)) as Eh by (by destruct G2 as (_ & _ & ->)).
  rewrite Eh in Hset. apply set_vmas_spec in Hset as (Ev & Ea & Et).
  assert (geo s3 s') as G3 by (refine ((_ : keeps geo _) _ _ _ Hr); keep).
  assert (forall x, same_area (areas s x) (areas s' x)) as Hs.
  { intros x. etrans; [apply G1|]. etrans; [apply G2|]. rewrite <- Ea. apply G3. }
  rewrite (vmas_geo _ _ _ G3), Ev, (vmas_geo _ _ _ G2), (vmas_geo _ _ _ G1). by apply trimmed_gone.
Qed.

Lemma copy_links_geo l new : keeps geo (copy_links l new).
Proof.
  induction l as [|k l IH]; cbn [copy_links]; [keep|]. unfold vm_objlink_create, vm_link_object, link_insert_tail. keep.
Qed.
#[local] Hint Resolve copy_links_geo : keeps.
Lemma vma_copy_links_geo new a : keeps geo (vma_copy_links new a).
Proof. unfold vma_copy_links. keep. Qed.
Lemma vma_split_trims (s s' : St) task a b e r : areas_ok (areas s) (vmas s task) -> a ∈ vmas s task -> area_memory s task ->
  pfn_start (areas s a) < b -> b < e -> e < pfn_end (areas s a) ->
  vma_split a task b e s = Ret r s' -> 0 <= r -> trimmed (areas s) (vmas s task) (areas s') (vmas s' task) a b e.
Proof.
  intros Hok Ha Hmem Hb Hbe He. unfold vma_split. intros (new & s1 & Hnew & Hr)%bind_inv Hr0.
  assert (new <> 0 -> (new ∉ vmas s task) /\ vmas s1 task = vmas s task /\ tcbs s1 = tcbs s /\ (forall x, x <> new -> areas s1 x = areas s x)) as Hn.
  { revert Hnew. unfold vma_new. intros (x & s0 & Hz & Hx)%bind_inv. revert Hz. unfold kzalloc.
    destruct (Malloc.kzalloc _ _ _) as [[y h]|] eqn:Ez; [|done]. intros [= <- <-].
    destruct (Z.eqb_spec y 0) as [->|Hy0]; [by injection Hx as <- _|]. revert Hx. unfold set_area. vrun. intros [= <- <-] _.
    split; [by eapply Hmem|]. split; [done|]. split; [done|]. intros x Hx. cbn. by rewrite fn_lookup_insert_ne. }
  clear Hnew. destruct (Z.eqb_spec new 0) as [->|Hn0]; [injection Hr as <- _; unfold ENOMEM in Hr0; lia|]. destruct (Hn Hn0) as (Hfresh & Ev1 & Et1 & Ea1). clear Hn.
  assert (a <> new) as Han by by intros ->.
  apply bind_inv in Hr as (v & s2 & [= <- <-] & Hr). rewrite Ea1 in Hr by done.
  apply bind_inv in Hr as ([] & s2 & Hbug & Hr). rewrite (proj2 (Z.leb_gt _ _)), (proj2 (Z.leb_gt _ _)) in Hbug by lia. injection Hbug as <-.
  apply bind_inv in Hr as ([] & s2 & Hs2 & Hr). injection Hs2 as <-.
  apply bind_inv in Hr as ([] & s2 & Hs2 & Hr). injection Hs2 as <-.
  match type of Hr with _ ?x = _ => set (s2 := x) in * end.
  set (n2 := areas s1 new <| pfn_end := pfn_end (areas s a) |> <| pfn_start := e |>
      <| file_offset := u32 (file_offset (areas s a) + e - pfn_start (areas s a)) |> <| vflags := vflags (areas s a) |>) in *.
  assert (forall x, areas s2 x = if decide (a = x) then areas s a <| pfn_end := b |> else if decide (new = x) then n2 else areas s x) as E2.
  { intros x. unfold s2. cbn. unfold insert, fn_insert. rewrite (decide_False (P := new = a)) by done. rewrite Ea1 by done.
    repeat case_decide; subst; try done. by apply Ea1. }
  apply bind_inv in Hr as (c & s3 & Hc & Hr).
  assert (geo s2 s3) as G3.
  { refine (vma_copy_links_geo _ _ _ _ _ Hc). }
  apply bind_inv in Hr as (t & s4 & Ht & Hr). assert (t = tcbs s3 task /\ s4 = s3) as [-> ->] by by injection Ht as <- <-.
  apply bind_inv in Hr as (l & s4 & Hl & Hr). assert (l = vmas s3 task /\ s4 = s3) as [-> ->] by by injection Hl as <- <-.
  apply bind_inv in Hr as ([] & s4 & Hset & Hr). apply set_vmas_spec in Hset as (Ev & Ea & Et).
  assert (geo s4 s') as G4 by (refine ((_ : keeps geo _) _ _ _ Hr); keep).
  assert (forall x, same_area (areas s2 x) (areas s' x)) as Hs by (intros x; etrans; [apply G3|]; rewrite <- Ea; apply G4).
  rewrite (vmas_geo _ _ _ G4), Ev, (vmas_geo _ _ _ G3). change (vmas s2 task) with (vmas s1 task). rewrite Ev1.
  assert (same_area n2 (areas s' new)) as (N1 & N2 & N3 & N4).
  { specialize (Hs new). by rewrite E2, decide_False, decide_True in Hs. }
  apply trimmed_split; [done|done|done|done|done|done|..].
  - intros x Hx Hxn. specialize (Hs x). by rewrite E2, !decide_False in Hs.
  - symmetry. specialize (Hs a). by rewrite E2, decide_True in Hs.
  - by rewrite <- N1.
  - by rewrite <- N2.
  - intros p. unfold target. rewrite <- N1, <- N3, <- N4. f_equal.
    change (u32 (u32 (file_offset (areas s a) + e - pfn_start (areas s a)) + (p - e)) = u32 (file_offset (areas s a) + (p - pfn_start (areas s a)))).
    rewrite <- (u32_target _ (e - pfn_start (areas s a)) p (pfn_start (areas s a)) e) by done.
    by replace (file_offset (areas s a) + e - pfn_start (areas s a)) with (file_offset (areas s a) + (e - pfn_start (areas s a))) by lia.
Qed.

Lemma bug_on_ret {S : Type} (c : bool) w (s s' : S) : bug_on c w s = Ret tt s' -> s' = s.
Proof. unfold bug_on. destruct c; congruence. Qed.
Lemma vma_split_backed (s s' : St) task a b e r : a ∈ vmas s task -> area_memory s task -> split_memory s task a ->
  vma_split a task b e s = Ret r s' -> 0 <= r -> backed s s' task a.
Proof.
  intros Ha Hmem Hsp. unfold vma_split. intros (new & s1 & Hnew & Hr)%bind_inv Hr0.
  revert Hnew. unfold vma_new. intros (x & s0 & Hz & Hx)%bind_inv. revert Hz. unfold kzalloc.
  destruct (Malloc.kzalloc _ _ _) as [[y h]|] eqn:Ez; [|done]. intros [= <- <-].
  assert (y <> 0) as Hy0 by by eapply kzalloc_nonzero, Ez. rewrite (proj2 (Z.eqb_neq y 0)) in Hx by done.
  revert Hx. unfold set_area. vrun. intros [= <- <-]. rewrite (proj2 (Z.eqb_neq y 0)) in Hr by done.
  pose proof (Hmem _ _ Ez) as Hfresh. pose proof (Hsp _ _ Ez) as Hlinks. assert (a <> y) as Han by by intros ->.
  apply bind_inv in Hr as (v & s2 & [= <- <-] & Hr).
  apply bind_inv in Hr as ([] & s2 & Hbug & Hr).
  apply bug_on_ret in Hbug as ->.
  apply bind_inv in Hr as ([] & s2 & Hs2 & Hr). injection Hs2 as <-.
  apply bind_inv in Hr as ([] & s2 & Hs2 & Hr). injection Hs2 as <-.
  match type of Hr with _ ?x = _ => set (s2 := x) in * end.
  assert (forall x, vm_obj_list (areas s2 x) = if decide (y = x) then [] else vm_obj_list (areas s x)) as E2.
  { intros x. unfold s2. cbn. unfold insert, fn_insert. repeat case_decide; by subst. }
  assert (links s2 = links s /\ mheap s2 = h /\ vmas s2 task = vmas s task) as (El2 & Eh2 & Ev2) by done. clearbody s2.
  apply bind_inv in Hr as (c & s3 & Hc & Hr). unfold vma_copy_links in Hc.
  apply bind_inv in Hc as (v & s2' & [= <- <-] & Hc). apply bind_inv in Hc as ([] & s2' & Hbug & Hc). apply bug_on_ret in Hbug as ->.
  apply bind_inv in Hc as ([] & s3' & Hc & Hc'). injection Hc' as _ ->.
  assert (vm_obj_list (areas s2 a) = vm_obj_list (areas s a)) as Ea by (by rewrite E2, decide_False).
  pose proof (copy_links_geo _ _ _ _ _ Hc) as G3.
  apply (copy_links_objects y _ _ _ (task_links s task)) in Hc as (C1 & C2 & C3).
  2: { by rewrite Ea, Eh2. }
  2: { intros k Hk. rewrite Ea in Hk. apply list_elem_of_bind. by exists a. }
  2: { intros k. rewrite E2, decide_True by done. by intros ?%elem_of_nil. }
  apply bind_inv in Hr as (t & s4 & Ht & Hr). assert (t = tcbs s3 task /\ s4 = s3) as [-> ->] by by injection Ht as <- <-.
  apply bind_inv in Hr as (l & s4 & Hl & Hr). assert (l = vmas s3 task /\ s4 = s3) as [-> ->] by by injection Hl as <- <-.
  apply bind_inv in Hr as ([] & s4 & Hset & Hr). pose proof Hset as Hset'. apply set_vmas_spec in Hset as (Ev & Ea4 & Et).
  assert (links s4 = links s3) as El4 by by injection Hset' as <-. clear Hset'.
  assert (same_links s4 s') as G4 by (refine ((_ : keeps same_links _) _ _ _ Hr); keep).
  assert (forall x, objects s' x = objects s3 x) as Eo.
  { intros x. rewrite (same_links_objects _ _ _ G4). unfold objects. by rewrite El4, Ea4. }
  assert (forall x, x ∈ vmas s task -> objects s3 x = objects s x) as Eold.
  { intros x Hx. assert (x <> y) by by intros ->. unfold objects. rewrite C2, E2, decide_False by done.
    apply list_fmap_ext. intros i k Hk%list_elem_of_lookup_2. rewrite C1, El2; [done|]. apply list_elem_of_bind. by exists x. }
  split.
  - intros x Hx _. by rewrite Eo, Eold.
  - intros x Hx Hxn. assert (x = y) as ->.
    { assert (vmas s' task = insert_before y a (vmas s task)) as E.
      { destruct G4 as (_ & _ & G41 & G42). unfold vmas. rewrite G41, G42. fold (vmas s4 task).
        by rewrite Ev, (vmas_geo _ _ _ G3), Ev2. }
      rewrite E in Hx. by apply elem_of_insert_before in Hx as [->|Hx]. }
    rewrite Eo, C3. unfold objects at 1. rewrite E2, decide_True by done. rewrite Ea, El2. done.
Qed.

Lemma vma_unmap_trims (s s' : St) task a b e r : 0 <= r -> areas_ok (areas s) (vmas s task) -> a ∈ vmas s task ->
  (pfn_start (areas s a) < b -> e < pfn_end (areas s a) -> area_memory s task) -> b < e ->
  (exists p, inside (areas s a) p /\ b <= p < e) ->
  vma_unmap a task b e s = Ret r s' -> trimmed (areas s) (vmas s task) (areas s') (vmas s' task) a b e.
Proof.
  intros Hr0 Hok Ha Hmem Hbe (p & Hp & Hpr). unfold inside in Hp. unfold vma_unmap. intros (v & s1 & [= <- <-] & Hr)%bind_inv. revert Hr.
  destruct (Z.ltb_spec (pfn_start (areas s a)) b), (Z.ltb_spec e (pfn_end (areas s a))); cbn [andb].
  - intros Hr. by eapply vma_split_trims; auto.
  - rewrite (proj2 (Z.leb_gt _ _)), (proj2 (Z.leb_le (pfn_end (areas s a)) e)) by lia. cbn [andb orb].
    apply vma_shrink_trims; [done|done|left; lia].
  - rewrite (proj2 (Z.leb_le _ _)) by lia. cbn [andb orb]. apply vma_shrink_trims; [done|done|right; lia].
  - rewrite (proj2 (Z.leb_le b _)), (proj2 (Z.leb_le (pfn_end (areas s a)) e)) by lia. cbn [andb orb].
    intros Hr. by eapply vma_destroy_trims.
Qed.

(** No object goes when the area is only cut or split. *)
Lemma vma_unmap_backed (s s' : St) task a b e r : 0 <= r -> a ∈ vmas s task ->
  (pfn_start (areas s a) < b -> e < pfn_end (areas s a) -> area_memory s task /\ split_memory s task a) ->
  ~ (b <= pfn_start (areas s a) /\ pfn_end (areas s a) <= e) ->
  vma_unmap a task b e s = Ret r s' -> backed s s' task a.
Proof.
  intros Hr0 Ha Hmem Hno. unfold vma_unmap. intros (v & s1 & [= <- <-] & Hr)%bind_inv. revert Hr.
  destruct (Z.ltb_spec (pfn_start (areas s a)) b), (Z.ltb_spec e (pfn_end (areas s a))); cbn [andb].
  - intros Hr. destruct Hmem; [done..|]. by eapply vma_split_backed.
  - rewrite (proj2 (Z.leb_gt _ _)), (proj2 (Z.leb_le (pfn_end (areas s a)) e)) by lia. cbn [andb orb].
    intros Hr. by eapply same_links_backed, vma_shrink_links.
  - rewrite (proj2 (Z.leb_le _ _)) by lia. cbn [andb orb]. intros Hr. by eapply same_links_backed, vma_shrink_links.
  - lia.
Qed.
Lemma backing_same (s s' : St) task p os : areas s' = areas s -> links s' = links s -> vmas s' task = vmas s task ->
  backing s' task p os <-> backing s task p os.
Proof. intros Ea El Ev. unfold backing, objects. by rewrite Ea, El, Ev. Qed.

Lemma areas_ok_same m m' l : (forall x, same_area (m x) (m' x)) -> areas_ok m l -> areas_ok m' l.
Proof.
  intros Hm [H1 H2 H3]. split; [done|..].
  - intros a Ha. destruct (Hm a) as (<- & <- & _). auto.
  - intros a b p Ha Hb Hp%(same_inside _ _ p (Hm a)) Hq%(same_inside _ _ p (Hm b)). by eapply H3.
Qed.
Lemma maps_same m m' l p y : (forall x, same_area (m x) (m' x)) -> maps m l p y <-> maps m' l p y.
Proof.
  intros Hm. unfold maps. split; intros (a & Ha & Hp & ->); exists a; (split; [done|]);
    (split; [by apply (same_inside _ _ p (Hm a))|]); [|symmetry]; by apply same_target.
Qed.

Lemma munmap_vmas_unmaps b e task : b < e -> forall rem (s s' : St), areas_ok (areas s) (vmas s task) ->
  NoDup rem -> (forall x, x ∈ rem -> x ∈ vmas s task) ->
  (forall x p, x ∈ vmas s task -> x ∉ rem -> inside (areas s x) p -> ~ b <= p < e) ->
  (area_memory s task \/ forall x, x ∈ rem -> ~ (pfn_start (areas s x) < b /\ e < pfn_end (areas s x))) ->
  munmap_vmas rem task b e s = Ret 0 s' ->
  areas_ok (areas s') (vmas s' task) /\
  (forall p y, maps (areas s') (vmas s' task) p y <-> maps (areas s) (vmas s task) p y /\ ~ b <= p < e) /\
  ((forall x, x ∈ rem -> ~ (b <= pfn_start (areas s x) /\ pfn_end (areas s x) <= e)) ->
   (forall x, x ∈ rem -> pfn_start (areas s x) < b -> e < pfn_end (areas s x) -> split_memory s task x) ->
   forall p os, ~ b <= p < e -> backing s' task p os <-> backing s task p os).
Proof.
  intros Hbe. induction rem as [|a rem IH]; intros s s' Hok Hd Hin Hout Hmem Hr; cbn [munmap_vmas] in Hr.
  { injection Hr as <-. split; [done|]. split; [|done]. intros p y. split; [|tauto]. intros (x & Hx & Hp & ->).
    split; [by exists x|]. eapply Hout; [done|apply not_elem_of_nil|done]. }
  apply NoDup_cons in Hd as [Hna Hd].
  assert (a ∈ vmas s task) as Ha by (apply Hin; by left). pose proof (ok_range _ _ Hok a Ha) as Hra.
  apply bind_inv in Hr as (v & s0 & [= <- <-] & Hr).
  destruct (set_intersection b e (pfn_start (areas s a)) (pfn_end (areas s a))) eqn:Ei.
  - apply bind_inv in Hr as (err & s1 & Hf & Hr). pose proof (vma_flush_pages_geo _ _ _ _ Hf) as Gh. pose proof (geo_heap_geo _ _ Gh) as G1.
    assert (mheap s1 = mheap s) as Eh by apply Gh.
    destruct (err <? 0) eqn:Ee; [injection Hr as -> ->; done|].
    apply bind_inv in Hr as (err2 & s2 & Hu & Hr). destruct (err2 <? 0) eqn:Ee2; [injection Hr as -> ->; done|].
    apply Z.ltb_ge in Ee2.
    pose proof (vmas_geo _ _ task G1) as Ev1. destruct G1 as (G1 & _ & _).
    pose proof (areas_ok_same _ _ _ G1 Hok) as Hok1. rewrite <- Ev1 in Hok1.
    assert (exists p, inside (areas s a) p /\ b <= p < e) as (p & Hp & Hpr).
    { destruct (set_intersection_spec b e (pfn_start (areas s a)) (pfn_end (areas s a)) Hbe ltac:(lia)) as [_ Hc].
      unfold set_intersection in Ei.
      exists (Z.max b (pfn_start (areas s a))). unfold inside.
      destruct (Z.leb_spec e (pfn_start (areas s a))), (Z.leb_spec (pfn_end (areas s a)) b); cbn in Ei; try done. lia. }
    destruct Gh as (Eas & Els & _).
    assert (pfn_start (areas s a) < b -> e < pfn_end (areas s a) -> area_memory s1 task) as Hmem1.
    { intros Hb He. destruct Hmem as [Hmem|Hno]; [|exfalso; by apply (Hno a); [left|]]. intros new h. rewrite Eh, Ev1. apply Hmem. }
    pose proof (vma_unmap_trims s1 s2 task a b e err2) as T. rewrite Eas, Ev1 in T.
    specialize (T Ee2 Hok Ha Hmem1 Hbe (ex_intro _ p (conj Hp Hpr)) Hu). pose proof T as [T1 T2 T3 T4].
    assert (~ (b <= pfn_start (areas s a) /\ pfn_end (areas s a) <= e) ->
      (pfn_start (areas s a) < b -> e < pfn_end (areas s a) -> split_memory s task a) ->
      forall p os, ~ b <= p < e -> backing s2 task p os <-> backing s task p os) as Hback.
    { intros Hno Hsp q os Hq. rewrite <- (backing_same s s1) by done. apply (trimmed_backing _ _ _ a b e); rewrite ?Eas, ?Ev1; try done.
      apply (vma_unmap_backed _ _ _ _ b e err2); rewrite ?Eas, ?Ev1; try done. intros H1 H2. split; [by apply Hmem1|].
      intros new h. rewrite Eh. intros Hz. unfold task_links. rewrite Ev1, Eas. by apply (Hsp H1 H2 new h). }
    assert (forall x, x ∈ rem -> x ∈ vmas s2 task /\ same_area (areas s x) (areas s2 x)) as Hsame'
      by (intros x Hx; apply T3; [by apply Hin; right|by intros ->]).
    assert (forall x, x ∈ rem -> same_area (areas s x) (areas s2 x)) as Hsame by (intros x Hx; by apply Hsame').
    assert (forall x, x ∈ rem -> ~ (pfn_start (areas s2 x) < b /\ e < pfn_end (areas s2 x))) as Hsplit.
    { intros x Hx [H1 H2]. assert (x <> a) as Hxa by (by intros ->). destruct (Hsame x Hx) as (E1 & E2 & _).
      apply Hxa. apply (ok_apart _ _ Hok x a p); [by apply Hin; right|done|unfold inside in *; lia|done]. }
    destruct (IH s2 s') as (Hok' & Hmaps & Hobj); [done|done|..|done|].
    + intros x Hx. by apply Hsame'.
    + intros x q Hx Hxr Hq. destruct (T4 x Hx) as [[Hx' Hxa]|Hno]; [|by apply Hno].
      destruct (T3 x Hx' Hxa) as [_ Hs]. apply (Hout x q Hx'); [by intros [->|?]%elem_of_cons|].
      by apply (same_inside _ _ q Hs).
    + right. intros x Hx. by apply Hsplit.
    + split; [done|]. split; [intros q y; rewrite Hmaps, T2; tauto|].
      intros Hno Hsp q os Hq. rewrite Hobj; [|intros x Hx|intros x Hx H1 H2; by destruct (Hsplit x Hx)|done].
      * apply Hback; [apply Hno; by left|apply Hsp; by left|done].
      * destruct (Hsame x Hx) as (<- & <- & _). apply Hno. by right.
  - destruct (IH s s' Hok Hd) as (R1 & R2 & R3);
      [by intros x Hx; apply Hin; right|..|destruct Hmem as [|Hno]; [by left|right; intros x Hx; apply Hno; by right]|done|].
    2: { split; [done|]. split; [done|]. intros Hno Hsp. apply R3; intros x Hx; [apply Hno|apply Hsp]; by right. }
    intros x q Hx Hxr Hq. destruct (decide (x = a)) as [->|Hxa]; [|apply (Hout x q Hx); [by intros [->|?]%elem_of_cons|done]].
    intros Hqr. destruct (set_intersection_spec b e (pfn_start (areas s a)) (pfn_end (areas s a)) Hbe ltac:(lia)) as [Hc _].
    by apply (Hc Ei q).
Qed.

(** C21: [do_munmap] takes exactly its range away: when it succeeds no area of the
    task has a page of the range, every page outside of it is mapped to the same
    file page with the same flags as before, and the areas are apart again,
    however many of them were cut, split or deleted.  When no area lies wholly in
    the range, so that areas are only cut or split and none is deleted, every page
    outside of the range is backed by the same objects as before, in their
    order. *)
Theorem do_munmap_unmaps_the_range (s s' : St) task vaddr n :
  areas_ok (areas s) (vmas s task) -> area_memory s task -> 0 < n -> __pfn vaddr + n < 2 ^ 32 -> 0 <= __pfn vaddr ->
  do_munmap task vaddr n s = Ret 0 s' ->
  let b := __pfn vaddr in
  let e := __pfn vaddr + n in
  areas_ok (areas s') (vmas s' task) /\
  (forall p y, maps (areas s') (vmas s' task) p y <-> maps (areas s) (vmas s task) p y /\ ~ b <= p < e) /\
  ((forall x, x ∈ vmas s task -> ~ (b <= pfn_start (areas s x) /\ pfn_end (areas s x) <= e)) ->
   (forall x, x ∈ vmas s task -> pfn_start (areas s x) < b -> e < pfn_end (areas s x) -> split_memory s task x) ->
   forall p os, ~ b <= p < e -> backing s' task p os <-> backing s task p os).
Proof.
  intros Hok Hmem Hn Hv Hv0. unfold do_munmap, task_vmas. vrun. fold (vmas s task).
  rewrite (u32_id (__pfn vaddr + n)) by (unfold is_u32; lia).
  apply munmap_vmas_unmaps; [lia|done|apply (ok_dup _ _ Hok)|done|done|by left].
Qed.
End Regions.

(** * On a concrete task *)

(** Three areas, all of whose pages are in the page tables: [demo_range] cuts the
    first short, covers the second and takes the beginning of the third. *)
Definition demo_regions : mm ptab :=
  after (init_devzero ;; do_mmap 0 0 1 0x10010000 rw 16 ;; do_mmap 0 0 1 0x10020000 rw 2 ;; do_mmap 0 0 1 0x10030000 rw 16)
    mm_empty <| kern := fun _ _ => Some (0, 0) |>.
Lemma demo_vmas : vmas demo_regions 1 = [4216; 4292; 4368].
Proof. vm_compute. reflexivity. Qed.
Lemma demo_areas : let v := areas demo_regions in
  (pfn_start (v 4216) = 0x10010 /\ pfn_end (v 4216) = 0x10020) /\
  (pfn_start (v 4292) = 0x10020 /\ pfn_end (v 4292) = 0x10022) /\
  (pfn_start (v 4368) = 0x10030 /\ pfn_end (v 4368) = 0x10040).
Proof. vm_compute. repeat split. Qed.
Lemma demo_regions_ok : areas_ok (areas demo_regions) (vmas demo_regions 1).
Proof.
  rewrite demo_vmas. generalize demo_areas. cbv zeta. generalize (areas demo_regions). intros m ((A1 & A2) & (B1 & B2) & (C1 & C2)). split.
  - repeat constructor; set_solver.
  - intros a. rewrite !elem_of_cons. intros [->|[->|[->|Hx%elem_of_nil]]]; lia.
  - intros a b p. rewrite !elem_of_cons. unfold inside.
    intros [->|[->|[->|Hx%elem_of_nil]]] [->|[->|[->|Hy%elem_of_nil]]]; try done; rewrite ?A1, ?A2, ?B1, ?B2, ?C1, ?C2; lia.
Qed.
Lemma demo_memory : area_memory demo_regions 1.
Proof.
  intros new h E.
  assert (fst <$> Malloc.kzalloc heap_array SIZEOF_VM_AREA (mheap demo_regions) = Some 4444) as E' by (vm_compute; reflexivity).
  rewrite E in E'. assert (new = 4444) as -> by (by injection E'). clear E E'. rewrite demo_vmas. set_solver.
Qed.

(** The hole from page frame [0x10014] to [0x10018] lies inside the first area. *)
Lemma demo_links : (fun x => vm_obj_list (areas demo_regions x)) <$> [4216; 4292; 4368] = [[4260]; [4336]; [4412]].
Proof. vm_compute. reflexivity. Qed.
Lemma demo_heap : (Malloc.kzalloc heap_array SIZEOF_VM_AREA (mheap demo_regions))
  ≫= (fun x => fst <$> Malloc.kzalloc heap_array SIZEOF_VM_OBJ_LINK x.2) = Some 4488.
Proof. vm_compute. reflexivity. Qed.
Lemma demo_split_memory x : x ∈ vmas demo_regions 1 -> split_memory demo_regions 1 x.
Proof.
  rewrite demo_vmas. intros Hx new h E.
  pose proof demo_heap as Eh. rewrite E in Eh. cbn [option_bind mbind snd] in Eh. clear E.
  assert (task_links demo_regions 1 = [4260; 4336; 4412]) as ->.
  { unfold task_links. rewrite demo_vmas. pose proof demo_links as El. revert El. generalize (areas demo_regions).
    intros m El. injection El as E1 E2 E3. cbn. by rewrite E1, E2, E3. }
  assert (length (vm_obj_list (areas demo_regions x)) = 1%nat) as ->.
  { pose proof demo_links as El. revert El Hx. clear. generalize (areas demo_regions). intros m El. injection El as E1 E2 E3.
    rewrite !elem_of_cons. intros [->|[->|[->|Hx%elem_of_nil]]]; [by rewrite E1|by rewrite E2|by rewrite E3|done]. }
  intros k h' Ek. split; [|done]. rewrite Ek in Eh. injection Eh as ->. set_solver.
Qed.
Lemma demo_none_inside x : x ∈ vmas demo_regions 1 ->
  ~ (__pfn 0x10014000 <= pfn_start (areas demo_regions x) /\ pfn_end (areas demo_regions x) <= __pfn 0x10014000 + 4).
Proof.
  change (__pfn 0x10014000) with 0x10014. rewrite demo_vmas. generalize demo_areas. cbv zeta. generalize (areas demo_regions).
  intros m ((A1 & A2) & (B1 & B2) & (C1 & C2)). rewrite !elem_of_cons. intros [->|[->|[->|Hx%elem_of_nil]]]; (lia || done).
Qed.
Lemma do_munmap_unmaps_the_range_witness : let s := demo_regions in
  (let s' := after (do_munmap 1 0x10018000 40) s in
   areas_ok (areas s') (vmas s' 1) /\
   forall p y, maps (areas s') (vmas s' 1) p y <->
     maps (areas s) (vmas s 1) p y /\ ~ __pfn 0x10018000 <= p < __pfn 0x10018000 + 40) /\
  (let s' := after (do_munmap 1 0x10014000 4) s in
   areas_ok (areas s') (vmas s' 1) /\
   forall p os, ~ __pfn 0x10014000 <= p < __pfn 0x10014000 + 4 -> backing s' 1 p os <-> backing s 1 p os).
Proof.
  split.
  - edestruct (do_munmap_unmaps_the_range demo_regions (after (do_munmap 1 0x10018000 40) demo_regions) 1 0x10018000 40)
      as (H1 & H2 & _); [apply demo_regions_ok|apply demo_memory|done|done|done|apply returned_after; vm_compute; reflexivity|].
    split; [exact H1|exact H2].
  - edestruct (do_munmap_unmaps_the_range demo_regions (after (do_munmap 1 0x10014000 4) demo_regions) 1 0x10014000 4)
      as (H1 & _ & H3); [apply demo_regions_ok|apply demo_memory|done|done|done|apply returned_after; vm_compute; reflexivity|].
    split; [exact H1|]. apply H3; [|intros x Hx _ _; by apply demo_split_memory].
    apply demo_none_inside.
Defined.
Lemma find_unmapped_area_is_free_witness : let s := demo_regions in exists r, find_unmapped_area 8 1 s = Ret r s /\
  (r = 0 \/ exists pfn, r = pfn * PAGE_SIZE /\ (pfn + 8) * PAGE_SIZE <= map_end (tcbs s 1) /\
    forall p y, pfn <= p < pfn + 8 -> ~ maps (areas s) (vmas s 1) p y).
Proof.
  apply (find_unmapped_area_is_free demo_regions 1 8).
  - apply demo_regions_ok.
  - by rewrite demo_vmas.
  - done.
  - by vm_compute.
Defined.
