(* ===== verification/Files.v ===== *)
(** Files: theorems about [fs/memfs/file.c] and [mm/file.c]. *)
From S2P Require Import Prelude Bits Defs Words Malloc Pools PageAlloc Memfs Vm Shadow Pagecache Mmap Shm Forking Mmdemo.

(** * Pages of a file in memfs *)

Definition blocks_apart (f : memfs) (v n : Z) : Prop := forall x y, 0 <= x < n -> 0 <= y < n ->
  block_of f v x = block_of f v y -> x = y.
(** Page [x] of the file of vnode [v]. *)
Definition file_page (f : memfs) (v x : Z) : bytes := bdata f (block_of f v x).

Lemma buf_to_blocks_writes max n : forall v x b buf f, blocks_apart f v max -> 0 <= x -> x + Z.of_nat n <= max ->
  exists f', buf_to_blocks n v x b buf f = Ret tt f' /\ vnodes f' = vnodes f /\ inodes f' = inodes f /\
    forall y, 0 <= y < max ->
      file_page f' v y = if (x <=? y) && (y <? x + Z.of_nat n) then buf (b + (y - x)) else file_page f v y.
Proof.
  induction n as [|n IH]; intros v x b buf f Ha Hx Hmax; cbn [buf_to_blocks].
  - exists f. split_and!; [done..|]. intros y Hy. destruct (Z.leb_spec x y), (Z.ltb_spec y (x + Z.of_nat 0)); (lia || done).
  - run. unfold bput. run. match goal with |- context [buf_to_blocks n _ _ _ _ ?s] => set (f1 := s) end.
    assert (forall y, block_of f1 v y = block_of f v y) as Ev by done.
    destruct (IH v (x + 1) (b + 1) buf f1) as (f' & -> & Ev' & Ei' & Hp);
      [intros y z Hy Hz; rewrite !Ev; apply Ha; lia|lia|lia|].
    exists f'. split; [done|]. split; [by rewrite Ev'|]. split; [by rewrite Ei'|]. intros y Hy. rewrite Hp by lia.
    assert (y <> x -> file_page f1 v y = file_page f v y) as Hne.
    { intros Hyx. unfold file_page. rewrite Ev. unfold f1. cbn. rewrite fn_lookup_insert_ne; [done|].
      intros E. assert (x = y) by (apply Ha; [lia|lia|done]). lia. }
    destruct (Z.leb_spec (x + 1) y), (Z.leb_spec x y), (Z.ltb_spec y (x + 1 + Z.of_nat n)), (Z.ltb_spec y (x + Z.of_nat (S n)));
      cbn [andb]; try lia; try (apply Hne; lia).
    + f_equal. lia.
    + replace y with x by lia. rewrite Z.sub_diag, Z.add_0_r. unfold file_page. rewrite Ev. unfold f1. cbn. by rewrite fn_lookup_insert.
Qed.
Lemma buf_to_blocks_others n : forall v x b buf f f' a, buf_to_blocks n v x b buf f = Ret tt f' ->
  (forall y, x <= y < x + Z.of_nat n -> block_of f v y <> a) ->
  inodes f' = inodes f /\ vnodes f' = vnodes f /\ bdata f' a = bdata f a.
Proof.
  induction n as [|n IH]; intros v x b buf f f' a; cbn [buf_to_blocks]; [by intros [= <-]|]. run. unfold bput. run. intros E Ha.
  apply (IH _ _ _ _ _ _ a) in E as (E1 & E2 & E3).
  - rewrite E1, E2, E3. split_and!; [done|done|]. cbn. apply fn_lookup_insert_ne, Ha. lia.
  - intros y Hy. apply (Ha y). lia.
Qed.
Lemma blocks_to_buf_reads n : forall v x b buf f, exists buf', blocks_to_buf n v x b buf f = Ret buf' f /\
  forall i, buf' i = if (b <=? i) && (i <? b + Z.of_nat n) then file_page f v (x + (i - b)) else buf i.
Proof.
  induction n as [|n IH]; intros v x b buf f; cbn [blocks_to_buf].
  - exists buf. split; [done|]. intros i. destruct (Z.leb_spec b i), (Z.ltb_spec i (b + Z.of_nat 0)); (lia || done).
  - run. destruct (IH v (x + 1) (b + 1) (<[b := bdata f (block_of f v x)]> buf) f) as (buf' & -> & Hb).
    exists buf'. split; [done|]. intros i. rewrite Hb.
    destruct (Z.leb_spec (b + 1) i), (Z.leb_spec b i), (Z.ltb_spec i (b + 1 + Z.of_nat n)), (Z.ltb_spec i (b + Z.of_nat (S n)));
      cbn [andb]; try lia; try (by rewrite fn_lookup_insert_ne by lia).
    + f_equal. lia.
    + replace i with b by lia. rewrite fn_lookup_insert. unfold file_page. do 2 f_equal. lia.
Qed.

Lemma pages_of_size x : 0 <= x -> x + PAGE_MASK < 2 ^ 32 -> __pfn (page_align_up x) = (x + PAGE_MASK) / PAGE_SIZE.
Proof.
  intros H1 H2. change (page_align_up x) with (page_align (u32 (x + PAGE_MASK))).
  rewrite page_align_floor by apply u32_range. rewrite pfn_div, Z.div_mul by done.
  by rewrite u32_id by (unfold is_u32, PAGE_MASK, PAGE_SIZE in *; lia).
Qed.


(** * On a concrete file *)

(** Vnode 1 is a file of [size] bytes whose page [x] is block [50 + x]; block
    [b] holds the byte [d b] throughout. *)
Definition demo_file (size : Z) (d : Z -> Z) : mm ptab := mm_empty
  <| mfs := memfs_none <| vnodes := <[1 := MkVnode 0x10000001 0 [] 0 0 S_IFREG 0 size 2]> (fun _ => no_vnode) |>
       <| inodes := <[2 := MkInode 1 S_IFREG 0 size (fun x => 50 + x)]> (inodes memfs_none) |>
       <| bdata := fun b _ => d b |> |>.
Definition BUF := 0x10010000.
(** Task 1 has a page of its own for a buffer and the file open. *)
Definition open_demo : prog (mm ptab) Z := init_devzero ;; do_mmap 0 0 1 BUF rw 1 ;; sys_open_vnode 1 1.
Definition read_at (f off : Z) : prog (mm ptab) Z := sys_lseek 1 f off SEEK_SET ;; sys_read 1 f BUF 1 ;; load 1 BUF.


(** nothing marks the pages or the object of a file that [write] has written
    to, and [fsync] writes back marked ones only.  A task appends the byte [v]
    to a file of one page and calls [fsync], which succeeds: the file's size
    has grown, but no block of the file system has changed; the byte is in the
    page cache alone. *)
Theorem written_data_stays_in_the_cache (v : Z) (d : Z -> Z) :
  returned ((f ← open_demo; store 1 BUF v ;;
    sys_lseek 1 f PAGE_SIZE SEEK_SET ;; n ← sys_write 1 f BUF 1; r ← sys_fsync 1 f;
    size ← gets (fun s => v_size (vnodes (mfs s) 1)); blocks ← gets (fun s => bdata (mfs s));
    x ← read_at f PAGE_SIZE; mret (n, r, size, blocks, x)) (demo_file PAGE_SIZE d)) =
  Some (1, 0, PAGE_SIZE + 1, fun b _ => d b, v).
Proof. vm_compute. reflexivity. Qed.

Lemma no_new_pages (K : Type) `{kernel_abi K} `{layout} (s : mm K) f x : pga_free (mpages s) <> 1 ->
  new_file_pages f x x s = Bug "alloc_page: null area".
Proof.
  intros Hf. unfold new_file_pages, alloc_page, with_pages, PageAlloc.alloc_page, check_page_areas. rewrite Z.sub_diag. run.
  by rewrite (proj2 (Z.eqb_neq _ _)).
Qed.
(** A write that makes no new page of the file asks the page allocator for
    no pages, and uses the null pointer it gets: any [write] inside a file whose
    pages are in the cache halts the pager. *)
Theorem write_inside_a_file_halts (K : Type) `{kernel_abi K} `{layout} (s s1 : mm K) task fdn buf count :
  let d := fd (fd_heads s (files (tcbs s task))) fdn in
  let first := __pfn (cursor d) in
  let last := __pfn (page_align_up (u32 (cursor d + count))) in
  0 <= fdn < TASK_FILES_MAX -> vmfile d <> 0 -> 0 < count -> first < last ->
  last < __pfn (page_align_up (flength (vm_files s (vmfile d)))) ->
  pager_validate_user_range task buf count (Z.lor VM_WRITE VM_READ) s = Ret 0 s ->
  read_file_pages (vmfile d) first last s = Ret 0 s1 -> pga_free (mpages s1) <> 1 ->
  sys_write task fdn buf count s = Bug "alloc_page: null area".
Proof.
  intros d first last Hfd Hvm Hc Hfl Hlast Hval Hread Hfree. unfold sys_write, bad_fd, get_fd.
  rewrite (proj2 (Z.ltb_ge fdn 0)), (proj2 (Z.ltb_ge TASK_FILES_MAX fdn)) by lia. cbn [orb].
  rewrite (proj2 (Z.eqb_neq fdn TASK_FILES_MAX)) by lia. vrun. fold d.
  rewrite (proj2 (Z.eqb_neq (vmfile d) 0)), (proj2 (Z.ltb_ge count 0)), (proj2 (Z.eqb_neq count 0)) by (done || lia).
  rewrite Hval. cbn [obind]. change (0 <? 0) with false. cbv iota beta. fold first last.
  rewrite (proj2 (Z.ltb_lt first _)) by lia. rewrite (proj2 (Z.ltb_lt last _)) by done. rewrite Hread. cbn [obind].
  change (0 <? 0) with false. cbv iota beta. by rewrite no_new_pages.
Qed.
Lemma validate_pages_pure (K : Type) `{kernel_abi K} `{layout} n : forall (s : mm K) task addr fl,
  exists r, validate_pages n task addr fl s = Ret r s.
Proof.
  induction n as [|n IH]; intros s task addr fl; cbn [validate_pages]; [by eexists|].
  unfold find_vma, task_vmas. vrun. destruct (_ =? 0); [by eexists|].
  destruct (negb _); [by eexists|]. apply IH.
Qed.
(** The task has read the first page and goes back to the beginning. *)
Definition demo_reader : mm ptab :=
  after (open_demo ;; store 1 BUF 7 ;; read_at 0 0 ;; sys_lseek 1 0 0 SEEK_SET) (demo_file (2 * PAGE_SIZE) id).
Lemma write_inside_a_file_halts_witness : sys_write 1 0 BUF 1 demo_reader = Bug "alloc_page: null area".
Proof.
  apply (write_inside_a_file_halts ptab demo_reader (after (read_file_pages (vmfile (fd (fd_heads demo_reader 201) 0)) 0 1) demo_reader) 1 0 BUF 1).
  - done.
  - vm_compute. discriminate.
  - done.
  - by vm_compute.
  - by vm_compute.
  - destruct (validate_pages_pure ptab 1 demo_reader 1 BUF (Z.lor VM_WRITE VM_READ)) as [r Hr].
    assert (returned (validate_pages 1 1 BUF (Z.lor VM_WRITE VM_READ) demo_reader) = Some 0) as E by (vm_compute; reflexivity).
    rewrite Hr in E. change (Some r = Some 0) in E. assert (r = 0) as -> by congruence. exact Hr.
  - apply returned_after. vm_compute. reflexivity.
  - vm_compute. discriminate.
Defined.

(** Pages that are brought in before one with a smaller number: with two
    larger ones in the cache the page goes between them, and the next [read]
    of it stops at the first page it finds. *)
Lemma reading_backwards_halts (d : Z -> Z) :
  (f ← open_demo; read_at f PAGE_SIZE ;; read_at f (2 * PAGE_SIZE) ;; read_at f 0) (demo_file (3 * PAGE_SIZE) d) =
  Bug "copy_cache_pages: left".
Proof. vm_compute. reflexivity. Qed.
