(* ===== verification/Names.v ===== *)
(** Names: theorems about [fs/path.c], [fs/lookup.c], [fs/memfs/vnode.c] and
    the path system calls of [mm/file.c].

    The names in memory are a graph: a directory has an edge to a vnode for each
    of its names.  [child] is an edge, [resolve] follows a path. *)
From S2P Require Import Prelude Bits Defs Words Malloc Pools PageAlloc Memfs Vm Shadow Pagecache Mmap Shm Forking Mmdemo Paths Vfs.

(** * The graph of names *)

Definition dir_entries (f : memfs) (v : Z) : list Z := d_children (dentries f (default 0 (head (vdentries (vnodes f v))))).
Definition find_name (f : memfs) (c : list Z) (l : list Z) : option (nat * Z) := list_find (fun d => d_name (dentries f d) = c) l.
Definition child (f : memfs) (v : Z) (c : list Z) : option Z :=
  (fun x => d_vnode (dentries f x.2)) <$> find_name f c (dir_entries f v).
Fixpoint resolve (f : memfs) (v : Z) (cs : list (list Z)) : Z :=
  match cs with
  | [] => v
  | c :: cs =>
      if vfs_isdir (vnodes f v) then
        match child f v c with Some w => resolve f w cs | None => PTR_ERR (- ENOENT) end
      else PTR_ERR (- ENOTDIR)
  end.
(** The name of a vnode. *)
Definition name_of (f : memfs) (v : Z) : list Z := d_name (dentries f (default 0 (head (vdentries (vnodes f v))))).

(** A directory was not read, or its buffer is a page, or an error. *)
Definition buffer_ok (x : vnode) : Prop :=
  dirbuf x = 0 \/ IS_ERR (dirbuf x) = true \/ dirbuf_npages x = 1 /\ is_page_aligned (dirbuf x) = true.
(** A vnode has one name, directories included, and the names in a directory differ. *)
Record vnode_ok (f : memfs) (v : Z) : Prop := {
  vk_inode : v_inode (vnodes f v) <> 0;
  vk_ptr : IS_ERR v = false /\ v <> 0;
  vk_name : exists d, vdentries (vnodes f v) = [d] /\ d ∈ dentry_cache f /\ d_vnode (dentries f d) = v;
  vk_dir : vfs_isdir (vnodes f v) = true ->
    0 <= v_size (vnodes f v) <= PAGE_SIZE /\ (v_size (vnodes f v) = 0 \/ dirbuf (vnodes f v) <> 0) /\ buffer_ok (vnodes f v) }.
Record dentry_ok (f : memfs) (d : Z) : Prop := {
  dk_vnode : d_vnode (dentries f d) ∈ vnode_cache f /\ vdentries (vnodes f (d_vnode (dentries f d))) = [d];
  dk_name : (length (d_name (dentries f d)) < Z.to_nat VFS_DNAME_MAX)%nat;
  dk_children : forall c, c ∈ d_children (dentries f d) -> c ∈ dentry_cache f;
  dk_distinct : NoDup ((fun c => d_name (dentries f c)) <$> d_children (dentries f d)) }.
Record tree_ok (f : memfs) : Prop := {
  tk_vnodes : forall v, v ∈ vnode_cache f -> vnode_ok f v;
  tk_dentries : forall d, d ∈ dentry_cache f -> dentry_ok f d }.

(** Blocks are pages of memory. *)
Definition block_cache_ok (c : mem_cache) : Prop :=
  cache_inv c /\ struct_size c = PAGE_SIZE /\ is_page_aligned (mc_start c) = true.
Definition blocks_ok (f : memfs) : Prop := Forall block_cache_ok (block_cache_list f).
Definition free_blocks (f : memfs) : Z := foldr (fun c n => mc_free c + n) 0 (block_cache_list f).

(** The same graph: only buffers of directories differ. *)
Definition same_vnode (v w : vnode) : Prop := exists n b, w = v <| dirbuf_npages := n |> <| dirbuf := b |>.
Record same_tree (f f' : memfs) : Prop := {
  st_vnodes : forall v, same_vnode (vnodes f v) (vnodes f' v);
  st_dentries : dentries f' = dentries f;
  st_caches : vnode_cache f' = vnode_cache f /\ dentry_cache f' = dentry_cache f;
  st_inodes : inodes f' = inodes f /\ inode_table f' = inode_table f /\ ipool f' = ipool f /\
    inode_cache_list f' = inode_cache_list f /\ fsidx f' = fsidx f }.

Lemma same_tree_refl f : same_tree f f.
Proof. split; [|done..]. intros v. exists (dirbuf_npages (vnodes f v)), (dirbuf (vnodes f v)). by destruct (vnodes f v). Qed.
Lemma same_tree_trans f g h : same_tree f g -> same_tree g h -> same_tree f h.
Proof.
  intros [V1 D1 [C1 C1'] (I1 & I2 & I3 & I4 & I5)] [V2 D2 [C2 C2'] (J1 & J2 & J3 & J4 & J5)].
  split; [|congruence|split; congruence|split_and!; congruence].
  intros v. destruct (V1 v) as (n & b & E), (V2 v) as (n' & b' & E'). exists n', b'. rewrite E', E. by destruct (vnodes f v).
Qed.
Lemma same_isdir f g v : same_tree f g -> vfs_isdir (vnodes g v) = vfs_isdir (vnodes f v).
Proof. intros [V _ _ _]. by destruct (V v) as (n & b & ->). Qed.
Lemma same_names f g v : same_tree f g -> vdentries (vnodes g v) = vdentries (vnodes f v).
Proof. intros [V _ _ _]. by destruct (V v) as (n & b & ->). Qed.
Lemma same_entries f g v : same_tree f g -> dir_entries g v = dir_entries f v.
Proof. intros H. unfold dir_entries. rewrite (same_names _ _ _ H). by destruct H as [_ -> _ _]. Qed.
Lemma same_child f g v c : same_tree f g -> child g v c = child f v c.
Proof. intros H. unfold child, find_name. rewrite (same_entries _ _ _ H). by destruct H as [_ -> _ _]. Qed.
Lemma same_name_of f g v : same_tree f g -> name_of g v = name_of f v.
Proof. intros H. unfold name_of. rewrite (same_names _ _ _ H). by destruct H as [_ -> _ _]. Qed.
Lemma same_resolve f g cs : same_tree f g -> forall v, resolve g v cs = resolve f v cs.
Proof.
  intros H. induction cs as [|c cs IH]; intros v; cbn; [done|].
  rewrite (same_isdir _ _ _ H), (same_child _ _ _ _ H). destruct (vfs_isdir _), (child f v c); auto.
Qed.

(** * Blocks *)

Lemma page_ptr_ok a : 0 < a < 2 ^ 32 -> is_page_aligned a = true -> IS_ERR a = false.
Proof.
  unfold is_page_aligned. intros Ha E%Z.eqb_eq. unfold IS_ERR, is_err. change PAGE_MASK with (Z.ones 12) in E. rewrite Z.land_ones in E by lia.
  apply Z.mod_divide in E as [k ->]; [|done]. unfold s32. destruct (Z.lt_ge_cases (k * 2 ^ 12) (2 ^ 31)).
  - rewrite Z.mod_small by lia. destruct (Z.ltb_spec (k * 2 ^ 12 + 2 ^ 31 - 2 ^ 31) 0); [lia|done].
  - replace (k * 2 ^ 12 + 2 ^ 31) with (k * 2 ^ 12 - 2 ^ 31 + 1 * 2 ^ 32) by lia. rewrite Z.mod_add, Z.mod_small by lia.
    apply andb_false_iff. right. apply Z.ltb_ge. lia.
Qed.
Lemma take_block_ok c : block_cache_ok c ->
  mc_free c = 0 \/ 0 < mc_free c /\ exists b c', mem_cache_alloc c = Some (b, c') /\ block_cache_ok c' /\ mc_free c' = mc_free c - 1 /\
    is_page_aligned b = true /\ 0 < b < 2 ^ 32 - PAGE_SIZE.
Proof.
  intros (Hi & Hs & Ha). destruct (record_alloc_run c Hi) as [[E _]|(Hp & b & Hb & Hf & ->)]; [by left|right].
  split; [done|]. do 2 eexists. split; [done|]. split; [split; [by apply take_bit_inv|done]|].
  split; [done|]. destruct (record_exact c b Hi Hb) as (_ & H1 & H2). destruct Hi as [_ ? [_ ?] _]. rewrite Hs in *. split; [|lia].
  unfold is_page_aligned in *. apply Z.eqb_eq in Ha. apply Z.eqb_eq. unfold record_of. rewrite ?Hs.
  change PAGE_MASK with (Z.ones 12) in *. rewrite Z.land_ones in * by lia. change PAGE_SIZE with (2 ^ 12).
  rewrite Z.mul_comm, Z.mod_add by done. done.
Qed.
Lemma alloc_block_from_run l : Forall block_cache_ok l ->
  let free := foldr (fun c n => mc_free c + n) 0 in
  0 <= free l /\ (free l = 0 /\ memfs_alloc_block_from l = Some (PTR_ERR (- ENOSPC), l) \/
  exists b l', memfs_alloc_block_from l = Some (b, l') /\ Forall block_cache_ok l' /\ free l' = free l - 1 /\
    is_page_aligned b = true /\ 0 < b < 2 ^ 32 - PAGE_SIZE).
Proof.
  intros Hl free. induction Hl as [|c l Hc Hl [IH0 IH]]; [split; [done|by left]|]. cbn [memfs_alloc_block_from free foldr].
  fold free. destruct (take_block_ok c Hc) as [E|(Hp & b & c' & -> & Hc' & Hf & Ha & Hb)].
  - rewrite E. cbn [Z.eqb negb]. split; [lia|]. destruct IH as [[E0 ->]|(b & l' & -> & Hl' & Hf & Ha & Hb)]; [left; by split; [lia|]|right].
    exists b, (c :: l'). split_and!; [done|by constructor|cbn [free foldr]; fold free; lia|done|lia|lia].
  - rewrite (proj2 (Z.eqb_neq (mc_free c) 0)) by lia. split; [lia|right]. exists b, (c' :: l). cbn [negb].
    split_and!; [done|by constructor|cbn [free foldr]; fold free; lia|done|lia|lia].
Qed.
(** A block that is given out changes its data and the caches only. *)
Lemma memfs_alloc_block_run f : blocks_ok f ->
  0 <= free_blocks f /\ (free_blocks f = 0 /\ memfs_alloc_block f = Ret (PTR_ERR (- ENOSPC)) f \/
  exists b l, memfs_alloc_block f = Ret b (f <| block_cache_list := l |> <| bdata ::= fun m => <[b := zero_page]> m |>) /\
    Forall block_cache_ok l /\ foldr (fun c n => mc_free c + n) 0 l = free_blocks f - 1 /\
    is_page_aligned b = true /\ 0 < b < 2 ^ 32 - PAGE_SIZE /\ IS_ERR b = false).
Proof.
  intros Hf. destruct (alloc_block_from_run _ Hf) as [H0 H]. split; [done|]. unfold memfs_alloc_block. run.
  destruct H as [[E ->]|(b & l & -> & Hl & Hfree & Ha & Hb)].
  - left. split; [done|]. change (IS_ERR (PTR_ERR (- ENOSPC))) with true. cbn [negb]. run. by destruct f.
  - right. exists b, l. pose proof (page_ptr_ok b ltac:(unfold PAGE_SIZE in *; lia) Ha) as E. rewrite E. cbn [negb]. unfold bput. run. split_and!; [done..|lia|lia|done].
Qed.

(** Executes straight-line code on names. *)
Ltac nrun :=
  cbv beta iota zeta delta [mbind prog_bind mret prog_ret gets modify bug_on bug when
    obj file area link_obj set_obj set_file set_page set_area set_link set_shm put_data find_page
    vnode_at dentry_at set_fs];
  cbn [obind].

Section Names.
Context {K : Type} `{kernel_abi K} `{layout}.
Abbreviation St := (mm K).

Lemma fs_vmod v g (s : St) : with_fs (vmod v g) s =
  Ret tt (s <| mfs := mfs s <| vnodes := <[v := g (vnodes (mfs s) v)]> (vnodes (mfs s)) |> |>).
Proof. done. Qed.
Lemma fs_dmod d g (s : St) : with_fs (dmod d g) s =
  Ret tt (s <| mfs := mfs s <| dentries := <[d := g (dentries (mfs s) d)]> (dentries (mfs s)) |> |>).
Proof. done. Qed.
Lemma fs_bput b x (s : St) : with_fs (bput b x) s =
  Ret tt (s <| mfs := mfs s <| bdata := <[b := x]> (bdata (mfs s)) |> |>).
Proof. done. Qed.
Lemma fs_run {A} (m : prog memfs A) (s : St) a f : m (mfs s) = Ret a f -> with_fs m s = Ret a (s <| mfs := f |>).
Proof. intros E. unfold with_fs. by rewrite E. Qed.

(** * Reading a directory *)

(** Nothing is read of an empty directory. *)
Lemma read_nothing f v buf : v_size (vnodes f v) = 0 -> v_inode (vnodes f v) <> 0 ->
  memfs_file_read v 0 1 buf f = Ret (0, buf) f.
Proof. intros Hs Hi. unfold memfs_file_read. run. rewrite (proj2 (Z.eqb_neq _ 0) Hi).
  change (MEMFS_FMAX_BLOCKS <? u32 (0 + 1)) with false. run. by rewrite Hs. Qed.

Lemma same_tree_ok f g : same_tree f g ->
  (forall v, (dirbuf (vnodes f v) <> 0 -> dirbuf (vnodes g v) <> 0) /\ (buffer_ok (vnodes f v) -> buffer_ok (vnodes g v))) ->
  tree_ok f -> tree_ok g.
Proof.
  intros H1 Hd [Hv Hn]. destruct H1 as [V D [C C'] _]. split.
  - intros v. rewrite C. intros Hin. destruct (Hv v Hin) as [K1 K2 K3 K4]. destruct (Hd v) as [Hd1 Hd2]. destruct (V v) as (n & b & E).
    split; [by rewrite E|done| |].
    + destruct K3 as (d & E' & Hdc & Hdv). exists d. rewrite E, D, C'. done.
    + rewrite E in Hd1, Hd2 |- *. cbn in *. intros (Hs & Hb & Hbo)%K4. split; [done|]. split; [|by apply Hd2].
      destruct Hb as [|Hb]; [by left|right; by apply Hd1].
  - intros d. rewrite C'. intros Hin. destruct (Hn d Hin) as [[K1 K1'] K2 K3 K4]. split; rewrite ?D, ?C, ?C'; try done.
    split; [done|]. by destruct (V (d_vnode (dentries f d))) as (n & b & ->).
Qed.
(** A new buffer. *)
Lemma same_tree_buffer f g v b n : b <> 0 -> IS_ERR b = true \/ n = 1 /\ is_page_aligned b = true -> tree_ok f ->
  (forall w, vnodes g w = if decide (v = w) then vnodes f v <| dirbuf_npages := n |> <| dirbuf := b |> else vnodes f w) ->
  dentries g = dentries f -> (vnode_cache g = vnode_cache f /\ dentry_cache g = dentry_cache f) ->
  (inodes g = inodes f /\ inode_table g = inode_table f /\ ipool g = ipool f /\
   inode_cache_list g = inode_cache_list f /\ fsidx g = fsidx f) ->
  same_tree f g /\ tree_ok g.
Proof.
  intros Hb Hbo Hok V D C I. assert (same_tree f g) as Hs.
  { split; [|done..]. intros w. rewrite V. case_decide as E; [subst; by eexists _, _|].
    exists (dirbuf_npages (vnodes f w)), (dirbuf (vnodes f w)). by destruct (vnodes f w). }
  split; [done|]. apply (same_tree_ok f); [done| |done]. intros w. rewrite V. case_decide; [|done]. split; [done|]. intros _. by right.
Qed.

(** What a call that reads directories may change. *)
Record reads (s s' : St) : Prop := {
  rd_only : s' = s <| mfs := mfs s' |> ;
  rd_tree : same_tree (mfs s) (mfs s');
  rd_ok : tree_ok (mfs s');
  rd_blocks : blocks_ok (mfs s');
  rd_free : free_blocks (mfs s') <= free_blocks (mfs s);
  rd_bufs : 0 < free_blocks (mfs s') -> forall v, IS_ERR (dirbuf (vnodes (mfs s) v)) = false -> IS_ERR (dirbuf (vnodes (mfs s') v)) = false }.
Lemma reads_refl s : tree_ok (mfs s) -> blocks_ok (mfs s) -> reads s s.
Proof. intros. split; [by destruct s|apply same_tree_refl|done|done|done|done]. Qed.

Lemma memfs_vnode_readdir_run (s : St) v : tree_ok (mfs s) -> blocks_ok (mfs s) -> v ∈ vnode_cache (mfs s) ->
  vfs_isdir (vnodes (mfs s) v) = true ->
  exists r s', memfs_vnode_readdir v s = Ret r s' /\ reads s s' /\
    (r = 0 /\ free_blocks (mfs s) - 1 <= free_blocks (mfs s') /\ dirbuf (vnodes (mfs s') v) <> 0 /\
       (IS_ERR (dirbuf (vnodes (mfs s) v)) = false -> IS_ERR (dirbuf (vnodes (mfs s') v)) = false) \/
     r = - ENOSPC /\ free_blocks (mfs s) = 0).
Proof.
  intros Hok Hb Hv Hdir. destruct (tk_vnodes _ Hok v Hv) as [K1 K2 (d & Ed & _) K4].
  destruct (K4 Hdir) as (Hs & Hbuf & _). unfold memfs_vnode_readdir, only_dentry. nrun.
  rewrite (proj2 (Z.eqb_neq _ 0) K1). cbn [obind]. rewrite Ed, Hdir. cbn [negb length Nat.ltb Nat.leb default head obind]. nrun.
  destruct (Z.eqb_spec (dirbuf (vnodes (mfs s) v)) 0) as [E0|E0].
  2: { cbn [negb]. exists 0, s. split; [done|]. split; [by apply reads_refl|]. left. by split_and!; [|lia|..]. }
  destruct Hbuf as [Hz|Hbuf]; [|done]. cbn [negb].
  destruct (memfs_alloc_block_run (mfs s) Hb) as [H0' [[Hf E]|(b & l & E & Hl & Hf & Hal & Hb0 & Hbe)]];
    rewrite (fs_run _ _ _ _ E); nrun; rewrite fs_vmod; cbn [obind].
  - change (IS_ERR (PTR_ERR (- ENOSPC))) with true. cbn [obind].
    do 2 eexists. split; [done|]. split; [|right; by split].
    match goal with |- reads s ?t => destruct (same_tree_buffer (mfs s) (mfs t) v (PTR_ERR (- ENOSPC)) (dirbuf_npages (vnodes (mfs s) v))) as [H1 H2] end;
      [done|by left|done| |done..|split; [by destruct s|done|done|exact Hb|done|change (0 < free_blocks (mfs s) -> forall w, IS_ERR (dirbuf (vnodes (mfs s) w)) = false -> IS_ERR (dirbuf ((<[v := vnodes (mfs s) v <| dirbuf := PTR_ERR (- ENOSPC) |>]> (vnodes (mfs s))) w)) = false); lia]].
    intros w. cbn. case_decide as Ew; [subst w; rewrite fn_lookup_insert; by destruct (vnodes (mfs s) v)|by rewrite fn_lookup_insert_ne].
  - rewrite Hbe. rewrite fs_vmod. nrun. rewrite Hz. change (PAGE_SIZE <? 0) with false. rewrite Hal. cbn [negb obind].
    match goal with |- context [with_fs (memfs_file_read _ _ _ _) ?t] => set (s1 := t) end.
    assert (vnodes (mfs s1) v = vnodes (mfs s) v <| dirbuf := b |> <| dirbuf_npages := 1 |>) as E1.
    { unfold s1. cbn. by rewrite !fn_lookup_insert. }
    rewrite (fs_run (A := Z * (Z -> bytes)) _ _ _ _ (read_nothing (mfs s1) v _ ltac:(by rewrite E1) ltac:(by rewrite E1))).
    nrun. rewrite fs_bput. cbn [obind fst snd Z.eqb negb]. unfold populate. cbn. nrun.
    do 2 eexists. split; [done|]. split; [|left; split; [done|]].
    2: { unfold free_blocks in *. cbn. rewrite !fn_lookup_insert. cbn. split_and!; [lia|lia|by intros _]. }
    match goal with |- reads s ?t => destruct (same_tree_buffer (mfs s) (mfs t) v b 1) as [H1 H2] end;
      [lia|by right|done| |done..|split; [by destruct s|done|done|exact Hl|unfold free_blocks in *; cbn; lia|]].
    2: { intros _ w Hw. cbn. destruct (decide (v = w)) as [->|]; [by rewrite !fn_lookup_insert|by rewrite !fn_lookup_insert_ne]. }
    intros w. cbn. case_decide as Ew; [subst w; by rewrite !fn_lookup_insert|by rewrite !fn_lookup_insert_ne].
Qed.

(** * Lookup *)

(** The [n] bytes at [a] were handed out by the heap. *)
Definition owned (s : St) (a n : Z) : Prop := used_in (blocks (mheap s)) (MkBlk (a - SIZEOF_MALLOC) n true).
Definition components_owned (s : St) (l : list (Z * list Z)) : Prop :=
  Forall (fun x => owned s x.1 SIZEOF_PATHCOMP) l /\ NoDup (fst <$> l).
Record names_ok (s : St) : Prop := {
  no_heap : live heap_array (mheap s) /\ heap_array + HEAP_SIZE <= 2 ^ 32 - 0x1000;
  no_tree : tree_ok (mfs s);
  no_blocks : blocks_ok (mfs s) }.
(** What a lookup that has taken the components at [l] may change. *)
Record looks (l : list Z) (s s' : St) : Prop := {
  lk_only : s' = s <| mheap := mheap s' |> <| mfs := mfs s' |>;
  lk_tree : same_tree (mfs s) (mfs s');
  lk_ok : names_ok s';
  lk_brk : g_kbrk (mheap s') = g_kbrk (mheap s);
  lk_used : forall m, used_in (blocks (mheap s')) m <->
    used_in (blocks (mheap s)) m /\ forall a, a ∈ l -> m <> MkBlk (a - SIZEOF_MALLOC) SIZEOF_PATHCOMP true;
  lk_free : free_blocks (mfs s) - Z.of_nat (length l) <= free_blocks (mfs s') <= free_blocks (mfs s);
  lk_bufs : 0 < free_blocks (mfs s') -> forall v, IS_ERR (dirbuf (vnodes (mfs s) v)) = false -> IS_ERR (dirbuf (vnodes (mfs s') v)) = false }.

Lemma looks_refl (s : St) : names_ok s -> looks [] s s.
Proof.
  intros Hok. split; [by destruct s|apply same_tree_refl|done|done| |cbn; lia|done].
  intros m. split; [|by intros [? _]]. intros Hm. split; [done|]. by intros a ?%elem_of_nil.
Qed.
Lemma looks_trans l l' (s s' s'' : St) : looks l s s' -> looks l' s' s'' -> looks (l ++ l') s s''.
Proof.
  intros [O1 T1 K1 B1 U1 F1 I1] [O2 T2 K2 B2 U2 F2 I2]. split; [|by eapply same_tree_trans|done|by rewrite B2| | |].
  - rewrite O2, O1. by destruct s.
  - intros m. rewrite U2, U1. split.
    + intros [[Hm H1] H2]. split; [done|]. intros a [Ha|Ha]%elem_of_app; auto.
    + intros [Hm H1]. split; [split; [done|]|]; intros a Ha; apply H1, elem_of_app; auto.
  - rewrite length_app. lia.
  - intros Hf v Hv. apply I2; [done|]. apply I1; [lia|done].
Qed.
Lemma reads_looks (s s' : St) : names_ok s -> reads s s' -> free_blocks (mfs s) - 1 <= free_blocks (mfs s') ->
  forall a (t : St), looks [a] s' t -> free_blocks (mfs t) = free_blocks (mfs s') -> looks [a] s t.
Proof.
  intros [Hh _ _] [O T K1 B F I] Hf a t [O2 T2 K2 B2 U2 _ I2] Hf2. rewrite O in *. cbn in *. split.
  - rewrite O2. by destruct s.
  - by eapply same_tree_trans.
  - done.
  - done.
  - done.
  - cbn. lia.
  - intros H1 v Hv. apply I2; [done|]. apply I; [lia|done].
Qed.
Lemma kfree_owned (s : St) a n : live heap_array (mheap s) -> owned s a n ->
  exists h, kfree a s = Ret tt (s <| mheap := h |>) /\ live heap_array h /\ g_kbrk h = g_kbrk (mheap s) /\
    forall m, used_in (blocks h) m <-> used_in (blocks (mheap s)) m /\ m <> MkBlk (a - SIZEOF_MALLOC) n true.
Proof.
  intros Hl Ho. destruct (kfree_run heap_array (mheap s) a n Hl Ho) as (h & E & Hl' & _ & Hu). exists h.
  unfold kfree. rewrite E. split_and!; [done|done| |done].
  revert E. unfold Malloc.kfree. destruct (negb _); [done|]. destruct (corrupt _); [by intros [= <-]|].
  destruct (list_find _ _) as [[i m]|]; by intros [= <-].
Qed.
(** Taking the first component. *)
Lemma next_component_run (s : St) p c str l : names_ok s -> pd_list p = (c, str) :: l -> components_owned s (pd_list p) ->
  exists s', pathdata_next_component p s = Ret (str, p <| pd_list := l |>) s' /\ looks [c] s s' /\
    free_blocks (mfs s') = free_blocks (mfs s) /\ components_owned s' l.
Proof.
  intros [[Hh Hlow] Ht Hb] E [Ho Hd]. rewrite E in *. apply Forall_cons in Ho as [Hc Ho]. cbn in Hd. apply NoDup_cons in Hd as [Hn Hd].
  destruct (kfree_owned s c SIZEOF_PATHCOMP Hh Hc) as (h & Ek & Hl & Hbrk & Hu).
  exists (s <| mheap := h |>). unfold pathdata_next_component. rewrite E. nrun. rewrite Ek. cbn [obind].
  split_and!; [done| |done|].
  - split; [done|apply same_tree_refl|done|done| |cbn; lia|done]. intros m. cbn. rewrite Hu. split.
    + intros [Hm Hne]. split; [done|]. by intros a ->%list_elem_of_singleton.
    + intros [Hm Hne]. split; [done|]. apply Hne. by left.
  - split; [|done]. rewrite Forall_forall in Ho |- *. intros x Hx. unfold owned. cbn. rewrite Hu. split; [by apply Ho|].
    intros [= Ea]. apply Hn. assert (c = x.1) as -> by lia. by apply list_elem_of_fmap_2.
Qed.

(** A name that is not the vnode's. *)
Lemma compare_run (s : St) d name : tree_ok (mfs s) -> d ∈ dentry_cache (mfs s) ->
  generic_dentry_compare d name s =
    Ret (bool_decide (d_name (dentries (mfs s) d) = name) || bool_decide (name = VFS_STR_CURDIR)) s.
Proof.
  intros Hok Hd. destruct (tk_dentries _ Hok d Hd) as [_ Hn _ _]. unfold generic_dentry_compare. nrun.
  rewrite (proj2 (Z.leb_gt _ _)); [done|]. unfold VFS_DNAME_MAX in *. lia.
Qed.
Lemma lookup_other n (s : St) v p c : tree_ok (mfs s) -> v ∈ vnode_cache (mfs s) -> name_of (mfs s) v <> c -> c <> VFS_STR_CURDIR ->
  generic_vnode_lookup (S n) v p c s = Ret (PTR_ERR (- ENOENT), p) s.
Proof.
  intros Hok Hv Hn Hc. destruct (tk_vnodes _ Hok v Hv) as [K1 _ (d & Ed & Hd & _) _]. cbn [generic_vnode_lookup]. nrun.
  rewrite (proj2 (Z.eqb_neq _ 0) K1), Ed. cbn [obind lookup_names]. unfold name_of in Hn. rewrite Ed in Hn. cbn in Hn.
  rewrite (run_bind _ _ _ _ _ (compare_run s d c Hok Hd)). by rewrite (bool_decide_false _ Hn), (bool_decide_false _ Hc).
Qed.
Lemma children_other n (s : St) p c l : tree_ok (mfs s) -> c <> VFS_STR_CURDIR ->
  (forall d, d ∈ l -> d ∈ dentry_cache (mfs s) /\ d_name (dentries (mfs s) d) <> c) ->
  lookup_children (generic_vnode_lookup (S n)) l p c s = Ret (PTR_ERR (- ENOENT), p) s.
Proof.
  intros Hok Hc. induction l as [|d l IH]; intros Hl; [done|]. cbn [lookup_children]. nrun.
  destruct (Hl d ltac:(by left)) as [Hd Hdn]. destruct (tk_dentries _ Hok d Hd) as [[Hv Hvn] _ _ _].
  rewrite (lookup_other n s (d_vnode (dentries (mfs s) d)) p c Hok Hv); [|by unfold name_of; rewrite Hvn|done].
  cbn [obind]. change (IS_ERR _ && _) with true. apply IH. intros x Hx. apply Hl. by right.
Qed.

Lemma child_spec f v d c : tree_ok f -> d ∈ dentry_cache f -> vdentries (vnodes f v) = [d] ->
  match child f v c with
  | None => forall x, x ∈ d_children (dentries f d) -> d_name (dentries f x) <> c
  | Some w => exists l1 x l2, d_children (dentries f d) = l1 ++ x :: l2 /\ d_name (dentries f x) = c /\ d_vnode (dentries f x) = w /\
      forall y, y ∈ l1 ++ l2 -> d_name (dentries f y) <> c
  end.
Proof.
  intros Hok Hd E. unfold child, find_name, dir_entries. rewrite E. change (default 0 (head [d])) with d.
  destruct (list_find _ _) as [[i x]|] eqn:Ef; cbn.
  - apply list_find_Some in Ef as (Hi & Hx & Hlt). pose proof (tk_dentries _ Hok d Hd) as [_ _ _ Hdis].
    pose proof (take_drop_middle _ _ _ Hi) as Em. exists (take i (d_children (dentries f d))), x, (drop (S i) (d_children (dentries f d))).
    split_and!; [done|done|done|]. rewrite <- Em, fmap_app in Hdis. cbn in Hdis. apply NoDup_app in Hdis as (_ & H1 & H2).
    apply NoDup_cons in H2 as [H2 _]. intros y [Hy|Hy]%elem_of_app Ey.
    + apply (H1 c); [rewrite <- Ey; by apply (list_elem_of_fmap_2 (fun z => d_name (dentries f z)))|rewrite <- Hx; by left].
    + apply H2. rewrite Hx, <- Ey. by apply (list_elem_of_fmap_2 (fun z => d_name (dentries f z))).
  - rewrite list_find_None, Forall_forall in Ef. done.
Qed.
Lemma child_cached f v c w : tree_ok f -> v ∈ vnode_cache f -> child f v c = Some w ->
  w ∈ vnode_cache f /\ name_of f w = c.
Proof.
  intros Hok Hv Ec. destruct (tk_vnodes _ Hok v Hv) as [_ _ (d & Ed & Hd & _) _]. pose proof (child_spec f v d c Hok Hd Ed) as Hs.
  rewrite Ec in Hs. destruct Hs as (l1 & x & l2 & El & Hn & <- & _).
  destruct (tk_dentries _ Hok d Hd) as [_ _ Hch _]. destruct (tk_dentries _ Hok x) as [[Hx Hxv] _ _ _].
  { apply Hch. rewrite El. apply elem_of_app. right. by left. }
  split; [done|]. unfold name_of. by rewrite Hxv.
Qed.
Lemma resolve_cases f cs : tree_ok f -> forall v, v ∈ vnode_cache f ->
  resolve f v cs ∈ vnode_cache f \/ resolve f v cs = PTR_ERR (- ENOENT) \/ resolve f v cs = PTR_ERR (- ENOTDIR).
Proof.
  intros Hok. induction cs as [|c cs IH]; intros v Hv; cbn; [by left|]. destruct (vfs_isdir _); [|by right; right].
  destruct (child f v c) as [w|] eqn:Ec; [|by right; left]. apply IH. by apply (child_cached f v c w Hok Hv).
Qed.

(** The children before the one that has the name. *)
Lemma children_before n (s : St) p c x l2 : tree_ok (mfs s) -> c <> VFS_STR_CURDIR -> forall l1,
  (forall d, d ∈ l1 -> d ∈ dentry_cache (mfs s) /\ d_name (dentries (mfs s) d) <> c) ->
  lookup_children (generic_vnode_lookup (S n)) (l1 ++ x :: l2) p c s =
  lookup_children (generic_vnode_lookup (S n)) (x :: l2) p c s.
Proof.
  intros Hok Hc. induction l1 as [|d l1 IH]; intros Hl; [done|]. rewrite <- IH by (intros y Hy; apply Hl; by right).
  cbn [app lookup_children]. nrun. destruct (Hl d ltac:(by left)) as [Hd Hdn]. destruct (tk_dentries _ Hok d Hd) as [[Hv Hvn] _ _ _].
  rewrite (lookup_other n s (d_vnode (dentries (mfs s) d)) p c Hok Hv); [|by unfold name_of; rewrite Hvn|done].
  cbn [obind]. by change (IS_ERR _ && _) with true.
Qed.
Lemma resolve_found f v cs : tree_ok f -> v ∈ vnode_cache f -> resolve f v cs <> 0 /\
  (resolve f v cs = PTR_ERR (- ENOENT) \/ IS_ERR (resolve f v cs) && (s32 (resolve f v cs) =? - ENOENT) = false).
Proof.
  intros Hok Hv. destruct (resolve_cases f cs Hok v Hv) as [Hr|[-> | ->]]; [|by split; [|left]|by split; [|right]].
  destruct (tk_vnodes _ Hok _ Hr) as [_ [E H1] _ _]. split; [done|]. right. by rewrite E.
Qed.

(** The result of a search: the vnode the path leads to, or the error, unless
    there is no block for the buffer of a directory. *)
Definition finds (f : memfs) (v : Z) (l : list (Z * list Z)) (r : Z) : Prop :=
  r = resolve f v (snd <$> l) \/ r = PTR_ERR (- ENOSPC) /\ free_blocks f < Z.of_nat (length l).
Lemma finds_back f v l r : tree_ok f -> v ∈ vnode_cache f -> finds f v l r -> r <> 0 /\
  (r = PTR_ERR (- ENOENT) \/ IS_ERR r && (s32 r =? - ENOENT) = false).
Proof. intros Hok Hv [->|[-> _]]; [by apply resolve_found|by split; [|right]]. Qed.

Definition searches (n : nat) : Prop := forall (s : St) v p, names_ok s -> v ∈ vnode_cache (mfs s) ->
  components_owned s (pd_list p) -> Forall (fun x => x.2 <> VFS_STR_CURDIR) (pd_list p) -> (length (pd_list p) < n)%nat ->
  exists r k s', generic_vnode_lookup n v p (name_of (mfs s) v) s = Ret (r, p <| pd_list := drop k (pd_list p) |>) s' /\
    looks (fst <$> take k (pd_list p)) s s' /\ components_owned s' (drop k (pd_list p)) /\ finds (mfs s) v (pd_list p) r.

(** One level down: the children of [d] that have the name searched for. *)
Lemma children_search n (s : St) v d p c : searches n -> names_ok s -> v ∈ vnode_cache (mfs s) -> vdentries (vnodes (mfs s) v) = [d] ->
  components_owned s (pd_list p) -> Forall (fun x => x.2 <> VFS_STR_CURDIR) (pd_list p) -> (length (pd_list p) < n)%nat ->
  c <> VFS_STR_CURDIR -> vfs_isdir (vnodes (mfs s) v) = true ->
  exists r k s', lookup_children (generic_vnode_lookup n) (d_children (dentries (mfs s) d)) p c s =
      Ret (r, p <| pd_list := drop k (pd_list p) |>) s' /\
    looks (fst <$> take k (pd_list p)) s s' /\ components_owned s' (drop k (pd_list p)) /\ r <> 0 /\
    (r = resolve (mfs s) v (c :: (snd <$> pd_list p)) \/ r = PTR_ERR (- ENOSPC) /\ free_blocks (mfs s) < Z.of_nat (length (pd_list p))).
Proof.
  intros IH Hok Hv Ed Hown Hdot Hn Hc Hdir. destruct n as [|m]; [lia|]. pose proof Hok as [_ Ht _].
  destruct (tk_vnodes _ Ht v Hv) as [_ _ (d' & Ed' & Hd & _) _]. rewrite Ed in Ed'. injection Ed' as <-.
  destruct (tk_dentries _ Ht d Hd) as [_ _ Hch _]. pose proof (child_spec (mfs s) v d c Ht Hd Ed) as Hs. cbn [resolve]. rewrite Hdir.
  destruct (child (mfs s) v c) as [w|] eqn:Ec.
  - destruct Hs as (l1 & x & l2 & El & Hx & Ew & Hoth). rewrite El.
    rewrite (children_before m s p c x l2 Ht Hc).
    2: { intros y Hy. split; [apply Hch; rewrite El|apply Hoth]; apply elem_of_app; by left. }
    destruct (child_cached (mfs s) v c w Ht Hv Ec) as [Hw Hname]. cbn [lookup_children]. nrun. rewrite Ew.
    destruct (IH s w p Hok Hw Hown Hdot Hn) as (r & k & s' & E & Hl & Ho & Hr). rewrite Hname in E. rewrite E. cbn [obind fst snd].
    destruct (finds_back _ _ _ _ Ht Hw Hr) as [H0r [->|Eb]].
    + change (IS_ERR _ && _) with true. cbn iota beta. destruct Hl as [O T K' B U F I].
      rewrite (children_other m s' _ c l2); [|apply K'|done|].
      2: { intros y Hy. destruct T as [_ -> [_ ->] _]. split; [apply Hch; rewrite El|apply Hoth]; apply elem_of_app; right; [by right|done]. }
      exists (PTR_ERR (- ENOENT)), k, s'. split_and!; done.
    + rewrite Eb. exists r, k, s'. by split_and!.
  - rewrite (children_other m s p c _ Ht Hc).
    2: { intros y Hy. split; [by apply Hch|by apply Hs]. }
    exists (PTR_ERR (- ENOENT)), O, s. split_and!; [by destruct p|by apply looks_refl|done|done|by left].
Qed.

Lemma readdir_looks (s s' : St) a t : names_ok s -> reads s s' -> free_blocks (mfs s) - 1 <= free_blocks (mfs s') ->
  looks [a] s' t -> free_blocks (mfs t) = free_blocks (mfs s') -> looks [a] s t.
Proof. intros. by eapply reads_looks. Qed.
Lemma reads_names (s s' : St) : names_ok s -> reads s s' -> names_ok s'.
Proof. intros [Hh _ _] [O _ H1 H2 _ _]. split; [by rewrite O|done|done]. Qed.
Lemma free_blocks_nonneg (f : memfs) : blocks_ok f -> 0 <= free_blocks f.
Proof. intros Hb. apply (memfs_alloc_block_run f Hb). Qed.

Lemma lookup_searches n : searches n.
Proof.
  induction n as [|n IH]; intros s v p Hok Hv Hown Hdot Hn; [lia|]. pose proof Hok as [Hh Ht Hb].
  destruct (tk_vnodes _ Ht v Hv) as [K1 _ (d & Ed & Hd & Edv) _]. cbn [generic_vnode_lookup]. nrun.
  rewrite (proj2 (Z.eqb_neq _ 0) K1). cbn [obind]. unfold name_of. rewrite Ed. change (default 0 (head [d])) with d. cbn [lookup_names].
  rewrite (run_bind _ _ _ _ _ (compare_run s d _ Ht Hd)). rewrite bool_decide_true by done. cbn [orb negb]. nrun. unfold finds.
  destruct (pd_list p) as [|[c1 str] l] eqn:El.
  - rewrite bool_decide_true by done. assert (p <| pd_list := [] |> = p) as Ep by (destruct p; cbn in El; by subst).
    exists v, O, s. cbn. rewrite Ep. split_and!; [by destruct (vfs_isdir _)|by apply looks_refl|done|by left].
  - rewrite bool_decide_false by done. cbn [fmap list_fmap snd resolve]. destruct (vfs_isdir (vnodes (mfs s) v)) eqn:Hdir.
    2: { exists (PTR_ERR (- ENOTDIR)), O, s. split_and!; [cbn; rewrite <- El; by destruct p|by apply looks_refl|done|by left]. }
    rewrite Edv. destruct (memfs_vnode_readdir_run s v Ht Hb Hv Hdir) as (r0 & s1 & -> & Hr1 & Hcase). cbn [obind].
    pose proof (reads_names _ _ Hok Hr1) as Hok1. pose proof Hr1 as [O1 T1 Ht1 Hb1 Ff1 If1].
    destruct Hcase as [(-> & Hf1 & _)|[-> Hf0]].
    2: { change (- ENOSPC <? 0) with true. exists (PTR_ERR (- ENOSPC)), O, s1. split_and!; [cbn; rewrite <- El; by destruct p| | |].
      - split; [by rewrite O1; destruct s|done|done|by rewrite O1| | |].
        + intros m. rewrite O1. cbn. split; [|by intros [? _]]. intros Hm. split; [done|]. by intros a ?%elem_of_nil.
        + cbn. pose proof (free_blocks_nonneg _ Hb1). lia.
        + pose proof (free_blocks_nonneg _ Hb1). lia.
      - destruct Hown as [Hown Hnd]. split; [|done]. rewrite O1. exact Hown.
      - right. split; [done|]. cbn [length]. lia. }
    change (0 <? 0) with false. cbn iota beta. apply Forall_cons in Hdot as [Hstr Hdot]. cbn in Hstr.
    assert (components_owned s1 (pd_list p)) as Hown1 by (rewrite O1, El; exact Hown).
    unfold lookup_dentry_children. nrun.
    destruct (next_component_run s1 p c1 str l Hok1 El Hown1) as (s2 & -> & Hl2 & Hf2 & Hown2). cbn [obind fst snd].
    pose proof (reads_looks s s1 Hok Hr1 Hf1 c1 s2 Hl2 Hf2) as Hl02. pose proof Hl02 as [O2 T2 Hok2 B2 U2 F2 I2].
    destruct (children_search n s2 v d (p <| pd_list := l |>) str IH Hok2) as (r & k & s3 & E & Hl3 & Hown3 & Hr0 & Hr);
      [by destruct T2 as [_ _ [-> _] _]|by rewrite (same_names _ _ _ T2)|done|done|cbn in Hn |- *; lia|done|by rewrite (same_isdir _ _ _ T2)|].
    cbn in E. rewrite E. cbn [obind fst]. rewrite (proj2 (Z.eqb_neq r 0) Hr0). cbn [negb].
    exists r, (S k), s3. split_and!; [done| |done|].
    + cbn. apply (looks_trans [c1] _ s s2 s3); done.
    + cbn in Hr. destruct Hr as [->|[-> Hf]]; [left|right].
      * rewrite (same_isdir _ _ _ T2), Hdir, (same_child _ _ _ _ T2). destruct (child (mfs s) v str); [|done]. apply (same_resolve _ _ _ T2).
      * split; [done|]. cbn [length] in *. lia.
Qed.

(** * Paths *)

(** Memory that was in use stays so, and the break moves by [n] at most. *)
Definition allocates (n : Z) (s s' : St) : Prop :=
  s' = s <| mheap := mheap s' |> /\ live heap_array (mheap s') /\
  g_kbrk (mheap s) <= g_kbrk (mheap s') <= g_kbrk (mheap s) + n.
Definition heap_room (s : St) (n : Z) : Prop := g_kbrk (mheap s) + n < heap_array + HEAP_SIZE.

Lemma low_ptr a : 0 < a -> a <= 2 ^ 32 - 0x1000 -> IS_ERR a = false.
Proof.
  intros Ha Hb. unfold IS_ERR, is_err, s32. destruct (Z.lt_ge_cases a (2 ^ 31)).
  - rewrite Z.mod_small by lia. by rewrite (proj2 (Z.ltb_ge _ 0)) by lia.
  - replace (a + 2 ^ 31) with (a - 2 ^ 31 + 1 * 2 ^ 32) by lia. rewrite Z.mod_add, Z.mod_small by lia.
    apply andb_false_iff. right. apply Z.ltb_ge. lia.
Qed.
Lemma kzalloc_run (s : St) size : live heap_array (mheap s) -> heap_array + HEAP_SIZE <= 2 ^ 32 - 0x1000 ->
  0 < size -> heap_room s (size + SIZEOF_MALLOC) ->
  exists a s', kzalloc size s = Ret a s' /\ allocates (size + SIZEOF_MALLOC) s s' /\ a <> 0 /\ IS_ERR a = false /\
    fresh heap_array (mheap s) (mheap s') a size.
Proof.
  intros Hl Hlow Hs Hr. destruct (kmalloc_room heap_array (mheap s) size Hl Hs Hr) as (a & h & E & Ha & Hl' & Hf & Hb).
  exists a, (s <| mheap := h |>). unfold kzalloc, Malloc.kzalloc. rewrite E, (proj2 (Z.eqb_neq a 0) Ha). cbn [andb].
  split_and!; try done; try lia. destruct Hl' as [[? _] _ _ _ _ _]. destruct Hf as (F1 & F2 & _).
  apply low_ptr; unfold HEAP_SIZE, SIZEOF_MALLOC in *; lia.
Qed.
(** What was in use still is, and does not have the new address. *)
Lemma fresh_owned (s s' : St) a n b m : fresh heap_array (mheap s) (mheap s') a n -> 0 <= n -> 0 <= m -> owned s b m ->
  owned s' b m /\ b <> a.
Proof.
  intros (_ & _ & Hu & Hd) Hn Hm Hb. split; [apply Hu; by right|]. intros ->.
  specialize (Hd _ Hb). cbn in Hd. unfold SIZEOF_MALLOC in *. lia.
Qed.
Lemma fresh_new (s s' : St) a n : fresh heap_array (mheap s) (mheap s') a n -> owned s' a n.
Proof. intros (_ & _ & Hu & _). apply Hu. by left. Qed.
Lemma allocates_trans n m s s' s'' : allocates n s s' -> allocates m s' s'' -> allocates (n + m) s s''.
Proof. intros (E & _ & B) (E' & L' & B'). split; [rewrite E', E; by destruct s|]. split; [done|lia]. Qed.

Lemma allocates_refl n (s : St) : live heap_array (mheap s) -> 0 <= n -> allocates n s s.
Proof. intros. split; [by destruct s|]. split; [done|lia]. Qed.

Definition COMP : Z := SIZEOF_PATHCOMP + SIZEOF_MALLOC.
Lemma alloc_components_run l : forall s : St, live heap_array (mheap s) -> heap_array + HEAP_SIZE <= 2 ^ 32 - 0x1000 ->
  heap_room s (COMP * Z.of_nat (length l)) ->
  exists cs s', alloc_components l s = Ret cs s' /\ allocates (COMP * Z.of_nat (length l)) s s' /\ snd <$> cs = l /\
    components_owned s' cs /\ (forall m, used_in (blocks (mheap s')) m <->
      used_in (blocks (mheap s)) m \/ exists c, c ∈ cs /\ m = MkBlk (c.1 - SIZEOF_MALLOC) SIZEOF_PATHCOMP true) /\
    forall b m, 0 <= m -> owned s b m -> b ∉ fst <$> cs.
Proof.
  induction l as [|str l IH]; intros s Hl Hlow Hr; cbn [alloc_components].
  - exists [], s. split_and!; [done|by apply allocates_refl; [|cbn; lia]|done|by split; [|constructor]| |].
    + intros m. split; [by left|]. intros [?|(c & ?%elem_of_nil & _)]; done.
    + by intros b m _ _ ?%elem_of_nil.
  - unfold heap_room, COMP in *. cbn [length] in Hr. nrun.
    destruct (kzalloc_run s SIZEOF_PATHCOMP Hl Hlow) as (c & s1 & -> & A1 & _ & _ & F1);
      [done|unfold heap_room; unfold SIZEOF_PATHCOMP, SIZEOF_MALLOC in *; lia|]. cbn [obind].
    pose proof A1 as (E1 & L1 & B1).
    destruct (IH s1 L1 Hlow) as (cs & s2 & -> & A2 & Es & [Ho Hnd] & Hu & Hne);
      [unfold SIZEOF_PATHCOMP, SIZEOF_MALLOC in *; lia|]. cbn [obind].
    pose proof (fresh_new _ _ _ _ F1) as Hc. specialize (Hne c SIZEOF_PATHCOMP ltac:(done)) as Hcn. specialize (Hcn Hc).
    exists ((c, str) :: cs), s2. split_and!; [done| |cbn; by rewrite Es| | |].
    + cbn [length]. replace ((SIZEOF_PATHCOMP + SIZEOF_MALLOC) * Z.of_nat (S (length l))) with
        (SIZEOF_PATHCOMP + SIZEOF_MALLOC + (SIZEOF_PATHCOMP + SIZEOF_MALLOC) * Z.of_nat (length l)) by lia.
      by apply (allocates_trans _ _ s s1).
    + split; [constructor; [|done]; apply Hu; by left|cbn; by constructor].
    + intros m. rewrite Hu. destruct F1 as (_ & _ & Hu1 & _). rewrite Hu1. split.
      * intros [[->|Hm]|(x & Hx & ->)]; [right; exists (c, str); by split; [left|]|by left|right; exists x; by split; [right|]].
      * intros [Hm|(x & [->|Hx]%elem_of_cons & ->)]; [left; by right|left; by left|right; by exists x].
    + intros b m Hm Hb. destruct (fresh_owned s s1 c SIZEOF_PATHCOMP b m F1 ltac:(done) Hm Hb) as [Hb1 Hbc].
      cbn. rewrite not_elem_of_cons. split; [done|]. by apply (Hne b m).
Qed.

(** Where a path starts, and that the start is a directory in memory; the root
    is called ["/"]. *)
Definition start_of (s : St) (task : Z) (path : list Z) : Z :=
  let fs := fs_datas s (fs_data (tcbs s task)) in
  if bool_decide (head path = Some VFS_CHAR_SEP) then rootdir fs else curdir fs.
Definition starts_ok (s : St) (task : Z) : Prop :=
  let fs := fs_datas s (fs_data (tcbs s task)) in
  rootdir fs ∈ vnode_cache (mfs s) /\ curdir fs ∈ vnode_cache (mfs s) /\ name_of (mfs s) (rootdir fs) = VFS_STR_ROOTDIR.

(** The blocks of parsed path data, apart from what was in use. *)
Definition comp_block (a : Z) : malloc_t := MkBlk (a - SIZEOF_MALLOC) SIZEOF_PATHCOMP true.
Definition pd_blocks (p : pathdata) : list Z := pd_at p :: (fst <$> pd_list p).
Record parsed (s s' : St) (p : pathdata) : Prop := {
  pa_used : forall m, used_in (blocks (mheap s')) m <->
    used_in (blocks (mheap s)) m \/ exists a, a ∈ pd_blocks p /\ m = comp_block a;
  pa_new : forall a, a ∈ pd_blocks p -> ~ used_in (blocks (mheap s)) (comp_block a);
  pa_nodup : NoDup (pd_blocks p) }.

Lemma pathdata_parse_run (s : St) task path : names_ok s -> starts_ok s task -> Forall (fun c => c <> 0) path ->
  heap_room s (COMP * Z.of_nat (2 + length (kept path))) ->
  exists p s', pathdata_parse path task s = Ret p s' /\ allocates (COMP * Z.of_nat (2 + length (kept path))) s s' /\
    snd <$> pd_list p = name_of (mfs s) (start_of s task path) :: kept path /\ vstart p = start_of s task path /\ parsed s s' p.
Proof.
  intros [[Hl Hlow] Ht _] (Hroot & Hcur & Hname) Hpath Hr. unfold pathdata_parse. nrun.
  destruct (kzalloc_run s SIZEOF_PATHDATA Hl Hlow) as (pd & s1 & -> & A1 & _ & _ & F1);
    [done|unfold heap_room, COMP, SIZEOF_PATHDATA, SIZEOF_PATHCOMP, SIZEOF_MALLOC in *; lia|]. cbn [obind].
  destruct (split_components_keeps (S (length path)) (S (length path)) path 0 (strcpy path (fun _ => 0) 0)) as (buf & cs & E & Ecs & _);
    [by apply strcpy_holds|lia|lia|]. rewrite E. cbn [or_bug]. nrun. cbn [fst snd]. rewrite Ecs.
  pose proof A1 as (E1 & L1 & B1).
  assert (forall c v, exists l s2, alloc_components (c :: kept path) s1 = Ret l s2 /\
    allocates (COMP * Z.of_nat (2 + length (kept path))) s s2 /\ snd <$> l = c :: kept path /\ parsed s s2 (MkPathdata pd l v)) as Hcomps.
  { intros c v. destruct (alloc_components_run (c :: kept path) s1 L1 Hlow) as (l & s2 & -> & A2 & El & [Ho Hd] & Hu & Hne);
      [unfold heap_room, COMP, SIZEOF_PATHDATA, SIZEOF_PATHCOMP, SIZEOF_MALLOC in *; cbn [length]; lia|].
    exists l, s2. split; [done|]. split.
    { replace (COMP * Z.of_nat (2 + length (kept path))) with (SIZEOF_PATHDATA + SIZEOF_MALLOC + COMP * Z.of_nat (length (c :: kept path)))
        by (unfold COMP, SIZEOF_PATHDATA, SIZEOF_PATHCOMP, SIZEOF_MALLOC; cbn [length]; lia).
      by apply (allocates_trans _ _ s s1). }
    split; [done|]. pose proof (fresh_new _ _ _ _ F1) as Hpd. pose proof (Hne pd SIZEOF_PATHDATA ltac:(done) Hpd) as Hpdn.
    split; unfold pd_blocks; cbn [pd_at pd_list].
    - intros m. rewrite Hu. destruct F1 as (_ & _ & Hu1 & _). rewrite Hu1. split.
      + intros [[->|Hm]|(x & Hx & ->)]; [right; exists pd; by split; [left|]|by left|].
        right. exists x.1. split; [right; by apply list_elem_of_fmap_2|done].
      + intros [Hm|(a & [->|Ha]%elem_of_cons & ->)]; [left; by right|left; by left|right].
        apply list_elem_of_fmap in Ha as (x & -> & Hx). by exists x.
    - intros a [->|Ha]%elem_of_cons Hua.
      + by destruct (fresh_owned s s1 pd SIZEOF_PATHDATA pd SIZEOF_PATHCOMP F1).
      + destruct (fresh_owned s s1 pd SIZEOF_PATHDATA a SIZEOF_PATHCOMP F1) as [Ha1 _]; [done..|]. by apply (Hne a SIZEOF_PATHCOMP).
    - by constructor. }
  assert (fs_datas s1 = fs_datas s /\ tcbs s1 = tcbs s /\ mfs s1 = mfs s) as (Ef & Etc & Em) by (rewrite E1; done).
  unfold start_of. rewrite Ef, Etc. case_bool_decide as Hh.
  - destruct (Hcomps VFS_STR_ROOTDIR (rootdir (fs_datas s (fs_data (tcbs s task))))) as (l & s2 & El & A2 & Es & Hp).
    nrun. rewrite El. cbn [obind]. do 2 eexists. split_and!; [done|done|by rewrite Hname|done|done].
  - destruct (tk_vnodes _ Ht _ Hcur) as [_ _ (d & Ed & _) _]. nrun. rewrite Em, Ed. cbn [head or_bug]. nrun. rewrite Em.
    destruct (Hcomps (d_name (dentries (mfs s) d)) (curdir (fs_datas s (fs_data (tcbs s task))))) as (l & s2 & El & A2 & Es & Hp).
    rewrite El. cbn [obind]. do 2 eexists. split_and!; [done|done| |done|done].
    cbn [pd_list]. rewrite Es. unfold name_of. by rewrite Ed.
Qed.

(** Giving path data back. *)
Lemma free_components_run l : forall s : St, live heap_array (mheap s) -> components_owned s l ->
  exists h, free_components l s = Ret tt (s <| mheap := h |>) /\ live heap_array h /\ g_kbrk h = g_kbrk (mheap s) /\
    forall m, used_in (blocks h) m <-> used_in (blocks (mheap s)) m /\ forall a, a ∈ fst <$> l -> m <> comp_block a.
Proof.
  induction l as [|[c str] l IH]; intros s Hl [Ho Hd].
  - exists (mheap s). split_and!; [by destruct s|done|done|]. intros m. split; [|by intros [? _]]. intros Hm. split; [done|].
    by intros a ?%elem_of_nil.
  - apply Forall_cons in Ho as [Hc Ho]. cbn in Hd. apply NoDup_cons in Hd as [Hn Hd]. cbn [free_components]. nrun.
    destruct (kfree_owned s c SIZEOF_PATHCOMP Hl Hc) as (h & -> & Hlh & Hb & Hu). cbn [obind].
    destruct (IH (s <| mheap := h |>)) as (h2 & -> & Hl2 & Hb2 & Hu2).
    + done.
    + split; [|done]. rewrite Forall_forall in Ho |- *. intros x Hx. apply Hu. split; [by apply Ho|].
      intros [= Ea]. apply Hn. assert (c = x.1) as -> by lia. by apply list_elem_of_fmap_2.
    + exists h2. split_and!; [done|done|by rewrite Hb2|]. intros m. rewrite Hu2. cbn [mheap set_field]. unfold set_field. cbn. rewrite Hu. split.
      * intros [[Hm Hmc] Hr]. split; [done|]. intros a [->|Ha]%elem_of_cons; [done|by apply Hr].
      * intros [Hm Hr]. split; [split; [done|apply Hr; by left]|]. intros a Ha. apply Hr. by right.
Qed.
(** A call on a parsed path that took [k] components and gained [X], with the
    rest given back: what is in use is what was, and [X]. *)
Lemma path_destroy_run (X : malloc_t -> Prop) (s0 s1 s2 : St) p k : (forall a, ~ X (comp_block a)) -> parsed s0 s1 p ->
  live heap_array (mheap s2) ->
  (forall m, used_in (blocks (mheap s2)) m <->
    X m \/ used_in (blocks (mheap s1)) m /\ forall a, a ∈ fst <$> take k (pd_list p) -> m <> comp_block a) ->
  exists h, pathdata_destroy (p <| pd_list := drop k (pd_list p) |>) s2 = Ret tt (s2 <| mheap := h |>) /\
    live heap_array h /\ g_kbrk h = g_kbrk (mheap s2) /\
    forall m, used_in (blocks h) m <-> X m \/ used_in (blocks (mheap s0)) m.
Proof.
  intros HX [Pu Pn Pd] Hl U.
  assert (forall a, a ∈ pd_blocks p -> a ∉ fst <$> take k (pd_list p) -> owned s2 a SIZEOF_PATHCOMP) as Hown.
  { intros a Ha Hn. apply U. right. split; [apply Pu; right; by exists a|]. intros b Hb [= E]. apply Hn. by assert (a = b) as -> by lia. }
  unfold pd_blocks in *. apply NoDup_cons in Pd as [Hpd Hd]. rewrite <- (take_drop k (pd_list p)), fmap_app in Hd.
  apply NoDup_app in Hd as (_ & Hdis & Hd).
  assert (forall a, a ∈ fst <$> pd_list p <-> a ∈ fst <$> take k (pd_list p) \/ a ∈ fst <$> drop k (pd_list p)) as Hsplit.
  { intros a. rewrite <- (take_drop k (pd_list p)) at 1. by rewrite fmap_app, elem_of_app. }
  destruct (free_components_run (drop k (pd_list p)) s2 Hl) as (h & E & Hlh & Hb & Hu).
  { split; [|done]. rewrite Forall_forall. intros x Hx. apply (list_elem_of_fmap_2 fst) in Hx. apply Hown.
    - right. apply Hsplit. by right.
    - intros Ht. by apply (Hdis _ Ht). }
  unfold pathdata_destroy. cbn [pd_list pd_at set_field]. unfold set_field. cbn [pd_list pd_at]. nrun. rewrite E. cbn [obind].
  destruct (kfree_owned (s2 <| mheap := h |>) (pd_at p) SIZEOF_PATHCOMP) as (h2 & -> & Hl2 & Hb2 & Hu2); [exact Hlh| |].
  { apply Hu. split; [apply Hown; [by left|]; intros Ha; apply Hpd, Hsplit; by left|].
    intros a Ha [= Ea]. apply Hpd, Hsplit. right. by assert (pd_at p = a) as -> by lia. }
  exists h2. split_and!; [done|done|by rewrite Hb2|]. intros m. rewrite Hu2. cbn. rewrite Hu, U, Pu. split.
  - intros [[[Hm|[[Hm|(a & Ha & ->)] Ht]] Hr] Hp]; [by left|by right|]. exfalso. apply elem_of_cons in Ha as [->|Ha]; [done|].
    apply Hsplit in Ha as [Ha|Ha]; [by eapply Ht|by eapply Hr].
  - intros Hm. assert (forall a, a ∈ pd_at p :: (fst <$> pd_list p) -> m <> comp_block a) as Hne.
    { intros a Ha ->. destruct Hm as [Hm|Hm]; [by apply (HX a)|by apply (Pn a)]. }
    split; [split|apply Hne; by left].
    + destruct Hm as [Hm|Hm]; [by left|right]. split; [by left|]. intros a Ha. apply Hne. right. apply Hsplit. by left.
    + intros a Ha. apply Hne. right. apply Hsplit. by right.
Qed.
Lemma kept_not_dot path : Forall (fun c => c <> VFS_STR_CURDIR) (kept path).
Proof. rewrite Forall_forall. by intros c [? _]%list_elem_of_filter. Qed.
Lemma allocates_names n (s s' : St) : names_ok s -> allocates n s s' -> names_ok s' /\ mfs s' = mfs s.
Proof. intros [[_ Hlow] Ht Hb] (E & Hl & _). assert (mfs s' = mfs s) as Em by (rewrite E; done). split; [|done]. by split; [|rewrite Em..]. Qed.
Lemma parsed_owned (s s' : St) p : parsed s s' p -> components_owned s' (pd_list p).
Proof.
  intros [Pu _ Pd]. unfold pd_blocks in Pd. apply NoDup_cons in Pd as [_ Pd]. split; [|done]. rewrite Forall_forall.
  intros x Hx. apply Pu. right. exists x.1. split; [|done]. right. by apply list_elem_of_fmap_2.
Qed.
Lemma bypath_run (s : St) p cs : names_ok s -> components_owned s (pd_list p) -> vstart p ∈ vnode_cache (mfs s) ->
  snd <$> pd_list p = name_of (mfs s) (vstart p) :: cs -> Forall (fun c => c <> VFS_STR_CURDIR) cs ->
  exists r k s', vfs_vnode_lookup_bypath p s = Ret (r, p <| pd_list := drop k (pd_list p) |>) s' /\
    looks (fst <$> take k (pd_list p)) s s' /\
    (r = resolve (mfs s) (vstart p) cs \/ r = PTR_ERR (- ENOSPC) /\ free_blocks (mfs s) < Z.of_nat (length cs)).
Proof.
  intros Hok Hown Hv Es Hdot. destruct (pd_list p) as [|[c str] l] eqn:El; [done|]. injection Es as -> Es.
  unfold vfs_vnode_lookup_bypath. rewrite El, bool_decide_false by done. nrun.
  rewrite <- El in Hown. destruct (next_component_run s p c _ l Hok El Hown) as (s1 & -> & L1 & F1 & O1). cbn [obind fst snd].
  pose proof L1 as [Eo1 T1 Hok1 _ _ _ _]. pose proof T1 as [_ D1 [C1 _] _].
  assert (name_of (mfs s1) (vstart p) = name_of (mfs s) (vstart p)) as En by (unfold name_of; by rewrite (same_names _ _ _ T1), D1).
  destruct (lookup_searches (S (S (length l))) s1 (vstart p) (p <| pd_list := l |>)) as (r & k & s2 & E2 & L2 & _ & Hr);
    [done|by rewrite C1|done|cbn; by rewrite <- Es, Forall_fmap in Hdot|cbn; lia|].
  rewrite En in E2. change (pd_list (p <| pd_list := l |>)) with l in *. change (vstart (p <| pd_list := l |>)) with (vstart p).
  cbn [length]. rewrite E2. exists r, (S k), s2. split_and!; [done|by apply (looks_trans [c] _ s s1 s2)|].
  change (pd_list (p <| pd_list := l |>)) with l in Hr.
  destruct Hr as [->|[-> Hf]]; [left|right; split; [done|]].
  - by rewrite (same_resolve _ _ _ T1), <- Es.
  - rewrite <- Es, length_fmap. lia.
Qed.

(** What [stat] tells of a vnode. *)
Definition kstat_of (f : memfs) (v : Z) : kstat :=
  let x := vnodes f v in
  MkKstat (vnum x) (mode x) (vlinks x) (Z.land (vowner x) 0xFFFF) (Z.land (Z.shiftr (vowner x) 16) 0xFFFF) (v_size x) MEMFS_BLOCK_SIZE.
Lemma same_kstat f g v : same_tree f g -> kstat_of g v = kstat_of f v.
Proof. intros [V _ _ _]. unfold kstat_of. by destruct (V v) as (n & b & ->). Qed.

(** A call on a path that ends as it began but for the buffers of directories. *)
Record undisturbed (s s' : St) : Prop := {
  ud_names : same_tree (mfs s) (mfs s') /\ names_ok s';
  ud_memory : forall m, used_in (blocks (mheap s')) m <-> used_in (blocks (mheap s)) m;
  ud_rest : s' = s <| mheap := mheap s' |> <| mfs := mfs s' |> }.

(** What [stat] does on any path; [sys_stat_finds] of Rootfs says it in words. *)
Lemma stat_run (s : St) task path :
  names_ok s -> starts_ok s task -> Forall (fun c => c <> 0) path ->
  heap_room s (COMP * Z.of_nat (2 + length (kept path))) ->
  let v := resolve (mfs s) (start_of s task path) (kept path) in
  exists r s', sys_stat task path s = Ret r s' /\ undisturbed s s' /\
    (r = (if IS_ERR v then (s32 v, None) else (0, Some (kstat_of (mfs s) v))) \/
     r = (- ENOSPC, None) /\ free_blocks (mfs s) < Z.of_nat (length (kept path))).
Proof.
  intros Hok Hst Hpath Hroom v. destruct (pathdata_parse_run s task path Hok Hst Hpath Hroom) as (p & s1 & Ep & A1 & Es & Ev & Hp).
  destruct (allocates_names _ _ _ Hok A1) as [Hok1 Em1].
  assert (start_of s task path ∈ vnode_cache (mfs s)) as Hstart by (unfold start_of; destruct Hst as (? & ? & _); by case_bool_decide).
  destruct (bypath_run s1 p (kept path) Hok1 (parsed_owned _ _ _ Hp)) as (r & k & s2 & E2 & L2 & Hr);
    [by rewrite Ev, Em1|by rewrite Em1, Ev|apply kept_not_dot|].
  pose proof L2 as [O2 T2 [[Hl2 Hlow] Ht2 Hb2] _ U2 _ _].
  destruct (path_destroy_run (fun _ => False) s s1 s2 p k) as (h & E3 & Hl3 & _ & Hu3);
    [by intros a []|done|done|intros m; rewrite U2; unfold comp_block; tauto|].
  unfold sys_stat. nrun. rewrite Ep. cbn [obind]. rewrite E2. cbn [obind fst snd].
  rewrite Em1, Ev in Hr. fold v in Hr. rewrite Em1 in T2.
  assert (undisturbed s (s2 <| mheap := h |>)) as Hud.
  { destruct A1 as (E1 & _). split; [split; [done|by split]|intros m; change (used_in (blocks h) m <-> used_in (blocks (mheap s)) m); rewrite Hu3; tauto|]. rewrite O2, E1. by destruct s. }
  assert (forall x : Z * option kstat, (obind (pathdata_destroy (p <| pd_list := drop k (pd_list p) |>) s2) (fun _ s => Ret x s)) =
    Ret x (s2 <| mheap := h |>)) as Hend by (intros x; by rewrite E3).
  exists (if IS_ERR r then (s32 r, None) else (0, Some (kstat_of (mfs s) r))), (s2 <| mheap := h |>). split_and!; [|done|].
  - destruct (IS_ERR r); cbn [obind]; [apply Hend|]. unfold fill_kstat. nrun. fold (kstat_of (mfs s2) r).
    rewrite (same_kstat _ _ _ T2). apply Hend.
  - destruct Hr as [->|[-> Hf]]; [by left|right]. by split.
Qed.
End Names.
