(* ===== verification/Directories.v ===== *)
(** Making names: theorems about [memfs_vnode_mknod] of [fs/memfs/vnode.c] and
    [sys_mkdir] of [mm/file.c], over the graph of names of Names. *)
From S2P Require Import Prelude Bits Defs Words Malloc Pools PageAlloc Memfs Vm Shadow Pagecache Mmap Shm Forking Mmdemo Paths Vfs Names.

(** * The parts of the file system below the names *)

Definition inode_cache_ok (c : mem_cache) : Prop := cache_inv c /\ mc_end c <= 2 ^ 32 - 0x1000.
Record store_ok (f : memfs) : Prop := {
  so_blocks : blocks_ok f;
  so_inodes : Forall (fun c => inode_cache_ok c.2) (inode_cache_list f) }.
(** A call that changes inodes and blocks only, and takes [k] blocks at most. *)
Record stores (k : Z) (f f' : memfs) : Prop := {
  sr_names : vnodes f' = vnodes f /\ dentries f' = dentries f /\ vnode_cache f' = vnode_cache f /\ dentry_cache f' = dentry_cache f;
  sr_index : fsidx f' = fsidx f;
  sr_ok : store_ok f';
  sr_free : free_blocks f - k <= free_blocks f' }.
Lemma stores_trans k l f g h : stores k f g -> stores l g h -> stores (k + l) f h.
Proof.
  intros [(V1 & D1 & C1 & E1) I1 _ F1] [(V2 & D2 & C2 & E2) I2 O2 F2].
  split; [split_and!; congruence|congruence|done|lia].
Qed.

(** Seven inodes fit in a block. *)
Lemma inode_cache_init b : is_page_aligned b = true -> 0 < b < 2 ^ 32 - PAGE_SIZE ->
  exists c, mem_cache_init b MEMFS_BLOCK_SIZE SIZEOF_MEMFS_INODE false = Some (Some c) /\ inode_cache_ok c /\ mc_free c = 7.
Proof.
  intros Ha Hb. assert (PAGE_SIZE = 4096) as EP by done. rewrite EP in Hb.
  exists (MkCache 7 7 (b + 36) (b + 36 + 4060) SIZEOF_MEMFS_INODE [0]). split; [|split; [|done]].
  - unfold mem_cache_init, MEMFS_BLOCK_SIZE, SIZEOF_MEMFS_INODE, SIZEOF_MEM_CACHE. rewrite EP.
    rewrite (proj2 (Z.eqb_neq b _)) by lia. cbv zeta.
    change (Z.shiftr (Z.quot (4096 - 32) 528) 5 + (if flag_set (Z.quot (4096 - 32) 528) 31 then 1 else 0)) with 1.
    rewrite (u32_id (b + 32)), (u32_id (b + 32 + 1 * 4)), Z.add_0_r by (unfold is_u32; lia).
    rewrite (u32_id (b + 32 + 1 * 4)) by (unfold is_u32; lia). change (4096 - 32 - 1 * 4 - 0) with 4060.
    rewrite (u32_id (b + 32 + 1 * 4 + 4060)) by (unfold is_u32; lia). by replace (b + 32 + 1 * 4) with (b + 36) by lia.
  - assert (b <= 2 ^ 32 - 2 * 4096) as Htop.
    { unfold is_page_aligned in Ha. apply Z.eqb_eq in Ha. change PAGE_MASK with (Z.ones 12) in Ha. rewrite Z.land_ones in Ha by lia.
      apply Z.mod_divide in Ha as [k ->]; [|done]. lia. }
    split; [split|]; cbn -[Z.add]; [by vm_compute|done|unfold SIZEOF_MEMFS_INODE; lia|done|lia].
Qed.
Lemma inode_ptr c b : inode_cache_ok c -> 0 <= b < mc_total c -> record_of c b <> 0 /\ IS_ERR (record_of c b) = false.
Proof. intros [Hc Ht] Hb. destruct (record_exact c b Hc Hb) as (_ & H1 & H2). pose proof (ci_size c Hc). split; [lia|]. apply low_ptr; lia. Qed.
Lemma take_inode_ok c b : inode_cache_ok c -> 0 <= b < mc_total c -> bit_at (mc_bitmap c) b = false ->
  inode_cache_ok (c <| mc_free ::= Z.pred |> <| mc_bitmap := bit_set (mc_bitmap c) b |>).
Proof. intros [Hc Ht] Hb Hf. split; [by apply take_bit_inv|done]. Qed.
Lemma alloc_inode_from_run l : Forall (fun c => inode_cache_ok c.2) l ->
  alloc_inode_from l = Some None \/
  exists i l', alloc_inode_from l = Some (Some (i, l')) /\ i <> 0 /\ IS_ERR i = false /\ Forall (fun c => inode_cache_ok c.2) l'.
Proof.
  induction 1 as [|[a c] l Hc Hl IH]; [by left|]. cbn [alloc_inode_from]. cbn in Hc.
  destruct (record_alloc_run c (proj1 Hc)) as [[E _]|(Hp & b & Hb & Hf & ->)].
  - rewrite E. cbn [Z.eqb negb]. destruct IH as [->|(i & l' & -> & Hi & He & Hl')]; [by left|right].
    exists i, ((a, c) :: l'). split_and!; [done|done|done|by constructor].
  - rewrite (proj2 (Z.eqb_neq (mc_free c) 0)) by lia. cbn [negb]. right. do 2 eexists. split; [done|].
    destruct (inode_ptr c b Hc Hb). split_and!; [done|done|]. constructor; [by apply take_inode_ok|done].
Qed.
Lemma memfs_alloc_inode_run f : store_ok f -> 0 < free_blocks f ->
  exists i f', memfs_alloc_inode f = Ret i f' /\ i <> 0 /\ IS_ERR i = false /\ stores 1 f f' /\ ipool f' = ipool f.
Proof.
  intros [Hb Hi] Hfree. unfold memfs_alloc_inode. run.
  destruct (alloc_inode_from_run _ Hi) as [->|(i & l & -> & H0 & He & Hl)].
  - destruct (memfs_alloc_block_run f Hb) as [_ [[E _]|(b & l & -> & Hl & Hf & Ha & Hb0 & Hbe)]]; [lia|]. cbn [obind]. rewrite Hbe.
    destruct (inode_cache_init b Ha Hb0) as (c & -> & Hc & Hc7).
    destruct (record_alloc_run c (proj1 Hc)) as [[E _]|(_ & k & Hk & Hkf & ->)]; [lia|].
    destruct (inode_ptr c k Hc Hk) as [H0 He]. unfold set_inode_caches, imod. run. rewrite (proj2 (Z.eqb_neq _ 0) H0). run.
    do 2 eexists. split_and!; [done|done|done| |done]. split; [done|done| |].
    + split; [exact Hl|]. cbn. constructor; [by apply take_inode_ok|done].
    + unfold free_blocks in *. cbn. lia.
  - unfold set_inode_caches, imod. run. rewrite (proj2 (Z.eqb_neq _ 0) H0). run.
    do 2 eexists. split_and!; [done|done|done| |done]. split; [done|done|by split|]. unfold free_blocks. cbn. lia.
Qed.
Lemma memfs_create_inode_run f : store_ok f -> 0 < free_blocks f ->
  exists i f', memfs_create_inode f = Ret i f' /\ i <> 0 /\ IS_ERR i = false /\ stores 1 f f' /\
    inum (inodes f' i) = u32 (id_new (ipool f)).1.
Proof.
  intros Ho Hfree. destruct (memfs_alloc_inode_run f Ho Hfree) as (i & f1 & E & H0 & He & [Hn Hx [O1 O2] Hf] & Ep).
  unfold memfs_create_inode, imod. run. rewrite E. cbn [obind]. rewrite He. cbn [obind].
  rewrite Ep. destruct (Pools.id_new (ipool f)) as [n p]. run. do 2 eexists. split_and!; [done|done|done|by split; [|done|split|]|].
  cbn. by rewrite fn_lookup_insert.
Qed.
(** A directory is written to a new block. *)
Lemma memfs_file_write_run f v buf : store_ok f -> 0 < free_blocks f -> v_inode (vnodes f v) <> 0 ->
  0 <= v_size (vnodes f v) < PAGE_SIZE ->
  exists f', memfs_file_write v 0 1 buf f = Ret PAGE_SIZE f' /\ stores 1 f f'.
Proof.
  intros [Hb Hi] Hfree H0 Hs. unfold memfs_file_write. run. rewrite (proj2 (Z.eqb_neq _ 0) H0).
  change (MEMFS_FMAX_BLOCKS <? u32 (0 + 1)) with false. run.
  change (u32 (u32 (0 + 1) * MEMFS_BLOCK_SIZE)) with PAGE_SIZE. rewrite (proj2 (Z.ltb_lt _ _)) by lia.
  assert (__pfn (v_size (vnodes f v)) = 0) as -> by (rewrite pfn_div; by apply Z.div_small).
  change (0 <? 0) with false. change (Z.to_nat (u32 (0 + 1 - 0))) with 1%nat. cbn [new_blocks]. run.
  destruct (memfs_alloc_block_run f Hb) as [_ [[E _]|(b & l & -> & Hl & Hf & Ha & Hb0 & Hbe)]]; [lia|]. cbn [obind].
  unfold imod. run. rewrite (proj2 (Z.eqb_neq b 0)) by lia. cbn [obind]. change (Z.to_nat 0) with 0%nat. cbn [zero_blocks negb].
  change (Z.to_nat 1) with 1%nat. cbn [buf_to_blocks]. unfold bput. run.
  change (s32 (u32 (1 * MEMFS_BLOCK_SIZE))) with PAGE_SIZE.
  eexists. split; [done|]. split; [done|done|by split|]. unfold free_blocks in *. cbn. lia.
Qed.

(** * A new name in the graph *)

(** [f'] is [f] with the vnode [w], called [c] by the dentry [e], in the
    directory [dir] with the dentry [d]. *)
Record grown (f f' : memfs) (dir d : Z) (c : list Z) (w e type : Z) : Prop := {
  gr_vnode : vdentries (vnodes f' w) = [e] /\ v_inode (vnodes f' w) <> 0 /\ mode (vnodes f' w) = type /\
    v_size (vnodes f' w) = 0 /\ dirbuf (vnodes f' w) = 0;
  gr_dir : vnodes f' dir = vnodes f dir <| v_size ::= Z.add SIZEOF_MEMFS_DENTRY |>;
  gr_vnodes : forall v, v <> w -> v <> dir -> vnodes f' v = vnodes f v;
  gr_dentry : dentries f' e = MkDentry c d [] w;
  gr_parent : dentries f' d = dentries f d <| d_children ::= cons e |>;
  gr_dentries : forall x, x <> e -> x <> d -> dentries f' x = dentries f x;
  gr_caches : vnode_cache f' = w :: vnode_cache f /\ dentry_cache f' = e :: dentry_cache f }.

Section Grown.
Context (f f' : memfs) (dir d : Z) (c : list Z) (w e type : Z).
Context (Hok : tree_ok f) (Hg : grown f f' dir d c w e type).
Context (Hdir : dir ∈ vnode_cache f) (Hd : vdentries (vnodes f dir) = [d]).
Context (Hw : w ∉ vnode_cache f) (He : e ∉ dentry_cache f) (Hptr : IS_ERR w = false /\ w <> 0).
Context (Hc : (length c < Z.to_nat VFS_DNAME_MAX)%nat) (Hnone : child f dir c = None).
Context (Hsize : v_size (vnodes f dir) + SIZEOF_MEMFS_DENTRY <= PAGE_SIZE) (Hbuf : dirbuf (vnodes f dir) <> 0).

Lemma grown_dir_dentry : d ∈ dentry_cache f /\ d_vnode (dentries f d) = dir.
Proof. destruct (tk_vnodes _ Hok dir Hdir) as [_ _ (x & Ex & Hx & Hv) _]. rewrite Hd in Ex. by injection Ex as <-. Qed.
Lemma grown_fields v : v ∈ vnode_cache f -> vdentries (vnodes f' v) = vdentries (vnodes f v) /\ mode (vnodes f' v) = mode (vnodes f v) /\
  v_inode (vnodes f' v) = v_inode (vnodes f v) /\ dirbuf (vnodes f' v) = dirbuf (vnodes f v) /\
  dirbuf_npages (vnodes f' v) = dirbuf_npages (vnodes f v) /\
  v_size (vnodes f' v) = (if decide (v = dir) then SIZEOF_MEMFS_DENTRY else 0) + v_size (vnodes f v).
Proof.
  intros Hv. destruct (decide (v = dir)) as [->|Hne]; [by rewrite (gr_dir _ _ _ _ _ _ _ _ Hg)|].
  rewrite (gr_vnodes _ _ _ _ _ _ _ _ Hg v); [done|by intros ->|done].
Qed.
Lemma grown_dentry_fields x : x ∈ dentry_cache f -> d_name (dentries f' x) = d_name (dentries f x) /\
  d_vnode (dentries f' x) = d_vnode (dentries f x) /\
  d_children (dentries f' x) = if decide (x = d) then e :: d_children (dentries f x) else d_children (dentries f x).
Proof.
  intros Hx. destruct (decide (x = d)) as [->|Hne]; [by rewrite (gr_parent _ _ _ _ _ _ _ _ Hg)|].
  rewrite (gr_dentries _ _ _ _ _ _ _ _ Hg x); [done|by intros ->|done].
Qed.
Lemma grown_isdir v : v ∈ vnode_cache f -> vfs_isdir (vnodes f' v) = vfs_isdir (vnodes f v).
Proof. intros Hv. unfold vfs_isdir. by destruct (grown_fields v Hv) as (_ & -> & _). Qed.
Lemma grown_names x l : (forall y, y ∈ l -> y ∈ dentry_cache f) ->
  (fun y => d_name (dentries f' y)) <$> l = (fun y => d_name (dentries f y)) <$> l /\
  find_name f' x l = find_name f x l.
Proof.
  unfold find_name. induction l as [|y l IH]; intros Hl; [done|]. destruct (grown_dentry_fields y (Hl y ltac:(by left))) as (E & _ & _).
  destruct IH as [E1 E2]; [intros z Hz; apply Hl; by right|]. cbn. rewrite E, E1, E2. done.
Qed.
Lemma grown_child v x : v ∈ vnode_cache f ->
  child f' v x = if decide (v = dir /\ x = c) then Some w else child f v x.
Proof.
  intros Hv. destruct (tk_vnodes _ Hok v Hv) as [_ _ (d' & Ed' & Hd' & Hv') _].
  destruct (grown_fields v Hv) as (En & _). destruct (grown_dentry_fields d' Hd') as (_ & _ & Ech).
  destruct (tk_dentries _ Hok d' Hd') as [_ _ Hch _]. destruct (grown_names x _ Hch) as [_ Hfind].
  assert (forall i y, find_name f x (d_children (dentries f d')) = Some (i, y) ->
    d_vnode (dentries f' y) = d_vnode (dentries f y)) as Hvn.
  { intros i y Hy. apply list_find_Some in Hy as (Hi & _). by apply grown_dentry_fields, Hch, (list_elem_of_lookup_2 _ i). }
  unfold child, dir_entries in Hnone |- *. rewrite En, Ed'. change (default 0 (head [d'])) with d'. rewrite Ech.
  destruct (decide (d' = d)) as [->|Hne].
  - assert (v = dir) as -> by (rewrite <- Hv'; apply grown_dir_dentry). unfold find_name at 1. cbn [list_find].
    rewrite (gr_dentry _ _ _ _ _ _ _ _ Hg). cbn [d_name]. destruct (decide (c = x)) as [<-|Hx].
    + rewrite decide_True by done. cbn. by rewrite (gr_dentry _ _ _ _ _ _ _ _ Hg).
    + rewrite decide_False by (intros [_ ?]; done). fold (find_name f' x (d_children (dentries f d))). rewrite Hfind.
      destruct (find_name f x (d_children (dentries f d))) as [[i y]|] eqn:Ef; cbn; [|done]. exact (f_equal Some (Hvn i y eq_refl)).
  - rewrite decide_False by (intros [-> _]; congruence). rewrite Hfind.
    destruct (find_name f x (d_children (dentries f d'))) as [[i y]|] eqn:Ef; cbn; [|done]. exact (f_equal Some (Hvn i y eq_refl)).
Qed.
Lemma grown_empty x : child f' w x = None.
Proof. unfold child, dir_entries. destruct (gr_vnode _ _ _ _ _ _ _ _ Hg) as (-> & _). cbn. by rewrite (gr_dentry _ _ _ _ _ _ _ _ Hg). Qed.

Lemma grown_tree_ok : tree_ok f'.
Proof.
  pose proof grown_dir_dentry as [Hdc Hdv]. destruct (gr_caches _ _ _ _ _ _ _ _ Hg) as [Ecv Ecd].
  destruct (gr_vnode _ _ _ _ _ _ _ _ Hg) as (G1 & G2 & G3 & G4 & G5). split.
  - intros v. rewrite Ecv. intros [->|Hv]%elem_of_cons.
    + split; [done|done| |].
      * exists e. rewrite Ecd, (gr_dentry _ _ _ _ _ _ _ _ Hg). split_and!; [done|by left|done].
      * rewrite G4. split; [done|]. split; [by left|by left].
    + destruct (tk_vnodes _ Hok v Hv) as [K1 K2 (x & Ex & Hx & Hxv) K4]. destruct (grown_fields v Hv) as (E1 & E2 & E3 & E4 & E5 & E6).
      destruct (grown_dentry_fields x Hx) as (_ & E7 & _).
      split; [by rewrite E3|done|exists x; rewrite E1, E7, Ecd; split_and!; [done|by right|done]|].
      rewrite (grown_isdir v Hv), E4, E6. intros (Hs & Hb & Hbo)%K4. split_and!.
      * destruct (decide (v = dir)); [unfold SIZEOF_MEMFS_DENTRY; lia|lia].
      * destruct (decide (v = dir)) as [->|]; [unfold SIZEOF_MEMFS_DENTRY in *; lia|lia].
      * destruct (decide (v = dir)) as [->|]; [by right|done].
      * unfold buffer_ok in *. by rewrite E4, E5.
  - intros x. rewrite Ecd. intros [->|Hx]%elem_of_cons.
    + split; rewrite (gr_dentry _ _ _ _ _ _ _ _ Hg); cbn; [rewrite Ecv; split; [by left|done]|done|by intros ? ?%elem_of_nil|constructor].
    + destruct (tk_dentries _ Hok x Hx) as [[K1 K1'] K2 K3 K4]. destruct (grown_dentry_fields x Hx) as (E1 & E2 & E3).
      destruct (grown_fields _ K1) as (E4 & _).
      split; rewrite ?E1, ?E2, ?E3, ?E4, ?Ecv, ?Ecd; [split; [by right|done]|done| |].
      * intros y Hy. destruct (decide (x = d)); [apply elem_of_cons in Hy as [->|Hy]; [by left|]|]; right; by apply K3.
      * destruct (grown_names c _ K3) as [En _]. destruct (decide (x = d)) as [->|]; [|by rewrite En].
        cbn. rewrite En, (gr_dentry _ _ _ _ _ _ _ _ Hg). constructor; [|done]. cbn.
        intros (y & Ey & Hy)%list_elem_of_fmap. pose proof (child_spec f dir d c Hok Hdc Hd) as Hsp. rewrite Hnone in Hsp.
        by apply (Hsp y Hy).
Qed.
End Grown.

(** * [memfs_vnode_mknod] *)

Section Mknod.
Context {K : Type} `{kernel_abi K} `{layout}.
Abbreviation St := (mm K).

(** The vnodes and dentries in the caches are areas of the heap. *)
Definition memory_ok (s : St) : Prop :=
  (forall v, v ∈ vnode_cache (mfs s) -> owned s v SIZEOF_VNODE) /\ forall d, d ∈ dentry_cache (mfs s) -> owned s d SIZEOF_DENTRY.

Lemma any_match_run (s : St) c l : tree_ok (mfs s) -> c <> VFS_STR_CURDIR -> (forall d, d ∈ l -> d ∈ dentry_cache (mfs s)) ->
  any_match l c s = Ret (match find_name (mfs s) c l with Some _ => true | None => false end) s.
Proof.
  intros Hok Hc. unfold find_name. induction l as [|d l IH]; intros Hl; [done|]. cbn [any_match list_find].
  rewrite (run_bind _ _ _ _ _ (compare_run s d c Hok (Hl d ltac:(by left)))). rewrite (bool_decide_false (c = _)) by done.
  destruct (decide (d_name (dentries (mfs s) d) = c)) as [E|E]; [by rewrite bool_decide_true|rewrite bool_decide_false by done].
  cbn [orb]. rewrite IH by (intros x Hx; apply Hl; by right). by destruct (list_find _ l).
Qed.

(** What an allocation that takes one area of the heap may change besides. *)
Record gains (a n : Z) (s s' : St) : Prop := {
  ga_only : s' = s <| mheap := mheap s' |> <| mfs := mfs s' |>;
  ga_heap : live heap_array (mheap s');
  ga_brk : g_kbrk (mheap s') <= g_kbrk (mheap s) + (n + SIZEOF_MALLOC);
  ga_fresh : fresh heap_array (mheap s) (mheap s') a n;
  ga_ptr : a <> 0 /\ IS_ERR a = false;
  ga_store : store_ok (mfs s') }.
Lemma gains_new a n (s s' : St) b m : gains a n s s' -> 0 <= n -> 0 <= m -> owned s b m -> owned s' b m /\ b <> a.
Proof. intros [_ _ _ F _ _] Hn Hm Hb. by apply (fresh_owned s s' a n b m). Qed.

Definition heap_usable (s : St) : Prop := live heap_array (mheap s) /\ heap_array + HEAP_SIZE <= 2 ^ 32 - 0x1000.
Lemma alloc_vnode_run (s : St) : heap_usable s -> store_ok (mfs s) -> 0 < free_blocks (mfs s) -> heap_room s (SIZEOF_VNODE + SIZEOF_MALLOC) ->
  exists w s', memfs_alloc_vnode s = Ret w s' /\ gains w SIZEOF_VNODE s s' /\ free_blocks (mfs s) - 1 <= free_blocks (mfs s') /\
    (forall v, v <> w -> vnodes (mfs s') v = vnodes (mfs s) v) /\ dentries (mfs s') = dentries (mfs s) /\
    vnode_cache (mfs s') = vnode_cache (mfs s) /\ dentry_cache (mfs s') = dentry_cache (mfs s) /\
    let x := vnodes (mfs s') w in vdentries x = [] /\ v_inode x <> 0 /\ mode x = 0 /\ v_size x = 0 /\ dirbuf x = 0 /\
      fsidx (mfs s') = fsidx (mfs s) /\ vnum x = Z.lor (u32 (id_new (ipool (mfs s))).1) (fsidx (mfs s)).
Proof.
  intros [Hl Hlow] Ho Hf Hr. unfold memfs_alloc_vnode. nrun.
  destruct (memfs_create_inode_run (mfs s) Ho Hf) as (i & f1 & E & H0i & Hei & [(V & D & C1 & C2) X1 O1 F1] & Ei).
  rewrite (fs_run _ _ _ _ E). cbn [obind]. rewrite Hei. unfold vfs_alloc_vnode. nrun.
  destruct (kzalloc_run (s <| mfs := f1 |>) SIZEOF_VNODE) as (w & s2 & -> & (E2 & L2 & B2) & Hw0 & Hwe & Fr); [done..|]. cbn [obind].
  rewrite fs_vmod. cbn [obind]. rewrite fs_vmod. cbn [obind]. do 2 eexists. split; [done|].
  split.
  2: { rewrite E2. cbn. rewrite !fn_lookup_insert, V, D, C1, C2. cbn. rewrite Ei, X1. split_and!; [exact F1| |done..].
       intros v Hv. by rewrite !fn_lookup_insert_ne. }
  rewrite E2. split; [by destruct s|exact L2|cbn in B2; cbn; lia|exact Fr|done|cbn; by destruct O1].
Qed.
Lemma alloc_dentry_run (s : St) : heap_usable s -> store_ok (mfs s) -> heap_room s (SIZEOF_DENTRY + SIZEOF_MALLOC) ->
  exists e s', vfs_alloc_dentry s = Ret e s' /\ gains e SIZEOF_DENTRY s s' /\
    mfs s' = mfs s <| dentries := <[e := MkDentry [] 0 [] 0]> (dentries (mfs s)) |>.
Proof.
  intros [Hl Hlow] Ho Hr. unfold vfs_alloc_dentry. nrun.
  destruct (kzalloc_run s SIZEOF_DENTRY) as (e & s2 & -> & (E2 & L2 & B2) & He0 & Hee & Fr); [done..|]. cbn [obind].
  rewrite fs_dmod. cbn [obind]. do 2 eexists. split; [done|].
  split; [|rewrite E2; cbn; done].
  rewrite E2. split; [by destruct s|exact L2|cbn; lia|exact Fr|done|cbn; by destruct Ho].
Qed.

Lemma memfs_write_vnode_run f v : v_inode (vnodes f v) <> 0 ->
  exists i, memfs_write_vnode v f = Ret tt (f <| inodes := i |>).
Proof. intros Hi. unfold memfs_write_vnode, imod. run. rewrite (proj2 (Z.eqb_neq _ 0) Hi). by eexists. Qed.

(** The second half: the new record is written and the dentry made. *)
Lemma mknod_links_run (s : St) dir d c w :
  heap_usable s -> store_ok (mfs s) -> 0 < free_blocks (mfs s) -> heap_room s (SIZEOF_DENTRY + SIZEOF_MALLOC) ->
  w <> dir -> v_inode (vnodes (mfs s) dir) <> 0 ->
  0 <= v_size (vnodes (mfs s) dir) /\ v_size (vnodes (mfs s) dir) + SIZEOF_MEMFS_DENTRY <= PAGE_SIZE ->
  owned s d SIZEOF_DENTRY -> forall buf, exists e s', mknod_links dir d w c buf s = Ret w s' /\
    gains e SIZEOF_DENTRY s s' /\ free_blocks (mfs s) - 1 <= free_blocks (mfs s') /\
    vnodes (mfs s') w = vnodes (mfs s) w <| vdentries ::= cons e |> /\
    vnodes (mfs s') dir = vnodes (mfs s) dir <| v_size ::= Z.add SIZEOF_MEMFS_DENTRY |> /\
    (forall v, v <> w -> v <> dir -> vnodes (mfs s') v = vnodes (mfs s) v) /\
    dentries (mfs s') e = MkDentry (strncpy VFS_DNAME_MAX c) d [] w /\
    dentries (mfs s') d = dentries (mfs s) d <| d_children ::= cons e |> /\
    (forall x, x <> e -> x <> d -> dentries (mfs s') x = dentries (mfs s) x) /\
    vnode_cache (mfs s') = w :: vnode_cache (mfs s) /\ dentry_cache (mfs s') = e :: dentry_cache (mfs s).
Proof.
  intros Hh Ho Hf Hr Hne Hi Hs Hd buf. unfold mknod_links. nrun. assert (SIZEOF_MEMFS_DENTRY = 43 /\ PAGE_SIZE = 4096) as [ES EP] by done.
  destruct (memfs_file_write_run (mfs s) dir (fun _ => buf) Ho Hf Hi) as (f1 & E & [(V1 & D1 & C1 & C1') _ O1 F1]); [lia|].
  rewrite (fs_run _ _ _ _ E). cbn [obind]. change (PAGE_SIZE <? 0) with false. cbn iota beta. rewrite fs_vmod. cbn [obind].
  match goal with |- context [with_fs (memfs_write_vnode dir) ?t] => set (s2 := t) end.
  destruct (memfs_write_vnode_run (mfs s2) dir) as (i & Ew); [unfold s2; cbn; rewrite fn_lookup_insert, V1; done|].
  rewrite (fs_run _ _ _ _ Ew). cbn [obind].
  destruct (alloc_dentry_run (s2 <| mfs := mfs s2 <| inodes := i |> |>)) as (e & s3 & -> & G & Em);
    [exact Hh|by destruct O1|exact Hr|]. cbn [obind].
  destruct (gains_new e SIZEOF_DENTRY _ s3 d SIZEOF_DENTRY G) as [_ Hde]; [done|done|exact Hd|].
  rewrite fs_dmod. cbn [obind]. rewrite fs_vmod. cbn [obind]. rewrite fs_dmod. cbn [obind].
  do 2 eexists. split; [done|]. split; [|cbn; rewrite Em; unfold s2; cbn; split_and!].
  - destruct G as [G1 G2 G3 G4 G5 G6]. split; [|exact G2|exact G3|exact G4|exact G5|cbn; by destruct G6].
    cbn. rewrite G1. by destruct s.
  - unfold free_blocks in *. cbn in *. lia.
  - rewrite fn_lookup_insert, fn_lookup_insert_ne by done. by rewrite V1.
  - rewrite fn_lookup_insert_ne, fn_lookup_insert by done. by rewrite V1.
  - intros v Hv1 Hv2. rewrite !fn_lookup_insert_ne by done. by rewrite V1.
  - rewrite fn_lookup_insert_ne by done. by rewrite !fn_lookup_insert.
  - rewrite fn_lookup_insert. rewrite !fn_lookup_insert_ne by done. by rewrite D1.
  - intros x Hx1 Hx2. rewrite !fn_lookup_insert_ne by done. by rewrite D1.
  - by rewrite C1.
  - by rewrite C1'.
Qed.

(** What making the name [c] in the directory [dir] for the new vnode [w] does:
    one edge more, to a vnode without names below it, and two areas of memory. *)
Record made (s s' : St) (dir : Z) (c : list Z) (type w : Z) : Prop := {
  md_new : (w ∉ vnode_cache (mfs s)) /\ vnode_cache (mfs s') = w :: vnode_cache (mfs s) /\ IS_ERR w = false;
  md_child : forall v x, v ∈ vnode_cache (mfs s) ->
    child (mfs s') v x = if decide (v = dir /\ x = c) then Some w else child (mfs s) v x;
  md_empty : forall x, child (mfs s') w x = None;
  md_type : mode (vnodes (mfs s') w) = type /\ v_size (vnodes (mfs s') w) = 0;
  md_modes : forall v, v ∈ vnode_cache (mfs s) -> mode (vnodes (mfs s') v) = mode (vnodes (mfs s) v);
  md_names : forall v, v ∈ vnode_cache (mfs s) -> name_of (mfs s') v = name_of (mfs s) v;
  md_ok : names_ok s' /\ memory_ok s' /\ store_ok (mfs s');
  md_memory : exists e, forall m, used_in (blocks (mheap s')) m <->
    m = MkBlk (e - SIZEOF_MALLOC) SIZEOF_DENTRY true \/ m = MkBlk (w - SIZEOF_MALLOC) SIZEOF_VNODE true \/ used_in (blocks (mheap s)) m;
  md_only : s' = s <| mheap := mheap s' |> <| mfs := mfs s' |> }.

(** No more than [m] bytes of the heap and [k] blocks are gone. *)
Definition spends (s s' : St) (m k : Z) : Prop :=
  g_kbrk (mheap s') <= g_kbrk (mheap s) + m /\ free_blocks (mfs s) - k <= free_blocks (mfs s').
(** What a new name costs. *)
Definition ENTRY : Z := SIZEOF_VNODE + SIZEOF_DENTRY + 2 * SIZEOF_MALLOC.
(** Room for one more entry in a directory. *)
Record entry_room (s : St) (dir : Z) : Prop := {
  er_buffer : IS_ERR (dirbuf (vnodes (mfs s) dir)) = false;
  er_size : v_size (vnodes (mfs s) dir) + SIZEOF_MEMFS_DENTRY <= PAGE_SIZE;
  er_blocks : 3 <= free_blocks (mfs s);
  er_heap : heap_room s ENTRY }.

Lemma reads_ok (s s' : St) : names_ok s -> memory_ok s -> store_ok (mfs s) -> reads s s' ->
  names_ok s' /\ memory_ok s' /\ store_ok (mfs s') /\ mheap s' = mheap s.
Proof.
  intros Hok [M1 M2] [S1 S2] Hr. pose proof Hr as [O [_ _ [C1 C2] (_ & _ & _ & I & _)] _ B _ _].
  assert (mheap s' = mheap s) as Eh by (rewrite O; done).
  split; [by apply (reads_names s)|]. split; [|split; [by split; [|rewrite I]|done]].
  unfold memory_ok, owned. by rewrite C1, C2, Eh.
Qed.

Lemma mknod_entry_run (s : St) dir d c mode_ : names_ok s -> memory_ok s -> store_ok (mfs s) ->
  dir ∈ vnode_cache (mfs s) -> vdentries (vnodes (mfs s) dir) = [d] -> vfs_isdir (vnodes (mfs s) dir) = true ->
  child (mfs s) dir c = None -> (length c < Z.to_nat VFS_DNAME_MAX)%nat ->
  dirbuf (vnodes (mfs s) dir) <> 0 -> IS_ERR (dirbuf (vnodes (mfs s) dir)) = false ->
  v_size (vnodes (mfs s) dir) + SIZEOF_MEMFS_DENTRY <= PAGE_SIZE -> 2 <= free_blocks (mfs s) ->
  heap_room s ENTRY ->
  exists w s', mknod_entry dir d c mode_ s = Ret w s' /\ made s s' dir c (Z.land S_IFMT mode_) w /\ spends s s' ENTRY 2.
Proof.
  intros Hok Hmem Hst Hv Ed Hdir Hnone Hlen Hbuf Hbe Hsz Hbl Hhr. pose proof Hok as [Hheap Ht Hb].
  destruct (tk_vnodes _ Ht dir Hv) as [K1 K2 (d' & Ed' & Hd & Edv) K4]. rewrite Ed in Ed'. injection Ed' as <-.
  destruct (K4 Hdir) as ([Hs0 _] & _ & Hbo). destruct Hbo as [?|[?|[Hnp Hal]]]; [done|congruence|].
  assert (SIZEOF_MEMFS_DENTRY = 43 /\ PAGE_SIZE = 4096) as [ES EP] by done.
  destruct (alloc_vnode_run s) as (w & s2 & E2 & G2 & F2 & V2 & D2 & C2 & C2' & W1 & W2 & W3 & W4 & W5 & _ & _);
    [done|done|lia|unfold heap_room, ENTRY in *; unfold SIZEOF_DENTRY, SIZEOF_MALLOC in *; lia|].
  assert (forall v, v ∈ vnode_cache (mfs s) -> v <> w) as Hw.
  { intros v Hv' ->. destruct Hmem as [Hm _]. by destruct (gains_new w SIZEOF_VNODE s s2 w SIZEOF_VNODE G2 ltac:(done) ltac:(done) (Hm w Hv')). }
  pose proof G2 as [O2 L2 B2 Fr2 [Hw0 Hwe] S2]. specialize (Hw dir Hv) as Hwd.
  unfold mknod_entry. nrun. rewrite E2. cbn [obind]. rewrite Hwe. unfold set_type. rewrite fs_vmod. cbn [obind].
  match goal with |- context [vnodes (mfs ?t) dir] => set (s3 := t) | |- context [s2 <| mfs := ?m |>] => set (s3 := s2 <| mfs := m |>) end.
  assert (vnodes (mfs s3) dir = vnodes (mfs s) dir) as E3 by (unfold s3; cbn; rewrite fn_lookup_insert_ne by done; by apply V2).
  nrun. rewrite E3, Hnp, (proj2 (Z.leb_gt _ _)), Hbe, (proj2 (Z.ltb_ge _ _)) by lia. cbn [obind]. rewrite fs_bput. cbn [obind].
  rewrite Hal. cbn [negb obind]. match goal with |- context [mknod_links _ _ _ _ ?b ?t] => set (buf := b); set (s4 := t) end.
  assert (vnodes (mfs s4) dir = vnodes (mfs s) dir) as E4 by exact E3.
  destruct (mknod_links_run s4 dir d c w) with (buf := buf) as
    (e & s5 & E5 & G5 & F5 & L1 & L2' & L3 & L4 & L5 & L6 & L7 & L8) ;
    [by destruct Hheap|by destruct S2| | |by intros ->|by rewrite E4|rewrite E4; lia| |].
  { change (free_blocks (mfs s4)) with (free_blocks (mfs s2)). lia. }
  { change (heap_room s2 (SIZEOF_DENTRY + SIZEOF_MALLOC)). unfold heap_room, ENTRY in *. unfold SIZEOF_VNODE, SIZEOF_DENTRY, SIZEOF_MALLOC in *. lia. }
  { apply (gains_new w SIZEOF_VNODE s s2 d SIZEOF_DENTRY G2); [done|done|by apply Hmem]. }
  exists w, s5. split; [exact E5|].
  assert (vnodes (mfs s4) w = vnodes (mfs s2) w <| mode := Z.land S_IFMT mode_ |>) as E4w.
  { unfold s4, s3. cbn. rewrite fn_lookup_insert. unfold set_field. cbn. rewrite W3. by rewrite Z.land_0_l, Z.lor_0_l. }
  assert (forall v, v <> w -> vnodes (mfs s4) v = vnodes (mfs s) v) as E4v.
  { intros v Hvw. unfold s4, s3. cbn. rewrite fn_lookup_insert_ne by done. by apply V2. }
  assert (strncpy VFS_DNAME_MAX c = c) as Ec by (apply take_ge; lia).
  assert (grown (mfs s) (mfs s5) dir d c w e (Z.land S_IFMT mode_)) as Hg.
  { split; rewrite ?L1, ?E4w; cbn; [by rewrite W1|by rewrite L2', E4| |by rewrite L4, Ec| | |].
    - intros v H1 H2. rewrite L3, E4v; done.
    - rewrite L5. change (dentries (mfs s4)) with (dentries (mfs s2)). by rewrite D2.
    - intros x H1 H2. rewrite L6 by done. change (dentries (mfs s4)) with (dentries (mfs s2)). by rewrite D2.
    - change (vnode_cache (mfs s4)) with (vnode_cache (mfs s2)) in L7. change (dentry_cache (mfs s4)) with (dentry_cache (mfs s2)) in L8.
      by rewrite L7, L8, C2, C2'. }
  assert (w ∉ vnode_cache (mfs s)) as Hwn by (intros Hin; by apply (Hw w Hin)).
  pose proof G5 as [O5 H5 B5 Fr5 _ S5].
  assert (forall b m, 0 <= m -> owned s b m -> owned s5 b m /\ b <> e) as Hkeep.
  { intros b m Hm Hbm. destruct (gains_new w SIZEOF_VNODE s s2 b m G2 ltac:(done) Hm Hbm) as [Hb2 _].
    by apply (gains_new e SIZEOF_DENTRY s4 s5 b m G5). }
  assert (e ∉ dentry_cache (mfs s)) as Hen.
  { intros Hin. destruct Hmem as [_ Hm]. by destruct (Hkeep e SIZEOF_DENTRY ltac:(done) (Hm e Hin)). }
  assert (tree_ok (mfs s5)) as Ht5 by (eapply grown_tree_ok; eauto).
  destruct (gr_caches _ _ _ _ _ _ _ _ Hg) as [G7 G8].
  split; [|split; [change (mheap s4) with (mheap s2) in B5; unfold ENTRY; lia|change (free_blocks (mfs s4)) with (free_blocks (mfs s2)) in F5; lia]].
  split.
  - done.
  - intros v x Hvc. by eapply grown_child.
  - intros x. by eapply grown_empty.
  - by destruct (gr_vnode _ _ _ _ _ _ _ _ Hg) as (_ & _ & ? & ? & _).
  - intros v Hvc. by eapply grown_fields.
  - intros v Hvc. unfold name_of. destruct (grown_fields _ _ _ _ _ _ _ _ Hg Hwn v Hvc) as (-> & _).
    destruct (tk_vnodes _ Ht v Hvc) as [_ _ (x & -> & Hx & _) _]. cbn. by eapply grown_dentry_fields.
  - split; [split; [by destruct Hheap|done|by destruct S5]|]. split; [|done]. destruct Hmem as [Hm1 Hm2]. split.
    + rewrite G7. intros v [->|Hvc]%elem_of_cons; [|by apply Hkeep, Hm1].
      apply (gains_new e SIZEOF_DENTRY s4 s5 w SIZEOF_VNODE G5); [done..|]. exact (fresh_new s s2 w SIZEOF_VNODE Fr2).
    + rewrite G8. intros x [->|Hx]%elem_of_cons; [exact (fresh_new s4 s5 e SIZEOF_DENTRY Fr5)|by apply Hkeep, Hm2].
  - exists e. intros m. destruct Fr5 as (_ & _ & -> & _). change (mheap s4) with (mheap s2). by destruct Fr2 as (_ & _ & -> & _).
  - rewrite O5. unfold s4, s3. cbn. rewrite O2. by destruct s.
Qed.
(** [mknod]: [-EEXIST] and no change to a name that is there, and otherwise the
    new name. *)
Lemma memfs_vnode_mknod_run (s : St) dir c mode_ : names_ok s -> memory_ok s -> store_ok (mfs s) ->
  dir ∈ vnode_cache (mfs s) -> vfs_isdir (vnodes (mfs s) dir) = true -> c <> VFS_STR_CURDIR ->
  (length c < Z.to_nat VFS_DNAME_MAX)%nat -> entry_room s dir ->
  exists s1, reads s s1 /\ mheap s1 = mheap s /\
    match child (mfs s) dir c with
    | Some _ => memfs_vnode_mknod dir c mode_ s = Ret (PTR_ERR (- EEXIST)) s1
    | None => exists w s', memfs_vnode_mknod dir c mode_ s = Ret w s' /\ made s1 s' dir c (Z.land S_IFMT mode_) w /\ spends s s' ENTRY 3
    end.
Proof.
  intros Hok Hmem Hst Hv Hdir Hc Hlen [Hbe Hsz Hbl Hhr]. pose proof Hok as [Hheap Ht Hb].
  destruct (tk_vnodes _ Ht dir Hv) as [K1 K2 (d & Ed & Hd & Edv) K4].
  unfold memfs_vnode_mknod, only_dentry. nrun. rewrite Ed, bool_decide_false by done. cbn [obind]. rewrite Ed.
  cbn [obind length Nat.ltb Nat.leb]. change (default 0 (head [d])) with d. rewrite Hdir. cbn [negb obind].
  destruct (memfs_vnode_readdir_run s dir Ht Hb Hv Hdir) as (r0 & s1 & -> & Hr1 & Hcase). cbn [obind].
  destruct Hcase as [(-> & Hf1 & Hbuf1 & Hbe1)|[_ Hf0]]; [|lia]. specialize (Hbe1 Hbe). change (0 <? 0) with false. nrun.
  destruct (reads_ok s s1 Hok Hmem Hst Hr1) as (Hok1 & Hmem1 & Hst1 & Eh1). pose proof Hr1 as [O1 T1 Ht1 Hb1 _ _].
  pose proof T1 as [_ ED [EC EC'] _]. assert (Hv1 : dir ∈ vnode_cache (mfs s1)) by (by rewrite EC).
  assert (vdentries (vnodes (mfs s1) dir) = [d]) as Ed1 by (by rewrite (same_names _ _ _ T1)).
  destruct (tk_dentries _ Ht1 d) as [_ _ Hch _]; [by rewrite EC'|].
  rewrite (any_match_run s1 c (d_children (dentries (mfs s1) d)) Ht1 Hc Hch). cbn [obind].
  exists s1. split; [done|]. split; [done|].
  rewrite <- (same_child _ _ dir c T1). assert (child (mfs s1) dir c = (fun x => d_vnode (dentries (mfs s1) x.2)) <$>
    find_name (mfs s1) c (d_children (dentries (mfs s1) d))) as Ech by (unfold child, dir_entries; by rewrite Ed1).
  destruct (find_name (mfs s1) c (d_children (dentries (mfs s1) d))) as [[i y]|]; rewrite Ech; [done|].
  assert (v_size (vnodes (mfs s1) dir) = v_size (vnodes (mfs s) dir)) as Esz by (destruct (st_vnodes _ _ T1 dir) as (? & ? & ->); done).
  destruct (mknod_entry_run s1 dir d c mode_) as (w & s' & E & M & B1 & B2); try done;
    [by rewrite (same_isdir _ _ _ T1)|by rewrite Esz|lia|unfold heap_room; by rewrite Eh1|].
  exists w, s'. split; [done|]. split; [done|]. rewrite Eh1 in B1. split; [done|lia].
Qed.
End Mknod.

(** * [sys_mkdir] *)

Section Mkdir.
Context {K : Type} `{kernel_abi K} `{layout}.
Abbreviation St := (mm K).

(** The last component is taken off the path. *)
Lemma last_component_run (s0 s : St) p l a str : names_ok s -> parsed s0 s p -> pd_list p = l ++ [(a, str)] ->
  exists s', pathdata_last_component p s = Ret (str, p <| pd_list := l |>) s' /\ names_ok s' /\
    s' = s <| mheap := mheap s' |> /\ g_kbrk (mheap s') = g_kbrk (mheap s) /\ parsed s0 s' (p <| pd_list := l |>).
Proof.
  intros [[Hl Hlow] Ht Hb] [Pu Pn Pd] El. unfold pd_blocks in *. rewrite El, fmap_app in *. cbn [fmap list_fmap fst] in *.
  rewrite app_comm_cons in Pd. apply NoDup_app in Pd as (Pd & Hdis & _).
  destruct (kfree_owned s a SIZEOF_PATHCOMP Hl) as (h & Ek & Hlh & Hbrk & Hu).
  { apply Pu. right. exists a. split; [|done]. right. apply elem_of_app. right. by left. }
  exists (s <| mheap := h |>). unfold pathdata_last_component. rewrite El, last_snoc, removelast_last. nrun. rewrite Ek. cbn [obind].
  split; [done|]. split; [by split|]. split; [done|]. split; [done|]. split; unfold pd_blocks; cbn [pd_at pd_list set_field]; unfold set_field; cbn [pd_at pd_list].
  - intros m. cbn. rewrite Hu, Pu. split.
    + intros [[Hm|(b & Hb' & ->)] Hne]; [by left|right]. exists b. split; [|done].
      rewrite app_comm_cons, elem_of_app, list_elem_of_singleton in Hb'. destruct Hb' as [Hb'| ->]; [done|by destruct Hne].
    + intros [Hm|(b & Hb' & ->)].
      * split; [by left|]. intros ->. apply (Pn a); [|done]. right. apply elem_of_app. right. by left.
      * split; [right; exists b; split; [|done]; rewrite app_comm_cons; apply elem_of_app; by left|].
        intros [= E]. apply (Hdis b); [done|]. apply list_elem_of_singleton. lia.
  - intros b Hb'. apply Pn. rewrite app_comm_cons. apply elem_of_app. by left.
  - done.
Qed.

(** Room for a path and for the new entry. *)
Record mkdir_room (s : St) (path : list Z) (dir : Z) : Prop := {
  mr_entry : IS_ERR dir = false -> IS_ERR (dirbuf (vnodes (mfs s) dir)) = false /\
    v_size (vnodes (mfs s) dir) + SIZEOF_MEMFS_DENTRY <= PAGE_SIZE;
  mr_blocks : Z.of_nat (length (kept path)) + 3 <= free_blocks (mfs s);
  mr_heap : heap_room s (COMP * Z.of_nat (2 + length (kept path)) + ENTRY) }.

Lemma made_before (s s1 s' : St) dir c type w : reads s s1 -> mheap s1 = mheap s -> made s1 s' dir c type w -> made s s' dir c type w.
Proof.
  intros [O T _ _ _ _] Eh [M1 M2 M3 M4 M5 MN M6 M7 M8]. pose proof T as [_ _ [EC EC'] _]. rewrite EC, Eh in *. split; try done.
  - intros v x Hv. rewrite M2 by done. by rewrite (same_child _ _ _ _ T).
  - intros v Hv. rewrite M5 by done. by destruct (st_vnodes _ _ T v) as (? & ? & ->).
  - intros v Hv. rewrite MN by done. by apply same_name_of.
  - rewrite M8, O. by destruct s.
Qed.

Lemma looks_ok l (s0 s s' : St) p : memory_ok s0 -> store_ok (mfs s0) -> mfs s = mfs s0 -> parsed s0 s p -> looks l s s' ->
  memory_ok s' /\ store_ok (mfs s').
Proof.
  intros [M1 M2] [S1 S2] Em [Pu _ _] [_ [_ _ [C1 C2] (_ & _ & _ & I & _)] [_ _ B] _ U _ _]. rewrite Em in *. split.
  - unfold memory_ok, owned in *. rewrite C1, C2. split; intros x Hx; apply U; (split; [apply Pu; left; auto|by intros a _]).
  - split; [done|by rewrite I].
Qed.
(** The way to the parent: path data without its last component, and the vnode
    that the rest of the path leads to. *)
Lemma parent_run (s : St) task path init c : names_ok s -> memory_ok s -> store_ok (mfs s) -> starts_ok s task ->
  Forall (fun c => c <> 0) path -> kept path = init ++ [c] ->
  heap_room s (COMP * Z.of_nat (2 + length (kept path))) -> Z.of_nat (length init) <= free_blocks (mfs s) ->
  let dir := resolve (mfs s) (start_of s task path) init in
  exists p0 s1 p s2 k s3, pathdata_parse path task s = Ret p0 s1 /\ pathdata_last_component p0 s1 = Ret (c, p) s2 /\
    vfs_vnode_lookup_bypath p s2 = Ret (dir, p <| pd_list := drop k (pd_list p) |>) s3 /\
    parsed s s2 p /\ looks (fst <$> take k (pd_list p)) s2 s3 /\ mfs s2 = mfs s /\
    s3 = s <| mheap := mheap s3 |> <| mfs := mfs s3 |> /\
    g_kbrk (mheap s3) <= g_kbrk (mheap s) + COMP * Z.of_nat (2 + length (kept path)) /\
    free_blocks (mfs s) - Z.of_nat (length init) - 1 <= free_blocks (mfs s3).
Proof.
  intros Hok Hmem Hst Hs Hpath Ek Hroom Hfree dir.
  destruct (pathdata_parse_run s task path Hok Hs Hpath Hroom) as (p0 & s1 & Ep & A1 & Es & Ev & Hp).
  destruct (allocates_names _ _ _ Hok A1) as [Hok1 Em1]. pose proof A1 as (E1 & _ & B1).
  assert (start_of s task path ∈ vnode_cache (mfs s)) as Hstart by (unfold start_of; destruct Hs as (? & ? & _); by case_bool_decide).
  assert (exists l a, pd_list p0 = l ++ [(a, c)] /\ snd <$> l = name_of (mfs s) (start_of s task path) :: init) as (l & a & El & Esl).
  { rewrite Ek, app_comm_cons in Es. destruct (pd_list p0) as [|x l _] eqn:E0 using rev_ind; [by destruct init|].
    rewrite fmap_app in Es. change (snd <$> [x]) with [x.2] in Es. apply app_inj_tail in Es as [Es Ex]. exists l, x.1. split; [|done]. rewrite <- Ex. by destruct x. }
  destruct (last_component_run s s1 p0 l a c Hok1 Hp El) as (s2 & E2 & Hok2 & O2 & B2 & Hp2).
  assert (mfs s2 = mfs s) as Em2 by (rewrite O2; exact Em1).
  destruct (bypath_run s2 (p0 <| pd_list := l |>) init Hok2 (parsed_owned _ _ _ Hp2)) as (r & k & s3 & E3 & L3 & Hr).
  { change (vstart p0 ∈ vnode_cache (mfs s2)). by rewrite Ev, Em2. }
  { change (snd <$> l = name_of (mfs s2) (vstart p0) :: init). by rewrite Ev, Em2. }
  { pose proof (kept_not_dot path) as Hd. rewrite Ek in Hd. by apply Forall_app in Hd as [Hd _]. }
  change (vstart (p0 <| pd_list := l |>)) with (vstart p0) in Hr. rewrite Em2, Ev in Hr. fold dir in Hr.
  destruct Hr as [->|[_ ?]]; [|lia]. pose proof L3 as [O3 _ _ B3 _ F3 _].
  exists p0, s1, (p0 <| pd_list := l |>), s2, k, s3. split_and!; [done..| | |].
  - rewrite O3, O2, E1. by destruct s.
  - rewrite B3, B2. lia.
  - rewrite Em2 in F3. assert (length (fst <$> take k (pd_list (p0 <| pd_list := l |>))) <= S (length init))%nat; [|lia].
    rewrite length_fmap, length_take. change (pd_list (p0 <| pd_list := l |>)) with l.
    apply (f_equal length) in Esl. rewrite length_fmap in Esl. cbn in Esl. lia.
Qed.

(** The name is made after a lookup, and the path given back after that. *)
Lemma made_after (s s3 s4 s5 : St) dir c type type' w h : same_tree (mfs s) (mfs s3) -> reads s3 s4 -> made s4 s5 dir c type' w -> type' = type ->
  live heap_array h ->
  (exists e, forall m, used_in (blocks h) m <-> (m = MkBlk (e - SIZEOF_MALLOC) SIZEOF_DENTRY true \/
    m = MkBlk (w - SIZEOF_MALLOC) SIZEOF_VNODE true) \/ used_in (blocks (mheap s)) m) ->
  s5 = s <| mheap := mheap s5 |> <| mfs := mfs s5 |> ->
  (forall m, msize m <> SIZEOF_PATHCOMP -> used_in (blocks (mheap s5)) m -> used_in (blocks h) m) -> made s (s5 <| mheap := h |>) dir c type w.
Proof.
  intros T3 [O4 T4 _ _ _ _] [M1 M2 M3 M4 M5 MN M6 _ _] <- Hlh (e & Hu) Ho Hkeep.
  pose proof (same_tree_trans _ _ _ T3 T4) as T. pose proof T as [_ _ [EC EC'] _]. rewrite EC in *.
  split; [done| |done|done| | | | |rewrite Ho; by destruct s].
  - intros v x Hv. rewrite <- (same_child _ _ _ _ T). by apply M2.
  - intros v Hv. change (mfs (s5 <| mheap := h |>)) with (mfs s5). rewrite M5 by done. by destruct (st_vnodes _ _ T v) as (? & ? & ->).
  - intros v Hv. change (mfs (s5 <| mheap := h |>)) with (mfs s5). rewrite MN by done. by apply same_name_of.
  - destruct M6 as ([[_ Hlow] Ht Hb] & [Mv Md] & Hst). split; [by split; [by split| |]|]. split; [|done].
    split; intros x Hx; apply Hkeep; (done || by apply Mv || by apply Md).
  - exists e. intros m. change (used_in (blocks h) m <-> m = MkBlk (e - SIZEOF_MALLOC) SIZEOF_DENTRY true \/
      m = MkBlk (w - SIZEOF_MALLOC) SIZEOF_VNODE true \/ used_in (blocks (mheap s)) m). rewrite Hu. tauto.
Qed.

(** What [mkdir] does; [sys_mkdir_makes_a_directory] of Rootfs says it in words. *)
Lemma mkdir_run (s : St) task path mode_ init c :
  names_ok s -> memory_ok s -> store_ok (mfs s) -> starts_ok s task -> Forall (fun c => c <> 0) path ->
  kept path = init ++ [c] -> (length c < Z.to_nat VFS_DNAME_MAX)%nat -> Z.land S_IFMT mode_ = 0 ->
  let dir := resolve (mfs s) (start_of s task path) init in
  mkdir_room s path dir ->
  exists r s', sys_mkdir task path mode_ s = Ret r s' /\
    if IS_ERR dir then r = s32 dir /\ undisturbed s s'
    else if negb (vfs_isdir (vnodes (mfs s) dir)) then r = - ENOENT /\ undisturbed s s'
    else match child (mfs s) dir c with
      | Some _ => r = - EEXIST /\ undisturbed s s'
      | None => r = 0 /\ (exists w, made s s' dir c S_IFDIR w) /\
          spends s s' (COMP * Z.of_nat (2 + length (kept path)) + ENTRY) (Z.of_nat (length (kept path)) + 3)
      end.
Proof.
  intros Hok Hmem Hst Hs Hpath Ek Hlen Hmode dir [Re Rb Rh].
  assert (length (kept path) = S (length init)) as Elen by (rewrite Ek, length_app; cbn; lia).
  destruct (parent_run s task path init c Hok Hmem Hst Hs Hpath Ek) as
    (p0 & s1 & p & s2 & k & s3 & E1 & E2 & E3 & Hp & L3 & Em2 & O3 & B3 & F3); [unfold heap_room, ENTRY in *; unfold SIZEOF_VNODE, SIZEOF_DENTRY, SIZEOF_MALLOC in *; lia|lia|].
  fold dir in E3. destruct (looks_ok _ s s2 s3 p Hmem Hst Em2 Hp L3) as [Hmem3 Hst3].
  pose proof L3 as [_ T3 Hok3 _ U3 _ I3]. rewrite Em2 in T3, I3. pose proof Hok3 as [[Hl3 Hlow] Ht3 Hb3].
  unfold sys_mkdir, vfs_vnode_create. nrun. rewrite E1. cbn [obind]. rewrite E2. cbn [obind fst snd]. rewrite E3. cbn [obind fst snd].
  assert (forall X (s4 : St), (forall a, ~ X (comp_block a)) -> live heap_array (mheap s4) ->
    (forall m, used_in (blocks (mheap s4)) m <-> X m \/ used_in (blocks (mheap s3)) m) ->
    exists h, pathdata_destroy (p <| pd_list := drop k (pd_list p) |>) s4 = Ret tt (s4 <| mheap := h |>) /\
      (live heap_array h /\ g_kbrk h = g_kbrk (mheap s4)) /\
      forall m, used_in (blocks h) m <-> X m \/ used_in (blocks (mheap s)) m) as Hdestroy.
  { intros X s4 HX Hl4 Hu4. destruct (path_destroy_run X s s2 s4 p k HX Hp Hl4) as (h & Eh & Hlh & Hbk & Hu).
    - intros m. by rewrite Hu4, U3.
    - by exists h. }
  (* No change: the state after the lookup, or after the directory was read. *)
  assert (forall s4 : St, reads s3 s4 -> mheap s4 = mheap s3 -> exists h,
    pathdata_destroy (p <| pd_list := drop k (pd_list p) |>) s4 = Ret tt (s4 <| mheap := h |>) /\ undisturbed s (s4 <| mheap := h |>)) as Hquiet.
  { intros s4 [O4 T4 Ht4 Hb4 _ _] Eh4. destruct (Hdestroy (fun _ => False) s4) as (h & Eh & [Hlh _] & Hu); [by intros a []|by rewrite Eh4|rewrite Eh4; tauto|].
    exists h. split; [done|]. split; [split; [by eapply same_tree_trans|by split]| |rewrite O4, O3; by destruct s].
    intros m. change (used_in (blocks h) m <-> used_in (blocks (mheap s)) m). rewrite Hu. tauto. }
  pose proof (reads_refl s3 Ht3 Hb3) as Hr3.
  destruct (IS_ERR dir) eqn:Edir.
  { destruct (Hquiet s3 Hr3 eq_refl) as (h & Eh & Hud). cbn [obind fst snd]. rewrite Eh. cbn [obind]. rewrite Edir. by do 2 eexists. }
  rewrite (same_isdir _ _ dir T3). destruct (vfs_isdir (vnodes (mfs s) dir)) eqn:Hisdir; cbn [negb].
  2: { destruct (Hquiet s3 Hr3 eq_refl) as (h & Eh & Hud). cbn [obind fst snd]. rewrite Eh. cbn [obind].
       change (IS_ERR (PTR_ERR (- ENOENT))) with true. by do 2 eexists. }
  assert (dir ∈ vnode_cache (mfs s3)) as Hdir3.
  { pose proof T3 as [_ _ [-> _] _]. destruct (resolve_cases (mfs s) init) with (v := start_of s task path) as [?|[E|E]]; [apply Hok| |done| |].
    - unfold start_of. destruct Hs as (? & ? & _). by case_bool_decide.
    - fold dir in E. by rewrite E in Edir.
    - fold dir in E. by rewrite E in Edir. }
  destruct (Re eq_refl) as [Rbuf Rsize].
  destruct (memfs_vnode_mknod_run s3 dir c (Z.lor mode_ S_IFDIR) Hok3 Hmem3 Hst3 Hdir3) as (s4 & Hr4 & Eh4 & Hcase).
  { by rewrite (same_isdir _ _ dir T3). }
  { pose proof (kept_not_dot path) as Hd. rewrite Ek in Hd. apply Forall_app in Hd as [_ Hd]. by apply Forall_cons in Hd as [Hd _]. }
  { done. }
  { split; [apply I3; [lia|done]|by destruct (st_vnodes _ _ T3 dir) as (? & ? & ->)|lia|unfold heap_room in *; lia]. }
  rewrite (same_child _ _ _ _ T3) in Hcase. destruct (child (mfs s) dir c).
  - destruct (Hquiet s4 Hr4 Eh4) as (h & Eh & Hud). rewrite Hcase. cbn [obind fst snd]. rewrite Eh. cbn [obind].
    change (IS_ERR (PTR_ERR (- EEXIST))) with true. by do 2 eexists.
  - destruct Hcase as (w & s5 & Em & Hmade & [Hb5 Hf5]). pose proof Hmade as [M1 M2 M3 M4 M5 MN M6 (e & M7) M8]. rewrite Em. cbn [obind fst snd].
    destruct (Hdestroy (fun m => m = MkBlk (e - SIZEOF_MALLOC) SIZEOF_DENTRY true \/ m = MkBlk (w - SIZEOF_MALLOC) SIZEOF_VNODE true) s5) as (h & Eh & [Hlh Hbk] & Hu).
    { intros a [E|E]; by apply (f_equal msize) in E. }
    { apply M6. }
    { intros m. rewrite M7, Eh4. tauto. }
    rewrite Eh. cbn [obind]. destruct M1 as (M1 & M1' & M1''). rewrite M1''.
    exists 0, (s5 <| mheap := h |>). split; [done|]. split; [done|].
    split; [exists w|split; [change (g_kbrk h <= g_kbrk (mheap s) + (COMP * Z.of_nat (2 + length (kept path)) + ENTRY)); lia|change (free_blocks (mfs s) - (Z.of_nat (length (kept path)) + 3) <= free_blocks (mfs s5)); lia]].
    apply (made_after s s3 s4 s5 dir c S_IFDIR (Z.land S_IFMT (Z.lor mode_ S_IFDIR))); [done..|by rewrite Z.land_lor_distr_r, Hmode|exact Hlh| |rewrite M8; destruct Hr4 as [-> _ _ _ _ _]; rewrite O3; by destruct s|].
    + exists e. intros m. by rewrite Hu.
    + intros m Hsz. rewrite M7, Hu, Eh4, U3. destruct Hp as [Pu _ _]. rewrite Pu.
      intros [?|[?|[[?|(a & _ & ->)] _]]]; [by left; left|by left; right|by right|done].
Qed.
End Mkdir.
