(* ===== verification/Rootfs.v ===== *)
(** The root file system: what [vfs_init] of [fs/init.c] starts from, and the
    system calls on it. *)
From S2P Require Import Prelude Bits Defs Words Malloc Pools PageAlloc Memfs Vm Shadow Pagecache Mmap Shm Forking Mmdemo Paths Vfs Names Directories.

(** * [vfs_init] *)

(** The blocks of the buffer: all but the superblock's and the bitmap's. *)
Lemma block_cache_init sb : is_page_aligned sb = true -> 0 <= sb -> sb + MEMFS_TOTAL_SIZE < 2 ^ 32 ->
  exists c, mem_cache_init (u32 (sb + SIZEOF_MEMFS_SUPERBLOCK)) (MEMFS_TOTAL_SIZE - SIZEOF_MEMFS_SUPERBLOCK) MEMFS_BLOCK_SIZE true = Some (Some c) /\
    block_cache_ok c /\ mc_free c = 1021.
Proof.
  intros Ha H0 Hb. unfold MEMFS_TOTAL_SIZE in Hb. assert (PAGE_SIZE = 4096) as EP by done.
  exists (MkCache 1021 1021 (sb + 12288) (sb + 4194304) 4096 (replicate 32 0)). split; [|split; [|done]].
  - unfold mem_cache_init. change MEMFS_BLOCK_SIZE with 4096. unfold MEMFS_TOTAL_SIZE, SIZEOF_MEMFS_SUPERBLOCK, SIZEOF_MEM_CACHE.
    rewrite (u32_id (sb + 8584)) by (unfold is_u32; lia). rewrite (proj2 (Z.eqb_neq (sb + 8584) _)) by lia.
    cbv zeta. change (Z.quot (4194304 - 8584 - 32) 4096) with 1021.
    change (Z.shiftr 1021 5 + (if flag_set 1021 31 then 1 else 0)) with 32. change (Z.quot (32 * 4) 4096) with 0.
    rewrite (u32_id (sb + 8584 + 32)), (u32_id (sb + 8584 + 32 + 32 * 4)) by (unfold is_u32; lia).
    assert (align_up (sb + 8584 + 32 + 32 * 4) 4096 = sb + 12288) as Eup.
    { change (align_up (sb + 8584 + 32 + 32 * 4) 4096) with (page_align (u32 (sb + 8584 + 32 + 32 * 4 + 4095))).
      rewrite u32_id by (unfold is_u32; lia). rewrite page_align_floor by (unfold is_u32; lia). apply page_aligned_iff in Ha. rewrite EP in *.
      apply Z.mod_divide in Ha as [k ->]; [|done]. replace (k * 4096 + 8584 + 32 + 32 * 4 + 4095) with (551 + (k + 3) * 4096) by lia.
      rewrite Z.div_add by done. change (551 / 4096) with 0. lia. }
    rewrite Eup. replace (sb + 12288 - (sb + 8584 + 32 + 32 * 4)) with 3544 by lia.
    change (u32 3544) with 3544. change (Z.quot (4194304 - 8584 - 32 - 32 * 4 - 3544) 4096) with 1021.
    rewrite (u32_id (sb + 8584 + 32 + 32 * 4 + 3544)) by (unfold is_u32; lia).
    replace (sb + 8584 + 32 + 32 * 4 + 3544) with (sb + 12288) by lia.
    change (4194304 - 8584 - 32 - 32 * 4 - 3544) with 4182016. rewrite u32_id by (unfold is_u32; lia).
    by replace (sb + 12288 + 4182016) with (sb + 4194304) by lia.
  - split; [|split; [done|]].
    + split; cbn -[Z.add]; [by vm_compute|done|lia|by vm_compute].
    + cbn -[Z.add]. apply page_aligned_iff in Ha. apply page_aligned_iff. rewrite EP in *. rewrite Z.add_mod, Ha by done. done.
Qed.

Lemma memfs_format_run f sb : is_page_aligned sb = true -> 0 <= sb -> sb + MEMFS_TOTAL_SIZE < 2 ^ 32 ->
  exists c i, memfs_format_filesystem sb f = Ret tt (f <| ipool := id_pool_new_init MEMFS_TOTAL_INODES |> <| inode_table := fun _ => 0 |>
      <| block_cache_list := [c] |> <| inode_cache_list := [i] |> <| root_vnum := 0 |>) /\
    block_cache_ok c /\ mc_free c = 1020 /\ inode_cache_ok i.2.
Proof.
  intros Ha H0 Hb. unfold memfs_format_filesystem. destruct (block_cache_init sb Ha H0 Hb) as (c & -> & Hc & Hf).
  destruct (take_block_ok c Hc) as [?|(_ & b & c' & -> & Hc' & Hf' & Hba & Hb0)]; [lia|].
  destruct (inode_cache_init b Hba Hb0) as (i & -> & Hi & _). exists c', (b, i). by split_and!; [|done|lia|].
Qed.

(** A tree of one directory. *)
Lemma alone_ok f w e : vnode_cache f = [w] -> dentry_cache f = [e] -> IS_ERR w = false /\ w <> 0 ->
  dentries f e = MkDentry VFS_STR_ROOTDIR e [] w -> vdentries (vnodes f w) = [e] -> v_inode (vnodes f w) <> 0 ->
  v_size (vnodes f w) = 0 -> dirbuf (vnodes f w) = 0 ->
  tree_ok f /\ name_of f w = VFS_STR_ROOTDIR /\ forall c, child f w c = None.
Proof.
  intros Ev Ed Hw De Dw Hi Hs Hb. split; [split|split].
  - intros v. rewrite Ev. intros ->%list_elem_of_singleton. split; [done|done| |].
    + exists e. rewrite Dw, Ed, De. split_and!; [done|by apply list_elem_of_singleton|done].
    + intros _. rewrite Hs. by split_and!; [|done|left|left].
  - intros d. rewrite Ed. intros ->%list_elem_of_singleton. split; rewrite De; cbn [d_vnode d_name d_children].
    + rewrite Ev, Dw. split; [by apply list_elem_of_singleton|done].
    + vm_compute. lia.
    + by intros c ?%elem_of_nil.
    + constructor.
  - unfold name_of. rewrite Dw. cbn. by rewrite De.
  - intros c. unfold child, dir_entries. rewrite Dw. cbn. by rewrite De.
Qed.

Section Rootfs.
Context {K : Type} `{kernel_abi K} `{layout}.
Abbreviation St := (mm K).

(** The file system that [vfs_init] leaves: the root directory [w], empty. *)
Record rooted (s s' : St) (w : Z) : Prop := {
  rt_root : pivot (mfs s') = w /\ sb_root (mfs s') = w /\ vnode_cache (mfs s') = [w] /\ IS_ERR w = false;
  rt_dir : mode (vnodes (mfs s') w) = S_IFDIR /\ v_size (vnodes (mfs s') w) = 0;
  rt_name : name_of (mfs s') w = VFS_STR_ROOTDIR;
  rt_empty : forall c, child (mfs s') w c = None;
  rt_ok : names_ok s' /\ memory_ok s' /\ store_ok (mfs s');
  rt_blocks : 1019 <= free_blocks (mfs s');
  rt_only : s' = s <| mheap := mheap s' |> <| mfs := mfs s' |> }.

Lemma root_vnode_run (s : St) : heap_usable s -> store_ok (mfs s) -> free_blocks (mfs s) = 1020 ->
  vnode_cache (mfs s) = [] -> dentry_cache (mfs s) = [] -> fsidx (mfs s) = Z.shiftl 1 VFS_FSIDX_SHIFT ->
  ipool (mfs s) = id_pool_new_init MEMFS_TOTAL_INODES ->
  heap_room s (SIZEOF_VNODE + SIZEOF_DENTRY + 2 * SIZEOF_MALLOC) ->
  exists w (s' : St), memfs_init_rootdir s = Ret 0 s' /\ vnum (vnodes (mfs s') w) = fsidx (mfs s') /\
    rooted s (s' <| mfs := mfs s' <| pivot := w |> |>) w.
Proof.
  intros Hu Hst Hf Ec Ed Ei Ep Hr. unfold memfs_init_rootdir. nrun.
  destruct (alloc_vnode_run s) as (w & s2 & -> & G2 & F2 & V2 & D2 & C2 & C2' & W1 & W2 & W3 & W4 & W5 & W6 & W7);
    [done|done|lia|unfold heap_room in *; unfold SIZEOF_DENTRY, SIZEOF_MALLOC in *; lia|].
  rewrite Ep, Ei in W7. change (Z.lor (u32 (id_new (id_pool_new_init MEMFS_TOTAL_INODES)).1) _) with (Z.shiftl 1 VFS_FSIDX_SHIFT) in W7.
  pose proof G2 as [O2 L2 B2 Fr2 [Hw0 Hwe] S2]. cbn [obind]. rewrite Hwe. cbn [obind]. rewrite W7.
  change (Z.shiftl 1 VFS_FSIDX_SHIFT =? 0) with false. cbn [obind]. unfold set_type. rewrite fs_vmod. cbn [obind].
  match goal with |- context [vfs_alloc_dentry ?t] => set (s3 := t) end.
  destruct (alloc_dentry_run s3) as (e & s4 & -> & G4 & Em);
    [by destruct Hu|by destruct S2|unfold heap_room, s3 in *; cbn; unfold SIZEOF_DENTRY, SIZEOF_VNODE, SIZEOF_MALLOC in *; lia|].
  pose proof G4 as [O4 L4 B4 Fr4 _ S4].
  cbn [obind]. rewrite fs_dmod. cbn [obind]. rewrite fs_vmod. cbn [obind]. exists w. eexists. split; [done|].
  destruct (gains_new e SIZEOF_DENTRY s3 s4 w SIZEOF_VNODE G4) as [Hwn _]; [done|done|exact (fresh_new s s2 w SIZEOF_VNODE Fr2)|].
  match goal with |- vnum (vnodes (mfs ?t) w) = _ /\ _ => set (s5 := t) end.
  assert (vnodes (mfs s5) w = vnodes (mfs s2) w <| mode ::= fun m => Z.lor (Z.land m (lnot32 S_IFMT)) (Z.land S_IFMT S_IFDIR) |>
    <| vdentries ::= cons e |>) as Ew.
  { unfold s5. cbn. rewrite fn_lookup_insert, Em. unfold s3. cbn. by rewrite fn_lookup_insert. }
  assert (vnode_cache (mfs s5) = [w] /\ dentry_cache (mfs s5) = [e]) as [Ev5 Ed5].
  { unfold s5. cbn. rewrite Em. unfold s3. cbn. by rewrite C2, C2', Ec, Ed. }
  destruct (alone_ok (mfs s5 <| pivot := w |>) w e) as (Ht & Hn & Hch); [exact Ev5|exact Ed5|done|change (dentries (mfs s5) e = MkDentry VFS_STR_ROOTDIR e [] w); unfold s5; cbn; by rewrite fn_lookup_insert| | | | |];
    [change (vdentries (vnodes (mfs s5) w) = [e]); by rewrite Ew; cbn; rewrite W1|change (v_inode (vnodes (mfs s5) w) <> 0); by rewrite Ew|
     change (v_size (vnodes (mfs s5) w) = 0); by rewrite Ew|change (dirbuf (vnodes (mfs s5) w) = 0); by rewrite Ew|].
  split.
  { rewrite Ew. cbn. rewrite W7, Em. unfold s3. cbn. by rewrite W6, Ei. }
  split; cbn [pivot].
  - cbn. rewrite Em. unfold s3. cbn. by rewrite C2, Ec.
  - change (mode (vnodes (mfs s5) w) = S_IFDIR /\ v_size (vnodes (mfs s5) w) = 0). rewrite Ew. cbn. by rewrite W3, W4.
  - exact Hn.
  - exact Hch.
  - assert (store_ok (mfs s5)) as Hst5 by (split; apply S4).
    split; [split; [split; [exact L4|apply Hu]|exact Ht|apply Hst5]|]. split; [|by split; apply Hst5].
    unfold memory_ok. change (vnode_cache (mfs (s5 <| mfs := mfs s5 <| pivot := w |> |>))) with (vnode_cache (mfs s5)).
    change (dentry_cache (mfs (s5 <| mfs := mfs s5 <| pivot := w |> |>))) with (dentry_cache (mfs s5)). rewrite Ev5, Ed5. split.
    + by intros ? ->%list_elem_of_singleton.
    + intros ? ->%list_elem_of_singleton. exact (fresh_new s3 s4 e SIZEOF_DENTRY Fr4).
  - unfold free_blocks in *. cbn. rewrite Em. unfold s3. cbn. lia.
  - change (s5 <| mfs := mfs s5 <| pivot := w |> |> = s <| mheap := mheap s4 |> <| mfs := mfs s5 <| pivot := w |> |>). generalize (mfs s5 <| pivot := w |>). intros g. unfold s5. cbn. rewrite O4. unfold s3. cbn. rewrite O2. by destruct s.
Qed.

(** Memory as it is when the pager starts its file system. *)
Record rootfs_room (s : St) (sb : Z) : Prop := {
  rr_buffer : is_page_aligned sb = true /\ 0 <= sb /\ sb + MEMFS_TOTAL_SIZE < 2 ^ 32;
  rr_caches : vnode_cache (mfs s) = [] /\ dentry_cache (mfs s) = [];
  rr_heap : heap_usable s /\ heap_room s (SIZEOF_SUPERBLOCK + SIZEOF_VNODE + SIZEOF_DENTRY + 3 * SIZEOF_MALLOC) }.
Lemma vfs_init_run (s : St) sb : rootfs_room s sb -> exists w s', vfs_init sb s = Ret 0 s' /\ rooted s s' w.
Proof.
  intros [(Ha & H0s & Hb) [Ec Ed] [[Hl Hlow] Hr]]. unfold vfs_init, memfs_get_superblock, vfs_mount_root. nrun.
  destruct (memfs_format_run (mfs s) sb Ha H0s Hb) as (c & i & E & Hc & Hf & Hi). rewrite (fs_run _ _ _ _ E). cbn [obind].
  match goal with |- context [kzalloc _ ?t] => set (s1 := t) end.
  destruct (kzalloc_run s1 SIZEOF_SUPERBLOCK) as (a & s2 & -> & (O2 & L2 & B2) & _ & _ & _);
    [done..|unfold heap_room, s1 in *; cbn; unfold SIZEOF_VNODE, SIZEOF_DENTRY, SIZEOF_MALLOC in *; lia|]. cbn [obind].
  change (id_new (id_pool_new_init VFS_FSIDX_SIZE)) with (0, (id_new (id_pool_new_init VFS_FSIDX_SIZE)).2). cbv beta iota.
  change (id_new _) with (1, (id_new (id_new (id_pool_new_init VFS_FSIDX_SIZE)).2).2). cbv beta iota zeta. cbn [obind].
  change (u32 (Z.shiftl 1 VFS_FSIDX_SHIFT)) with (Z.shiftl 1 VFS_FSIDX_SHIFT).
  match goal with |- context [memfs_init_rootdir ?t] => set (s3 := t) end.
  assert (mfs s3 = mfs s1 <| fsidx := Z.shiftl 1 VFS_FSIDX_SHIFT |>) as E3 by (unfold s3; rewrite O2; done).
  destruct (root_vnode_run s3) as (w & s4 & -> & Ev & [R1 R2 R3 R4 R5 R6 R7]); [by split|try rewrite E3..|]; [| |done..| |].
  { split; (constructor; [done|by constructor]). }
  { unfold free_blocks. cbn. lia. }
  { unfold heap_room, s3, s1 in *. cbn in *. unfold SIZEOF_SUPERBLOCK, SIZEOF_VNODE, SIZEOF_DENTRY, SIZEOF_MALLOC in *. lia. }
  cbn [obind]. unfold vfs_vnode_lookup_byvnum. nrun. rewrite Z.lor_0_r. pose proof R1 as (_ & _ & Ew & _).
  change (vnode_cache (mfs s4) = [w]) in Ew. rewrite Ew. cbn [list_find]. rewrite decide_True by exact Ev. cbn [obind].
  exists w. eexists. split; [done|]. split; try done. refine (eq_trans R7 _). unfold s3. rewrite O2. reflexivity.
Qed.

(** A new name needs a component to be its name. *)
Lemma no_name_create (s : St) task path : names_ok s -> starts_ok s task -> Forall (fun c => c <> 0) path ->
  heap_room s (COMP * 2) -> kept path = [] ->
  exists p s1, pathdata_parse path task s = Ret p s1 /\ forall mode_, vfs_vnode_create task p mode_ s1 = Bug "vfs_vnode_lookup_bypath".
Proof.
  intros Hok Hs Hp Hr Ek. destruct (pathdata_parse_run s task path Hok Hs Hp) as (p & s1 & Ep & A1 & Es & Ev & Hpa); [by rewrite Ek|].
  destruct (allocates_names _ _ _ Hok A1) as [Hok1 _]. exists p, s1. split; [done|]. intros mode_.
  rewrite Ek in Es. destruct (pd_list p) as [|[a str] [|]] eqn:El; [done| |done].
  destruct (last_component_run s s1 p [] a str Hok1 Hpa El) as (s2 & E2 & _).
  unfold vfs_vnode_create, vfs_vnode_lookup_bypath. nrun. rewrite E2. cbn [obind snd].
  change (pd_list (p <| pd_list := [] |>)) with ([] : list (Z * list Z)). by rewrite bool_decide_true.
Qed.

(** A path without a component of its own, like ["/"], [""] or ["."], given
    to [mkdir], or to [open] with [O_CREAT], halts the pager: the parent is
    looked up on a path from which the only component has been taken. *)
Theorem no_name_halts_the_pager (s : St) task path mode_ flags : names_ok s -> starts_ok s task -> Forall (fun c => c <> 0) path ->
  heap_room s (COMP * 2) -> kept path = [] -> flag_set flags O_CREAT = true ->
  sys_mkdir task path mode_ s = Bug "vfs_vnode_lookup_bypath" /\
  sys_open task path flags mode_ s = Bug "vfs_vnode_lookup_bypath".
Proof.
  intros Hok Hs Hp Hr Ek Hf. destruct (no_name_create s task path Hok Hs Hp Hr Ek) as (p & s1 & Ep & Hc).
  split; [unfold sys_mkdir|unfold sys_open]; nrun; rewrite Ep, ?Hf; cbn [obind]; by rewrite Hc.
Qed.

(** [vfs_init] formats the file system in any buffer of its size: it
    returns 0 and leaves one vnode, the root, an empty directory called ["/"],
    with every invariant that the calls on names need and 1019 blocks free. *)
Theorem vfs_init_makes_the_root (s : St) sb : rootfs_room s sb -> exists w s', vfs_init sb s = Ret 0 s' /\ rooted s s' w.
Proof. apply vfs_init_run. Qed.

(** C25: [stat] of any path finds what the path leads to: from the root or the
    current directory through one name after the other, empty names and ["."]
    left out; it fails with [-ENOENT] at a name that is not there, with
    [-ENOTDIR] below a file, and with [-ENOSPC] only when there are not enough
    blocks for the buffers of the directories.  It changes no name, and the
    memory in use afterwards is what was in use before. *)
Theorem sys_stat_finds (s : St) task path :
  names_ok s -> starts_ok s task -> Forall (fun c => c <> 0) path ->
  heap_room s (COMP * Z.of_nat (2 + length (kept path))) ->
  let v := resolve (mfs s) (start_of s task path) (kept path) in
  exists r s', sys_stat task path s = Ret r s' /\ undisturbed s s' /\
    (r = (if IS_ERR v then (s32 v, None) else (0, Some (kstat_of (mfs s) v))) \/
     r = (- ENOSPC, None) /\ free_blocks (mfs s) < Z.of_nat (length (kept path))).
Proof. apply stat_run. Qed.


(** ** Names after [mkdir] *)

Lemma resolve_app f l l' : forall v, tree_ok f -> v ∈ vnode_cache f -> IS_ERR (resolve f v l) = false ->
  resolve f v (l ++ l') = resolve f (resolve f v l) l'.
Proof.
  induction l as [|c l IH]; intros v Hok Hv He; [done|]. cbn [app resolve] in *.
  destruct (vfs_isdir _); [|done]. destruct (child f v c) as [w|] eqn:Ec; [|done].
  apply IH; [done|by apply (child_cached f v c w Hok Hv)|done].
Qed.
Lemma made_resolve (s s' : St) dir c type w l : made s s' dir c type w -> tree_ok (mfs s) -> child (mfs s) dir c = None ->
  forall v, v ∈ vnode_cache (mfs s) -> IS_ERR (resolve (mfs s) v l) = false -> resolve (mfs s') v l = resolve (mfs s) v l.
Proof.
  intros Hm Hok Hnone. induction l as [|x l IH]; intros v Hv He; [done|]. cbn [resolve] in *.
  unfold vfs_isdir in *. rewrite (md_modes _ _ _ _ _ _ Hm v Hv), (md_child _ _ _ _ _ _ Hm v x Hv).
  destruct (S_ISDIR _); [|done]. rewrite decide_False by (intros [-> ->]; rewrite Hnone in He; done).
  destruct (child (mfs s) v x) as [y|] eqn:Ey; [|done]. apply IH; [by apply (child_cached _ v x y Hok Hv)|done].
Qed.
Lemma made_start (s s' : St) dir c type w task q : made s s' dir c type w -> starts_ok s task ->
  starts_ok s' task /\ start_of s' task q = start_of s task q /\ start_of s task q ∈ vnode_cache (mfs s).
Proof.
  intros Hm (S1 & S2 & S3). pose proof (md_only _ _ _ _ _ _ Hm) as Ho. destruct (md_new _ _ _ _ _ _ Hm) as (_ & Ec & _).
  assert (fs_datas s' = fs_datas s /\ tcbs s' = tcbs s) as [E1 E2] by (by rewrite Ho).
  split; [|split; [unfold start_of; by rewrite E1, E2|unfold start_of; by case_bool_decide]].
  unfold starts_ok. rewrite E1, E2, Ec, (md_names _ _ _ _ _ _ Hm) by done. by split_and!; [right|right|].
Qed.

(** C24: what [mkdir] makes, [stat] finds: after a [mkdir] in a directory without
    that name, [stat] of the same path returns an empty directory, and every path
    that led somewhere leads there still. *)
Theorem mkdir_then_stat (s : St) task path mode_ init c :
  names_ok s -> memory_ok s -> store_ok (mfs s) -> starts_ok s task -> Forall (fun c => c <> 0) path ->
  kept path = init ++ [c] -> (length c < Z.to_nat VFS_DNAME_MAX)%nat -> Z.land S_IFMT mode_ = 0 ->
  let dir := resolve (mfs s) (start_of s task path) init in
  let n := Z.of_nat (length (kept path)) in
  mkdir_room s path dir -> heap_room s (2 * COMP * (2 + n) + ENTRY) -> 2 * n + 3 <= free_blocks (mfs s) ->
  IS_ERR dir = false -> vfs_isdir (vnodes (mfs s) dir) = true -> child (mfs s) dir c = None ->
  exists s1 s2 k, sys_mkdir task path mode_ s = Ret 0 s1 /\ sys_stat task path s1 = Ret (0, Some k) s2 /\
    ks_mode k = S_IFDIR /\ ks_size k = 0 /\
    forall q, IS_ERR (resolve (mfs s) (start_of s task q) (kept q)) = false ->
      resolve (mfs s1) (start_of s1 task q) (kept q) = resolve (mfs s) (start_of s task q) (kept q).
Proof.
  intros Hok Hmem Hst Hs Hp Ek Hl Hmode dir n Hr Hheap Hfree He Hd Hn.
  destruct (mkdir_run s task path mode_ init c Hok Hmem Hst Hs Hp Ek Hl Hmode Hr) as (r & s1 & E1 & H1).
  fold dir in H1. rewrite He, Hd, Hn in H1. destruct H1 as (-> & (w & Hm) & [B1 F1]).
  pose proof Hok as [_ Ht _]. destruct (md_ok _ _ _ _ _ _ Hm) as (Hok1 & _ & _). pose proof Hok1 as [_ Ht1 _].
  destruct (made_start s s1 dir c S_IFDIR w task path Hm Hs) as (Hs1 & Est & Hcst). destruct (md_new _ _ _ _ _ _ Hm) as (_ & Ec & Hwe).
  assert (resolve (mfs s1) (start_of s1 task path) (kept path) = w) as Ew.
  { rewrite Est, Ek, resolve_app; [|done|rewrite Ec; by right|by rewrite (made_resolve _ _ _ _ _ _ _ Hm)].
    rewrite (made_resolve _ _ _ _ _ _ init Hm Ht Hn _ Hcst He). change (resolve (mfs s) (start_of s task path) init) with dir. cbn [resolve].
    destruct (resolve_cases (mfs s) init Ht _ Hcst) as [Hdc|[E|E]]; [|by unfold dir in He; rewrite E in He..]. change (dir ∈ vnode_cache (mfs s)) in Hdc.
    unfold vfs_isdir in *. rewrite (md_modes _ _ _ _ _ _ Hm dir Hdc), Hd, (md_child _ _ _ _ _ _ Hm dir c Hdc). by rewrite decide_True. }
  destruct (stat_run s1 task path Hok1 Hs1 Hp) as (r & s2 & E2 & _ & Hr2); [unfold heap_room in *; fold n in B1; lia|].
  rewrite Ew, Hwe in Hr2. destruct Hr2 as [->|[_ ?]]; [|lia].
  exists s1, s2, (kstat_of (mfs s1) w). split_and!; [done|done|apply (md_type _ _ _ _ _ _ Hm)..|].
  intros q Hq. destruct (made_start s s1 dir c S_IFDIR w task q Hm Hs) as (_ & -> & Hcq). by apply (made_resolve _ _ _ _ _ _ _ Hm).
Qed.
End Rootfs.

(** * The file system of the concrete pager *)

(** The heap is in use, [vfs_init] has run, and every task starts at the root. *)
Definition started : mm ptab := after (kzalloc 4) mm_empty.
Definition demo_root : mm ptab := after (vfs_init 0x50000000) started.
Definition demo_fs : mm ptab := demo_root <| fs_datas := fun _ => MkFs (pivot (mfs demo_root)) (pivot (mfs demo_root)) 1 |>.

Lemma started_live : live heap_array (mheap started).
Proof.
  pose proof (kmalloc_run heap_array unborn 4 ltac:(done) ltac:(done) (or_introl eq_refl) ltac:(done) ltac:(done)) as Hk.
  change (mheap started) with (kmalloc heap_array 4 unborn).2. assert ((kmalloc heap_array 4 unborn).1 <> 0) as Hp by (by vm_compute).
  destruct (kmalloc heap_array 4 unborn) as [p h]. by destruct Hk as [_ [[? _]|[? _]]].
Qed.
Lemma started_room : rootfs_room started 0x50000000.
Proof.
  split; [by vm_compute|by vm_compute|split; [split; [exact started_live|by vm_compute]|by vm_compute]].
Qed.
Lemma demo_rooted : exists w, rooted started demo_root w.
Proof. destruct (vfs_init_run started _ started_room) as (w & s' & E & Hr). exists w. unfold demo_root. rewrite (after_ret _ _ _ _ E). exact Hr. Qed.
Lemma at_root_ok {K} `{kernel_abi K} `{layout} (s s' : mm K) w t : rooted s s' w ->
  let at_root := s' <| fs_datas := fun _ => MkFs (pivot (mfs s')) (pivot (mfs s')) 1 |> in
  names_ok at_root /\ memory_ok at_root /\ store_ok (mfs at_root) /\ starts_ok at_root t.
Proof.
  intros [(Ep & _ & Ec & _) _ Hn _ ([H1 H2 H3] & [M1 M2] & Hst) _ _]. cbv zeta. split_and!; [by split|by split|done|].
  unfold starts_ok. cbn. rewrite Ep, Ec. by split_and!; [apply list_elem_of_singleton..|].
Qed.
Lemma demo_fs_ok t : names_ok demo_fs /\ memory_ok demo_fs /\ store_ok (mfs demo_fs) /\ starts_ok demo_fs t.
Proof. destruct demo_rooted as (w & Hr). exact (at_root_ok _ _ _ t Hr). Qed.

(** [stat("/a")] on it. *)
Lemma sys_stat_finds_witness : exists r s', sys_stat 1 [47; 97] demo_fs = Ret r s' /\ undisturbed demo_fs s'.
Proof.
  destruct (demo_fs_ok 1) as (H1 & _ & _ & H4).
  destruct (sys_stat_finds demo_fs 1 [47; 97] H1 H4) as (r & s' & E & Hu & _); [repeat constructor; lia|vm_compute; reflexivity|].
  exists r, s'. exact (conj E Hu).
Defined.
Lemma demo_mkdir_room : mkdir_room demo_fs [47; 97] (pivot (mfs demo_root)).
Proof. split; [intros _; split; vm_compute; congruence|vm_compute; congruence|vm_compute; reflexivity]. Qed.
Lemma demo_dir : resolve (mfs demo_fs) (start_of demo_fs 1 [47; 97]) [] = pivot (mfs demo_root).
Proof. vm_compute. reflexivity. Qed.
Lemma mkdir_then_stat_witness : exists s1 s2 k, sys_mkdir 1 [47; 97] 0 demo_fs = Ret 0 s1 /\
  sys_stat 1 [47; 97] s1 = Ret (0, Some k) s2 /\ ks_mode k = S_IFDIR.
Proof.
  destruct (demo_fs_ok 1) as (H1 & H2 & H3 & H4).
  destruct (mkdir_then_stat demo_fs 1 [47; 97] 0 [] [97] H1 H2 H3 H4) as (s1 & s2 & k & E1 & E2 & Ek & _);
    [repeat constructor; lia|vm_compute; reflexivity|vm_compute; lia|reflexivity|rewrite demo_dir; exact demo_mkdir_room
    |vm_compute; reflexivity|vm_compute; congruence|vm_compute; reflexivity..|].
  exists s1, s2, k. exact (conj E1 (conj E2 Ek)).
Defined.
Lemma vfs_init_makes_the_root_witness : exists w s', vfs_init 0x50000000 started = Ret 0 s' /\ rooted started s' w.
Proof. exact (vfs_init_makes_the_root started 0x50000000 started_room). Defined.
(** [mkdir("/")]. *)
Lemma no_name_halts_the_pager_witness : sys_mkdir 1 [47] 0 demo_fs = Bug "vfs_vnode_lookup_bypath".
Proof.
  destruct (demo_fs_ok 1) as (H1 & _ & _ & H4).
  destruct (no_name_halts_the_pager demo_fs 1 [47] 0 O_CREAT H1 H4) as [E _];
    [repeat constructor; lia|vm_compute; reflexivity|vm_compute; reflexivity|vm_compute; reflexivity|].
  exact E.
Defined.
