(* ===== verification/Tasks.v ===== *)
(** Tasks: creation, destruction and the family tree of [mm/task.c], utcb slots
    of [mm/utcb.c], [fork] and [clone] of [mm/clone.c], [exit] of [mm/exit.c],
    and the register sets of [libl4/src/arch/arm/exregs.c]. *)
From S2P Require Import Prelude Bits Defs Words Malloc Pools PageAlloc Memfs Vm Shadow Pagecache Mmap Shm Forking.

Definition TASK_ID_INVALID := 0xFFFFFFFF.
Definition PAGER_MMAP_SEGMENT := 0x100000.
Definition TCB_NO_SHARING := 0.
Definition TCB_SHARED_TGROUP := Z.shiftl 1 3.
Definition TCB_SHARED_PARENT := Z.shiftl 1 4.
Definition CLONE_VM := 0x100.
Definition CLONE_FS := 0x200.
Definition CLONE_FILES := 0x400.
Definition CLONE_PARENT := 0x8000.
Definition CLONE_THREAD := 0x10000.
Definition SIZEOF_TCB := 152.
Definition SIZEOF_VMA_HEAD := 12.
Definition SIZEOF_UTCB_HEAD := 12.
Definition SIZEOF_FS_DATA := 12.
Definition SIZEOF_FD_HEAD := 264.
Definition SIZEOF_UTCB_DESC := 16.
Definition sizeof_id_pool (totalbits : Z) : Z := (BITWISE_GETWORD totalbits + 1) * 4 + 8.

(** * Register sets *)

(** Fields of [exregs_context_t] by their place. *)
Definition X_R3 := 3.
Definition X_SP := 13.
Definition X_PC := 15.
Definition exregs_zero : exregs_data := MkExregs (fun _ => 0) 0 0 0 0.
Definition exregs_set_reg (r v : Z) (x : exregs_data) : exregs_data :=
  x <| x_regs ::= fun m => <[r := v]> m |> <| valid_vect ::= Z.lor (Z.shiftl 1 r) |>.
Definition exregs_set_read (x : exregs_data) : exregs_data := x <| x_flags ::= Z.lor 4 |>.
Definition MR_RETURN := 0.
(** [offset] is between 0 and [MR_TOTAL]. *)
Definition exregs_set_mr (offset v : Z) (x : exregs_data) : exregs_data := exregs_set_reg (X_R3 + offset) v x.
Definition exregs_set_pager (pagerid : Z) (x : exregs_data) : exregs_data := x <| x_pagerid := pagerid |> <| x_flags ::= Z.lor 1 |>.
Definition exregs_set_utcb (virt : Z) (x : exregs_data) : exregs_data := x <| x_utcb := virt |> <| x_flags ::= Z.lor 2 |>.
Definition exregs_set_stack (sp : Z) (x : exregs_data) : exregs_data := exregs_set_reg X_SP sp x.
Definition exregs_set_pc (pc : Z) (x : exregs_data) : exregs_data := exregs_set_reg X_PC pc x.
Definition exregs_get_utcb (x : exregs_data) : Z := x_utcb x.
Definition exregs_get_stack (x : exregs_data) : Z := x_regs x X_SP.

Section Tasks.
Context {K : Type} `{kernel_abi K} `{layout}.
Abbreviation M := (prog (mm K)).

(** * The list of tasks ([mm/task.c]) *)

Definition global_add_task (task : Z) : M unit :=
  g ← gets global_tasks;
  bug_on (bool_decide (task ∈ glist g)) "global_add_task" ;;
  modify (fun s => s <| global_tasks := MkGlobal (total g + 1) (glist g ++ [task]) |>).
Definition global_remove_task (task : Z) : M unit :=
  g ← gets global_tasks;
  bug_on (negb (bool_decide (task ∈ glist g))) "global_remove_task" ;;
  modify (fun s => s <| global_tasks := MkGlobal (total g - 1) (list_del task (glist g)) |>) ;;
  bug_on (total g - 1 <? 0) "global_tasks.total".
(** 0 for none. *)
Definition find_task (id : Z) : M Z :=
  g ← gets global_tasks;
  m ← gets tcbs;
  mret (match list_find (fun t => tid (m t) = id) (glist g) with Some (_, t) => t | None => 0 end).

(** Links of the family tree: [child_ref] taken out of the list it is in, and put
    at the end of the list of [p]. *)
Definition child_remove (c : Z) : M unit :=
  p ← gets (fun s => child_of (tcbs s c));
  when (negb (p =? 0)) (tmod p (fun t => t <| children ::= list_del c |>)) ;;
  tmod c (fun t => t <| child_of := 0 |>).
Definition child_insert_tail (c p : Z) : M unit :=
  tmod p (fun t => t <| children ::= fun l => l ++ [c] |>) ;; tmod c (fun t => t <| child_of := p |>).
Definition child_insert (c p : Z) : M unit :=
  tmod p (fun t => t <| children ::= cons c |>) ;; tmod c (fun t => t <| child_of := p |>).

(** * Control blocks *)

(** A control block of zeros with its ids and lists initialised. *)
Definition tcb_init : tcb :=
  MkTcb TASK_ID_INVALID 0 0 0 0 0 0 0 0 0 TASK_ID_INVALID TASK_ID_INVALID 0 0 0 [] 0 0 (MkSegs 0 0 0 0 0 0 0 0 0 0 0 0).
(** [kzalloc] writes through the null pointer of a refused request, so that the
    tests for it never hold. *)
Definition tcb_alloc_init (share : Z) : M Z :=
  task ← kzalloc SIZEOF_TCB;
  tmod task (fun _ => tcb_init) ;;
  when (negb (flag_set share TCB_SHARED_VM))
    (h ← kzalloc SIZEOF_VMA_HEAD;
     modify (fun s => s <| vma_heads ::= fun m => <[h := MkVmas [] 1]> m |>) ;;
     tmod task (fun t => t <| vm_area_head := h |>) ;;
     u ← kzalloc SIZEOF_UTCB_HEAD;
     modify (fun s => s <| utcbs ::= fun m => <[u := MkUtcbs [] 1]> m |>) ;;
     tmod task (fun t => t <| utcb_head := u |>)) ;;
  when (negb (flag_set share TCB_SHARED_FS))
    (f ← kzalloc SIZEOF_FS_DATA;
     modify (fun s => s <| fs_datas ::= fun m => <[f := MkFs 0 0 1]> m |>) ;;
     tmod task (fun t => t <| fs_data := f |>)) ;;
  when (negb (flag_set share TCB_SHARED_FILES))
    (f ← kzalloc SIZEOF_FD_HEAD;
     p ← kzalloc (sizeof_id_pool TASK_FILES_MAX);
     modify (fun s => s <| fd_heads ::= fun m => <[f := MkFds (fun _ => MkFd 0 0) (id_pool_new_init TASK_FILES_MAX) 1 p]> m |>) ;;
     tmod task (fun t => t <| files := f |>)) ;;
  mret task.

(** [if (--x->tcb_refs == 0)] for the four parts that tasks can share. *)
Definition task_free_resources (task : Z) : M Z :=
  t ← gets (fun s => tcbs s task);
  modify (fun s => s <| fd_heads ::= fun m => <[files t := m (files t) <| fd_refs ::= Z.pred |>]> m |>) ;;
  fds ← gets (fun s => fd_heads s (files t));
  when (fd_refs fds =? 0) (kfree (fdpool_at fds) ;; kfree (files t)) ;;
  modify (fun s => s <| fs_datas ::= fun m => <[fs_data t := m (fs_data t) <| fs_refs ::= Z.pred |>]> m |>) ;;
  fs ← gets (fun s => fs_datas s (fs_data t));
  when (fs_refs fs =? 0) (kfree (fs_data t)) ;;
  modify (fun s => s <| vma_heads ::= fun m => <[vm_area_head t := m (vm_area_head t) <| vma_refs ::= Z.pred |>]> m |>) ;;
  v ← gets (fun s => vma_heads s (vm_area_head t));
  when (vma_refs v =? 0) (task_release_vmas (vm_area_head t) ;; kfree (vm_area_head t)) ;;
  modify (fun s => s <| utcbs ::= fun m => <[utcb_head t := m (utcb_head t) <| utcb_refs ::= Z.pred |>]> m |>) ;;
  u ← gets (fun s => utcbs s (utcb_head t));
  when (utcb_refs u =? 0)
    (bug_on (negb (bool_decide (desc_list u = []))) "task_free_resources: utcbs" ;; kfree (utcb_head t)) ;;
  mret 0.

(** One child of [task] becomes a child of its parent; a task that is its own
    parent would go through its list for ever. *)
Definition reparent (task child : Z) : M unit :=
  child_remove child ;;
  p ← gets (fun s => parent (tcbs s task));
  bug_on (p =? 0) "tcb_destroy: null parent" ;;
  bug_on (p =? task) "tcb_destroy: endless list" ;;
  child_insert_tail child p ;;
  p ← gets (fun s => parent (tcbs s task));
  tmod child (fun t => t <| parent := p |>).
Definition tcb_destroy (task : Z) : M Z :=
  global_remove_task task ;;
  task_free_resources task ;;
  l ← gets (fun s => children (tcbs s task));
  foreach l (reparent task) ;;
  child_remove task ;;
  g ← gets global_tasks;
  bug_on (bool_decide (task ∈ glist g)) "tcb_destroy: list" ;;
  t ← gets (fun s => tcbs s task);
  bug_on (negb (child_of t =? 0)) "tcb_destroy: child_ref" ;;
  bug_on (negb (bool_decide (children t = []))) "tcb_destroy: children" ;;
  kfree task ;;
  mret 0.

(** * Utcbs ([mm/utcb.c]) *)

Definition utcb_pool_init : M Z :=
  modify (fun s => s <| utcb_region_pool := address_pool_init (u32 (__pfn_to_addr utcb_pfns.1)) (u32 (__pfn_to_addr utcb_pfns.2)) |>) ;;
  mret 0.
Definition utcb_new_address (npages : Z) : M Z := fun s =>
  match address_new (utcb_region_pool s) npages with
  | None => OutOfFuel
  | Some (a, p) => Ret a (s <| utcb_region_pool := p |>)
  end.
Definition utcb_delete_address (addr npages : Z) : M Z := fun s =>
  let '(r, p) := address_del (utcb_region_pool s) addr npages in Ret r (s <| utcb_region_pool := p |>).
(** 0 for none. *)
Definition utcb_new_slot (desc : Z) : M Z := fun s =>
  let d := descs s desc in
  let '(slot, p) := id_new (slots d) in
  Ret (if slot <? 0 then 0 else u32 (utcb_base d + slot * UTCB_SIZE)) (s <| descs ::= fun m => <[desc := d <| slots := p |>]> m |>).
Definition utcb_delete_slot (desc address : Z) : M Z :=
  d ← gets (fun s => descs s desc);
  let '(r, p) := id_del (slots d) (u32 (address - utcb_base d) / UTCB_SIZE) in
  modify (fun s => s <| descs ::= fun m => <[desc := d <| slots := p |>]> m |>) ;;
  bug_on (r <? 0) "utcb_delete_slot" ;;
  mret 0.
Definition desc_list_mod (task : Z) (f : list Z -> list Z) : M unit :=
  modify (fun s => let u := utcb_head (tcbs s task) in
    s <| utcbs ::= fun m => <[u := m u <| desc_list ::= f |>]> m |>).
Definition task_new_utcb_desc (task : Z) : M Z :=
  d ← kzalloc SIZEOF_UTCB_DESC;
  kzalloc (sizeof_id_pool (PAGE_SIZE / UTCB_SIZE)) ;;
  base ← utcb_new_address 1;
  modify (fun s => s <| descs ::= fun m => <[d := MkDesc base (id_pool_new_init (PAGE_SIZE / UTCB_SIZE))]> m |>) ;;
  desc_list_mod task (cons d) ;;
  utcb_new_slot d.
(** The pool of slots is not freed. *)
Definition task_delete_utcb_desc (task d : Z) : M Z :=
  desc_list_mod task (list_del d) ;;
  base ← gets (fun s => utcb_base (descs s d));
  do_munmap task base 1 ;;
  utcb_delete_address base 1 ;;
  kfree d ;;
  mret 0.
(** The first slot of the descriptors [l]; 0 for none. *)
Fixpoint find_slot (l : list Z) : M Z :=
  match l with
  | [] => mret 0
  | d :: l => slot ← utcb_new_slot d; if negb (slot =? 0) then mret slot else find_slot l
  end.
Definition task_descs (task : Z) : M (list Z) := gets (fun s => desc_list (utcbs s (utcb_head (tcbs s task)))).
Definition task_setup_utcb (task : Z) : M Z :=
  a ← gets (fun s => utcb_address (tcbs s task));
  bug_on (negb (a =? 0)) "task_setup_utcb" ;;
  l ← task_descs task;
  slot ← find_slot l;
  slot ← (if negb (slot =? 0) then mret slot else task_new_utcb_desc task);
  vma ← find_vma slot task;
  err ← (if vma =? 0 then
           do_mmap 0 0 task slot
             (Z.lor VMA_ANONYMOUS (Z.lor VMA_PRIVATE (Z.lor VMA_FIXED (Z.lor VM_READ VM_WRITE)))) 1
         else mret 0);
  if IS_ERR err then mret (s32 err)
  else tmod task (fun t => t <| utcb_address := slot |>) ;; mret 0.
Fixpoint destroy_slot (task address : Z) (l : list Z) : M Z :=
  match l with
  | [] => bug "task_destroy_utcb"
  | d :: l =>
      base ← gets (fun s => utcb_base (descs s d));
      if page_align address =? base then
        utcb_delete_slot d address ;;
        p ← gets (fun s => slots (descs s d));
        when (id_is_empty p) (task_delete_utcb_desc task d ;; mret tt) ;;
        mret 0
      else destroy_slot task address l
  end.
Definition task_destroy_utcb (task : Z) : M Z :=
  a ← gets (fun s => utcb_address (tcbs s task));
  l ← task_descs task;
  destroy_slot task a l.

(** * Creation *)

(** The ids are the caller's structure, which the kernel writes. *)
Definition task_create (parent_ : Z) (ids : task_ids) (share ctrl : Z) : M (Z * task_ids) :=
  bug_on ((parent_ =? 0) && negb (share =? 0)) "task_create" ;;
  ids ← (if parent_ =? 0 then mret ids
         else t ← gets (fun s => tcbs s parent_); mret (MkIds (tid t) (spid t) (tgid t)));
  r ← l4_thread_control (Z.lor THREAD_CREATE ctrl) ids;
  if r.1 <? 0 then mret (PTR_ERR r.1, r.2)
  else
    task ← tcb_alloc_init share;
    if IS_ERR task then mret (task, r.2)
    else
      tmod task (fun t => t <| tid := ids_tid r.2 |> <| spid := ids_spid r.2 |> <| tgid := ids_tgid r.2 |>
                            <| clone_flags := share |>) ;;
      (if negb (parent_ =? 0) then
         copy_tcb task parent_ share ;;
         task_setup_utcb task ;;
         (if flag_set share TCB_SHARED_PARENT || flag_set share TCB_SHARED_TGROUP then
            p ← gets (fun s => parent (tcbs s parent_));
            bug_on (p =? 0) "task_create: null parent" ;;
            child_insert_tail task p ;;
            tmod task (fun t => t <| parent := p |>)
          else
            child_insert_tail task parent_ ;;
            tmod task (fun t => t <| parent := parent_ |>))
       else
         pager ← find_task self_tid;
         root ← gets (fun s => pivot (mfs s));
         f ← gets (fun s => fs_data (tcbs s task));
         modify (fun s => s <| fs_datas ::= fun m => <[f := m f <| rootdir := root |> <| curdir := root |>]> m |>) ;;
         bug_on (pager =? 0) "task_create: null pager" ;;
         child_insert_tail task pager ;;
         tmod task (fun t => t <| parent := pager |>)) ;;
      mret (task, r.2).

(** [stack] is what the uninitialised register set on the stack holds. *)
Definition task_setup_registers (stack : exregs_data) (task pc sp pager : Z) : M Z :=
  t ← gets (fun s => tcbs s task);
  let sp := if sp =? 0 then align (u32 (stack_end (marks t) - 1)) 8 else sp in
  let pc := if pc =? 0 then if entry t =? 0 then text_start (marks t) else entry t else pc in
  let pager := if pager =? 0 then self_tid else pager in
  let exregs := exregs_set_utcb (utcb_address t) (exregs_set_pager pager (exregs_set_pc pc (exregs_set_stack sp stack))) in
  err ← l4_exchange_registers exregs (tid t);
  mret (if err <? 0 then err else 0).
Definition task_start (task : Z) : M Z :=
  t ← gets (fun s => tcbs s task);
  r ← l4_thread_control THREAD_RUN (MkIds (tid t) (spid t) (tgid t));
  mret (if r.1 <? 0 then r.1 else 0).

(** * The pager's own task ([mm/init.c])

    [ids] is what [l4_getid] gives, [image] the linker's symbols, whose
    [stack_end] is [__stack], and [pager_pfns] the pager's region. *)
Definition pager_setup_task (ids : task_ids) (image : segments) (pager_pfns : Z * Z) : M Z :=
  task ← tcb_alloc_init TCB_NO_SHARING;
  bug_on (IS_ERR task) "pager_setup_task: tcb" ;;
  tmod task (fun t => t <| tid := ids_tid ids |> <| spid := ids_spid ids |> <| tgid := ids_tgid ids |>) ;;
  root ← gets (fun s => pivot (mfs s));
  f ← gets (fun s => fs_data (tcbs s task));
  modify (fun s => s <| fs_datas ::= fun m => <[f := m f <| rootdir := root |> <| curdir := root |>]> m |>) ;;
  let mmap_start := page_align_up (stack_end image) in
  tmod task (fun t => t
    <| marks ::= fun m => m <| text_start := text_start image |> <| text_end := text_end image |>
         <| stack_end := stack_end image |> <| stack_start := stack_start image |>
         <| data_start := data_start image |> <| data_end := data_end image |>
         <| bss_start := bss_start image |> <| bss_end := bss_end image |> |>
    <| map_start := mmap_start |> <| map_end := u32 (mmap_start + PAGER_MMAP_SEGMENT) |>
    <| tstart := u32 (__pfn_to_addr pager_pfns.1) |> <| tend := u32 (__pfn_to_addr pager_pfns.2) |>) ;;
  t ← gets (fun s => tcbs s task);
  mapped ← do_mmap 0 0 task (tstart t)
    (Z.lor VMA_ANONYMOUS (Z.lor VM_READ (Z.lor VMA_FIXED (Z.lor VM_WRITE (Z.lor VM_EXEC VMA_PRIVATE)))))
    (__pfn (u32 (page_align_up (map_start t) - tstart t)));
  bug_on (IS_ERR mapped) "pager_setup_task: do_mmap" ;;
  child_insert task task ;;
  tmod task (fun t => t <| parent := task |>) ;;
  task_setup_utcb task ;;
  t ← gets (fun s => tcbs s task);
  err ← l4_exchange_registers (exregs_set_utcb (utcb_address t) exregs_zero) (tid t);
  bug_on (err <? 0) "pager_setup_task: utcb" ;;
  task_prefault_page task (utcb_address t) (Z.lor VM_READ VM_WRITE) ;;
  global_add_task task ;;
  mret 0.

(** * [fork] and [clone] ([mm/clone.c]) *)

(** The ids of a new task are not initialised; [task_create] fills them in from
    the parent. *)
Definition start_child (child : Z) (exregs : exregs_data) (ids : task_ids) : M Z :=
  t ← gets (fun s => tid (tcbs s child));
  err ← l4_exchange_registers exregs t;
  bug_on (err <? 0) "l4_exchange_registers" ;;
  global_add_task child ;;
  l4_thread_control THREAD_RUN ids ;;
  t ← gets (fun s => tid (tcbs s child));
  mret (s32 t).
Definition sys_fork (parent_ : Z) : M Z :=
  vm_freeze_shadows parent_ ;;
  r ← task_create parent_ (MkIds 0 0 0) TCB_NO_SHARING TC_COPY_SPACE;
  if IS_ERR r.1 then mret (s32 r.1)
  else
    a ← gets (fun s => utcb_address (tcbs s r.1));
    bug_on (a =? 0) "sys_fork: utcb" ;;
    start_child r.1 (exregs_set_utcb a (exregs_set_mr MR_RETURN 0 exregs_zero)) r.2.
Definition do_clone (parent_ child_stack flags sysflags : Z) : M Z :=
  r ← task_create parent_ (MkIds 0 0 0) flags sysflags;
  if IS_ERR r.1 then mret (s32 r.1)
  else
    tmod r.1 (fun t => t <| marks ::= fun m => m <| stack_end := child_stack |> <| stack_start := 0 |> |>) ;;
    a ← gets (fun s => utcb_address (tcbs s r.1));
    bug_on (a =? 0) "do_clone: utcb" ;;
    start_child r.1 (exregs_set_utcb a (exregs_set_mr MR_RETURN 0 (exregs_set_stack child_stack exregs_zero))) r.2.
(** What [clone] shares, for the pager and for the kernel. *)
Definition clone_sharing (clone_flags : Z) : Z * Z :=
  let f (on : Z) (flag sys : Z) (x : Z * Z) := if flag_set clone_flags on then (Z.lor x.1 flag, Z.lor x.2 sys) else x in
  f CLONE_PARENT TCB_SHARED_PARENT 0
    (f CLONE_THREAD TCB_SHARED_TGROUP TC_SHARE_GROUP
      (f CLONE_FILES TCB_SHARED_FILES 0
        (f CLONE_FS TCB_SHARED_FS 0
          (f CLONE_VM TCB_SHARED_VM TC_SHARE_SPACE (0, 0))))).
Definition sys_clone (parent_ child_stack clone_flags : Z) : M Z :=
  if child_stack =? 0 then mret (- EINVAL)
  else
    bug_on (child_stack <? 0x10000) "sys_clone" ;;
    let '(flags, sysflags) := clone_sharing clone_flags in
    do_clone parent_ child_stack flags sysflags.

(** * [exit] ([mm/exit.c]) *)

Fixpoint close_from (n : nat) (task fdn : Z) : M Z :=
  match n with
  | O => mret 0
  | S n =>
      d ← get_fd task fdn;
      err ← (if negb (vmfile d =? 0) then sys_close task fdn else mret 0);
      if err <? 0 then mret err else close_from n task (fdn + 1)
  end.
Definition task_close_files (task : Z) : M Z := close_from (Z.to_nat TASK_FILES_MAX) task 0.
Definition execve_recycle_task (new orig : Z) : M Z :=
  o ← gets (fun s => tcbs s orig);
  tmod new (fun t => t <| tid := tid o |> <| spid := spid o |> <| tgid := tgid o |> <| tpagerid := tpagerid o |>) ;;
  p ← gets (fun s => parent (tcbs s new));
  bug_on (negb (p =? 0)) "execve_recycle_task" ;;
  tmod new (fun t => t <| parent := parent o |>) ;;
  bug_on (parent o =? 0) "execve_recycle_task: null parent" ;;
  child_insert new (parent o) ;;
  task_close_files orig ;;
  task_destroy_utcb orig ;;
  r ← l4_thread_control THREAD_RECYCLE (MkIds (tid o) (spid o) (tgid o));
  if r.1 <? 0 then mret r.1
  else tcb_destroy orig ;; mret 0.
Definition do_exit (task status : Z) : M unit :=
  t ← gets (fun s => tcbs s task);
  task_close_files task ;;
  task_destroy_utcb task ;;
  tcb_destroy task ;;
  l4_thread_control THREAD_DESTROY (MkIds (tid t) (spid t) (tgid t)) ;;
  mret tt.
Definition sys_exit (task status : Z) : M unit := do_exit task status.
End Tasks.
