(* ===== verification/Family.v ===== *)
(** The family tree of tasks: theorems about the creation and the destruction of
    tasks in Tasks. *)
From S2P Require Import Prelude Bits Defs Words Malloc Pools PageAlloc Memfs Vm Shadow Pagecache Mmap Shm Forking Mmdemo Paths Vfs Names Tasks.

Lemma bug_on_inv {S} c w (s : S) a s' : bug_on c w s = Ret a s' -> c = false /\ s' = s.
Proof. unfold bug_on, bug. destruct c; [done|]. by intros [= _ ->]. Qed.
Lemma list_del_out c l : c ∉ l -> list_del c l = l.
Proof.
  unfold list_del. induction l as [|x l IH]; [done|]. intros [Hx Hl]%not_elem_of_cons. rewrite filter_cons_True by (intros ->; done). by rewrite IH.
Qed.
Lemma list_del_cons c l : c ∉ l -> list_del c (c :: l) = l.
Proof. intros Hl. unfold list_del. rewrite filter_cons_False by (intros []; done). by apply list_del_out. Qed.
Lemma elem_of_list_del x c l : x ∈ list_del c l <-> x ∈ l /\ x <> c.
Proof. unfold list_del. rewrite list_elem_of_filter. tauto. Qed.
Lemma list_del_count c l : NoDup l -> c ∈ l -> length l = S (length (list_del c l)).
Proof.
  induction l as [|x l IH]; [by intros _ ?%elem_of_nil|]. intros [Hx Hd]%NoDup_cons Hc. destruct (decide (x = c)) as [->|Hne].
  - by rewrite list_del_cons.
  - apply elem_of_cons in Hc as [->|Hc]; [done|]. unfold list_del in *. rewrite filter_cons_True by done. cbn. by rewrite (IH Hd Hc).
Qed.

(** Frames of a call from the parts of its body, opened. *)
Ltac kin_fun := let s := fresh in let a := fresh in let s' := fresh in intros s a s'; repeat case_match; intros [= <- <-]; by split_and!.
Ltac kin_keep := repeat (keep1 || (by split_and!)).
Ltac kin_open := unfold page_init, alloc_page, free_page, find_vma, task_vmas, beyond_file, link_insert, link_insert_tail, link_remove,
  vm_link_object, vm_unlink_object, first_link, vma_next_link, get_fd, set_fd in *;
  unfold obj, file, area, link_obj, set_obj, set_file, set_page, set_area, set_link, set_shm, put_data, find_page, or_bug, set_vmas in *.

Section Family.
Context {K : Type} `{kernel_abi K} `{layout}.
Abbreviation St := (mm K).

(** * What the calls on memory and files leave alone *)

(** Tasks, their list and the descriptors of utcbs. *)
Definition kin (s s' : St) : Prop :=
  tcbs s' = tcbs s /\ global_tasks s' = global_tasks s /\ utcbs s' = utcbs s /\ descs s' = descs s.
#[export] Instance kin_preorder : PreOrder kin.
Proof.
  split; [by intros s|]. intros s1 s2 s3 (A1 & B1 & C1 & D1) (A2 & B2 & C2 & D2). unfold kin. split_and!; congruence.
Qed.

Lemma kfree_kin a : keeps kin (kfree a). Proof. unfold kfree. kin_fun. Qed.
Lemma kzalloc_kin a : keeps kin (kzalloc a). Proof. unfold kzalloc. kin_fun. Qed.
Lemma with_pages_kin {A} (m : prog page_allocator A) : keeps kin (with_pages m). Proof. unfold with_pages. kin_fun. Qed.
Lemma with_fs_kin {A} (m : prog memfs A) : keeps kin (with_fs m). Proof. unfold with_fs. kin_fun. Qed.
Lemma l4_map_kin p v n f t : keeps kin (l4_map p v n f t). Proof. unfold l4_map. kin_fun. Qed.
Lemma l4_unmap_kin v n t : keeps kin (l4_unmap v n t). Proof. unfold l4_unmap. kin_fun. Qed.
Lemma l4_thread_control_kin a i : keeps kin (l4_thread_control a i). Proof. unfold l4_thread_control. kin_fun. Qed.
Lemma l4_exchange_registers_kin x t : keeps kin (l4_exchange_registers x t). Proof. unfold l4_exchange_registers. kin_fun. Qed.
Lemma shm_delete_address_kin a n : keeps kin (shm_delete_address a n). Proof. unfold shm_delete_address. kin_fun. Qed.
Lemma shm_new_address_kin n : keeps kin (shm_new_address n). Proof. unfold shm_new_address. kin_fun. Qed.
Lemma utcb_new_address_kin n : keeps kin (utcb_new_address n). Proof. unfold utcb_new_address. kin_fun. Qed.
Lemma utcb_delete_address_kin a n : keeps kin (utcb_delete_address a n). Proof. unfold utcb_delete_address. kin_fun. Qed.
#[local] Hint Resolve kfree_kin kzalloc_kin with_pages_kin with_fs_kin l4_map_kin l4_unmap_kin l4_thread_control_kin l4_exchange_registers_kin
  shm_delete_address_kin shm_new_address_kin utcb_new_address_kin utcb_delete_address_kin : keeps.
Lemma release_page_kin b o p : keeps kin (release_page b o p). Proof. unfold release_page. kin_open. kin_keep. Qed.
#[local] Hint Resolve release_page_kin : keeps.
Lemma release_pages_kin o : keeps kin (release_pages o). Proof. unfold release_pages, default_release_pages. kin_open. kin_keep. Qed.
Lemma global_add_vm_object_kin o : keeps kin (global_add_vm_object o). Proof. unfold global_add_vm_object. kin_keep. Qed.
Lemma global_remove_vm_object_kin o : keeps kin (global_remove_vm_object o). Proof. unfold global_remove_vm_object. kin_keep. Qed.
#[local] Hint Resolve release_pages_kin global_add_vm_object_kin global_remove_vm_object_kin : keeps.
Lemma global_remove_vm_file_kin o : keeps kin (global_remove_vm_file o). Proof. unfold global_remove_vm_file. kin_keep. Qed.
Lemma shm_destroy_priv_data_kin f : keeps kin (shm_destroy_priv_data f).
Proof. unfold shm_destroy_priv_data. kin_open. kin_keep. kin_fun. Qed.
#[local] Hint Resolve global_remove_vm_file_kin shm_destroy_priv_data_kin : keeps.
Lemma vm_object_delete_kin o : keeps kin (vm_object_delete o). Proof. unfold vm_object_delete. kin_open. kin_keep. Qed.
Lemma insert_page_olist_kin p o : keeps kin (insert_page_olist p o). Proof. unfold insert_page_olist. kin_open. kin_keep. Qed.
Lemma shref_remove_kin o : keeps kin (shref_remove o). Proof. unfold shref_remove. kin_open. kin_keep. Qed.
Lemma shref_insert_kin o p : keeps kin (shref_insert o p). Proof. unfold shref_insert. kin_open. kin_keep. Qed.
Lemma vma_drop_link_kin l : keeps kin (vma_drop_link l). Proof. unfold vma_drop_link, link_remove, vm_unlink_object. kin_open. kin_keep. Qed.
#[local] Hint Resolve vm_object_delete_kin insert_page_olist_kin shref_remove_kin shref_insert_kin vma_drop_link_kin : keeps.
Lemma move_page_kin r f p : keeps kin (move_page r f p). Proof. unfold move_page. kin_open. kin_keep. Qed.
#[local] Hint Resolve move_page_kin : keeps.
Lemma vma_merge_object_kin o : keeps kin (vma_merge_object o). Proof. unfold vma_merge_object. kin_open. kin_keep. Qed.
Lemma vm_object_is_deletable_kin o : keeps kin (vm_object_is_deletable o). Proof. unfold vm_object_is_deletable. kin_open. kin_keep. Qed.
#[local] Hint Resolve vma_merge_object_kin vm_object_is_deletable_kin : keeps.
Lemma vma_drop_merge_delete_kin v l : keeps kin (vma_drop_merge_delete v l). Proof. unfold vma_drop_merge_delete. kin_open. kin_keep. Qed.
#[local] Hint Resolve vma_drop_merge_delete_kin : keeps.
Lemma vma_drop_merge_delete_all_kin v : keeps kin (vma_drop_merge_delete_all v).
Proof. unfold vma_drop_merge_delete_all. kin_keep. Qed.
#[local] Hint Resolve vma_drop_merge_delete_all_kin : keeps.
Lemma task_release_vmas_kin h : keeps kin (task_release_vmas h). Proof. unfold task_release_vmas, release_vma. kin_open. kin_keep. Qed.
#[local] Hint Resolve task_release_vmas_kin : keeps.
(** Opening and closing of files, areas and their copies. *)
Lemma write_pages_kin n : forall o x, keeps kin (write_pages n o x).
Proof. induction n as [|n IH]; intros o x; cbn [write_pages]; unfold page_out, file_page_out; kin_open; kin_keep. Qed.
#[local] Hint Resolve write_pages_kin : keeps.
Lemma flush_file_pages_kin f : keeps kin (flush_file_pages f).
Proof. unfold flush_file_pages, write_file_pages, vfs_update_file_stats. kin_open. kin_keep. Qed.
#[local] Hint Resolve flush_file_pages_kin : keeps.
Lemma sys_close_kin t i : keeps kin (sys_close t i).
Proof.
  unfold sys_close, fsync_common, do_close, vm_file_put, vm_file_delete. kin_open. kin_keep. kin_fun.
Qed.
Lemma vma_flush_pages_kin v : keeps kin (vma_flush_pages v). Proof. unfold vma_flush_pages. kin_open. kin_keep. Qed.
#[local] Hint Resolve sys_close_kin vma_flush_pages_kin : keeps.
Lemma vm_objlink_create_kin : keeps kin vm_objlink_create. Proof. unfold vm_objlink_create. kin_open. kin_keep. Qed.
#[local] Hint Resolve vm_objlink_create_kin : keeps.
Lemma copy_links_kin l : forall v, keeps kin (copy_links l v).
Proof. induction l as [|x l IH]; intros v; cbn [copy_links]; kin_open; kin_keep. Qed.
#[local] Hint Resolve copy_links_kin : keeps.
Lemma vma_copy_links_kin a b : keeps kin (vma_copy_links a b). Proof. unfold vma_copy_links. kin_open. kin_keep. Qed.
Lemma vma_new_kin a b c d : keeps kin (vma_new a b c d). Proof. unfold vma_new. kin_open. kin_keep. Qed.
#[local] Hint Resolve vma_copy_links_kin vma_new_kin : keeps.
Lemma vma_unmap_kin v t a b : keeps kin (vma_unmap v t a b).
Proof. unfold vma_unmap, vma_split, vma_shrink, vma_destroy_single. kin_open. kin_keep. Qed.
#[local] Hint Resolve vma_unmap_kin : keeps.
Lemma munmap_vmas_kin l : forall t a b, keeps kin (munmap_vmas l t a b).
Proof. induction l as [|x l IH]; intros t a b; cbn [munmap_vmas]; kin_open; kin_keep. Qed.
#[local] Hint Resolve munmap_vmas_kin : keeps.
Lemma do_munmap_kin t a n : keeps kin (do_munmap t a n). Proof. unfold do_munmap. kin_open. kin_keep. Qed.
Lemma task_insert_vma_kin v h : keeps kin (task_insert_vma v h). Proof. unfold task_insert_vma. kin_open. kin_keep. Qed.
#[local] Hint Resolve do_munmap_kin task_insert_vma_kin : keeps.
Lemma do_mmap_kin f o t a fl n : keeps kin (do_mmap f o t a fl n).
Proof.
  unfold do_mmap, get_devzero, mmap_address_validate, mmap_new_address, find_unmapped_area. kin_open. kin_keep.
Qed.
Lemma copy_vmas_kin l : forall h, keeps kin (copy_vmas l h).
Proof. induction l as [|x l IH]; intros h; cbn [copy_vmas]; kin_open; kin_keep. Qed.
#[local] Hint Resolve do_mmap_kin copy_vmas_kin : keeps.
Lemma task_copy_vmas_kin a b : keeps kin (task_copy_vmas a b). Proof. unfold task_copy_vmas. kin_open. kin_keep. Qed.
Lemma copy_fds_kin a b : keeps kin (copy_fds a b). Proof. unfold copy_fds, open_again. kin_open. kin_keep. Qed.
Lemma close_from_kin n : forall t i, keeps kin (close_from n t i).
Proof. induction n as [|n IH]; intros t i; cbn [close_from]; kin_open; kin_keep. Qed.
#[local] Hint Resolve task_copy_vmas_kin copy_fds_kin close_from_kin : keeps.

(** Faults. *)
Lemma page_in_kin o off : keeps kin (page_in o off).
Proof. unfold page_in, file_page_in, swap_page_in, devzero_page_in. kin_open. kin_keep. Qed.
Lemma copy_to_new_page_kin p : keeps kin (copy_to_new_page p). Proof. unfold copy_to_new_page. kin_open. kin_keep. Qed.
#[local] Hint Resolve page_in_kin copy_to_new_page_kin : keeps.
Lemma search_links_kin n : forall v l off, keeps kin (search_links n v l off).
Proof. induction n as [|n IH]; intros v l off; cbn [search_links]; kin_open; kin_keep. Qed.
#[local] Hint Resolve search_links_kin : keeps.
Lemma put_shadow_before_kin v o : keeps kin (put_shadow_before v o).
Proof. unfold put_shadow_before, vma_create_shadow, vm_object_create. kin_open. kin_keep. Qed.
Lemma copy_into_shadow_kin v off l st : keeps kin (copy_into_shadow v off l st).
Proof. unfold copy_into_shadow, search_page, vm_object_is_droppable. kin_open. kin_keep. Qed.
#[local] Hint Resolve put_shadow_before_kin copy_into_shadow_kin : keeps.
Lemma page_read_fault_kin f : keeps kin (page_read_fault f).
Proof. unfold page_read_fault, search_page, fault_to_file_offset. kin_open. kin_keep. Qed.
Lemma page_write_fault_kin f : keeps kin (page_write_fault f).
Proof. unfold page_write_fault, no_err, copy_on_write, fault_to_file_offset. kin_open. kin_keep. Qed.
#[local] Hint Resolve page_read_fault_kin page_write_fault_kin : keeps.
Lemma task_prefault_page_kin t a f : keeps kin (task_prefault_page t a f).
Proof. unfold task_prefault_page, task_prefault_smart, search_page, fault_to_file_offset. kin_open. kin_keep. Qed.
#[local] Hint Resolve task_prefault_page_kin : keeps.

(** * Tasks and their list alone *)

Definition folk (s s' : St) : Prop := tcbs s' = tcbs s /\ global_tasks s' = global_tasks s.
#[export] Instance folk_preorder : PreOrder folk.
Proof. split; [by intros s|]. intros s1 s2 s3 (A1 & B1) (A2 & B2). unfold folk. split; congruence. Qed.
Lemma kin_folk {A} (m : prog St A) : keeps kin m -> keeps folk m.
Proof. intros Hm s a s' E. by destruct (Hm s a s' E) as (E1 & E2 & _). Qed.
#[local] Hint Resolve kin_folk : keeps.
Lemma task_destroy_utcb_folk t : keeps folk (task_destroy_utcb t).
Proof.
  unfold task_destroy_utcb, task_descs. kin_keep.
  match goal with |- keeps _ (destroy_slot _ _ ?l) => induction l as [|d l IH] end; cbn [destroy_slot]; [kin_keep|].
  unfold utcb_delete_slot, task_delete_utcb_desc, desc_list_mod. kin_keep.
Qed.
Lemma task_free_resources_folk t : keeps folk (task_free_resources t).
Proof. unfold task_free_resources. kin_keep. Qed.
Lemma tcb_alloc_folk n : keeps folk (kzalloc n). Proof. apply kin_folk, kzalloc_kin. Qed.

(** * The tree *)

(** Every task's parent is a task, and a task's children are the tasks whose
    parent it is, each once. *)
Record family_ok (m : Z -> tcb) (l : list Z) : Prop := {
  fm_dup : NoDup l;
  fm_null : 0 ∉ l;
  fm_parent : forall t, t ∈ l -> parent (m t) ∈ l /\ child_of (m t) = parent (m t);
  fm_children : forall t, t ∈ l -> NoDup (children (m t)) /\ forall c, c ∈ children (m t) <-> c ∈ l /\ parent (m c) = t }.
Definition tasks_ok (s : St) : Prop :=
  family_ok (tcbs s) (glist (global_tasks s)) /\ total (global_tasks s) = Z.of_nat (length (glist (global_tasks s))).

(** [y] is [x] but for its place in the tree. *)
Definition same_but_place (x y : tcb) : Prop :=
  y = x <| parent := parent y |> <| children := children y |> <| child_of := child_of y |>.

(** The state after one child is moved. *)
Definition moved (m : Z -> tcb) (t p c : Z) : Z -> tcb :=
  let m := <[t := m t <| children ::= list_del c |>]> m in
  let m := <[c := m c <| child_of := 0 |>]> m in
  let m := <[p := m p <| children ::= fun l => l ++ [c] |>]> m in
  let m := <[c := m c <| child_of := p |>]> m in
  <[c := m c <| parent := p |>]> m.
Lemma tmod_run t f (s : St) : tmod t f s = Ret tt (s <| tcbs := <[t := f (tcbs s t)]> (tcbs s) |>).
Proof. done. Qed.
Lemma tcbs_set m (s : St) : tcbs (s <| tcbs := m |>) = m. Proof. done. Qed.
Lemma tcbs_set_set m m' (s : St) : s <| tcbs := m |> <| tcbs := m' |> = s <| tcbs := m' |>. Proof. done. Qed.
Lemma reparent_run (s : St) t c : let p := parent (tcbs s t) in
  child_of (tcbs s c) = t -> t <> 0 -> p <> 0 -> p <> t -> c <> t ->
  reparent t c s = Ret tt (s <| tcbs := moved (tcbs s) t p c |>).
Proof.
  intros p Hc Ht Hp Hpt Hct. unfold reparent, child_remove, child_insert_tail. vrun.
  rewrite Hc, (proj2 (Z.eqb_neq t 0) Ht). cbn [negb]. rewrite !tmod_run. cbn [obind]. rewrite !tmod_run, !tcbs_set, !tcbs_set_set. cbn [obind].
  set (m2 := <[c := _]> _). assert (parent (m2 t) = p) as E2 by (unfold m2; rewrite fn_lookup_insert_ne by done; cbn; by rewrite fn_lookup_insert).
  rewrite !tcbs_set, E2, (proj2 (Z.eqb_neq p 0) Hp). cbn [obind]. rewrite ?tcbs_set, ?E2, (proj2 (Z.eqb_neq p t) Hpt). cbn [obind]. rewrite !tmod_run, !tcbs_set, !tcbs_set_set. cbn [obind].
  rewrite !tmod_run, !tcbs_set, !tcbs_set_set. cbn [obind]. set (m4 := <[c := _]> _).
  assert (parent (m4 t) = p) as E4 by (unfold m4; rewrite fn_lookup_insert_ne, fn_lookup_insert_ne by done; exact E2).
  rewrite ?tcbs_set, E4. rewrite !tmod_run, !tcbs_set, !tcbs_set_set. done.
Qed.
Lemma moved_fields m t p c : p <> t -> c <> t -> forall x, same_but_place (m x) (moved m t p c x) /\
  parent (moved m t p c x) = (if decide (x = c) then p else parent (m x)) /\
  child_of (moved m t p c x) = (if decide (x = c) then p else child_of (m x)) /\
  children (moved m t p c x) = if decide (x = t) then list_del c (children (m t)) else
    if decide (x = p) then children (m p) ++ [c] else children (m x).
Proof.
  intros Hpt Hct x. unfold moved, insert, fn_insert, same_but_place. repeat case_decide; subst; try done; repeat split; try done; by destruct (m _).
Qed.

(** All children [l] of [t] go to the end of the children of [p]. *)
Lemma reparent_all l t p : p <> t -> p <> 0 -> t <> 0 -> t ∉ l -> forall s : St,
  NoDup l -> parent (tcbs s t) = p -> children (tcbs s t) = l -> (forall c, c ∈ l -> child_of (tcbs s c) = t) ->
  exists m, foreach l (reparent t) s = Ret tt (s <| tcbs := m |>) /\ (forall x, same_but_place (tcbs s x) (m x)) /\
    (forall x, parent (m x) = (if decide (x ∈ l) then p else parent (tcbs s x)) /\
      child_of (m x) = (if decide (x ∈ l) then p else child_of (tcbs s x)) /\
      children (m x) = if decide (x = t) then [] else if decide (x = p) then children (tcbs s p) ++ l else children (tcbs s x)).
Proof.
  intros Hpt Hp0 Ht0. induction l as [|c l IH]; intros Htl s Hd Ep Ec Hch.
  - exists (tcbs s). split; [by destruct s|]. split; [intros x; by destruct (tcbs s x)|]. intros x.
    rewrite (decide_False (P := x ∈ [])) by (by intros ?%elem_of_nil). rewrite app_nil_r. split_and!; [done|done|]. repeat case_decide; by subst.
  - apply not_elem_of_cons in Htl as [Htc Htl]. apply NoDup_cons in Hd as [Hcl Hd]. cbn [foreach].
    pose proof (moved_fields (tcbs s) t p c Hpt ltac:(done)) as Hf.
    destruct (IH Htl (s <| tcbs := moved (tcbs s) t p c |>) Hd) as (m & Em & Hs & Hm); rewrite ?tcbs_set in *.
    + destruct (Hf t) as (_ & -> & _). by rewrite decide_False.
    + destruct (Hf t) as (_ & _ & _ & ->). rewrite decide_True, Ec by done. by apply list_del_cons.
    + intros y Hy. destruct (Hf y) as (_ & _ & -> & _). rewrite decide_False by (by intros ->). apply Hch. by right.
    + exists m. split; [|split].
      * rewrite (run_bind _ _ _ _ _ (reparent_run s t c ltac:(apply Hch; by left) Ht0 ltac:(by rewrite Ep) ltac:(by rewrite Ep) ltac:(done))), Ep, Em. done.
      * intros x. destruct (Hf x) as (H1 & _). specialize (Hs x). unfold same_but_place in *. rewrite Hs, H1. done.
      * intros x. destruct (Hm x) as (-> & -> & ->). destruct (Hf x) as (_ & -> & -> & ->). rewrite (proj2 (proj2 (proj2 (Hf p)))).
        rewrite (decide_False (P := p = t)), (decide_True (P := p = p)), <- app_assoc by done.
        split_and!; repeat case_decide; subst; rewrite ?elem_of_cons in *; try done; try tauto.
Qed.

(** [s'] is [s] without [t], whose children have gone to its parent. *)
Record adopted (s s' : St) (t : Z) : Prop := {
  ad_list : glist (global_tasks s') = list_del t (glist (global_tasks s));
  ad_same : forall x, x <> t -> same_but_place (tcbs s x) (tcbs s' x);
  ad_parent : forall x, x ∈ glist (global_tasks s') ->
    parent (tcbs s' x) = if decide (parent (tcbs s x) = t) then parent (tcbs s t) else parent (tcbs s x);
  ad_children : forall x, x <> t -> children (tcbs s' x) = if decide (x = parent (tcbs s t))
    then list_del t (children (tcbs s (parent (tcbs s t)))) ++ children (tcbs s t) else children (tcbs s x);
  ad_ok : tasks_ok s' }.

(** The tree after the children have moved and [t] has left its parent. *)
Lemma family_without m m' l t : family_ok m l -> t ∈ l -> parent (m t) <> t ->
  (forall x, x <> t -> parent (m' x) = (if decide (x ∈ children (m t)) then parent (m t) else parent (m x)) /\
    child_of (m' x) = (if decide (x ∈ children (m t)) then parent (m t) else child_of (m x)) /\
    children (m' x) = if decide (x = parent (m t)) then list_del t (children (m (parent (m t))) ++ children (m t)) else children (m x)) ->
  family_ok m' (list_del t l) /\ forall x, x ∈ list_del t l -> parent (m' x) = if decide (parent (m x) = t) then parent (m t) else parent (m x).
Proof.
  intros [Hd Hnull Hpar Hch] Ht Hpt Hm. destruct (Hpar t Ht) as [Hp _]. destruct (Hch t Ht) as [Hdt Hct]. destruct (Hch _ Hp) as [Hdp Hcp].
  assert (forall x, x ∈ list_del t l -> parent (m' x) = if decide (parent (m x) = t) then parent (m t) else parent (m x)) as Hpm.
  { intros x [Hx Hxt]%elem_of_list_del. destruct (Hm x Hxt) as (-> & _). specialize (Hct x). repeat case_decide; tauto. }
  split; [split|done].
  - by apply NoDup_filter.
  - by intros [? _]%elem_of_list_del.
  - intros x Hx. pose proof Hx as [Hxl Hxt]%elem_of_list_del. destruct (Hm x Hxt) as (_ & -> & _). rewrite (Hpm x Hx). destruct (Hpar x Hxl) as [Hpx ->].
    rewrite elem_of_list_del. specialize (Hct x). repeat case_decide; tauto.
  - intros x Hx. pose proof Hx as [Hxl Hxt]%elem_of_list_del. destruct (Hm x Hxt) as (_ & _ & ->). destruct (Hch x Hxl) as [Hdx Hcx].
    case_decide as Exp.
    + split.
      * apply NoDup_filter, NoDup_app. split_and!; [done| |done]. intros c [_ E1]%Hcp [_ E2]%Hct. congruence.
      * intros c. rewrite elem_of_list_del, elem_of_app, Hcp, Hct. split.
        -- intros [[[Hc E]|[Hc E]] Hne]; assert (c ∈ list_del t l) as Hcl by (by apply elem_of_list_del); rewrite (Hpm c Hcl), E; split; try done; rewrite Exp; case_decide; done.
        -- intros [Hcl Epc]. pose proof Hcl as [Hc Hne]%elem_of_list_del. rewrite (Hpm c Hcl) in Epc. split; [|done]. case_decide; [right|left]; (split; [done|congruence]).
    + split; [done|]. intros c. rewrite Hcx. split.
      * intros [Hc E]. assert (c <> t) as Hne by (intros ->; done). assert (c ∈ list_del t l) as Hcl by (by apply elem_of_list_del).
        rewrite (Hpm c Hcl). split; [done|]. case_decide; congruence.
      * intros [Hcl Epc]. pose proof Hcl as [Hc Hne]%elem_of_list_del. rewrite (Hpm c Hcl) in Epc. split; [done|]. case_decide; [|done].
        by destruct Exp.
Qed.

(** [l] is the list of tasks, or longer. *)
Lemma tcb_destroy_family (s s' : St) l t r : family_ok (tcbs s) l -> t ∈ l -> t ∈ glist (global_tasks s) -> parent (tcbs s t) <> t ->
  tcb_destroy t s = Ret r s' ->
  global_tasks s' = MkGlobal (total (global_tasks s) - 1) (list_del t (glist (global_tasks s))) /\
  (forall x, x <> t -> same_but_place (tcbs s x) (tcbs s' x)) /\ family_ok (tcbs s') (list_del t l) /\
  (forall x, x ∈ list_del t l -> parent (tcbs s' x) = if decide (parent (tcbs s x) = t) then parent (tcbs s t) else parent (tcbs s x)) /\
  forall x, x <> t -> children (tcbs s' x) = if decide (x = parent (tcbs s t))
    then list_del t (children (tcbs s (parent (tcbs s t)))) ++ children (tcbs s t) else children (tcbs s x).
Proof.
  intros Hf Ht Htg Hpt E. pose proof Hf as [Hd Hnull Hpar Hch]. destruct (Hpar t Ht) as [Hp Hco]. destruct (Hch t Ht) as [Hdt Hct].
  set (p := parent (tcbs s t)) in *. assert (p <> 0 /\ t <> 0) as [Hp0 Ht0] by (by split; intros ->).
  unfold tcb_destroy, global_remove_task in E.
  apply bind_inv in E as (u1 & s1 & E1 & E). apply bind_inv in E1 as (g & s1' & [= <- <-] & E1).
  rewrite bool_decide_true in E1 by done. apply bind_inv in E1 as (u2 & s1' & [= <- <-] & E1). apply bind_inv in E1 as (u3 & s1' & [= <- <-] & E1).
  apply bug_on_inv in E1 as [_ ->]. set (s1 := s <| global_tasks := _ |>) in E.
  apply bind_inv in E as (u4 & s2 & E2 & E). destruct (task_free_resources_folk t _ _ _ E2) as [Ft Fg].
  apply bind_inv in E as (lc & s2' & [= <- <-] & E). rewrite Ft in E. change (tcbs s1) with (tcbs s) in E.
  apply bind_inv in E as (u5 & s3 & E3 & E).
  assert (t ∉ children (tcbs s t)) as Htt by (by intros [_ ?]%Hct).
  destruct (reparent_all (children (tcbs s t)) t p Hpt Hp0 Ht0 Htt s2) as (m & Em & Hs & Hm); rewrite ?Ft; [done..|by intros c [Hc <-]%Hct; apply Hpar|].
  rewrite Em in E3. injection E3 as _ <-. change (tcbs s1) with (tcbs s) in Ft. rewrite Ft in Hs, Hm.
  unfold child_remove in E. apply bind_inv in E as (u6 & s4 & E4 & E). 
  apply bind_inv in E4 as (k & s4' & [= <- <-] & E4). cbn [tcbs set_field] in E4. change (tcbs (s2 <| tcbs := m |>)) with m in E4. destruct (Hm t) as (_ & Hmc & _). rewrite decide_False, Hco in Hmc by done.
  rewrite Hmc, (proj2 (Z.eqb_neq p 0) Hp0) in E4. cbn [negb when] in E4. rewrite (run_bind _ _ _ _ _ (tmod_run _ _ _)), tmod_run, !tcbs_set, !tcbs_set_set in E4.
  injection E4 as _ <-.
  set (m2 := <[t := _]> _) in E.
  assert (folk (s2 <| tcbs := m2 |>) s') as [E1 E2'] by (refine ((_ : keeps folk _) _ _ _ E); kin_keep).
  rewrite tcbs_set in E1. change (global_tasks (s2 <| tcbs := m2 |>)) with (global_tasks s2) in E2'. rewrite Fg in E2'. cbn in E2'.
  assert (forall x, x <> t -> same_but_place (m x) (m2 x) /\ parent (m2 x) = parent (m x) /\ child_of (m2 x) = child_of (m x) /\
    children (m2 x) = if decide (x = p) then list_del t (children (m p)) else children (m x)) as Hm2.
  { intros x Hx. unfold m2. rewrite fn_lookup_insert_ne by done. destruct (decide (x = p)) as [->|Hxp].
    - rewrite fn_lookup_insert. split_and!; [unfold same_but_place; by destruct (m p)|done..].
    - rewrite fn_lookup_insert_ne by done. split_and!; [unfold same_but_place; by destruct (m x)|done..]. }
  assert (forall x, x <> t -> children (m2 x) = if decide (x = p) then list_del t (children (tcbs s p) ++ children (tcbs s t)) else children (tcbs s x)) as Hkids.
  { intros x Hx. destruct (Hm2 x Hx) as (_ & _ & _ & ->). destruct (Hm x) as (_ & _ & ->). rewrite (proj2 (proj2 (Hm p))), (decide_False (P := x = t)), (decide_False (P := p = t)), (decide_True (P := p = p)) by done.
    by repeat case_decide. }
  destruct (family_without (tcbs s) m2 l t Hf Ht Hpt) as [Hok Hparent].
  { intros x Hx. destruct (Hm2 x Hx) as (_ & -> & -> & _). destruct (Hm x) as (-> & -> & _). split; [done|split; [done|by apply Hkids]]. }
  rewrite E1, E2'. split_and!; [done| |done|done|].
  2: { intros x Hx. rewrite Hkids by done. fold p. case_decide; [|done]. unfold list_del. rewrite filter_app. f_equal.
    by apply list_del_out. }
  intros x Hx. specialize (Hs x). destruct (Hm2 x Hx) as (Hs2 & _). unfold same_but_place in *. rewrite Hs2, Hs. done.
Qed.
Lemma tcb_destroy_adopted (s s' : St) t r : tasks_ok s -> t ∈ glist (global_tasks s) -> parent (tcbs s t) <> t ->
  tcb_destroy t s = Ret r s' -> adopted s s' t.
Proof.
  intros [Hf Htot] Ht Hpt E. destruct (tcb_destroy_family s s' _ t r Hf Ht Ht Hpt E) as (E1 & E2 & E3 & E4 & E5).
  split; rewrite ?E1; cbn [glist]; [done..|]. unfold tasks_ok. rewrite E1. cbn [glist total]. split; [done|].
  pose proof (list_del_count t _ (fm_dup _ _ Hf) Ht). lia.
Qed.

(** * New tasks *)

(** No control block but [c]'s is written, and that one's place in the tree is
    as it was. *)
Definition apart (c : Z) (s s' : St) : Prop :=
  (forall x, x <> c -> tcbs s' x = tcbs s x) /\ global_tasks s' = global_tasks s /\
  children (tcbs s' c) = children (tcbs s c) /\ child_of (tcbs s' c) = child_of (tcbs s c) /\ parent (tcbs s' c) = parent (tcbs s c).
#[export] Instance apart_preorder c : PreOrder (apart c).
Proof.
  split; [by intros s|]. intros s1 s2 s3 (A1 & B1 & C1 & D1 & E1) (A2 & B2 & C2 & D2 & E2). unfold apart. split_and!; try congruence.
  intros x Hx. by rewrite A2, A1.
Qed.
Lemma folk_apart {A} c (m : prog St A) : keeps folk m -> keeps (apart c) m.
Proof. intros Hm s a s' E. destruct (Hm s a s' E) as [E1 E2]. unfold apart. by rewrite E1. Qed.
Lemma kin_apart {A} c (m : prog St A) : keeps kin m -> keeps (apart c) m.
Proof. intros Hm. by apply folk_apart, kin_folk. Qed.
#[local] Hint Resolve kin_apart : keeps.
Lemma tmod_apart c f : (forall x, children (f x) = children x /\ child_of (f x) = child_of x /\ parent (f x) = parent x) -> keeps (apart c) (tmod c f).
Proof.
  intros Hf s a s'. rewrite tmod_run. intros [= _ <-]. destruct (Hf (tcbs s c)) as (E1 & E2 & E3). unfold apart. rewrite tcbs_set, fn_lookup_insert.
  split_and!; try done. intros x Hx. by rewrite fn_lookup_insert_ne.
Qed.
Ltac apart_keep := repeat (keep1 || (by split_and!) || (apply tmod_apart; by intros ?)).

Lemma find_slot_folk l : keeps folk (find_slot l).
Proof.
  induction l as [|d l IH]; cbn [find_slot]; kin_keep. intros s a s'. unfold utcb_new_slot. destruct (id_new _). by intros [= _ <-].
Qed.
Lemma task_new_utcb_desc_folk t : keeps folk (task_new_utcb_desc t).
Proof.
  unfold task_new_utcb_desc, desc_list_mod. kin_keep. intros s b s'. unfold utcb_new_slot. destruct (id_new _). by intros [= _ <-].
Qed.
#[local] Hint Resolve find_slot_folk task_new_utcb_desc_folk : keeps.
#[local] Hint Resolve folk_apart : keeps.
Lemma task_setup_utcb_apart c : keeps (apart c) (task_setup_utcb c).
Proof. unfold task_setup_utcb, task_descs, find_vma, task_vmas. apart_keep. Qed.
Lemma copy_tcb_apart c p f : keeps (apart c) (copy_tcb c p f).
Proof. unfold copy_tcb. apart_keep. Qed.

(** What an allocation that returns gives. *)
Definition heap_ready (s : St) : Prop := live heap_array (mheap s) /\ heap_array + HEAP_SIZE <= 2 ^ 32 - 0x1000.
Lemma kzalloc_fresh (s s' : St) n a : heap_ready s -> 0 < n -> n + SIZEOF_MALLOC < 2 ^ 31 -> kzalloc n s = Ret a s' ->
  (forall b, owned s b n -> b <> a) /\ a <> 0 /\ IS_ERR a = false.
Proof.
  intros [Hl Hlow] Hn Hn2 E. pose proof Hl as [[Hp _] [_ Htop] _ _ _ _].
  pose proof (kmalloc_run heap_array (mheap s) n Hp Htop (or_intror (or_intror Hl)) Hn Hn2) as Hk.
  unfold kzalloc, Malloc.kzalloc in E. destruct (kmalloc heap_array n (mheap s)) as [p h].
  destruct (Z.eqb_spec p 0) as [->|Hp0]; [rewrite (proj2 (Z.eqb_neq n 0)) in E by lia; done|]. injection E as <- <-.
  destruct Hk as [_ [[? _]|[Hl' Hf]]]; [done|]. split; [|split; [done|]].
  - intros b Hb. destruct (fresh_owned s (s <| mheap := h |>) p n b n) as [_ ?]; [exact Hf|lia|lia|done|done].
  - destruct Hf as (F1 & F2 & _). apply low_ptr; unfold HEAP_SIZE, SIZEOF_MALLOC in *; lia.
Qed.
Lemma tcb_alloc_init_new (s s' : St) share c : heap_ready s -> tcb_alloc_init share s = Ret c s' ->
  (forall b, owned s b SIZEOF_TCB -> b <> c) /\ c <> 0 /\ IS_ERR c = false /\
  (forall x, x <> c -> tcbs s' x = tcbs s x) /\ global_tasks s' = global_tasks s /\ children (tcbs s' c) = [].
Proof.
  intros Hr E. unfold tcb_alloc_init in E. apply bind_inv in E as (a & s1 & E1 & E).
  destruct (kzalloc_fresh s s1 SIZEOF_TCB a Hr) as (F1 & F2 & F3); [done..|]. destruct (kzalloc_kin _ _ _ _ E1) as (T1 & G1 & _).
  apply bind_inv in E as (u & s2 & E2 & E). rewrite tmod_run in E2. injection E2 as _ <-.
  match type of E with ?m ?t = _ => assert (keeps (apart a) m) as Hk by apart_keep; destruct (Hk _ _ _ E) as (A1 & A2 & A3 & _) end.
  apply bind_inv in E as (? & ? & _ & E). apply bind_inv in E as (? & ? & _ & E). apply bind_inv in E as (? & ? & _ & [= <- <-]).
  rewrite tcbs_set in A1, A3. split_and!; [done..| | |].
  - intros y Hy. rewrite A1 by done. by rewrite fn_lookup_insert_ne, T1.
  - by rewrite A2.
  - by rewrite A3, fn_lookup_insert.
Qed.

(** The new task [c] is a child of [p], and nothing else happened to the tree. *)
Record joined (s s' : St) (c p : Z) : Prop := {
  jn_new : (c ∉ glist (global_tasks s)) /\ c <> 0 /\ IS_ERR c = false;
  jn_tasks : global_tasks s' = global_tasks s;
  jn_same : forall x, x <> c -> same_but_place (tcbs s x) (tcbs s' x) /\ parent (tcbs s' x) = parent (tcbs s x) /\
    child_of (tcbs s' x) = child_of (tcbs s x) /\ children (tcbs s' x) = if decide (x = p) then children (tcbs s p) ++ [c] else children (tcbs s x);
  jn_child : parent (tcbs s' c) = p /\ child_of (tcbs s' c) = p /\ children (tcbs s' c) = [] }.
Lemma link_child (s s1 : St) c p (s' : St) u : (c ∉ glist (global_tasks s)) /\ c <> 0 /\ IS_ERR c = false -> c <> p ->
  (forall x, x <> c -> tcbs s1 x = tcbs s x) -> global_tasks s1 = global_tasks s -> children (tcbs s1 c) = [] ->
  (child_insert_tail c p ≫= fun _ => tmod c (fun t => t <| parent := p |>)) s1 = Ret u s' -> joined s s' c p.
Proof.
  intros Hc Hcp H1 H2 H3 E. apply bind_inv in E as (u1 & s2 & E1 & E). apply bind_inv in E1 as (u2 & s3 & E2 & E1).
  rewrite tmod_run in E2. injection E2 as _ <-. rewrite tmod_run, tcbs_set, tcbs_set_set in E1. injection E1 as _ <-.
  rewrite tmod_run, tcbs_set, tcbs_set_set in E. injection E as _ <-.
  split; [done|exact H2|intros x Hx|]; rewrite tcbs_set.
  - rewrite !(fn_lookup_insert_ne _ c x) by done. destruct (decide (x = p)) as [->|Hxp].
    + rewrite fn_lookup_insert, H1 by done. split_and!; [unfold same_but_place; by destruct (tcbs s p)|done..].
    + rewrite fn_lookup_insert_ne, H1 by done. split_and!; [unfold same_but_place; by destruct (tcbs s x)|done..].
  - rewrite !fn_lookup_insert, fn_lookup_insert_ne by done. by split_and!.
Qed.

(** [s'] is [s] with a new task [c] at the end of the list, a child of [p]. *)
Record born (s s' : St) (c p : Z) : Prop := {
  bn_list : (c ∉ glist (global_tasks s)) /\ glist (global_tasks s') = glist (global_tasks s) ++ [c];
  bn_same : forall x, x <> c -> same_but_place (tcbs s x) (tcbs s' x) /\ parent (tcbs s' x) = parent (tcbs s x);
  bn_child : parent (tcbs s' c) = p;
  bn_ok : tasks_ok s' }.
Lemma family_with m m' l c p : family_ok m l -> p ∈ l -> c ∉ l -> c <> 0 ->
  (forall x, x <> c -> parent (m' x) = parent (m x) /\ child_of (m' x) = child_of (m x) /\
    children (m' x) ≡ₚ if decide (x = p) then c :: children (m p) else children (m x)) ->
  parent (m' c) = p /\ child_of (m' c) = p /\ children (m' c) = [] -> family_ok m' (l ++ [c]).
Proof.
  intros [Hd Hnull Hpar Hch] Hp Hc Hc0 Hs (Ep & Eco & Ech).
  assert (forall x, x ∈ l -> x <> c) as Hne by (by intros x Hx ->).
  split.
  - apply NoDup_app. split_and!; [done| |apply NoDup_singleton]. by intros x Hx ->%list_elem_of_singleton.
  - rewrite elem_of_app, list_elem_of_singleton. by intros [?| <-].
  - intros x. rewrite elem_of_app, list_elem_of_singleton. intros [Hx|Hx]; [|subst x].
    + destruct (Hs x (Hne x Hx)) as (-> & -> & _). destruct (Hpar x Hx) as [? ?]. split; [|done]. apply elem_of_app. by left.
    + rewrite Ep, Eco. split; [|done]. apply elem_of_app. by left.
  - intros x. rewrite elem_of_app, list_elem_of_singleton. intros [Hx|Hx]; [|subst x].
    + destruct (Hs x (Hne x Hx)) as (_ & _ & Hper). destruct (Hch x Hx) as [Hdx Hcx].
      assert (c ∉ children (m x)) as Hcn by (by intros [? _]%Hcx).
      assert (forall k, k ∈ children (m x) <-> k <> c /\ (k ∈ l ++ [c] /\ parent (m' k) = x)) as Hk.
      { intros k. rewrite Hcx, elem_of_app, list_elem_of_singleton. split.
        - intros [Hk E]. destruct (Hs k (Hne k Hk)) as (-> & _). split_and!; [by apply Hne|by left|done].
        - intros (Hkc & [Hk| ->] & E); [|done]. split; [done|]. by destruct (Hs k Hkc) as (<- & _). }
      setoid_rewrite Hper. case_decide as Exp; [subst x; split|split].
      * by apply NoDup_cons.
      * intros k. rewrite elem_of_cons, Hk. destruct (decide (k = c)) as [->|]; [|tauto].
        split; [|tauto]. intros _. rewrite elem_of_app, list_elem_of_singleton. tauto.
      * done.
      * intros k. rewrite Hk. split; [tauto|]. intros [Hkl E]. split_and!; try done. intros ->. congruence.
    + rewrite Ech. split; [apply NoDup_nil_2|]. intros k. rewrite elem_of_nil. split; [done|].
      intros [Hk E]. apply elem_of_app in Hk as [Hk|Hk%list_elem_of_singleton].
      * destruct (Hs k (Hne k Hk)) as (E2 & _). destruct (Hpar k Hk) as [? _]. rewrite <- E2, E in *. done.
      * subst k. rewrite Ep in E. by rewrite E in Hp.
Qed.
Lemma joined_family (s s' : St) c p : tasks_ok s -> p ∈ glist (global_tasks s) -> joined s s' c p ->
  family_ok (tcbs s') (glist (global_tasks s) ++ [c]).
Proof.
  intros [Hf _] Hp [(Hc & Hc0 & _) _ Hs He]. apply (family_with (tcbs s) _ _ c p); try done.
  intros x Hx. destruct (Hs x Hx) as (_ & E1 & E2 & ->). split_and!; [done|done|]. case_decide; [|done]. by rewrite Permutation_app_comm.
Qed.

(** What the kernel says when it refuses is the negative of an error number. *)
Definition errors_small : Prop := forall a ids (k : K), (sys_thread_control a ids k).1.1 < 0 -> - 0x1000 < (sys_thread_control a ids k).1.1.
Definition new_parent (s : St) (parent_ share : Z) : Z :=
  if flag_set share TCB_SHARED_PARENT || flag_set share TCB_SHARED_TGROUP then parent (tcbs s parent_) else parent_.
Lemma small_error r : r < 0 -> - 0x1000 < r -> IS_ERR (PTR_ERR r) = true /\ s32 (PTR_ERR r) = r.
Proof.
  intros H1 H2. assert (s32 (PTR_ERR r) = r) as E.
  { unfold s32, PTR_ERR, u32. rewrite Zplus_mod_idemp_l, Z.mod_small by lia. lia. }
  unfold IS_ERR. rewrite E. split; [|done]. unfold is_err. lia.
Qed.
Lemma task_create_joins (s s' : St) p ids share ctrl r : tasks_ok s -> heap_ready s -> errors_small ->
  (forall t, t ∈ glist (global_tasks s) -> owned s t SIZEOF_TCB) -> p ∈ glist (global_tasks s) ->
  task_create p ids share ctrl s = Ret r s' ->
  folk s s' /\ IS_ERR r.1 = true /\ s32 r.1 < 0 \/ joined s s' r.1 (new_parent s p share).
Proof.
  intros [[Hd Hnull Hpar Hch] _] Hr He Hown Hp E. assert (p <> 0) as Hp0 by (by intros ->). unfold task_create in E.
  apply bind_inv in E as (u & s1 & E1 & E). apply bug_on_inv in E1 as [_ ->]. rewrite (proj2 (Z.eqb_neq p 0) Hp0) in E.
  apply bind_inv in E as (ids' & s1 & E1 & E). apply bind_inv in E1 as (t & s2 & [= <- <-] & [= <- <-]).
  apply bind_inv in E as (r1 & s1 & E1 & E). destruct (l4_thread_control_kin _ _ _ _ _ E1) as (T1 & G1 & _).
  assert (heap_ready s1 /\ forall b, owned s1 b = owned s b) as [Hr1 Ho1].
  { unfold l4_thread_control in E1. unfold heap_ready, owned. destruct (sys_thread_control _ _ _) as [[? ?] ?]. by injection E1 as _ <-. }
  destruct (Z.ltb_spec r1.1 0) as [Hneg|_].
  { injection E as <- <-. left. destruct (small_error r1.1) as [Es1 Es2]; [done| |split_and!; try done; cbn [fst]; lia].
    unfold l4_thread_control in E1. specialize (He (Z.lor THREAD_CREATE ctrl) (MkIds (tid (tcbs s p)) (spid (tcbs s p)) (tgid (tcbs s p))) (kern s)).
    destruct (sys_thread_control _ _ _) as [[? ?] ?]. injection E1 as <- <-. by apply He. }
  right. apply bind_inv in E as (c & s2 & E2 & E). destruct (tcb_alloc_init_new s1 s2 share c Hr1 E2) as (N1 & N2 & N3 & N4 & N5 & N6).
  rewrite N3 in E. assert (c ∉ glist (global_tasks s)) as Hc by (intros Hx%Hown; rewrite <- Ho1 in Hx; by apply N1 in Hx).
  apply bind_inv in E as (u3 & s3 & E3 & E).
  assert (apart c s2 s3) as A3 by (refine ((_ : keeps (apart c) _) _ _ _ E3); apart_keep).
  cbn [negb] in E. apply bind_inv in E as (u4 & s4 & E4 & [= <- <-]).
  apply bind_inv in E4 as (u5 & s5 & E5 & E4). apply (copy_tcb_apart c) in E5. apply bind_inv in E4 as (u6 & s6 & E6 & E4). apply task_setup_utcb_apart in E6.
  assert (apart c s2 s6) as (X1 & X2 & X3 & _) by (etrans; [exact A3|]; etrans; [exact E5|exact E6]).
  assert (forall x, x <> c -> tcbs s6 x = tcbs s x) as Hx by (intros x Hx; by rewrite X1, N4, T1).
  assert (global_tasks s6 = global_tasks s) as Hg by congruence. assert (children (tcbs s6 c) = []) as Hch6 by congruence.
  assert (p <> c) as Hpc by (by intros ->). cbn [fst]. unfold new_parent. destruct (_ || _).
  - apply bind_inv in E4 as (q & s7 & [= <- <-] & E4). apply bind_inv in E4 as (u7 & s7 & E7 & E4). apply bug_on_inv in E7 as [_ ->].
    rewrite Hx in E4 by done. eapply link_child; [done| |exact Hx|done|done|exact E4]. intros ->. by destruct (Hpar p Hp).
  - eapply link_child; [done| |exact Hx|done|done|exact E4]. done.
Qed.

Lemma joined_apart (s s1 s2 : St) c p : joined s s1 c p -> apart c s1 s2 -> joined s s2 c p.
Proof.
  intros [J1 J2 J3 (J4 & J5 & J6)] (A1 & A2 & A3 & A4 & A5). split; [done|congruence| |split_and!; congruence].
  intros x Hx. rewrite A1 by done. by apply J3.
Qed.
Lemma start_child_born (s s1 s' : St) c p x ids r : tasks_ok s -> p ∈ glist (global_tasks s) -> joined s s1 c p ->
  start_child c x ids s1 = Ret r s' -> born s s' c p /\ r = s32 (tid (tcbs s' c)).
Proof.
  intros Hok Hp J E. pose proof (joined_family s s1 c p Hok Hp J) as Hf. destruct J as [(Hc & _) J2 J3 (J4 & _)]. unfold start_child in E.
  apply bind_inv in E as (t & s2 & [= _ <-] & E). apply bind_inv in E as (e & s2 & E2 & E). destruct (l4_exchange_registers_kin _ _ _ _ _ E2) as (T2 & G2 & _).
  apply bind_inv in E as (u & s3 & E3 & E). apply bug_on_inv in E3 as [_ ->].
  apply bind_inv in E as (u1 & s3 & E3 & E). unfold global_add_task in E3. apply bind_inv in E3 as (g & s4 & [= <- <-] & E3).
  apply bind_inv in E3 as (u2 & s4 & E4 & E3). apply bug_on_inv in E4 as [_ ->]. injection E3 as _ <-.
  apply bind_inv in E as (w & s4 & E4 & E). destruct (l4_thread_control_kin _ _ _ _ _ E4) as (T4 & G4 & _).
  apply bind_inv in E as (t1 & s5 & [= <- <-] & [= <- <-]). cbn in T4, G4. assert (tcbs s4 = tcbs s1) as Ht by (rewrite T4; exact T2).
  rewrite G2, J2 in G4. split; [|done]. split; rewrite ?Ht, ?G4; cbn [glist]; [done| |done|].
  - intros y Hy. by destruct (J3 y Hy) as (? & ? & _).
  - unfold tasks_ok. rewrite Ht, G4. cbn [glist total]. split; [done|]. rewrite length_app. destruct Hok as [_ ->]. cbn. lia.
Qed.
Lemma new_parent_task (s : St) p share : tasks_ok s -> p ∈ glist (global_tasks s) -> new_parent s p share ∈ glist (global_tasks s).
Proof. intros [[_ _ Hpar _] _] Hp. unfold new_parent. destruct (_ || _); [by apply Hpar|done]. Qed.
Lemma clone_sharing_parent f (s : St) p : new_parent s p (clone_sharing f).1 =
  if flag_set f CLONE_PARENT || flag_set f CLONE_THREAD then parent (tcbs s p) else p.
Proof.
  unfold new_parent, clone_sharing.
  destruct (flag_set f CLONE_PARENT), (flag_set f CLONE_THREAD), (flag_set f CLONE_FILES), (flag_set f CLONE_FS), (flag_set f CLONE_VM); done.
Qed.

(** The tasks and the heap alone: freezing an address space only maps pages. *)
Lemma vm_freeze_shadows_heap t : keeps (fun s s' : St => folk s s' /\ mheap s' = mheap s) (vm_freeze_shadows t).
Proof.
  assert (PreOrder (fun s s' : St => folk s s' /\ mheap s' = mheap s)) as Hpre.
  { split; [by split|]. intros s1 s2 s3 [? ?] [? ?]. split; [by etrans|congruence]. }
  assert (forall p v n f t, keeps (fun s s' : St => folk s s' /\ mheap s' = mheap s) (l4_map p v n f t)) as Hmap.
  { intros p v n f t1. unfold l4_map. intros s a s'. repeat case_match. by intros [= <- <-]. }
  unfold vm_freeze_shadows, task_vmas, freeze_vma, freeze_page, vma_page_to_virtual, set_obj, or_bug, area, link_obj, obj. repeat (keep1 || apply Hmap || (by split)).
Qed.

(** What a call that makes a task by [m] with the parent [p] comes to. *)
Definition makes_task (s : St) (p : Z) (r : Z) (s' : St) : Prop :=
  r < 0 /\ folk s s' \/ exists c, born s s' c p /\ r = s32 (tid (tcbs s' c)).

Lemma do_exit_adopts (s s' : St) task status : tasks_ok s -> task ∈ glist (global_tasks s) -> parent (tcbs s task) <> task ->
  do_exit task status s = Ret tt s' -> adopted s s' task.
Proof.
  intros Hok Ht Hp E. unfold do_exit in E. apply bind_inv in E as (t & s1 & [= _ <-] & E).
  apply bind_inv in E as (r1 & s2 & E1 & E). apply bind_inv in E as (r2 & s3 & E2 & E). apply bind_inv in E as (r3 & s4 & E3 & E).
  assert (folk s s3) as [F1 G1].
  { transitivity s2; [|exact (task_destroy_utcb_folk _ _ _ _ E2)]. refine ((_ : keeps folk _) _ _ _ E1). unfold task_close_files. kin_keep. }
  assert (folk s4 s') as [F2 G2] by (refine ((_ : keeps folk _) _ _ _ E); kin_keep).
  destruct (tcb_destroy_adopted s3 s4 task r3) as [A1 A2 A3 A5 A4]; [unfold tasks_ok; by rewrite F1, G1|by rewrite G1|by rewrite F1|done|].
  rewrite F1, G1 in *. split; unfold tasks_ok in *; by rewrite ?F2, ?G2.
Qed.
(** C27: [exit] of a task that is not its own parent, when it returns, takes the
    task and no other off the list of tasks and makes its children, in their
    order, the last children of its parent, behind those it has, so that the
    tasks are again a tree; the children of every other task, and what else the
    control blocks hold, are as they were. *)
Theorem do_exit_hands_children_over (s s' : St) task status : tasks_ok s -> task ∈ glist (global_tasks s) -> parent (tcbs s task) <> task ->
  do_exit task status s = Ret tt s' -> adopted s s' task.
Proof. apply do_exit_adopts. Qed.

Lemma do_clone_makes_a_task (s s' : St) p stack share ctrl r : tasks_ok s -> heap_ready s -> errors_small ->
  (forall t, t ∈ glist (global_tasks s) -> owned s t SIZEOF_TCB) -> p ∈ glist (global_tasks s) ->
  do_clone p stack share ctrl s = Ret r s' -> makes_task s (new_parent s p share) r s'.
Proof.
  intros Hok Hr He Hown Hp E. unfold do_clone in E. apply bind_inv in E as (c & s1 & E1 & E).
  destruct (task_create_joins _ _ _ _ _ _ _ Hok Hr He Hown Hp E1) as [(F & E3 & Hneg)|J].
  - rewrite E3 in E. injection E as <- <-. by left.
  - destruct (jn_new _ _ _ _ J) as (_ & _ & Herr). rewrite Herr in E. right. exists c.1.
    apply bind_inv in E as (u1 & s2 & E2 & E). apply (tmod_apart c.1) in E2; [|done]. apply (joined_apart _ _ _ _ _ J) in E2.
    apply bind_inv in E as (a & s3 & [= _ <-] & E). apply bind_inv in E as (u2 & s3 & E3 & E). apply bug_on_inv in E3 as [_ ->].
    eapply start_child_born; [done| |exact E2|exact E]. by apply new_parent_task.
Qed.

(** C26: [clone] with a stack by a task of the tree, when it returns, either
    returns an error and leaves the tasks alone, or returns the id of a new
    task at the end of the list: a child of the caller's parent where the flags
    ask for a thread or for the same parent, and of the caller otherwise. The
    tasks are a tree again, and the others' parents are as they were. *)
Theorem sys_clone_makes_a_task (s s' : St) parent_ stack flags r : tasks_ok s -> heap_ready s -> errors_small ->
  (forall t, t ∈ glist (global_tasks s) -> owned s t SIZEOF_TCB) -> parent_ ∈ glist (global_tasks s) -> stack <> 0 ->
  sys_clone parent_ stack flags s = Ret r s' ->
  makes_task s (if flag_set flags CLONE_PARENT || flag_set flags CLONE_THREAD then parent (tcbs s parent_) else parent_) r s'.
Proof.
  intros Hok Hr He Hown Hp Hst E. unfold sys_clone in E. rewrite (proj2 (Z.eqb_neq stack 0) Hst) in E.
  apply bind_inv in E as (u & s1 & E1 & E). apply bug_on_inv in E1 as [_ ->]. rewrite <- clone_sharing_parent.
  destruct (clone_sharing flags) as [share ctrl]. by eapply do_clone_makes_a_task.
Qed.

(** [fork] likewise makes a child of the caller, after it has frozen the
    caller's shadow objects. *)
Theorem sys_fork_makes_a_task (s s' : St) parent_ r : tasks_ok s -> heap_ready s -> errors_small ->
  (forall t, t ∈ glist (global_tasks s) -> owned s t SIZEOF_TCB) -> parent_ ∈ glist (global_tasks s) ->
  sys_fork parent_ s = Ret r s' -> makes_task s parent_ r s'.
Proof.
  intros Hok Hr He Hown Hp E. unfold sys_fork in E.
  apply bind_inv in E as (u & s1 & E1 & E). apply vm_freeze_shadows_heap in E1 as [[T1 G1] M1].
  assert (tasks_ok s1) as Hok1 by (unfold tasks_ok; by rewrite T1, G1). assert (heap_ready s1) as Hr1 by (unfold heap_ready; by rewrite M1).
  apply bind_inv in E as (c & s2 & E2 & E).
  assert (forall t, t ∈ glist (global_tasks s1) -> owned s1 t SIZEOF_TCB) as Hown1 by (unfold owned; by rewrite G1, M1).
  destruct (task_create_joins _ _ _ _ _ _ _ Hok1 Hr1 He Hown1 ltac:(by rewrite G1) E2) as [([F1 F2] & E3 & Hneg)|J].
  - rewrite E3 in E. injection E as <- <-. left. split; [done|split; congruence].
  - destruct (jn_new _ _ _ _ J) as (_ & _ & Herr). rewrite Herr in E. right. exists c.1.
    apply bind_inv in E as (a & s3 & [= _ <-] & E). apply bind_inv in E as (u2 & s3 & E3 & E). apply bug_on_inv in E3 as [_ ->].
    change (new_parent s1 parent_ TCB_NO_SHARING) with parent_ in J.
    destruct (start_child_born _ _ _ _ _ _ _ _ Hok1 ltac:(by rewrite G1) J E) as [[B1 B2 B3 B4] B5].
    split; [|done]. rewrite T1, G1 in *. by split.
Qed.

Lemma keeps_bind_inv {A B} (R : St -> St -> Prop) (m : prog St A) (k : A -> prog St B) s b s' : keeps R m ->
  (m ≫= k) s = Ret b s' -> exists a s1, R s s1 /\ k a s1 = Ret b s'.
Proof. intros Hm (a & s1 & E & ?)%bind_inv. exists a, s1. split; [by eapply Hm|done]. Qed.
(** [pager_setup_task], run before there are tasks, when it returns, has
    made the one task there is, its own parent and its only child: the tree
    that [clone], [fork] and [exit] keep. *)
Theorem pager_setup_task_plants_the_tree (s s' : St) ids image pfns r : glist (global_tasks s) = [] -> total (global_tasks s) = 0 -> heap_ready s ->
  pager_setup_task ids image pfns s = Ret r s' ->
  exists task, glist (global_tasks s') = [task] /\ parent (tcbs s' task) = task /\ children (tcbs s' task) = [task] /\ tasks_ok s'.
Proof.
  intros Hl Hn Hr E. unfold pager_setup_task in E. apply bind_inv in E as (c & s1 & E1 & E).
  destruct (tcb_alloc_init_new _ _ _ _ Hr E1) as (_ & Hc0 & _ & _ & Hg & Hch). exists c. clear E1.
  do 9 (apply (keeps_bind_inv (apart c)) in E as (? & ? & ?F & E); [|apart_keep]).
  match type of E with _ ?s2 = _ => assert (apart c s1 s2) as (_ & Hg2 & Hch2 & _) by (repeat (etrans; [eassumption|]); reflexivity) end.
  clear F F0 F1 F2 F3 F4 F5 F6 F7. apply bind_inv in E as (? & s3 & E3 & E). apply bind_inv in E3 as (? & s4 & E4 & E3).
  rewrite tmod_run in E4. injection E4 as _ <-. rewrite tmod_run, tcbs_set, tcbs_set_set in E3. injection E3 as _ <-.
  apply bind_inv in E as (? & s3 & E3 & E). rewrite tmod_run, tcbs_set, tcbs_set_set in E3. injection E3 as _ <-.
  apply (keeps_bind_inv (apart c)) in E as (? & ? & F1 & E); [|apply task_setup_utcb_apart].
  do 4 (apply (keeps_bind_inv (apart c)) in E as (? & ? & ?F & E); [|apart_keep]).
  match type of E with _ ?s2 = _ => match type of F1 with apart _ ?s1 _ => assert (apart c s1 s2) as (_ & Hg3 & Hch3 & Hco & Hp) by (repeat (etrans; [eassumption|]); reflexivity) end end.
  rewrite tcbs_set, !fn_lookup_insert in Hch3, Hco, Hp. cbn in Hch3, Hco, Hp, Hg3. rewrite Hch2, Hch in Hch3. rewrite Hg2, Hg in Hg3.
  apply bind_inv in E as (u & s5 & E5 & [= _ <-]). unfold global_add_task in E5. apply bind_inv in E5 as (g & s6 & [= <- <-] & E5).
  apply bind_inv in E5 as (u2 & s6 & E6 & E5). apply bug_on_inv in E6 as [_ ->]. injection E5 as _ <-.
  rewrite Hg3. unfold tasks_ok. set (n := total (global_tasks s) + 1). change (tcbs (x29 <| global_tasks := _ |>)) with (tcbs x29).
  cbn [global_tasks set_field glist total]. rewrite Hl. split_and!; [done..| |by unfold n; rewrite Hn].
  split; cbn [app]; [apply NoDup_singleton|by intros <-%list_elem_of_singleton| |]; intros t ->%list_elem_of_singleton.
  - rewrite Hp, Hco. split; [by apply list_elem_of_singleton|done].
  - rewrite Hch3. split; [apply NoDup_singleton|]. intros k. rewrite !list_elem_of_singleton. split; [by intros ->|by intros []].
Qed.
End Family.
#[export] Hint Resolve kfree_kin kzalloc_kin with_fs_kin l4_map_kin l4_unmap_kin l4_thread_control_kin l4_exchange_registers_kin sys_close_kin
  do_mmap_kin task_prefault_page_kin page_in_kin close_from_kin task_destroy_utcb_folk task_free_resources_folk task_setup_utcb_apart
  find_slot_folk task_new_utcb_desc_folk kin_folk folk_apart kin_apart : keeps.

(** * Deciding the hypotheses on a concrete pager *)

Fixpoint chained_b (a : Z) (l : list malloc_t) (e : Z) : bool :=
  match l with
  | [] => a =? e
  | m :: l => (maddr m =? a) && (0 <=? msize m) && chained_b (a + SIZEOF_MALLOC + msize m) l e
  end.
Lemma chained_b_ok l : forall a e, chained_b a l e = true -> chained a l e.
Proof.
  induction l as [|m l IH]; intros a e; cbn; [by intros ?%Z.eqb_eq|]. intros [[H1%Z.eqb_eq H2%Z.leb_le]%andb_true_iff H3%IH]%andb_true_iff. done.
Qed.
Definition live_b (heap : Z) (h : heap_t) : bool :=
  (0 <? heap) && (g_heap_bot h =? heap) && (g_heap_top h =? heap + HEAP_SIZE) && (heap + HEAP_SIZE <? 2 ^ 32) &&
  chained_b heap (blocks h) (g_kbrk h) && negb (bool_decide (blocks h = [])) && (g_kbrk h <? g_heap_top h) &&
  forallb (fun m => bool_decide (maddr m ∈ magics h)) (blocks h).
Lemma live_b_ok heap h : live_b heap h = true -> live heap h.
Proof.
  unfold live_b. rewrite !andb_true_iff. intros [[[[[[[H1%Z.ltb_lt H2%Z.eqb_eq] H3%Z.eqb_eq] H4%Z.ltb_lt] H5%chained_b_ok] H6] H7%Z.ltb_lt] H8].
  split; try done; [by apply negb_true_iff, bool_decide_eq_false in H6|]. intros m Hm. rewrite forallb_forall in H8.
  apply list_elem_of_In, H8 in Hm. by apply bool_decide_eq_true in Hm.
Qed.
Definition family_b (m : Z -> tcb) (l : list Z) : bool :=
  bool_decide (NoDup l) && negb (bool_decide (0 ∈ l)) &&
  forallb (fun t => bool_decide (parent (m t) ∈ l) && (child_of (m t) =? parent (m t)) && bool_decide (NoDup (children (m t))) &&
    forallb (fun c => bool_decide (c ∈ l) && (parent (m c) =? t)) (children (m t)) &&
    forallb (fun c => negb (parent (m c) =? t) || bool_decide (c ∈ children (m t))) l) l.
Lemma family_b_ok m l : family_b m l = true -> family_ok m l.
Proof.
  unfold family_b. rewrite !andb_true_iff. intros [[H1%bool_decide_eq_true H2%negb_true_iff] H3]. apply bool_decide_eq_false in H2.
  assert (forall t, t ∈ l -> (parent (m t) ∈ l /\ child_of (m t) = parent (m t)) /\
    NoDup (children (m t)) /\ forall c, c ∈ children (m t) <-> c ∈ l /\ parent (m c) = t) as Ht.
  { intros t Ht%list_elem_of_In. rewrite forallb_forall in H3. apply H3 in Ht. rewrite !andb_true_iff, !forallb_forall in Ht.
    destruct Ht as [[[[E1%bool_decide_eq_true E2%Z.eqb_eq] E3%bool_decide_eq_true] E4] E5]. split_and!; [done..|]. intros c. split.
    - intros [E6%bool_decide_eq_true E7%Z.eqb_eq]%list_elem_of_In%E4%andb_true_iff. done.
    - intros [E6%list_elem_of_In%E5 <-]. rewrite Z.eqb_refl in E6. by apply bool_decide_eq_true in E6. }
  split; [done|done|by apply Ht..].
Qed.
Section Decided.
Context {K : Type} `{kernel_abi K} `{layout}.
Definition tasks_b (s : mm K) : bool :=
  family_b (tcbs s) (glist (global_tasks s)) && (total (global_tasks s) =? Z.of_nat (length (glist (global_tasks s)))).
Lemma tasks_b_ok s : tasks_b s = true -> tasks_ok s.
Proof. intros [?%family_b_ok ?%Z.eqb_eq]%andb_true_iff. done. Qed.
Definition heap_ready_b (s : mm K) : bool := live_b heap_array (mheap s) && (heap_array + HEAP_SIZE <=? 2 ^ 32 - 0x1000).
Lemma heap_ready_b_ok s : heap_ready_b s = true -> heap_ready s.
Proof. intros [?%live_b_ok ?%Z.leb_le]%andb_true_iff. done. Qed.
Definition owned_b (s : mm K) (n a : Z) : bool := existsb (fun m => (maddr m =? a - SIZEOF_MALLOC) && (msize m =? n) && mused m) (blocks (mheap s)).
Definition all_owned (s : mm K) : Prop := forall t, t ∈ glist (global_tasks s) -> owned s t SIZEOF_TCB.
Lemma all_owned_b_ok s : forallb (owned_b s SIZEOF_TCB) (glist (global_tasks s)) = true -> all_owned s.
Proof.
  rewrite forallb_forall. intros Hs t ([a n u] & Hm & [[E1%Z.eqb_eq E2%Z.eqb_eq]%andb_true_iff E3]%andb_true_iff)%list_elem_of_In%Hs%existsb_exists.
  cbn in *. subst. split; [by apply list_elem_of_In|done].
Qed.
End Decided.

(** * A pager with two generations of tasks *)

(** The heap is in use and there is a zero page, but there are no tasks. *)
Definition before_tasks : mm ptab := after (kzalloc 4 ;; init_devzero ;; utcb_pool_init) mm_empty.
Definition pager_image : segments := MkSegs 0x40000000 0x40010000 0x40010000 0x40020000 0x40020000 0x40030000 0x40030000 0x40031000 0 0 0 0.
Definition setup : prog (mm ptab) Z := pager_setup_task (MkIds 1 1 1) pager_image (0x40000, 0x50000).
Definition with_pager : mm ptab := after setup before_tasks.
Definition pager_task : Z := hd 0 (glist (global_tasks with_pager)).
Definition with_child : mm ptab := after (sys_fork pager_task) with_pager.
Definition child_task : Z := List.last (glist (global_tasks with_child)) 0.
Definition with_grandchild : mm ptab := after (sys_clone child_task 0x20000000 CLONE_VM) with_child.
Definition without_child : mm ptab := after (do_exit child_task 0) with_grandchild.

Lemma demo_errors : errors_small (K := ptab).
Proof. by intros a ids k. Qed.
Lemma setup_ready : glist (global_tasks before_tasks) = [] /\ total (global_tasks before_tasks) = 0 /\ heap_ready before_tasks.
Proof. split; [vm_compute; reflexivity|split; [vm_compute; reflexivity|]]. apply heap_ready_b_ok. vm_compute. reflexivity. Qed.
Lemma setup_runs : pager_setup_task (MkIds 1 1 1) pager_image (0x40000, 0x50000) before_tasks = Ret 0 with_pager.
Proof. unfold with_pager, setup. apply returned_after. vm_compute. reflexivity. Qed.
Record ready (s : mm ptab) (t : Z) : Prop := {
  rd_tasks : tasks_ok s; rd_heap : heap_ready s; rd_owned : all_owned s; rd_task : t ∈ glist (global_tasks s) }.
Definition ready_b (s : mm ptab) (t : Z) : bool :=
  tasks_b s && heap_ready_b s && forallb (owned_b s SIZEOF_TCB) (glist (global_tasks s)) && bool_decide (t ∈ glist (global_tasks s)).
Lemma ready_b_ok s t : ready_b s t = true -> ready s t.
Proof.
  intros [[[?%tasks_b_ok ?%heap_ready_b_ok]%andb_true_iff ?%all_owned_b_ok]%andb_true_iff ?%bool_decide_eq_true]%andb_true_iff. by split.
Qed.
Lemma fork_ready : ready with_pager pager_task. Proof. apply ready_b_ok. vm_compute. reflexivity. Qed.
Lemma fork_runs : sys_fork pager_task with_pager = Ret 1 with_child.
Proof. unfold with_child. apply returned_after. vm_compute. reflexivity. Qed.
Lemma clone_ready : ready with_child child_task. Proof. apply ready_b_ok. vm_compute. reflexivity. Qed.
Lemma clone_runs : sys_clone child_task 0x20000000 CLONE_VM with_child = Ret 1 with_grandchild.
Proof. unfold with_grandchild. apply returned_after. vm_compute. reflexivity. Qed.
Lemma exit_ready : ready with_grandchild child_task. Proof. apply ready_b_ok. vm_compute. reflexivity. Qed.
Lemma exit_parent : parent (tcbs with_grandchild child_task) <> child_task.
Proof. apply Z.eqb_neq. vm_compute. reflexivity. Qed.
Lemma exit_runs : do_exit child_task 0 with_grandchild = Ret tt without_child.
Proof. unfold without_child. apply returned_after. vm_compute. reflexivity. Qed.

Lemma pager_setup_task_plants_the_tree_witness : exists task, glist (global_tasks with_pager) = [task] /\ tasks_ok with_pager.
Proof.
  destruct setup_ready as (H1 & H2 & H3).
  destruct (pager_setup_task_plants_the_tree before_tasks with_pager _ _ _ _ H1 H2 H3 setup_runs) as (task & E1 & _ & _ & E4).
  exists task. exact (conj E1 E4).
Defined.
Lemma sys_fork_makes_a_task_witness : makes_task with_pager pager_task 1 with_child.
Proof.
  destruct fork_ready as [H1 H2 H3 H4]. exact (sys_fork_makes_a_task with_pager with_child pager_task 1 H1 H2 demo_errors H3 H4 fork_runs).
Defined.
(** A child of the child's, which shares its address space. *)
Lemma sys_clone_makes_a_task_witness : makes_task with_child child_task 1 with_grandchild.
Proof.
  destruct clone_ready as [H1 H2 H3 H4].
  exact (sys_clone_makes_a_task with_child with_grandchild child_task 0x20000000 CLONE_VM 1 H1 H2 demo_errors H3 H4 ltac:(discriminate) clone_runs).
Defined.
Lemma do_exit_hands_children_over_witness : adopted with_grandchild without_child child_task.
Proof.
  destruct exit_ready as [H1 _ _ H4]. exact (do_exit_hands_children_over with_grandchild without_child child_task 0 H1 H4 exit_parent exit_runs).
Defined.
