(* ===== verification/Elf.v ===== *)
(** Images: the pager's own mappings of [mm/memory.c], and the headers and
    segments of [lib/elf/elf.c]. *)
From S2P Require Import Prelude Bits Defs Words Malloc Pools PageAlloc Memfs Vm Shadow Pagecache Mmap Shm Forking Paths Vfs Tasks.

Definition ENOEXEC := 8.
Definition MAP_USR_DEFAULT := MAP_USR_RW.
Definition EI_CLASS := 4.
Definition EI_DATA := 5.
Definition EI_NIDENT := 16.
Definition ELFCLASS32 := 1.
Definition ELFDATA2LSB := 1.
Definition SHT_PROGBITS := 1.
Definition SHT_NOBITS := 8.
Definition SHF_WRITE := Z.shiftl 1 0.
Definition SHF_ALLOC := Z.shiftl 1 1.
Definition SIZEOF_SECTION_HEADER := 40.

(** * Headers, packed and little-endian *)

Definition get_u16 (m : bytes) (a : Z) : Z := m a + m (a + 1) * 2 ^ 8.
Record elf_header := MkElf {
  e_ident : list Z; e_type : Z; e_machine : Z; e_version : Z; e_entry : Z; e_phoff : Z; e_shoff : Z; e_flags : Z;
  e_ehsize : Z; e_phentsize : Z; e_phnum : Z; e_shentsize : Z; e_shnum : Z; e_shstrndx : Z }.
Definition elf_header_at (m : bytes) (a : Z) : elf_header :=
  MkElf (map (fun i => m (a + Z.of_nat i)) (seq 0 (Z.to_nat EI_NIDENT))) (get_u16 m (a + 16)) (get_u16 m (a + 18)) (get_u32 m (a + 20))
    (get_u32 m (a + 24)) (get_u32 m (a + 28)) (get_u32 m (a + 32)) (get_u32 m (a + 36)) (get_u16 m (a + 40)) (get_u16 m (a + 42))
    (get_u16 m (a + 44)) (get_u16 m (a + 46)) (get_u16 m (a + 48)) (get_u16 m (a + 50)).
Record elf_section_header := MkSect {
  sh_name : Z; sh_type : Z; sh_flags : Z; sh_addr : Z; sh_offset : Z; sh_size : Z; sh_link : Z; sh_info : Z;
  sh_addralign : Z; sh_entsize : Z }.
Definition section_at (m : bytes) (a : Z) : elf_section_header :=
  MkSect (get_u32 m a) (get_u32 m (a + 4)) (get_u32 m (a + 8)) (get_u32 m (a + 12)) (get_u32 m (a + 16)) (get_u32 m (a + 20))
    (get_u32 m (a + 24)) (get_u32 m (a + 28)) (get_u32 m (a + 32)) (get_u32 m (a + 36)).
Definition elf_probe (h : elf_header) : Z :=
  let i n := nth n (e_ident h) 0 in
  if (i 0%nat =? 0x7F) && (i 1%nat =? 69) && (i 2%nat =? 76) && (i 3%nat =? 70) &&
     (i (Z.to_nat EI_CLASS) =? ELFCLASS32) && (i (Z.to_nat EI_DATA) =? ELFDATA2LSB)
  then 0 else -1.

(** * Segments *)

Record exec_file_desc := MkEfd { text_offset : Z; data_offset : Z; bss_offset : Z }.
#[export] Instance exec_file_desc_shape : Shape exec_file_desc := fun e => MkEfd (text_offset e) (data_offset e) (bss_offset e).
(** What [start], [end] and [offset] point to. *)
Record mark := MkMark { m_start : Z; m_end : Z; m_offset : Z }.
#[export] Instance mark_shape : Shape mark := fun m => MkMark (m_start m) (m_end m) (m_offset m).
(** [None] is [BUG_ON]. *)
Definition elf_test_expand_segment (section : elf_section_header) (sec_type sec_flags sec_flmask : Z) (m : mark) : option mark :=
  if (sh_type section =? sec_type) && (Z.land (sh_flags section) sec_flmask =? sec_flags) then
    let end_ := u32 (sh_addr section + sh_size section) in
    if m_start m =? 0 then
      if negb (m_offset m =? 0) || negb (m_end m =? 0) then None
      else Some (MkMark (sh_addr section) end_ (sh_offset section))
    else if m_end m =? sh_addr section then Some (m <| m_end := end_ |>)
    else Some m
  else Some m.
Definition text_mark (x : segments * exec_file_desc) : mark := MkMark (text_start x.1) (text_end x.1) (text_offset x.2).
Definition data_mark (x : segments * exec_file_desc) : mark := MkMark (data_start x.1) (data_end x.1) (data_offset x.2).
Definition bss_mark (x : segments * exec_file_desc) : mark := MkMark (bss_start x.1) (bss_end x.1) (bss_offset x.2).
Definition with_marks (t d b : mark) (m : segments) : segments * exec_file_desc :=
  (m <| text_start := m_start t |> <| text_end := m_end t |> <| data_start := m_start d |> <| data_end := m_end d |>
     <| bss_start := m_start b |> <| bss_end := m_end b |>, MkEfd (m_offset t) (m_offset d) (m_offset b)).
Definition SHF_DATA := Z.lor SHF_ALLOC SHF_WRITE.
Definition mark_section (section : elf_section_header) (x : segments * exec_file_desc) : option (segments * exec_file_desc) :=
  t ← elf_test_expand_segment section SHT_PROGBITS SHF_ALLOC SHF_DATA (text_mark x);
  d ← elf_test_expand_segment section SHT_PROGBITS SHF_DATA SHF_DATA (data_mark x);
  b ← elf_test_expand_segment section SHT_NOBITS SHF_DATA SHF_DATA (bss_mark x);
  Some (with_marks t d b x.1).
Fixpoint mark_sections (l : list elf_section_header) (x : segments * exec_file_desc) : option (segments * exec_file_desc) :=
  match l with [] => Some x | section :: l => x ← mark_section section x; mark_sections l x end.
(** The tests for anomalies; the ones that only warn are left out. *)
Definition check_segments (m : segments) : Z :=
  if text_start m =? 0 then - ENOEXEC
  else if negb (is_page_aligned (data_start m) && (data_start m =? text_end m) || (page_align (text_end m) <? page_align (data_start m))) &&
          ((u32 (data_start m - text_end m) <? PAGE_SIZE) && negb (is_page_aligned (text_end m)))
  then - ENOEXEC
  else 0.

Section Elf.
Context {K : Type} `{kernel_abi K} `{layout}.
Abbreviation M := (prog (mm K)).

Definition elf_mark_segments (sects : list elf_section_header) (task : Z) (efd : exec_file_desc) : M (Z * exec_file_desc) :=
  m ← gets (fun s => marks (tcbs s task));
  x ← or_bug (mark_sections sects (m, efd)) "elf_test_expand_segment";
  tmod task (fun t => t <| marks := x.1 |>) ;;
  mret (check_segments x.1, x.2).

(** * The pager's own mappings ([mm/memory.c]) *)

Definition pager_address_pool_init (start end_ : Z) : M Z :=
  modify (fun s => s <| pager_vaddr_pool := address_pool_init_with_idpool (MkPool 2048 (2048 * 32) (replicate 2048 0)) start end_ |>) ;;
  mret 0.
Definition pager_new_address (npages : Z) : M Z := fun s =>
  match address_new (pager_vaddr_pool s) npages with
  | None => OutOfFuel
  | Some (a, p) => Ret a (s <| pager_vaddr_pool := p |>)
  end.
Definition pager_delete_address (virt_addr npages : Z) : M Z := fun s =>
  let '(r, p) := address_del (pager_vaddr_pool s) virt_addr npages in Ret r (s <| pager_vaddr_pool := p |>).
(** That there are no addresses is not tested for. *)
Definition l4_map_helper (phys npages : Z) : M Z :=
  virt ← pager_new_address npages;
  err ← l4_map phys virt npages MAP_USR_DEFAULT self_tid;
  mret (if err <? 0 then PTR_ERR err else virt).
Definition l4_unmap_helper (virt npages : Z) : M unit :=
  l4_unmap virt npages self_tid ;; pager_delete_address virt npages ;; mret tt.

(** A pointer and the frames behind it, from its page on. *)
Record mapping := MkMapping { m_at : Z; frames : list Z }.
(** The byte at the pager's virtual address [a] of a mapping, for [m] the bytes
    of the frames. *)
Definition mapped_byte (d : Z -> bytes) (m : mapping) (a : Z) : Z :=
  let off := a - page_align (m_at m) in d (nth (Z.to_nat (off / PAGE_SIZE)) (frames m) 0) (off mod PAGE_SIZE).
Definition wild (p : Z) : bool := (p =? 0) || IS_ERR p.

Definition pager_map_page (f page_offset : Z) : M mapping :=
  err ← read_file_pages f page_offset (page_offset + 1);
  if err <? 0 then mret (MkMapping (PTR_ERR err) [])
  else
    p ← find_page (vm_obj f) page_offset;
    match p with
    | Some p => a ← l4_map_helper (page_to_phys p) 1; mret (MkMapping a [p])
    | None => mret (MkMapping 0 [])
    end.
Definition pager_unmap_page (addr : Z) : M unit := l4_unmap_helper addr 1.
(** Pages [page_offset] on of file [f] at [addr]. *)
Fixpoint map_file_pages (n : nat) (f page_offset addr : Z) : M (list Z) :=
  match n with
  | O => mret []
  | S n =>
      p ← find_page (vm_obj f) page_offset;
      match p with
      | None => bug "pager_map_pages"
      | Some p =>
          l4_map (page_to_phys p) addr 1 MAP_USR_RW self_tid ;;
          l ← map_file_pages n f (page_offset + 1) (u32 (addr + PAGE_SIZE));
          mret (p :: l)
      end
  end.
Definition pager_map_pages (f page_offset npages : Z) : M mapping :=
  err ← read_file_pages f page_offset (page_offset + npages);
  if err <? 0 then mret (MkMapping (PTR_ERR err) [])
  else
    addr_start ← pager_new_address npages;
    if addr_start =? 0 then mret (MkMapping (PTR_ERR (- ENOMEM)) [])
    else l ← map_file_pages (Z.to_nat npages) f page_offset addr_start; mret (MkMapping addr_start l).
Definition pager_unmap_pages (addr npages : Z) : M unit :=
  l4_unmap_helper (if is_page_aligned addr then addr else page_align addr) npages.
Definition pager_map_file_range (f byte_offset size : Z) : M mapping :=
  let mapsize := u32 (Z.land byte_offset PAGE_MASK + size) in
  m ← pager_map_pages f (__pfn byte_offset) (__pfn (page_align_up mapsize));
  mret (MkMapping (Z.lor (m_at m) (Z.land PAGE_MASK byte_offset)) (frames m)).

(** The pages of a user's range from [addr] on at [virt]: their frames, or the
    first page that is refused. *)
Fixpoint map_user_pages (n : nat) (user addr virt vm_flags : Z) : M (list Z * option (Z * Z)) :=
  match n with
  | O => mret ([], None)
  | S n =>
      p ← task_prefault_page user addr vm_flags;
      match p with
      | PageErr e => mret ([], Some (e, addr))
      | Page p =>
          l4_map (page_to_phys p) virt 1 MAP_USR_RW self_tid ;;
          r ← map_user_pages n user (addr + PAGE_SIZE) (u32 (virt + PAGE_SIZE)) vm_flags;
          mret (p :: r.1, r.2)
      end
  end.
Definition pager_validate_map_user_range2 (user userptr size vm_flags : Z) : M mapping :=
  let start := page_align userptr in
  let end_ := page_align_up (u32 (userptr + size)) in
  let npages := __pfn (u32 (end_ - start)) in
  ok ← pager_validate_user_range user userptr size vm_flags;
  if ok <? 0 then mret (MkMapping 0 [])
  else
    virt_start ← pager_new_address npages;
    if virt_start =? 0 then mret (MkMapping (PTR_ERR (- ENOMEM)) [])
    else
      r ← map_user_pages (Z.to_nat ((end_ - start) / PAGE_SIZE)) user start virt_start vm_flags;
      match r.2 with
      | Some (e, addr) =>
          l4_unmap_helper virt_start (__pfn (addr - start)) ;;
          pager_delete_address virt_start npages ;;
          mret (MkMapping (PTR_ERR e) [])
      | None => mret (MkMapping (Z.lor virt_start (Z.land PAGE_MASK userptr)) r.1)
      end.

(** * Reading an image *)

(** The [n] section headers of the table at [m_at m]; headers behind the pages
    that were mapped are not modelled. *)
Definition read_sections (m : mapping) (n : Z) : M (list elf_section_header) :=
  let off := Z.land (m_at m) PAGE_MASK in
  if n =? 0 then mret []
  else
    bug_on (wild (m_at m) || (PAGE_SIZE * Z.of_nat (length (frames m)) <? off + SIZEOF_SECTION_HEADER * n)) "elf_mark_segments: wild section" ;;
    d ← gets pdata;
    mret (map (fun i => section_at (mapped_byte d m) (m_at m + SIZEOF_SECTION_HEADER * Z.of_nat i)) (seq 0 (Z.to_nat n))).
(** The page of the header stays mapped when it is not that of an ELF file. *)
Definition elf_parse_executable (task file : Z) (efd : exec_file_desc) : M (Z * exec_file_desc) :=
  hm ← pager_map_page file 0;
  bug_on (wild (m_at hm)) "elf_probe: wild header" ;;
  d ← gets pdata;
  let h := elf_header_at (mapped_byte d hm) (m_at hm) in
  let err := elf_probe h in
  if err <? 0 then mret (err, efd)
  else
    pager_unmap_page (m_at hm) ;;
    let sect_size := u32 (e_shentsize h * e_shnum h) in
    let prg_size := u32 (e_phentsize h * e_phnum h) in
    prg ← pager_map_file_range file (e_phoff h) prg_size;
    sect ← pager_map_file_range file (e_shoff h) sect_size;
    l ← read_sections sect (e_shnum h);
    r ← elf_mark_segments l task efd;
    pager_unmap_pages (m_at prg) (__pfn (page_align_up prg_size)) ;;
    pager_unmap_pages (m_at sect) (__pfn (page_align_up sect_size)) ;;
    mret r.
End Elf.
