(* ===== verification/Execve.v ===== *)
(** Execution: memory maps of images and the first stack of [mm/task.c], arguments
    of [mm/user.c], and [execve] of [mm/execve.c]. *)
From S2P Require Import Prelude Bits Defs Words Malloc Pools PageAlloc Memfs Vm Shadow Pagecache Mmap Shm Forking Paths Vfs Tasks Elf.

Definition O_RDONLY := 0.
Definition DEFAULT_ENV_SIZE := 0x1000.
Definition ARGS_MAX := DEFAULT_ENV_SIZE.
Definition PATH_MAX := PAGE_SIZE.
Definition DEFAULT_STACK_SIZE := 0x8000.

(** [argv] is the buffer that holds the pointers and the strings; [strings] is
    what the pointers lead to. *)
Record args_struct := MkArgs { argc : Z; argv : Z; strings : list (list Z); args_size : Z }.
Definition no_args : args_struct := MkArgs 0 0 [] 0.

(** * The first stack *)

Definition put_u32 (a x : Z) (b : bytes) : bytes := put_bytes (le_bytes 4 x) a b.
(** The strings [l] one after the other from [at_] on, with the pointers to them
    from [table] on. *)
Fixpoint copy_strings (l : list (list Z)) (table at_ user_ptr : Z) (b : bytes) : bytes * Z :=
  match l with
  | [] => (b, at_)
  | x :: l =>
      let b := strcpy x b at_ in
      let b := put_u32 table (Z.lor (Z.land user_ptr (lnot32 PAGE_MASK)) (Z.land at_ PAGE_MASK)) b in
      copy_strings l (table + 4) (at_ + Z.of_nat (length x) + 1) user_ptr b
  end.
Definition args_to_user (user_stack user_ptr : Z) (args env : args_struct) (b : bytes) : bytes :=
  let b := put_u32 user_stack (argc args) b in
  let argv_start := user_stack + 4 in
  let b := put_u32 (argv_start + 4 * argc args) 0 b in
  let envp_start := argv_start + 4 * argc args + 4 in
  let b := put_u32 (envp_start + 4 * argc env) 0 b in
  let '(b, at_) := copy_strings (strings args) argv_start (envp_start + 4 * argc env + 4) user_ptr b in
  (copy_strings (strings env) envp_start at_ user_ptr b).1.

Section Execve.
Context {K : Type} `{kernel_abi K} `{layout}.
Abbreviation M := (prog (mm K)).

(** The bytes [b], by the pager's virtual address, back to the pages of a mapping. *)
Fixpoint put_frames (l : list Z) (virt : Z) (b : bytes) : M unit :=
  match l with
  | [] => mret tt
  | p :: l => put_data p (fun i => b (virt + i)) ;; put_frames l (virt + PAGE_SIZE) b
  end.
Definition task_copy_args_to_user (user_stack : mapping) (user_ptr : Z) (args env : args_struct) : M Z :=
  bug_on (negb (is_aligned (m_at user_stack) 8)) "task_copy_args_to_user" ;;
  bug_on (wild (m_at user_stack)) "task_copy_args_to_user: wild stack" ;;
  d ← gets pdata;
  put_frames (frames user_stack) (page_align (m_at user_stack))
    (args_to_user (m_at user_stack) user_ptr args env (mapped_byte d user_stack)) ;;
  mret 0.
Fixpoint prefault_pages (n : nat) (task i vm_flags : Z) : M Z :=
  match n with
  | O => mret 0
  | S n =>
      p ← task_prefault_page task i vm_flags;
      match p with PageErr e => mret e | Page _ => prefault_pages n task (i + PAGE_SIZE) vm_flags end
  end.
Definition task_prefault_range (task start size vm_flags : Z) : M Z :=
  prefault_pages (Z.to_nat ((size + PAGE_SIZE - 1) / PAGE_SIZE)) task start vm_flags.
Definition task_map_stack (task : Z) (args env : args_struct) : M Z :=
  let stack_used := align_up (u32 (args_size args + args_size env + 4 * 3 + 8)) 8 in
  let arg_pages := __pfn (page_align_up stack_used) in
  let top := __pfn_to_addr task_pfns.2 in
  tmod task (fun t => t <| marks ::= fun m =>
    m <| stack_end := top |> <| stack_start := u32 (top - DEFAULT_STACK_SIZE) |>
      <| args_end := top |> <| args_start := u32 (top - stack_used) |> |>) ;;
  bug_on (DEFAULT_STACK_SIZE <? stack_used) "task_map_stack" ;;
  m ← gets (fun s => marks (tcbs s task));
  mapped ← do_mmap 0 0 task (stack_start m)
    (Z.lor VM_READ (Z.lor VM_WRITE (Z.lor VMA_PRIVATE VMA_ANONYMOUS))) (__pfn (u32 (stack_end m - stack_start m)));
  if IS_ERR mapped then mret (s32 mapped)
  else
    args_on_stack ← pager_validate_map_user_range2 task (args_start m) stack_used (Z.lor VM_READ VM_WRITE);
    if IS_ERR (m_at args_on_stack) then mret (s32 (m_at args_on_stack))
    else
      task_copy_args_to_user args_on_stack (args_start m) args env ;;
      pager_unmap_pages (m_at args_on_stack) arg_pages ;;
      mret 0.

(** * Segments *)

(** The rest of the last page of data, which is where the bss starts; where the
    bss that is to be mapped starts. *)
Definition clear_bss_head (task : Z) (m : segments) : M Z :=
  if (data_end m =? bss_start m) && negb (is_page_aligned (bss_start m)) then
    let bss_size := u32 (bss_end m - bss_start m) in
    p ← task_prefault_page task (data_end m) (Z.lor VM_READ VM_WRITE);
    match p with
    | PageErr _ => bug "task_map_bss: wild page"
    | Page p =>
        pagebuf ← l4_map_helper (page_to_phys p) 1;
        bug_on (wild pagebuf) "task_map_bss: wild buffer" ;;
        d ← gets (fun s => pdata s p);
        put_data p (copy_bytes d zero_page (Z.land PAGE_MASK (bss_start m)) 0 (Z.min (TILL_PAGE_ENDS (data_end m)) bss_size)) ;;
        l4_unmap_helper pagebuf 1 ;;
        mret (page_align_up (bss_start m))
    end
  else mret (bss_start m).
Definition task_map_bss (task : Z) : M Z :=
  m ← gets (fun s => marks (tcbs s task));
  bss_mmap_start ← clear_bss_head task m;
  if bss_mmap_start <? bss_end m then
    mapped ← do_mmap 0 0 task bss_mmap_start (Z.lor VM_READ (Z.lor VM_WRITE (Z.lor VMA_PRIVATE VMA_ANONYMOUS)))
      (__pfn (u32 (page_align_up (bss_end m) - page_align (bss_start m))));
    mret (if IS_ERR mapped then s32 mapped else 0)
  else mret 0.
(** What is not mapped by the first error. *)
Definition map_segments (task file : Z) (efd : exec_file_desc) (args env : args_struct) : M Z :=
  m ← gets (fun s => marks (tcbs s task));
  let text_size := __pfn (u32 (page_align_up (text_end m) - page_align (text_start m))) in
  let data_size := __pfn (u32 (page_align_up (data_end m) - page_align (data_start m))) in
  mapped ← do_mmap file (text_offset efd) task (text_start m) (Z.lor VM_READ (Z.lor VM_WRITE (Z.lor VM_EXEC VMA_PRIVATE))) text_size;
  if IS_ERR mapped then mret (s32 mapped)
  else
    mapped ← do_mmap file (data_offset efd) task (data_start m) (Z.lor VM_READ (Z.lor VM_WRITE VMA_PRIVATE)) data_size;
    if IS_ERR mapped then mret (s32 mapped)
    else
      err ← task_map_bss task;
      if err <? 0 then mret err
      else
        err ← task_map_stack task args env;
        if err <? 0 then mret err else task_setup_utcb task.
Definition task_mmap_segments (task file : Z) (efd : exec_file_desc) (args env : args_struct) : M Z :=
  tmod task (fun t => t <| tstart := __pfn_to_addr task_pfns.1 |> <| tend := __pfn_to_addr task_pfns.2 |>
                        <| map_start := __pfn_to_addr task_pfns.1 |> <| map_end := __pfn_to_addr task_pfns.2 |>) ;;
  err ← map_segments task file efd args env;
  if err <? 0 then task_free_resources task ;; mret err else mret 0.

(** * Arguments ([mm/user.c]) *)

(** The strings at the user's pointers, and the bytes of the buffer used. *)
Fixpoint copy_arg_strings (task : Z) (l : list Z) (args_max used : Z) : M (Z * list (list Z) * Z) :=
  match l with
  | [] => mret (0, [], used)
  | p :: l =>
      r ← copy_user_string task zero_page p (args_max - used);
      if r.1 <? 0 then mret (r.1, [], used)
      else
        x ← copy_arg_strings task l args_max (used + r.1);
        mret (x.1.1, cstring (Z.to_nat r.1) r.2 0 :: x.1.2, x.2)
  end.
(** More pointers than fit into the buffer run over its end. *)
Definition copy_user_args (task argv_user args_max : Z) : M (Z * args_struct) :=
  argsbuf ← kzalloc args_max;
  r ← copy_user_ptrs task zero_page argv_user args_max;
  if r.1 <? 0 then kfree argsbuf ;; mret (r.1, no_args)
  else
    bug_on (args_max <? r.1 * 4) "copy_user_args: end of the buffer" ;;
    let argc := r.1 - 1 in
    x ← copy_arg_strings task (map (fun i => get_u32 r.2 (4 * Z.of_nat i)) (seq 0 (Z.to_nat argc))) args_max (r.1 * 4);
    if x.1.1 <? 0 then kfree argsbuf ;; mret (x.1.1, no_args)
    else mret (0, MkArgs argc argsbuf x.1.2 x.2).

(** * [execve] ([mm/execve.c]) *)

Definition task_setup_from_executable (vmfile task : Z) : M (Z * exec_file_desc) :=
  elf_parse_executable task vmfile (MkEfd 0 0 0).
(** [sys_open] of the pager itself. *)
Definition open_image (filename : list Z) : M (Z * Z * Z) :=
  self ← find_task self_tid;
  bug_on (self =? 0) "do_execve: null pager" ;;
  fd ← sys_open self filename O_RDONLY 0;
  f ← (if fd <? 0 then mret 0 else d ← get_fd self fd; mret (vmfile d));
  mret (self, fd, f).
(** [exit] takes a child off the list that the loop over the children goes
    through, whose next step is from the freed task. *)
Definition exit_children (tgleader : Z) : M unit :=
  l ← gets (fun s => children (tcbs s tgleader));
  match l with
  | [] => mret tt
  | thread :: _ => do_exit thread 0 ;; bug "do_execve: freed task"
  end.
Definition thread_group_leader (sender : Z) : M Z :=
  t ← gets (fun s => tcbs s sender);
  if flag_set (clone_flags t) TCB_SHARED_TGROUP then
    tgleader ← find_task (tgid t);
    bug_on (tgleader =? 0) "do_execve: leader" ;;
    exit_children tgleader ;;
    mret tgleader
  else mret sender.
(** An image that was opened stays open, except when there is an error. *)
Definition abandon (self fd new_task err : Z) : M Z :=
  sys_close self fd ;; kfree new_task ;; mret err.
Definition launch (stack : exregs_data) (new_task : Z) : M Z :=
  t ← gets (fun s => tcbs s new_task);
  task_setup_registers stack new_task 0 (args_start (marks t)) (tpagerid t) ;;
  global_add_task new_task ;;
  task_start new_task ;;
  mret 0.
Definition do_execve (stack : exregs_data) (sender : Z) (filename : list Z) (args env : args_struct) : M Z :=
  r ← open_image filename;
  let '(self, fd, vmfile) := r in
  if fd <? 0 then mret fd
  else
    new_task ← tcb_alloc_init TCB_NO_SHARING;
    if IS_ERR new_task then sys_close self fd ;; mret (s32 new_task)
    else
      e ← task_setup_from_executable vmfile new_task;
      if e.1 <? 0 then abandon self fd new_task e.1
      else
        tgleader ← thread_group_leader sender;
        err ← execve_recycle_task new_task tgleader;
        if err <? 0 then abandon self fd new_task err
        else
          err ← task_mmap_segments new_task vmfile e.2 args env;
          if err <? 0 then abandon self fd new_task err
          else launch stack new_task.
(** [name] and [argv] and [envp] are the user's pointers. *)
Definition sys_execve (stack : exregs_data) (sender pathname argv_ envp : Z) : M Z :=
  path ← kzalloc PATH_MAX;
  if path =? 0 then mret (- ENOMEM)
  else
    r ← copy_user_string sender zero_page pathname PATH_MAX;
    if r.1 <? 0 then mret r.1
    else
      a ← (if argv_ =? 0 then mret (0, no_args) else copy_user_args sender argv_ ARGS_MAX);
      if a.1 <? 0 then kfree path ;; mret a.1
      else
        e ← (if envp =? 0 then mret (0, no_args) else copy_user_args sender envp (ARGS_MAX - args_size a.2));
        ret ← (if e.1 <? 0 then mret e.1
               else
                 ret ← do_execve stack sender (cstring (Z.to_nat PATH_MAX) r.2 0) a.2 e.2;
                 when (negb (argv e.2 =? 0)) (kfree (argv e.2)) ;;
                 mret ret);
        when (negb (argv a.2 =? 0)) (kfree (argv a.2)) ;;
        kfree path ;;
        mret ret.

(** The characters of a number, as [sprintf] writes it. *)
Fixpoint decimal (n : nat) (x : Z) (l : list Z) : list Z :=
  match n with O => l | S n => let l := (48 + x mod 10) :: l in if x / 10 =? 0 then l else decimal n (x / 10) l end.
Definition pagerid_string : list Z := [112; 97; 103; 101; 114; 105; 100; 61] ++ decimal 10 self_tid [].
Definition init_execve (stack : exregs_data) (filepath : list Z) : M Z :=
  let args := MkArgs 1 0 [filepath] (4 * 1 + Z.of_nat (length filepath) + 1) in
  let env := MkArgs 1 0 [pagerid_string] (4 + Z.of_nat (length pagerid_string) + 1) in
  r ← open_image filepath;
  let '(self, fd, vmfile) := r in
  bug_on (fd <? 0) "init_execve" ;;
  t ← task_create 0 (MkIds TASK_ID_INVALID TASK_ID_INVALID TASK_ID_INVALID) TCB_NO_SHARING TC_NEW_SPACE;
  let new_task := t.1 in
  if IS_ERR new_task then sys_close self fd ;; mret (s32 new_task)
  else
    e ← task_setup_from_executable vmfile new_task;
    if e.1 <? 0 then abandon self fd new_task e.1
    else
      err ← task_mmap_segments new_task vmfile e.2 args env;
      if err <? 0 then abandon self fd new_task err
      else launch stack new_task.
End Execve.
