(* ===== verification/Serve.v ===== *)
(** The pager's loop: one request, as [handle_requests] of [mm0/main.c] serves it. *)
From S2P Require Import Prelude Bits Defs Words Malloc Pools PageAlloc Memfs Vm Shadow Pagecache Mmap Shm Forking Paths Vfs Tasks Elf Execve.

Definition L4_IPC_TAG_SYNC_FULL := 4.
Definition L4_IPC_TAG_SYNC := 5.
Definition L4_IPC_TAG_SHMGET := 6.
Definition L4_IPC_TAG_SHMAT := 7.
Definition L4_IPC_TAG_SHMDT := 8.
Definition L4_IPC_TAG_MMAP := 9.
Definition L4_IPC_TAG_MUNMAP := 10.
Definition L4_IPC_TAG_MSYNC := 11.
Definition L4_IPC_TAG_OPEN := 12.
Definition L4_IPC_TAG_READ := 13.
Definition L4_IPC_TAG_WRITE := 14.
Definition L4_IPC_TAG_LSEEK := 15.
Definition L4_IPC_TAG_CLOSE := 16.
Definition L4_IPC_TAG_READDIR := 18.
Definition L4_IPC_TAG_MKDIR := 19.
Definition L4_IPC_TAG_EXECVE := 20.
Definition L4_IPC_TAG_CHDIR := 21.
Definition L4_IPC_TAG_FORK := 22.
Definition L4_IPC_TAG_FSYNC := 25.
Definition L4_IPC_TAG_CLONE := 26.
Definition L4_IPC_TAG_EXIT := 27.
Definition MR_UNUSED_TOTAL := 4.
Definition SIZEOF_SYS_MMAP_ARGS := 24.

(** A message as it arrives: what [l4_receive] returned, tag and sender, the
    registers that syslib does not use, and the string in the utcb. *)
Record request := MkRequest { q_received : Z; q_tag : Z; q_sender : Z; q_mr : Z -> Z; q_utcb : list Z }.
(** What the pager answers: nothing, a result, a result with a buffer and
    whether it is an error, or an empty message of full length. *)
Inductive reply := NoReply | Return (ret : Z) | Extended (ret : Z) (buf : bytes) (is_error : bool) | FullSync (sender : Z).

Section Serve.
Context {K : Type} `{kernel_abi K} `{layout}.
Abbreviation M := (prog (mm K)).

(** [mm/mmap.c]; the structure is read from the frame of the user's page. *)
Definition sys_mmap (task args : Z) : M Z :=
  m ← pager_get_user_page task args SIZEOF_SYS_MMAP_ARGS (Z.lor VM_READ VM_WRITE);
  match m with
  | None => mret (PTR_ERR (- EINVAL))
  | Some (p, off) =>
      d ← gets (fun s => pdata s p);
      let w i := get_u32 d (off + 4 * i) in
      __sys_mmap task (w 0) (w 1) (s32 (w 2)) (s32 (w 3)) (s32 (w 4)) (w 5)
  end.
(** [stack] and [dirbuf] are what uninitialised variables hold.  The check of
    the areas that [L4_IPC_TAG_SYNC] asks for is a test of the pager's own. *)
Definition dispatch (stack : exregs_data) (dirbuf : bytes) (q : request) (sender : Z) : M reply :=
  let mr := q_mr q in
  let i k := s32 (mr k) in
  let ret (m : M Z) : M reply := r ← m; mret (Return r) in
  let tag := q_tag q in
  if tag =? L4_IPC_TAG_SYNC_FULL then mret (FullSync (q_sender q))
  else if tag =? L4_IPC_TAG_SYNC then mret NoReply
  else if tag =? L4_IPC_TAG_UNDEF_FAULT then mret (Return 0)
  else if tag =? L4_IPC_TAG_PFAULT then ret (page_fault_handler sender (mr 0) (mr 1) (mr 2) (mr 3) ;; mret 0)
  else if tag =? L4_IPC_TAG_SHMGET then ret (sys_shmget (i 0) (i 1) (i 2))
  else if tag =? L4_IPC_TAG_SHMAT then ret (a ← sys_shmat sender (i 0) (mr 1) (i 2); mret (s32 a))
  else if tag =? L4_IPC_TAG_SHMDT then ret (sys_shmdt sender (mr 0))
  else if tag =? L4_IPC_TAG_READ then ret (sys_read sender (i 0) (mr 1) (i 2))
  else if tag =? L4_IPC_TAG_WRITE then ret (sys_write sender (i 0) (mr 1) (i 2))
  else if tag =? L4_IPC_TAG_CLOSE then ret (sys_close sender (i 0))
  else if tag =? L4_IPC_TAG_FSYNC then ret (sys_fsync sender (i 0))
  else if tag =? L4_IPC_TAG_LSEEK then ret (sys_lseek sender (i 0) (i 1) (i 2))
  else if tag =? L4_IPC_TAG_MMAP then ret (a ← sys_mmap sender (mr 0); mret (s32 a))
  else if tag =? L4_IPC_TAG_MUNMAP then ret (sys_munmap sender (mr 0) (mr 1))
  else if tag =? L4_IPC_TAG_MSYNC then ret (sys_msync sender (mr 0) (mr 1))
  else if tag =? L4_IPC_TAG_FORK then ret (sys_fork sender)
  else if tag =? L4_IPC_TAG_CLONE then ret (sys_clone sender (mr 0) (mr 1))
  else if tag =? L4_IPC_TAG_EXIT then sys_exit sender (i 0) ;; mret NoReply
  else if tag =? L4_IPC_TAG_EXECVE then
    r ← sys_execve stack sender (mr 0) (mr 1) (mr 2); mret (if r <? 0 then Return r else NoReply)
  else if tag =? L4_IPC_TAG_OPEN then ret (sys_open sender (q_utcb q) (i 0) (mr 1))
  else if tag =? L4_IPC_TAG_MKDIR then ret (sys_mkdir sender (q_utcb q) (mr 0))
  else if tag =? L4_IPC_TAG_CHDIR then ret (sys_chdir sender (q_utcb q))
  else if tag =? L4_IPC_TAG_READDIR then
    r ← sys_readdir sender (i 0) (i 1) dirbuf; mret (Extended r.1 r.2 (r.1 <? 0))
  else mret (Return (q_received q)).
Definition handle_requests (stack : exregs_data) (dirbuf : bytes) (q : request) : M reply :=
  bug_on (q_received q <? 0) "handle_requests" ;;
  sender ← find_task (q_sender q);
  if sender =? 0 then mret (Return (- ESRCH)) else dispatch stack dirbuf q sender.
End Serve.
