(* ===== verification/Loading.v ===== *)
(** Loading of programs: what the first stack holds, the segments that an image
    gets, and the place of a program that [execve] replaces. *)
From S2P Require Import Prelude Bits Defs Words Malloc Pools PageAlloc Memfs Vm Shadow Pagecache Mmap Shm Forking Mmdemo Paths Vfs Names Tasks Family Elf Execve.

(** * Words and strings in memory *)

Lemma put_bytes_other l : forall a b i, i < a \/ a + Z.of_nat (length l) <= i -> put_bytes l a b i = b i.
Proof.
  induction l as [|x l IH]; intros a b i Hi; cbn [put_bytes length] in *; [done|]. rewrite IH by lia. apply fn_lookup_insert_ne. lia.
Qed.
Lemma put_u32_other a x b i : i < a \/ a + 4 <= i -> put_u32 a x b i = b i.
Proof. intros Hi. apply put_bytes_other. exact Hi. Qed.
Lemma byte_of x k : 0 <= k -> Z.land (Z.shiftr x k) 0xFF = x / 2 ^ k mod 2 ^ 8.
Proof. intros Hk. change 0xFF with (Z.ones 8). by rewrite Z.land_ones, Z.shiftr_div_pow2 by lia. Qed.
Lemma get_put_u32 a x b : is_u32 x -> get_u32 (put_u32 a x b) a = x.
Proof.
  intros Hx. unfold is_u32 in Hx. unfold put_u32, get_u32, le_bytes. cbn [seq map put_bytes]. rewrite !byte_of by lia.
  unfold insert, fn_insert. repeat first [rewrite decide_False by lia|rewrite decide_True by lia].
  change (2 ^ (8 * Z.of_nat 0)) with 1. change (8 * Z.of_nat 1) with 8. change (8 * Z.of_nat 2) with 16. change (8 * Z.of_nat 3) with 24.
  rewrite Z.div_1_r. change (2 ^ 24) with (2 ^ 8 * 2 ^ 16). change (2 ^ 16) with (2 ^ 8 * 2 ^ 8). rewrite <- !Z.div_div by lia.
  change (2 ^ 32) with (2 ^ 8 * (2 ^ 8 * (2 ^ 8 * 2 ^ 8))) in Hx. change (2 ^ 8) with 256 in *. clear b.
  pose proof (Z.div_mod x 256 ltac:(done)) as E1. pose proof (Z.div_mod (x / 256) 256 ltac:(done)) as E2.
  pose proof (Z.div_mod (x / 256 / 256) 256 ltac:(done)) as E3.
  rewrite (Z.mod_small (x / 256 / 256 / 256)) by (rewrite !Z.div_div by done; split; [apply Z.div_pos|apply Z.div_lt_upper_bound]; lia).
  lia.
Qed.
Lemma get_u32_same a b b' : (forall i, a <= i < a + 4 -> b' i = b i) -> get_u32 b' a = get_u32 b a.
Proof. intros Hb. unfold get_u32. rewrite !Hb by lia. done. Qed.
Lemma strcpy_other l : forall a b i, i < a \/ a + Z.of_nat (length l) < i -> strcpy l b a i = b i.
Proof.
  induction l as [|c l IH]; intros a b i Hi; cbn [strcpy length] in *; rewrite fn_lookup_insert_ne by lia; [done|]. apply IH. lia.
Qed.

(** * The strings of the first stack *)

Definition nonzero (l : list Z) : Prop := Forall (fun c => c <> 0) l.
(** The pointer that is written for a string at [at_]. *)
Definition pointer (user_ptr at_ : Z) : Z := Z.lor (Z.land user_ptr (lnot32 PAGE_MASK)) (Z.land at_ PAGE_MASK).
Fixpoint strings_end (at_ : Z) (l : list (list Z)) : Z :=
  match l with [] => at_ | x :: l => strings_end (at_ + Z.of_nat (length x) + 1) l end.
Fixpoint strings_at (b : bytes) (user_ptr : Z) (l : list (list Z)) (table at_ : Z) : Prop :=
  match l with
  | [] => True
  | x :: l => get_u32 b table = pointer user_ptr at_ /\ holds b at_ x /\
      strings_at b user_ptr l (table + 4) (at_ + Z.of_nat (length x) + 1)
  end.
Lemma strings_end_le l : forall a, a <= strings_end a l.
Proof. induction l as [|x l IH]; intros a; cbn; [lia|]. specialize (IH (a + Z.of_nat (length x) + 1)). lia. Qed.
Lemma pointer_split u a : is_u32 u -> 0 <= a -> pointer u a = u / PAGE_SIZE * PAGE_SIZE + a mod PAGE_SIZE /\ is_u32 (pointer u a).
Proof.
  intros Hu Ha. unfold pointer. pose proof (page_align_floor u Hu) as E. unfold page_align in E. rewrite E.
  change PAGE_MASK with (2 ^ 12 - 1). rewrite land_ones_mod by done. change (2 ^ 12) with PAGE_SIZE. pose proof (Z.mod_pos_bound a PAGE_SIZE ltac:(done)).
  rewrite (lor_low _ _ 12) by (try apply Z.mod_mul; done). split; [done|]. unfold is_u32 in *. change PAGE_SIZE with 4096 in *. Z.to_euclidean_division_equations. lia.
Qed.
Lemma copy_strings_ok l : forall table at_ u b, is_u32 u -> Forall nonzero l -> 0 <= table -> table + 4 * Z.of_nat (length l) <= at_ ->
  let r := copy_strings l table at_ u b in
  r.2 = strings_end at_ l /\ strings_at r.1 u l table at_ /\
  forall i, i < table \/ table + 4 * Z.of_nat (length l) <= i < at_ \/ strings_end at_ l <= i -> r.1 i = b i.
Proof.
  induction l as [|x l IH]; intros table at_ u b Hu Hl Ht Hat; cbn [copy_strings strings_end strings_at length] in *; [done|].
  apply Forall_cons in Hl as [Hx Hl]. set (b1 := strcpy x b at_). set (b2 := put_u32 table _ b1). set (at2 := at_ + Z.of_nat (length x) + 1).
  destruct (IH (table + 4) at2 u b2 Hu Hl ltac:(lia) ltac:(lia)) as (E1 & E2 & E3). pose proof (strings_end_le l at2) as Hend.
  split; [done|]. split; [split_and!; [| |done]|].
  - rewrite (get_u32_same table b2) by (intros i Hi; apply E3; lia). apply get_put_u32. by apply pointer_split; [|lia].
  - apply (holds_same _ _ b2); [apply (holds_same _ _ b1); [by apply strcpy_holds|]|]; intros i Hi; [apply put_u32_other; lia|apply E3; lia].
  - intros i Hi. rewrite E3 by lia. unfold b2. rewrite put_u32_other by lia. apply strcpy_other. lia.
Qed.

(** What the program finds: the strings that the [n] pointers from [table] on
    lead to. *)
Definition read_strings (b : bytes) (n table : Z) : list (list Z) :=
  map (fun i => cstring (Z.to_nat PAGE_SIZE) b (get_u32 b (table + 4 * Z.of_nat i))) (seq 0 (Z.to_nat n)).
Lemma read_strings_ok b u l : forall table at_, is_u32 u -> strings_at b u l table at_ ->
  0 <= at_ -> u / PAGE_SIZE * PAGE_SIZE <= at_ -> strings_end at_ l <= u / PAGE_SIZE * PAGE_SIZE + PAGE_SIZE ->
  read_strings b (Z.of_nat (length l)) table = l.
Proof.
  unfold read_strings. induction l as [|x l IH]; intros table at_ Hu Hs H0 Hlo Hhi; cbn [strings_at strings_end length] in *; [done|].
  destruct Hs as (Ep & Hx & Hs). pose proof (strings_end_le l (at_ + Z.of_nat (length x) + 1)) as Hend. rewrite Nat2Z.id. cbn [seq map]. f_equal.
  - rewrite Z.add_0_r, Ep. assert (pointer u at_ = at_) as ->.
    { destruct (pointer_split u at_ Hu H0) as [-> _]. change PAGE_SIZE with 4096 in *. Z.to_euclidean_division_equations. lia. }
    apply holds_cstring; [done|]. change PAGE_SIZE with 4096 in *. lia.
  - rewrite <- (IH (table + 4) _ Hu Hs) at 2 by lia. rewrite Nat2Z.id, <- seq_shift, map_map. apply map_ext. intros i. by replace (table + 4 * Z.of_nat (S i)) with (table + 4 + 4 * Z.of_nat i) by lia.
Qed.

(** The strings that fit: what they take with the tables in front of them. *)
Definition argument_ok (a : args_struct) : Prop := argc a = Z.of_nat (length (strings a)) /\ Forall nonzero (strings a) /\ is_u32 (argc a).
(** The first of the strings, after the number of arguments and two tables with
    a null at the end of each; and the end of all. *)
Definition strings_start (u : Z) (args env : args_struct) : Z := u + 4 * (argc args + argc env + 3).
Definition stack_end_of (u : Z) (args env : args_struct) : Z :=
  strings_end (strings_end (strings_start u args env) (strings args)) (strings env).
Record stack_holds (b : bytes) (u : Z) (args env : args_struct) : Prop := {
  st_argc : get_u32 b u = argc args;
  st_args : read_strings b (argc args) (u + 4) = strings args;
  st_null : get_u32 b (u + 4 + 4 * argc args) = 0;
  st_env : read_strings b (argc env) (u + 8 + 4 * argc args) = strings env;
  st_null2 : get_u32 b (u + 8 + 4 * argc args + 4 * argc env) = 0 }.

Lemma strings_end_shift l : forall a d, strings_end (a + d) l = strings_end a l + d.
Proof. induction l as [|x l IH]; intros a d; cbn; [done|]. rewrite <- IH. f_equal. lia. Qed.
Lemma strings_at_same l : forall b b' u table at_, strings_at b u l table at_ ->
  (forall i, table <= i < table + 4 * Z.of_nat (length l) \/ at_ <= i < strings_end at_ l -> b' i = b i) -> strings_at b' u l table at_.
Proof.
  induction l as [|x l IH]; intros b b' u table at_ Hs Hb; cbn [strings_at strings_end length] in *; [done|].
  pose proof (strings_end_le l (at_ + Z.of_nat (length x) + 1)) as Hend. destruct Hs as (E & Hx & Hs). split_and!.
  - rewrite (get_u32_same table b); [done|]. intros i Hi. apply Hb. lia.
  - apply (holds_same _ _ b); [done|]. intros i Hi. apply Hb. lia.
  - apply (IH b); [done|]. intros i Hi. apply Hb. lia.
Qed.
Lemma args_to_user_ok v u args env b : is_u32 u -> 0 <= v -> argument_ok args -> argument_ok env ->
  let b' := args_to_user v u args env b in let table2 := v + 8 + 4 * argc args in
  get_u32 b' v = argc args /\ strings_at b' u (strings args) (v + 4) (strings_start v args env) /\
  get_u32 b' (v + 4 + 4 * argc args) = 0 /\
  strings_at b' u (strings env) table2 (strings_end (strings_start v args env) (strings args)) /\
  get_u32 b' (table2 + 4 * argc env) = 0 /\
  forall i, i < v \/ stack_end_of v args env <= i -> b' i = b i.
Proof.
  intros Hu Hv (E1 & N1 & B1) (E2 & N2 & B2). cbv zeta. unfold args_to_user, stack_end_of, strings_start.
  set (n := argc args) in *. set (n' := argc env) in *. set (b3 := put_u32 (v + 4 + 4 * n + 4 + 4 * n') 0 _).
  replace (v + 4 + 4 * n + 4 + 4 * n' + 4) with (v + 4 * (n + n' + 3)) by lia.
  pose proof (copy_strings_ok (strings args) (v + 4) (v + 4 * (n + n' + 3)) u b3 Hu N1 ltac:(lia) ltac:(lia)) as (F1 & F2 & F3).
  destruct (copy_strings (strings args) (v + 4) _ u b3) as [b4 e4]. cbn [fst snd] in *. subst e4.
  set (at2 := strings_end (v + 4 * (n + n' + 3)) (strings args)) in *. assert (v + 4 * (n + n' + 3) <= at2) as Hat by apply strings_end_le.
  pose proof (copy_strings_ok (strings env) (v + 4 + 4 * n + 4) at2 u b4 Hu N2 ltac:(lia) ltac:(lia)) as (_ & G2 & G3).
  set (b5 := (copy_strings (strings env) (v + 4 + 4 * n + 4) at2 u b4).1) in *. assert (at2 <= strings_end at2 (strings env)) as Hend by apply strings_end_le.
  assert (forall a x c, is_u32 x -> a + 4 <= v + 4 + 4 * n + 4 \/ v + 4 + 4 * n + 4 + 4 * n' <= a -> a + 4 <= v + 4 \/ v + 4 + 4 * n <= a ->
    a + 4 <= v + 4 * (n + n' + 3) -> (forall i, a <= i < a + 4 -> b3 i = put_u32 a x c i) -> get_u32 b5 a = x) as Hword.
  { intros a x c Hx H1 H2 H3 Hc. rewrite <- (get_put_u32 a x c Hx). apply get_u32_same. intros i Hi. rewrite G3 by lia. rewrite F3 by lia. by apply Hc. }
  split_and!.
  - apply (Hword _ _ b); [done|lia|lia|lia|]. intros i Hi. unfold b3. by rewrite !put_u32_other by lia.
  - apply (strings_at_same _ b4); [done|]. intros i Hi. apply G3. fold at2 in Hi. lia.
  - apply (Hword _ _ (put_u32 v n b)); [done|lia|lia|lia|]. intros i Hi. unfold b3. by rewrite put_u32_other by lia.
  - by replace (v + 8 + 4 * n) with (v + 4 + 4 * n + 4) by lia.
  - replace (v + 8 + 4 * n) with (v + 4 + 4 * n + 4) by lia. eapply (Hword _ _ _); [done|lia|lia|lia|]. intros i Hi. reflexivity.
  - intros i Hi. rewrite G3, F3 by lia. unfold b3. by rewrite !put_u32_other by lia.
Qed.

(** The program's view of the bytes that the pager sees at [v]. *)
Definition seen_at (u v : Z) (b : bytes) : bytes := fun y => b (y - u + v).
Lemma holds_shift l d : forall b b' a, holds b a l -> (forall i, b' (i + d) = b i) -> holds b' (a + d) l.
Proof.
  induction l as [|c l IH]; intros b b' a Hh Hb; cbn in *; [by rewrite Hb|]. destruct Hh as (E & Hc & Hh). rewrite Hb. split_and!; [done|done|].
  replace (a + d + 1) with (a + 1 + d) by lia. by eapply IH.
Qed.
Lemma strings_at_shift l d u : forall b b' table at_, d mod PAGE_SIZE = 0 -> 0 <= at_ -> 0 <= at_ + d -> is_u32 u ->
  strings_at b u l table at_ -> (forall i, b' (i + d) = b i) -> strings_at b' u l (table + d) (at_ + d).
Proof.
  induction l as [|x l IH]; intros b b' table at_ Hd H0 H1 Hu Hs Hb; cbn [strings_at] in *; [done|]. destruct Hs as (E & Hx & Hs). split_and!.
  - unfold get_u32 in *. rewrite (proj1 (pointer_split u (at_ + d) Hu H1)), Zplus_mod, Hd, Z.add_0_r, Zmod_mod, <- (proj1 (pointer_split u at_ Hu H0)), <- E.
    rewrite !Hb. replace (table + d + 1) with (table + 1 + d) by lia. replace (table + d + 2) with (table + 2 + d) by lia.
    replace (table + d + 3) with (table + 3 + d) by lia. by rewrite !Hb.
  - by eapply holds_shift.
  - replace (table + d + 4) with (table + 4 + d) by lia. replace (at_ + d + Z.of_nat (length x) + 1) with (at_ + Z.of_nat (length x) + 1 + d) by lia.
    by apply (IH b); try lia.
Qed.

Lemma strings_end_of_shift u v args env : stack_end_of u args env = stack_end_of v args env + (u - v).
Proof.
  unfold stack_end_of, strings_start. replace (u + 4 * (argc args + argc env + 3)) with (v + 4 * (argc args + argc env + 3) + (u - v)) by lia.
  by rewrite !strings_end_shift.
Qed.
Lemma stack_holds_ok u v args env b ub : is_u32 u -> 0 <= v -> argument_ok args -> argument_ok env -> (u - v) mod PAGE_SIZE = 0 ->
  stack_end_of u args env <= u / PAGE_SIZE * PAGE_SIZE + PAGE_SIZE ->
  (forall i, ub (i + (u - v)) = args_to_user v u args env b i) -> stack_holds ub u args env.
Proof.
  intros Hu Hv Ha He Hd Hend Hub. destruct (args_to_user_ok v u args env b Hu Hv Ha He) as (H1 & H2 & H3 & H4 & H5 & _).
  pose proof Ha as (E1 & _ & _). pose proof He as (E2 & _ & _).
  set (b' := args_to_user v u args env b) in *. set (d := u - v) in *.
  assert (forall a, get_u32 ub (a + d) = get_u32 b' a) as Hw.
  { intros a. unfold get_u32. replace (a + d + 1) with (a + 1 + d) by lia. replace (a + d + 2) with (a + 2 + d) by lia.
    replace (a + d + 3) with (a + 3 + d) by lia. by rewrite !Hub. }
  pose proof (strings_end_of_shift u v args env) as Hsh. unfold stack_end_of in Hend, Hsh.
  pose proof (strings_end_le (strings args) (strings_start v args env)) as Hle1.
  pose proof (strings_end_le (strings env) (strings_end (strings_start v args env) (strings args))) as Hle2.
  assert (0 <= u /\ u / PAGE_SIZE * PAGE_SIZE <= u) as [Hu0 Hul].
  { unfold is_u32 in Hu. change PAGE_SIZE with 4096. Z.to_euclidean_division_equations. lia. }
  apply (strings_at_shift _ d u b' ub) in H2, H4; try done; try (unfold strings_start in *; unfold d; lia).
  replace (u + 4 + 4 * argc args) with (v + 4 + 4 * argc args + d) by (unfold d; lia) || idtac.
  split.
  - replace u with (v + d) by (unfold d; lia). by rewrite Hw.
  - rewrite E1. apply (read_strings_ok ub u _ _ (strings_start v args env + d)); [done| |unfold strings_start, d in *; lia..|].
    + replace (u + 4) with (v + 4 + d) by (unfold d; lia). done.
    + rewrite strings_end_shift. unfold d in *. lia.
  - replace (u + 4 + 4 * argc args) with (v + 4 + 4 * argc args + d) by (unfold d; lia). by rewrite Hw.
  - rewrite E2. apply (read_strings_ok ub u _ _ (strings_end (strings_start v args env) (strings args) + d)); [done| |unfold strings_start, d in *; lia..|].
    + replace (u + 8 + 4 * argc args) with (v + 8 + 4 * argc args + d) by (unfold d; lia). done.
    + rewrite strings_end_shift. unfold d in *. lia.
  - replace (u + 8 + 4 * argc args + 4 * argc env) with (v + 8 + 4 * argc args + 4 * argc env + d) by (unfold d; lia). by rewrite Hw.
Qed.

Section Stack.
Context {K : Type} `{kernel_abi K} `{layout}.
Abbreviation St := (mm K).

(** C30: Arguments and environment that fit into the page of the user's stack
    that starts them are read back by the program from the bytes of that page:
    the number of arguments, each argument and each variable of the environment
    through its pointer, and the nulls behind both tables; no byte outside of
    them and no other page changes. *)
Theorem first_stack_reads_back (s : St) m p u args env : frames m = [p] -> is_u32 (m_at m) -> wild (m_at m) = false ->
  is_u32 u -> u mod 8 = 0 -> m_at m mod PAGE_SIZE = u mod PAGE_SIZE -> argument_ok args -> argument_ok env ->
  stack_end_of u args env <= u / PAGE_SIZE * PAGE_SIZE + PAGE_SIZE ->
  exists s', task_copy_args_to_user m u args env s = Ret 0 s' /\
    stack_holds (fun y => pdata s' p (y - u / PAGE_SIZE * PAGE_SIZE)) u args env /\
    (forall i, 0 <= i < PAGE_SIZE -> i < u mod PAGE_SIZE \/ stack_end_of u args env - u / PAGE_SIZE * PAGE_SIZE <= i -> pdata s' p i = pdata s p i) /\
    forall q, q <> p -> pdata s' q = pdata s q.
Proof.
  intros Ef Hv Hw Hu H8 Hoff Ha He Hend. unfold task_copy_args_to_user.
  assert (is_aligned (m_at m) 8 = true) as Hal.
  { unfold is_aligned. apply Z.eqb_eq. change (u32 (8 - 1)) with (2 ^ 3 - 1). rewrite land_ones_mod by done. change (2 ^ 3) with 8.
    change PAGE_SIZE with 4096 in *. Z.to_euclidean_division_equations. lia. }
  rewrite Hal, Hw, Ef. cbn [negb]. set (b := mapped_byte (pdata s) m). set (b' := args_to_user (m_at m) u args env b).
  exists (s <| pdata ::= fun d => <[p := fun i => b' (page_align (m_at m) + i)]> d |>).
  assert (0 <= m_at m) as Hv0 by (unfold is_u32 in Hv; lia). rewrite (page_align_floor _ Hv).
  assert (forall x y, x mod PAGE_SIZE = y mod PAGE_SIZE -> x - x / PAGE_SIZE * PAGE_SIZE = y - y / PAGE_SIZE * PAGE_SIZE) as Hmod.
  { intros x y. change PAGE_SIZE with 4096. Z.to_euclidean_division_equations. lia. }
  specialize (Hmod _ _ Hoff). destruct (args_to_user_ok (m_at m) u args env b Hu Hv0 Ha He) as (_ & _ & _ & _ & _ & Hout).
  split; [done|]. cbn [pdata set_field]. split_and!.
  - apply (stack_holds_ok u (m_at m) args env b); try done.
    + change PAGE_SIZE with 4096 in *. Z.to_euclidean_division_equations. lia.
    + intros i. cbn. rewrite fn_lookup_insert. unfold b'. f_equal. lia.
  - intros i Hi Ho. cbn. rewrite fn_lookup_insert. unfold b'. rewrite Hout.
    + unfold b, mapped_byte. rewrite (page_align_floor _ Hv), Ef. replace (m_at m / PAGE_SIZE * PAGE_SIZE + i - m_at m / PAGE_SIZE * PAGE_SIZE) with i by lia.
      by rewrite Z.div_small, Z.mod_small by done.
    + rewrite (strings_end_of_shift u (m_at m)) in Ho. change PAGE_SIZE with 4096 in *. Z.to_euclidean_division_equations. lia.
  - intros q Hq. cbn. by rewrite fn_lookup_insert_ne.
Qed.
End Stack.

(** * Segments *)

Definition of_kind (ty fl : Z) (x : elf_section_header) : bool := (sh_type x =? ty) && (Z.land (sh_flags x) SHF_DATA =? fl).
Fixpoint marks_of (ty fl : Z) (l : list elf_section_header) (m : mark) : option mark :=
  match l with [] => Some m | x :: l => m ← elf_test_expand_segment x ty fl SHF_DATA m; marks_of ty fl l m end.
(** The three kinds of segments do not meet. *)
Lemma mark_sections_split l : forall x, mark_sections l x =
  (t ← marks_of SHT_PROGBITS SHF_ALLOC l (text_mark x); d ← marks_of SHT_PROGBITS SHF_DATA l (data_mark x);
   b ← marks_of SHT_NOBITS SHF_DATA l (bss_mark x); Some (with_marks t d b x.1)).
Proof.
  induction l as [|y l IH]; intros [m e]; cbn [mark_sections marks_of].
  - cbn. unfold with_marks, text_mark, data_mark, bss_mark. cbn. by destruct m, e.
  - unfold mark_section. destruct (elf_test_expand_segment y SHT_PROGBITS SHF_ALLOC SHF_DATA _) as [t|]; [|done]. cbn [mbind option_bind].
    destruct (elf_test_expand_segment y SHT_PROGBITS SHF_DATA SHF_DATA _) as [d|]; cbn [mbind option_bind]; [|by destruct (marks_of _ _ _ t)].
    destruct (elf_test_expand_segment y SHT_NOBITS SHF_DATA SHF_DATA _) as [b|]; cbn [mbind option_bind].
    + rewrite IH. unfold with_marks, text_mark, data_mark, bss_mark. cbn. by destruct t, d, b, m.
    + destruct (marks_of _ _ _ t); [|done]. cbn. by destruct (marks_of _ _ _ d).
Qed.

(** Sections that follow each other without gaps from [a] to [e]. *)
Fixpoint tiled (a : Z) (l : list elf_section_header) (e : Z) : Prop :=
  match l with [] => a = e | x :: l => sh_addr x = a /\ tiled (u32 (a + sh_size x)) l e end.
Lemma tiled_snoc l : forall a e x, tiled a l e -> sh_addr x = e -> tiled a (l ++ [x]) (u32 (e + sh_size x)).
Proof. induction l as [|y l IH]; cbn; intros a e x Ht Hx; [by subst|]. destruct Ht as [E Ht]. split; [done|]. by apply IH. Qed.
(** Going through [l] from an end [e], the sections [c] join, and the end is then
    [e']: exactly those that begin where the segment ends so far. *)
Inductive joins : Z -> list elf_section_header -> list elf_section_header -> Z -> Prop :=
| joins_nil e : joins e [] [] e
| joins_take e x l c e' : sh_addr x = e -> joins (u32 (e + sh_size x)) l c e' -> joins e (x :: l) (x :: c) e'
| joins_skip e x l c e' : sh_addr x <> e -> joins e l c e' -> joins e (x :: l) c e'.
Lemma joins_snoc e l c e' x : joins e l c e' ->
  joins e (l ++ [x]) (if sh_addr x =? e' then c ++ [x] else c) (if sh_addr x =? e' then u32 (e' + sh_size x) else e').
Proof.
  induction 1 as [e|e y l c e' Hy Hj IH|e y l c e' Hy Hj IH]; cbn [app].
  - destruct (Z.eqb_spec (sh_addr x) e); [apply joins_take; [done|constructor]|apply joins_skip; [done|constructor]].
  - destruct (Z.eqb_spec (sh_addr x) e'); by apply joins_take.
  - destruct (Z.eqb_spec (sh_addr x) e'); by apply joins_skip.
Qed.
Lemma joins_tiled e l c e' : joins e l c e' -> sublist c l /\ tiled e c e'.
Proof.
  induction 1 as [e|e y l c e' Hy Hj [IH1 IH2]|e y l c e' Hy Hj [IH1 IH2]]; [by split|..].
  - split; [by apply sublist_skip|]. cbn. by rewrite <- Hy in *.
  - split; [by apply sublist_cons|done].
Qed.
(** If all sections adjoin, all join. *)
Lemma joins_all l : forall e c e1 e2, joins e l c e1 -> tiled e l e2 -> c = l /\ e1 = e2.
Proof.
  induction l as [|x l IH]; intros e c e1 e2 Hj Ht; inversion Hj; subst; cbn in Ht; [done| |by destruct Ht].
  destruct Ht as [_ Ht]. by destruct (IH _ _ _ _ H5 Ht) as [-> ->].
Qed.
(** A segment is missing when no section of its kind is at another address than
    0; else it starts with the first such section, has its place in the file, and
    goes as far as the sections that follow and join it. *)
Definition segment_of (l : list elf_section_header) (m : mark) : Prop :=
  m_start m = 0 /\ Forall (fun x => sh_addr x = 0) l \/
  exists l0 first rest chain, l = l0 ++ first :: rest /\ Forall (fun x => sh_addr x = 0) l0 /\ sh_addr first <> 0 /\
    m_start m = sh_addr first /\ m_offset m = sh_offset first /\ joins (u32 (sh_addr first + sh_size first)) rest chain (m_end m).
Lemma expand_segment x ty fl l m m' : segment_of l m -> elf_test_expand_segment x ty fl SHF_DATA m = Some m' ->
  segment_of (if of_kind ty fl x then l ++ [x] else l) m'.
Proof.
  unfold elf_test_expand_segment. change ((sh_type x =? ty) && (Z.land (sh_flags x) SHF_DATA =? fl)) with (of_kind ty fl x).
  intros Hm. destruct (of_kind ty fl x); [|by intros [= <-]]. destruct Hm as [[E0 Hl]|(l0 & f & r & c & -> & Hl0 & Hf & E1 & E2 & Hj)].
  - rewrite E0. cbn [Z.eqb]. destruct (_ || _); [done|]. intros [= <-]. destruct (decide (sh_addr x = 0)) as [Ex|Hx].
    + left. split; [done|]. apply Forall_app. split; [done|]. by constructor.
    + right. exists l, x, [], []. split_and!; try done. constructor.
  - rewrite E1, (proj2 (Z.eqb_neq _ _) Hf). pose proof (joins_snoc _ _ _ _ x Hj) as Hj'.
    destruct (Z.eqb_spec (m_end m) (sh_addr x)) as [E|E]; intros [= <-]; right.
    + rewrite (proj2 (Z.eqb_eq (sh_addr x) (m_end m))) in Hj' by done. rewrite E in Hj'.
      exists l0, f, (r ++ [x]), (c ++ [x]). rewrite <- app_assoc. by split_and!.
    + rewrite (proj2 (Z.eqb_neq (sh_addr x) (m_end m))) in Hj' by by apply not_eq_sym.
      exists l0, f, (r ++ [x]), c. rewrite <- app_assoc. by split_and!.
Qed.
Lemma marks_of_segment ty fl l : forall l0 m m', segment_of l0 m -> marks_of ty fl l m = Some m' ->
  segment_of (l0 ++ filter (of_kind ty fl) l) m'.
Proof.
  induction l as [|x l IH]; intros l0 m m' Hm; cbn [marks_of]; [intros [= <-]; by rewrite app_nil_r|].
  destruct (elf_test_expand_segment _ _ _ _ m) as [m1|] eqn:E; cbn [mbind option_bind]; [|done]. intros E'.
  pose proof (expand_segment _ _ _ _ _ _ Hm E) as Hm1. specialize (IH _ _ _ Hm1 E').
  destruct (of_kind ty fl x) eqn:Ek.
  - rewrite filter_cons_True by (by rewrite Ek). by rewrite cons_middle, app_assoc.
  - rewrite filter_cons_False by (rewrite Ek; by intros []). done.
Qed.
(** A segment at address 0 cannot be told from one that is not there yet. *)
Lemma marks_of_none ty fl l m : m_start m = 0 -> (m_offset m <> 0 \/ m_end m <> 0) -> filter (of_kind ty fl) l <> [] -> marks_of ty fl l m = None.
Proof.
  intros H0 Hne. induction l as [|x l IH]; [done|]. cbn [marks_of]. unfold elf_test_expand_segment.
  change ((sh_type x =? ty) && (Z.land (sh_flags x) SHF_DATA =? fl)) with (of_kind ty fl x). destruct (of_kind ty fl x) eqn:Ek.
  - intros _. rewrite H0. cbn [Z.eqb]. destruct (Z.eqb_spec (m_offset m) 0), (Z.eqb_spec (m_end m) 0); try done. by destruct Hne.
  - rewrite filter_cons_False by (rewrite Ek; by intros []). apply IH.
Qed.
Lemma marks_of_zero_address ty fl l x y r : filter (of_kind ty fl) l = x :: y :: r -> sh_addr x = 0 -> 0 < sh_size x < 2 ^ 32 ->
  marks_of ty fl l (MkMark 0 0 0) = None.
Proof.
  intros Hf Hx Hs. induction l as [|z l IH]; [done|]. cbn [marks_of]. unfold elf_test_expand_segment.
  change ((sh_type z =? ty) && (Z.land (sh_flags z) SHF_DATA =? fl)) with (of_kind ty fl z). destruct (of_kind ty fl z) eqn:Ek.
  - rewrite filter_cons_True in Hf by (by rewrite Ek). injection Hf as -> Hf. cbn [mbind option_bind m_start m_offset m_end Z.eqb orb negb].
    apply marks_of_none; cbn; [done|right; rewrite Hx; unfold u32; rewrite Z.mod_small; lia|by rewrite Hf].
  - rewrite filter_cons_False in Hf by (rewrite Ek; by intros []). by apply IH.
Qed.

Lemma check_segments_ok m : check_segments m = 0 <-> text_start m <> 0 /\
  (is_page_aligned (text_end m) = true \/ page_align (text_end m) < page_align (data_start m) \/
   PAGE_SIZE <= u32 (data_start m - text_end m)).
Proof.
  unfold check_segments. generalize (text_start m), (text_end m), (data_start m). clear m. intros ts te ds.
  destruct (Z.eqb_spec ts 0); [split; [done|tauto]|].
  destruct (Z.ltb_spec (page_align te) (page_align ds)); [rewrite orb_true_r; tauto|]. rewrite orb_false_r.
  destruct (is_page_aligned te) eqn:Ete; [rewrite !andb_false_r; tauto|]. rewrite andb_true_r.
  destruct (Z.ltb_spec (u32 (ds - te)) PAGE_SIZE); [|rewrite andb_false_r; tauto]. rewrite andb_true_r.
  destruct (is_page_aligned ds && (ds =? te)) eqn:E; cbn [negb]; [|split; [done|]; intros (_ & [?|[?|?]]); [done|lia..]].
  apply andb_true_iff in E as [E1 ->%Z.eqb_eq]. congruence.
Qed.

Section Segments.
Context {K : Type} `{kernel_abi K} `{layout}.
Abbreviation St := (mm K).
Definition unmarked (s : St) (task : Z) : Prop :=
  let m := marks (tcbs s task) in text_mark (m, MkEfd 0 0 0) = MkMark 0 0 0 /\ data_mark (m, MkEfd 0 0 0) = MkMark 0 0 0 /\ bss_mark (m, MkEfd 0 0 0) = MkMark 0 0 0.

(** C31: The segments that a new task gets from an image: text, data and bss
    each start with the first section of their kind that is not at address 0, have
    its place in the file, and take in, of the later sections of the kind in their
    order, exactly those that begin where the segment ends so far, so that they
    are tiled without gaps; a segment is missing only when there is no such
    section.  The image is refused with [-ENOEXEC] when there is no text, or the
    text ends inside a page, the data do not start on a later one, and the
    unsigned 32-bit distance from the end of the text to the data is less than a
    page; it is accepted otherwise, so also when the data start below the end of
    the text, where the distance wraps around. *)
Theorem segments_are_tiled (s s' : St) task sects r : unmarked s task ->
  elf_mark_segments sects task (MkEfd 0 0 0) s = Ret r s' ->
  let x := (marks (tcbs s' task), r.2) in
  segment_of (filter (of_kind SHT_PROGBITS SHF_ALLOC) sects) (text_mark x) /\
  segment_of (filter (of_kind SHT_PROGBITS SHF_DATA) sects) (data_mark x) /\
  segment_of (filter (of_kind SHT_NOBITS SHF_DATA) sects) (bss_mark x) /\
  (r.1 = 0 \/ r.1 = - ENOEXEC) /\
  (r.1 = 0 <-> text_start x.1 <> 0 /\
    (is_page_aligned (text_end x.1) = true \/ page_align (text_end x.1) < page_align (data_start x.1) \/
     PAGE_SIZE <= u32 (data_start x.1 - text_end x.1))).
Proof.
  intros (Ht & Hd & Hb) E. unfold elf_mark_segments in E. apply bind_inv in E as (m & s1 & [= <- <-] & E).
  rewrite mark_sections_split, Ht, Hd, Hb in E. 
  destruct (marks_of SHT_PROGBITS SHF_ALLOC sects (MkMark 0 0 0)) as [t|] eqn:Et; [|done].
  destruct (marks_of SHT_PROGBITS SHF_DATA sects (MkMark 0 0 0)) as [d|] eqn:Ed; [|done].
  destruct (marks_of SHT_NOBITS SHF_DATA sects (MkMark 0 0 0)) as [b|] eqn:Eb; [|done].
  apply (marks_of_segment _ _ _ []) in Et, Ed, Eb; try (by left).
  cbn [mbind option_bind or_bug] in E. apply bind_inv in E as (x & s1 & [= <- <-] & E). apply bind_inv in E as (u & s1 & E1 & [= <- <-]).
  rewrite tmod_run in E1. injection E1 as _ <-. rewrite tcbs_set, fn_lookup_insert. cbv zeta. cbn [fst snd].
  unfold text_mark, data_mark, bss_mark, with_marks. cbn. destruct t as [ts te to], d as [ds de do], b as [bs be bo]. split; [exact Et|split; [exact Ed|split; [exact Eb|split]]].
  - unfold check_segments. repeat case_match; auto.
  - apply check_segments_ok.
Qed.
(** An image with two sections of text the first of which, not empty, is at
    address 0 halts the pager. *)
Theorem text_at_zero_halts (s : St) task sects first second rest : unmarked s task ->
  filter (of_kind SHT_PROGBITS SHF_ALLOC) sects = first :: second :: rest -> sh_addr first = 0 -> 0 < sh_size first < 2 ^ 32 ->
  elf_mark_segments sects task (MkEfd 0 0 0) s = Bug "elf_test_expand_segment".
Proof.
  intros (Ht & _) Hf H1 H2. unfold elf_mark_segments. vrun.
  rewrite mark_sections_split, Ht, (marks_of_zero_address _ _ _ _ _ _ Hf H1 H2). done.
Qed.
End Segments.

(** * On the concrete pager *)

Definition demo_args : args_struct := MkArgs 2 0 [[108; 115]; [45; 108]] 18.
Definition demo_env : args_struct := MkArgs 1 0 [[65; 61; 49]] 12.
Definition demo_stack : mapping := MkMapping 0x40131FC0 [5].
Lemma demo_args_ok : argument_ok demo_args /\ argument_ok demo_env.
Proof. split; (split; [done|]); (split; [repeat constructor; lia|done]). Qed.
Lemma first_stack_reads_back_witness : exists s', task_copy_args_to_user demo_stack 0x1FFFFFC0 demo_args demo_env mm_empty = Ret 0 s' /\
  stack_holds (fun y => pdata s' 5 (y - 0x1FFFFFC0 / PAGE_SIZE * PAGE_SIZE)) 0x1FFFFFC0 demo_args demo_env.
Proof.
  destruct demo_args_ok as [Ha He].
  destruct (first_stack_reads_back mm_empty demo_stack 5 0x1FFFFFC0 demo_args demo_env) as (s' & E & Hs & _);
    [reflexivity|done|reflexivity|done|reflexivity|reflexivity|exact Ha|exact He|vm_compute; congruence|].
  exists s'. exact (conj E Hs).
Defined.
(** Two sections of text, one of data. *)
Definition demo_sections (text : Z) : list elf_section_header :=
  [MkSect 0 SHT_PROGBITS SHF_ALLOC text 0x1000 0x100 0 0 4 0; MkSect 0 SHT_PROGBITS SHF_ALLOC (text + 0x100) 0x1100 0x80 0 0 4 0;
   MkSect 0 SHT_PROGBITS SHF_DATA 0x10010000 0x2000 0x10 0 0 4 0].
Definition demo_marked : mm ptab := after (elf_mark_segments (demo_sections 0x10000000) 7 (MkEfd 0 0 0)) mm_empty.
Lemma demo_unmarked : unmarked mm_empty 7. Proof. split_and!; reflexivity. Qed.
Lemma segments_are_tiled_witness :
  let x := (marks (tcbs demo_marked 7), MkEfd 0x1000 0x2000 0) in
  segment_of (filter (of_kind SHT_PROGBITS SHF_ALLOC) (demo_sections 0x10000000)) (text_mark x) /\
  text_mark x = MkMark 0x10000000 0x10000180 0x1000 /\
  segment_of (filter (of_kind SHT_PROGBITS SHF_DATA) (demo_sections 0x10000000)) (data_mark x) /\
  page_align (text_end x.1) < page_align (data_start x.1).
Proof.
  destruct (segments_are_tiled mm_empty demo_marked 7 (demo_sections 0x10000000) (0, MkEfd 0x1000 0x2000 0) demo_unmarked) as (H1 & H2 & _).
  - unfold demo_marked. apply returned_after. vm_compute. reflexivity.
  - split; [exact H1|]. split; [vm_compute; reflexivity|]. split; [exact H2|]. vm_compute. reflexivity.
Defined.
Lemma text_at_zero_halts_witness : elf_mark_segments (demo_sections 0) 7 (MkEfd 0 0 0) mm_empty = Bug "elf_test_expand_segment".
Proof. by apply (text_at_zero_halts mm_empty 7 (demo_sections 0) _ _ [] demo_unmarked eq_refl). Defined.
