(* ===== verification/Succession.v ===== *)
(** Succession: [execve] puts a new control block into the place of the old one
    in the tree of tasks. *)
From S2P Require Import Prelude Bits Defs Words Malloc Pools PageAlloc Memfs Vm Shadow Pagecache Mmap Shm Forking Mmdemo Paths Vfs Names Tasks Family Elf Execve.

Section Succession.
Context {K : Type} `{kernel_abi K} `{layout}.
Abbreviation St := (mm K).
Abbreviation kin := (@Family.kin K).

(** * What opening an image leaves alone *)

Lemma alloc_components_kin l : keeps kin (alloc_components l).
Proof. induction l as [|x l IH]; cbn [alloc_components]; kin_keep. Qed.
Lemma free_components_kin l : keeps kin (free_components l).
Proof. induction l as [|[c x] l IH]; cbn [free_components]; kin_keep. Qed.
#[local] Hint Resolve alloc_components_kin free_components_kin : keeps.
Lemma pathdata_parse_kin path t : keeps kin (pathdata_parse path t). Proof. unfold pathdata_parse, vnode_at. kin_open. kin_keep. Qed.
Lemma pathdata_destroy_kin p : keeps kin (pathdata_destroy p). Proof. unfold pathdata_destroy. kin_keep. Qed.
Lemma pathdata_next_component_kin p : keeps kin (pathdata_next_component p). Proof. unfold pathdata_next_component. kin_open. kin_keep. Qed.
#[local] Hint Resolve pathdata_parse_kin pathdata_destroy_kin pathdata_next_component_kin : keeps.
Lemma populate_kin n : forall p d i, keeps kin (populate n p d i).
Proof. induction n as [|n IH]; intros p d i; cbn [populate]; unfold vfs_alloc_dentry, vfs_vnode_lookup_byvnum, vfs_alloc_vnode, vfs_free_vnode, set_fs; kin_open; kin_keep. Qed.
#[local] Hint Resolve populate_kin : keeps.
Lemma memfs_vnode_readdir_kin v : keeps kin (memfs_vnode_readdir v).
Proof. unfold memfs_vnode_readdir, vnode_at, only_dentry. kin_open. kin_keep. Qed.
#[local] Hint Resolve memfs_vnode_readdir_kin : keeps.
Lemma lookup_children_kin f l : (forall v p c, keeps kin (f v p c)) -> forall p c, keeps kin (lookup_children f l p c).
Proof. intros Hf. induction l as [|x l IH]; intros p c; cbn [lookup_children]; kin_keep; try apply Hf; try apply IH. Qed.
Lemma lookup_names_kin f v l : (forall v p c, keeps kin (f v p c)) -> forall p c, keeps kin (lookup_names f v l p c).
Proof.
  intros Hf. induction l as [|x l IH]; intros p c; cbn [lookup_names]; unfold generic_dentry_compare, lookup_dentry_children, vnode_at, dentry_at; kin_keep;
    try apply Hf; try apply IH; by apply lookup_children_kin.
Qed.
Lemma generic_vnode_lookup_kin n : forall v p c, keeps kin (generic_vnode_lookup n v p c).
Proof. induction n as [|n IH]; intros v p c; cbn [generic_vnode_lookup]; unfold vnode_at; kin_keep. by apply lookup_names_kin. Qed.
#[local] Hint Resolve generic_vnode_lookup_kin : keeps.
Lemma sys_open_vnode_kin t v : keeps kin (sys_open_vnode t v).
Proof. unfold sys_open_vnode, vfs_file_create, vm_file_create, global_add_vm_file, global_add_vm_object. kin_open. kin_keep. all: try kin_fun. Qed.
#[local] Hint Resolve sys_open_vnode_kin : keeps.
Lemma open_image_kin name : keeps kin (open_image name).
Proof.
  unfold open_image, find_task, sys_open, O_RDONLY. change (flag_set 0 O_CREAT) with false. unfold vfs_vnode_lookup_bypath, get_fd. kin_keep.
Qed.

(** * The new task's identity *)

(** As [apart], and [c]'s ids stay too. *)
Definition held (c : Z) (s s' : St) : Prop :=
  apart c s s' /\ tid (tcbs s' c) = tid (tcbs s c) /\ spid (tcbs s' c) = spid (tcbs s c) /\ tgid (tcbs s' c) = tgid (tcbs s c).
#[local] Instance held_preorder c : PreOrder (held c).
Proof. split; [by intros s|]. intros s1 s2 s3 (A1 & B1 & C1 & D1) (A2 & B2 & C2 & D2). split; [by etrans|]. split_and!; congruence. Qed.
Lemma folk_held {A} c (m : prog St A) : keeps folk m -> keeps (held c) m.
Proof. intros Hm s a s' E. split; [by eapply (folk_apart c m Hm)|]. destruct (Hm s a s' E) as [-> _]. done. Qed.
Lemma kin_held {A} c (m : prog St A) : keeps kin m -> keeps (held c) m.
Proof. intros Hm. by apply folk_held, kin_folk. Qed.
#[local] Hint Resolve kin_held folk_held : keeps.
Lemma tmod_held c f : (forall x, children (f x) = children x /\ child_of (f x) = child_of x /\ parent (f x) = parent x /\
  tid (f x) = tid x /\ spid (f x) = spid x /\ tgid (f x) = tgid x) -> keeps (held c) (tmod c f).
Proof.
  intros Hf s a s' E. split; [eapply (tmod_apart c f); [|exact E]; intros x; by destruct (Hf x) as (? & ? & ? & _)|].
  rewrite tmod_run in E. injection E as _ <-. rewrite tcbs_set, fn_lookup_insert. destruct (Hf (tcbs s c)) as (_ & _ & _ & ? & ? & ?). done.
Qed.
Ltac held_keep := repeat (keep1 || (by split_and!) || (apply tmod_held; by intros ?)).
Lemma task_setup_utcb_held c : keeps (held c) (task_setup_utcb c).
Proof.
  unfold task_setup_utcb, task_descs, find_vma, task_vmas. held_keep.
Qed.
#[local] Hint Resolve task_setup_utcb_held : keeps.

Lemma address_kin n : keeps kin (pager_new_address n). Proof. unfold pager_new_address. kin_fun. Qed.
Lemma delete_address_kin v n : keeps kin (pager_delete_address v n). Proof. unfold pager_delete_address. kin_fun. Qed.
#[local] Hint Resolve address_kin delete_address_kin : keeps.
Lemma l4_map_helper_kin a n : keeps kin (l4_map_helper a n).
Proof. unfold l4_map_helper. kin_keep. Qed.
Lemma l4_unmap_helper_kin a n : keeps kin (l4_unmap_helper a n).
Proof. unfold l4_unmap_helper. kin_keep. Qed.
#[local] Hint Resolve l4_map_helper_kin l4_unmap_helper_kin : keeps.
Lemma read_pages_kin n : forall o x, keeps kin (read_pages n o x).
Proof. induction n as [|n IH]; intros o x; cbn [read_pages]; kin_open; kin_keep. Qed.
Lemma map_file_pages_kin n : forall f o a, keeps kin (map_file_pages n f o a).
Proof. induction n as [|n IH]; intros f o a; cbn [map_file_pages]; kin_open; kin_keep. Qed.
#[local] Hint Resolve read_pages_kin map_file_pages_kin : keeps.
Lemma pager_map_file_range_kin f o n : keeps kin (pager_map_file_range f o n).
Proof. unfold pager_map_file_range, pager_map_pages, read_file_pages. kin_open. kin_keep. Qed.
Lemma pager_map_page_kin f o : keeps kin (pager_map_page f o).
Proof. unfold pager_map_page, read_file_pages. kin_open. kin_keep. Qed.
#[local] Hint Resolve pager_map_file_range_kin pager_map_page_kin : keeps.
Lemma elf_parse_executable_held c f e : keeps (held c) (elf_parse_executable c f e).
Proof. unfold elf_parse_executable, pager_unmap_page, pager_unmap_pages, read_sections, elf_mark_segments, or_bug. held_keep. Qed.
Lemma map_user_pages_kin n : forall t a v f, keeps kin (map_user_pages n t a v f).
Proof. induction n as [|n IH]; intros t a v f; cbn [map_user_pages]; kin_keep. Qed.
#[local] Hint Resolve map_user_pages_kin : keeps.
Lemma validate_pages_kin n : forall t a f, keeps kin (validate_pages n t a f).
Proof. induction n as [|n IH]; intros t a f; cbn [validate_pages]; kin_open; unfold task_vmas; kin_keep. Qed.
#[local] Hint Resolve validate_pages_kin : keeps.
Lemma pager_validate_map_user_range2_kin t a n f : keeps kin (pager_validate_map_user_range2 t a n f).
Proof. unfold pager_validate_map_user_range2, pager_validate_user_range. kin_open. kin_keep. Qed.
#[local] Hint Resolve pager_validate_map_user_range2_kin : keeps.
Lemma put_frames_kin l : forall v b, keeps kin (put_frames l v b).
Proof. induction l as [|p l IH]; intros v b; cbn [put_frames]; kin_open; kin_keep. Qed.
#[local] Hint Resolve put_frames_kin : keeps.
Lemma task_map_stack_held c a e : keeps (held c) (task_map_stack c a e).
Proof. unfold task_map_stack, task_copy_args_to_user, pager_unmap_pages. held_keep. Qed.
Lemma task_map_bss_kin c : keeps kin (task_map_bss c).
Proof. unfold task_map_bss, clear_bss_head. kin_open. kin_keep. Qed.
#[local] Hint Resolve task_map_stack_held task_map_bss_kin : keeps.
Lemma task_mmap_segments_held c f e a n : keeps (held c) (task_mmap_segments c f e a n).
Proof. unfold task_mmap_segments, map_segments. held_keep. Qed.

(** * Succession *)

(** [c] has the place of [t], whose children have gone to its parent, in [s']. *)
Record succeeded (s s' : St) (t c : Z) : Prop := {
  su_list : (c ∉ glist (global_tasks s)) /\ glist (global_tasks s') = list_del t (glist (global_tasks s)) ++ [c];
  su_ids : tid (tcbs s' c) = tid (tcbs s t) /\ spid (tcbs s' c) = spid (tcbs s t) /\ tgid (tcbs s' c) = tgid (tcbs s t);
  su_child : parent (tcbs s' c) = parent (tcbs s t);
  su_same : forall x, x <> t -> x <> c -> same_but_place (tcbs s x) (tcbs s' x);
  su_parent : forall x, x ∈ list_del t (glist (global_tasks s)) ->
    parent (tcbs s' x) = if decide (parent (tcbs s x) = t) then parent (tcbs s t) else parent (tcbs s x);
  su_ok : tasks_ok s' }.

Lemma family_ok_ext m m' l : family_ok m l ->
  (forall x, x ∈ l -> parent (m' x) = parent (m x) /\ child_of (m' x) = child_of (m x) /\ children (m' x) = children (m x)) -> family_ok m' l.
Proof.
  intros [H1 H2 H3 H4] Hm. split; [done|done|..]; intros t Ht; destruct (Hm t Ht) as (E1 & E2 & E3).
  - rewrite E1, E2. by apply H3.
  - rewrite E3. destruct (H4 t Ht) as [? Hc]. split; [done|]. intros c. rewrite Hc. split; intros [Hcl <-]; (split; [done|]); by destruct (Hm c Hcl) as (-> & _).
Qed.
Lemma list_del_app t a b : list_del t (a ++ b) = list_del t a ++ list_del t b. Proof. apply filter_app. Qed.
(** The control block of [orig] gone, and [new] in its place but not yet on the list. *)
Lemma execve_recycle_runs (s s' : St) c t r : 0 <= r -> tasks_ok s -> t ∈ glist (global_tasks s) -> parent (tcbs s t) <> t ->
  c ∉ glist (global_tasks s) -> c <> 0 -> children (tcbs s c) = [] -> execve_recycle_task c t s = Ret r s' ->
  global_tasks s' = MkGlobal (total (global_tasks s) - 1) (list_del t (glist (global_tasks s))) /\
  (forall x, x <> t -> x <> c -> same_but_place (tcbs s x) (tcbs s' x)) /\
  family_ok (tcbs s') (list_del t (glist (global_tasks s)) ++ [c]) /\
  (forall x, x ∈ list_del t (glist (global_tasks s)) ->
    parent (tcbs s' x) = if decide (parent (tcbs s x) = t) then parent (tcbs s t) else parent (tcbs s x)) /\
  parent (tcbs s' c) = parent (tcbs s t) /\
  tid (tcbs s' c) = tid (tcbs s t) /\ spid (tcbs s' c) = spid (tcbs s t) /\ tgid (tcbs s' c) = tgid (tcbs s t).
Proof.
  intros Hr [Hf Htot] Ht Hpt Hc Hc0 Hch E. pose proof (fm_parent _ _ Hf t Ht) as [Hp _]. set (p := parent (tcbs s t)) in *.
  assert (p <> c /\ t <> c) as [Hpc Htc] by (by split; intros ->).
  unfold execve_recycle_task in E. apply bind_inv in E as (o & s1 & [= <- <-] & E).
  apply bind_inv in E as (u1 & s1 & E1 & E). rewrite tmod_run in E1. injection E1 as _ <-.
  apply bind_inv in E as (q & s1 & [= _ <-] & E). apply bind_inv in E as (u2 & s1 & E1 & E). apply bug_on_inv in E1 as [_ ->].
  apply bind_inv in E as (u3 & s1 & E1 & E). rewrite tmod_run, tcbs_set, tcbs_set_set in E1. injection E1 as _ <-.
  apply bind_inv in E as (u4 & s1 & E1 & E). apply bug_on_inv in E1 as [_ ->].
  apply bind_inv in E as (u5 & s1 & E1 & E). unfold child_insert in E1. apply bind_inv in E1 as (u6 & s2 & E2 & E1).
  rewrite tmod_run, tcbs_set, tcbs_set_set in E2. injection E2 as _ <-. rewrite tmod_run, tcbs_set, tcbs_set_set in E1. injection E1 as _ <-.
  fold p in E. match type of E with _ (s <| tcbs := ?m |>) = _ => set (m1 := m) in E end.
  assert (forall x, x <> c -> same_but_place (tcbs s x) (m1 x) /\ parent (m1 x) = parent (tcbs s x) /\ child_of (m1 x) = child_of (tcbs s x) /\
    children (m1 x) = if decide (x = p) then c :: children (tcbs s p) else children (tcbs s x)) as Hm1.
  { intros x Hx. unfold m1. rewrite (fn_lookup_insert_ne _ c x) by done. destruct (decide (x = p)) as [->|Hxp].
    - rewrite fn_lookup_insert, !(fn_lookup_insert_ne _ c p) by done. split_and!; [unfold same_but_place; by destruct (tcbs s p)|done..].
    - rewrite (fn_lookup_insert_ne _ p x), !(fn_lookup_insert_ne _ c x) by done. split_and!; [unfold same_but_place; by destruct (tcbs s x)|done..]. }
  assert (parent (m1 c) = p /\ child_of (m1 c) = p /\ children (m1 c) = [] /\ tid (m1 c) = tid (tcbs s t) /\ spid (m1 c) = spid (tcbs s t) /\ tgid (m1 c) = tgid (tcbs s t)) as (Mp & Mo & Mc & Mi).
  { unfold m1. rewrite fn_lookup_insert, (fn_lookup_insert_ne _ p c), !fn_lookup_insert by done. cbn. by split_and!. }
  assert (family_ok m1 (glist (global_tasks s) ++ [c])) as Hf1.
  { apply (family_with (tcbs s) _ _ c p); try done. intros x Hx. destruct (Hm1 x Hx) as (_ & -> & -> & ->). split_and!; done. }
  apply bind_inv in E as (r1 & s1 & E1 & E). apply bind_inv in E as (r2 & s2 & E2 & E). apply bind_inv in E as (r3 & s3 & E3 & E).
  assert (folk (s <| tcbs := m1 |>) s3) as [F1 F2].
  { transitivity s1; [refine ((_ : keeps folk _) _ _ _ E1); unfold task_close_files; kin_keep|].
    transitivity s2; [exact (task_destroy_utcb_folk _ _ _ _ E2)|refine ((_ : keeps folk _) _ _ _ E3); kin_keep]. }
  rewrite tcbs_set in F1. change (global_tasks (s <| tcbs := m1 |>)) with (global_tasks s) in F2.
  destruct (Z.ltb_spec r3.1 0) as [Hneg|_]; [injection E as E _; lia|]. apply bind_inv in E as (r4 & s4 & E4 & [= _ <-]).
  destruct (Hm1 t Htc) as (_ & Ept & _).
  destruct (tcb_destroy_family s3 s4 (glist (global_tasks s) ++ [c]) t r4) as (G1 & G2 & G3 & G4 & _);
    [by rewrite F1|apply elem_of_app; by left|by rewrite F2|by rewrite F1, Ept|done|].
  assert (list_del t (glist (global_tasks s) ++ [c]) = list_del t (glist (global_tasks s)) ++ [c]) as El by (rewrite list_del_app; f_equal; apply list_del_out; by intros ?%list_elem_of_singleton).
  rewrite F1, F2, Ept, El in *.
  pose proof (G2 c (not_eq_sym Htc)) as Gc. unfold same_but_place in Gc.
  split_and!; [done| |done| | |rewrite Gc; apply Mi..].
  - intros x Hx Hxc. destruct (Hm1 x Hxc) as (Hs & _). specialize (G2 x Hx). unfold same_but_place in *. rewrite G2, Hs. done.
  - intros x Hx. assert (x <> c) as Hxc by (intros ->; by apply elem_of_list_del in Hx as [? _]).
    rewrite G4 by (apply elem_of_app; by left). by destruct (Hm1 x Hxc) as (_ & -> & _).
  - rewrite G4 by (apply elem_of_app; right; by apply list_elem_of_singleton). rewrite Mp, decide_False by done. done.
Qed.
Lemma abandon_fails self fd c err (s s' : St) : err < 0 -> abandon self fd c err s <> Ret 0 s'.
Proof. intros Hneg E. unfold abandon in E. apply bind_inv in E as (? & ? & _ & E). apply bind_inv in E as (? & ? & _ & [= E _]). lia. Qed.
Lemma launch_adds stack c (s s' : St) r : launch stack c s = Ret r s' ->
  tcbs s' = tcbs s /\ global_tasks s' = MkGlobal (total (global_tasks s) + 1) (glist (global_tasks s) ++ [c]).
Proof.
  intros E. unfold launch in E. apply bind_inv in E as (t & s1 & [= _ <-] & E). apply bind_inv in E as (u & s1 & E1 & E).
  assert (folk s s1) as [F1 F2] by (refine ((_ : keeps folk _) _ _ _ E1); unfold task_setup_registers; kin_keep).
  apply bind_inv in E as (u1 & s2 & E2 & E). unfold global_add_task in E2. apply bind_inv in E2 as (g & s3 & [= <- <-] & E2).
  apply bind_inv in E2 as (u2 & s3 & E3 & E2). apply bug_on_inv in E3 as [_ ->]. injection E2 as _ <-.
  assert (folk (s1 <| global_tasks := MkGlobal (total (global_tasks s1) + 1) (glist (global_tasks s1) ++ [c]) |>) s') as [G1 G2]
    by (refine ((_ : keeps folk _) _ _ _ E); unfold task_start; kin_keep).
  cbn in G1, G2. rewrite G1, G2, F2. split; [exact F1|done].
Qed.

(** C28: [execve] of a task that is not its own parent and not a thread of a
    group, when it returns 0, has put a new control block with the task's ids into
    its place: a child of the task's parent, at the end of the list of tasks,
    while the task's children have gone to that parent too. The tasks are a tree
    again and the others are as they were but for their places. The heap is
    taken to be in order when the image has been opened. *)
Theorem do_execve_succeeds_the_task (s s1 s' : St) stack sender filename args env o : tasks_ok s ->
  sender ∈ glist (global_tasks s) -> parent (tcbs s sender) <> sender -> flag_set (clone_flags (tcbs s sender)) TCB_SHARED_TGROUP = false ->
  open_image filename s = Ret o s1 -> heap_ready s1 -> (forall t, t ∈ glist (global_tasks s1) -> owned s1 t SIZEOF_TCB) ->
  do_execve stack sender filename args env s = Ret 0 s' -> exists c, succeeded s s' sender c.
Proof.
  intros Hok Ht Hpt Hgr Eo Hr Hown E. unfold do_execve in E. destruct (open_image_kin _ _ _ _ Eo) as (T1 & G1 & _).
  rewrite (run_bind _ _ _ _ _ Eo) in E. destruct o as [[self fd] vmfile]. destruct (Z.ltb_spec fd 0); [injection E as E _; lia|].
  apply bind_inv in E as (c & s2 & E2 & E). destruct (tcb_alloc_init_new _ _ _ _ Hr E2) as (N1 & N2 & N3 & N4 & N5 & N6).
  rewrite N3 in E. assert (c ∉ glist (global_tasks s)) as Hc by (rewrite <- G1; intros Hx%Hown; by apply N1 in Hx). exists c.
  apply bind_inv in E as (e & s3 & E3 & E). destruct (elf_parse_executable_held c _ _ _ _ _ E3) as [(X1 & X2 & X3 & _) _].
  destruct (Z.ltb_spec e.1 0) as [Hn|_]; [by apply abandon_fails in E|].
  assert (forall x, x <> c -> tcbs s3 x = tcbs s x) as Hx by (intros x Hx; by rewrite X1, N4, T1). assert (global_tasks s3 = global_tasks s) as Hg by congruence.
  assert (sender <> c) as Hsc by (by intros ->).
  unfold thread_group_leader in E. rewrite <- (Hx sender Hsc) in Hgr. apply bind_inv in E as (l & s4 & E4 & E).
  apply bind_inv in E4 as (t & s5 & [= <- <-] & E4). rewrite Hgr in E4. injection E4 as <- <-.
  apply bind_inv in E as (err & s4 & E4 & E). destruct (Z.ltb_spec err 0) as [Hn|He]; [by apply abandon_fails in E|].
  apply bind_inv in E as (err2 & s5 & E5 & E). destruct (Z.ltb_spec err2 0) as [Hn|_]; [by apply abandon_fails in E|].
  assert (forall l, family_ok (tcbs s) l -> c ∉ l -> family_ok (tcbs s3) l) as Hf3.
  { intros l Hl Hcl. apply (family_ok_ext (tcbs s)); [done|]. intros x Hxl. rewrite Hx by (by intros ->). done. }
  destruct (execve_recycle_runs s3 s4 c sender err He) as (R1 & R2 & R3 & R4 & R5 & R6); rewrite ?Hg, ?(Hx sender Hsc) in *; try done.
  { unfold tasks_ok in *. rewrite Hg. destruct Hok as [Hf ?]. split; [by apply Hf3|done]. }
  { by rewrite X3. }
  destruct (task_mmap_segments_held c _ _ _ _ _ _ _ E5) as [(Y1 & Y2 & Y3 & Y4 & Y5) Yi]. destruct (launch_adds _ _ _ _ _ E) as [Z1 Z2].
  rewrite Y2, R1 in Z2. cbn [glist total] in Z2. split; rewrite ?Z1, ?Z2; cbn [glist].
  - done.
  - destruct Yi as (-> & -> & ->). done.
  - by rewrite Y5.
  - intros x Hxt Hxc. rewrite Y1, <- (Hx x Hxc) by done. by apply R2.
  - intros x Hxl. assert (x <> c) as Hxc by (intros ->; by apply elem_of_list_del in Hxl as [? _]). rewrite Y1, <- (Hx x Hxc) by done. by apply R4.
  - unfold tasks_ok. rewrite Z1, Z2. cbn [glist total]. split.
    + apply (family_ok_ext (tcbs s4)); [done|]. intros x _. destruct (decide (x = c)) as [->|Hxc]; [by rewrite Y3, Y4, Y5|by rewrite Y1].
    + destruct Hok as [Hf Htot]. pose proof (list_del_count sender _ (fm_dup _ _ Hf) Ht). rewrite length_app. cbn. lia.
Qed.
End Succession.
#[export] Hint Resolve pathdata_parse_kin pathdata_destroy_kin pathdata_next_component_kin memfs_vnode_readdir_kin generic_vnode_lookup_kin sys_open_vnode_kin
  read_pages_kin map_user_pages_kin validate_pages_kin : keeps.

(** * A pager that executes an image *)

Definition u16_bytes (x : Z) : list Z := le_bytes 2 x.
Definition u32_bytes (x : Z) : list Z := le_bytes 4 x.
(** Text, data, and a bss that starts within the last page of data. *)
Definition image_header : list Z :=
  [0x7F; 69; 76; 70; 1; 1; 1] ++ replicate 9 0 ++ u16_bytes 2 ++ u16_bytes 40 ++ u32_bytes 1 ++ u32_bytes 0x10000000 ++ u32_bytes 52 ++
  u32_bytes 52 ++ u32_bytes 0 ++ u16_bytes 52 ++ u16_bytes 32 ++ u16_bytes 1 ++ u16_bytes 40 ++ u16_bytes 3 ++ u16_bytes 0.
Definition image_section (ty fl addr size : Z) : list Z :=
  u32_bytes 0 ++ u32_bytes ty ++ u32_bytes fl ++ u32_bytes addr ++ u32_bytes 0 ++ u32_bytes size ++ u32_bytes 0 ++ u32_bytes 0 ++ u32_bytes 4 ++ u32_bytes 0.
Definition image : bytes :=
  put_bytes (image_header ++ image_section SHT_PROGBITS SHF_ALLOC 0x10000000 0x1000 ++
    image_section SHT_PROGBITS SHF_DATA 0x10001000 0x10 ++ image_section SHT_NOBITS SHF_DATA 0x10001010 0x2000) 0 zero_page.
Definition image_name : list Z := [47; 97].
Definition install : prog (mm ptab) unit :=
  kzalloc 4 ;; init_devzero ;; utcb_pool_init ;; vfs_init 0x50000000 ;; setup ;;
  pager ← find_task self_tid;
  fd ← sys_open pager image_name O_CREAT 0;
  d ← get_fd pager fd;
  f ← file (vmfile d);
  with_fs (vfs_write (fvnode f) 0 1 (fun _ => image)) ;;
  set_file (vmfile d) (fun f => f <| flength := PAGE_SIZE |>) ;;
  sys_close pager fd ;; mret tt.
Definition installed : mm ptab := after install mm_empty.
Definition the_pager : Z := hd 0 (glist (global_tasks installed)).
Definition forked : mm ptab := after (sys_fork the_pager) installed.
Definition caller : Z := List.last (glist (global_tasks forked)) 0.
Definition exec_args : args_struct := MkArgs 1 0 [image_name] 7.
Definition opened : mm ptab := after (open_image image_name) forked.
Definition the_call : prog (mm ptab) Z := do_execve exregs_zero caller image_name exec_args no_args.
Definition executed : mm ptab := after the_call forked.
Lemma call_ready : ready forked caller /\ parent (tcbs forked caller) <> caller /\ flag_set (clone_flags (tcbs forked caller)) TCB_SHARED_TGROUP = false.
Proof. split; [apply ready_b_ok; vm_compute; reflexivity|]. split; [apply Z.eqb_neq; vm_compute; reflexivity|vm_compute; reflexivity]. Qed.
Lemma image_opens : open_image image_name forked = Ret (4788, 0, 6216) opened.
Proof. unfold opened. apply returned_after. vm_compute. reflexivity. Qed.
Lemma opened_ready : ready opened caller. Proof. apply ready_b_ok. vm_compute. reflexivity. Qed.
Lemma call_runs : do_execve exregs_zero caller image_name exec_args no_args forked = Ret 0 executed.
Proof. unfold executed, the_call. apply returned_after. vm_compute. reflexivity. Qed.
Lemma do_execve_succeeds_the_task_witness : exists c, succeeded forked executed caller c.
Proof.
  destruct call_ready as ([H1 _ _ H2] & H3 & H4). destruct opened_ready as [_ H5 H6 _].
  exact (do_execve_succeeds_the_task forked opened executed exregs_zero caller image_name exec_args no_args _ H1 H2 H3 H4 image_opens H5 H6 call_runs).
Defined.
