(* ===== verification/Requests.v ===== *)
(** Requests: what serving one request does to the tree of tasks. *)
From S2P Require Import Prelude Bits Defs Words Malloc Pools PageAlloc Memfs Vm Shadow Pagecache Mmap Shm Forking Mmdemo Paths Vfs Names Tasks Family Elf Execve Serve Succession.

Section Requests.
Context {K : Type} `{kernel_abi K} `{layout}.
Abbreviation St := (mm K).
Abbreviation kin := (@Family.kin K).

(** * Calls that leave the tasks alone *)

#[local] Hint Resolve with_pages_kin page_read_fault_kin page_write_fault_kin insert_page_olist_kin flush_file_pages_kin vma_flush_pages_kin do_munmap_kin
  global_add_vm_object_kin search_links_kin : keeps.
Lemma new_pages_kin n : forall f p o, keeps kin (new_pages n f p o).
Proof. induction n as [|n IH]; intros f p o; cbn [new_pages]; kin_open; kin_keep. Qed.
#[local] Hint Resolve new_pages_kin : keeps.
Lemma new_file_pages_kin f a b : keeps kin (new_file_pages f a b). Proof. unfold new_file_pages. kin_open. kin_keep. Qed.
Lemma read_file_pages_kin f a b : keeps kin (read_file_pages f a b). Proof. unfold read_file_pages. kin_open. kin_keep. Qed.
Lemma task_prefault_smart_kin t a f : keeps kin (task_prefault_smart t a f).
Proof. exact (task_prefault_page_kin t a f). Qed.
#[local] Hint Resolve new_file_pages_kin read_file_pages_kin task_prefault_smart_kin : keeps.
Lemma copy_cache_page_kin n : forall t p r e l a b, keeps kin (copy_cache_page n t p r e l a b).
Proof. induction n as [|n IH]; intros t p r e l a b; cbn [copy_cache_page]; unfold page_copy; kin_open; kin_keep. Qed.
#[local] Hint Resolve copy_cache_page_kin : keeps.
Lemma copy_pages_kin n : forall o t r a b p l x y, keeps kin (copy_pages n o t r a b p l x y).
Proof. induction n as [|n IH]; intros o t r a b p l x y; cbn [copy_pages]; kin_keep. Qed.
#[local] Hint Resolve copy_pages_kin : keeps.
Lemma copy_cache_pages_kin f t b x y c n r : keeps kin (copy_cache_pages f t b x y c n r). Proof. unfold copy_cache_pages. kin_keep. Qed.
Lemma pager_validate_user_range_kin t a n f : keeps kin (pager_validate_user_range t a n f). Proof. unfold pager_validate_user_range. kin_keep. Qed.
#[local] Hint Resolve copy_cache_pages_kin pager_validate_user_range_kin : keeps.
Lemma sys_read_kin t f b n : keeps kin (sys_read t f b n). Proof. unfold sys_read. kin_open. kin_keep. Qed.
Lemma sys_write_kin t f b n : keeps kin (sys_write t f b n). Proof. unfold sys_write. kin_open. kin_keep. Qed.
Lemma sys_lseek_kin t f o w : keeps kin (sys_lseek t f o w). Proof. unfold sys_lseek. kin_open. kin_keep. Qed.
Lemma sys_fsync_kin t f : keeps kin (sys_fsync t f). Proof. unfold sys_fsync, fsync_common. kin_open. kin_keep. Qed.
#[local] Hint Resolve sys_read_kin sys_write_kin sys_lseek_kin sys_fsync_kin : keeps.
(** Areas and shared memory. *)
Lemma pager_get_user_page_kin t a n f : keeps kin (pager_get_user_page t a n f). Proof. unfold pager_get_user_page. kin_keep. Qed.
Lemma sys_munmap_kin t a n : keeps kin (sys_munmap t a n). Proof. unfold sys_munmap. kin_keep. Qed.
Lemma msync_from_kin n : forall t a e, keeps kin (msync_from n t a e).
Proof. induction n as [|n IH]; intros t a e; cbn [msync_from]; kin_open; kin_keep. Qed.
#[local] Hint Resolve pager_get_user_page_kin sys_munmap_kin msync_from_kin : keeps.
Lemma sys_msync_kin t a n : keeps kin (sys_msync t a n). Proof. unfold sys_msync, do_msync. kin_open. kin_keep. Qed.
Lemma shm_new_kin k n : keeps kin (shm_new k n).
Proof. unfold shm_new, vm_file_create, global_add_vm_file. kin_open. kin_keep. kin_fun. Qed.
Lemma shmid_of_kin f : keeps kin (shmid_of f). Proof. unfold shmid_of. kin_keep. Qed.
#[local] Hint Resolve sys_msync_kin shm_new_kin shmid_of_kin : keeps.
Lemma sys_shmget_kin k n f : keeps kin (sys_shmget k n f). Proof. unfold sys_shmget. kin_keep. Qed.
Lemma sys_shmat_kin t i a f : keeps kin (sys_shmat t i a f). Proof. unfold sys_shmat, do_shmat. kin_open. kin_keep. Qed.
Lemma sys_shmdt_kin t a : keeps kin (sys_shmdt t a). Proof. unfold sys_shmdt, do_shmdt. kin_keep. Qed.
#[local] Hint Resolve sys_shmget_kin sys_shmat_kin sys_shmdt_kin : keeps.
Lemma sys_mmap_kin t a : keeps kin (sys_mmap t a). Proof. unfold sys_mmap, __sys_mmap. kin_open. kin_keep. Qed.
Lemma page_fault_handler_kin t a b c d : keeps kin (page_fault_handler t a b c d).
Proof. unfold page_fault_handler, do_page_fault, __do_page_fault, fault_handle_error. kin_open. kin_keep. Qed.
#[local] Hint Resolve sys_mmap_kin page_fault_handler_kin : keeps.
(** Names. *)
Lemma mknod_links_kin v p n x d : keeps kin (mknod_links v p n x d). Proof. unfold mknod_links, vfs_alloc_dentry, set_fs. kin_keep. Qed.
#[local] Hint Resolve mknod_links_kin : keeps.
Lemma mknod_entry_kin v p x m : keeps kin (mknod_entry v p x m).
Proof. unfold mknod_entry, memfs_alloc_vnode, vfs_alloc_vnode, vfs_free_vnode, vnode_at. kin_keep. Qed.
#[local] Hint Resolve mknod_entry_kin : keeps.
Lemma any_match_kin l x : keeps kin (any_match l x).
Proof. induction l as [|d l IH]; cbn [any_match]; unfold generic_dentry_compare, dentry_at; kin_keep. Qed.
#[local] Hint Resolve any_match_kin : keeps.
Lemma memfs_vnode_mknod_kin v x m : keeps kin (memfs_vnode_mknod v x m).
Proof. unfold memfs_vnode_mknod, vnode_at, dentry_at, only_dentry. kin_keep. Qed.
#[local] Hint Resolve memfs_vnode_mknod_kin : keeps.
Lemma vfs_vnode_lookup_bypath_kin p : keeps kin (vfs_vnode_lookup_bypath p). Proof. unfold vfs_vnode_lookup_bypath. kin_keep. Qed.
#[local] Hint Resolve vfs_vnode_lookup_bypath_kin : keeps.
Lemma vfs_vnode_create_kin t p m : keeps kin (vfs_vnode_create t p m). Proof. unfold vfs_vnode_create, pathdata_last_component. kin_keep. Qed.
#[local] Hint Resolve vfs_vnode_create_kin : keeps.
Lemma sys_open_kin t p f m : keeps kin (sys_open t p f m). Proof. unfold sys_open. kin_keep. Qed.
Lemma sys_mkdir_kin t p m : keeps kin (sys_mkdir t p m). Proof. unfold sys_mkdir. kin_keep. Qed.
Lemma sys_chdir_kin t p : keeps kin (sys_chdir t p). Proof. unfold sys_chdir. kin_keep. Qed.
Lemma sys_readdir_kin t f n b : keeps kin (sys_readdir t f n b).
Proof. unfold sys_readdir, memfs_vnode_filldir, vnode_at. kin_open. kin_keep. Qed.
#[local] Hint Resolve sys_open_kin sys_mkdir_kin sys_chdir_kin sys_readdir_kin : keeps.

(** * A request as a step of the tree *)

(** What a request of task [t] does to the tree of tasks, and the answer to it. *)
Definition served (q : request) (t : Z) (s : St) (a : reply) (s' : St) : Prop :=
  if q_tag q =? L4_IPC_TAG_FORK then exists r, a = Return r /\ makes_task s t r s'
  else if q_tag q =? L4_IPC_TAG_CLONE then
    exists r p, a = Return r /\ (p = t \/ p = parent (tcbs s t)) /\ makes_task s p r s'
  else if q_tag q =? L4_IPC_TAG_EXIT then a = NoReply /\ adopted s s' t
  else folk s s'.

Lemma find_task_spec id (s s' : St) t : 0 ∉ glist (global_tasks s) -> find_task id s = Ret t s' ->
  s' = s /\ if t =? 0 then forall x, x ∈ glist (global_tasks s) -> tid (tcbs s x) <> id else t ∈ glist (global_tasks s) /\ tid (tcbs s t) = id.
Proof.
  intros H0' E. unfold find_task in E. apply bind_inv in E as (g & s1 & [= <- <-] & E). apply bind_inv in E as (m & s1 & [= <- <-] & [= <- <-]).
  split; [done|]. destruct (list_find _ _) as [[i t]|] eqn:Ef.
  - apply list_find_Some in Ef as (Hi & Ht & _). apply list_elem_of_lookup_2 in Hi. destruct (Z.eqb_spec t 0) as [->|_]; done.
  - cbn. intros x Hx. apply list_find_None in Ef. rewrite Forall_forall in Ef. by apply Ef.
Qed.
Lemma folk_tasks (s s' : St) : folk s s' -> tasks_ok s -> tasks_ok s'.
Proof. intros [E1 E2]. unfold tasks_ok. by rewrite E1, E2. Qed.
Lemma makes_task_ok (s s' : St) p r : makes_task s p r s' -> tasks_ok s -> tasks_ok s'.
Proof. intros [[_ Hf]|(c & Hb & _)] Hok; [by eapply folk_tasks|by destruct Hb]. Qed.

Lemma dispatch_fork stack dirbuf q t : q_tag q = L4_IPC_TAG_FORK ->
  dispatch (K := K) stack dirbuf q t = (r ← sys_fork t; mret (Return r)).
Proof. intros E. unfold dispatch. rewrite E. reflexivity. Qed.
Lemma dispatch_clone stack dirbuf q t : q_tag q = L4_IPC_TAG_CLONE ->
  dispatch (K := K) stack dirbuf q t = (r ← sys_clone t (q_mr q 0) (q_mr q 1); mret (Return r)).
Proof. intros E. unfold dispatch. rewrite E. reflexivity. Qed.
Lemma dispatch_exit stack dirbuf q t : q_tag q = L4_IPC_TAG_EXIT ->
  dispatch (K := K) stack dirbuf q t = (sys_exit t (s32 (q_mr q 0)) ;; mret NoReply).
Proof. intros E. unfold dispatch. rewrite E. reflexivity. Qed.
Lemma dispatch_folk stack dirbuf q t : q_tag q <> L4_IPC_TAG_FORK -> q_tag q <> L4_IPC_TAG_CLONE -> q_tag q <> L4_IPC_TAG_EXIT ->
  q_tag q <> L4_IPC_TAG_EXECVE -> keeps (@folk K) (dispatch stack dirbuf q t).
Proof.
  intros H1%Z.eqb_neq H2%Z.eqb_neq H3%Z.eqb_neq H4%Z.eqb_neq. apply kin_folk. unfold dispatch. cbv zeta. rewrite H1, H2, H3, H4. kin_keep.
Qed.

(** Without a stack [clone] is refused. *)
Lemma sys_clone_any (s s' : St) t stack flags r : tasks_ok s -> heap_ready s -> errors_small (K := K) -> all_owned s -> t ∈ glist (global_tasks s) ->
  sys_clone t stack flags s = Ret r s' -> exists p, (p = t \/ p = parent (tcbs s t)) /\ makes_task s p r s'.
Proof.
  intros Hok Hr He Hown Ht E. unfold sys_clone in E. destruct (Z.eqb_spec stack 0).
  - injection E as <- <-. exists t. split; [by left|]. left. by split.
  - apply bind_inv in E as (u & s1 & E1 & E). apply bug_on_inv in E1 as [_ ->]. destruct (clone_sharing flags) as [share ctrl].
    exists (new_parent s t share). split; [unfold new_parent; destruct (_ || _); tauto|]. by eapply do_clone_makes_a_task.
Qed.

(** C29: a request other than [execve], when the pager returns from serving it,
    leaves the tasks a tree. The request of a sender that is no task is answered
    [-ESRCH] and changes nothing; for the others, [fork] and [clone] add a child
    of the sender or of its parent, or return an error and leave the tasks alone,
    [exit] takes the sender away without an answer and hands its children over,
    and no other request, an unknown one included, touches a task or the list.
    The pager does not ask itself to exit, the heap is in order and the control
    blocks are in it. *)
Theorem handle_requests_keeps_the_tree (s s' : St) stack dirbuf q a : tasks_ok s -> heap_ready s -> errors_small (K := K) -> all_owned s ->
  q_tag q <> L4_IPC_TAG_EXECVE ->
  (q_tag q = L4_IPC_TAG_EXIT -> forall t, tid (tcbs s t) = q_sender q -> parent (tcbs s t) <> t) ->
  handle_requests stack dirbuf q s = Ret a s' ->
  tasks_ok s' /\
  ((forall x, x ∈ glist (global_tasks s) -> tid (tcbs s x) <> q_sender q) /\ a = Return (- ESRCH) /\ s' = s \/
   exists t, t ∈ glist (global_tasks s) /\ tid (tcbs s t) = q_sender q /\ served q t s a s').
Proof.
  intros Hok Hr He Hown Hx Hp E. unfold handle_requests in E. apply bind_inv in E as (u & s1 & E1 & E). apply bug_on_inv in E1 as [_ ->].
  apply bind_inv in E as (t & s1 & E1 & E). apply find_task_spec in E1 as [-> Ht]; [|by destruct Hok as [[]]].
  destruct (t =? 0); [injection E as <- <-; auto|]. destruct Ht as [Ht Hid].
  cut (served q t s a s' /\ tasks_ok s'); [intros [? ?]; eauto 6|]. unfold served.
  destruct (Z.eqb_spec (q_tag q) L4_IPC_TAG_FORK) as [Hf|Hf]; [|destruct (Z.eqb_spec (q_tag q) L4_IPC_TAG_CLONE) as [Hc|Hc];
    [|destruct (Z.eqb_spec (q_tag q) L4_IPC_TAG_EXIT) as [Hq|Hq]]].
  - rewrite dispatch_fork in E by done. apply bind_inv in E as (r & s2 & E & [= <- <-]).
    apply sys_fork_makes_a_task in E; try done. split; [by eexists|by eapply makes_task_ok].
  - rewrite dispatch_clone in E by done. apply bind_inv in E as (r & s2 & E & [= <- <-]).
    apply sys_clone_any in E as (p & Hpp & E); try done. split; [by eexists _, _|by eapply makes_task_ok].
  - rewrite dispatch_exit in E by done. apply bind_inv in E as ([] & s2 & E & [= <- <-]).
    apply do_exit_adopts in E; [|done..|by apply Hp]. split; [done|by destruct E].
  - apply dispatch_folk in E; [|done..]. split; [done|by eapply folk_tasks].
Qed.
End Requests.

(** * Requests to the pager of [Family] *)

(** The first task, the only one, asks for a child; then a stranger asks for
    the same. *)
Definition message (tag sender : Z) : request := MkRequest 0 tag sender (fun _ => 0) [].
Definition fork_request : request := message L4_IPC_TAG_FORK 1.
Definition after_fork : mm ptab := after (handle_requests exregs_zero (fun _ => 0) fork_request) with_pager.
Lemma fork_served : handle_requests exregs_zero (fun _ => 0) fork_request with_pager = Ret (Return 1) after_fork.
Proof. unfold after_fork. apply returned_after. vm_compute. reflexivity. Qed.
Lemma stranger_refused : returned (handle_requests exregs_zero (fun _ => 0) (message L4_IPC_TAG_FORK 7) with_pager) = Some (Return (- ESRCH)).
Proof. vm_compute. reflexivity. Qed.
Lemma handle_requests_keeps_the_tree_witness : tasks_ok after_fork.
Proof.
  destruct fork_ready as [H1 H2 H3 H4].
  exact (proj1 (handle_requests_keeps_the_tree with_pager after_fork exregs_zero (fun _ => 0) fork_request (Return 1) H1 H2 demo_errors H3
    ltac:(discriminate) ltac:(intros Hq; discriminate Hq) fork_served)).
Defined.
