(* ===== verification/Startup.v ===== *)
(** The pager's start-up: [mm/init.c], [mm/bootm.c], [mm/bootdesc.c] and
    [mm/capability.c] of [mm0], up to the first program. *)
From S2P Require Import Prelude Bits Defs Words Malloc Pools PageAlloc Memfs Vm Shadow Pagecache Mmap Shm Forking Paths Vfs Tasks Elf Execve.

(** [include/l4/generic/cap-types.h] *)
Definition CAP_MAP_UTCB := Z.shiftl 1 6.
(** [struct capability] without its link: what start-up reads of it. *)
Record capability := MkCapability { ctype : Z; access : Z; cap_start : Z; cap_end : Z }.
Definition SIZEOF_CAPABILITY := 44.
Definition cap_type (c : capability) : Z := Z.land (ctype c) CAP_TYPE_MASK.
(** [struct container_memory_regions]; [None] is null. *)
Record container_memory_regions := MkRegions {
  shmem : option capability; utcb : option capability; task : option capability; pager_region : option capability;
  physmem_cap : option capability }.
#[export] Instance regions_shape : Shape container_memory_regions := fun r =>
  MkRegions (shmem r) (utcb r) (task r) (pager_region r) (physmem_cap r).
Definition no_regions : container_memory_regions := MkRegions None None None None None.

(** [struct svc_image] and [struct bootdesc] *)
Record svc_image := MkImage { i_name : list Z; phys_start : Z; phys_end : Z }.
Record bootdesc := MkBootdesc { desc_size : Z; images : list svc_image }.
(** [struct memdesc] and [struct membank] *)
Record memdesc := MkMemdesc { md_start : Z; md_end : Z; free_cur : Z; free_end : Z; md_numpages : Z }.
Record membank := MkMembank { mb_start : Z; mb_end : Z; mb_free : Z; page_array : Z }.
#[export] Instance membank_shape : Shape membank := fun m => MkMembank (mb_start m) (mb_end m) (mb_free m) (page_array m).

Definition BOOTMEM_SIZE := 0x8000.
(** The pager at start-up: the cursor of the boot memory, the words of the
    pager's initialisation section by their address, what [initdata] points to,
    the capabilities in the order of their list, and the pager proper. *)
Record boot (K : Type) := MkBoot {
  bm_cursor : Z; imem : Z -> Z; bdesc : bootdesc; page_map : Z;
  capability_list : list capability; cont_mem_regions : container_memory_regions;
  physmem : memdesc; bank : membank; booted : mm K }.
Arguments MkBoot {K}. Arguments bm_cursor {K}. Arguments imem {K}. Arguments bdesc {K}. Arguments page_map {K}.
Arguments capability_list {K}. Arguments cont_mem_regions {K}. Arguments physmem {K}. Arguments bank {K}. Arguments booted {K}.
#[export] Instance boot_shape {K} : Shape (boot K) := fun b =>
  MkBoot (bm_cursor b) (imem b) (bdesc b) (page_map b) (capability_list b) (cont_mem_regions b) (physmem b) (bank b) (booted b).

(** The fields of [struct page_bitmap] at [p]. *)
Definition map_word (p i : Z) : Z := p + 8 + 4 * i.
Definition SIZEOF_PAGE_BITMAP := 8.
Definition page_bit (m : Z -> Z) (p i : Z) : bool := flag_set (m (map_word p (BITWISE_GETWORD i))) (BITWISE_GETBIT i).
Definition mark_page (val : bool) (m : Z -> Z) (p i : Z) : Z -> Z :=
  let w := map_word p (BITWISE_GETWORD i) in
  <[w := if val then Z.lor (m w) (BITWISE_GETBIT i) else Z.land (m w) (lnot32 (BITWISE_GETBIT i))]> m.
Fixpoint mark_pages (val : bool) (n : nat) (m : Z -> Z) (p i : Z) : Z -> Z :=
  match n with O => m | S n => mark_pages val n (mark_page val m p i) p (i + 1) end.
(** The address behind the last page of [n] from page [i] on that is marked. *)
Fixpoint behind_used (n : nat) (m : Z -> Z) (p i start free : Z) : Z :=
  match n with
  | O => free
  | S n => behind_used n m p (i + 1) start (if page_bit m p i then u32 (start + (i + 1) * PAGE_SIZE) else free)
  end.
(** [sizeof(struct page)] *)
Definition SIZEOF_PAGE := 32.

Section Startup.
Context {K : Type} `{kernel_abi K} `{layout}.
Abbreviation B := (prog (boot K)).
(** What the linker defines, and the word that is at the address [pager_offset]. *)
Context (bootmem virtual_base end_ pager_offset_word : Z).

Definition with_mm {A} (m : prog (mm K) A) : B A := fun b =>
  match m (booted b) with
  | Ret a s => Ret a (b <| booted := s |>)
  | Bug w => Bug w
  | _ => OutOfFuel
  end.

(** * [mm/bootm.c] *)

Definition alloc_bootmem (size alignment : Z) : B Z :=
  c ← gets bm_cursor;
  let c := if negb (alignment =? 0) then (if is_aligned c alignment then c else align_up c alignment)
           else if 4 <=? size then (if is_aligned c 4 then c else align_up c 4) else c in
  modify (fun b => b <| bm_cursor := u32 (c + size) |>) ;;
  bug_on (bootmem + BOOTMEM_SIZE <=? u32 (c + size)) "alloc_bootmem" ;;
  mret c.

(** * Capabilities ([mm/capability.c]) *)

(** The new list is in the reverse order. *)
Fixpoint copy_boot_capabilities (l : list capability) : B unit :=
  match l with
  | [] => mret tt
  | c :: l =>
      cap ← with_mm (kzalloc SIZEOF_CAPABILITY);
      bug_on (cap =? 0) "copy_boot_capabilities: null capability" ;;
      modify (fun b => b <| capability_list ::= cons c |>) ;;
      copy_boot_capabilities l
  end.
(** One capability of the loop of [cap_read_all]; [None] is [BUG()]. *)
Definition note_region (r : container_memory_regions) (cap : capability) : option container_memory_regions :=
  let r := if cap_type cap =? CAP_TYPE_MAP_PHYSMEM then r <| physmem_cap := Some cap |> else r in
  let starts (x : Z) := __pfn_to_addr (cap_start cap) =? x in
  let ends (x : Z) := __pfn_to_addr (cap_end cap) =? x in
  if negb (cap_type cap =? CAP_TYPE_MAP_VIRTMEM) then Some r
  else if starts virtual_base then Some (r <| pager_region := Some cap |>)
  else if starts (__pfn_to_addr utcb_pfns.1) then
    if negb (ends (__pfn_to_addr utcb_pfns.2)) then None
    else if negb (flag_set (access cap) CAP_MAP_UTCB) then None
    else Some (r <| utcb := Some cap |>)
  else if starts (__pfn_to_addr shmem_pfns.1) then
    if negb (ends (__pfn_to_addr shmem_pfns.2)) then None else Some (r <| shmem := Some cap |>)
  else if starts (__pfn_to_addr task_pfns.1) then
    if negb (ends (__pfn_to_addr task_pfns.2)) then None else Some (r <| task := Some cap |>)
  else Some r.
Fixpoint note_regions (r : container_memory_regions) (l : list capability) : option container_memory_regions :=
  match l with
  | [] => Some r
  | cap :: l => r ← note_region r cap; note_regions r l
  end.
Definition region_missing (r : container_memory_regions) : bool :=
  bool_decide (task r = None) || bool_decide (shmem r = None) || bool_decide (utcb r = None) || bool_decide (physmem_cap r = None)
  || bool_decide (pager_region r = None).
(** The kernel answers [ncaps_err] to the question for the number of
    capabilities and [read_err] to the one for the capabilities [l]. *)
Definition cap_read_all (ncaps_err read_err : Z) (l : list capability) : B Z :=
  bug_on (ncaps_err <? 0) "cap_read_all: NCAPS" ;;
  alloc_bootmem (SIZEOF_CAPABILITY * Z.of_nat (length l)) 0 ;;
  bug_on (read_err <? 0) "cap_read_all: READ" ;;
  modify (fun b => b <| capability_list := [] |>) ;;
  copy_boot_capabilities l ;;
  l ← gets capability_list;
  match note_regions no_regions l with
  | None => bug "cap_read_all: region"
  | Some r =>
      modify (fun b => b <| cont_mem_regions := r |>) ;;
      bug_on (region_missing r) "cap_read_all: missing" ;;
      mret 0
  end.
Definition setup_caps (ncaps_err read_err : Z) (l : list capability) : B unit := cap_read_all ncaps_err read_err l ;; mret tt.

(** * The boot descriptor ([mm/bootdesc.c]) *)

(** [strncmp] of the name for its own length: it is a prefix. *)
Fixpoint has_prefix (name l : list Z) : bool :=
  match name, l with
  | [], _ => true
  | c :: name, d :: l => (c =? d) && has_prefix name l
  | _, [] => false
  end.
Definition bootdesc_get_image_byname (name : list Z) : B (option svc_image) :=
  d ← gets bdesc;
  mret (snd <$> list_find (fun i => has_prefix name (i_name i)) (images d)).
(** [d] is the descriptor behind the end of the pager's image.  The offset is
    taken from a pointer to a structure of 8 bytes. *)
Definition read_boot_params (d : bootdesc) : B unit :=
  when (is_page_aligned end_) (with_mm (l4_map_helper (u32 (end_ - 8 * pager_offset_word)) 1 ;; mret tt)) ;;
  alloc_bootmem (desc_size d) 0 ;;
  modify (fun b => b <| bdesc := d |>).

(** * Physical memory ([mm/init.c]) *)

Definition set_page_map (p pfn_start numpages : Z) (val : bool) : B Z :=
  m ← gets imem;
  let pfn_end := u32 (pfn_start + numpages) in
  if (pfn_start <? m p) || (m (p + 4) <? pfn_start) || (m (p + 4) <? pfn_end) || (pfn_end <? m p) then bug "set_page_map"
  else
    modify (fun b => b <| imem := mark_pages val (Z.to_nat (pfn_end - pfn_start)) m p (pfn_start - m p) |>) ;;
    mret 0.
Definition init_page_map (p pfn_start pfn_end : Z) : B unit :=
  modify (fun b => b <| imem ::= fun m => <[p + 4 := pfn_end]> (<[p := pfn_start]> m) |>) ;;
  set_page_map p pfn_start (u32 (pfn_end - pfn_start)) false ;; mret tt.
Fixpoint mark_images (p : Z) (l : list svc_image) (images_end : Z) : B Z :=
  match l with
  | [] => mret images_end
  | i :: l =>
      let pfn_start := __pfn (page_align_up (phys_start i)) in
      let pfn_end := __pfn (page_align_up (phys_end i)) in
      set_page_map p pfn_start (u32 (pfn_end - pfn_start)) true ;;
      mark_images p l (if images_end <? pfn_end then pfn_end else images_end)
  end.
Definition init_physmem_primary : B unit :=
  r ← gets cont_mem_regions;
  c ← (match physmem_cap r with Some c => mret c | None => bug "init_physmem_primary: null capability" end);
  p ← alloc_bootmem (SIZEOF_PAGE_BITMAP + Z.shiftr (u32 (cap_end c - cap_start c)) 5 + 1) 0;
  modify (fun b => b <| page_map := p |>) ;;
  init_page_map p (cap_start c) (cap_end c) ;;
  d ← gets bdesc;
  e ← mark_images p (images d) 0;
  modify (fun b => b <| physmem := MkMemdesc (cap_start c) (cap_end c) e (cap_end c) (u32 (cap_end c - cap_start c)) |>).
(** The use counts of the pages that are not marked. *)
Fixpoint free_counts (n : nat) (m : Z -> Z) (p i : Z) : B unit :=
  match n with
  | O => mret tt
  | S n =>
      when (negb (page_bit m p i)) (with_mm (set_page i (fun x => x <| refcnt := -1 |>))) ;;
      free_counts n m p (i + 1)
  end.
Definition virt_of_page (x : Z) : Z := phys_to_virt membank_start pager_virtual_start (page_to_phys x).
(** [membank[0].free] is 0 before; [page_array] is an index of frames here. *)
Definition init_physmem_secondary : B unit :=
  p ← gets page_map;
  m ← gets imem;
  let npages := Z.to_nat (m (p + 4) - m p) in
  let start := u32 (__pfn_to_addr (m p)) in
  modify (fun b => b <| bank ::= fun k => k <| mb_start := start |> <| mb_end := u32 (__pfn_to_addr (m (p + 4))) |>
                       <| mb_free := behind_used npages m p 0 start (mb_free k) |> |>) ;;
  k ← gets bank;
  bug_on (mb_end k <=? mb_free k) "init_physmem_secondary: no free page" ;;
  let pg_npages := __pfn (page_align_up (u32 (SIZEOF_PAGE * (m (p + 4) - m p)))) in
  a ← with_mm (l4_map_helper (mb_free k) pg_npages);
  bug_on (IS_ERR a) "init_physmem_secondary: page array" ;;
  modify (fun b => b <| bank ::= fun k => k <| page_array := a |> <| mb_free ::= fun f => u32 (f + pg_npages * PAGE_SIZE) |> |>) ;;
  set_page_map p (__pfn (mb_free k)) pg_npages true ;;
  m ← gets imem;
  free_counts npages m p 0 ;;
  k ← gets bank;
  bug_on (negb (behind_used npages m p 0 start 0 =? mb_free k)) "init_physmem_secondary: first free address" ;;
  bug_on (negb (phys_to_page (page_to_phys 5) =? 5)) "init_physmem_secondary: phys_to_page" ;;
  err ← with_mm (l4_map (mb_start k) pager_virtual_start (__pfn (u32 (mb_end k - mb_start k))) MAP_USR_RW self_tid);
  bug_on (err <? 0) "init_physmem_secondary: l4_map" ;;
  bug_on (negb (virt_to_phys membank_start pager_virtual_start (virt_of_page 5) =? page_to_phys 5)) "init_physmem_secondary: virt_to_phys" ;;
  bug_on (negb (phys_to_page (virt_to_phys membank_start pager_virtual_start (virt_of_page 5)) =? 5)) "init_physmem_secondary: virt_to_page".
Definition init_physmem : B unit :=
  init_physmem_primary ;;
  init_physmem_secondary ;;
  k ← gets bank;
  match init_page_allocator membank_start pager_virtual_start (mb_free k) (mb_end k) with
  | None => bug "init_page_allocator"
  | Some p => modify (fun b => b <| booted ::= fun s => s <| mpages := p |> |>)
  end.

(** * The first program ([mm/init.c]) *)

Definition O_RDWR := 0x2.
Definition O_TRUNC := 0x200.
Definition init_path : list Z := [47; 116; 101; 115; 116; 48].
(** The frame behind the page at [addr] of a task that has it for writing: in the
    front object of the area. *)
Definition mapped_frame (t addr : Z) : prog (mm K) Z :=
  vma ← find_vma addr t;
  bug_on (vma =? 0) "copy_init_process: no area" ;;
  off ← fault_to_file_offset (MkFault 0 addr 0 vma t);
  first ← first_link vma;
  l ← or_bug first "copy_init_process: no object";
  o ← link_obj l;
  p ← find_page o off;
  or_bug p "copy_init_process: no page".
(** [memcpy] of [n] whole pages, from the frames [src] on. *)
Fixpoint copy_frames (n : nat) (t addr src : Z) : prog (mm K) unit :=
  match n with
  | O => mret tt
  | S n =>
      p ← mapped_frame t addr;
      d ← gets (fun s => pdata s src);
      put_data p d ;;
      copy_frames n t (addr + PAGE_SIZE) (src + 1)
  end.
Definition copy_init_image (self fd : Z) (img : svc_image) : prog (mm K) unit :=
  let img_size := u32 (page_align_up (phys_end img) - page_align (phys_start img)) in
  init_img_start ← l4_map_helper (phys_start img) (__pfn img_size);
  mapped ← do_mmap 0 0 self (page_align_up end_)
             (Z.lor (Z.lor (Z.lor VMA_ANONYMOUS VM_READ) (Z.lor VMA_FIXED VM_WRITE)) (Z.lor VM_EXEC VMA_PRIVATE)) (__pfn img_size);
  bug_on (IS_ERR mapped) "copy_init_process: do_mmap" ;;
  err ← task_prefault_range self mapped (s32 img_size) (Z.lor VM_READ VM_WRITE);
  bug_on (err <? 0) "copy_init_process: prefault" ;;
  copy_frames (Z.to_nat (__pfn img_size)) self mapped (phys_to_page (phys_start img)) ;;
  sys_write self fd mapped (s32 img_size) ;;
  sys_close self fd ;;
  do_munmap self mapped (__pfn img_size) ;;
  l4_unmap_helper init_img_start (__pfn img_size).
Definition copy_init_process : B unit :=
  self ← with_mm (find_task self_tid);
  bug_on (self =? 0) "copy_init_process: null pager" ;;
  fd ← with_mm (sys_open self init_path (Z.lor O_TRUNC (Z.lor O_RDWR O_CREAT)) 0);
  bug_on (fd <? 0) "copy_init_process: sys_open" ;;
  img ← bootdesc_get_image_byname (tl init_path);
  match img with
  | None => bug "copy_init_process: null image"
  | Some img => with_mm (copy_init_image self fd img)
  end.
Definition start_init_process (stack : exregs_data) : B unit :=
  copy_init_process ;; with_mm (init_execve stack init_path ;; mret tt).
Definition release_initdata (start_init : Z) : B unit :=
  with_mm (l4_unmap start_init (__pfn (page_align_up (u32 (end_ - start_init)))) self_tid ;; mret tt).

(** [fs/bdev.c] *)
Definition rootfs_name : list Z := [114; 111; 111; 116; 102; 115].
Definition vfs_rootdev_open : B Z :=
  img ← bootdesc_get_image_byname rootfs_name;
  match img with
  | None => bug "vfs_rootdev_open: null image"
  | Some img =>
      let rootfs_size := u32 (phys_end img - phys_start img) in
      bug_on (rootfs_size <? MEMFS_TOTAL_SIZE) "vfs_rootdev_open" ;;
      with_mm (l4_map_helper (phys_start img) (__pfn rootfs_size))
  end.

(** What the kernel, the loader and the linker give. *)
Record boot_input := MkInput {
  bi_ncaps_err : Z; bi_read_err : Z; bi_caps : list capability; bi_desc : bootdesc; bi_ids : task_ids; bi_image : segments;
  bi_stack : exregs_data; bi_start_init : Z }.
(** [PAGER_EXT_VIRTUAL_START] *)
Definition pager_ext_virtual_start (image : segments) : Z := page_align_up (stack_end image) + PAGER_MMAP_SEGMENT.
(** The last step, a test of the pager's own, is left out. *)
Definition init (i : boot_input) : B unit :=
  setup_caps (bi_ncaps_err i) (bi_read_err i) (bi_caps i) ;;
  with_mm (pager_address_pool_init (pager_ext_virtual_start (bi_image i)) (pager_ext_virtual_start (bi_image i) + 0x200000)) ;;
  read_boot_params (bi_desc i) ;;
  init_physmem ;;
  with_mm init_devzero ;;
  with_mm shm_pool_init ;;
  with_mm utcb_pool_init ;;
  rootdev_blocks ← vfs_rootdev_open;
  with_mm (vfs_init rootdev_blocks) ;;
  r ← gets cont_mem_regions;
  match pager_region r with
  | None => bug "pager_setup_task: null capability"
  | Some c => with_mm (pager_setup_task (bi_ids i) (bi_image i) (cap_start c, cap_end c)) ;; mret tt
  end ;;
  start_init_process (bi_stack i) ;;
  release_initdata (bi_start_init i).
End Startup.
