(* ===== verification/Bringup.v ===== *)
(** Bringing the pager up: which memory start-up hands over to the page
    allocator. *)
From S2P Require Import Prelude Bits Defs Words Malloc Pools PageAlloc Memfs Vm Shadow Pagecache Mmap Shm Forking Mmdemo Files Paths Vfs Names Tasks Family Elf Execve Succession Startup.

(** * The map of pages *)

Lemma word_neq p i j : 0 <= i -> 0 <= j -> BITWISE_GETWORD i <> BITWISE_GETWORD j -> map_word p (BITWISE_GETWORD i) <> map_word p (BITWISE_GETWORD j).
Proof. unfold map_word. lia. Qed.
Lemma word_bit_eq i j : 0 <= i -> 0 <= j -> BITWISE_GETWORD i = BITWISE_GETWORD j -> i mod WORD_BITS = j mod WORD_BITS -> i = j.
Proof.
  unfold BITWISE_GETWORD, WORD_BITS. intros Hi Hj. rewrite !Z.shiftr_div_pow2 by lia. change (2 ^ 5) with 32. Z.to_euclidean_division_equations. lia.
Qed.
Lemma page_bit_mark val m p i j : 0 <= i -> 0 <= j -> page_bit (mark_page val m p i) p j = if decide (j = i) then val else page_bit m p j.
Proof.
  intros Hi Hj. unfold page_bit, mark_page, BITWISE_GETBIT. pose proof (Z.mod_pos_bound j WORD_BITS ltac:(done)). pose proof (Z.mod_pos_bound i WORD_BITS ltac:(done)).
  rewrite !flag_set_bit by lia. destruct (decide (BITWISE_GETWORD j = BITWISE_GETWORD i)) as [Ew|Ew].
  - rewrite Ew, fn_lookup_insert. destruct val.
    + rewrite Z.lor_spec, testbit_pow2 by lia. case_bool_decide as Eb.
      * rewrite (decide_True (P := j = i)) by (by apply word_bit_eq). apply orb_true_r.
      * rewrite (decide_False (P := j = i)) by (by intros ->). apply orb_false_r.
    + rewrite Z.land_spec, testbit_lnot32, testbit_pow2 by lia. case_bool_decide as Eb.
      * rewrite (decide_True (P := j = i)) by (by apply word_bit_eq). unfold WORD_BITS in *. rewrite (proj2 (Z.ltb_lt _ _)) by lia. apply andb_false_r.
      * rewrite (decide_False (P := j = i)) by (by intros ->). unfold WORD_BITS in *. rewrite (proj2 (Z.ltb_lt _ _)) by lia. apply andb_true_r.
  - rewrite fn_lookup_insert_ne by (intros E; apply Ew; unfold map_word in E; lia). rewrite (decide_False (P := j = i)) by (by intros ->). done.
Qed.
Lemma word_head p i : 0 <= i -> map_word p (BITWISE_GETWORD i) <> p /\ map_word p (BITWISE_GETWORD i) <> p + 4.
Proof. intros Hi. unfold map_word, BITWISE_GETWORD. assert (0 <= Z.shiftr i 5) by (by apply Z.shiftr_nonneg). lia. Qed.
Lemma mark_pages_head val n : forall m p i, 0 <= i -> mark_pages val n m p i p = m p /\ mark_pages val n m p i (p + 4) = m (p + 4).
Proof.
  induction n as [|n IH]; intros m p i Hi; [done|]. cbn [mark_pages]. destruct (IH (mark_page val m p i) p (i + 1) ltac:(lia)) as [-> ->].
  destruct (word_head p i Hi). unfold mark_page. by rewrite !fn_lookup_insert_ne.
Qed.
Lemma page_bit_marks val n : forall m p i j, 0 <= i -> 0 <= j ->
  page_bit (mark_pages val n m p i) p j = if decide (i <= j < i + Z.of_nat n) then val else page_bit m p j.
Proof.
  induction n as [|n IH]; intros m p i j Hi Hj; cbn [mark_pages].
  - by rewrite decide_False by lia.
  - rewrite IH, page_bit_mark by lia. repeat case_decide; try done; lia.
Qed.
(** The last marked page and the address behind it. *)
Lemma behind_used_spec n : forall m p i start free, 0 <= i ->
  (exists k, i <= k < i + Z.of_nat n /\ page_bit m p k = true /\ (forall j, k < j < i + Z.of_nat n -> page_bit m p j = false) /\
     behind_used n m p i start free = u32 (start + (k + 1) * PAGE_SIZE)) \/
  (forall j, i <= j < i + Z.of_nat n -> page_bit m p j = false) /\ behind_used n m p i start free = free.
Proof.
  induction n as [|n IH]; intros m p i start free Hi; cbn [behind_used]; [right; split; [lia|done]|].
  destruct (IH m p (i + 1) start (if page_bit m p i then u32 (start + (i + 1) * PAGE_SIZE) else free) ltac:(lia)) as [(k & Hk & Hb & Hl & ->)|[Hl ->]].
  - left. exists k. split_and!; [lia..|done| |done]. intros j Hj. apply Hl. lia.
  - destruct (page_bit m p i) eqn:E; [left; exists i; split_and!; [lia..|done| |done]; intros j Hj; apply Hl; lia|right; split; [|done]].
    intros j Hj. destruct (decide (j = i)) as [->|]; [done|]. apply Hl. lia.
Qed.

(** * The first state of the page allocator *)

Definition first_cache (v : Z) : mem_cache := MkCache 168 166 (v + 56) (v + PAGE_SIZE) 24 [3; 0; 0; 0; 0; 0].
Lemma first_cache_inv v : 0 < v -> v + PAGE_SIZE < 2 ^ 32 -> cache_inv (first_cache v).
Proof. intros H1 H2. split; cbn -[Z.add PAGE_SIZE]; [done|done|change PAGE_SIZE with 4096 in *; lia|by vm_compute]. Qed.
Lemma first_cache_use v b : 0 <= b < 2 -> in_use (first_cache v) (v + 56 + 24 * b).
Proof. intros Hb. exists b. split; [cbn; lia|]. split; [|done]. assert (b = 0 \/ b = 1) as [-> | ->] by lia; done. Qed.

Section Bringup.
Context {K : Type} `{kernel_abi K} `{layout}.

(** The page at [f] holds the first cache, and the rest up to page [hi] is one
    free area. *)
Lemma init_page_allocator_ok (f hi : Z) : geometry membank_start pager_virtual_start (f + 1) hi -> f + 1 < hi -> hi < 2 ^ 20 ->
  exists p, init_page_allocator membank_start pager_virtual_start (f * PAGE_SIZE) (u32 (hi * PAGE_SIZE)) = Some p /\
    pa_ok membank_start pager_virtual_start (f + 1) hi p /\ forall n k, in_run p n k <-> n = f /\ k = 1.
Proof.
  intros (G1 & G2 & G3 & G4 & G5) Hf Hhi. assert (PAGE_SIZE = 4096) as EP by done. rewrite EP in *.
  set (v := f * 4096 - membank_start + pager_virtual_start). assert (phys_to_virt membank_start pager_virtual_start (f * 4096) = v) as Ev.
  { unfold phys_to_virt. fold v. apply u32_id. unfold is_u32. lia. }
  unfold init_page_allocator. rewrite Ev, <- EP, page_cache_init by lia. change (PageAlloc.page_cache v) with (MkCache 168 168 (v + 56) (v + PAGE_SIZE) 24 [0; 0; 0; 0; 0; 0]).
  change (mem_cache_alloc (MkCache 168 168 (v + 56) (v + PAGE_SIZE) 24 [0; 0; 0; 0; 0; 0])) with
    (Some (u32 (v + 56 + 0), MkCache 168 167 (v + 56) (v + PAGE_SIZE) 24 [1; 0; 0; 0; 0; 0])). cbn [fst snd].
  change (mem_cache_alloc (MkCache 168 167 (v + 56) (v + PAGE_SIZE) 24 [1; 0; 0; 0; 0; 0])) with
    (Some (u32 (v + 56 + 24), first_cache v)). cbv iota.
  rewrite Z.add_0_r, (u32_id (v + 56)), (u32_id (v + 56 + 24)) by (unfold is_u32; lia). rewrite !(proj2 (Z.eqb_neq _ 0)) by lia. cbn [orb].
  eexists. split; [done|]. rewrite !pfn_div, EP, (u32_id (f * 4096 + 4096)), (u32_id (hi * 4096)) by (unfold is_u32; lia).
  replace (f * 4096 + 4096) with ((f + 1) * 4096) by lia. rewrite !Z.div_mul, (u32_id (hi - (f + 1))) by (unfold is_u32; lia).
  split; [split; cbn -[first_cache]|].
  - exists [MkArea (v + 56 + 24) false (f + 1) (hi - (f + 1)) v], (MkArea (v + 56) true f 1 v). cbn. split_and!; (done || lia).
  - split.
    + cbn. apply NoDup_cons. split; [|apply NoDup_singleton]. intros E%list_elem_of_singleton. lia.
    + intros a Ha. exists (first_cache v). rewrite !elem_of_cons in Ha. destruct Ha as [->|[->|Ha%elem_of_nil]]; [..|done]; (split; [by left|]);
        [apply (first_cache_use v 1); lia|]. cbn. replace (v + 56) with (v + 56 + 24 * 0) by lia. apply first_cache_use. lia.
  - constructor; [|constructor]. apply first_cache_inv; lia.
  - split; [|done]. by intros x Hx%elem_of_nil.
  - intros ca c Hin%list_elem_of_singleton. injection Hin as -> ->. exists f. split.
    + exists (MkArea (v + 56) true f 1 v). split; [right; by left|done].
    + unfold __pfn_to_addr. rewrite Z.shiftl_mul_pow2 by done. change (2 ^ PAGE_BITS) with 4096. rewrite (u32_id (f * 4096)) by (unfold is_u32; lia). rewrite Ev.
      cbn -[Z.add]. rewrite EP. split_and!; lia.
  - done.
  - intros n k. unfold in_run. cbn. split.
    + intros (a & Ha & Hu & <- & <-). rewrite !elem_of_cons in Ha. by destruct Ha as [->|[->|Ha%elem_of_nil]].
    + intros [-> ->]. exists (MkArea (v + 56) true f 1 v). split; [right; by left|done].
Qed.

(** * The pages that are marked *)

(** Page [x] is marked for one of the images, whose starts and ends are both
    rounded up. *)
Definition image_marked (x : Z) (i : svc_image) : bool := bool_decide (__pfn (page_align_up (phys_start i)) <= x < __pfn (page_align_up (phys_end i))).
Definition marked (l : list svc_image) (x : Z) : bool := existsb (image_marked x) l.

Lemma pfn_up_range x : 0 <= __pfn (page_align_up x) < 2 ^ 20.
Proof.
  unfold page_align_up. assert (is_u32 (Z.land (u32 (x + PAGE_MASK)) (lnot32 PAGE_MASK))) as Hu by (apply land_u32; [apply u32_range|by apply lnot32_u32]).
  rewrite pfn_div. change PAGE_SIZE with 4096. unfold is_u32 in Hu. Z.to_euclidean_division_equations. lia.
Qed.
Lemma u32_back a b : 0 <= b < 2 ^ 32 -> u32 (a + u32 (b - a)) = b.
Proof. intros Hb. unfold u32. rewrite Zplus_mod_idemp_r. replace (a + (b - a)) with b by lia. apply Z.mod_small. lia. Qed.

(** [b'] is [b] with another map of pages [S] to [E] at [p]. *)
Definition remapped (p S E : Z) (b b' : boot K) (f : Z -> bool) : Prop :=
  (exists m, b' = b <| imem := m |>) /\ imem b' p = S /\ imem b' (p + 4) = E /\ forall j, 0 <= j -> page_bit (imem b') p j = f j.
Lemma set_page_map_inv p S E st n v (b b' : boot K) r : imem b p = S -> imem b (p + 4) = E -> S <= E ->
  set_page_map p st n v b = Ret r b' ->
  S <= st /\ st <= E /\ S <= u32 (st + n) <= E /\
  remapped p S E b b' (fun j => if decide (st <= S + j < u32 (st + n)) then v else page_bit (imem b) p j).
Proof.
  intros HS HE Hle E0. unfold set_page_map in E0. apply bind_inv in E0 as (m & b1 & [= <- <-] & E0). rewrite HS, HE in E0. set (e := u32 (st + n)) in *.
  destruct ((st <? S) || (E <? st) || (E <? e) || (e <? S)) eqn:Ec; [done|]. rewrite !orb_false_iff, !Z.ltb_ge in Ec.
  injection E0 as _ <-. split_and!; try lia. destruct (mark_pages_head v (Z.to_nat (e - st)) (imem b) p (st - S) ltac:(lia)) as [H1 H2].
  split; [by eexists|]. cbn [imem set_field]. split_and!; [cbn; by rewrite H1|cbn; by rewrite H2|]. intros j Hj. cbn.
  rewrite page_bit_marks by lia. repeat case_decide; try done; lia.
Qed.
Lemma remapped_ext p S E (b b' : boot K) f g : remapped p S E b b' f -> (forall j, 0 <= j -> f j = g j) -> remapped p S E b b' g.
Proof. intros (H1 & H2 & H3 & H4) Hfg. split_and!; [done..|]. intros j Hj. by rewrite H4, Hfg. Qed.
Lemma mark_images_inv p S E l : S <= E -> forall e (b b' : boot K) r, imem b p = S -> imem b (p + 4) = E ->
  mark_images p l e b = Ret r b' -> remapped p S E b b' (fun j => page_bit (imem b) p j || marked l (S + j)).
Proof.
  intros Hle. induction l as [|i l IH]; intros e b b' r HS HE E0; cbn [mark_images] in E0.
  - injection E0 as _ <-. split_and!; [exists (imem b); by destruct b|done|done|]. intros j Hj. by rewrite orb_false_r.
  - apply bind_inv in E0 as (u & b1 & E1 & E0). apply (set_page_map_inv _ S E) in E1 as (_ & _ & _ & (m1 & ->) & HS1 & HE1 & Hb1); [|done..].
    apply IH in E0 as ((m2 & ->) & HS2 & HE2 & Hb2); [|done..]. split_and!; [exists m2; by destruct b|done|done|]. intros j Hj.
    rewrite Hb2, Hb1 by done. pose proof (pfn_up_range (phys_end i)). rewrite u32_back by lia. cbn [marked existsb]. unfold image_marked.
    case_decide as Ed; [rewrite (bool_decide_true (_ <= S + j < _)) by done|rewrite (bool_decide_false (_ <= S + j < _)) by done].
    + by rewrite orb_true_r.
    + done.
Qed.
(** The counts of the pages that are not marked. *)
Lemma free_counts_inv n : forall m p i (b b' : boot K) u, 0 <= i -> free_counts n m p i b = Ret u b' ->
  exists g, b' = b <| booted ::= fun s => s <| pages := g |> |> /\
  forall j, g j = if decide (i <= j < i + Z.of_nat n /\ page_bit m p j = false) then pages (booted b) j <| refcnt := -1 |> else pages (booted b) j.
Proof.
  induction n as [|n IH]; intros m p i b b' u Hi E; cbn [free_counts] in E.
  - injection E as _ <-. exists (pages (booted b)). split; [by destruct b as [????????[]]|]. intros j. by rewrite decide_False by lia.
  - apply bind_inv in E as (u1 & b1 & E1 & E). apply IH in E as (g & -> & Hg); [|lia]. destruct (page_bit m p i) eqn:Eb.
    + injection E1 as _ <-. exists g. split; [done|]. intros j. rewrite Hg. destruct (decide (j = i)) as [->|Hne].
      * rewrite !decide_False by (intros []; congruence || lia). done.
      * apply decide_ext. split; intros [? ?]; (split; [lia|done]).
    + assert (pages (booted b1) i = pages (booted b) i <| refcnt := -1 |> /\ forall j, j <> i -> pages (booted b1) j = pages (booted b) j) as [Hpi Hpo].
      { injection E1 as _ <-. split; [exact (fn_lookup_insert _ _ _)|]. intros j Hj. exact (fn_lookup_insert_ne _ _ _ _ (not_eq_sym Hj)). }
      exists g. split; [injection E1 as _ <-; by destruct b as [????????[]]|]. intros j. rewrite Hg. destruct (decide (j = i)) as [->|Hne].
      * rewrite decide_False by (intros []; lia). rewrite decide_True by (split; [lia|done]). exact Hpi.
      * rewrite (Hpo j Hne). apply decide_ext. split; intros [? ?]; (split; [lia|done]).
Qed.

(** * Physical memory *)

Lemma alloc_bootmem_inv bm n a (b b' : boot K) p : alloc_bootmem bm n a b = Ret p b' -> exists c, b' = b <| bm_cursor := c |>.
Proof.
  intros E. unfold alloc_bootmem in E. apply bind_inv in E as (c & b1 & [= <- <-] & E). apply bind_inv in E as (u & b1 & [= _ <-] & E).
  apply bind_inv in E as (u1 & b2 & E1 & [= _ <-]). apply bug_on_inv in E1 as [_ ->]. by eexists.
Qed.
(** The pages that are marked first are those of the images. *)
Lemma init_physmem_primary_inv bm (b b' : boot K) u c : physmem_cap (cont_mem_regions b) = Some c -> 0 <= cap_start c <= cap_end c -> cap_end c < 2 ^ 20 ->
  init_physmem_primary bm b = Ret u b' ->
  exists p, page_map b' = p /\ imem b' p = cap_start c /\ imem b' (p + 4) = cap_end c /\ booted b' = booted b /\ bank b' = bank b /\
    forall j, 0 <= j < cap_end c - cap_start c -> page_bit (imem b') p j = marked (images (bdesc b)) (cap_start c + j).
Proof.
  intros Ec HS HE E. unfold init_physmem_primary in E. apply bind_inv in E as (r & b1 & [= <- <-] & E). rewrite Ec in E.
  apply bind_inv in E as (c' & b1 & [= <- <-] & E). apply bind_inv in E as (p & b1 & E1 & E). apply alloc_bootmem_inv in E1 as (k & ->).
  apply bind_inv in E as (u1 & b2 & [= _ <-] & E). apply bind_inv in E as (u2 & b3 & E2 & E). exists p.
  unfold init_page_map in E2. apply bind_inv in E2 as (u3 & b4 & [= _ <-] & E2). apply bind_inv in E2 as (u4 & b4 & E3 & [= _ <-]).
  apply (set_page_map_inv p (cap_start c) (cap_end c)) in E3 as (_ & _ & _ & (m & ->) & H1 & H2 & H3); cycle 1.
  { cbn. rewrite fn_lookup_insert_ne by lia. apply fn_lookup_insert. }
  { cbn. apply fn_lookup_insert. }
  { lia. }
  apply bind_inv in E as (d & b5 & [= <- <-] & E). apply bind_inv in E as (e & b5 & E4 & E).
  apply (mark_images_inv p (cap_start c) (cap_end c)) in E4 as ((m2 & ->) & H4 & H5 & H6); [|lia|done..]. injection E as _ <-.
  split_and!; [done..|]. intros j Hj. refine (eq_trans (H6 j ltac:(lia)) _). rewrite H3, u32_back by lia. by rewrite decide_True by lia.
Qed.

(** What start-up says of the pages [S] to [E] of memory: which are taken, as
    [t] tells or by the [n] pages of page structures from page [a] on, and where
    the memory starts that it hands over. *)
Definition array_pages (S E : Z) : Z := (SIZEOF_PAGE * (E - S) + PAGE_MASK) / PAGE_SIZE.
Definition taken (t : Z -> bool) (a n x : Z) : bool := t x || bool_decide (a <= x < a + n).
Record handed_over (t : Z -> bool) (S E : Z) (b b' : boot K) (a f : Z) : Prop := {
  ho_array : S <= a /\ forall x, a <= x < E -> t x = false;
  ho_free : a + array_pages S E <= f <= E /\ mb_free (bank b') = f * PAGE_SIZE /\ mb_end (bank b') = E * PAGE_SIZE;
  ho_behind : forall x, f <= x < E -> taken t a (array_pages S E) x = false;
  ho_counts : forall x, S <= x < E -> pages (booted b') (x - S) =
    if taken t a (array_pages S E) x then pages (booted b) (x - S) else pages (booted b) (x - S) <| refcnt := -1 |> }.
Lemma handed_over_ext t t' S E b b' a f : (forall x, t' x = t x) -> handed_over t S E b b' a f -> handed_over t' S E b b' a f.
Proof.
  intros Ht [(H1 & H2) H3 H4 H5]. assert (forall n x, taken t' a n x = taken t a n x) as Htk by (intros n x; unfold taken; by rewrite Ht).
  split; [|done|intros x Hx; rewrite Htk; by apply H4|intros x Hx; rewrite Htk; by apply H5].
  split; [done|]. intros x Hx. rewrite Ht. by apply H2.
Qed.

Lemma l4_map_helper_pages a n (s s' : mm K) r : l4_map_helper a n s = Ret r s' -> pages s' = pages s.
Proof.
  assert (PreOrder (fun s s' : mm K => pages s' = pages s)) as Hpre by (split; [by intros ?|intros x y z -> ->; done]).
  intros E. refine ((_ : keeps (fun s s' : mm K => pages s' = pages s) (l4_map_helper a n)) _ _ _ E). unfold l4_map_helper, pager_new_address, l4_map.
  repeat keep1; intros s1 x s2; repeat case_match; by intros [= <- <-].
Qed.
Lemma array_pages_pos S E : 0 <= S < E -> E < 2 ^ 20 -> __pfn (page_align_up (u32 (SIZEOF_PAGE * (E - S)))) = array_pages S E /\ 0 < array_pages S E < 2 ^ 14.
Proof.
  intros HS HE. unfold SIZEOF_PAGE. rewrite (u32_id (32 * _)) by (unfold is_u32; lia). unfold array_pages, SIZEOF_PAGE.
  rewrite pages_of_size by (unfold PAGE_MASK, PAGE_SIZE; lia). split; [done|]. unfold PAGE_MASK, PAGE_SIZE. Z.to_euclidean_division_equations. lia.
Qed.
(** The end of the last marked page, for marks [t] of pages [S] to [E]. *)
Lemma behind_used_pages (t : Z -> bool) m p S E free : 0 <= S < E -> E < 2 ^ 20 -> (forall j, 0 <= j < E - S -> page_bit m p j = t (S + j)) ->
  let r := behind_used (Z.to_nat (E - S)) m p 0 (S * PAGE_SIZE) free in
  (exists x, S <= x < E /\ t x = true /\ r = (x + 1) * PAGE_SIZE /\ forall y, x < y < E -> t y = false) \/
  r = free /\ forall y, S <= y < E -> t y = false.
Proof.
  intros HS HE Ht. cbv zeta. assert (PAGE_SIZE = 4096) as EP by done.
  destruct (behind_used_spec (Z.to_nat (E - S)) m p 0 (S * PAGE_SIZE) free ltac:(lia)) as [(k & Hk & Hb & Hl & Er)|[Hl Er]].
  - left. exists (S + k). rewrite Ht in Hb by lia. split_and!; [lia|lia|done| |].
    + rewrite Er, EP. rewrite u32_id by (unfold is_u32; lia). lia.
    + intros y Hy. replace y with (S + (y - S)) by lia. rewrite <- Ht by lia. apply Hl. lia.
  - right. split; [done|]. intros y Hy. replace y with (S + (y - S)) by lia. rewrite <- Ht by lia. apply Hl. lia.
Qed.
Lemma with_mm_inv {A} (m : prog (mm K) A) (b b' : boot K) a : with_mm m b = Ret a b' -> exists s, m (booted b) = Ret a s /\ b' = b <| booted := s |>.
Proof. unfold with_mm. destruct (m (booted b)); [|done..]. intros [= -> <-]. by eexists. Qed.
Lemma l4_map_pages a v n f t (s s' : mm K) r : l4_map a v n f t s = Ret r s' -> pages s' = pages s.
Proof. unfold l4_map. repeat case_match. by intros [= _ <-]. Qed.
Lemma init_physmem_secondary_inv (b b' : boot K) u p S E l : page_map b = p -> imem b p = S -> imem b (p + 4) = E -> 0 <= S < E -> E < 2 ^ 20 ->
  mb_free (bank b) = 0 -> (forall j, 0 <= j < E - S -> page_bit (imem b) p j = marked l (S + j)) ->
  init_physmem_secondary b = Ret u b' -> exists a f, handed_over (marked l) S E b b' a f.
Proof.
  intros Ep ES EE HS HE Hf0 Hbits E0. destruct (array_pages_pos S E HS HE) as [En Hn]. set (n := array_pages S E) in *.
  assert (PAGE_SIZE = 4096) as EP by done.
  assert (u32 (__pfn_to_addr S) = S * 4096 /\ u32 (__pfn_to_addr E) = E * 4096) as [Es Ee].
  { rewrite !page_addr, EP by lia. split; apply u32_id; unfold is_u32; lia. }
  unfold init_physmem_secondary in E0. apply bind_inv in E0 as (p' & b1 & [= <- <-] & E0). apply bind_inv in E0 as (m & b1 & [= <- <-] & E0).
  rewrite Ep, ES, EE, Es, Ee, En in E0. apply bind_inv in E0 as (u1 & b1 & [= _ <-] & E0). apply bind_inv in E0 as (k & b1 & [= <- <-] & E0).
  cbn [bank set_field mb_end mb_free mb_start] in E0. rewrite Hf0 in E0. set (F := behind_used _ _ _ _ _ 0) in E0.
  pose proof (behind_used_pages (marked l) (imem b) p S E 0 HS HE Hbits) as Hbehind. cbv zeta in Hbehind. rewrite EP in Hbehind. fold F in Hbehind.
  apply bind_inv in E0 as (u2 & b1 & E1 & E0). apply bug_on_inv in E1 as [Hlt ->].
  apply bind_inv in E0 as (a1 & b1 & E1 & E0). apply with_mm_inv in E1 as (s1 & E1 & ->). apply l4_map_helper_pages in E1.
  apply bind_inv in E0 as (u3 & b1 & E2 & E0). apply bug_on_inv in E2 as [_ ->]. apply bind_inv in E0 as (u4 & b1 & [= _ <-] & E0).
  apply bind_inv in E0 as (u5 & b1 & E2 & E0). apply (set_page_map_inv p S E) in E2 as (A1 & A2 & A3 & (m1 & ->) & _ & _ & Hb1); [|done|done|lia].
  apply bind_inv in E0 as (m2 & b1 & [= <- <-] & E0). apply bind_inv in E0 as (u6 & b1 & E2 & E0). apply free_counts_inv in E2 as (g & -> & Hg); [|lia].
  apply bind_inv in E0 as (k & b1 & [= <- <-] & E0). apply bind_inv in E0 as (u7 & b1 & E2 & E0). apply bug_on_inv in E2 as [Hsame ->].
  do 1 (apply bind_inv in E0 as (? & b1 & E2 & E0); apply bug_on_inv in E2 as [_ ->]).
  apply bind_inv in E0 as (err & b1 & E2 & E0). apply with_mm_inv in E2 as (s2 & E2 & ->). apply l4_map_pages in E2.
  do 2 (apply bind_inv in E0 as (? & b1 & E3 & E0); apply bug_on_inv in E3 as [_ ->]). apply bug_on_inv in E0 as [_ ->].
  assert (F = F / 4096 * 4096) as EF.
  { destruct Hbehind as [(x2 & _ & _ & -> & _)|[-> _]]; [by rewrite Z.div_mul|done]. }
  rewrite !pfn_div, EP in *. set (A := F / 4096) in *. rewrite (u32_id (A + n)) in * by (unfold is_u32; lia). exists A.
  assert (forall x, A <= x < E -> marked l x = false) as Hclear.
  { intros y Hy. destruct Hbehind as [(x2 & Hx2 & _ & E3 & Hc)|[_ Hc]]; apply Hc; lia. }
  assert (forall j, 0 <= j < E - S -> page_bit m1 p j = taken (marked l) A n (S + j)) as Hm1.
  { intros j Hj. refine (eq_trans (Hb1 j ltac:(lia)) _). unfold taken. change (page_bit _ p j) with (page_bit (imem b) p j). rewrite Hbits by done.
    case_decide as Hd; [rewrite (bool_decide_true (_ <= _ < _)) by done; by rewrite orb_true_r|rewrite (bool_decide_false (_ <= _ < _)) by done; by rewrite orb_false_r]. }
  apply negb_false_iff, Z.eqb_eq in Hsame. cbn [bank set_field mb_free] in Hsame. rewrite Hf0 in Hsame. fold F in Hsame.
  pose proof (behind_used_pages (taken (marked l) A n) m1 p S E 0 HS HE Hm1) as Hend. cbv zeta in Hend. rewrite EP, Hsame, u32_id in Hend by (unfold is_u32; lia).
  assert (taken (marked l) A n A = true) as Htop by (unfold taken; rewrite bool_decide_true by lia; apply orb_true_r).
  destruct Hend as [(x2 & Hx2 & Ht & Ex & Hc)|[_ Hc]]; [|rewrite Hc in Htop by lia; done].
  exists (x2 + 1). split.
  - split; [lia|done].
  - fold n. split; [lia|]. cbn [bank set_field mb_free mb_end]. rewrite Hf0. fold F. rewrite EP, u32_id by (unfold is_u32; lia). split; [lia|done].
  - intros y Hy. apply Hc. lia.
  - intros y Hy. refine (eq_trans (f_equal (fun h => h (y - S)) E2) _). refine (eq_trans (Hg (y - S)) _).
    change (page_bit _ p (y - S)) with (page_bit m1 p (y - S)). rewrite (Hm1 (y - S)) by lia. replace (S + (y - S)) with y by lia.
    fold n. destruct (taken (marked l) A n y).
    + rewrite decide_False by (intros []; done). exact (f_equal (fun h => h (y - S)) E1).
    + rewrite decide_True by (split; [lia|done]). exact (f_equal (fun h => h (y - S) <| refcnt := -1 |>) E1).
Qed.

(** The map of pages takes a word for 32 pages, and what is allocated for it a
    byte for 32 pages: the word of the last page ends behind what was allocated. *)
Lemma page_map_outgrows_its_memory p n : 0 < n ->
  p + (SIZEOF_PAGE_BITMAP + Z.shiftr n 5 + 1) < map_word p (BITWISE_GETWORD (n - 1)) + 4.
Proof.
  intros Hn. unfold map_word, BITWISE_GETWORD, SIZEOF_PAGE_BITMAP. rewrite !Z.shiftr_div_pow2 by lia. change (2 ^ 5) with 32.
  Z.to_euclidean_division_equations. lia.
Qed.

Lemma init_physmem_hands_over bm (b b' : boot K) c : physmem_cap (cont_mem_regions b) = Some c ->
  0 <= cap_start c < cap_end c -> cap_end c < 2 ^ 20 -> mb_free (bank b) = 0 -> membank_start = cap_start c * PAGE_SIZE ->
  0 < pager_virtual_start -> (cap_end c - cap_start c) * PAGE_SIZE + pager_virtual_start < 2 ^ 32 ->
  init_physmem bm b = Ret tt b' ->
  exists a f, handed_over (marked (images (bdesc b))) (cap_start c) (cap_end c) b b' a f /\
    (f + 1 < cap_end c -> pa_ok membank_start pager_virtual_start (f + 1) (cap_end c) (mpages (booted b')) /\
       forall n k, in_run (mpages (booted b')) n k <-> n = f /\ k = 1).
Proof.
  intros Ec HS HE Hf0 Hm Hv Hroom E0. assert (PAGE_SIZE = 4096) as EP by done. rewrite EP in Hm, Hroom. unfold init_physmem in E0.
  apply bind_inv in E0 as (u1 & b1 & E1 & E0). apply (init_physmem_primary_inv _ _ _ _ c) in E1 as (p & P1 & P2 & P3 & P4 & P5 & P6); [|done|lia|done].
  apply bind_inv in E0 as (u2 & b2 & E2 & E0).
  apply (init_physmem_secondary_inv _ _ _ p (cap_start c) (cap_end c) (images (bdesc b))) in E2 as (a & f & [H1 (H2 & H3 & H4) H5 H6]); try done; [|by rewrite P5].
  apply bind_inv in E0 as (k & b3 & [= <- <-] & E0). rewrite P4 in H6. exists a, f.
  destruct (init_page_allocator _ _ (mb_free _) _) as [pa|] eqn:Ea; [|done]. injection E0 as <-. split.
  - split; [done|split; [lia|split; [exact H3|exact H4]]|done|exact H6].
  - intros Hf. pose proof (array_pages_pos _ _ HS HE) as [_ Hn].
    destruct (init_page_allocator_ok f (cap_end c)) as (pa' & Ep & Hok); [|done|done|].
    { unfold geometry. rewrite EP, Hm. lia. }
    rewrite EP in Ep, H3, H4. rewrite u32_id in Ep by (unfold is_u32; lia). rewrite H3, H4, Ep in Ea. injection Ea as <-. exact Hok.
Qed.

(** An image has a byte in page [x]. *)
Definition in_image (x : Z) (i : svc_image) : bool :=
  bool_decide (phys_start i < phys_end i /\ phys_start i < (x + 1) * PAGE_SIZE /\ x * PAGE_SIZE < phys_end i).
Definition covered (l : list svc_image) (x : Z) : bool := existsb (in_image x) l.
(** An image that starts on a page boundary, below the last page there is. *)
Definition well_placed (i : svc_image) : Prop :=
  phys_start i mod PAGE_SIZE = 0 /\ 0 <= phys_start i < 2 ^ 32 - PAGE_SIZE /\ 0 <= phys_end i < 2 ^ 32 - PAGE_SIZE.
Lemma marked_covered l x : Forall well_placed l -> marked l x = covered l x.
Proof.
  unfold marked, covered. induction 1 as [|i l (H1 & H2 & H3) Hl IH]; cbn [existsb]; [done|]. rewrite IH. f_equal.
  unfold image_marked, in_image. rewrite !pages_of_size by (unfold PAGE_MASK; lia). unfold PAGE_MASK. change PAGE_SIZE with 4096 in *.
  apply bool_decide_ext. Z.to_euclidean_division_equations. lia.
Qed.

(** C33: [init_physmem], when it returns and the images start on page
    boundaries, has given the pager memory that nobody uses: the structures of
    the pages from [S] to [E] of the physical memory capability are in pages
    behind the last page in which an image has a byte, and the memory handed over
    starts behind those, at page [f].  A page's use count says free exactly when
    no image has a byte in it and no page structure is in it.  When there is more
    than one page left, the page allocator is well formed, its first cache is in
    page [f] and everything up to [E] is one free area.  (The start of an image
    that lies within a page is rounded up, and that page is not marked.) *)
Theorem init_physmem_hands_over_free_memory bm (b b' : boot K) c : physmem_cap (cont_mem_regions b) = Some c ->
  0 <= cap_start c < cap_end c -> cap_end c < 2 ^ 20 -> mb_free (bank b) = 0 -> membank_start = cap_start c * PAGE_SIZE ->
  0 < pager_virtual_start -> (cap_end c - cap_start c) * PAGE_SIZE + pager_virtual_start < 2 ^ 32 ->
  Forall well_placed (images (bdesc b)) ->
  init_physmem bm b = Ret tt b' ->
  exists a f, handed_over (covered (images (bdesc b))) (cap_start c) (cap_end c) b b' a f /\
    (f + 1 < cap_end c -> pa_ok membank_start pager_virtual_start (f + 1) (cap_end c) (mpages (booted b')) /\
       forall n k, in_run (mpages (booted b')) n k <-> n = f /\ k = 1).
Proof.
  intros Ec HS HE Hf0 Hm Hv Hroom Hi E0. destruct (init_physmem_hands_over _ _ _ _ Ec HS HE Hf0 Hm Hv Hroom E0) as (a & f & H1 & H2).
  exists a, f. split; [|done]. eapply handed_over_ext, H1. intros x. symmetry. by apply marked_covered.
Qed.
End Bringup.

(** An image that starts within a page: its first page is covered, not marked. *)
Theorem first_page_is_not_marked (i : svc_image) (l : list svc_image) : let x := phys_start i / PAGE_SIZE in
  phys_start i mod PAGE_SIZE <> 0 -> 0 <= phys_start i < 2 ^ 32 - PAGE_SIZE -> phys_start i < phys_end i ->
  covered (i :: l) x = true /\ marked (i :: l) x = marked l x.
Proof.
  intros x H1 H2 H3. unfold covered, marked, in_image, image_marked. cbn [existsb]. split.
  - apply orb_true_iff. left. apply bool_decide_eq_true. unfold x. change PAGE_SIZE with 4096 in *. Z.to_euclidean_division_equations. lia.
  - rewrite bool_decide_false; [done|]. rewrite pages_of_size by (unfold PAGE_MASK; lia). unfold x, PAGE_MASK. change PAGE_SIZE with 4096 in *.
    Z.to_euclidean_division_equations. lia.
Qed.

(** * A pager that starts *)

(** 128 pages of memory, of which two images take 34; the second ends within a
    page. *)
Definition boot_cap : capability := MkCapability CAP_TYPE_MAP_PHYSMEM 0 0x100 0x180.
Definition boot_desc : bootdesc := MkBootdesc 56 [MkImage [109; 109; 48] 0x100000 0x120000; MkImage [97] 0x12F000 0x130800].
Definition boot_start : boot ptab := MkBoot 0x40028000 (fun _ => 0) boot_desc 0 [boot_cap] (no_regions <| physmem_cap := Some boot_cap |>)
  (MkMemdesc 0 0 0 0 0) (MkMembank 0 0 0 0) mm_empty.
Definition boot_end : boot ptab := match init_physmem 0x40028000 boot_start with Ret _ b => b | _ => boot_start end.
Lemma boot_runs : init_physmem 0x40028000 boot_start = Ret tt boot_end.
Proof.
  assert (match init_physmem 0x40028000 boot_start with Ret _ _ => true | _ => false end = true) as E by (vm_compute; reflexivity).
  unfold boot_end. destruct (init_physmem _ _) as [[] b| | |]; [done|discriminate..].
Qed.
Example boot_memory : (mb_free (bank boot_end), map (fun a => (pfn a, numpages a, used a)) (page_area_list (mpages (booted boot_end)))) =
  (0x132000, [(0x133, 0x4D, false); (0x132, 1, true)]).
Proof. vm_compute. reflexivity. Qed.
Lemma init_physmem_hands_over_free_memory_witness : exists a f, handed_over (covered (images boot_desc)) 0x100 0x180 boot_start boot_end a f.
Proof.
  destruct (@init_physmem_hands_over_free_memory ptab demo_kernel demo_layout 0x40028000 boot_start boot_end boot_cap eq_refl ltac:(cbn; lia) ltac:(cbn; lia) eq_refl eq_refl
    ltac:(reflexivity) ltac:(reflexivity)) as (a & f & H1 & _); [|exact boot_runs|exists a, f; exact H1].
  repeat constructor; cbn; (done || lia).
Defined.
