(* ===== verification/Strings.v ===== *)
(** Strings and blocks of memory: the C routines of the kernel's [lib/string.c]
    and of the pager's C library, [conts/userlibs/libc/src]; the library's
    [memcpy] and [memset] are weak, for processors that have no routine of their
    own.  Memory is a function from addresses to bytes. *)
From S2P Require Import Prelude Bits Defs Pools PageAlloc Memfs Vm Paths Vfs.

(** * [memcpy.c] *)

(** One assignment through a pointer to [k] bytes. *)
Definition move (k : nat) (d s : Z) (m : bytes) : bytes := put_bytes (map (fun i => m (s + Z.of_nat i)) (seq 0 k)) d m.
(** [while (len > remain)] with a unit of [k] bytes: the pointers when it ends. *)
Fixpoint copy_units (fuel k : nat) (d s len remain : Z) (m : bytes) : option (Z * Z * bytes) :=
  if remain <? len then
    match fuel with
    | O => None
    | S fuel => copy_units fuel k (d + Z.of_nat k) (s + Z.of_nat k) (u32 (len - Z.of_nat k)) remain (move k d s m)
    end
  else Some (d, s, m).
(** [while (len--)] *)
Fixpoint copy_each (n : nat) (d s : Z) (m : bytes) : Z * Z * bytes :=
  match n with O => (d, s, m) | S n => copy_each n (d + 1) (s + 1) (move 1 d s m) end.
Definition memcpy (dst src len : Z) (m : bytes) : option bytes :=
  let alignment := Z.lor (Z.land src 3) (Z.land dst 3) in
  let remain := Z.land len 3 in
  let fuel := S (Z.to_nat (len / 2)) in
  r ← (if alignment =? 0 then copy_units fuel 4 dst src len remain m
       else if alignment =? 2 then copy_units fuel 2 dst src len remain m
       else Some (copy_each (Z.to_nat len) dst src m));
  let '(d, s, m) := (r : Z * Z * bytes) in
  Some (copy_each (Z.to_nat remain) d s m).2.

(** * [memset.c] *)

(** [if (len--) { *d++ = c; }] *)
Definition set_if_left (c : Z) (x : Z * Z * bytes) : Z * Z * bytes :=
  let '(d, len, m) := x in if len =? 0 then (d, u32 (len - 1), m) else (d + 1, u32 (len - 1), <[d := c]> m).
(** [while (len > remain)] with words, which [None] says are not aligned. *)
Fixpoint set_words (fuel : nat) (c d len remain : Z) (m : bytes) : option (Z * bytes) :=
  if remain <? len then
    match fuel with
    | O => None
    | S fuel =>
        if negb (Z.land d 3 =? 0) then None
        else set_words fuel c (d + 4) (u32 (len - 4)) remain (put_bytes [c; c; c; c] d m)
    end
  else Some (d, m).
Fixpoint set_each (n : nat) (c d : Z) (m : bytes) : bytes :=
  match n with O => m | S n => set_each n c (d + 1) (<[d := c]> m) end.
Definition memset (dst c len : Z) (m : bytes) : option bytes :=
  let c := Z.land c 0xFF in
  let alignment := Z.lor (Z.land len 3) (Z.land dst 3) in
  let '(d, len, m) := Nat.iter (Z.to_nat alignment) (set_if_left c) (dst, len, m) in
  let remain := Z.land len 3 in
  let len := u32 (len - remain) in
  r ← set_words (S (Z.to_nat (len / 4))) c d len remain m;
  let '(d, m) := (r : Z * bytes) in
  Some (set_each (Z.to_nat remain) c d m).

(** * Strings *)

(** [strcmp] of both libraries and [strncmp]: [n] bounds the characters read. *)
Fixpoint strcmp (n : nat) (s1 s2 : Z) (m : bytes) : option Z :=
  match n with
  | O => None
  | S n => let d := m s1 - m s2 in if negb (d =? 0) || (m s1 =? 0) then Some d else strcmp n (s1 + 1) (s2 + 1) m
  end.
Fixpoint strncmp (n : nat) (s1 s2 : Z) (m : bytes) : Z :=
  match n with
  | O => 0
  | S n => let d := m s1 - m s2 in if negb (d =? 0) || (m s1 =? 0) then d else strncmp n (s1 + 1) (s2 + 1) m
  end.
Fixpoint memcmp (n : nat) (s1 s2 : Z) (m : bytes) : Z :=
  match n with O => 0 | S n => let d := m s1 - m s2 in if negb (d =? 0) then d else memcmp n (s1 + 1) (s2 + 1) m end.
Fixpoint strlen (n : nat) (s : Z) (m : bytes) : option Z :=
  match n with O => None | S n => if m s =? 0 then Some 0 else l ← strlen n (s + 1) m; Some (l + 1) end.
Fixpoint c_strcpy (n : nat) (d s : Z) (m : bytes) : option bytes :=
  match n with
  | O => None
  | S n => let c := m s in let m := <[d := c]> m in if c =? 0 then Some m else c_strcpy n (d + 1) (s + 1) m
  end.
(** [strncpy] of the C library, and the kernel's, whose source stays at the null. *)
Fixpoint c_strncpy (n : nat) (d s : Z) (m : bytes) : bytes :=
  match n with
  | O => m
  | S n => let c := m s in let m := <[d := c]> m in if c =? 0 then set_each n 0 (d + 1) m else c_strncpy n (d + 1) (s + 1) m
  end.
Fixpoint kernel_strncpy (count : nat) (temp from : Z) (m : bytes) : bytes :=
  match count with
  | O => m
  | S count => let m := <[temp := m from]> m in kernel_strncpy count (temp + 1) (if negb (m from =? 0) then from + 1 else from) m
  end.

(** * Copies *)

Lemma put_bytes_spec l : forall d m a, put_bytes l d m a = if decide (d <= a < d + Z.of_nat (length l)) then nth (Z.to_nat (a - d)) l 0 else m a.
Proof.
  induction l as [|x l IH]; intros d m a; cbn [put_bytes length].
  - by rewrite decide_False by lia.
  - rewrite IH. unfold insert, fn_insert. destruct (decide (d = a)) as [<-|Hne].
    + rewrite decide_False by lia. rewrite decide_True by lia. by rewrite Z.sub_diag.
    + case_decide as Hd; [|by rewrite decide_False by lia]. rewrite decide_True by lia.
      by replace (Z.to_nat (a - d)) with (S (Z.to_nat (a - (d + 1)))) by lia.
Qed.
Lemma move_spec k d s m a : move k d s m a = if decide (d <= a < d + Z.of_nat k) then m (s + (a - d)) else m a.
Proof.
  unfold move. rewrite put_bytes_spec, length_map, length_seq. case_decide; [|done].
  rewrite (nth_indep _ 0 (m (s + Z.of_nat 0))) by (rewrite length_map, length_seq; lia).
  rewrite (map_nth (fun i => m (s + Z.of_nat i)) (seq 0 k) 0%nat), seq_nth by lia. f_equal. lia.
Qed.

(** [m'] is [m] with the [n] bytes from [s] on at [d]. *)
Definition copies (m : bytes) (d s n : Z) (m' : bytes) : Prop := forall a, m' a = if decide (d <= a < d + n) then m (s + (a - d)) else m a.
Definition apart (d s n : Z) : Prop := s + n <= d \/ d + n <= s.
Lemma copies_none m d s : copies m d s 0 m.
Proof. intros a. by rewrite decide_False by lia. Qed.
Lemma copies_move m d s N i k m1 : apart d s N -> 0 <= i -> i + Z.of_nat k <= N -> copies m d s i m1 ->
  copies m d s (i + Z.of_nat k) (move k (d + i) (s + i) m1).
Proof.
  intros Hap Hi Hk Hc a. rewrite move_spec, !Hc. unfold apart in Hap. repeat case_decide; try lia; try done. f_equal. lia.
Qed.
Lemma copy_units_copies m d s N k r : apart d s N -> (0 < k)%nat -> forall fuel i len remain m1, (r < fuel)%nat -> 0 <= i -> 0 <= remain ->
  len = remain + Z.of_nat k * Z.of_nat r -> len < 2 ^ 32 -> i + Z.of_nat k * Z.of_nat r <= N -> copies m d s i m1 ->
  exists m2, copy_units fuel k (d + i) (s + i) len remain m1 = Some (d + (i + Z.of_nat k * Z.of_nat r), s + (i + Z.of_nat k * Z.of_nat r), m2) /\
    copies m d s (i + Z.of_nat k * Z.of_nat r) m2.
Proof.
  intros Hap Hk. induction r as [|r IH]; intros fuel i len remain m1 Hf Hi Hr El Hl HN Hc; (destruct fuel as [|fuel]; [lia|]); cbn [copy_units].
  - rewrite (proj2 (Z.ltb_ge _ _)) by lia. rewrite Z.mul_0_r, Z.add_0_r. by eexists.
  - rewrite (proj2 (Z.ltb_lt _ _)) by lia. rewrite u32_id by (unfold is_u32; lia).
    destruct (IH fuel (i + Z.of_nat k) (len - Z.of_nat k) remain (move k (d + i) (s + i) m1)) as (m2 & E & Hc2); try lia.
    { apply (copies_move m d s N); try done. lia. }
    replace (i + Z.of_nat k + Z.of_nat k * Z.of_nat r) with (i + Z.of_nat k * Z.of_nat (S r)) in * by lia.
    exists m2. split; [|done]. by rewrite <- E, !Z.add_assoc.
Qed.
Lemma copy_each_copies m d s N n : apart d s N -> forall i m1, 0 <= i -> i + Z.of_nat n <= N -> copies m d s i m1 ->
  exists m2, copy_each n (d + i) (s + i) m1 = (d + (i + Z.of_nat n), s + (i + Z.of_nat n), m2) /\ copies m d s (i + Z.of_nat n) m2.
Proof.
  intros Hap. induction n as [|n IH]; intros i m1 Hi HN Hc; cbn [copy_each].
  - rewrite Z.add_0_r. by eexists.
  - destruct (IH (i + 1) (move 1 (d + i) (s + i) m1)) as (m2 & E & Hc2); [lia|lia|by apply (copies_move m d s N i 1); [..|lia|done]; try done; lia|].
    replace (i + 1 + Z.of_nat n) with (i + Z.of_nat (S n)) in * by lia. exists m2. split; [|done]. by rewrite <- E, !Z.add_assoc.
Qed.
Lemma low_bits x : 0 <= Z.land x 3 < 4 /\ (Z.land x 3 = x mod 4).
Proof. change 3 with (Z.ones 2). rewrite Z.land_ones by done. split; [by apply Z.mod_pos_bound|done]. Qed.
Lemma low_bits_lor x y : 0 <= Z.lor (Z.land x 3) (Z.land y 3) < 4.
Proof.
  destruct (low_bits x) as [Hx _], (low_bits y) as [Hy _]. set (u := Z.land x 3) in *. set (v := Z.land y 3) in *.
  assert (u = 0 \/ u = 1 \/ u = 2 \/ u = 3) as Hu by lia. assert (v = 0 \/ v = 1 \/ v = 2 \/ v = 3) as Hv by lia.
  destruct Hu as [->|[->|[->| ->]]], Hv as [->|[->|[->| ->]]]; by vm_compute.
Qed.

(** C39: The C library's [memcpy] of areas that are apart returns, and copies
    exactly the bytes asked for, in words or halves of words as the pointers
    allow. When one of the pointers is odd it copies, after all the bytes, as
    many more as the length leaves by division by 4. *)
Theorem memcpy_copies dst src len m : 0 <= len < 2 ^ 32 ->
  let extra := if Z.odd (Z.lor (Z.land src 3) (Z.land dst 3)) then len mod 4 else 0 in
  apart dst src (len + extra) -> exists m', memcpy dst src len m = Some m' /\ copies m dst src (len + extra) m'.
Proof.
  intros Hlen extra. unfold memcpy. pose proof (low_bits_lor src dst) as Ha. set (al := Z.lor _ _) in *.
  destruct (low_bits len) as [Hr Er]. rewrite Er in *. set (q := len / 4). assert (len = 4 * q + len mod 4) as Eq by (apply Z.div_mod; done).
  assert (0 <= q) by (by apply Z.div_pos; lia). assert (2 * q <= len / 2) as Hq by (apply Z.div_le_lower_bound; lia). intros Hap.
  assert (forall k : nat, (0 < k)%nat -> forall r : nat, Z.of_nat k * Z.of_nat r = 4 * q -> (r <= 2 * Z.to_nat q)%nat -> exists m2,
    copy_units (S (Z.to_nat (len / 2))) k dst src len (len mod 4) m = Some (dst + 4 * q, src + 4 * q, m2) /\ copies m dst src (4 * q) m2) as Hunits.
  { intros k Hk r Ek Hrq. destruct (copy_units_copies m dst src (len + extra) k r Hap Hk (S (Z.to_nat (len / 2))) 0 len (len mod 4) m) as (m2 & E & Hc);
      try lia; [unfold extra; destruct (Z.odd al); lia|apply copies_none|].
    rewrite !Z.add_0_r, !Z.add_0_l, Ek in E. rewrite Z.add_0_l, Ek in Hc. by eexists. }
  assert (forall i m1, 0 <= i -> i + len mod 4 = len + extra -> copies m dst src i m1 ->
    exists m', Some (copy_each (Z.to_nat (len mod 4)) (dst + i) (src + i) m1).2 = Some m' /\ copies m dst src (len + extra) m') as Htail.
  { intros i m1 Hi Ei Hc. destruct (copy_each_copies m dst src (len + extra) (Z.to_nat (len mod 4)) Hap i m1) as (m2 & E & Hc2); [lia|lia|done|].
    rewrite E. exists m2. split; [done|]. by replace (len + extra) with (i + Z.of_nat (Z.to_nat (len mod 4))) by lia. }
  destruct (Z.eqb_spec al 0) as [E0|E0]; [|destruct (Z.eqb_spec al 2) as [E2|E2]].
  - destruct (Hunits 4%nat ltac:(lia) (Z.to_nat q)) as (m2 & -> & Hc); [lia|lia|]. cbn [mbind option_bind]. apply Htail; [lia|unfold extra; rewrite E0; cbn; lia|done].
  - destruct (Hunits 2%nat ltac:(lia) (2 * Z.to_nat q)%nat) as (m2 & -> & Hc); [lia|lia|]. cbn [mbind option_bind]. apply Htail; [lia|unfold extra; rewrite E2; cbn; lia|done].
  - assert (extra = len mod 4) as Ex by (unfold extra; assert (al = 1 \/ al = 3) as [-> | ->] by lia; done).
    destruct (copy_each_copies m dst src (len + extra) (Z.to_nat len) Hap 0 m) as (m2 & E & Hc); [lia|lia|apply copies_none|].
    rewrite !Z.add_0_r, !Z.add_0_l, Z2Nat.id in E by lia. rewrite Z.add_0_l, Z2Nat.id in Hc by lia. rewrite E. cbn [mbind option_bind]. by apply Htail; [lia|lia|].
Qed.

(** * Filling *)

(** [m'] is [m] with [c] in the [n] bytes from [d] on. *)
Definition filled (m : bytes) (d c n : Z) (m' : bytes) : Prop := forall a, m' a = if decide (d <= a < d + n) then c else m a.
Lemma filled_none m d c : filled m d c 0 m. Proof. intros a. by rewrite decide_False by lia. Qed.
Lemma filled_one m d c n m1 : 0 <= n -> filled m d c n m1 -> filled m d c (n + 1) (<[d + n := c]> m1).
Proof. intros Hn Hf a. unfold insert, fn_insert. case_decide as Hd; [by rewrite decide_True by lia|]. rewrite Hf. repeat case_decide; done || lia. Qed.
Lemma filled_word m d c n m1 : 0 <= n -> filled m d c n m1 -> filled m d c (n + 4) (put_bytes [c; c; c; c] (d + n) m1).
Proof.
  intros Hn Hf. replace (n + 4) with (n + 1 + 1 + 1 + 1) by lia. cbn [put_bytes]. rewrite <- !(Z.add_assoc d).
  repeat (apply filled_one; [lia|]). done.
Qed.
Lemma set_each_filled m d c n : forall i m1, 0 <= i -> filled m d c i m1 -> filled m d c (i + Z.of_nat n) (set_each n c (d + i) m1).
Proof.
  induction n as [|n IH]; intros i m1 Hi Hf; cbn [set_each]; [by rewrite Z.add_0_r|].
  replace (i + Z.of_nat (S n)) with (i + 1 + Z.of_nat n) by lia. replace (d + i + 1) with (d + (i + 1)) by lia. apply IH; [lia|by apply filled_one].
Qed.
(** Words that are aligned, and one that is not. *)
Lemma set_words_filled m d c r : forall fuel i len remain m1, (r < fuel)%nat -> 0 <= i -> 0 <= remain < 4 -> (d + i) mod 4 = 0 ->
  len = 4 * Z.of_nat r -> len < 2 ^ 32 -> filled m d c i m1 ->
  exists m2, set_words fuel c (d + i) len remain m1 = Some (d + (i + len), m2) /\ filled m d c (i + len) m2.
Proof.
  induction r as [|r IH]; intros fuel i len remain m1 Hf Hi Hr Ha El Hl Hc; (destruct fuel as [|fuel]; [lia|]); cbn [set_words].
  - rewrite (proj2 (Z.ltb_ge _ _)) by lia. rewrite El, Z.mul_0_r, Z.add_0_r. by eexists.
  - rewrite (proj2 (Z.ltb_lt _ _)) by lia. destruct (low_bits (d + i)) as [_ ->]. rewrite Ha. cbn [Z.eqb negb]. rewrite u32_id by (unfold is_u32; lia).
    destruct (IH fuel (i + 4) (len - 4) remain (put_bytes [c; c; c; c] (d + i) m1)) as (m2 & E & Hc2);
      [lia|lia|done|rewrite Z.add_assoc, <- Zplus_mod_idemp_r; by rewrite Z.add_0_r|lia|lia|by apply filled_word|].
    replace (i + 4 + (len - 4)) with (i + len) in * by lia. rewrite Z.add_assoc in E. by eexists.
Qed.
Lemma set_words_unaligned fuel c d len remain m : remain < len -> d mod 4 <> 0 -> set_words fuel c d len remain m = None.
Proof. intros H1 H2. destruct fuel; cbn [set_words]; rewrite (proj2 (Z.ltb_lt _ _)) by lia; [done|]. destruct (low_bits d) as [_ ->]. by rewrite (proj2 (Z.eqb_neq _ _)). Qed.
(** The first bytes, as long as there are any; then the count wraps around. *)
Lemma set_first c n : forall d len m, Z.of_nat n <= len < 2 ^ 32 -> exists m', Nat.iter n (set_if_left c) (d, len, m) = (d + Z.of_nat n, len - Z.of_nat n, m') /\
  filled m d c (Z.of_nat n) m'.
Proof.
  induction n as [|n IH]; intros d len m Hn.
  - exists m. rewrite Z.add_0_r, Z.sub_0_r. split; [done|apply filled_none].
  - destruct (IH d len m ltac:(lia)) as (m1 & E & Hf). cbn [Nat.iter nat_rect]. unfold Nat.iter in E. rewrite E. unfold set_if_left.
    rewrite (proj2 (Z.eqb_neq _ 0)), u32_id by (unfold is_u32; lia). exists (<[d + Z.of_nat n := c]> m1).
    replace (Z.of_nat (S n)) with (Z.of_nat n + 1) by lia. rewrite Z.add_assoc, Z.sub_add_distr. split; [done|]. by apply filled_one; [lia|].
Qed.

(** The bytes that [memset] sets first. *)
Definition ahead (dst len : Z) : Z := Z.lor (Z.land len 3) (Z.land dst 3).

(** The C library's [memset]. As many bytes as the low bits of the length
    and of the pointer, or-ed, say are set first. When there are so many, and the
    rest starts at a word or is less than one, it fills exactly the bytes asked
    for; a rest of a word or more elsewhere is stored through a pointer that is
    not aligned. When there are fewer bytes than that, the count of what is left
    wraps around, and if a word starts there everything from [dst] on is
    overwritten. *)
Theorem memset_fills_or_runs_away dst c0 len m : 0 <= dst -> 0 <= len < 2 ^ 32 ->
  let c := Z.land c0 0xFF in let n := ahead dst len in
  (n <= len -> ((dst + n) mod 4 = 0 \/ len - n < 4) -> exists m', memset dst c0 len m = Some m' /\ filled m dst c len m') /\
  (n <= len -> (dst + n) mod 4 <> 0 -> 4 <= len - n -> memset dst c0 len m = None) /\
  (len < n -> (dst + n - 1) mod 4 = 0 -> exists m', memset dst c0 len m = Some m' /\ forall a, dst <= a < 2 ^ 32 -> m' a = c).
Proof.
  intros Hd Hl c n. pose proof (low_bits_lor len dst) as Hn. fold (ahead dst len) in Hn. fold n in Hn.
  unfold memset. cbv zeta. fold (ahead dst len) c n.
  assert (n <= len -> exists m1, Nat.iter (Z.to_nat n) (set_if_left c) (dst, len, m) = (dst + n, len - n, m1) /\ filled m dst c n m1) as Hfirst.
  { intros Hnl. destruct (set_first c (Z.to_nat n) dst len m ltac:(lia)) as (m1 & E & Hf). rewrite Z2Nat.id in E, Hf by lia. by eexists. }
  assert (forall l i m1, 0 <= l < 2 ^ 32 -> 0 <= i -> ((dst + i) mod 4 = 0 \/ l < 4) -> filled m dst c i m1 -> exists m2,
    (r ← set_words (S (Z.to_nat (u32 (l - Z.land l 3) / 4))) c (dst + i) (u32 (l - Z.land l 3)) (Z.land l 3) m1;
     let '(d, m) := (r : Z * bytes) in Some (set_each (Z.to_nat (Z.land l 3)) c d m)) = Some m2 /\ filled m dst c (i + l) m2) as Hrest.
  { intros l i m1 Hll Hi Ha Hf. destruct (low_bits l) as [Hr Er]. rewrite Er in *. assert (l = 4 * (l / 4) + l mod 4) as El by (by apply Z.div_mod).
    assert (0 <= l / 4) by (by apply Z.div_pos; lia). rewrite (u32_id (l - l mod 4)) by (unfold is_u32; lia).
    assert (exists m2, set_words (S (Z.to_nat ((l - l mod 4) / 4))) c (dst + i) (l - l mod 4) (l mod 4) m1 = Some (dst + (i + (l - l mod 4)), m2) /\
      filled m dst c (i + (l - l mod 4)) m2) as (m2 & -> & Hf2).
    { destruct Ha as [Ha|Ha].
      - apply (set_words_filled m dst c (Z.to_nat (l / 4))); try done; [|lia..].
        replace (l - l mod 4) with (l / 4 * 4) by lia. rewrite Z.div_mul by done. lia.
      - assert (l / 4 = 0) as E0 by (apply Z.div_small; lia). replace (l - l mod 4) with 0 by lia. cbn [set_words].
        rewrite (proj2 (Z.ltb_ge _ _)) by lia. rewrite Z.add_0_r. by eexists. }
    cbn [mbind option_bind]. eexists. split; [done|]. replace (i + l) with (i + (l - l mod 4) + Z.of_nat (Z.to_nat (l mod 4))) by lia. by apply set_each_filled; [lia|]. }
  split_and!.
  - intros Hnl Ha. destruct (Hfirst Hnl) as (m1 & -> & Hf). destruct (Hrest (len - n) n m1) as (m2 & E & Hf2); [lia|lia|done|done|].
    replace (n + (len - n)) with len in Hf2 by lia. exists m2. split; [exact E|done].
  - intros Hnl Ha Hw. destruct (Hfirst Hnl) as (m1 & -> & Hf). rewrite set_words_unaligned; [done| |done].
    destruct (low_bits (len - n)) as [Hr Er]. rewrite u32_id by (unfold is_u32; rewrite Er in *; Z.to_euclidean_division_equations; lia). rewrite Er in *. Z.to_euclidean_division_equations. lia.
  - intros Hnl Ha. assert (0 < dst + len) as Hpos.
    { destruct (decide (dst + len = 0)); [|lia]. assert (dst = 0 /\ len = 0) as [-> ->] by lia. change n with 0 in Hnl. lia. }
    destruct (set_first c (Z.to_nat len) dst len m ltac:(lia)) as (m1 & E1 & Hf1).
    destruct (set_first c (Z.to_nat (n - len - 1)) (dst + len) (2 ^ 32 - 1) m1 ltac:(lia)) as (m2 & E2 & Hf2).
    assert (Nat.iter (Z.to_nat n) (set_if_left c) (dst, len, m) = (dst + (n - 1), 2 ^ 32 - (n - len), m2)) as ->.
    { replace (Z.to_nat n) with (Z.to_nat (n - len - 1) + (1 + Z.to_nat len))%nat by lia. rewrite !Nat.iter_add, E1, !Z2Nat.id in * by lia.
      cbn [Nat.iter nat_rect set_if_left]. rewrite Z.sub_diag. cbn [Z.eqb]. change (u32 (0 - 1)) with (2 ^ 32 - 1). rewrite E2. by replace (dst + len + (n - len - 1)) with (dst + (n - 1)) by lia; replace (2 ^ 32 - 1 - (n - len - 1)) with (2 ^ 32 - (n - len)) by lia. }
    destruct (Hrest (2 ^ 32 - (n - len)) (n - 1) m2) as (m3 & E & Hf3); [lia|lia|left; by replace (dst + (n - 1)) with (dst + n - 1) by lia| |].
    { intros a. rewrite (Hf2 a), (Hf1 a), !Z2Nat.id by lia. repeat case_decide; done || lia. }
    exists m3. split; [exact E|]. intros a Ha2. rewrite (Hf3 a). by rewrite decide_True by lia.
Qed.

(** * Strings *)

(** [strcmp] says whether the strings are equal. *)
Lemma strcmp_equal n : forall s1 s2 m d, strcmp n s1 s2 m = Some d -> d = 0 <-> cstring n m s1 = cstring n m s2.
Proof.
  induction n as [|n IH]; intros s1 s2 m d; cbn [strcmp cstring]; [done|].
  destruct (Z.eqb_spec (m s1 - m s2) 0) as [E|E]; destruct (Z.eqb_spec (m s1) 0) as [E1|E1]; cbn [negb orb].
  - intros [= <-]. destruct (Z.eqb_spec (m s2) 0); [done|lia].
  - destruct (Z.eqb_spec (m s2) 0); [lia|]. intros ->%IH. replace (m s2) with (m s1) by lia. split; [by intros ->|by intros [= ->]].
  - intros [= <-]. destruct (Z.eqb_spec (m s2) 0); [lia|]. split; [lia|done].
  - intros [= <-]. destruct (Z.eqb_spec (m s2) 0); (split; [lia|]); [done|]. intros [= E2 _]. lia.
Qed.
(** [strncmp] of [n] characters compares what [strcmp] would read of them. *)
Lemma strncmp_equal n : forall s1 s2 m, strncmp n s1 s2 m = 0 <-> cstring n m s1 = cstring n m s2.
Proof.
  induction n as [|n IH]; intros s1 s2 m; cbn [strncmp cstring]; [done|].
  destruct (Z.eqb_spec (m s1 - m s2) 0) as [E|E]; destruct (Z.eqb_spec (m s1) 0) as [E1|E1]; cbn [negb orb].
  - destruct (Z.eqb_spec (m s2) 0); [done|lia].
  - destruct (Z.eqb_spec (m s2) 0); [lia|]. rewrite IH. replace (m s2) with (m s1) by lia. split; [by intros ->|by intros [= ->]].
  - destruct (Z.eqb_spec (m s2) 0); [lia|]. split; [lia|done].
  - destruct (Z.eqb_spec (m s2) 0); (split; [lia|]); [done|]. intros [= E2 _]. lia.
Qed.
Lemma memcmp_equal n : forall s1 s2 m, memcmp n s1 s2 m = 0 <-> forall i, 0 <= i < Z.of_nat n -> m (s1 + i) = m (s2 + i).
Proof.
  induction n as [|n IH]; intros s1 s2 m; cbn [memcmp]; [split; [lia|done]|].
  destruct (Z.eqb_spec (m s1 - m s2) 0) as [E|E]; cbn [negb].
  - rewrite IH. split; intros Hi i Hin.
    + destruct (decide (i = 0)) as [->|]; [rewrite !Z.add_0_r; lia|]. specialize (Hi (i - 1) ltac:(lia)). by rewrite <- !Z.add_assoc, !Zplus_minus in Hi.
    + specialize (Hi (i + 1) ltac:(lia)). by rewrite <- !Z.add_assoc, !(Z.add_comm 1).
  - split; [lia|]. intros Hi. specialize (Hi 0 ltac:(lia)). rewrite !Z.add_0_r in Hi. lia.
Qed.
Lemma strlen_cstring n : forall s m l, strlen n s m = Some l -> l = Z.of_nat (length (cstring n m s)) /\ m (s + l) = 0.
Proof.
  induction n as [|n IH]; intros s m l; cbn [strlen cstring]; [done|]. destruct (Z.eqb_spec (m s) 0) as [E|E].
  - intros [= <-]. by rewrite Z.add_0_r.
  - destruct (strlen n (s + 1) m) as [k|] eqn:Ek; [|done]. intros [= <-]. apply IH in Ek as [-> Hk]. cbn [length]. split; [lia|].
    by rewrite <- Hk, <- Z.add_assoc, (Z.add_comm 1).
Qed.
Lemma cstring_ext n : forall s m m', (forall a, s <= a < s + Z.of_nat n -> m' a = m a) -> cstring n m' s = cstring n m s.
Proof.
  induction n as [|n IH]; intros s m m' Hm; cbn [cstring]; [done|]. rewrite (Hm s) by lia. case_match; [done|]. f_equal. apply IH. intros a Ha. apply Hm. lia.
Qed.
Lemma set_each_spec n c d m a : set_each n c d m a = if decide (d <= a < d + Z.of_nat n) then c else m a.
Proof. pose proof (set_each_filled m d c n 0 m ltac:(lia) (filled_none _ _ _) a) as E. by rewrite Z.add_0_r, Z.add_0_l in E. Qed.
(** Both [strncpy]s write the string and nulls behind it up to [n] characters. *)
Definition holds_string (n : nat) (d s : Z) (m m' : bytes) : Prop :=
  forall a, m' a = if decide (d <= a < d + Z.of_nat n) then nth (Z.to_nat (a - d)) (cstring n m s) 0 else m a.
Lemma holds_string_step n d s m m' : s + Z.of_nat (S n) <= d \/ d + Z.of_nat (S n) <= s -> m s <> 0 ->
  holds_string n (d + 1) (s + 1) (<[d := m s]> m) m' -> holds_string (S n) d s m m'.
Proof.
  intros Hap Hs Hh a. rewrite (Hh a). cbn [cstring]. rewrite (proj2 (Z.eqb_neq _ 0)) by done.
  rewrite (cstring_ext n (s + 1) m) by (intros x Hx; apply fn_lookup_insert_ne; lia). unfold insert, fn_insert. destruct (decide (d = a)) as [<-|Hne].
  - rewrite decide_False by lia. rewrite decide_True by lia. by rewrite Z.sub_diag.
  - case_decide as Hd; [|by rewrite decide_False by lia]. rewrite decide_True by lia. by replace (Z.to_nat (a - d)) with (S (Z.to_nat (a - (d + 1)))) by lia.
Qed.
Lemma nth_nil_zero k : nth k (@nil Z) 0 = 0. Proof. by destruct k. Qed.
Lemma holds_nulls n d s m : m s = 0 -> holds_string (S n) d s m (set_each n 0 (d + 1) (<[d := 0]> m)).
Proof.
  intros Hs a. rewrite set_each_spec. cbn [cstring]. rewrite Hs, nth_nil_zero. unfold insert, fn_insert. repeat case_decide; done || lia.
Qed.
Lemma c_strncpy_spec n : forall d s m, s + Z.of_nat n <= d \/ d + Z.of_nat n <= s -> holds_string n d s m (c_strncpy n d s m).
Proof.
  induction n as [|n IH]; intros d s m Hap; cbn [c_strncpy]; [intros a; by rewrite decide_False by lia|].
  destruct (Z.eqb_spec (m s) 0) as [E|E]; [rewrite E; by apply holds_nulls|]. apply holds_string_step; [done|done|]. apply IH. lia.
Qed.
Lemma kernel_strncpy_nulls n : forall d s m, m s = 0 -> kernel_strncpy n d s m = set_each n 0 d m.
Proof.
  induction n as [|n IH]; intros d s m Hs; cbn [kernel_strncpy set_each]; [done|]. rewrite Hs.
  match goal with |- context [?f s =? 0] => assert (f s = 0) as E by (unfold insert, fn_insert; by case_decide); rewrite E end.
  cbn [Z.eqb negb]. by apply IH.
Qed.
Lemma kernel_strncpy_spec n : forall d s m, s + Z.of_nat n <= d \/ d + Z.of_nat n <= s -> holds_string n d s m (kernel_strncpy n d s m).
Proof.
  induction n as [|n IH]; intros d s m Hap; cbn [kernel_strncpy]; [intros a; by rewrite decide_False by lia|].
  assert (forall x : Z, fn_insert d x m s = m s) as Hsame by (intros x; unfold fn_insert; by rewrite decide_False by lia).
  unfold insert. rewrite Hsame. destruct (Z.eqb_spec (m s) 0) as [E|E]; cbn [negb].
  - rewrite E, kernel_strncpy_nulls by (by rewrite Hsame). by apply holds_nulls.
  - apply holds_string_step; [done|done|]. apply IH. lia.
Qed.

(** * Examples *)

Definition letters : bytes := fun a => if (100 <=? a) && (a <? 110) then a else 0.
Lemma memcpy_copies_witness : exists m', memcpy 201 100 7 letters = Some m' /\ copies letters 201 100 10 m'.
Proof. apply (memcpy_copies 201 100 7 letters); [lia|left; by vm_compute]. Defined.
(** One byte to an address that ends in 2. *)
Lemma memset_fills_or_runs_away_witness : exists m', memset 102 7 1 letters = Some m' /\ forall a, 102 <= a < 2 ^ 32 -> m' a = 7.
Proof.
  destruct (memset_fills_or_runs_away 102 7 1 letters) as (_ & _ & H3); [lia|lia|]. by apply H3.
Defined.
