(* ===== verification/Sleepers.v ===== *)
(** The timer service of [conts/baremetal/timer_service]: a thread that takes the
    timer's interrupts and one that takes requests share a wheel of sleeping
    tasks.  An event is a step of one of them, or a message from the one to the
    other; what the two do under a lock is not divided.  Tasks are woken one by one,
    with interrupts between them. *)
From S2P Require Import Prelude Bits Defs.

(** * The wheel ([include/timer.h], [main.c]) *)

Definition BUCKET_BASE_LEVEL_BITS := 8.
Definition BUCKET_HIGHER_LEVEL_BITS := 6.
Definition BUCKET_BASE_LEVEL_MASK := 0xFF.
Definition BUCKET_HIGHER_LEVEL_MASK := 0x3F.
(** [IS_IN_LEVELn_BUCKET] and [GET_BUCKET_LEVELn]. *)
Definition level_shift (n : Z) : Z := BUCKET_BASE_LEVEL_BITS + n * BUCKET_HIGHER_LEVEL_BITS.
Definition is_in_level (n x : Z) : bool := x <? Z.shiftl 1 (level_shift n).
Definition get_bucket_level (n x : Z) : Z :=
  if n =? 0 then Z.land x BUCKET_BASE_LEVEL_MASK else Z.land (Z.shiftr x (level_shift (n - 1))) BUCKET_HIGHER_LEVEL_MASK.
(** A bucket is known by its level and its place there. *)
Definition find_bucket_list (seconds : Z) : Z * Z :=
  let level := if is_in_level 0 seconds then 0 else if is_in_level 1 seconds then 1 else if is_in_level 2 seconds then 2
               else if is_in_level 3 seconds then 3 else 4 in
  (level, get_bucket_level level seconds).

(** * The service *)

(** [struct sleeper_task]; [due], what the sleeper was to sleep until, is not kept
    by the code. *)
Record sleeper_task := MkSleeper { s_tid : Z; retval : Z; due : Z }.
(** Where the two threads are: the interrupt thread waits for an interrupt, sends
    its first message, looks at the bucket, or sends the second one; the other
    waits for a message, is about to wake tasks or has found the bucket for a
    sleeper. *)
Inductive irq_pc := Waiting | Telling (vector : Z * Z) | Collecting (vector : Z * Z) | TellingAgain.
Inductive handler_pc := Receiving | Waking | Inserting (task : sleeper_task) (vector : Z * Z).
(** [answers]: the tasks that got their answers, with the time. *)
Record service := MkService {
  count : Z; buckets : Z * Z -> list sleeper_task; wake_tasks : list sleeper_task;
  irq_thread : irq_pc; handler : handler_pc; answers : list (sleeper_task * Z) }.
#[export] Instance service_shape : Shape service := fun s =>
  MkService (count s) (buckets s) (wake_tasks s) (irq_thread s) (handler s) (answers s).
Definition service_init : service := MkService 0 (fun _ => []) [] Waiting Receiving [].

(** [list_attach] to an empty or other list whose end is taken to be its head:
    what was in the list is no longer reached from the head. *)
Definition list_attach (task_list : list sleeper_task) (s : service) : service := s <| wake_tasks := task_list |>.
(** One turn of the loop of [task_wake], or its end. *)
Definition task_wake (s : service) : service :=
  match wake_tasks s with
  | [] => s <| handler := Receiving |>
  | t :: l => s <| wake_tasks := l |> <| answers ::= fun l => l ++ [(t, count s)] |>
  end.
(** [task_sleep] up to the lock. *)
Definition task_sleep (tid_ seconds ret : Z) (s : service) : service :=
  let seconds := u32 (seconds + count s) in s <| handler := Inserting (MkSleeper tid_ ret seconds) (find_bucket_list seconds) |>.

(** [Tick n]: [l4_irq_wait] returns [n].  [Tell]: the message of the interrupt
    thread; [Wake]: a step of what it asks for.  [Collect]: the bucket is emptied.  [Sleep]:
    a request; [Insert]: the rest of it. *)
Inductive event := Tick (n : Z) | Tell | Wake | Collect | Sleep (tid_ seconds ret : Z) | Insert.
Definition step (e : event) (s : service) : option service :=
  match e, irq_thread s, handler s with
  | Tick n, Waiting, _ =>
      let c := u32 (count s + n) in Some (s <| count := c |> <| irq_thread := Telling (find_bucket_list c) |>)
  | Tell, Telling v, Receiving => Some (s <| irq_thread := Collecting v |> <| handler := Waking |>)
  | Tell, TellingAgain, Receiving => Some (s <| irq_thread := Waiting |> <| handler := Waking |>)
  | Wake, _, Waking => Some (task_wake s)
  | Collect, Collecting v, _ =>
      match buckets s v with
      | [] => Some (s <| irq_thread := Waiting |>)
      | l => Some (list_attach l (s <| buckets ::= <[v := []]> |>) <| irq_thread := TellingAgain |>)
      end
  | Sleep t n ret, _, Receiving =>
      if 0 <? n then Some (task_sleep t n ret s)
      else Some (s <| answers ::= fun l => l ++ [(MkSleeper t ret (count s), count s)] |>)
  | Insert, _, Inserting t v => Some (s <| buckets ::= fun b => <[v := t :: b v]> b |> <| handler := Receiving |>)
  | _, _, _ => None
  end.
Fixpoint steps (l : list event) (s : service) : option service :=
  match l with [] => Some s | e :: l => step e s ≫= steps l end.

(** What a step does. *)
Lemma step_inv e s s' : step e s = Some s' ->
  match e with
  | Tick n => irq_thread s = Waiting /\
      s' = s <| count := u32 (count s + n) |> <| irq_thread := Telling (find_bucket_list (u32 (count s + n))) |>
  | Tell => handler s = Receiving /\
      ((exists v, irq_thread s = Telling v /\ s' = s <| irq_thread := Collecting v |> <| handler := Waking |>) \/
       irq_thread s = TellingAgain /\ s' = s <| irq_thread := Waiting |> <| handler := Waking |>)
  | Wake => handler s = Waking /\ s' = task_wake s
  | Collect => exists v, irq_thread s = Collecting v /\
      (buckets s v = [] /\ s' = s <| irq_thread := Waiting |> \/
       buckets s v <> [] /\ s' = list_attach (buckets s v) (s <| buckets ::= <[v := []]> |>) <| irq_thread := TellingAgain |>)
  | Sleep t n ret => handler s = Receiving /\
      (0 < n /\ s' = task_sleep t n ret s \/
       n <= 0 /\ s' = s <| answers ::= fun l => l ++ [(MkSleeper t ret (count s), count s)] |>)
  | Insert => exists t v, handler s = Inserting t v /\
      s' = s <| buckets ::= fun b => <[v := t :: b v]> b |> <| handler := Receiving |>
  end.
Proof.
  destruct e as [n| | | |t n ret|]; unfold step; intros E.
  - destruct (irq_thread s); try done. by injection E as <-.
  - destruct (irq_thread s) as [|v|v|], (handler s); try done; injection E as <-; (split; [done|]); [left; by exists v|by right].
  - destruct (irq_thread s), (handler s); try done; by injection E as <-.
  - destruct (irq_thread s) as [|v|v|]; try done. exists v. split; [done|].
    destruct (buckets s v) eqn:Eb; injection E as <-; [by left|right]. by split.
  - destruct (handler s); try (by destruct (irq_thread s)). split; [done|].
    destruct (Z.ltb_spec 0 n); [left|right]; (split; [done|]); destruct (irq_thread s); by injection E as <-.
  - destruct (handler s) as [| |t v]; try (by destruct (irq_thread s)). exists t, v. split; [done|].
    destruct (irq_thread s); by injection E as <-.
Qed.
Lemma task_wake_count s : count (task_wake s) = count s.
Proof. unfold task_wake. by destruct (wake_tasks s). Qed.
Lemma task_wake_irq s : irq_thread (task_wake s) = irq_thread s.
Proof. unfold task_wake. by destruct (wake_tasks s). Qed.
Lemma task_wake_buckets s : buckets (task_wake s) = buckets s.
Proof. unfold task_wake. by destruct (wake_tasks s). Qed.
Lemma count_step e s s' : step e s = Some s' -> count s' = match e with Tick n => u32 (count s + n) | _ => count s end.
Proof.
  intros E%step_inv. destruct e as [n| | | |t n ret|].
  - by destruct E as [_ ->].
  - by destruct E as [_ [(v & _ & ->)|[_ ->]]].
  - destruct E as [_ ->]. apply task_wake_count.
  - by destruct E as (v & _ & [[_ ->]|[_ ->]]).
  - by destruct E as [_ [[_ ->]|[_ ->]]].
  - by destruct E as (t & v & _ & ->).
Qed.

(** * Runs in which nobody oversleeps *)

(** Each interrupt is taken by itself, and the 32 bits of the clock suffice. *)
Definition prompt (e : event) (s : service) : Prop :=
  match e with
  | Tick n => n = 1 /\ count s + 1 < 2 ^ 32
  | Sleep _ n _ => 0 <= n /\ n + count s < 2 ^ 32
  | _ => True
  end.
Inductive runs : service -> Prop :=
| runs_init : runs service_init
| runs_step e s s' : runs s -> prompt e s -> step e s = Some s' -> runs s'.
Fixpoint all_prompt (l : list event) (s : service) : Prop :=
  match l with [] => True | e :: l => prompt e s /\ match step e s with Some s1 => all_prompt l s1 | None => True end end.

(** [t] has asked and has no answer. *)
Definition waits (s : service) (t : sleeper_task) : Prop :=
  (exists v, handler s = Inserting t v \/ t ∈ buckets s v) \/ t ∈ wake_tasks s.
(** The steps of the two threads that need nothing from outside. *)
Definition internal (e : event) : Prop := match e with Tick _ | Sleep _ _ _ => False | _ => True end.
(** At most so many of them can follow. *)
Definition moves_left (s : service) : nat :=
  length (wake_tasks s) +
  match irq_thread s with
  | Waiting => 0 | TellingAgain => 2 | Collecting v => 4 + length (buckets s v) | Telling v => 6 + length (buckets s v)
  end + match handler s with Receiving => 0 | Waking => 1 | Inserting _ _ => 3 end.

Lemma level0_bucket c k : 0 <= c -> find_bucket_list c = (0, k) -> k = c.
Proof.
  intros Hc. unfold find_bucket_list, is_in_level. change (Z.shiftl 1 (level_shift 0)) with 256.
  destruct (Z.ltb_spec c 256) as [Hl|Hl]; [|repeat case_match; discriminate]. intros [= <-]. unfold get_bucket_level. cbn [Z.eqb].
  change BUCKET_BASE_LEVEL_MASK with (Z.ones 8). rewrite Z.land_ones by done. apply Z.mod_small. change (2 ^ 8) with 256. lia.
Qed.
Lemma small_bucket d : 0 <= d < 256 -> find_bucket_list d = (0, d).
Proof.
  intros Hd. assert (find_bucket_list d = (0, (find_bucket_list d).2)) as E.
  { unfold find_bucket_list, is_in_level. change (Z.shiftl 1 (level_shift 0)) with 256. by destruct (Z.ltb_spec d 256); [|lia]. }
  rewrite E. f_equal. apply level0_bucket; [lia|done].
Qed.

(** The bucket of [d] is yet to be looked at. *)
Definition ahead (s : service) (v : Z * Z) (d : Z) : Prop :=
  0 <= d /\ v = find_bucket_list d /\ (count s < d \/ count s = d /\ irq_thread s = Telling v).
Definition overdue (s : service) : Z := match irq_thread s with Telling _ => 1 | _ => 0 end.
(** A task of the first level is not answered before its time. *)
Definition not_early (t : sleeper_task) (c : Z) : Prop := due t < 256 -> due t <= c.

Record on_time (s : service) : Prop := {
  ot_count : 0 <= count s < 2 ^ 32;
  ot_irq : forall v, irq_thread s = Telling v \/ irq_thread s = Collecting v -> v = find_bucket_list (count s);
  ot_bucket : forall v t, t ∈ buckets s v -> ahead s v (due t) \/
    v = find_bucket_list (due t) /\ count s = due t /\ irq_thread s = Collecting v;
  ot_wake : forall t, t ∈ wake_tasks s -> count s <= due t + overdue s /\ not_early t (count s);
  ot_told : wake_tasks s <> [] -> irq_thread s = TellingAgain \/
    handler s = Waking /\ (irq_thread s = Waiting \/ exists v, irq_thread s = Telling v);
  ot_insert : forall t v, handler s = Inserting t v -> ahead s v (due t);
  ot_answers : forall t c, (t, c) ∈ answers s -> c <= due t + 1 /\ not_early t c }.

Lemma tick_on_time s s' : on_time s -> prompt (Tick 1) s -> step (Tick 1) s = Some s' -> on_time s'.
Proof.
  intros [H1 H2 H3 H4 H5 H6 H7] [_ Hc] [Ei ->]%step_inv. rewrite u32_id by (unfold is_u32; lia).
  assert (forall v d, ahead s v d -> ahead (s <| count := count s + 1 |> <| irq_thread := Telling (find_bucket_list (count s + 1)) |>) v d) as Hahead.
  { intros v d (Hd & -> & [Hlt|[_ E]]); [|congruence]. split; [done|]. split; [done|]. cbn.
    destruct (decide (count s + 1 = d)) as [<-|]; [by right|left; lia]. }
  split; cbn; [lia| | | | | |done].
  - by intros v [[= <-]|?].
  - intros v t [Ht|(_ & _ & E)]%H3; [left; by apply Hahead|congruence].
  - intros t Ht. destruct (H4 t Ht) as [Hl He]. unfold overdue in *. rewrite Ei in Hl. cbn. split; [lia|].
    intros Hd. specialize (He Hd). lia.
  - intros [E|[E _]]%H5; [congruence|]. right. split; [done|]. right. by eexists.
  - intros t v Ht%H6. by apply Hahead.
Qed.
Lemma no_wake_tasks s : on_time s -> irq_thread s <> TellingAgain ->
  handler s <> Waking \/ (exists v, irq_thread s = Collecting v) -> wake_tasks s = [].
Proof.
  intros Hs Hne Hh. destruct (wake_tasks s) as [|t l] eqn:E; [done|].
  destruct (ot_told s Hs) as [?|[? [?|[v ?]]]]; [by rewrite E|done|..]; destruct Hh as [?|[w ?]]; congruence.
Qed.
Lemma tell_on_time s s' : on_time s -> step Tell s = Some s' -> on_time s'.
Proof.
  intros Hs [Eh [(v & Ei & ->)|[Ei ->]]]%step_inv.
  - assert (wake_tasks s = []) as Ew by (apply no_wake_tasks; [done|congruence|left; congruence]).
    destruct Hs as [H1 H2 H3 _ _ _ H7]. split; cbn; try done; try (by rewrite Ew; intros ? ?%elem_of_nil).
    + intros w [?|[= <-]]; [done|]. apply H2. by left.
    + intros w t [(Hd & -> & [Hlt|[Hc E]])|(_ & _ & E)]%H3; [left; split; [done|split; [done|by left]]|right|congruence].
      rewrite Ei in E. by injection E as ->.
  - destruct Hs as [H1 H2 H3 H4 H5 H6 H7]. split; cbn; try done.
    + by intros w [?|?].
    + intros w t [(Hd & -> & [Hlt|[Hc E]])|(_ & _ & E)]%H3; [left; split; [done|split; [done|by left]]|congruence..].
    + intros t Ht. destruct (H4 t Ht) as [Hl He]. unfold overdue in Hl. by rewrite Ei in Hl.
    + intros _. right. split; [done|by left].
Qed.
Lemma wake_on_time s s' : on_time s -> step Wake s = Some s' -> on_time s'.
Proof.
  intros Hs [Eh ->]%step_inv. pose proof Hs as [H1 H2 H3 H4 H5 H6 H7]. unfold task_wake.
  destruct (wake_tasks s) as [|t l] eqn:Ew; split; cbn; try done.
  - rewrite Ew. by intros t Ht%elem_of_nil.
  - intros x Hx. apply H4. by right.
  - intros _. by apply H5.
  - intros x c [Hx|Hx%list_elem_of_singleton]%elem_of_app; [by apply H7|]. injection Hx as -> ->.
    destruct (H4 t) as [Hl He]; [by left|]. split; [|done]. unfold overdue in Hl. destruct (irq_thread s); lia.
Qed.
Lemma collect_on_time s s' : on_time s -> step Collect s = Some s' -> on_time s'.
Proof.
  intros Hs (v & Ei & E)%step_inv. assert (wake_tasks s = []) as Ew by (apply no_wake_tasks; [done|congruence|right; by exists v]).
  pose proof Hs as [H1 H2 H3 H4 H5 H6 H7].
  assert (forall x w d, count x = count s -> ahead s w d -> ahead x w d) as Hahead.
  { intros x w d Ec (Hd & -> & [Hlt|[_ E']]); [|congruence]. split; [done|]. split; [done|left; lia]. }
  destruct E as [[Eb ->]|[Eb ->]]; (split; cbn; try done; try (by rewrite Ew; intros ? ?%elem_of_nil); try (by intros w [?|?])).
  - intros w t Hin. destruct (H3 w t Hin) as [Ha|(_ & _ & E)]; [left; by apply Hahead|].
    rewrite Ei in E. injection E as ->. rewrite Eb in Hin. by apply elem_of_nil in Hin.
  - intros t w Ht%H6. by apply Hahead.
  - intros w t Hin. destruct (decide (w = v)) as [->|Hne]; [rewrite fn_lookup_insert in Hin; by apply elem_of_nil in Hin|].
    rewrite fn_lookup_insert_ne in Hin by done. destruct (H3 w t Hin) as [Ha|(_ & _ & E)]; [left; by apply Hahead|].
    rewrite Ei in E. by injection E as ->.
  - intros t Hin. change (overdue _) with 0.
    assert (0 <= due t /\ v = find_bucket_list (due t) /\ count s <= due t) as (H0 & Ev & Hle).
    { destruct (H3 v t Hin) as [(? & ? & [?|[? _]])|(? & ? & _)]; split_and!; (done || lia). }
    split; [lia|]. intros Hd. rewrite (small_bucket (due t)) in Ev by lia.
    assert (find_bucket_list (count s) = (0, due t)) as E%level0_bucket; [rewrite <- Ev; symmetry; apply H2; by right|lia|lia].
  - by left.
  - intros t w Ht%H6. by apply Hahead.
Qed.
Lemma sleep_on_time t n ret s s' : on_time s -> prompt (Sleep t n ret) s -> step (Sleep t n ret) s = Some s' -> on_time s'.
Proof.
  intros Hs [Hn Hc] [Eh [[Hp ->]|[Hz ->]]]%step_inv; pose proof Hs as [H1 H2 H3 H4 H5 H6 H7]; unfold task_sleep;
    (split; cbn; try done).
  - intros [?|[? _]]%H5; [by left|congruence].
  - intros x v [= <- <-]. cbn. rewrite u32_id by (unfold is_u32; lia). split; [cbn; lia|]. split; [done|left; cbn; lia].
  - intros x c [Hx|Hx%list_elem_of_singleton]%elem_of_app; [by apply H7|]. injection Hx as -> ->. unfold not_early. cbn. lia.
Qed.
Lemma insert_on_time s s' : on_time s -> step Insert s = Some s' -> on_time s'.
Proof.
  intros Hs (t & v & Eh & ->)%step_inv. pose proof Hs as [H1 H2 H3 H4 H5 H6 H7]. split; cbn; try done.
  - intros w x Hin. destruct (decide (w = v)) as [->|Hne]; [|rewrite fn_lookup_insert_ne in Hin by done; by apply H3].
    rewrite fn_lookup_insert in Hin. apply elem_of_cons in Hin as [->|Hin]; [left; by apply H6|by apply H3].
  - intros [?|[? _]]%H5; [by left|congruence].
Qed.
Lemma step_on_time e s s' : on_time s -> prompt e s -> step e s = Some s' -> on_time s'.
Proof.
  destruct e as [n| | | |t n ret|]; intros Hs He E.
  - destruct He as [-> He]. by eapply tick_on_time.
  - by eapply tell_on_time.
  - by eapply wake_on_time.
  - by eapply collect_on_time.
  - by eapply sleep_on_time.
  - by eapply insert_on_time.
Qed.
Lemma runs_on_time s : runs s -> on_time s.
Proof. induction 1 as [|e s s' _ IH He E]; [|by eapply step_on_time]. split; cbn; try done; try (by intros ?? ?%elem_of_nil); try (by intros ? ?%elem_of_nil). by intros v [?|?]. Qed.
Lemma runs_steps l : forall s s', runs s -> all_prompt l s -> steps l s = Some s' -> runs s'.
Proof.
  induction l as [|e l IH]; intros s s' Hs Hl E; cbn in *; [by injection E as <-|]. destruct Hl as [He Hl].
  destruct (step e s) as [s1|] eqn:E1; [|done]. apply (IH s1); [by eapply runs_step|done|done].
Qed.

(** No step loses a sleeper. *)
Lemma waits_step e s s' t : on_time s -> step e s = Some s' -> waits s t -> waits s' t \/ exists c, (t, c) ∈ answers s'.
Proof.
  intros Hs E%step_inv Hw. destruct e as [n| | | |ti n ret|].
  - destruct E as [_ ->]. by left.
  - left. destruct E as [Eh [(v & _ & ->)|[_ ->]]]; (destruct Hw as [(w & [E|Hin])|Hin]; [congruence|left; by exists w; right|by right]).
  - destruct E as [Eh ->]. unfold task_wake. destruct (wake_tasks s) as [|x l] eqn:Ew.
    + left. destruct Hw as [(w & [E|Hin])|Hin]; [congruence|left; by exists w; right|]. rewrite Ew in Hin. by apply elem_of_nil in Hin.
    + destruct Hw as [(w & [E|Hin])|Hin]; [congruence|left; left; by exists w; right|]. rewrite Ew in Hin.
      apply elem_of_cons in Hin as [->|Hin]; [right|left; by right]. exists (count s). cbn. apply elem_of_app. right. by left.
  - left. destruct E as (v & Ei & E). assert (wake_tasks s = []) as Ew by (apply no_wake_tasks; [done|congruence|right; by exists v]).
    destruct Hw as [(w & [Hh|Hin])|Hin]; [left; exists w; left; by destruct E as [[_ ->]|[_ ->]]| |rewrite Ew in Hin; by apply elem_of_nil in Hin].
    destruct E as [[_ ->]|[_ ->]]; [left; exists w; by right|]. destruct (decide (w = v)) as [->|Hne]; [by right|].
    left. exists w. right. cbn. by rewrite fn_lookup_insert_ne.
  - left. destruct E as [Eh E]. destruct Hw as [(w & [Hh|Hin])|Hin]; [congruence|left; exists w; right|right]; by destruct E as [[_ ->]|[_ ->]].
  - left. destruct E as (x & v & Eh & ->). destruct Hw as [(w & [Hh|Hin])|Hin]; [| |by right]; left; cbn.
    + exists v. right. rewrite Eh in Hh. injection Hh as -> ->. rewrite fn_lookup_insert. by left.
    + exists w. right. destruct (decide (w = v)) as [->|Hne]; [rewrite fn_lookup_insert; by right|by rewrite fn_lookup_insert_ne].
Qed.
Lemma answers_step e s s' x : step e s = Some s' -> x ∈ answers s -> x ∈ answers s'.
Proof.
  intros E%step_inv Hx. destruct e as [n| | | |t n ret|].
  - by destruct E as [_ ->].
  - by destruct E as [_ [(v & _ & ->)|[_ ->]]].
  - destruct E as [_ ->]. unfold task_wake. destruct (wake_tasks s); [done|]. cbn. apply elem_of_app. by left.
  - by destruct E as (v & _ & [[_ ->]|[_ ->]]).
  - destruct E as [_ [[_ ->]|[_ ->]]]; [done|]. cbn. apply elem_of_app. by left.
  - by destruct E as (t & v & _ & ->).
Qed.
Lemma waits_steps t l : forall s s', runs s -> all_prompt l s -> steps l s = Some s' ->
  waits s t \/ (exists c, (t, c) ∈ answers s) -> waits s' t \/ exists c, (t, c) ∈ answers s'.
Proof.
  induction l as [|e l IH]; intros s s' Hs Hl E Hw; cbn in *; [by injection E as <-|]. destruct Hl as [He Hl].
  destruct (step e s) as [s1|] eqn:E1; [|done]. apply (IH s1); [by eapply runs_step|done|done|].
  destruct Hw as [Hw|[c Hc]]; [by eapply waits_step; [apply runs_on_time|..]|right; exists c; by eapply answers_step].
Qed.
Lemma waits_bound s t : on_time s -> waits s t -> count s <= due t + 1.
Proof.
  intros Hs [(v & [Hin|Hin])|Hin].
  - apply (ot_insert s Hs) in Hin as (_ & _ & [?|[? _]]); lia.
  - apply (ot_bucket s Hs) in Hin as [(_ & _ & [?|[? _]])|(_ & ? & _)]; lia.
  - apply (ot_wake s Hs) in Hin as [? _]. unfold overdue in *. destruct (irq_thread s); lia.
Qed.
Lemma waits_quiet s t : on_time s -> irq_thread s = Waiting -> handler s = Receiving -> waits s t -> count s < due t.
Proof.
  intros Hs Ei Eh [(v & [Hin|Hin])|Hin]; [congruence| |].
  - apply (ot_bucket s Hs) in Hin as [(_ & _ & [?|[_ ?]])|(_ & _ & ?)]; [done|congruence..].
  - rewrite no_wake_tasks in Hin; [by apply elem_of_nil in Hin|done|congruence|left; congruence].
Qed.

(** The steps of the two threads come to an end. *)
Lemma internal_step e s s' : internal e -> step e s = Some s' -> (moves_left s' < moves_left s)%nat.
Proof.
  intros Hi E%step_inv. unfold moves_left. destruct e as [n| | | |t n ret|]; try done.
  - destruct E as [Eh [(v & Ei & ->)|[Ei ->]]]; cbn; rewrite Eh, Ei; lia.
  - destruct E as [Eh ->]. unfold task_wake. destruct (wake_tasks s) eqn:Ew; cbn; rewrite ?Eh, ?Ew; cbn; lia.
  - destruct E as (v & Ei & [[Eb ->]|[Eb ->]]); cbn; rewrite Ei, ?Eb; cbn; lia.
  - destruct E as (t & v & Eh & ->). cbn. rewrite Eh.
    assert (forall w, (length (<[v := t :: buckets s v]> (buckets s) w) <= 1 + length (buckets s w))%nat) as Hb.
    { intros w. destruct (decide (w = v)) as [->|]; [by rewrite fn_lookup_insert|rewrite fn_lookup_insert_ne by done; lia]. }
    destruct (irq_thread s) as [|w|w|]; try specialize (Hb w); lia.
Qed.
Lemma internal_steps l : forall s s', Forall internal l -> steps l s = Some s' -> (length l + moves_left s' <= moves_left s)%nat.
Proof.
  induction l as [|e l IH]; intros s s' Hl E; cbn in *; [by injection E as <-|]. apply Forall_cons in Hl as [He Hl].
  apply bind_Some in E as (s1 & E1 & E). pose proof (internal_step e s s1 He E1). specialize (IH s1 s' Hl E). lia.
Qed.
Lemma internal_stops s : (forall e, internal e -> step e s = None) -> irq_thread s = Waiting /\ handler s = Receiving.
Proof.
  intros Hs. destruct (handler s) eqn:Eh.
  - split; [|done]. destruct (irq_thread s) as [|v|v|] eqn:Ei; [done|exfalso..].
    + specialize (Hs Tell I). unfold step in Hs. by rewrite Ei, Eh in Hs.
    + specialize (Hs Collect I). unfold step in Hs. rewrite Ei in Hs. by destruct (buckets s v).
    + specialize (Hs Tell I). unfold step in Hs. by rewrite Ei, Eh in Hs.
  - exfalso. specialize (Hs Wake I). unfold step in Hs. rewrite Eh in Hs. by destruct (irq_thread s).
  - exfalso. specialize (Hs Insert I). unfold step in Hs. rewrite Eh in Hs. by destruct (irq_thread s).
Qed.

Lemma internal_on_time l : forall s s', on_time s -> Forall internal l -> steps l s = Some s' -> on_time s'.
Proof.
  induction l as [|e l IH]; intros s s' Hs Hl E; cbn in *; [by injection E as <-|]. apply Forall_cons in Hl as [He Hl].
  apply bind_Some in E as (s1 & E1 & E). apply (IH s1); [|done|done]. eapply step_on_time; [done| |done]. by destruct e.
Qed.

(** C38: When the timer service takes each interrupt by itself and its clock does
    not wrap around, no task oversleeps by more than a second, however the steps of
    its two threads and the interrupts interleave.  A task is answered at most a
    second after the time that it asked for, and not before it if that is one of
    the first 256 seconds.  A request for [n] seconds makes a sleeper that waits
    until [n] seconds from then, and whatever follows, a sleeper still waits, with
    at most a second gone since its time, or has been answered: none is lost.  The
    two threads make no more than [moves_left] steps without an interrupt or a
    request, and where they stop the one waits for an interrupt and the other for a
    message, and all that were due have been answered. *)
Theorem no_sleeper_oversleeps s : runs s ->
  (forall t c, (t, c) ∈ answers s -> c <= due t + 1 /\ (due t < 256 -> due t <= c)) /\
  (forall t n ret s', prompt (Sleep t n ret) s -> 0 < n -> step (Sleep t n ret) s = Some s' -> waits s' (MkSleeper t ret (count s + n))) /\
  (forall l s' t, all_prompt l s -> steps l s = Some s' -> waits s t ->
     waits s' t /\ count s' <= due t + 1 \/ exists c, (t, c) ∈ answers s' /\ c <= due t + 1) /\
  (forall l s', Forall internal l -> steps l s = Some s' -> (length l <= moves_left s)%nat /\
     ((forall e, internal e -> step e s' = None) ->
        irq_thread s' = Waiting /\ handler s' = Receiving /\ forall t, waits s' t -> count s' < due t)).
Proof.
  intros Hs. pose proof (runs_on_time s Hs) as Ht. split; [apply Ht|]. split; [|split].
  - intros t n ret s' [Hn Hc] Hp [_ [[_ ->]|[? _]]]%step_inv; [|lia]. left. eexists. left. unfold task_sleep. cbn.
    rewrite Z.add_comm, u32_id by (unfold is_u32; pose proof (ot_count s Ht); lia). done.
  - intros l s' t Hl E Hw. pose proof (runs_steps l s s' Hs Hl E) as Hs'%runs_on_time.
    destruct (waits_steps t l s s' Hs Hl E (or_introl Hw)) as [Hw'|[c Hc]]; [left|right].
    + split; [done|by apply waits_bound].
    + exists c. split; [done|]. by apply (ot_answers s' Hs').
  - intros l s' Hl E. pose proof (internal_steps l s s' Hl E). split; [lia|]. intros Hstop%internal_stops.
    destruct Hstop as [Ei Eh]. split_and!; [done|done|]. intros t. apply waits_quiet; [|done..].
    by apply (internal_on_time l s).
Qed.

(** * Sleepers that are lost and sleepers that are woken early *)

(** Once its time has passed, a bucket of the first level is not looked at again
    before the clock wraps around. *)
Definition passed (k : Z) (s : service) : Prop :=
  0 <= k <= count s /\ irq_thread s <> Telling (0, k) /\ irq_thread s <> Collecting (0, k).
Lemma passed_step e k t (s s' : service) : passed k s -> (forall n, e = Tick n -> 1 <= n /\ count s + n < 2 ^ 32) -> step e s = Some s' ->
  t ∈ buckets s (0, k) -> passed k s' /\ t ∈ buckets s' (0, k).
Proof.
  intros (Hk & Hp1 & Hp2) He E%step_inv Hin. destruct e as [n| | | |ti n ret|].
  - destruct (He n eq_refl), E as [Ei ->]. rewrite u32_id by (unfold is_u32; lia). split; [|done].
    split; cbn; [lia|]. split; [|done]. intros E. assert (find_bucket_list (count s + n) = (0, k)) as E2%level0_bucket by congruence; lia.
  - destruct E as [_ [(v & Ei & ->)|[_ ->]]]; (split; [|done]); (split; [done|]); cbn; split; try done; congruence.
  - destruct E as [_ ->]. unfold passed. by rewrite task_wake_count, task_wake_irq, task_wake_buckets.
  - destruct E as (v & Ei & [[_ ->]|[_ ->]]); (split; [by split|]); [done|].
    cbn. rewrite fn_lookup_insert_ne; [done|]. by intros ->.
  - by destruct E as [_ [[_ ->]|[_ ->]]].
  - destruct E as (x & v & _ & ->). split; [by split|]. cbn.
    destruct (decide (v = (0, k))) as [->|Hne]; [rewrite fn_lookup_insert; by right|by rewrite fn_lookup_insert_ne].
Qed.
(** The time that a run takes. *)
Fixpoint elapsed (l : list event) : Z := match l with [] => 0 | Tick n :: l => n + elapsed l | _ :: l => elapsed l end.
Definition ticking (l : list event) : Prop := Forall (fun e => forall n, e = Tick n -> 1 <= n) l.
Lemma elapsed_nonneg l : ticking l -> 0 <= elapsed l.
Proof. induction 1 as [|[n| | | | |] l He _ IH]; cbn; [done|specialize (He n eq_refl); lia|done..]. Qed.
Lemma passed_steps l : forall k t (s s' : service), passed k s -> 0 <= count s -> ticking l -> count s + elapsed l < 2 ^ 32 -> steps l s = Some s' ->
  t ∈ buckets s (0, k) -> t ∈ buckets s' (0, k).
Proof.
  induction l as [|e l IH]; intros k t s s' Hp H0 Hl Hr E Hin; cbn [steps] in E; [by injection E as <-|].
  apply bind_Some in E as (s1 & E1 & E). pose proof (elapsed_nonneg l (Forall_inv_tail Hl)) as Hnn. pose proof (Forall_inv Hl) as He.
  assert (count s1 = match e with Tick n => count s + n | _ => count s end) as Ec.
  { rewrite (count_step e s s1 E1). destruct e; try done. specialize (He _ eq_refl). cbn [elapsed] in Hr.
    apply u32_id. unfold is_u32. lia. }
  destruct (passed_step e k t s s1 Hp) as [Hp1 Hin1]; [|done|done|].
  { intros n ->. specialize (He n eq_refl). cbn [elapsed] in Hr. lia. }
  apply (IH k t s1); try done.
  - destruct e; rewrite Ec; try done. specialize (He _ eq_refl). lia.
  - by apply Forall_inv_tail in Hl.
  - destruct e; rewrite Ec; cbn [elapsed] in Hr; lia.
Qed.

(** The interrupt thread is so late that two interrupts are counted at once. *)
Definition late : list event := [Sleep 7 1 0; Insert; Tick 2; Tell; Wake; Collect].
(** The task is not woken before the clock wraps around. *)
Definition stranded (s : service) (t : sleeper_task) : Prop := forall l s', ticking l -> count s + elapsed l < 2 ^ 32 -> steps l s = Some s' ->
  t ∈ buckets s' (find_bucket_list (due t)).
Lemma late_strands : exists s, steps late service_init = Some s /\ stranded s (MkSleeper 7 0 1).
Proof.
  eexists. split; [reflexivity|]. intros l s' Hl Hr E. change (find_bucket_list (due _)) with (0, 1).
  refine (passed_steps l 1 _ _ s' _ _ Hl Hr E _); [by split|done|by left].
Qed.
(** A task asks at 300 for 200 seconds and is woken after the next one. *)
Definition early : list event := [Tick 300; Tell; Wake; Collect; Sleep 7 200 0; Insert; Tick 1; Tell; Wake; Collect; Tell; Wake].
Example early_wakes : answers <$> steps early service_init = Some [(MkSleeper 7 0 500, 301)].
Proof. vm_compute. reflexivity. Qed.

(** * A run *)

(** The second is over before the request for it is in its bucket. *)
Definition racing : list event := [Tick 1; Tell; Wake; Collect; Sleep 7 1 0; Tick 1; Insert].
Definition raced : service := default service_init (steps racing service_init).
Lemma raced_runs : runs raced.
Proof. apply (runs_steps racing service_init); [apply runs_init|vm_compute; repeat split; discriminate|reflexivity]. Qed.
(** The next interrupt comes before the sleeper of the last one is answered. *)
Definition overtaken : list event := [Tell; Wake; Collect; Tell; Tick 1; Wake; Wake; Tell].
Example overtaken_answers : answers <$> steps overtaken raced = Some [(MkSleeper 7 0 2, 3)].
Proof. vm_compute. reflexivity. Qed.
Lemma overtaken_prompt : all_prompt overtaken raced.
Proof. vm_compute. repeat split; discriminate. Qed.
Lemma raced_waits : waits raced (MkSleeper 7 0 2).
Proof. left. exists (0, 2). right. assert (buckets raced (0, 2) = [MkSleeper 7 0 2]) as -> by (by vm_compute). by left. Qed.
Lemma no_sleeper_oversleeps_witness : exists s', steps overtaken raced = Some s' /\
  (waits s' (MkSleeper 7 0 2) /\ count s' <= 3 \/ exists c, (MkSleeper 7 0 2, c) ∈ answers s' /\ c <= 3).
Proof.
  destruct (steps overtaken raced) as [s'|] eqn:E; [|vm_compute in E; discriminate]. exists s'. split; [done|].
  exact (proj1 (proj2 (proj2 (no_sleeper_oversleeps raced raced_runs))) overtaken s' (MkSleeper 7 0 2) overtaken_prompt E raced_waits).
Defined.
