(* ===== verification/Userthreads.v ===== *)
(** Threads of one container: [conts/userlibs/libl4/src/lib/thread/thread.c] and
    [init.c] beside it, over the caches of [libmem].

    A thread structure is known by its address; the list of threads is kept by
    its pointers, as in Links, because the library's use of it is not that of a
    sequence.  The library is used by one thread at a time: a lock that is held
    is never let go, and waiting for it is a [Bug]. *)
From S2P Require Import Prelude Bits Defs Words Links PageAlloc Vm Tasks.

Definition STACK_SIZE := PAGE_SIZE.
Definition THREADS_TOTAL := 10.
Definition TC_NOSTART := 0x00010000.
(** [struct l4_thread]: three ids, the lock, the link, two pointers. *)
Definition SIZEOF_L4_THREAD := 32.
Definition OFFSETOF_LIST := 16.
Definition SIZEOF_L4_THREAD_LIST := 20.
Record l4_thread := MkThread { t_ids : task_ids; t_locked : bool; t_stack : Z; t_utcb : Z }.
#[export] Instance l4_thread_shape : Shape l4_thread := fun t => MkThread (t_ids t) (t_locked t) (t_stack t) (t_utcb t).
(** [struct l4_thread_list] with the library's other variables, the links, the
    words of the stacks and the kernel. *)
Record lib (K : Type) := MkLib {
  tl_total : Z; tl_locked : bool; thread_cache : mem_cache; utcb_cache : mem_cache; stack_cache : mem_cache;
  threads : Z -> l4_thread; tlinks : linkmem; words : Z -> Z; lkern : K }.
Arguments MkLib {K}. Arguments tl_total {K}. Arguments tl_locked {K}. Arguments thread_cache {K}. Arguments utcb_cache {K}.
Arguments stack_cache {K}. Arguments threads {K}. Arguments tlinks {K}. Arguments words {K}. Arguments lkern {K}.
#[export] Instance lib_shape {K} : Shape (lib K) := fun s =>
  MkLib (tl_total s) (tl_locked s) (thread_cache s) (utcb_cache s) (stack_cache s) (threads s) (tlinks s) (words s) (lkern s).

Section Userthreads.
Context {K : Type} `{kernel_abi K}.
Abbreviation L := (prog (lib K)).
(** Where the head of the list and [setup_new_thread] are, and what the kernel
    says who is asking. *)
Context (thread_list setup_new_thread : Z) (getid : K -> task_ids).

Definition tset (t : Z) (f : l4_thread -> l4_thread) : L unit := modify (fun s => s <| threads ::= fun m => <[t := f (m t)]> m |>).
Definition links_do (f : linkmem -> linkmem) : L unit := modify (fun s => s <| tlinks ::= f |>).
Definition list_of (t : Z) : Z := t + OFFSETOF_LIST.
Definition l4_getid : L task_ids := gets (fun s => getid (lkern s)).
Definition l4_thread_control (action : Z) (thread : Z) : L Z := fun s =>
  let '(err, ids, k) := sys_thread_control action (t_ids (threads s thread)) (lkern s) in
  Ret err (s <| threads ::= fun m => <[thread := m thread <| t_ids := ids |>]> m |> <| lkern := k |>).
Definition l4_exchange_registers (x : exregs_data) (tid_ : Z) : L Z := fun s =>
  let '(err, k) := sys_exchange_registers x tid_ (lkern s) in Ret err (s <| lkern := k |>).
Definition lock_list : L unit :=
  l ← gets tl_locked; bug_on l "l4_mutex_lock: waits for ever" ;; modify (fun s => s <| tl_locked := true |>).
Definition unlock_list : L unit := modify (fun s => s <| tl_locked := false |>).
Definition lock_thread (t : Z) : L unit :=
  l ← gets (fun s => t_locked (threads s t)); bug_on l "l4_mutex_lock: waits for ever" ;; tset t (fun x => x <| t_locked := true |>).

(** An element of the cache [get], which [put] writes. *)
Definition cache_alloc (get : lib K -> mem_cache) (put : mem_cache -> lib K -> lib K) : L Z := fun s =>
  match mem_cache_alloc (get s) with None => Bug "mem_cache_alloc" | Some (a, c) => Ret a (put c s) end.
Definition cache_free (get : lib K -> mem_cache) (put : mem_cache -> lib K -> lib K) (a : Z) : L Z := fun s =>
  let '(err, c) := PageAlloc.mem_cache_free (get s) a in Ret err (put c s).
Definition put_utcb (c : mem_cache) (s : lib K) : lib K := s <| utcb_cache := c |>.
Definition put_stack (c : mem_cache) (s : lib K) : lib K := s <| stack_cache := c |>.
Definition put_thread (c : mem_cache) (s : lib K) : lib K := s <| thread_cache := c |>.

Definition l4_utcb_alloc : L Z := cache_alloc utcb_cache put_utcb.
Definition l4_utcb_free (utcb : Z) : L unit := err ← cache_free utcb_cache put_utcb utcb; bug_on (err <? 0) "l4_utcb_free".
Definition l4_stack_alloc : L Z := stack ← cache_alloc stack_cache put_stack; mret (u32 (stack + STACK_SIZE)).
Definition l4_stack_free (stack : Z) : L unit :=
  err ← cache_free stack_cache put_stack (u32 (stack - STACK_SIZE)); bug_on (err <? 0) "l4_stack_free".

Definition l4_thread_init (thread : Z) : L Z :=
  utcb ← l4_utcb_alloc;
  tset thread (fun t => t <| t_utcb := utcb |>) ;;
  if utcb =? 0 then mret (PTR_ERR (- ENOMEM))
  else
    stack ← l4_stack_alloc;
    tset thread (fun t => t <| t_stack := stack |>) ;;
    if stack =? 0 then l4_utcb_free utcb ;; mret (PTR_ERR (- ENOMEM)) else mret thread.

Definition l4_thread_free_nolock (thread : Z) : L unit :=
  t ← gets (fun s => threads s thread);
  when (negb (t_stack t =? 0)) (l4_stack_free (t_stack t)) ;;
  when (negb (t_utcb t =? 0)) (l4_utcb_free (t_utcb t)) ;;
  err ← cache_free thread_cache put_thread thread;
  bug_on (err <? 0) "l4_thread_free".
(** The part that [l4_thread_free] and [thread_destroy] share. *)
Definition take_off_list (thread : Z) : L unit :=
  lock_list ;;
  lock_thread thread ;;
  links_do (list_remove (list_of thread)) ;;
  modify (fun s => s <| tl_total ::= Z.pred |>) ;;
  unlock_list.
Definition l4_thread_free (thread : Z) : L unit := take_off_list thread ;; l4_thread_free_nolock thread.
Definition thread_destroy (thread : Z) : L Z :=
  take_off_list thread ;;
  err ← l4_thread_control THREAD_DESTROY thread;
  if err <? 0 then mret err else l4_thread_free_nolock thread ;; mret 0.

(** [mem_cache_zalloc] clears what it got. *)
Definition zeroed : l4_thread := MkThread (MkIds 0 0 0) true 0 0.
Definition l4_thread_alloc_init : L Z :=
  thread ← cache_alloc thread_cache put_thread;
  bug_on (thread =? 0) "mem_cache_zalloc: write through null" ;;
  tset thread (fun _ => zeroed) ;;
  links_do (link_init (list_of thread)) ;;
  tset thread (fun t => t <| t_locked := false |>) ;;
  thread ← l4_thread_init thread;
  if IS_ERR thread then cache_free thread_cache put_thread thread ;; mret thread
  else
    links_do (list_insert thread_list (list_of thread)) ;;
    modify (fun s => s <| tl_total ::= Z.succ |>) ;;
    mret thread.

Definition l4_parent_thread_init : L unit :=
  thread ← l4_thread_alloc_init;
  bug_on (IS_ERR thread) "l4_parent_thread_init: no thread" ;;
  t ← gets (fun s => threads s thread);
  l4_stack_free (t_stack t) ;;
  ids ← l4_getid;
  tset thread (fun t => t <| t_ids := ids |>) ;;
  err ← l4_exchange_registers (exregs_set_utcb (t_utcb t) exregs_zero) (ids_tid ids);
  when (err <? 0) (l4_thread_free thread).

(** What [thread_exit] asks of the kernel, which does not return. *)
Definition thread_exit (exit_code : Z) : L Z :=
  ids ← l4_getid;
  (fun s => let '(err, _, k) := sys_thread_control (Z.lor THREAD_DESTROY exit_code) ids (lkern s) in Ret err (s <| lkern := k |>)) : L Z.
Definition thread_wait (thread : Z) : L Z :=
  ret ← l4_thread_control THREAD_WAIT thread;
  if ret <? 0 then mret ret else l4_thread_free thread ;; mret ret.

(** The result, and what is stored through [tptr]. *)
Definition thread_create (func args flags : Z) : L (Z * option Z) :=
  if negb (flag_set TC_SHARE_SPACE flags) then mret (- EINVAL, None)
  else
    thread ← l4_thread_alloc_init;
    if IS_ERR thread then mret (s32 thread, None)
    else
      let out_err (err : Z) : L (Z * option Z) := l4_thread_free thread ;; mret (err, None) in
      ids ← l4_getid;
      tset thread (fun t => t <| t_ids := ids |>) ;;
      err ← l4_thread_control (Z.lor THREAD_CREATE flags) thread;
      if err <? 0 then out_err err
      else
        t ← gets (fun s => threads s thread);
        modify (fun s => s <| words ::= fun m => <[t_stack t - 8 := func]> (<[t_stack t - 4 := args]> m) |>) ;;
        err ← l4_exchange_registers
          (exregs_set_pc setup_new_thread (exregs_set_utcb (t_utcb t) (exregs_set_stack (t_stack t) exregs_zero)))
          (ids_tid (t_ids t));
        if err <? 0 then out_err err
        else
          err ← (if negb (flag_set flags TC_NOSTART) then l4_thread_control THREAD_RUN thread else mret 0);
          if err <? 0 then out_err err else mret (0, Some thread).

(** * [init.c] *)

(** The bytes of the library's arrays. *)
Definition stack_bytes := THREADS_TOTAL * (STACK_SIZE + 1).
Definition utcb_bytes := THREADS_TOTAL * (UTCB_SIZE + 1).
Definition L4_THREAD_LIST_BUFFER_SIZE := THREADS_TOTAL * SIZEOF_L4_THREAD_LIST + 256.
Definition init_cache (put : mem_cache -> lib K -> lib K) (start size struct_size_ : Z) (aligned : bool) : L unit := fun s =>
  match mem_cache_init start size struct_size_ aligned with
  | Some (Some c) => Ret tt (put c s)
  | _ => Bug "mem_cache_init"
  end.
Definition l4_thread_list_init (buf : Z) : L unit :=
  modify (fun s => s <| tl_total := 0 |>) ;;
  links_do (link_init thread_list) ;;
  unlock_list ;;
  init_cache put_thread buf L4_THREAD_LIST_BUFFER_SIZE SIZEOF_L4_THREAD false.
Definition l4_stack_alloc_init (stack : Z) : L unit := init_cache put_stack stack (STACK_SIZE * (THREADS_TOTAL + 1)) STACK_SIZE true.
Definition l4_utcb_alloc_init (utcb : Z) : L unit := init_cache put_utcb utcb (UTCB_SIZE * (THREADS_TOTAL + 1)) UTCB_SIZE true.
Definition __l4_threadlib_init (utcb stack buf : Z) : L unit :=
  l4_utcb_alloc_init utcb ;; l4_stack_alloc_init stack ;; l4_thread_list_init buf ;; l4_parent_thread_init.
End Userthreads.

(** * Elements of the caches *)

Definition taken (c : mem_cache) (b : Z) : mem_cache := c <| mc_free ::= Z.pred |> <| mc_bitmap := bit_set (mc_bitmap c) b |>.
Definition is_free (c : mem_cache) (b : Z) : Prop := 0 <= b < mc_total c /\ bit_at (mc_bitmap c) b = false.
(** [c'] is [c] with the element at [a], which was free, in use. *)
Definition with_new (c : mem_cache) (a : Z) (c' : mem_cache) : Prop :=
  ~ in_use c a /\ (forall x, in_use c' x <-> x = a \/ in_use c x) /\ mc_free c' = mc_free c - 1.
(** The same elements are in use. *)
Definition alike (c c' : mem_cache) : Prop := (forall x, in_use c' x <-> in_use c x) /\ mc_free c' = mc_free c.

Lemma record_of_inj c a b : cache_inv c -> record_of c a = record_of c b -> a = b.
Proof. intros []. unfold record_of. nia. Qed.
Lemma taken_inv c b : cache_inv c -> is_free c b -> cache_inv (taken c b).
Proof. intros Hc [Hb Hf]. by apply take_bit_inv. Qed.
Lemma taken_bit c b k : cache_inv c -> is_free c b -> 0 <= k -> bit_at (mc_bitmap (taken c b)) k = bool_decide (b = k) || bit_at (mc_bitmap c) k.
Proof. intros [] [Hb _] Hk. cbn. apply bit_at_set; [unfold in_map; lia|done]. Qed.
Lemma taken_new c b : cache_inv c -> is_free c b -> with_new c (record_of c b) (taken c b).
Proof.
  intros Hc Hb. pose proof Hb as [Hr Hf]. split_and!; [|intros x; split|cbn; lia].
  - intros (k & Hk & Hkb & E). apply record_of_inj in E as ->; [|done]. congruence.
  - intros (k & Hk & Hkb & ->). rewrite taken_bit in Hkb by (done || lia). cbn in Hk.
    apply orb_true_iff in Hkb as [<-%bool_decide_eq_true|Hkb]; [by left|right]. by exists k.
  - intros [->|(k & Hk & Hkb & ->)]; [exists b|exists k]; (split; [done|split; [|done]]); rewrite taken_bit by (done || lia);
      [by rewrite bool_decide_true|by rewrite Hkb, orb_true_r].
Qed.
Lemma given_back_alike c b : cache_inv c -> is_free c b -> mem_cache_free (taken c b) (record_of c b) = (0, given (taken c b) b) /\ alike c (given (taken c b) b).
Proof.
  intros Hc Hb. pose proof Hb as [Hr Hf]. pose proof (taken_inv c b Hc Hb) as Ht.
  assert (forall k, 0 <= k -> bit_at (mc_bitmap (given (taken c b) b)) k = bit_at (mc_bitmap c) k) as Hbits.
  { intros k Hk.
    change (bit_at (bit_clear (mc_bitmap (taken c b)) b) k = bit_at (mc_bitmap c) k).
    rewrite bit_at_clear by (done || destruct Ht; unfold in_map; cbn in *; lia). rewrite taken_bit by done.
    repeat case_bool_decide; simplify_eq; try done; cbn; by rewrite ?andb_true_r, ?Hf. }
  split.
  - apply (record_free_run (taken c b) b Ht); [done|]. rewrite taken_bit by (done || lia). by rewrite bool_decide_true.
  - split; [|cbn; lia]. intros x. split; intros (k & Hk & Hkb & ->); exists k; (split; [done|split; [|done]]); [rewrite <- Hbits by lia|rewrite Hbits by lia]; done.
Qed.

(** * Creating a thread *)

(** The head goes into the ring of the new thread. *)
Lemma head_into_ring h n m : h <> n -> ring (list_insert h n (link_init n m)) h [n].
Proof.
  intros Hne. apply (ring_rotate _ n h []). apply list_insert_ring; [intros Hin; apply list_elem_of_singleton in Hin; congruence|].
  split; [apply NoDup_singleton|]. split; unfold link_init; link_read.
Qed.
Lemma ring_remove h n m : ring m h [n] -> list_foreach 0 h (list_remove n m) = Some [].
Proof.
  intros [Hd (Hn & Hp & Hn2 & Hp2)]. assert (n <> h) by (apply NoDup_cons in Hd as [Hd _]; intros ->; apply Hd; by left).
  unfold list_foreach, list_remove. rewrite Hn2, Hp. cbn [list_walk].
  assert (next (set_prev n L4_DEADWORD (set_next n L4_DEADWORD (set_prev h h (set_next h h m))) h) = h) as -> by link_read. by rewrite Z.eqb_refl.
Qed.

Section Theory.
Context {K : Type} `{kernel_abi K} (thread_list setup_new_thread : Z) (getid : K -> task_ids).

Record lib_ok (s : lib K) : Prop := {
  lo_thread : cache_inv (thread_cache s) /\ struct_size (thread_cache s) = SIZEOF_L4_THREAD /\ mc_end (thread_cache s) <= 2 ^ 31;
  lo_utcb : cache_inv (utcb_cache s);
  lo_stack : cache_inv (stack_cache s) /\ mc_end (stack_cache s) + STACK_SIZE < 2 ^ 32;
  lo_head : ~ (mc_start (thread_cache s) <= thread_list < mc_end (thread_cache s));
  lo_lock : tl_locked s = false }.

(** [s1] is [s] with the thread that is being made: the elements [bt], [bu] and
    [bk] of the three caches. *)
Definition new_thread (s : lib K) (bt : Z) : Z := record_of (thread_cache s) bt.
Definition new_utcb (s : lib K) (bu : Z) : Z := record_of (utcb_cache s) bu.
Definition new_stack (s : lib K) (bk : Z) : Z := record_of (stack_cache s) bk + STACK_SIZE.
Record making (s : lib K) (bt bu bk : Z) (s1 : lib K) : Prop := {
  mk_thread : thread_cache s1 = taken (thread_cache s) bt /\ is_free (thread_cache s) bt;
  mk_utcb : utcb_cache s1 = taken (utcb_cache s) bu /\ is_free (utcb_cache s) bu;
  mk_stack : stack_cache s1 = taken (stack_cache s) bk /\ is_free (stack_cache s) bk;
  mk_self : t_locked (threads s1 (new_thread s bt)) = false /\ t_stack (threads s1 (new_thread s bt)) = new_stack s bk /\
    t_utcb (threads s1 (new_thread s bt)) = new_utcb s bu;
  mk_others : forall x, x <> new_thread s bt -> threads s1 x = threads s x;
  mk_links : ring (tlinks s1) thread_list [list_of (new_thread s bt)];
  mk_total : tl_total s1 = tl_total s + 1;
  mk_lock : tl_locked s1 = false }.
(** [s'] is [s] but for the list, which is empty. *)
Record given_back (s s' : lib K) : Prop := {
  gb_thread : alike (thread_cache s) (thread_cache s');
  gb_utcb : alike (utcb_cache s) (utcb_cache s');
  gb_stack : alike (stack_cache s) (stack_cache s');
  gb_list : list_foreach 0 thread_list (tlinks s') = Some [];
  gb_total : tl_total s' = tl_total s;
  gb_lock : tl_locked s' = false }.

Lemma alloc_free c : cache_inv c -> 0 < mc_free c -> exists b, is_free c b /\ mem_cache_alloc c = Some (record_of c b, taken c b).
Proof. intros Hc Hf. destruct (record_alloc_run c Hc) as [[? _]|(_ & b & Hb & Hbf & E)]; [lia|]. by exists b. Qed.
Lemma element_range c b : cache_inv c -> is_free c b -> 0 < record_of c b /\ mc_start c <= record_of c b /\ record_of c b + struct_size c <= mc_end c.
Proof. intros Hc [Hb _]. destruct (record_exact c b Hc Hb). lia. Qed.

Lemma l4_thread_init_run t (s : lib K) u cu k ck sp : mem_cache_alloc (utcb_cache s) = Some (u, cu) -> u <> 0 ->
  mem_cache_alloc (stack_cache s) = Some (k, ck) -> u32 (k + STACK_SIZE) = sp -> sp <> 0 ->
  l4_thread_init t s = Ret t (s <| utcb_cache := cu |> <| stack_cache := ck |>
    <| threads ::= fun m => let m := <[t := m t <| t_utcb := u |>]> m in <[t := m t <| t_stack := sp |>]> m |>).
Proof.
  intros Eu Hu Ek Es Hs. unfold l4_thread_init, l4_utcb_alloc, l4_stack_alloc, cache_alloc, tset. run. rewrite Eu. cbn [obind].
  rewrite (proj2 (Z.eqb_neq u 0)) by done. run. match goal with |- context [mem_cache_alloc ?x] => change x with (stack_cache s) end. rewrite Ek. cbn [obind]. rewrite Es.
  by rewrite (proj2 (Z.eqb_neq sp 0)) by done.
Qed.
Lemma l4_thread_alloc_init_makes s : lib_ok s -> 0 < mc_free (thread_cache s) -> 0 < mc_free (utcb_cache s) -> 0 < mc_free (stack_cache s) ->
  exists bt bu bk s1, l4_thread_alloc_init thread_list s = Ret (new_thread s bt) s1 /\ IS_ERR (new_thread s bt) = false /\
    making s bt bu bk s1 /\ lkern s1 = lkern s /\ words s1 = words s.
Proof.
  intros [(Ht & Hts & Hte) Hu [Hk Hke] Hh Hl] Ft Fu Fk.
  destruct (alloc_free _ Ht Ft) as (bt & Bt & Et), (alloc_free _ Hu Fu) as (bu & Bu & Eu), (alloc_free _ Hk Fk) as (bk & Bk & Ek).
  exists bt, bu, bk. pose proof (element_range _ _ Ht Bt) as (Pt & Pt1 & Pt2). pose proof (element_range _ _ Hu Bu) as (Pu & _).
  pose proof (element_range _ _ Hk Bk) as (Pk & Pk1 & Pk2). rewrite Hts in Pt2. unfold SIZEOF_L4_THREAD in Pt2.
  pose proof (ci_size _ Hk). assert (STACK_SIZE = 4096) as ES by done.
  assert (IS_ERR (new_thread s bt) = false) as Herr.
  { unfold IS_ERR, is_err, new_thread. rewrite s32_id by lia. by destruct (Z.ltb_spec (record_of (thread_cache s) bt) 0); [lia|]. }
  assert (u32 (record_of (stack_cache s) bk + STACK_SIZE) = new_stack s bk) as Esp by (unfold new_stack; apply u32_id; unfold is_u32; lia).
  assert (new_stack s bk <> 0) as Hsp by (unfold new_stack; lia).
  unfold l4_thread_alloc_init, tset, links_do. rewrite (run_bind _ _ _ (new_thread s bt) (put_thread (taken (thread_cache s) bt) s)) by (unfold cache_alloc; by rewrite Et).
  run. rewrite (proj2 (Z.eqb_neq (new_thread s bt) 0)) by (unfold new_thread; lia). cbn [obind].
  erewrite l4_thread_init_run; [|exact Eu|lia|exact Ek|exact Esp|done]. cbn [obind]. rewrite Herr. cbn [obind].
  eexists. split; [done|]. split; [done|]. split; [|done].
  split; cbn; rewrite ?fn_lookup_insert; try done.
  - intros x Hx. by rewrite !fn_lookup_insert_ne by done.
  - apply head_into_ring. unfold list_of, OFFSETOF_LIST, new_thread. lia.
Qed.
Lemma l4_thread_free_nolock_run t (s : lib K) k ck u cu ct :
  t_stack (threads s t) = k + STACK_SIZE -> u32 (k + STACK_SIZE - STACK_SIZE) = k -> k + STACK_SIZE <> 0 -> mem_cache_free (stack_cache s) k = (0, ck) ->
  t_utcb (threads s t) = u -> u <> 0 -> mem_cache_free (utcb_cache s) u = (0, cu) -> mem_cache_free (thread_cache s) t = (0, ct) ->
  l4_thread_free_nolock t s = Ret tt (s <| stack_cache := ck |> <| utcb_cache := cu |> <| thread_cache := ct |>).
Proof.
  intros Es Ek Hk Ekf Eu Hu Euf Etf. unfold l4_thread_free_nolock, l4_stack_free, l4_utcb_free, cache_free. run. rewrite Es, Eu, Ek.
  rewrite (proj2 (Z.eqb_neq (k + STACK_SIZE) 0)), (proj2 (Z.eqb_neq u 0)) by done. cbn [negb]. rewrite Ekf. cbn [obind Z.ltb Z.compare].
  match goal with |- context [mem_cache_free ?x u] => change x with (utcb_cache s) end. rewrite Euf. cbn [obind Z.ltb Z.compare].
  match goal with |- context [mem_cache_free ?x t] => change x with (thread_cache s) end. by rewrite Etf.
Qed.
Lemma l4_thread_free_making s bt bu bk s1 : lib_ok s -> making s bt bu bk s1 ->
  exists s2, l4_thread_free (new_thread s bt) s1 = Ret tt s2 /\ given_back s s2 /\ lkern s2 = lkern s1.
Proof.
  intros [(Ht & Hts & Hte) Hu [Hk Hke] Hh Hl] [[Ct Bt] [Cu Bu] [Ck Bk] (M1 & M2 & M3) _ M5 M6 M7].
  destruct (given_back_alike _ _ Ht Bt) as [Et At], (given_back_alike _ _ Hu Bu) as [Eu Au], (given_back_alike _ _ Hk Bk) as [Ek Ak].
  pose proof (element_range _ _ Hu Bu) as (Pu & _). pose proof (element_range _ _ Hk Bk) as (Pk & Pk1 & Pk2).
  pose proof (ci_size _ Hk). assert (STACK_SIZE = 4096) as ES by done.
  unfold l4_thread_free, take_off_list, lock_list, lock_thread, links_do, unlock_list, tset. run. rewrite M7. cbn [obind].
  match goal with |- context [if ?x then _ else _] => change x with (t_locked (threads s1 (new_thread s bt))) end. rewrite M1. cbn [obind].
  eexists. split.
  { apply (l4_thread_free_nolock_run _ _ (record_of (stack_cache s) bk) (given (taken (stack_cache s) bk) bk) (record_of (utcb_cache s) bu)
      (given (taken (utcb_cache s) bu) bu) (given (taken (thread_cache s) bt) bt)); cbn; rewrite ?fn_lookup_insert, ?Ct, ?Cu, ?Ck; try (done || lia).
    rewrite Z.add_simpl_r. apply u32_id. unfold is_u32. lia. }
  split; [|done]. split; cbn; try done; [by eapply ring_remove|lia].
Qed.

(** What the kernel is asked for, one call after the other until one is refused:
    its last answer and its state. *)
Definition kernel_start (stack utcb flags : Z) (k : K) : Z * K :=
  let '(e1, ids, k) := sys_thread_control (Z.lor THREAD_CREATE flags) (getid k) k in
  if e1 <? 0 then (e1, k)
  else
    let '(e2, k) := sys_exchange_registers
      (exregs_set_pc setup_new_thread (exregs_set_utcb utcb (exregs_set_stack stack exregs_zero))) (ids_tid ids) k in
    if e2 <? 0 then (e2, k)
    else if flag_set flags TC_NOSTART then (0, k)
    else let '(e3, _, k) := sys_thread_control THREAD_RUN ids k in (e3, k).

Lemma making_frame s bt bu bk s1 s2 : making s bt bu bk s1 ->
  thread_cache s2 = thread_cache s1 -> utcb_cache s2 = utcb_cache s1 -> stack_cache s2 = stack_cache s1 -> tlinks s2 = tlinks s1 ->
  tl_total s2 = tl_total s1 -> tl_locked s2 = tl_locked s1 ->
  (forall x, x <> new_thread s bt -> threads s2 x = threads s1 x) ->
  (exists ids, threads s2 (new_thread s bt) = threads s1 (new_thread s bt) <| t_ids := ids |>) -> making s bt bu bk s2.
Proof.
  intros [] E1 E2 E3 E4 E5 E6 E7 [ids E8]. split; rewrite ?E1, ?E2, ?E3, ?E4, ?E5, ?E6, ?E8; try done.
  intros x Hx. rewrite E7 by done. by apply mk_others0.
Qed.
(** What a thread that was made is. *)
Record made (s : lib K) (bt bu bk func args : Z) (s' : lib K) : Prop := {
  md_thread : with_new (thread_cache s) (new_thread s bt) (thread_cache s');
  md_utcb : with_new (utcb_cache s) (new_utcb s bu) (utcb_cache s');
  md_stack : with_new (stack_cache s) (new_stack s bk - STACK_SIZE) (stack_cache s');
  md_self : t_stack (threads s' (new_thread s bt)) = new_stack s bk /\ t_utcb (threads s' (new_thread s bt)) = new_utcb s bu;
  md_others : forall x, x <> new_thread s bt -> threads s' x = threads s x;
  md_words : words s' (new_stack s bk - 4) = args /\ words s' (new_stack s bk - 8) = func;
  md_list : list_foreach 1 thread_list (tlinks s') = Some [list_of (new_thread s bt)];
  md_total : tl_total s' = tl_total s + 1 }.
Lemma making_made s bt bu bk func args s1 : lib_ok s -> making s bt bu bk s1 ->
  words s1 (new_stack s bk - 4) = args -> words s1 (new_stack s bk - 8) = func -> made s bt bu bk func args s1.
Proof.
  intros [(Ht & _) Hu [Hk _] _ _] [[Ct Bt] [Cu Bu] [Ck Bk] (_ & M2 & M3) M4 M5 M6 M7] Ha Hf. split; rewrite ?Ct, ?Cu, ?Ck; try done.
  - by apply taken_new.
  - by apply taken_new.
  - unfold new_stack. rewrite Z.add_simpl_r. by apply taken_new.
  - by apply (list_foreach_ring _ _ _ M5).
Qed.

Lemma tset_ids_making s bt bu bk st ids : making s bt bu bk st -> exists st', tset (new_thread s bt) (fun t => t <| t_ids := ids |>) st = Ret tt st' /\
  making s bt bu bk st' /\ t_ids (threads st' (new_thread s bt)) = ids /\ lkern st' = lkern st /\ words st' = words st.
Proof.
  intros Hst. eexists. split; [done|]. split; [|cbn; by rewrite fn_lookup_insert].
  eapply making_frame; [exact Hst|done..| |]; cbn; [intros x Hx; by rewrite fn_lookup_insert_ne|]. eexists. by rewrite fn_lookup_insert.
Qed.
Lemma control_making s bt bu bk st a e ids k : making s bt bu bk st -> sys_thread_control a (t_ids (threads st (new_thread s bt))) (lkern st) = (e, ids, k) ->
  exists st', l4_thread_control a (new_thread s bt) st = Ret e st' /\ making s bt bu bk st' /\ t_ids (threads st' (new_thread s bt)) = ids /\
    lkern st' = k /\ words st' = words st.
Proof.
  intros Hst E. eexists. split; [unfold l4_thread_control; by rewrite E|]. split; [|cbn; by rewrite fn_lookup_insert].
  eapply making_frame; [exact Hst|done..| |]; cbn; [intros x Hx; by rewrite fn_lookup_insert_ne|]. eexists. by rewrite fn_lookup_insert.
Qed.
Lemma exregs_making s bt bu bk st x i e k : making s bt bu bk st -> sys_exchange_registers x i (lkern st) = (e, k) ->
  exists st', l4_exchange_registers x i st = Ret e st' /\ making s bt bu bk st' /\ threads st' = threads st /\ lkern st' = k /\ words st' = words st.
Proof.
  intros Hst E. eexists. split; [unfold l4_exchange_registers; by rewrite E|]. split; [|done].
  eapply making_frame; [exact Hst|done..|]. cbn. by exists (t_ids (threads st (new_thread s bt))); destruct (threads st (new_thread s bt)).
Qed.

(** C37: [thread_create] with a free thread structure, utcb and stack makes the
    calls of [kernel_start] with the new stack and utcb. When none is refused it
    returns the new thread: its structure, utcb and stack were free before, the
    stack holds its argument and its function, other threads are as before, and
    the library's list has the new thread and no other. When one is refused it
    returns the kernel's error, as many elements and the same ones are in use as
    before, and the list is empty. *)
Theorem thread_create_makes_or_gives_back func args flags s :
  lib_ok s -> 0 < mc_free (thread_cache s) -> 0 < mc_free (utcb_cache s) -> 0 < mc_free (stack_cache s) -> flag_set TC_SHARE_SPACE flags = true ->
  exists bt bu bk s', let '(e, k) := kernel_start (new_stack s bk) (new_utcb s bu) flags (lkern s) in
    thread_create thread_list setup_new_thread getid func args flags s = Ret (if e <? 0 then (e, None) else (0, Some (new_thread s bt))) s' /\
    lkern s' = k /\ if e <? 0 then given_back s s' else made s bt bu bk func args s'.
Proof.
  intros Hs Ft Fu Fk Hfl. destruct (l4_thread_alloc_init_makes s Hs Ft Fu Fk) as (bt & bu & bk & s1 & E1 & Herr & Hm & Ek & Ew).
  exists bt, bu, bk. unfold thread_create. rewrite Hfl. cbn [negb]. rewrite (run_bind _ _ _ _ _ E1), Herr.
  assert (forall st A (r : A), making s bt bu bk st -> exists s', (l4_thread_free (new_thread s bt) ;; mret r) st = Ret r s' /\
    lkern s' = lkern st /\ given_back s s') as Hfree.
  { intros st A r Hst. destruct (l4_thread_free_making s bt bu bk st Hs Hst) as (s3 & E3 & Hg & Hk3). exists s3. by rewrite (run_bind _ _ _ _ _ E3). }
  unfold l4_getid. rewrite (run_bind (gets _) _ _ _ _ eq_refl).
  destruct (tset_ids_making s bt bu bk s1 (getid (lkern s1)) Hm) as (s2 & E2 & Hm2 & Hi2 & Hk2 & Hw2). rewrite (run_bind _ _ _ _ _ E2).
  unfold kernel_start. rewrite Ek in *. 
  destruct (sys_thread_control (Z.lor THREAD_CREATE flags) (getid (lkern s)) (lkern s)) as [[e1 ids] k1] eqn:Ec.
  destruct (control_making s bt bu bk s2 (Z.lor THREAD_CREATE flags) e1 ids k1 Hm2) as (s3 & E3 & Hm3 & Hi3 & Hk3 & Hw3); [by rewrite Hi2, Hk2|].
  rewrite (run_bind _ _ _ _ _ E3). destruct (e1 <? 0) eqn:He1; [rewrite He1, <- Hk3; by apply Hfree|].
  rewrite (run_bind (gets _) _ _ _ _ eq_refl).
  pose proof (mk_self _ _ _ _ _ Hm3) as (_ & Es & Eu). rewrite Es, Eu, Hi3.
  set (s4 := s3 <| words ::= fun m => <[new_stack s bk - 8 := func]> (<[new_stack s bk - 4 := args]> m) |>).
  assert (making s bt bu bk s4) as Hm4.
  { eapply making_frame; [exact Hm3|done..|]. exists (t_ids (threads s3 (new_thread s bt))). cbn. by destruct (threads s3 (new_thread s bt)). }
  assert (words s4 (new_stack s bk - 4) = args /\ words s4 (new_stack s bk - 8) = func) as [Ha Hf].
  { cbn. rewrite fn_lookup_insert, fn_lookup_insert_ne by lia. by rewrite fn_lookup_insert. }
  match goal with |- context [modify ?f] => assert (modify f s3 = Ret tt s4) as E4 by done end. rewrite (run_bind _ _ _ _ _ E4).
  destruct (sys_exchange_registers (exregs_set_pc _ _) (ids_tid ids) k1) as [e2 k2] eqn:Ex.
  rewrite <- Hk3 in Ex. change (lkern s3) with (lkern s4) in Ex. destruct (exregs_making s bt bu bk s4 _ _ e2 k2 Hm4 Ex) as (s5 & E5 & Hm5 & Ht5 & Hk5 & Hw5).
  rewrite (run_bind _ _ _ _ _ E5). destruct (e2 <? 0) eqn:He2; [rewrite He2, <- Hk5; by apply Hfree|].
  destruct (flag_set flags TC_NOSTART); cbn [negb].
  { rewrite (run_bind (mret 0) _ s5 0 s5 eq_refl). exists s5. split_and!; [done|done|]. cbn. apply making_made; [done..| |]; by rewrite Hw5. }
  destruct (sys_thread_control THREAD_RUN ids k2) as [[e3 ids3] k3] eqn:Er.
  destruct (control_making s bt bu bk s5 THREAD_RUN e3 ids3 k3 Hm5) as (s6 & E6 & Hm6 & Hi6 & Hk6 & Hw6); [by rewrite Ht5, Hk5; change (threads s4) with (threads s3); rewrite Hi3|].
  rewrite (run_bind _ _ _ _ _ E6). destruct (e3 <? 0) eqn:He3; [rewrite <- Hk6; by apply Hfree|].
  exists s6. split_and!; [done|done|]. apply making_made; [done..| |]; by rewrite Hw6, Hw5.
Qed.

(** Without a free utcb the thread structure is lost: the pointer that is given
    back is the error. *)
Lemma without_utcb_a_thread_is_lost s : lib_ok s -> 0 < mc_free (thread_cache s) -> mc_free (utcb_cache s) = 0 ->
  exists bt s', l4_thread_alloc_init thread_list s = Ret (PTR_ERR (- ENOMEM)) s' /\ with_new (thread_cache s) (new_thread s bt) (thread_cache s') /\
    tl_total s' = tl_total s /\ tlinks s' = link_init (list_of (new_thread s bt)) (tlinks s).
Proof.
  intros [(Ht & Hts & Hte) Hu _ Hh Hl] Ft Fu. destruct (alloc_free _ Ht Ft) as (bt & Bt & Et).
  destruct (record_alloc_run _ Hu) as [[_ Eu]|[? _]]; [|lia]. pose proof (element_range _ _ Ht Bt) as (Pt & _).
  exists bt. unfold l4_thread_alloc_init, tset, links_do.
  rewrite (run_bind _ _ _ (new_thread s bt) (put_thread (taken (thread_cache s) bt) s)) by (unfold cache_alloc; by rewrite Et).
  run. rewrite (proj2 (Z.eqb_neq (new_thread s bt) 0)) by (unfold new_thread; lia). cbn [obind].
  unfold l4_thread_init, l4_utcb_alloc, cache_alloc, tset. run.
  match goal with |- context [mem_cache_alloc ?x] => change x with (utcb_cache s) end. rewrite Eu. cbn [obind Z.eqb].
  change (IS_ERR (PTR_ERR (- ENOMEM))) with true. cbn [obind]. unfold cache_free.
  assert (mem_cache_free (taken (thread_cache s) bt) (PTR_ERR (- ENOMEM)) = (-1, taken (thread_cache s) bt)) as Ef.
  { unfold mem_cache_free. change (PTR_ERR (- ENOMEM)) with 4294967284. change (mc_end (taken _ _)) with (mc_end (thread_cache s)).
    destruct (Z.ltb_spec (mc_end (thread_cache s)) 4294967284); [|lia]. by rewrite orb_true_r. }
  match goal with |- context [mem_cache_free ?x _] => change x with (taken (thread_cache s) bt) end. rewrite Ef. cbn [obind].
  eexists. split; [done|]. split; [by apply taken_new|done].
Qed.
End Theory.

(** * A library *)

(** A kernel that refuses the action [refused] and numbers the threads it makes. *)
Definition answers (refused a : Z) : Z := if a =? refused then -1 else 0.
#[local] Instance numbering : kernel_abi (Z * Z) := {
  sys_map _ _ _ _ _ k := (0, k); sys_unmap _ _ _ k := (0, k);
  sys_thread_control a ids k := (answers k.1 a, MkIds k.2 (ids_spid ids) k.2, (k.1, k.2 + 1));
  sys_exchange_registers _ _ k := (0, k) }.
Definition demo_ids (k : Z * Z) : task_ids := MkIds 1 1 1.
Definition no_cache : mem_cache := MkCache 0 0 0 0 0 [].
Definition no_lib : lib (Z * Z) := MkLib 0 true no_cache no_cache no_cache (fun _ => zeroed) (fun _ => Links.MkLink 0 0) (fun _ => 0) (THREAD_RUN, 2).
Definition lib_after {A} (m : prog (lib (Z * Z)) A) (s : lib (Z * Z)) : lib (Z * Z) := match m s with Ret _ s' => s' | _ => s end.
Definition demo_lib : lib (Z * Z) := lib_after (__l4_threadlib_init 0x40000 demo_ids 0x20000 0x10000 0x30000) no_lib.

(** The last stack and the last utcb end behind the arrays they are in. *)
Example caches_outgrow_their_arrays :
  let c := stack_cache demo_lib in let u := utcb_cache demo_lib in
  (mc_total c = 10 /\ 0x10000 + stack_bytes < record_of c 9 + STACK_SIZE) /\ (mc_total u = 10 /\ 0x20000 + utcb_bytes < record_of u 9 + UTCB_SIZE).
Proof. vm_compute. repeat split. Qed.
(** The first thread keeps the pointer to the stack it gave back, which the next
    thread gets. *)
Definition create_one : prog (lib (Z * Z)) (Z * option Z) := thread_create 0x40000 0x50000 demo_ids 0x60000 5 (Z.lor TC_SHARE_SPACE TC_NOSTART).
Example parent_shares_its_stack : let s := lib_after create_one demo_lib in
  t_stack (threads s (record_of (thread_cache s) 0)) = t_stack (threads s (record_of (thread_cache s) 1)) /\
  t_stack (threads s (record_of (thread_cache s) 1)) <> 0.
Proof. vm_compute. split; [reflexivity|discriminate]. Qed.
Lemma demo_lib_ok : lib_ok 0x40000 demo_lib.
Proof.
  assert (forall c, bool_decide (0 <= mc_total c <= Z.of_nat (length (mc_bitmap c)) * WORD_BITS /\ 0 < struct_size c /\
    (0 < mc_start c /\ mc_start c + struct_size c * mc_total c <= mc_end c < 2 ^ 32) /\ mc_free c = clear_bits (mc_bitmap c) (mc_total c)) = true -> cache_inv c) as Hc.
  { intros c (H1 & H2 & H3 & H4)%bool_decide_eq_true. by split. }
  split; [split; [|by split]| |split; [|by vm_compute]| |done]; try (apply Hc; vm_compute; reflexivity). vm_compute. by intros [_ H].
Qed.
Lemma thread_create_makes_or_gives_back_witness : lib_ok 0x40000 demo_lib /\
  exists s', thread_create 0x40000 0x50000 demo_ids 0x60000 5 TC_SHARE_SPACE demo_lib = Ret (-1, None) s' /\ lkern s' = (THREAD_RUN, 4) /\
    given_back 0x40000 demo_lib s'.
Proof.
  split; [exact demo_lib_ok|].
  destruct (thread_create_makes_or_gives_back 0x40000 0x50000 demo_ids 0x60000 5 TC_SHARE_SPACE demo_lib demo_lib_ok) as (bt & bu & bk & s' & E).
  1-4: vm_compute; reflexivity.
  exists s'. exact E.
Defined.
