(* ===== verification/Printk.v ===== *)
(** Formatted printing in the kernel: [src/lib/printk.c].

    What is printed is a list of characters; the result of a function is counted
    as the code counts it.  The arguments are a list; taking one of another kind
    than the one that was passed, or one too many, has no meaning ([None]).  The
    format is a list of characters without its end.  A shift by 32 or more gives
    0, as the processor's does. *)
From S2P Require Import Prelude Bits Defs.

Inductive arg := Word (w : Z) | Long (w : Z) | Str (s : option (list Z)).
Definition printed : Type := list Z * Z.
Definition space := 32.
Definition zero := 48.

(** [for (i = k; i > 0; i--, n++) putc (c);] *)
Definition pad (k c : Z) : list Z := replicate (Z.to_nat k) c.
Definition hexchars (x : Z) : Z := if x <? 10 then zero + x else 97 + (x - 10).
(** [while ((val >> (4 * nwidth)) && nwidth < 8) nwidth++;] *)
Fixpoint hex_width (n : nat) (nwidth val : Z) : Z :=
  match n with O => nwidth | S n => if Z.shiftr val (4 * nwidth) =? 0 then nwidth else hex_width n (nwidth + 1) val end.
(** [for (i = 4 * (n - 1); i >= 0; i -= 4, n++) putc (hexchars ((val >> i) & 0xF));] *)
Fixpoint hex_digits (n : nat) (val : Z) : list Z :=
  match n with O => [] | S n => hexchars (Z.land (Z.shiftr val (4 * Z.of_nat n)) 0xF) :: hex_digits n val end.
Definition count_of (l : list Z) : printed := (l, Z.of_nat (length l)).

Definition print_hex_5arg (val width precision : Z) (adjleft nullpad : bool) : printed :=
  let nwidth := hex_width 8 0 val in
  let nwidth := if nwidth =? 0 then 1 else nwidth in
  let nwidth := if nwidth <? precision then precision else nwidth in
  let width := if (width =? 0) && (width <? nwidth) then nwidth else width in
  count_of ((if negb adjleft then pad (width - nwidth) (if nullpad then zero else space) else []) ++
            hex_digits (Z.to_nat nwidth) val ++ (if adjleft then pad (width - nwidth) space else [])).
Definition print_hex_3arg (val width precision : Z) : printed := print_hex_5arg val width precision false false.
Definition print_hex64 (val width precision : Z) (adjleft nullpad : bool) : printed :=
  let high := u32 (Z.shiftr val 32) in
  let low := u32 val in
  let nwidth := if negb (high =? 0) then hex_width 8 0 high + 32 else hex_width 8 0 low in
  let nwidth := if nwidth =? 0 then 1 else nwidth in
  let nwidth := if nwidth <? precision then precision else nwidth in
  let width := if (width =? 0) && (width <? nwidth) then nwidth else width in
  let low_part (width nwidth : Z) (nullpad : bool) :=
    (if negb adjleft then pad (width - nwidth) (if nullpad then zero else space) else []) ++
    hex_digits (Z.to_nat nwidth) low ++ (if adjleft then pad (width - nwidth) space else []) in
  count_of (if negb (high =? 0) then
              (if negb adjleft then pad (width - nwidth) (if nullpad then zero else space) else []) ++
              hex_digits (Z.to_nat (nwidth - 32)) high ++ (if adjleft then pad (width - nwidth) space else []) ++
              low_part (width - 32) (nwidth - 32) true
            else low_part width nwidth nullpad).

Definition print_string_3arg (s : list Z) (width precision : Z) : printed :=
  let s := if precision =? 0 then s else take (Z.to_nat (Z.max precision 1)) s in
  count_of (s ++ pad (width - Z.of_nat (length s)) space).
Definition print_string_1arg (s : list Z) : printed := print_string_3arg s 0 0.
Definition print_hex_sep (val bits : Z) (sep : list Z) : printed :=
  let a := print_hex_3arg (Z.shiftr val bits) 0 0 in
  let b := print_string_1arg sep in
  let c := print_hex_3arg (Z.land val (u32 (Z.shiftl 1 bits - 1))) 0 0 in
  (a.1 ++ b.1 ++ c.1, a.2 + b.2 + c.2).

(** The largest power of ten that is no larger, with its place. *)
Fixpoint dec_divisor (n : nat) (val divisor digits : Z) : Z * Z :=
  match n with
  | O => (divisor, digits)
  | S n => if 10 <=? val / divisor then dec_divisor n val (u32 (divisor * 10)) (digits + 1) else (divisor, digits)
  end.
(** [do { putc(...); } while (divisor /= 10);] *)
Fixpoint dec_digits (n : nat) (val divisor : Z) : list Z :=
  match n with
  | O => []
  | S n => (val / divisor) mod 10 + zero :: (if negb (divisor / 10 =? 0) then dec_digits n val (divisor / 10) else [])
  end.
Definition print_dec (val width : Z) : printed :=
  let '(divisor, digits) := dec_divisor 9 val 1 1 in
  (pad (width - digits) space ++ dec_digits 10 val divisor, Z.max digits width).

(** The directive behind a percent sign: width, precision, padding with zeros; the
    character that ends it, 0 for the end of the format, and what follows.
    [dot]: the digits of a precision are being read. *)
Record directive := MkDirective { d_width : Z; d_precision : Z; d_nullpad : bool }.
#[export] Instance directive_shape : Shape directive := fun d => MkDirective (d_width d) (d_precision d) (d_nullpad d).
Definition is_digit (c : Z) : bool := (48 <=? c) && (c <=? 57).
Fixpoint scan (dot : bool) (d : directive) (l : list Z) : directive * Z * option (list Z) :=
  match l with
  | [] => (d, 0, None)
  | c :: l =>
      if dot && is_digit c then scan true (d <| d_precision ::= fun p => p * 10 + (c - 48) |>) l
      else if dot && (c =? 119) then scan false (d <| d_precision := 8 |>) l
      else if c =? 46 then scan true d l
      else if is_digit c then
        scan false (d <| d_nullpad ::= fun b => if c =? 48 then d_width d =? 0 else b |> <| d_width ::= fun w => w * 10 + (c - 48) |>) l
      else if c =? 119 then scan false (d <| d_width := 8 |>) l
      else if (c =? 45) || (c =? 108) then scan false d l
      else (d, c, Some l)
  end.
(** One directive: what it prints and the arguments that are left. *)
Definition convert (d : directive) (c : Z) (args : list arg) : option (printed * list arg) :=
  if c =? 99 then match args with Word w :: args => Some (([Z.land w 0xFF], 1), args) | _ => None end
  else if c =? 109 then match args with Long v :: args => Some (print_hex64 v (d_width d) (d_precision d) false (d_nullpad d), args) | _ => None end
  else if c =? 100 then
    match args with
    | Word w :: args =>
        if s32 w <? 0 then let p := print_dec (u32 (- s32 w)) (d_width d) in Some ((45 :: p.1, p.2), args)
        else Some (print_dec (u32 w) (d_width d), args)
    | _ => None
    end
  else if c =? 117 then match args with Word w :: args => Some (print_dec (u32 w) (d_width d), args) | _ => None end
  else if c =? 112 then match args with Word w :: args => Some (print_hex_5arg (u32 w) (d_width d) 8 false (d_nullpad d), args) | _ => None end
  else if c =? 120 then match args with Word w :: args => Some (print_hex_5arg (u32 w) (d_width d) (d_precision d) false (d_nullpad d), args) | _ => None end
  else if c =? 115 then
    match args with
    | Str s :: args => Some (print_string_3arg (default [40; 110; 117; 108; 108; 41] s) (d_width d) (d_precision d), args)
    | _ => None
    end
  else if (c =? 116) || (c =? 84) then Some (([], 0), args)
  else if c =? 37 then Some (([37], 1), args)
  else Some (print_string_1arg [63], args).
(** [None] also when the format ends within a directive: the code goes on behind
    its end. *)
Fixpoint print_format (n : nat) (format : list Z) (args : list arg) : option printed :=
  match n with
  | O => None
  | S n =>
      match format with
      | [] => Some ([], 0)
      | c :: l =>
          if c =? 37 then
            match scan false (MkDirective 0 0 false) l with
            | (d, c, Some l) => '(p, args) ← convert d c args; r ← print_format n l args; Some (p.1 ++ r.1, p.2 + r.2)
            | (_, _, None) => None
            end
          else r ← print_format n l args; Some (c :: r.1, r.2 + 1)
      end
  end.
Definition do_printk (format : list Z) (args : list arg) : option printed := print_format (S (length format)) format args.

(** * What is printed reads back *)

(** The value of digits in [base] behind those of [acc]; spaces do not count. *)
Definition digit_value (c : Z) : Z := if is_digit c then c - zero else c - 87.
Fixpoint read (base acc : Z) (l : list Z) : Z :=
  match l with [] => acc | c :: l => read base (if c =? space then acc else acc * base + digit_value c) l end.
Definition read_signed (l : list Z) : Z :=
  match l with c :: l' => if c =? 45 then - read 10 0 l' else read 10 0 l | [] => 0 end.

Lemma s32_u32 w : 0 <= w < 2 ^ 32 -> s32 w = w /\ w < 2 ^ 31 \/ s32 w = w - 2 ^ 32 /\ 2 ^ 31 <= w.
Proof. intros Hw. unfold s32. Z.to_euclidean_division_equations. lia. Qed.
Lemma read_app base l1 : forall acc l2, read base acc (l1 ++ l2) = read base (read base acc l1) l2.
Proof. induction l1 as [|c l1 IH]; intros acc l2; cbn [read app]; [done|apply IH]. Qed.
Lemma read_spaces base k acc : read base acc (pad k space) = acc.
Proof. unfold pad. induction (Z.to_nat k) as [|n IH]; [done|exact IH]. Qed.
Lemma read_zeros base k : read base 0 (pad k zero) = 0.
Proof. unfold pad. induction (Z.to_nat k) as [|n IH]; [done|exact IH]. Qed.
Lemma length_pad k c : Z.of_nat (length (pad k c)) = Z.max 0 k.
Proof. unfold pad. rewrite length_replicate. lia. Qed.

(** ** Hexadecimal *)

Lemma hexchar_value x : 0 <= x < 16 -> hexchars x <> space /\ digit_value (hexchars x) = x.
Proof.
  intros Hx. unfold hexchars, digit_value, is_digit, zero, space. destruct (Z.ltb_spec x 10).
  - replace ((48 <=? 48 + x) && (48 + x <=? 57)) with true by lia. lia.
  - replace ((48 <=? 97 + (x - 10)) && (97 + (x - 10) <=? 57)) with false by lia. lia.
Qed.
Lemma hex_digits_read n v : 0 <= v -> forall acc, read 16 acc (hex_digits n v) = acc * 16 ^ Z.of_nat n + v mod 16 ^ Z.of_nat n.
Proof.
  intros Hv. induction n as [|n IH]; intros acc; cbn [hex_digits read]; [rewrite Z.mod_1_r; lia|].
  set (d := Z.land (Z.shiftr v (4 * Z.of_nat n)) 0xF). assert (d = v / 16 ^ Z.of_nat n mod 16) as Ed.
  { unfold d. change 0xF with (Z.ones 4). rewrite Z.land_ones, Z.shiftr_div_pow2 by lia. by rewrite Z.pow_mul_r by lia. }
  destruct (hexchar_value d) as [Hne Hd]; [rewrite Ed; apply Z.mod_pos_bound; lia|].
  rewrite (proj2 (Z.eqb_neq _ _) Hne), IH, Hd, Ed, Nat2Z.inj_succ, Z.pow_succ_r by lia.
  rewrite (Z.mul_comm 16), Z.rem_mul_r by lia. lia.
Qed.
Lemma length_hex_digits n v : length (hex_digits n v) = n.
Proof. induction n as [|n IH]; cbn; [done|by rewrite IH]. Qed.
Lemma hex_width_enough n : forall w v, 0 <= v < 16 ^ (w + Z.of_nat n) -> 0 <= w -> w <= hex_width n w v /\ v < 16 ^ hex_width n w v.
Proof.
  induction n as [|n IH]; intros w v Hv Hw; cbn [hex_width]; [rewrite Z.add_0_r in Hv; lia|].
  destruct (Z.eqb_spec (Z.shiftr v (4 * w)) 0) as [E|_].
  - split; [done|]. rewrite Z.shiftr_div_pow2, Z.pow_mul_r in E by lia. change (2 ^ 4) with 16 in E.
    apply Z.div_small_iff in E; lia.
  - rewrite Nat2Z.inj_succ in Hv. replace (w + Z.succ (Z.of_nat n)) with (w + 1 + Z.of_nat n) in Hv by lia.
    destruct (IH (w + 1) v Hv ltac:(lia)). lia.
Qed.
Lemma print_hex_reads_back v width precision adjleft nullpad : 0 <= v < 2 ^ 32 ->
  let p := print_hex_5arg v width precision adjleft nullpad in read 16 0 p.1 = v /\ p.2 = Z.of_nat (length p.1).
Proof.
  intros Hv. split; [|done]. unfold print_hex_5arg, count_of. cbn [fst].
  destruct (hex_width_enough 8 0 v) as [H0 Hw]; [change (16 ^ (0 + Z.of_nat 8)) with (2 ^ 32); lia|lia|].
  set (w := hex_width 8 0 v) in *. set (n1 := if w =? 0 then 1 else w). set (n2 := if n1 <? precision then precision else n1).
  assert (w <= n2) as Hn by (unfold n2; assert (w <= n1) by (unfold n1; destruct (Z.eqb_spec w 0); lia); destruct (Z.ltb_spec n1 precision); lia).
  rewrite !read_app. assert (forall b c, read 16 0 (if b : bool then pad c (if nullpad then zero else space) else []) = 0) as ->
    by (intros [] c; [destruct nullpad; [apply read_zeros|apply read_spaces]|done]).
  rewrite hex_digits_read by lia. assert (v < 16 ^ n2) by (pose proof (Z.pow_le_mono_r 16 w n2); lia).
  rewrite Z2Nat.id, Z.mod_small by lia. by destruct adjleft; [apply read_spaces|].
Qed.

(** ** Decimal *)

Lemma dec_digits_read v (n k : nat) : 0 <= v -> (k < n)%nat -> forall acc,
  read 10 acc (dec_digits n v (10 ^ Z.of_nat k)) = acc * 10 ^ Z.of_nat (S k) + v mod 10 ^ Z.of_nat (S k) /\ length (dec_digits n v (10 ^ Z.of_nat k)) = S k.
Proof.
  intros Hv. revert n. induction k as [|k IH]; intros [|n] Hn acc; try lia; cbn [dec_digits read].
  all: set (d := v / 10 ^ Z.of_nat _ mod 10); assert (0 <= d < 10) as Hd by (apply Z.mod_pos_bound; lia);
    assert (digit_value (d + zero) = d /\ d + zero <> space) as [Ed Hne]
      by (unfold digit_value, is_digit, zero, space; replace ((48 <=? d + 48) && (d + 48 <=? 57)) with true by lia; lia);
    rewrite (proj2 (Z.eqb_neq _ _) Hne), Ed.
  - change (10 ^ Z.of_nat 0 / 10) with 0. cbn [Z.eqb negb read length]. unfold d. change (10 ^ Z.of_nat 0) with 1. rewrite Z.div_1_r.
    change (10 ^ Z.of_nat 1) with 10. lia.
  - assert (10 ^ Z.of_nat (S k) / 10 = 10 ^ Z.of_nat k) as ->.
    { rewrite Nat2Z.inj_succ, Z.pow_succ_r, Z.mul_comm by lia. apply Z.div_mul. lia. }
    rewrite (proj2 (Z.eqb_neq (10 ^ Z.of_nat k) 0)) by lia. cbn [negb]. destruct (IH n ltac:(lia) (acc * 10 + d)) as [E El].
    split; [|cbn [length]; by rewrite El]. rewrite E. unfold d. rewrite (Nat2Z.inj_succ (S k)), (Z.pow_succ_r 10 (Z.of_nat (S k))) by lia.
    rewrite (Z.mul_comm 10 (10 ^ _)), (Z.rem_mul_r v (10 ^ Z.of_nat (S k)) 10) by lia. lia.
Qed.
Lemma dec_divisor_spec n v : forall k : nat, 0 <= v < 10 ^ Z.of_nat (S k + n) -> (k + n < 10)%nat ->
  exists j : nat, dec_divisor n v (10 ^ Z.of_nat k) (Z.of_nat (S k)) = (10 ^ Z.of_nat j, Z.of_nat (S j)) /\ v < 10 ^ Z.of_nat (S j) /\ (j <= k + n)%nat.
Proof.
  induction n as [|n IH]; intros k Hv Hk; cbn [dec_divisor]; [exists k; rewrite Nat.add_0_r in Hv; split_and!; [done|lia|lia]|].
  destruct (Z.leb_spec 10 (v / 10 ^ Z.of_nat k)) as [Hl|Hl].
  - assert (u32 (10 ^ Z.of_nat k * 10) = 10 ^ Z.of_nat (S k)) as ->.
    { rewrite Nat2Z.inj_succ, Z.pow_succ_r, (Z.mul_comm 10) by lia. apply u32_id. unfold is_u32.
      pose proof (Z.pow_le_mono_r 10 (Z.of_nat k) 8). lia. }
    replace (Z.of_nat (S k) + 1) with (Z.of_nat (S (S k))) by lia. destruct (IH (S k)) as (j & E & Hj & Hjk); [|lia|].
    + by replace (S (S k) + n)%nat with (S k + S n)%nat by lia.
    + exists j. split_and!; [done|done|lia].
  - exists k. split_and!; [done| |lia]. rewrite Nat2Z.inj_succ, Z.pow_succ_r by lia.
    assert (v < 10 ^ Z.of_nat k * (v / 10 ^ Z.of_nat k + 1)) by (pose proof (Z.mul_succ_div_gt v (10 ^ Z.of_nat k)); lia). nia.
Qed.
Lemma print_dec_reads_back v width : 0 <= v < 2 ^ 32 -> let p := print_dec v width in read 10 0 p.1 = v /\ p.2 = Z.of_nat (length p.1).
Proof.
  intros Hv. unfold print_dec. destruct (dec_divisor_spec 9 v 0) as (j & E & Hj & Hjk); [change (10 ^ Z.of_nat (1 + 9)) with 10000000000; lia|lia|].
  change (dec_divisor 9 v 1 1) with (dec_divisor 9 v (10 ^ Z.of_nat 0) (Z.of_nat 1)). rewrite E. cbn [fst snd].
  destruct (dec_digits_read v 10 j ltac:(lia) ltac:(lia) 0) as [Er El].
  rewrite read_app, read_spaces, Er, Z.mod_small, length_app, El, Nat2Z.inj_add, length_pad by lia. lia.
Qed.
Lemma dec_digits_no_sign n : forall v d, Forall (fun c => c <> 45) (dec_digits n v d).
Proof.
  induction n as [|n IH]; intros v d; cbn [dec_digits]; constructor; [pose proof (Z.mod_pos_bound (v / d) 10); unfold zero; lia|].
  destruct (negb _); [apply IH|constructor].
Qed.
Lemma print_dec_unsigned v width : read_signed (print_dec v width).1 = read 10 0 (print_dec v width).1.
Proof.
  assert (Forall (fun c => c <> 45) (print_dec v width).1) as Hf.
  { unfold print_dec. destruct (dec_divisor 9 v 1 1) as [d k]. cbn [fst]. apply Forall_app. split; [by apply Forall_replicate|apply dec_digits_no_sign]. }
  destruct (print_dec v width).1 as [|c l]; [done|]. cbn [read_signed]. by rewrite (proj2 (Z.eqb_neq c 45)) by (by apply Forall_inv in Hf).
Qed.

(** ** Formats *)

Definition is_flag (c : Z) : Prop := is_digit c = true \/ c = 46 \/ c = 119 \/ c = 45 \/ c = 108.
Definition converts (c : Z) : Prop := c = 100 \/ c = 117 \/ c = 120 \/ c = 112.
(** Widths, precisions and padding are read up to the character that converts. *)
Lemma scan_flags fl c l : Forall is_flag fl -> converts c -> forall dot d, exists d', scan dot d (fl ++ c :: l) = (d', c, Some l).
Proof.
  intros Hfl Hc. induction Hfl as [|f fl Hf _ IH]; intros dot d; cbn [app scan].
  - exists d. by destruct dot, Hc as [->|[->|[->| ->]]].
  - destruct (dot && is_digit f) eqn:E1; [apply IH|]. destruct (dot && (f =? 119)) eqn:E2; [apply IH|].
    destruct (f =? 46) eqn:E3; [apply IH|]. destruct (is_digit f) eqn:E4; [apply IH|]. destruct (f =? 119) eqn:E5; [apply IH|].
    destruct ((f =? 45) || (f =? 108)) eqn:E6; [apply IH|]. destruct Hf as [Hf|[->|[->|[->| ->]]]]; try discriminate. congruence.
Qed.
Lemma do_printk_one fl c w : Forall is_flag fl -> converts c ->
  exists d, do_printk (37 :: fl ++ [c]) [Word w] = r ← convert d c [Word w]; Some (r.1.1 ++ [], r.1.2 + 0).
Proof.
  intros Hfl Hc. destruct (scan_flags fl c [] Hfl Hc false (MkDirective 0 0 false)) as (d & E). exists d.
  unfold do_printk. cbn [length print_format]. rewrite Z.eqb_refl, E. destruct (convert d c [Word w]) as [[p args]|]; [|done]. cbn.
  by destruct (length (fl ++ [c])) eqn:El; [rewrite length_app in El; cbn in El; lia|].
Qed.
(** Text without a percent sign is printed as it is. *)
Lemma do_printk_text l args : Forall (fun c => c <> 37) l -> do_printk l args = Some (l, Z.of_nat (length l)).
Proof.
  unfold do_printk. induction 1 as [|c l Hc _ IH]; [done|]. change (S (length (c :: l))) with (S (S (length l))).
  cbn [print_format] in *. rewrite (proj2 (Z.eqb_neq c 37)) by done. cbn [print_format] in IH. rewrite IH. cbn. repeat f_equal. lia.
Qed.

(** A word printed by a directive of any width, precision and padding reads back:
    as a signed number after a ['d'], unsigned after a ['u'], in hexadecimal after
    an ['x'] or a ['p'].  The result counts the characters, but not the sign. *)
Theorem printk_reads_back fl w : Forall is_flag fl -> 0 <= w < 2 ^ 32 ->
  (exists l n, do_printk (37 :: fl ++ [100]) [Word w] = Some (l, n) /\ read_signed l = s32 w /\
     n = Z.of_nat (length l) - (if s32 w <? 0 then 1 else 0)) /\
  (exists l n, do_printk (37 :: fl ++ [117]) [Word w] = Some (l, n) /\ read 10 0 l = w /\ n = Z.of_nat (length l)) /\
  (forall c, c = 120 \/ c = 112 -> exists l n, do_printk (37 :: fl ++ [c]) [Word w] = Some (l, n) /\ read 16 0 l = w /\ n = Z.of_nat (length l)).
Proof.
  intros Hfl Hw. assert (is_u32 w) as Hu by (unfold is_u32; lia). split_and!.
  - destruct (do_printk_one fl 100 w Hfl ltac:(by left)) as (d & ->). unfold convert. cbn [Z.eqb Pos.eqb]. destruct (Z.ltb_spec (s32 w) 0) as [Hn|Hn].
    + destruct (print_dec_reads_back (u32 (- s32 w)) (d_width d)) as [E1 E2]; [apply u32_range|]. cbn -[print_dec]. rewrite app_nil_r. do 2 eexists. split; [done|].
      cbn [read_signed length Z.eqb Pos.eqb]. rewrite E1, E2, u32_id by (pose proof (s32_u32 w Hw); unfold is_u32; lia). lia.
    + destruct (print_dec_reads_back (u32 w) (d_width d)) as [E1 E2]; [apply u32_range|]. cbn -[print_dec]. rewrite app_nil_r. do 2 eexists. split; [done|].
      rewrite print_dec_unsigned, E1, E2, u32_id by done. pose proof (s32_u32 w Hw). lia.
  - destruct (do_printk_one fl 117 w Hfl ltac:(right; by left)) as (d & ->). unfold convert. cbn [Z.eqb Pos.eqb].
    destruct (print_dec_reads_back (u32 w) (d_width d)) as [E1 E2]; [apply u32_range|]. cbn -[print_dec]. rewrite app_nil_r. do 2 eexists. split; [done|].
    rewrite E1, E2, u32_id by done. lia.
  - intros c Hc. destruct (do_printk_one fl c w Hfl ltac:(destruct Hc; unfold converts; tauto)) as (d & ->).
    assert (exists precision, convert d c [Word w] = Some (print_hex_5arg (u32 w) (d_width d) precision false (d_nullpad d), [])) as (pr & ->)
      by (destruct Hc as [->| ->]; by eexists).
    destruct (print_hex_reads_back (u32 w) (d_width d) pr false (d_nullpad d)) as [E1 E2]; [apply u32_range|].
    cbn -[print_hex_5arg]. rewrite app_nil_r. do 2 eexists. split; [done|]. rewrite E1, E2, u32_id by done. lia.
Qed.
Lemma printk_reads_back_witness : Forall is_flag [48; 49; 50] /\ exists l n, do_printk (37 :: [48; 49; 50] ++ [100]) [Word 0xFFFFFFD6] = Some (l, n) /\ read_signed l = -42.
Proof.
  assert (Forall is_flag [48; 49; 50]) as Hf by (repeat constructor; by left). split; [exact Hf|].
  destruct (proj1 (printk_reads_back [48; 49; 50] 0xFFFFFFD6 Hf ltac:(lia))) as (l & n & E1 & E2 & _). exists l, n. split; [exact E1|]. rewrite E2. reflexivity.
Defined.

(** A number of more than 32 bits loses digits: 0x100000002 is printed as 12. *)
Example print_hex64_loses_digits : print_hex64 0x100000002 0 0 false false = ([49; 50], 2).
Proof. vm_compute. reflexivity. Qed.
(** A format that ends in a percent sign is read behind its end. *)
Example printk_overruns : do_printk [37] [] = None.
Proof. reflexivity. Qed.
